(* ===== verification/_CoqProject ===== *)
-Q . S2P
Prelude.v
CFloat.v
CText.v
CDecimal.v
Crc.v
CFile.v
Tconv.v
Ramp.v
Iir.v
FilterModule.v
FilterProps.v
FilterLoad.v
FilterReload.v
FilterFile.v
FilterFileProps.v
GdsRand.v
AwgFunc.v
AwgSort.v
Awg.v
AwgCalc.v
AwgProps.v
AwgPage.v
AwgStream.v
Rm.v
TpServer.v
TpProps.v
TpHistory.v
TpIndex.v
AwgOut.v
AwgSlot.v
AwgOutProps.v
Ipc.v
Dac.v
DacProps.v
Adc.v
AdcProps.v
Cycle.v
Timing.v
DaqConfig.v
DaqWrite.v
DaqProps.v
DaqSelect.v
AwgDeliver.v
Param.v
ParamProps.v
Mbuf.v
SdfText.v
SdfTable.v
SdfFile.v
SdfProps.v
SdfFilters.v
SdfRestore.v
