(* ===== verification/Prelude.v ===== *)
(** * advLigoRTS: the real-time front end, verified

    ** The program

    advLigoRTS runs the digital control loops of a gravitational wave detector.
    A front end computer runs one _I/O processor_ (IOP) and several _control
    models_, each an endless loop over generated code, at rates from 2048 to
    65536 cycles a second.  In every cycle a model takes its ADC inputs and the
    values other models send it, computes (mostly in _standard filter modules_),
    sends values on, writes its DAC outputs, and hands samples of its signals to
    the data acquisition system.  Beside each model an EPICS process in user
    space holds the operator settings, parses filter files and publishes filter
    coefficients in shared memory, and a server, _awgtpman_, generates test
    signals that a model adds to its own.  Most C sources are included textually in the
    model's main file, so a "call" of a file below is a call inside one program.

    What is verified here is the part all models share and that carries the
    signals (filter modules, coefficient loading, ramps, inter-process
    communication, the ADC and DAC paths and data acquisition), the cycle of the
    IOP's and of the models' main loops that drives them, the measurement of
    time, the driver that lends the programs of a front end the memory they
    share, the waveform generators, and the _set point monitor_, the user space program that compares the settings in the EPICS database with
    a reference file, shows the differences to the operator, and saves and
    restores files.

    ** The files

    - [Prelude]: C integers as [Z] with explicit conversions ([u32], [s32], ...),
      the loops [for_up] and [for_exit], generic list lemmas, automation.
    - [CFloat]: the interface [FloatOps] of the C floating point operations and
      its two instances: IEEE 754 binary64 (computed with, by the witnesses)
      and the real numbers.  The code is translated once, over the interface.
    - [Crc] ([src/drv/crc.c]): the checksum shared by the two filter loading
      ends and by data acquisition.
    - [Ramp] ([src/include/drv/tRamp.c], [inputFilterModule*.h]): soft ramps of
      gains and offsets; used by the filter modules and by generated code.
    - [Iir] (first part of [src/include/drv/fm10Gen.c], end of
      [src/drv/fmReadCoeff.c]): second order section, biquad and FIR filters;
      used by filter modules, DAC upsampling and acquisition decimation.
    - [FilterModule], [FilterProps] ([fm10Gen.c], [fm10Gen.h]):
      [filterModuleD2] and [filterModuleD], cut in four parts (switches, input
      stage, the ten filter stages, output stage) on a [module_view] of the one
      module the call is for; [put_view] stores it back in the arrays.
    - [FilterLoad], [FilterReload] ([fm10Gen.c], [fmReadCoeff.c]): coefficients
      from the EPICS process to the front end, at start and as the one section
      per cycle state machine [checkFiltReset].
    - [FilterFile], [FilterFileProps] ([fmReadCoeff.c]): the reader of filter
      files, from the text to the published coefficients, and the partial file
      for the load of one module.
    - [Ipc] ([src/fe/commData3.c]): values between models over shared memory,
      PCIe and reflected memory.
    - [Dac], [DacProps] ([app_dac_functions.c], [iop_dac_functions.c],
      [dac_info.c]): allocation of DAC channels to models, the models' end and
      the IOP's end of the output path, and supervision of the cards.
    - [Adc], [AdcProps] ([app_adc_read.c], [iop_adc_functions.c],
      [adc_info.c]): the IOP's end of the input path, which waits for the card,
      checks and decimates its samples and publishes them, the models' end,
      which waits for the block of its cycle, and the counters they report.
    - [Cycle] ([src/fe/controllerApp.c], [controllerIop.c], [controller.h]): the
      counters and phases of the main loops, and what is done in which cycle.
    - [Timing] ([src/fe/timing.c]): minima, maxima and histories of the times of
      the cycle, and the duotone fit.
    - [DaqConfig], [DaqWrite], [DaqProps] ([daqLib.c], [daqmap.h]): data
      acquisition, configured by [daqConfig] and [loadLocalTable], then driven
      once a cycle by [daq_write]; [DaqSelect]: the selection of excitations.
    - [Mbuf] ([src/drv/mbuf/mbuf.c], [kvmem.c]): the kernel driver of named
      shared memory areas, the calls of kernel modules and processes on it, and the
      specification they refine.
    - [CText]: [printf], [scanf], [strtol] and [strtod] of numbers, and searches
      in strings, as far as the code uses them; [CDecimal]: the text of a double is
      the nearest decimal of its digits, and reads back as that decimal; [CFile]: a file as the pieces
      that successive [fgets] calls return, and the checksum over them.
    - [Tconv] ([src/gds/tconv.c]): GPS seconds, UTC and leap seconds.
    - [Param], [ParamProps] ([src/drv/param.c]): the parsers of the channel and
      test point files, which build the table [DaqConfig] works on.
    - [GdsRand] ([src/gds/gdsrand.c]): random numbers and the filter of noise.
    - [AwgFunc], [AwgSort] ([src/gds/awgfunc.c]): the components of waveforms,
      their signals and ramps, the lists they are kept in and the heap sort.
    - [Awg], [AwgProps] ([src/gds/awg.c]): the bank of waveform generators and the
      commands on its slots.
    - [AwgCalc], [AwgPage], [AwgStream] (the same file): the samples a slot adds
      up in a sixteenth of a second, and streams sent by clients.
    - [AwgSlot] (the same file): one slot at a time: lengths, and what a slot's
      epoch depends on and leaves alone.
    - [Rm] ([src/gds/rmapi.c], [map_v3.h], [rmorg.h]): the shared memory of a model
      as the test point manager sees it, and its layout.
    - [TpServer] ([src/gds/testpoint_server.c]): the test points in use, by slot, with
      their users; [TpProps], [TpHistory]: its invariants, and the server over time.
    - [TpIndex] ([src/gds/testpoint.c]): the index the server publishes in [Rm], and
      its readings once a second.
    - [AwgOut], [AwgOutProps] ([src/gds/awg.c]): the two tasks that compute the pages
      of an epoch and copy them to the slots of the index; [AwgDeliver]: the two
      tasks, clients and the front end ([DaqWrite]) over time.
    - [SdfText] ([src/epics/seq/main.c]): splitting the lines of a set point
      file, quoting strings, and the text shown for filter switches.
    - [SdfTable] (the same file): the tables of settings and of differences, the
      interface [Epics] to the database, and the operations on the tables:
      marking, checking, showing, accepting and reverting differences.
    - [SdfFile] (the same file): reading a set point file into the tables,
      writing one, and the checksum of a file.
    - [SdfProps], [SdfFilters], [SdfRestore]: theorems on the three files before,
      the second together with [FilterModule].

    [FilterModule], [Dac], [Adc] and [DaqWrite] use [Iir] and [CFloat]; [Adc]
    publishes in the blocks of [Dac], [Cycle] uses [Adc]; [FilterModule]
    uses [Ramp]; [FilterLoad], [DaqWrite] and [SdfFile] use [Crc]; [FilterFile] fills
    and publishes the records of [FilterLoad]; [SdfTable]
    uses [SdfText], and [SdfFile] uses [SdfTable]; [Param], [FilterFile] and [SdfFile] read
    files by [CFile], and [Param] fills the tables of [DaqConfig].  [AwgFunc] draws
    noise from [GdsRand], [Awg] keeps lists of its components, and [AwgCalc] plays
    the lists of [Awg].  [TpServer] writes to [Rm], [TpIndex] reads it, and [AwgOut]
    puts the pages of [AwgCalc] where [TpIndex] says; [DaqWrite] finds them there.
    Files named [...Props] and [FilterReload], [SdfFilters], [SdfRestore], [AwgPage],
    [AwgStream], [AwgSlot], [AwgDeliver], [DaqSelect] and [TpHistory] hold theorems about the files before them; the other files hold both the model
    and its theorems.

    ** How the code is modelled

    Structs are records and carry the fields of the source by their C names,
    up to a prefix where two structs share a name.  Arrays are lists, or
    functions from an index where the code's arrays are larger than what a call
    touches; a function that changes state through pointers takes the state as an
    argument and returns it.  Static variables are fields of a state record
    ([LoadState], [CheckState], [DaqState]).  Each loop of the source is a
    [for_up] or [for_exit] (the loop with an early [return]) over the body, with
    the bounds of the source, or a recursion on the list it walks; every modelled
    function is total.  Three loops on integers take fuel: the guess of the year in
    [Tconv] (8 rounds, shown to be enough for 2^46 seconds), the halving of a
    32 bit rate in [Param] (32 rounds), and the bytes of a 32 bit length in
    [Crc] (4 rounds).  Two loops on a list take a multiple of its length, the
    binary search and the heap sort of [AwgFunc], which are shown to end within it.
    The draw of a point of the unit circle in [GdsRand] has no bound in the
    code; its fuel is an argument, and without it there is no result.  Where the machine traps the model has no
    result:
    [acquire] and [daq_write] return [None] when they divide by zero.

    Integers keep their width: conversions to [int], [short] and unsigned types
    wrap explicitly, and a floating point number outside the range of an
    integer type converts to the x86 "integer indefinite" value, as [FloatOps]
    says.  Order of evaluation, reuse of stale values and stores past an
    array's row are modelled where a property depends on them: data blocks of
    [DaqWrite] are the list of stores with their addresses, and preloading DACs
    in [iop_dac_recover] reads across the rows of [dacOutEpics].

    Theorems on the algebra of filters and ramps are stated over the reals;
    theorems on switching, loading, communication, routing and conversion hold
    for every instance of [FloatOps] or for binary64, as their statements say.

    Constants of a build are arguments: the cycle rates, [MAX_MODULES], the size
    of the standard EPICS structure, the cards found.  Device registers and
    clocks are inputs of the definitions that read them.  A loop that polls a
    device or another program takes the list of values it will read; when the
    list ends before the loop does, the outcome is [Waiting], and theorems say
    which lists end the loop.

    Services outside the repository are interfaces.  The EPICS database is the
    class [Epics] (look up a channel, get and put its value, its severities);
    theorems on the set point monitor assume of it [EpicsLaws], which is what its
    documentation promises (a value put is the value got, other channels keep
    theirs), the check of filter modules [SwitchLaws] (a text written leaves
    the integer of other records); [DemoDb] is an instance that satisfies them.  The address
    [vmalloc] returns is an argument of the driver's [allocate].  A file is its
    text, and numbers are printed and parsed by [CText].  An access outside an
    array or a mapping that the machine would not survive is [None].

    ** What is proved

    - _Filter modules._  A stage of a module refines a four state switching
      machine, and a requested switch completes within a stated number of
      cycles; a settled module computes gain times the cascade of its engaged
      stages; the three IIR forms are the cascades of their sections, satisfy
      the difference equation of their transfer function, and agree; the limiter
      limits; hold, output and decimation switches; a call changes its own
      module only.
    - _Coefficients._  Publication followed by reload gives the published filter
      and the published checksum in a known number of cycles; the checksum is
      CRC-32 and detects bursts of 32 bits; a bad checksum is never refused.
    - _Filter files._  A file means the filters its lines say; the sections of a
      filter reach the filter routines of the front end as the file declares
      them, through placeholder, publication and reload, in the form the front end
      was started with; a call that fails
      publishes nothing, one that succeeds checks and archives the file whole;
      no coefficient is stored outside of its row; the load of one module
      replaces its part of the file, and deletes it when there is no other.
    - _Ramps._  From rest, a ramp reaches its request monotonically; interrupted
      at one particular velocity, it never does.
    - _Communication._  For all pairs of rates a value sent is received in
      the cycle meant; a value received was sent for that cycle; errors are
      reported exactly.
    - _DAC._  Models never share a channel, so that none writes another's words;
      the word a model publishes is what the card is given; a stale block makes
      the IOP send zeros; rounding, clipping and FIFO supervision, with the
      cases in which they go wrong.
    - _ADC._  The filter of a row of memory is called exactly with the samples the cards
      gave for the channels of the row, in order, from the card to the model's input,
      and a channel's words are its outputs for the channel's samples; a row has one
      channel in a model whose cards have the same number of channels, and with
      cards of mixed kinds several; a model takes every
      sample the IOP published, once; the wait for a sample ends, with the sample
      or with an error at the clock's limit; a late read still sets the latch
      that reports it.
    - _Main loop._  Data blocks are written in step with the second at every rate
      up to 128K, and out of step above; the filter modules are checked for new
      coefficients once per block each; the times reported are the extremes of
      the second; the duotone fit is exact on a line.
    - _Shared memory._  The driver refines a bounded map from names to areas
      with a count of users; an area is kept while it is used; a mapping lies
      within its area unless its offset wraps around, when it can lie below;
      closing a file after an explicit release drops another user's reference.
    - _Set points._  Saving the settings and loading the file gives the same
      table, numbers to the 16 digits of the file; accepting or reverting every difference leaves none; the check
      reports a setting exactly when it differs; the counts shown are the counts
      of marks; the text shown for filter switches is faithful, and registers
      shown alike give the same signal; the checksum of a file is the CRC of its
      bytes however it is cut in pieces; alarm settings are lost by a save.
    - _Time._  GPS seconds convert to proper dates, leap seconds included, and
      back to themselves; the portable form is faithful; the search for the next
      leap second always finds the first one of the table.
    - _Channel files._  A file means what its sections mean one after the other;
      the list of channels is well formed whatever the file says, and its
      channels are ones data acquisition can work with; the archive is the file
      and the checksum that of the archive; long values overrun the buffer.
    - _Waveforms._  Components are sorted, searched and inserted in order, valid
      ones only; two slots are never bound to one channel; a stopped component
      expires, unless it has yet to start, when it becomes endless; a page a
      client streams is played at its epoch, whatever happens meanwhile;
      periodic signals keep their phase, gains ramp along a line, sweeps join;
      the random generator has its full period and leaves its table never.
    - _Test points._  The server is a registry of users and expiries, call by call; a
      number in use keeps its slot, but for a "clear all" if it is preselected; what is admitted fits the blocks of the
      memory; users that have expired go; a request there is no room for blocks
      the server for ever.
    - _Excitations._  A second is played with the slots the server had published
      before it; whatever the order of the tasks' steps, a page goes to a channel
      of its own block; the samples a generator computes for a test point in the
      server's table are those the filter module of this test point gets, cycle by
      cycle, and where there is no generator it gets nothing;
      a page that was too late is not copied, but may come back sixteen epochs
      later.
    - _Data acquisition._  Both configuration functions agree on the layout of
      a block; the samples of a cycle land inside their channels' parts,
      signed 32-bit channels excepted; bit words are combined by AND;
      reconfiguration under active test points and with a bad channel count.

    A theorem with hypotheses is followed by its [..._witness], which applies it
    to concrete data.

    ** What is not modelled

    - The build with [FIR_FILTERS] of the filter modules (the FIR routine itself
      is in [Iir]); of [fmReadCoeff.c] the names of files it composes, and
      failures to write or close a file it has opened.
    - Of the main loops ([controllerIop.c], [controllerApp.c]), initialisation,
      the status words and the code generated for a model; their user space
      variants; the Symmetricom receiver, DMA set-up and the kernel's clock.
    - Card drivers, PCI enumeration, and the reflected memory, Dolphin and GPS
      drivers, which are accesses to device registers and kernel calls.
    - Of the set point monitor, the main loop that watches the requests of the
      operator, the names of files it composes, its alarm file, and the build
      with [CA_SDF], which uses channel access in place of the local database.
    - Of the waveform generators, the configuration file, output to converter
      boards, instruments and files, the reports and statistics, and the locks
      between commands; of the test point manager, requests by name, the start
      of the service and the remote procedure calls themselves.
    - The EPICS state notation programs, the data concentrator, network data server, viewer, streamers
      and the ZMQ variant of data acquisition.

    Next in order: changes of a selection in [DaqWrite] (so far from an empty one, or
    across a reconfiguration), the decimation filter tables against each other,
    and the main loop of the set point monitor. *)
From stdpp Require Export prelude list.
From Stdlib Require Export ZArith Lia.

#[global] Open Scope Z_scope.
Set Default Goal Selector "!".

(** ** Machine integers

    A C integer is a [Z]; the conversions below are the value-preserving or
    wrapping conversions of the x86-64 ABI the front end is built for. *)
Definition wrap (w : Z) (z : Z) : Z := z mod 2 ^ w.
Definition swrap (w : Z) (z : Z) : Z := (z + 2 ^ (w - 1)) mod 2 ^ w - 2 ^ (w - 1).
Abbreviation u8 := (wrap 8).
Abbreviation u32 := (wrap 32).
Abbreviation u64 := (wrap 64).
Abbreviation s16 := (swrap 16).
Abbreviation s32 := (swrap 32).

(** C truth value of an integer used as a condition. *)
Definition truthy (z : Z) : bool := negb (z =? 0).

(** [~x] on a 32-bit unsigned operand. *)
Definition not32 (z : Z) : Z := Z.lxor (u32 z) (2 ^ 32 - 1).

(** ** Loops

    [for_up i n f s] is [for (k = i; k < i + n; k++) s = f(k, s)];
    [for_exit] is the same loop whose body may [return] early. *)
Fixpoint for_up {St : Type} (i n : nat) (f : nat → St → St) (s : St) : St :=
  match n with
  | O => s
  | S n' => for_up (S i) n' f (f i s)
  end.

Fixpoint for_exit {St Rt : Type} (i n : nat) (f : nat → St → St * option Rt) (s : St) : St * option Rt :=
  match n with
  | O => (s, None)
  | S n' => match f i s with
            | (s', Some r) => (s', Some r)
            | (s', None) => for_exit (S i) n' f s'
            end
  end.

Abbreviation for_n n f s := (for_up 0 n f s) (only parsing).

Lemma wrap_bounds w z : 0 <= w → 0 <= wrap w z < 2 ^ w.
Proof. intros. apply Z.mod_pos_bound. apply Z.pow_pos_nonneg; lia. Qed.

Lemma wrap_small w z : 0 <= z < 2 ^ w → wrap w z = z.
Proof. apply Z.mod_small. Qed.

Lemma wrap_idem w z : 0 <= w → wrap w (wrap w z) = wrap w z.
Proof. intros. apply wrap_small, wrap_bounds; done. Qed.

Lemma wrap_ones w z : 0 <= w → wrap w z = Z.land z (Z.ones w).
Proof. intros. unfold wrap. by rewrite Z.land_ones. Qed.

Lemma wrap_spec w z i : 0 <= w → Z.testbit (wrap w z) i = (i <? w) && Z.testbit z i.
Proof.
  intros Hw. unfold wrap. destruct (Z.ltb_spec i w).
  - by rewrite Z.mod_pow2_bits_low.
  - rewrite Z.mod_pow2_bits_high; [done | lia].
Qed.

Lemma truthy_land_pow2 a k : 0 <= k → truthy (Z.land a (2 ^ k)) = Z.testbit a k.
Proof.
  intros Hk. unfold truthy. destruct (Z.testbit a k) eqn:E.
  - destruct (Z.eqb_spec (Z.land a (2 ^ k)) 0) as [H0|]; [|done].
    apply (f_equal (λ z, Z.testbit z k)) in H0.
    by rewrite Z.land_spec, E, Z.pow2_bits_true, Z.bits_0 in H0 by done.
  - replace (Z.land a (2 ^ k)) with 0; [done|]. symmetry. apply Z.bits_inj'. intros i Hi.
    rewrite Z.land_spec, Z.bits_0, Z.pow2_bits_eqb by done.
    destruct (Z.eqb_spec k i) as [->|]; [by rewrite E | by rewrite andb_false_r].
Qed.

Lemma testbit_lor_pow2 a k i :
  0 <= k → Z.testbit (Z.lor a (2 ^ k)) i = (Z.testbit a i || (k =? i)).
Proof. intros. by rewrite Z.lor_spec, Z.pow2_bits_eqb. Qed.

Lemma pow2_double w : 0 < w → 2 ^ w = 2 * 2 ^ (w - 1).
Proof. intros. replace w with (Z.succ (w - 1)) at 1 by lia. rewrite Z.pow_succ_r; lia. Qed.

Lemma swrap_bounds w z : 0 < w → - 2 ^ (w - 1) <= swrap w z < 2 ^ (w - 1).
Proof.
  intros Hw. unfold swrap. pose proof (pow2_double w Hw).
  pose proof (Z.mod_pos_bound (z + 2 ^ (w - 1)) (2 ^ w)).
  assert (0 < 2 ^ (w - 1)) by (apply Z.pow_pos_nonneg; lia). lia.
Qed.

Lemma swrap_small w z : 0 < w → - 2 ^ (w - 1) <= z < 2 ^ (w - 1) → swrap w z = z.
Proof.
  intros Hw Hz. unfold swrap. pose proof (pow2_double w Hw).
  rewrite Z.mod_small; lia.
Qed.

(** Two integers below [2 ^ w] with the same low [w] bits are equal. *)
Lemma bits_inj_below w a b :
  0 <= w → 0 <= a < 2 ^ w → 0 <= b < 2 ^ w →
  (∀ i, 0 <= i < w → Z.testbit a i = Z.testbit b i) → a = b.
Proof.
  intros Hw Ha Hb Hbits. rewrite <- (wrap_small w a), <- (wrap_small w b) by done.
  apply Z.bits_inj'. intros i Hi. rewrite !wrap_spec by done.
  destruct (Z.ltb_spec i w); [simpl; auto with lia | done].
Qed.

Lemma lxor_bounds w a b :
  0 <= w → 0 <= a < 2 ^ w → 0 <= b < 2 ^ w → 0 <= Z.lxor a b < 2 ^ w.
Proof.
  intros Hw Ha Hb.
  replace (Z.lxor a b) with (wrap w (Z.lxor a b)); [by apply wrap_bounds|].
  apply Z.bits_inj'. intros i Hi. rewrite wrap_spec, Z.lxor_spec by done.
  destruct (Z.ltb_spec i w); [done|].
  rewrite <- (wrap_small w a), <- (wrap_small w b), !wrap_spec by done.
  by destruct (Z.ltb_spec i w); [lia|].
Qed.

(** ** Loop lemmas *)
Lemma for_up_ind {St : Type} (P : nat → St → Prop) (f : nat → St → St) i n s :
  P i s → (∀ k s, (i <= k < i + n)%nat → P k s → P (k + 1)%nat (f k s)) →
  P (i + n)%nat (for_up i n f s).
Proof.
  revert i s. induction n as [|n IH]; intros i s H0 Hstep; simpl.
  - by rewrite Nat.add_0_r.
  - replace (i + S n)%nat with (S i + n)%nat by lia. apply IH.
    + rewrite <- Nat.add_1_r. apply Hstep; [lia | done].
    + intros k s' Hk. apply Hstep. lia.
Qed.

Lemma for_up_inv {St : Type} (P : St → Prop) (f : nat → St → St) i n s :
  P s → (∀ k s, (i <= k < i + n)%nat → P s → P (f k s)) → P (for_up i n f s).
Proof. intros H0 Hs. exact (for_up_ind (λ _ s, P s) f i n s H0 Hs). Qed.

Lemma for_up_S {St : Type} (f : nat → St → St) i n s :
  for_up i (S n) f s = f (i + n)%nat (for_up i n f s).
Proof.
  revert i s. induction n as [|n IH]; intros i s; [by rewrite Nat.add_0_r|].
  transitivity (for_up (S i) (S n) f (f i s)); [done|].
  rewrite IH. by rewrite <- Nat.add_succ_comm.
Qed.

Lemma for_up_ext {St : Type} (f g : nat → St → St) i n s :
  (∀ k s, (i <= k < i + n)%nat → f k s = g k s) → for_up i n f s = for_up i n g s.
Proof.
  revert i s. induction n as [|n IH]; intros i s H; simpl; [done|].
  rewrite H by lia. apply IH. intros; apply H; lia.
Qed.

Lemma for_up_add {St : Type} (f : nat → St → St) i a b s :
  for_up i (a + b) f s = for_up (i + a) b f (for_up i a f s).
Proof.
  revert i s. induction a as [|a IH]; intros i s; simpl; [by rewrite Nat.add_0_r|].
  rewrite IH. by rewrite <- Nat.add_succ_comm.
Qed.

Lemma for_up_id {St : Type} i n (s : St) : for_up i n (λ _ s, s) s = s.
Proof. revert i. induction n as [|n IH]; intros i; [done|apply IH]. Qed.

(** A loop with one round that does something. *)
Lemma for_up_single {St : Type} (P : St → Prop) (f : nat → St → St) j n s :
  (j < n)%nat → P s → (∀ s', P s' → P (f j s')) → (∀ k s', (k < n)%nat → k ≠ j → P s' → f k s' = s') →
  for_n n f s = f j s.
Proof.
  intros Hj Hs Hp Hid.
  assert (Hidle : ∀ i m s', P s' → (i + m <= n)%nat → (i + m <= j ∨ j < i)%nat → for_up i m f s' = s').
  { intros i m. revert i. induction m as [|m IH]; intros i s' Hs' Hn Hr; [done|].
    simpl. rewrite Hid by (done || lia). apply IH; [done|lia..]. }
  replace n with (j + (1 + (n - j - 1)))%nat by lia. rewrite !for_up_add, Nat.add_0_l.
  rewrite (Hidle 0%nat j) by (done || lia). simpl. apply Hidle; [by apply Hp|lia..].
Qed.

(** What a loop does to a part of its state, when each round's effect on that
    part depends on that part alone. *)
Lemma for_up_view {St V : Type} (P : St → Prop) (view : St → V) (f : nat → St → St) (g : nat → V → V) i n s :
  P s → (∀ k s', (i <= k < i + n)%nat → P s' → P (f k s') ∧ view (f k s') = g k (view s')) →
  P (for_up i n f s) ∧ view (for_up i n f s) = for_up i n g (view s).
Proof.
  revert i s. induction n as [|n IH]; intros i s Hp Hstep; [done|]. simpl.
  destruct (Hstep i s ltac:(lia) Hp) as [Hp' <-]. apply IH; [done|]. intros; apply Hstep; [lia|done].
Qed.

(** The same when a single round touches that part. *)
Lemma for_up_view_single {St V : Type} (P : St → Prop) (view : St → V) (f : nat → St → St) (g : V → V) j n s :
  (j < n)%nat → P s →
  (∀ k s', (k < n)%nat → P s' → P (f k s') ∧ view (f k s') = if decide (k = j) then g (view s') else view s') →
  P (for_n n f s) ∧ view (for_n n f s) = g (view s).
Proof.
  intros Hj Hp Hstep.
  destruct (for_up_view P view f (λ k v, if decide (k = j) then g v else v) 0 n s Hp) as [H1 H2].
  { intros; apply Hstep; [lia|done]. }
  split; [done|]. rewrite H2, (for_up_single (λ _, True) _ j n); [by rewrite decide_True|done..|].
  intros k v _ Hk _. by rewrite decide_False.
Qed.

(** ** Early exits *)
Lemma for_exit_inv {St Rt} (P : nat → St → Prop) (f : nat → St → St * option Rt) i n s :
  P i s → (∀ k s, (i <= k < i + n)%nat → P k s → (f k s).2 = None ∧ P (S k) (f k s).1) →
  (for_exit i n f s).2 = None ∧ P (i + n)%nat (for_exit i n f s).1.
Proof.
  revert i s. induction n as [|n IH]; intros i s H0 Hstep; simpl; [by rewrite Nat.add_0_r|].
  destruct (Hstep i s ltac:(lia) H0) as [Hn Hp]. destruct (f i s) as [s' o]. simpl in *. subst o.
  replace (i + S n)%nat with (S i + n)%nat by lia. apply IH; [done|]. intros; apply Hstep; [lia|done].
Qed.

Lemma for_exit_stops {St Rt} (P : St → Prop) (f : nat → St → St * option Rt) i n j s :
  P s → (∀ k s, P s → P (f k s).1) → (∀ s, P s → (f j s).2 ≠ None) → (i <= j < i + n)%nat →
  (for_exit i n f s).2 ≠ None.
Proof.
  revert i s. induction n as [|n IH]; intros i s H0 Hstep Hj Hr; [lia|]. simpl.
  destruct (decide (i = j)) as [->|Hne].
  - specialize (Hj s H0). destruct (f j s) as [s' [r|]]; done.
  - specialize (Hstep i s H0) as Hp. destruct (f i s) as [s' [r|]]; [done|]. apply IH; [done..|lia].
Qed.

Lemma for_exit_both {St Rt} (P : St → Prop) (Q : Rt → Prop) (f : nat → St → St * option Rt) i n s :
  P s → (∀ k s, (i <= k < i + n)%nat → P s → P (f k s).1 ∧ ∀ r, (f k s).2 = Some r → Q r) →
  P (for_exit i n f s).1 ∧ ∀ r, (for_exit i n f s).2 = Some r → Q r.
Proof.
  revert i s. induction n as [|n IH]; intros i s H0 Hstep; [done|]. simpl.
  destruct (Hstep i s ltac:(lia) H0) as [Hp Hq]. destruct (f i s) as [s' [r|]]; simpl in *.
  - split; [done|]. intros r' E. by apply Hq.
  - apply IH; [done|]. intros; apply Hstep; [lia|done].
Qed.

(** A loop that ran to its end: what each round keeps, when it did not return. *)
Lemma for_exit_done {St Rt} (P : nat → St → Prop) (f : nat → St → St * option Rt) i n s :
  P i s → (∀ k s, (i <= k < i + n)%nat → P k s → (f k s).2 = None → P (S k) (f k s).1) →
  (for_exit i n f s).2 = None → P (i + n)%nat (for_exit i n f s).1.
Proof.
  revert i s. induction n as [|n IH]; intros i s H0 Hstep; simpl; [by rewrite Nat.add_0_r|].
  specialize (Hstep i s ltac:(lia) H0) as Hp. destruct (f i s) as [s' [r|]]; [done|]. intros Hd.
  replace (i + S n)%nat with (S i + n)%nat by lia. apply IH; [by apply Hp|..|done]. intros; apply Hstep; [lia|done..].
Qed.

(** A part of the state that takes one step per round of a loop, or a list of steps. *)
Lemma for_up_fold {St V A : Type} (P : St → Prop) (view : St → V) (f : nat → St → St) (step : V → A → V) (g : nat → A) i n s :
  P s → (∀ k s', (i <= k < i + n)%nat → P s' → P (f k s') ∧ view (f k s') = step (view s') (g k)) →
  P (for_up i n f s) ∧ view (for_up i n f s) = foldl step (view s) (g <$> seq i n).
Proof.
  revert i s. induction n as [|n IH]; intros i s Hp Hstep; [done|]. cbn [for_up seq fmap list_fmap foldl].
  destruct (Hstep i s ltac:(lia) Hp) as [Hp' <-]. apply IH; [done|]. intros; apply Hstep; [lia|done].
Qed.
Lemma for_exit_fold {St Rt V A : Type} (P : St → Prop) (Q : nat → Prop) (view : St → V) (f : nat → St → St * option Rt)
    (step : V → A → V) (g : nat → list A) i n s :
  P s →
  (∀ k s', (i <= k < i + n)%nat → P s' → (f k s').2 = None →
     P (f k s').1 ∧ Q k ∧ view (f k s').1 = foldl step (view s') (g k)) →
  (for_exit i n f s).2 = None →
  P (for_exit i n f s).1 ∧ (∀ k, (i <= k < i + n)%nat → Q k) ∧
  view (for_exit i n f s).1 = foldl step (view s) (seq i n ≫= g).
Proof.
  revert i s. induction n as [|n IH]; intros i s Hp Hstep; cbn [for_exit seq]; [intros _; split_and!; [done|lia|done]|].
  specialize (Hstep i s ltac:(lia) Hp) as Hi. destruct (f i s) as [s' [r|]] eqn:E; [done|]. cbn [fst snd] in Hi. intros Hd.
  destruct Hi as (Hp' & HQ & Hv); [done|]. destruct (IH (S i) s' Hp') as (H1 & H2 & H3); [intros; apply Hstep; [lia|done..]|done|].
  split_and!; [done| |].
  - intros k Hk. destruct (decide (k = i)) as [->|]; [done|]. apply H2. lia.
  - rewrite bind_cons, foldl_app, <- Hv. exact H3.
Qed.

(** What such a loop does to a part of the state that a single round touches. *)
Lemma for_exit_view_single {St Rt V} (P : St → Prop) (Q : V → V → Prop) (view : St → V) (f : nat → St → St * option Rt) j n s :
  (j < n)%nat → P s →
  (∀ k s', (k < n)%nat → P s' → (f k s').2 = None →
     P (f k s').1 ∧ if decide (k = j) then Q (view s') (view (f k s').1) else view (f k s').1 = view s') →
  (for_exit 0 n f s).2 = None → P (for_exit 0 n f s).1 ∧ Q (view s) (view (for_exit 0 n f s).1).
Proof.
  intros Hj H0 Hstep Hd.
  destruct (for_exit_done (λ k s', P s' ∧ if (k <=? j)%nat then view s' = view s else Q (view s) (view s')) f 0 n s)
    as [Hp Hv]; [done| |done|].
  - intros k s' Hk [Hp Hv] Hn. destruct (Hstep k s' ltac:(lia) Hp Hn) as [Hp' Hv']. split; [done|].
    destruct (decide (k = j)) as [->|Hne].
    + rewrite Nat.leb_refl in Hv. rewrite (proj2 (Nat.leb_gt (S j) j)) by lia. by rewrite <- Hv.
    + destruct (Nat.leb_spec k j), (Nat.leb_spec (S k) j); try lia; congruence.
  - split; [done|]. simpl in Hv. rewrite (proj2 (Nat.leb_gt n j)) in Hv by lia. done.
Qed.

(** ** Total lookup after an update in place *)
Lemma lookup_total_alter_eq {A} `{Inhabited A} (f : A → A) (l : list A) i :
  (i < length l)%nat → alter f i l !!! i = f (l !!! i).
Proof.
  intros Hi. destruct (lookup_lt_is_Some_2 l i Hi) as [x Hx].
  rewrite (list_lookup_total_correct l i x Hx). apply list_lookup_total_correct.
  by rewrite list_lookup_alter_eq, Hx.
Qed.

Lemma lookup_total_alter_ne {A} `{Inhabited A} (f : A → A) (l : list A) i j :
  i ≠ j → alter f i l !!! j = l !!! j.
Proof. intros Hn. by rewrite !list_lookup_total_alt, list_lookup_alter_ne. Qed.

Lemma lookup_total_insert {A} `{Inhabited A} (l : list A) i j x :
  (i < length l)%nat → <[i := x]> l !!! j = if decide (j = i) then x else l !!! j.
Proof.
  intros Hi. destruct (decide (j = i)) as [->|Hn].
  - by apply list_lookup_total_insert_eq.
  - by apply list_lookup_total_insert_ne.
Qed.

(** Filters that agree on a list, and a filter that keeps everything. *)
Lemma filter_ext_in {A} (P Q : A → Prop) `{∀ x, Decision (P x), ∀ x, Decision (Q x)} (l : list A) :
  (∀ x, x ∈ l → P x ↔ Q x) → filter P l = filter Q l.
Proof.
  induction l as [|x l IH]; intros Hl; [done|]. rewrite !filter_cons, IH by (intros; apply Hl; by right).
  destruct (Hl x) as [H1 H2]; [by left|]. by destruct (decide (P x)), (decide (Q x)); try tauto.
Qed.

Lemma filter_all {A} (P : A → Prop) `{∀ x, Decision (P x)} (l : list A) :
  (∀ x, x ∈ l → P x) → filter P l = l.
Proof.
  induction l as [|x l IH]; intros Hl; [done|]. rewrite filter_cons_True by (apply Hl; by left).
  f_equal. apply IH. intros y Hy. apply Hl. by right.
Qed.

Create HintDb rts.
#[export] Hint Resolve wrap_bounds swrap_bounds lxor_bounds : rts.
