(* ===== verification/CFloat.v ===== *)
(** * Floating point

    The front end computes in C [double] and stores operator settings in C
    [float].  The code is written against the operations below; [binary64] is
    the instance the machine executes (IEEE 754, round to nearest even), and
    the reals are the instance in which the algebraic properties of the
    filters are stated. *)
From Stdlib Require Import SpecFloat Reals Lra Ring_theory.
From S2P Require Import Prelude.

(** The operations the code uses.  [flit m e] is the literal [m * 10 ^ e];
    [ftrunc] is the truncation towards zero that C applies when converting to
    an integer, [None] for a NaN or an infinity; [fsingle] rounds to a C
    [float] (whose values are all doubles). *)
Class FloatOps (F : Type) := {
  fofZ : Z → F;
  fadd : F → F → F;
  fsub : F → F → F;
  fmul : F → F → F;
  fdiv : F → F → F;
  fneg : F → F;
  fabs : F → F;
  feqb : F → F → bool;
  fltb : F → F → bool;
  fleb : F → F → bool;
  flit : Z → Z → F;
  ftrunc : F → option Z;
  fsingle : F → F
}.
Arguments fofZ {F _} _%_Z.
Arguments flit {F _} _%_Z _%_Z.

Declare Scope cfloat_scope.
Delimit Scope cfloat_scope with cf.
Infix "⊕" := fadd (at level 50, left associativity) : cfloat_scope.
Infix "⊖" := fsub (at level 50, left associativity) : cfloat_scope.
Infix "⊗" := fmul (at level 40, left associativity) : cfloat_scope.
Infix "⊘" := fdiv (at level 40, left associativity) : cfloat_scope.
Notation "x >ᶠ y" := (fltb y x) (at level 70) : cfloat_scope.
Notation "x <ᶠ y" := (fltb x y) (at level 70) : cfloat_scope.
Notation "x ≤ᶠ y" := (fleb x y) (at level 70) : cfloat_scope.
Notation "x ≥ᶠ y" := (fleb y x) (at level 70) : cfloat_scope.
Notation "x =ᶠ y" := (feqb x y) (at level 70) : cfloat_scope.
Notation "x ≠ᶠ y" := (negb (feqb x y)) (at level 70) : cfloat_scope.
#[global] Open Scope cfloat_scope.

Abbreviation f0 := (fofZ 0).
Abbreviation f1 := (fofZ 1).

(** *** Conversions of a double to a C integer type

    Out of range the conversion is undefined in C; the x86-64 instruction the
    compiler emits returns the "integer indefinite" value, which is what the
    machine the code runs on does. *)
Definition f_to_sint {F} `{FloatOps F} (w : Z) (x : F) : Z :=
  match ftrunc x with
  | Some z => if (- 2 ^ (w - 1) <=? z) && (z <? 2 ^ (w - 1)) then z else - 2 ^ (w - 1)
  | None => - 2 ^ (w - 1)
  end.
Definition f_to_int {F} `{FloatOps F} (x : F) : Z := f_to_sint 32 x.
Definition f_to_short {F} `{FloatOps F} (x : F) : Z := s16 (f_to_sint 32 x).
Definition f_to_uint {F} `{FloatOps F} (x : F) : Z := u32 (f_to_sint 64 x).

(** ** binary64 *)
Abbreviation binary64 := spec_float.

Definition signed_mantissa (s : bool) (m : positive) : Z := if s then Zneg m else Zpos m.

Definition b64_ofZ (z : Z) : binary64 := binary_normalize 53 1024 z 0 false.

Definition b64_lit (m e : Z) : binary64 :=
  if 0 <=? e then b64_ofZ (m * 10 ^ e)
  else match m, 10 ^ (- e) with
       | Z0, _ => S754_zero false
       | Zpos p, Zpos q => SFdiv 53 1024 (S754_finite false p 0) (S754_finite false q 0)
       | Zneg p, Zpos q => SFdiv 53 1024 (S754_finite true p 0) (S754_finite false q 0)
       | _, _ => S754_nan
       end.

Definition b64_trunc (x : binary64) : option Z :=
  match x with
  | S754_zero _ => Some 0
  | S754_finite s m e =>
      let a := if 0 <=? e then Zpos m * 2 ^ e else Zpos m / 2 ^ (- e) in
      Some (if s then - a else a)
  | _ => None
  end.

Definition b64_single (x : binary64) : binary64 :=
  match x with
  | S754_finite s m e =>
      match binary_normalize 24 128 (signed_mantissa s m) e s with
      | S754_finite s' m' e' => binary_normalize 53 1024 (signed_mantissa s' m') e' s'
      | y => y
      end
  | _ => x
  end.

#[export] Instance binary64_ops : FloatOps binary64 := {
  fofZ := b64_ofZ;
  fadd := SFadd 53 1024;
  fsub := SFsub 53 1024;
  fmul := SFmul 53 1024;
  fdiv := SFdiv 53 1024;
  fneg := SFopp;
  fabs := SFabs;
  feqb := SFeqb;
  fltb := SFltb;
  fleb := SFleb;
  flit := b64_lit;
  ftrunc := b64_trunc;
  fsingle := b64_single
}.

(** The bit pattern of a double, which the checksum code reads through a
    [char *]: sign, 11 bits of biased exponent, 52 bits of fraction. *)
Class FloatBits (F : Type) := fbits : F → Z.

#[export] Instance binary64_bits : FloatBits binary64 := λ x,
  match x with
  | S754_zero s => if s then 2 ^ 63 else 0
  | S754_infinity s => (if s then 2 ^ 63 else 0) + 2047 * 2 ^ 52
  | S754_nan => 8191 * 2 ^ 51
  | S754_finite s m e =>
      (if s then 2 ^ 63 else 0) +
      (if Zpos m <? 2 ^ 52 then Zpos m else (e + 1075) * 2 ^ 52 + (Zpos m - 2 ^ 52))
  end.

(** ** The reals *)
Definition R_trunc (x : R) : Z :=
  if Rlt_dec x 0 then - Int_part (- x) else Int_part x.

#[export] Instance R_ops : FloatOps R := {
  fofZ := IZR;
  fadd := Rplus;
  fsub := Rminus;
  fmul := Rmult;
  fdiv := Rdiv;
  fneg := Ropp;
  fabs := Rabs;
  feqb := λ x y, if Req_EM_T x y then true else false;
  fltb := λ x y, if Rlt_dec x y then true else false;
  fleb := λ x y, if Rle_dec x y then true else false;
  flit := λ m e, (IZR m * powerRZ 10 e)%R;
  ftrunc := λ x, Some (R_trunc x);
  fsingle := λ x, x
}.

(** What the algebraic theorems ask of the arithmetic: the ring laws, and a
    sound equality test.  The reals discharge it; binary64 does not. *)
Class RingArith (F : Type) `{FloatOps F} := {
  ring_arith : ring_theory (fofZ 0) (fofZ 1) fadd fmul fsub fneg (@eq F)
}.

#[export] Instance R_ring_arith : RingArith R.
Proof. split. constructor; intros; simpl; ring. Qed.

(** Unfold the real instance of the operations, and split one comparison. *)
Ltac rops := cbn [fofZ fadd fsub fmul fdiv fneg fabs feqb fltb fleb flit ftrunc fsingle R_ops] in *.
Ltac rcase :=
  match goal with
  | |- context [Rlt_dec ?a ?b] => destruct (Rlt_dec a b)
  | |- context [Rle_dec ?a ?b] => destruct (Rle_dec a b)
  | |- context [Req_EM_T ?a ?b] => destruct (Req_EM_T a b)
  end; cbn [negb andb orb].

Lemma powerRZ_m1 : powerRZ 10 (-1) = (/ 10)%R.
Proof. simpl. lra. Qed.

Lemma flit_pos (m e : Z) : (0 < m) → (0 < (flit m e : R))%R.
Proof.
  intros Hm. simpl. apply Rmult_lt_0_compat; [by apply IZR_lt | apply powerRZ_lt; lra].
Qed.

Lemma Rmin_cases (a b : R) : ((a <= b ∧ Rmin a b = a) ∨ (b <= a ∧ Rmin a b = b))%R.
Proof. unfold Rmin. destruct (Rle_dec a b); [left | right]; split; lra. Qed.

Lemma Rabs_cases (a : R) : ((0 <= a ∧ Rabs a = a) ∨ (a <= 0 ∧ Rabs a = - a))%R.
Proof. unfold Rabs. destruct (Rcase_abs a); [right | left]; split; lra. Qed.

(** Replace the minima and absolute values of the context by their cases. *)
Ltac rminabs :=
  repeat match goal with
  | |- context [Rmin ?a ?b] =>
      let H := fresh in let E := fresh in
      destruct (Rmin_cases a b) as [[H E]|[H E]]; rewrite E in *; clear E
  | _ : context [Rmin ?a ?b] |- _ =>
      let H := fresh in let E := fresh in
      destruct (Rmin_cases a b) as [[H E]|[H E]]; rewrite E in *; clear E
  | |- context [Rabs ?a] =>
      let H := fresh in let E := fresh in
      destruct (Rabs_cases a) as [[H E]|[H E]]; rewrite E in *; clear E
  | _ : context [Rabs ?a] |- _ =>
      let H := fresh in let E := fresh in
      destruct (Rabs_cases a) as [[H E]|[H E]]; rewrite E in *; clear E
  end.
