(* ===== verification/CText.v ===== *)
(** * Numbers as text

    What the C library does when the code prints and reads numbers: the formats
    [%d], [%x], [%.Nf] and [%.Ne] of [printf], and [atoi], [atof] and [%x] of
    [scanf].  Doubles are printed from their exact value, rounded half to even,
    and read to the nearest double. *)
From Stdlib Require Import String Ascii SpecFloat DecimalString DecimalN HexadecimalString HexadecimalN.
From stdpp Require Import strings.
From S2P Require Import Prelude CFloat.

Module CText.

(** ** Characters *)
Definition code (c : ascii) : Z := Z.of_nat (nat_of_ascii c).
Definition is_digit (c : ascii) : bool := (48 <=? code c) && (code c <=? 57).
Definition is_space (c : ascii) : bool := (code c =? 32) || ((9 <=? code c) && (code c <=? 13)).
Definition to_lower (c : ascii) : ascii :=
  if (65 <=? code c) && (code c <=? 90) then ascii_of_nat (nat_of_ascii c + 32) else c.
(** The value of a digit in base 16. *)
Definition hex_value (c : ascii) : option Z :=
  let x := code (to_lower c) in
  if is_digit c then Some (x - 48) else if (97 <=? x) && (x <=? 102) then Some (x - 87) else None.
Definition digit_value (base : Z) (c : ascii) : option Z :=
  match hex_value c with Some d => if d <? base then Some d else None | None => None end.
Definition head (s : string) : option ascii := match s with String c _ => Some c | EmptyString => None end.
Definition tail (s : string) : string := match s with String _ s => s | EmptyString => EmptyString end.
Definition head_is (p : ascii → bool) (s : string) : bool := match s with String c _ => p c | EmptyString => false end.
Fixpoint skip_spaces (s : string) : string :=
  match s with String c s' => if is_space c then skip_spaces s' else s | EmptyString => s end.

Definition chr (n : nat) : ascii := ascii_of_nat n.
Definition TAB : ascii := chr 9.
Definition NL : ascii := chr 10.
Definition SPACE : ascii := chr 32.
Definition DQUOTE : ascii := chr 34.
Fixpoint any_char (p : ascii → bool) (s : string) : bool :=
  match s with String c s' => p c || any_char p s' | EmptyString => false end.
Definition all_chars (p : ascii → bool) (s : string) : bool := negb (any_char (λ c, negb (p c)) s).
(** [strstr(s, p) != NULL]. *)
Fixpoint strstr (s p : string) : bool :=
  String.prefix p s || match s with String _ s' => strstr s' p | EmptyString => false end.

Lemma str_app_cons c (s t : string) : (String c s +:+ t)%string = String c (s +:+ t)%string.
Proof. done. Qed.
Lemma str_app_nil (s : string) : (s +:+ "")%string = s.
Proof. induction s as [|c s IH]; [done|]. by rewrite str_app_cons, IH. Qed.
Lemma str_app_assoc (s t u : string) : ((s +:+ t) +:+ u)%string = (s +:+ (t +:+ u))%string.
Proof. induction s as [|c s IH]; [done|]. by rewrite !str_app_cons, IH. Qed.
Lemma str_length_app (s t : string) : String.length (s +:+ t) = (String.length s + String.length t)%nat.
Proof. induction s as [|c s IH]; [done|]. rewrite str_app_cons. simpl. by rewrite IH. Qed.
Lemma substring_all (s : string) (n : nat) : (String.length s <= n)%nat → String.substring 0 n s = s.
Proof. revert n. induction s as [|c s IH]; intros [|n] H; simpl in *; [done | done | lia|]. by rewrite IH by lia. Qed.

Lemma all_chars_cons p c s : all_chars p (String c s) = p c && all_chars p s.
Proof. unfold all_chars. simpl. by destruct (p c). Qed.
Lemma all_chars_app p (s t : string) : all_chars p (s +:+ t)%string = all_chars p s && all_chars p t.
Proof. induction s as [|c s IH]; [done|]. rewrite str_app_cons, !all_chars_cons, IH. apply andb_assoc. Qed.
Lemma all_chars_weaken (p q : ascii → bool) (s : string) : (∀ c, p c → q c) → all_chars p s → all_chars q s.
Proof.
  intros H. induction s as [|c s IH]; [done|]. rewrite !all_chars_cons. intros [Hc Hs]%andb_prop_elim.
  apply andb_prop_intro. auto.
Qed.

(** The strings of a list, one after the other. *)
Definition concat (l : list string) : string := foldr String.append ""%string l.

(** ** Printing *)
Definition fmt_nat (n : Z) : string := DecimalString.NilZero.string_of_uint (N.to_uint (Z.to_N n)).
(** [%d] and [%x]. *)
Definition fmt_d (z : Z) : string := if z <? 0 then String "-" (fmt_nat (- z)) else fmt_nat z.
Definition fmt_x (z : Z) : string := HexadecimalString.NilZero.string_of_uint (N.to_hex_uint (Z.to_N (u32 z))).

Fixpoint zeros (n : nat) : string := match n with O => EmptyString | S n => String "0" (zeros n) end.
(** [n] in at least [w] digits. *)
Definition fmt_nat_pad (w : nat) (n : Z) : string :=
  let s := fmt_nat n in (zeros (w - String.length s) ++ s)%string.

(** [n / d] rounded half to even, for [0 <= n], [0 < d]. *)
Definition round_half_even (n d : Z) : Z :=
  let '(q, r) := Z.div_eucl n d in
  if (2 * r <? d) || ((2 * r =? d) && Z.even q) then q else q + 1.

(** A finite double is [num / den]. *)
Definition num_den (m : positive) (e : Z) : Z * Z :=
  if 0 <=? e then (Zpos m * 2 ^ e, 1) else (Zpos m, 2 ^ (- e)).
Definition sign_str (s : bool) : string := if s then "-" else EmptyString.

(** [n] with the last [prec] digits after the point. *)
Definition with_point (prec : nat) (n : Z) : string :=
  let p := 10 ^ Z.of_nat prec in
  (fmt_nat (n / p) ++ (if decide (prec = 0%nat) then EmptyString else String "." (fmt_nat_pad prec (n mod p))))%string.

(** [%.<prec>f] *)
Definition fmt_f (prec : nat) (x : binary64) : string :=
  match x with
  | S754_zero s => (sign_str s ++ with_point prec 0)%string
  | S754_infinity s => (sign_str s ++ "inf")%string
  | S754_nan => "nan"
  | S754_finite s m e =>
      let '(n, d) := num_den m e in
      (sign_str s ++ with_point prec (round_half_even (n * 10 ^ Z.of_nat prec) d))%string
  end.

(** The decimal exponent of [n / d]: [k] with [10 ^ k <= n / d < 10 ^ (k + 1)]. *)
Definition digits (n : Z) : Z := Z.of_nat (String.length (fmt_nat n)).
Definition at_least_pow10 (n d k : Z) : bool :=
  if 0 <=? k then d * 10 ^ k <=? n else d <=? n * 10 ^ (- k).
Definition exp10 (n d : Z) : Z :=
  let k := digits n - digits d in if at_least_pow10 n d k then k else k - 1.

Definition fmt_exponent (k : Z) : string :=
  ((if (k <? 0)%Z then "e-" else "e+") ++ fmt_nat_pad 2 (Z.abs k))%string.
(** The mantissa of [n / d] with [prec] digits after the point, and its exponent. *)
Definition sci (prec : nat) (n d : Z) : Z * Z :=
  let k := exp10 n d in
  let s := Z.of_nat prec - k in
  let a := if 0 <=? s then round_half_even (n * 10 ^ s) d else round_half_even n (d * 10 ^ (- s)) in
  if a =? 10 ^ (Z.of_nat prec + 1) then (a / 10, k + 1) else (a, k).

(** [%.<prec>e] *)
Definition fmt_e (prec : nat) (x : binary64) : string :=
  match x with
  | S754_zero s => (sign_str s ++ with_point prec 0 ++ fmt_exponent 0)%string
  | S754_infinity s => (sign_str s ++ "inf")%string
  | S754_nan => "nan"
  | S754_finite s m e =>
      let '(n, d) := num_den m e in
      let '(a, k) := sci prec n d in
      (sign_str s ++ with_point prec a ++ fmt_exponent k)%string
  end.

(** ** Reading *)

(** The digits at the start of [s]: their value, their number, and the rest. *)
Fixpoint scan_digits (base : Z) (s : string) (acc : Z) (n : nat) : Z * nat * string :=
  match s with
  | String c s' =>
      match digit_value base c with
      | Some d => scan_digits base s' (acc * base + d) (S n)
      | None => (acc, n, s)
      end
  | EmptyString => (acc, n, s)
  end.

Definition scan_sign (s : string) : bool * string :=
  match s with
  | String c s' => if (code c =? 45)%Z then (true, s') else if (code c =? 43)%Z then (false, s') else (false, s)
  | EmptyString => (false, s)
  end.

(** [atoi]: [strtol], which saturates, converted to [int]. *)
Definition atoi (s : string) : Z :=
  let '(neg, s) := scan_sign (skip_spaces s) in
  let '(v, _, _) := scan_digits 10 s 0 0 in
  s32 (if neg then Z.max (- v) (- 2 ^ 63) else Z.min v (2 ^ 63 - 1)).

(** A [%x] conversion to an [unsigned int] object read back as [int]: [None]
    when there is no digit. *)
Definition strip_0x (s : string) : string :=
  match s with
  | String c (String d s') =>
      if (code c =? 48)%Z && (code (to_lower d) =? 120)%Z && head_is (λ c, bool_decide (is_Some (hex_value c))) s' then s' else s
  | _ => s
  end.
Definition scan_x (s : string) : option Z :=
  let '(neg, s) := scan_sign (skip_spaces s) in
  let '(v, n, _) := scan_digits 16 (strip_0x s) 0 0 in
  if decide (n = 0%nat) then None
  else let v := Z.min v (2 ^ 64 - 1) in Some (s32 (if neg then - v else v)).

(** The exponent part, read only when a digit follows. *)
Definition scan_exponent (letter : Z) (s : string) : Z :=
  match s with
  | String c s' =>
      if (code (to_lower c) =? letter)%Z then
        let '(neg, s'') := scan_sign s' in
        let '(v, n, _) := scan_digits 10 s'' 0 0 in
        if decide (n = 0%nat) then 0 else if neg then - v else v
      else 0
  | EmptyString => 0
  end.

(** Digits with a point: the integer they make, how many follow the point, how
    many there are, and the rest. *)
Definition scan_mantissa (base : Z) (s : string) : Z * nat * nat * string :=
  let '(v, n, s) := scan_digits base s 0 0 in
  match s with
  | String c s' =>
      if (code c =? 46)%Z then let '(v, k, s') := scan_digits base s' v 0 in (v, k, n + k, s')%nat
      else (v, 0, n, s)%nat
  | EmptyString => (v, 0, n, s)%nat
  end.

Definition b64_scale2 (m e : Z) : binary64 := binary_normalize 53 1024 m e false.
Definition apply_sign (neg : bool) (x : binary64) : binary64 := if neg then SFopp x else x.

Fixpoint prefix_nocase (p s : string) : bool :=
  match p, s with
  | EmptyString, _ => true
  | String a p', String b s' => bool_decide (a = to_lower b) && prefix_nocase p' s'
  | _, _ => false
  end.

(** [atof] *)
Definition atof (s : string) : binary64 :=
  let '(neg, s) := scan_sign (skip_spaces s) in
  if prefix_nocase "inf" s then S754_infinity neg
  else if prefix_nocase "nan" s then S754_nan
  else if negb (bool_decide (strip_0x s = s)) then
    let '(v, k, _, r) := scan_mantissa 16 (strip_0x s) in
    apply_sign neg (b64_scale2 v (scan_exponent 112 r - 4 * Z.of_nat k))
  else
    let '(v, k, n, r) := scan_mantissa 10 s in
    apply_sign neg (b64_lit v (scan_exponent 101 r - Z.of_nat k)).

(** ** Conversions that tell where they stopped *)

(** [strtol(s, &end, base)] for base 10, or 0 (the base from the prefix): the
    value, and the text at [end], which is [s] when there is no number. *)
Definition strtol (base : Z) (s : string) : Z * string :=
  let '(neg, t) := scan_sign (skip_spaces s) in
  let '(base, t) :=
    if (base =? 0)%Z then
      if negb (bool_decide (strip_0x t = t)) then (16, strip_0x t)
      else if head_is (λ c, (code c =? 48)%Z) t then (8, t) else (10, t)
    else (base, t) in
  let '(v, n, r) := scan_digits base t 0 0 in
  if decide (n = 0%nat) then (0, s) else (if neg then Z.max (- v) (- 2 ^ 63) else Z.min v (2 ^ 63 - 1), r).

(** What follows the exponent part. *)
Definition skip_exponent (letter : Z) (s : string) : string :=
  match s with
  | String c s' =>
      if (code (to_lower c) =? letter)%Z then
        let '(_, n, r) := scan_digits 10 (scan_sign s').2 0 0 in
        if decide (n = 0%nat) then s else r
      else s
  | EmptyString => s
  end.
Fixpoint str_drop (n : nat) (s : string) : string :=
  match n, s with S n, String _ s => str_drop n s | _, _ => s end.

(** The text at [end] after [strtod(s, &end)], whose value is [atof s].
    Hexadecimal numbers that begin with the point, and the parenthesis of
    [nan(...)], are not read. *)
Definition strtod_end (s : string) : string :=
  let '(_, t) := scan_sign (skip_spaces s) in
  if prefix_nocase "inf" t then str_drop (if prefix_nocase "infinity" t then 8 else 3) t
  else if prefix_nocase "nan" t then str_drop 3 t
  else if negb (bool_decide (strip_0x t = t)) then
    let '(_, _, _, r) := scan_mantissa 16 (strip_0x t) in skip_exponent 112 r
  else
    let '(_, _, n, r) := scan_mantissa 10 t in if decide (n = 0%nat) then s else skip_exponent 101 r.

Definition to_upper (c : ascii) : ascii :=
  if (97 <=? code c) && (code c <=? 122) then ascii_of_nat (nat_of_ascii c - 32) else c.
Fixpoint str_map (f : ascii → ascii) (s : string) : string :=
  match s with String c s => String (f c) (str_map f s) | EmptyString => EmptyString end.
(** [!strcasecmp(s, t)] *)
Definition same_nocase (s t : string) : bool := bool_decide (str_map to_lower s = str_map to_lower t).

End CText.
