(* ===== verification/CDecimal.v ===== *)
(** * Decimal text of doubles

    What [%.<prec>e] prints is the decimal of that many digits nearest to the
    double, and what [atof] makes of the text is that decimal as a double: the
    text of a number loses what lies beyond its digits, and nothing else. *)
From Stdlib Require Import String Ascii SpecFloat DecimalString DecimalFacts DecimalPos DecimalN.
From stdpp Require Import strings.
From S2P Require Import Prelude CFloat CText.
Import CText.

Module CDecimal.

(** ** The characters of a printed number *)
Definition numeral_char (c : ascii) : bool :=
  is_digit c || bool_decide (c = "-"%char) || bool_decide (c = "."%char) || bool_decide (c = "e"%char) ||
  bool_decide (c = "+"%char).
Definition numeral (s : string) : bool := all_chars numeral_char s.

Lemma fmt_nat_digits n : all_chars is_digit (fmt_nat n) ∧ fmt_nat n ≠ ""%string.
Proof.
  unfold fmt_nat. assert (H : ∀ u, all_chars is_digit (DecimalString.NilEmpty.string_of_uint u)).
  { induction u; [done|..]; cbn [DecimalString.NilEmpty.string_of_uint]; rewrite all_chars_cons; exact IHu. }
  destruct (N.to_uint _) as [|u|u|u|u|u|u|u|u|u|u]; [done|..]; (split; [apply (H (_ u)) | done]).
Qed.

Lemma zeros_digits n : all_chars is_digit (zeros n).
Proof. induction n as [|n IH]; [done|]. cbn [zeros]. rewrite all_chars_cons. exact IH. Qed.

Lemma pad_digits w n : all_chars is_digit (fmt_nat_pad w n).
Proof. unfold fmt_nat_pad. rewrite all_chars_app. apply andb_prop_intro. split; [apply zeros_digits | apply fmt_nat_digits]. Qed.

Lemma digits_numeral s : all_chars is_digit s → numeral s.
Proof. apply all_chars_weaken. intros c Hc. unfold numeral_char. by destruct (is_digit c). Qed.

Lemma numeral_app (s t : string) : numeral s → numeral t → numeral (s +:+ t)%string.
Proof. intros Hs Ht. unfold numeral. rewrite all_chars_app. by apply andb_prop_intro. Qed.

Lemma pad_numeral w n : numeral (fmt_nat_pad w n).
Proof. apply digits_numeral, pad_digits. Qed.

Lemma with_point_numeral p n : numeral (with_point p n) ∧ head_is is_digit (with_point p n) = true.
Proof.
  unfold with_point. cbv zeta. destruct (fmt_nat_digits (n / 10 ^ Z.of_nat p)) as [Hd Hn]. split.
  - apply numeral_app; [by apply digits_numeral|]. destruct (decide _); [done|]. unfold numeral.
    rewrite all_chars_cons. apply pad_numeral.
  - destruct (fmt_nat _) as [|c s]; [done|]. rewrite all_chars_cons in Hd. apply andb_prop_elim in Hd as [Hc _].
    rewrite str_app_cons. by apply Is_true_true.
Qed.

Lemma exponent_numeral k : numeral (fmt_exponent k).
Proof. unfold fmt_exponent. apply numeral_app; [by destruct (k <? 0) | apply pad_numeral]. Qed.

(** A finite number is printed in such characters, the first a sign or a digit. *)
Definition finite (x : binary64) : Prop := match x with S754_zero _ | S754_finite _ _ _ => True | _ => False end.

Lemma signed_numeral (sg : bool) p n k :
  numeral (sign_str sg +:+ with_point p n +:+ fmt_exponent k)%string ∧
  head_is is_digit (sign_str sg +:+ with_point p n +:+ fmt_exponent k)%string ||
  String.prefix "-" (sign_str sg +:+ with_point p n +:+ fmt_exponent k)%string = true.
Proof.
  destruct (with_point_numeral p n) as [Hw Hh]. split.
  - apply numeral_app; [by destruct sg|]. apply numeral_app; [done | apply exponent_numeral].
  - destruct sg; cbn [sign_str].
    { rewrite !str_app_cons. by destruct (EmptyString +:+ with_point p n +:+ fmt_exponent k)%string. }
    change (EmptyString +:+ ?x)%string with x. destruct (with_point p n) as [|c s]; [done|].
    rewrite str_app_cons. cbn [head_is] in *. by rewrite Hh.
Qed.

Lemma fmt_e_numeral p x :
  finite x → numeral (fmt_e p x) ∧ head_is is_digit (fmt_e p x) || String.prefix "-" (fmt_e p x) = true.
Proof.
  destruct x as [sg|sg| |sg m e]; try done; intros _; cbn [fmt_e]; [apply signed_numeral|].
  destruct (num_den m e) as [n d]. destruct (sci p n d) as [a k]. apply signed_numeral.
Qed.

(** ** Digits and their value *)
Definition dval (s : string) : Z := fst (fst (scan_digits 10 s 0 0)).

Lemma digit_of c : is_digit c → ∃ d, digit_value 10 c = Some d ∧ 0 <= d < 10.
Proof.
  intros H. exists (code c - 48). unfold digit_value, hex_value. rewrite (Is_true_true_1 _ H). cbv iota zeta.
  unfold is_digit in H. apply andb_prop_elim in H as [H1%Is_true_true H2%Is_true_true].
  assert (El : to_lower c = c) by (unfold to_lower; destruct (Z.leb_spec 65 (code c)); [lia | done]).
  rewrite El. destruct (Z.ltb_spec (code c - 48) 10); [split; [done | lia] | lia].
Qed.

Lemma scan_some s :
  all_chars is_digit s → ∃ v, 0 <= v < 10 ^ Z.of_nat (String.length s) ∧ ∀ acc k (r : string),
    scan_digits 10 (s +:+ r)%string acc k = scan_digits 10 r (acc * 10 ^ Z.of_nat (String.length s) + v) (k + String.length s)%nat.
Proof.
  induction s as [|c s IH].
  - intros _. exists 0. split; [simpl; lia|]. intros acc k r. change (EmptyString +:+ r)%string with r. f_equal; simpl; lia.
  - rewrite all_chars_cons. intros [Hc Hs]%andb_prop_elim. destruct (digit_of c Hc) as (d & Ed & Hd).
    destruct (IH Hs) as (v & Hv & Hscan). exists (d * 10 ^ Z.of_nat (String.length s) + v).
    cbn [String.length]. rewrite Nat2Z.inj_succ, Z.pow_succ_r by lia. split; [nia|].
    intros acc k r. rewrite str_app_cons. cbn [scan_digits]. rewrite Ed, Hscan. f_equal; [ring | lia].
Qed.

Lemma scan_app s rest acc k :
  all_chars is_digit s →
  scan_digits 10 (s +:+ rest)%string acc k =
  scan_digits 10 rest (acc * 10 ^ Z.of_nat (String.length s) + dval s) (k + String.length s)%nat.
Proof.
  intros Hs. destruct (scan_some s Hs) as (v & Hv & Hscan). rewrite Hscan.
  assert (E : dval s = v); [|by rewrite E]. unfold dval. rewrite <- (str_app_nil s), Hscan. simpl. lia.
Qed.

Lemma dval_app s t : all_chars is_digit s → all_chars is_digit t → dval (s +:+ t)%string = dval s * 10 ^ Z.of_nat (String.length t) + dval t.
Proof.
  intros Hs Ht. unfold dval at 1. rewrite scan_app by done. rewrite <- (str_app_nil t) at 1. rewrite scan_app by done. cbn [scan_digits fst]. lia.
Qed.

Lemma dval_cons c s d :
  digit_value 10 c = Some d → all_chars is_digit s → dval (String c s) = d * 10 ^ Z.of_nat (String.length s) + dval s.
Proof.
  intros Hd Hs. unfold dval at 1. cbn [scan_digits]. rewrite Hd. rewrite <- (str_app_nil s) at 1.
  rewrite scan_app by done. cbn [scan_digits fst]. lia.
Qed.

Lemma dval_bounds s : all_chars is_digit s → 0 <= dval s < 10 ^ Z.of_nat (String.length s).
Proof.
  induction s as [|c s IH]; [by vm_compute|]. rewrite all_chars_cons. intros [Hc Hs]%andb_prop_elim.
  destruct (digit_of c Hc) as (d & Ed & Hd). rewrite (dval_cons c s d) by done. specialize (IH Hs).
  cbn [String.length]. rewrite Nat2Z.inj_succ, Z.pow_succ_r by lia. nia.
Qed.

Lemma dval_zeros n : dval (zeros n) = 0.
Proof.
  induction n as [|n IH]; [done|]. cbn [zeros]. rewrite (dval_cons "0" _ 0) by (done || apply zeros_digits).
  rewrite IH. lia.
Qed.

Lemma scan_stops rest acc k : head_is is_digit rest = false → scan_digits 10 rest acc k = (acc, k, rest).
Proof.
  intros Hr. destruct rest as [|c r]; [done|]. cbn [head_is scan_digits] in *. unfold digit_value, hex_value. rewrite Hr.
  destruct (_ && _) eqn:E; [|done]. apply andb_prop in E as [E1 E2].
  destruct (Z.ltb_spec (code (to_lower c) - 87) 10); [lia | done].
Qed.

(** The digits of a number make the number. *)
Lemma scan_uint u p k rest :
  head_is is_digit rest = false →
  ∃ k', scan_digits 10 (NilEmpty.string_of_uint u +:+ rest)%string (Zpos p) k = (Zpos (Pos.of_uint_acc u p), k', rest).
Proof.
  intros Hr. revert p k. induction u; intros p k; cbn [NilEmpty.string_of_uint Pos.of_uint_acc].
  { exists k. change (EmptyString +:+ rest)%string with rest. by apply scan_stops. }
  all: rewrite str_app_cons; cbn [scan_digits];
    match goal with |- context [digit_value 10 ?c] => let v := eval vm_compute in (digit_value 10 c) in change (digit_value 10 c) with v end;
    cbv iota; match goal with |- context [scan_digits 10 _ ?z (S _)] => match goal with |- context [Pos.of_uint_acc _ ?q] =>
      replace z with (Zpos q) by lia end end; apply IHu.
Qed.

Lemma scan_uint0 u k rest :
  head_is is_digit rest = false →
  ∃ k', scan_digits 10 (NilEmpty.string_of_uint u +:+ rest)%string 0 k = (Z.of_N (Pos.of_uint u), k', rest).
Proof.
  intros Hr. revert k. induction u as [|u IH|u _|u _|u _|u _|u _|u _|u _|u _|u _]; intros k.
  { exists k. change (NilEmpty.string_of_uint Decimal.Nil +:+ rest)%string with rest. by apply scan_stops. }
  all: cbn [NilEmpty.string_of_uint Pos.of_uint Z.of_N]; rewrite str_app_cons; cbn [scan_digits];
    match goal with |- context [digit_value 10 ?c] => let v := eval vm_compute in (digit_value 10 c) in change (digit_value 10 c) with v end;
    cbv iota; match goal with |- context [scan_digits 10 _ ?z (S _)] => let v := eval vm_compute in z in change z with v end;
    first [apply IH | by apply scan_uint].
Qed.

Lemma dval_fmt_nat n : 0 <= n → dval (fmt_nat n) = n.
Proof.
  intros Hn. unfold fmt_nat, dval. pose proof (DecimalN.Unsigned.of_to (Z.to_N n)) as E. unfold N.of_uint in E.
  destruct (scan_uint0 (N.to_uint (Z.to_N n)) 0 "" eq_refl) as [k' Hs]. rewrite str_app_nil in Hs.
  rewrite E, Z2N.id in Hs by done. destruct (N.to_uint (Z.to_N n)) eqn:Eu;
    [|exact (f_equal (λ x, fst (fst x)) Hs)..].
  cbn [Pos.of_uint] in E. vm_compute. lia.
Qed.

(** A number that is not zero begins with another digit. *)
Lemma fmt_nat_lower n : 0 < n → 10 ^ (digits n - 1) <= n.
Proof.
  intros Hn. unfold digits. pose proof (dval_fmt_nat n ltac:(lia)) as Hv. destruct (fmt_nat_digits n) as [Hd _]. revert Hv Hd.
  unfold fmt_nat. pose proof (DecimalN.Unsigned.of_to (Z.to_N n)) as E.
  pose proof (DecimalN.Unsigned.to_of (N.to_uint (Z.to_N n))) as Eto. rewrite E in Eto.
  destruct (N.to_uint (Z.to_N n)) as [|u|u|u|u|u|u|u|u|u|u] eqn:Eu; cbn [NilZero.string_of_uint NilEmpty.string_of_uint].
  { unfold N.of_uint in E. cbn [Pos.of_uint] in E. lia. }
  { exfalso. unfold Decimal.unorm in Eto. destruct (Decimal.nzhead (Decimal.D0 u)) eqn:Ez; try done.
    - injection Eto as ->. unfold N.of_uint in E. cbn in E. lia.
    - by apply nzhead_nonzero in Ez. }
  all: rewrite all_chars_cons; intros Hv [Hc Hd]%andb_prop_elim;
    (erewrite dval_cons in Hv; [|by vm_compute | done]); pose proof (dval_bounds _ Hd);
    cbn [String.length]; rewrite Nat2Z.inj_succ; rewrite Z.sub_1_r, Z.pred_succ; nia.
Qed.

Lemma fmt_nat_upper n : 0 <= n → n < 10 ^ digits n.
Proof.
  intros Hn. destruct (fmt_nat_digits n) as [Hd _]. pose proof (dval_bounds _ Hd) as Hb.
  rewrite dval_fmt_nat in Hb by done. apply Hb.
Qed.

Lemma digits_pos n : 1 <= digits n.
Proof. unfold digits. destruct (fmt_nat_digits n) as [_ Hn]. destruct (fmt_nat n); [done | simpl; lia]. Qed.

Lemma dval_pad w n : 0 <= n → dval (fmt_nat_pad w n) = n.
Proof.
  intros Hn. unfold fmt_nat_pad. rewrite dval_app by (apply zeros_digits || apply fmt_nat_digits).
  rewrite dval_zeros, dval_fmt_nat by done. lia.
Qed.

Lemma zeros_length n : String.length (zeros n) = n.
Proof. induction n as [|n IH]; [done|]. simpl. by rewrite IH. Qed.

Lemma pad_length w n : (0 < w)%nat → 0 <= n < 10 ^ Z.of_nat w → String.length (fmt_nat_pad w n) = w.
Proof.
  intros Hw Hn. unfold fmt_nat_pad. rewrite str_length_app, zeros_length.
  assert (H : digits n <= Z.of_nat w); [|unfold digits in H; lia].
  destruct (decide (n = 0)) as [->|Hnz]; [unfold digits; simpl; lia|].
  pose proof (fmt_nat_lower n ltac:(lia)) as Hl. pose proof (digits_pos n).
  assert (10 ^ (digits n - 1) < 10 ^ Z.of_nat w) as Hlt%Z.pow_lt_mono_r_iff by lia; lia.
Qed.

(** ** The nearest decimal

    [n / (d * 10 ^ k)] as a fraction. *)
Definition scaled (n d k : Z) : Z * Z := if 0 <=? k then (n, d * 10 ^ k) else (n * 10 ^ (- k), d).

Lemma scaled_shift n d j k :
  j <= k → fst (scaled n d j) * snd (scaled n d k) = fst (scaled n d k) * snd (scaled n d j) * 10 ^ (k - j).
Proof.
  intros Hjk. unfold scaled. destruct (Z.leb_spec 0 j), (Z.leb_spec 0 k); cbn [fst snd]; try lia.
  - replace (10 ^ k) with (10 ^ j * 10 ^ (k - j)) by (rewrite <- Z.pow_add_r by lia; f_equal; lia). ring.
  - replace (10 ^ (k - j)) with (10 ^ (- j) * 10 ^ k) by (rewrite <- Z.pow_add_r by lia; f_equal; lia). ring.
  - replace (10 ^ (- j)) with (10 ^ (- k) * 10 ^ (k - j)) by (rewrite <- Z.pow_add_r by lia; f_equal; lia). ring.
Qed.

Lemma scaled_pos n d k : 0 < n → 0 < d → 0 < fst (scaled n d k) ∧ 0 < snd (scaled n d k).
Proof.
  intros Hn Hd. unfold scaled. destruct (Z.leb_spec 0 k); cbn [fst snd].
  - pose proof (Z.pow_pos_nonneg 10 k). nia.
  - pose proof (Z.pow_pos_nonneg 10 (- k)). nia.
Qed.

Lemma exp10_spec n d :
  0 < n → 0 < d → let k := exp10 n d in
  snd (scaled n d k) <= fst (scaled n d k) ∧ fst (scaled n d (k + 1)) < snd (scaled n d (k + 1)).
Proof.
  intros Hn Hd. pose proof (fmt_nat_upper n) as Un. pose proof (fmt_nat_upper d) as Ud.
  pose proof (fmt_nat_lower n Hn) as Ln. pose proof (fmt_nat_lower d Hd) as Ld.
  pose proof (digits_pos n). pose proof (digits_pos d). specialize (Un ltac:(lia)). specialize (Ud ltac:(lia)).
  set (k0 := digits n - digits d).
  assert (Hup : fst (scaled n d (k0 + 1)) < snd (scaled n d (k0 + 1))).
  { unfold scaled. destruct (Z.leb_spec 0 (k0 + 1)); cbn [fst snd].
    - pose proof (Z.pow_pos_nonneg 10 (k0 + 1)).
      assert (10 ^ digits n = 10 ^ (digits d - 1) * 10 ^ (k0 + 1)) by (rewrite <- Z.pow_add_r by lia; f_equal; lia). nia.
    - pose proof (Z.pow_pos_nonneg 10 (- (k0 + 1))).
      assert (10 ^ (digits d - 1) = 10 ^ digits n * 10 ^ (- (k0 + 1))) by (rewrite <- Z.pow_add_r by lia; f_equal; lia). nia. }
  assert (Hlow : snd (scaled n d (k0 - 1)) <= fst (scaled n d (k0 - 1))).
  { unfold scaled. destruct (Z.leb_spec 0 (k0 - 1)); cbn [fst snd].
    - pose proof (Z.pow_pos_nonneg 10 (k0 - 1)).
      assert (10 ^ (digits n - 1) = 10 ^ digits d * 10 ^ (k0 - 1)) by (rewrite <- Z.pow_add_r by lia; f_equal; lia). nia.
    - pose proof (Z.pow_pos_nonneg 10 (- (k0 - 1))).
      assert (10 ^ digits d = 10 ^ (digits n - 1) * 10 ^ (- (k0 - 1))) by (rewrite <- Z.pow_add_r by lia; f_equal; lia). nia. }
  unfold exp10. fold k0.
  assert (Hat : at_least_pow10 n d k0 = (snd (scaled n d k0) <=? fst (scaled n d k0))).
  { unfold at_least_pow10, scaled. by destruct (0 <=? k0). }
  rewrite Hat. destruct (Z.leb_spec (snd (scaled n d k0)) (fst (scaled n d k0))); cbv zeta; [done|].
  split; [done|]. by rewrite Z.sub_add.
Qed.

Lemma round_half_even_spec n d :
  0 < d → 2 * Z.abs (round_half_even n d * d - n) <= d ∧
  (∀ c, c * d <= n → c <= round_half_even n d) ∧ (∀ c, n <= c * d → round_half_even n d <= c).
Proof.
  intros Hd. unfold round_half_even. pose proof (Z_div_mod n d ltac:(lia)) as H. destruct (Z.div_eucl n d) as [q r].
  destruct H as [-> Hr]. destruct (_ || _) eqn:E.
  - assert (2 * r <= d) by (apply orb_prop in E as [E|E%andb_prop]; lia). split_and!; [lia|nia..].
  - apply orb_false_elim in E as [E1 E2]. assert (d <= 2 * r) by lia. split_and!; [lia|nia..].
Qed.

(** The digits and the exponent of [%.<prec>e]: those of the decimal of that many
    digits that is nearest. *)
Lemma sci_nearest (p : nat) n d :
  0 < n → 0 < d → let '(a, k) := sci p n d in
  10 ^ Z.of_nat p <= a < 10 ^ (Z.of_nat p + 1) ∧
  let '(N, D) := scaled n d (k - Z.of_nat p) in 2 * Z.abs (a * D - N) <= D.
Proof.
  intros Hn Hd. unfold sci. destruct (exp10_spec n d Hn Hd) as [Hlo Hhi]. set (k := exp10 n d) in *.
  set (P := Z.of_nat p). assert (HP : 0 <= P) by lia.
  pose proof (scaled_pos n d (k - P) Hn Hd) as [HN HD].
  assert (Ea : (if 0 <=? P - k then round_half_even (n * 10 ^ (P - k)) d else round_half_even n (d * 10 ^ (- (P - k)))) =
               round_half_even (fst (scaled n d (k - P))) (snd (scaled n d (k - P)))).
  { unfold scaled. destruct (Z.leb_spec 0 (P - k)), (Z.leb_spec 0 (k - P)); try lia.
    - replace (P - k) with 0 by lia. replace (k - P) with 0 by lia. cbn [fst snd]. by rewrite !Z.mul_1_r.
    - cbn [fst snd]. by replace (- (k - P)) with (P - k) by lia.
    - cbn [fst snd]. by replace (- (P - k)) with (k - P) by lia. }
  cbv zeta. rewrite Ea. set (N := fst (scaled n d (k - P))) in *. set (D := snd (scaled n d (k - P))) in *.
  destruct (round_half_even_spec N D HD) as (Hnear & Hge & Hle). set (a := round_half_even N D) in *.
  assert (Hp1 : 10 ^ (P + 1) = 10 * 10 ^ P) by (rewrite Z.pow_add_r by lia; lia).
  assert (H1 : 10 ^ P <= a).
  { apply Hge. pose proof (scaled_shift n d (k - P) k ltac:(lia)) as S. fold N D in S. replace (k - (k - P)) with P in S by lia.
    pose proof (scaled_pos n d k Hn Hd). nia. }
  assert (H2 : a <= 10 ^ (P + 1)).
  { apply Hle. pose proof (scaled_shift n d (k - P) (k + 1) ltac:(lia)) as S. fold N D in S.
    replace (k + 1 - (k - P)) with (P + 1) in S by lia. pose proof (scaled_pos n d (k + 1) Hn Hd). nia. }
  destruct (Z.eqb_spec a (10 ^ (P + 1))) as [E|E].
  - rewrite E, Hp1, Z.mul_comm, Z.div_mul by lia. split; [pose proof (Z.pow_pos_nonneg 10 P); lia|].
    destruct (scaled n d (k + 1 - P)) as [N' D'] eqn:E'.
    pose proof (scaled_shift n d (k - P) (k + 1 - P) ltac:(lia)) as S. pose proof (scaled_pos n d (k + 1 - P) Hn Hd) as S'.
    rewrite E' in S, S'. fold N D in S. cbn [fst snd] in S, S'. replace (k + 1 - P - (k - P)) with 1 in S by lia.
    rewrite E, Hp1 in Hnear. change (10 ^ 1) with 10 in S.
    assert (Hm : 2 * Z.abs (10 * (10 ^ P * D' - N')) * D <= D * D').
    { replace (2 * Z.abs (10 * (10 ^ P * D' - N')) * D) with (2 * Z.abs (10 * 10 ^ P * D - N) * D').
      - nia.
      - rewrite <- (Z.abs_eq D) at 2 by lia. rewrite <- (Z.abs_eq D') at 1 by lia.
        rewrite <- !Z.mul_assoc, <- !Z.abs_mul. do 2 f_equal. nia. }
    nia.
  - split; [lia|]. fold P. destruct (scaled n d (k - P)) as [N0 D0]. exact Hnear.
Qed.

(** ** Reading what was printed *)
Lemma numeral_facts c :
  numeral_char c → is_space c = false ∧ (code (to_lower c) =? 120) = false ∧
  bool_decide ("i"%char = to_lower c) = false ∧ bool_decide ("n"%char = to_lower c) = false.
Proof. destruct c as [[] [] [] [] [] [] [] []]; by vm_compute. Qed.

Lemma numeral_read s :
  numeral s → skip_spaces s = s ∧ strip_0x s = s ∧ prefix_nocase "inf" s = false ∧ prefix_nocase "nan" s = false.
Proof.
  unfold numeral. destruct s as [|c [|d s]]; [done|..]; rewrite !all_chars_cons.
  - intros [Hc _]%andb_prop_elim. destruct (numeral_facts c Hc) as (E1 & _ & E2 & E3).
    cbn [skip_spaces strip_0x prefix_nocase]. by rewrite E1, E2, E3.
  - intros [Hc [Hd _]%andb_prop_elim]%andb_prop_elim.
    destruct (numeral_facts c Hc) as (E1 & _ & E2 & E3), (numeral_facts d Hd) as (_ & E4 & _).
    cbn [skip_spaces strip_0x prefix_nocase]. by rewrite E1, E2, E3, E4, andb_false_r.
Qed.

Lemma scan_exponent_print k : scan_exponent 101 (fmt_exponent k) = k.
Proof.
  assert (H : ∀ w, 0 <= w → scan_digits 10 (fmt_nat_pad 2 w) 0 0 = (w, String.length (fmt_nat_pad 2 w), ""%string)).
  { intros w Hw. rewrite <- (str_app_nil (fmt_nat_pad 2 w)) at 1. rewrite scan_app by apply pad_digits.
    rewrite dval_pad by done. cbn [scan_digits]. f_equal; f_equal; lia. }
  assert (Hl : ∀ w, String.length (fmt_nat_pad 2 w) ≠ 0%nat).
  { intros w. unfold fmt_nat_pad. rewrite str_length_app. destruct (fmt_nat_digits w) as [_ Hn].
    destruct (fmt_nat w); [done | simpl; lia]. }
  unfold fmt_exponent. destruct (Z.ltb_spec k 0).
  - change ("e-" ++ ?w)%string with (String "e" (String "-" w)). unfold scan_exponent.
    change (code (to_lower "e") =? 101) with true. cbv iota. unfold scan_sign. change (code "-" =? 45) with true. cbv iota.
    rewrite H by lia. rewrite decide_False by apply Hl. lia.
  - change ("e+" ++ ?w)%string with (String "e" (String "+" w)). unfold scan_exponent.
    change (code (to_lower "e") =? 101) with true. cbv iota. unfold scan_sign. change (code "+" =? 45) with false.
    change (code "+" =? 43) with true. cbv iota. rewrite H by lia. rewrite decide_False by apply Hl. lia.
Qed.

Lemma scan_mantissa_print p a rest :
  (0 < p)%nat → 0 <= a → head_is is_digit rest = false →
  scan_mantissa 10 (with_point p a +:+ rest)%string =
  (a, p, (String.length (fmt_nat (a / 10 ^ Z.of_nat p)) + p)%nat, rest).
Proof.
  intros Hp Ha Hr. unfold scan_mantissa, with_point. cbv zeta. rewrite decide_False by lia.
  set (P := 10 ^ Z.of_nat p). assert (HP : 0 < P) by (apply Z.pow_pos_nonneg; lia).
  assert (Hq : 0 <= a / P) by (apply Z.div_pos; lia). assert (Hm : 0 <= a mod P < P) by (apply Z.mod_pos_bound; lia).
  rewrite str_app_assoc, str_app_cons, scan_app by apply fmt_nat_digits. rewrite dval_fmt_nat by done.
  cbn [scan_digits]. change (digit_value 10 ".") with (@None Z). cbv iota beta.
  change (code "." =? 46) with true. cbv iota. rewrite scan_app by apply pad_digits.
  rewrite dval_pad, pad_length by (done || lia). rewrite scan_stops by done.
  fold P. f_equal. f_equal. f_equal. rewrite Z.mul_0_l, Z.add_0_l. pose proof (Z.div_mod a P). lia.
Qed.

Lemma atof_print (sg : bool) p a k :
  (0 < p)%nat → 0 <= a →
  atof (sign_str sg +:+ with_point p a +:+ fmt_exponent k)%string = apply_sign sg (b64_lit a (k - Z.of_nat p)).
Proof.
  intros Hp Ha. destruct (signed_numeral sg p a k) as [Hn _]. unfold atof.
  destruct (numeral_read _ Hn) as (-> & _).
  assert (Hw : numeral (with_point p a +:+ fmt_exponent k)%string).
  { apply numeral_app; [apply with_point_numeral | apply exponent_numeral]. }
  assert (Hs : scan_sign (sign_str sg +:+ with_point p a +:+ fmt_exponent k)%string =
               (sg, (with_point p a +:+ fmt_exponent k)%string)).
  { destruct sg; [done|]. cbn [sign_str]. change (EmptyString +:+ ?x)%string with x.
    destruct (with_point_numeral p a) as [_ Hh]. destruct (with_point p a) as [|c w]; [done|].
    rewrite str_app_cons. cbn [scan_sign head_is] in *. unfold is_digit in Hh.
    destruct (Z.eqb_spec (code c) 45); [lia|]. destruct (Z.eqb_spec (code c) 43); [lia | done]. }
  rewrite Hs. destruct (numeral_read _ Hw) as (_ & E & -> & ->). rewrite bool_decide_true by done. cbn [negb].
  rewrite scan_mantissa_print; [| done | done | by unfold fmt_exponent; destruct (k <? 0)].
  by rewrite scan_exponent_print.
Qed.

(** [y] is [x] to [p + 1] digits: the double that the decimal of [p + 1] digits
    nearest to [x] stands for. *)
Inductive to_digits (p : nat) : binary64 → binary64 → Prop :=
  | to_digits_zero sg : to_digits p (S754_zero sg) (S754_zero sg)
  | to_digits_finite sg m e n d a k N D :
      num_den m e = (n, d) → 10 ^ Z.of_nat p <= a < 10 ^ (Z.of_nat p + 1) →
      scaled n d (k - Z.of_nat p) = (N, D) → 2 * Z.abs (a * D - N) <= D →
      to_digits p (S754_finite sg m e) (apply_sign sg (b64_lit a (k - Z.of_nat p))).

Lemma atof_fmt_e p x : (0 < p)%nat → finite x → to_digits p x (atof (fmt_e p x)).
Proof.
  intros Hp Hx. destruct x as [sg|sg| |sg m e]; try done; cbn [fmt_e].
  - rewrite atof_print by lia. assert (E : b64_lit 0 (0 - Z.of_nat p) = S754_zero false).
    { unfold b64_lit. destruct (Z.leb_spec 0 (0 - Z.of_nat p)); [lia | done]. }
    rewrite E. destruct sg; constructor.
  - destruct (num_den m e) as [n d] eqn:E. assert (Hnd : 0 < n ∧ 0 < d).
    { unfold num_den in E. destruct (Z.leb_spec 0 e); injection E as <- <-; split; try lia.
      all: pose proof (Z.pow_pos_nonneg 2 e); pose proof (Z.pow_pos_nonneg 2 (- e)); nia. }
    pose proof (sci_nearest p n d) as H. destruct (sci p n d) as [a k]. destruct H as [Ha H]; [lia..|].
    destruct (scaled n d (k - Z.of_nat p)) as [N D] eqn:Es.
    rewrite atof_print by (done || (pose proof (Z.pow_pos_nonneg 10 (Z.of_nat p)); lia)).
    by eapply to_digits_finite.
Qed.
End CDecimal.
