(* ===== verification/Crc.v ===== *)
(** * CRC-32 checksums ([src/drv/crc.c])

    The checksum that the EPICS sequencer and the front end both compute over
    the filter coefficients and the DAQ configuration: a table driven MSB-first
    CRC over polynomial 0x04C11DB7, finished with the message length.

    - [crctab], [crc_ptr], [crc_len]: the code.
    - [bit_step], [crc_bits]: the bit-serial shift register the table encodes,
      used as the specification. *)
From S2P Require Import Prelude.

Module Crc.

(** [unsigned int crctab[256]] *)
Definition crctab : list Z := [
    0x00000000; 0x04C11DB7; 0x09823B6E; 0x0D4326D9; 0x130476DC; 0x17C56B6B;
    0x1A864DB2; 0x1E475005; 0x2608EDB8; 0x22C9F00F; 0x2F8AD6D6; 0x2B4BCB61;
    0x350C9B64; 0x31CD86D3; 0x3C8EA00A; 0x384FBDBD; 0x4C11DB70; 0x48D0C6C7;
    0x4593E01E; 0x4152FDA9; 0x5F15ADAC; 0x5BD4B01B; 0x569796C2; 0x52568B75;
    0x6A1936C8; 0x6ED82B7F; 0x639B0DA6; 0x675A1011; 0x791D4014; 0x7DDC5DA3;
    0x709F7B7A; 0x745E66CD; 0x9823B6E0; 0x9CE2AB57; 0x91A18D8E; 0x95609039;
    0x8B27C03C; 0x8FE6DD8B; 0x82A5FB52; 0x8664E6E5; 0xBE2B5B58; 0xBAEA46EF;
    0xB7A96036; 0xB3687D81; 0xAD2F2D84; 0xA9EE3033; 0xA4AD16EA; 0xA06C0B5D;
    0xD4326D90; 0xD0F37027; 0xDDB056FE; 0xD9714B49; 0xC7361B4C; 0xC3F706FB;
    0xCEB42022; 0xCA753D95; 0xF23A8028; 0xF6FB9D9F; 0xFBB8BB46; 0xFF79A6F1;
    0xE13EF6F4; 0xE5FFEB43; 0xE8BCCD9A; 0xEC7DD02D; 0x34867077; 0x30476DC0;
    0x3D044B19; 0x39C556AE; 0x278206AB; 0x23431B1C; 0x2E003DC5; 0x2AC12072;
    0x128E9DCF; 0x164F8078; 0x1B0CA6A1; 0x1FCDBB16; 0x018AEB13; 0x054BF6A4;
    0x0808D07D; 0x0CC9CDCA; 0x7897AB07; 0x7C56B6B0; 0x71159069; 0x75D48DDE;
    0x6B93DDDB; 0x6F52C06C; 0x6211E6B5; 0x66D0FB02; 0x5E9F46BF; 0x5A5E5B08;
    0x571D7DD1; 0x53DC6066; 0x4D9B3063; 0x495A2DD4; 0x44190B0D; 0x40D816BA;
    0xACA5C697; 0xA864DB20; 0xA527FDF9; 0xA1E6E04E; 0xBFA1B04B; 0xBB60ADFC;
    0xB6238B25; 0xB2E29692; 0x8AAD2B2F; 0x8E6C3698; 0x832F1041; 0x87EE0DF6;
    0x99A95DF3; 0x9D684044; 0x902B669D; 0x94EA7B2A; 0xE0B41DE7; 0xE4750050;
    0xE9362689; 0xEDF73B3E; 0xF3B06B3B; 0xF771768C; 0xFA325055; 0xFEF34DE2;
    0xC6BCF05F; 0xC27DEDE8; 0xCF3ECB31; 0xCBFFD686; 0xD5B88683; 0xD1799B34;
    0xDC3ABDED; 0xD8FBA05A; 0x690CE0EE; 0x6DCDFD59; 0x608EDB80; 0x644FC637;
    0x7A089632; 0x7EC98B85; 0x738AAD5C; 0x774BB0EB; 0x4F040D56; 0x4BC510E1;
    0x46863638; 0x42472B8F; 0x5C007B8A; 0x58C1663D; 0x558240E4; 0x51435D53;
    0x251D3B9E; 0x21DC2629; 0x2C9F00F0; 0x285E1D47; 0x36194D42; 0x32D850F5;
    0x3F9B762C; 0x3B5A6B9B; 0x0315D626; 0x07D4CB91; 0x0A97ED48; 0x0E56F0FF;
    0x1011A0FA; 0x14D0BD4D; 0x19939B94; 0x1D528623; 0xF12F560E; 0xF5EE4BB9;
    0xF8AD6D60; 0xFC6C70D7; 0xE22B20D2; 0xE6EA3D65; 0xEBA91BBC; 0xEF68060B;
    0xD727BBB6; 0xD3E6A601; 0xDEA580D8; 0xDA649D6F; 0xC423CD6A; 0xC0E2D0DD;
    0xCDA1F604; 0xC960EBB3; 0xBD3E8D7E; 0xB9FF90C9; 0xB4BCB610; 0xB07DABA7;
    0xAE3AFBA2; 0xAAFBE615; 0xA7B8C0CC; 0xA379DD7B; 0x9B3660C6; 0x9FF77D71;
    0x92B45BA8; 0x9675461F; 0x8832161A; 0x8CF30BAD; 0x81B02D74; 0x857130C3;
    0x5D8A9099; 0x594B8D2E; 0x5408ABF7; 0x50C9B640; 0x4E8EE645; 0x4A4FFBF2;
    0x470CDD2B; 0x43CDC09C; 0x7B827D21; 0x7F436096; 0x7200464F; 0x76C15BF8;
    0x68860BFD; 0x6C47164A; 0x61043093; 0x65C52D24; 0x119B4BE9; 0x155A565E;
    0x18197087; 0x1CD86D30; 0x029F3D35; 0x065E2082; 0x0B1D065B; 0x0FDC1BEC;
    0x3793A651; 0x3352BBE6; 0x3E119D3F; 0x3AD08088; 0x2497D08D; 0x2056CD3A;
    0x2D15EBE3; 0x29D4F654; 0xC5A92679; 0xC1683BCE; 0xCC2B1D17; 0xC8EA00A0;
    0xD6AD50A5; 0xD26C4D12; 0xDF2F6BCB; 0xDBEE767C; 0xE3A1CBC1; 0xE760D676;
    0xEA23F0AF; 0xEEE2ED18; 0xF0A5BD1D; 0xF464A0AA; 0xF9278673; 0xFDE69BC4;
    0x89B8FD09; 0x8D79E0BE; 0x803AC667; 0x84FBDBD0; 0x9ABC8BD5; 0x9E7D9662;
    0x933EB0BB; 0x97FFAD0C; 0xAFB010B1; 0xAB710D06; 0xA6322BDF; 0xA2F33668;
    0xBCB4666D; 0xB8757BDA; 0xB5365D03; 0xB1F740B4
].

(** One iteration of the loop of [crc_ptr]: [c] is a (signed) [char]. *)
Definition crc_step (crc c : Z) : Z :=
  Z.lxor (u32 (Z.shiftl crc 8))
         (crctab !!! Z.to_nat (Z.land (Z.lxor (Z.shiftr crc 24) c) 0xFF)).

(** [crc_ptr(cp, bytes, crc)]: fold the first [bytes] characters at [cp]. *)
Fixpoint crc_ptr (cp : list Z) (bytes : nat) (crc : Z) : Z :=
  match bytes with
  | O => crc
  | S n => crc_ptr (tail cp) n (crc_step crc (hd 0 cp))
  end.

(** The [while (bytes > 0)] loop of [crc_len]; [None] is a loop that has not
    ended when the fuel is spent. *)
Fixpoint crc_len_loop (fuel : nat) (bytes crc : Z) : option Z :=
  if bytes >? 0 then
    match fuel with
    | O => None
    | S n => crc_len_loop n (Z.shiftr bytes 8) (crc_step crc bytes)
    end
  else Some crc.

(** [crc_len(bytes, crc)]; four rounds empty a 32-bit length. *)
Definition crc_len (bytes crc : Z) : option Z :=
  (λ c, Z.land (not32 c) 0xFFFFFFFF) <$> crc_len_loop 4 bytes crc.

(** ** The shift register *)
Definition poly : Z := 0x04C11DB7.

Definition bit_step (crc : Z) : Z :=
  if Z.testbit crc 31 then Z.lxor (u32 (Z.shiftl crc 1)) poly
  else u32 (Z.shiftl crc 1).

Definition crc_byte (crc b : Z) : Z := Nat.iter 8 bit_step (Z.lxor crc (Z.shiftl b 24)).

Definition crc_bits (msg : list Z) (crc : Z) : Z := foldl crc_byte crc msg.

Definition is_u32 (z : Z) : Prop := 0 <= z < 2 ^ 32.
Definition is_byte (z : Z) : Prop := 0 <= z < 2 ^ 8.

(** *** The register is linear over GF(2) *)
Lemma wrap_lxor w a b : 0 <= w → wrap w (Z.lxor a b) = Z.lxor (wrap w a) (wrap w b).
Proof.
  intros Hw. apply Z.bits_inj'. intros i Hi.
  rewrite Z.lxor_spec, !wrap_spec, Z.lxor_spec by done. by destruct (i <? w).
Qed.

Lemma bit_step_u32 c : is_u32 (bit_step c).
Proof.
  unfold bit_step. destruct (Z.testbit c 31); [|by apply wrap_bounds].
  apply lxor_bounds; [done | by apply wrap_bounds | done].
Qed.

Lemma bit_step_lxor a b : bit_step (Z.lxor a b) = Z.lxor (bit_step a) (bit_step b).
Proof.
  unfold bit_step. rewrite Z.lxor_spec, Z.shiftl_lxor, wrap_lxor by done.
  set (x := u32 (Z.shiftl a 1)). set (y := u32 (Z.shiftl b 1)).
  destruct (Z.testbit a 31), (Z.testbit b 31); simpl xorb; cbv iota.
  - rewrite (Z.lxor_comm y poly), <- Z.lxor_assoc, (Z.lxor_assoc x poly poly).
    by rewrite Z.lxor_nilpotent, Z.lxor_0_r.
  - rewrite !Z.lxor_assoc. by rewrite (Z.lxor_comm y poly).
  - by rewrite Z.lxor_assoc.
  - done.
Qed.

Lemma iter_step_lxor n a b :
  Nat.iter n bit_step (Z.lxor a b) = Z.lxor (Nat.iter n bit_step a) (Nat.iter n bit_step b).
Proof. induction n as [|n IH]; [done|]. simpl. by rewrite IH, bit_step_lxor. Qed.

Lemma iter_step_u32 n a : is_u32 a → is_u32 (Nat.iter n bit_step a).
Proof. destruct n; [done|]. intros _. apply bit_step_u32. Qed.

(** Bits below the top travel unchanged. *)
Lemma iter_step_small n a :
  0 <= a → a * 2 ^ Z.of_nat n < 2 ^ 32 → Nat.iter n bit_step a = Z.shiftl a (Z.of_nat n).
Proof.
  intros Ha. induction n as [|n IH]; intros Hlt; [by rewrite Z.shiftl_0_r|].
  rewrite Nat2Z.inj_succ, Z.pow_succ_r in Hlt by lia.
  assert (0 < 2 ^ Z.of_nat n) by (apply Z.pow_pos_nonneg; lia).
  assert (a * 2 ^ Z.of_nat n < 2 ^ 31) by nia.
  simpl. rewrite IH by lia.
  rewrite Z.shiftl_mul_pow2 by lia. unfold bit_step.
  replace (Z.testbit (a * 2 ^ Z.of_nat n) 31) with false.
  - rewrite Z.shiftl_mul_pow2, Z.shiftl_mul_pow2 by lia.
    rewrite wrap_small; [|nia]. rewrite Nat2Z.inj_succ, Z.pow_succ_r by lia. lia.
  - symmetry. rewrite <- (Z.mod_small (a * 2 ^ Z.of_nat n) (2 ^ 31)) by nia.
    apply Z.mod_pow2_bits_high. lia.
Qed.

(** The table holds eight register steps of every leading byte. *)
Lemma crctab_steps :
  Forall (λ i, crctab !!! i = Nat.iter 8 bit_step (Z.shiftl (Z.of_nat i) 24)) (seq 0 256).
Proof. apply (bool_decide_unpack _). vm_compute. exact I. Qed.

Lemma crctab_lookup i :
  0 <= i < 256 → crctab !!! Z.to_nat i = Nat.iter 8 bit_step (Z.shiftl i 24).
Proof.
  intros Hi. pose proof crctab_steps as H. rewrite Forall_forall in H.
  rewrite (H (Z.to_nat i)); [by rewrite Z2Nat.id by lia|].
  apply elem_of_seq. lia.
Qed.

Lemma split_top crc :
  is_u32 crc → crc = Z.lxor (Z.shiftl (Z.shiftr crc 24) 24) (wrap 24 crc).
Proof.
  intros Hc. apply Z.bits_inj'. intros i Hi.
  rewrite Z.lxor_spec, wrap_spec, Z.shiftl_spec by lia.
  destruct (Z.ltb_spec i 24).
  - rewrite (Z.testbit_neg_r _ (i - 24)) by lia. simpl. by destruct (Z.testbit crc i).
  - rewrite Z.shiftr_spec by lia. replace (i - 24 + 24) with i by lia. simpl.
    by rewrite xorb_false_r.
Qed.

Lemma shiftr_byte crc : is_u32 crc → is_byte (Z.shiftr crc 24).
Proof.
  intros [H0 H1]. unfold is_byte. rewrite Z.shiftr_div_pow2 by lia. split.
  - apply Z.div_pos; lia.
  - apply Z.div_lt_upper_bound; lia.
Qed.

(** One table step is eight register steps. *)
Lemma crc_step_byte crc c : is_u32 crc → crc_step crc c = crc_byte crc (Z.land c 0xFF).
Proof.
  intros Hc. unfold crc_step, crc_byte. change 0xFF with (Z.ones 8).
  set (t := Z.shiftr crc 24).
  assert (Hi : Z.land (Z.lxor t c) (Z.ones 8) = Z.lxor t (Z.land c (Z.ones 8))).
  { rewrite <- !wrap_ones, wrap_lxor by lia. f_equal. by apply wrap_small, shiftr_byte. }
  rewrite Hi, crctab_lookup.
  - rewrite (split_top crc Hc) at 2. fold t.
    rewrite (Z.lxor_comm (Z.shiftl t 24) (wrap 24 crc)), Z.lxor_assoc, <- Z.shiftl_lxor.
    rewrite (iter_step_lxor 8 (wrap 24 crc)). f_equal.
    pose proof (wrap_bounds 24 crc ltac:(lia)).
    rewrite iter_step_small by (simpl; lia).
    apply Z.bits_inj'. intros i Hpos. change (Z.of_nat 8) with 8.
    rewrite wrap_spec, !Z.shiftl_spec by lia.
    destruct (Z.ltb_spec i 32); destruct (Z.ltb_spec i 8); simpl.
    + by rewrite !Z.testbit_neg_r by lia.
    + rewrite wrap_spec by lia. by destruct (Z.ltb_spec (i - 8) 24); [|lia].
    + lia.
    + rewrite wrap_spec by lia. by destruct (Z.ltb_spec (i - 8) 24); [lia|].
  - apply (lxor_bounds 8); [lia | by apply shiftr_byte |].
    rewrite <- wrap_ones by lia. by apply wrap_bounds.
Qed.

Lemma crc_byte_u32 crc b : is_u32 (crc_byte crc b).
Proof. apply bit_step_u32. Qed.

Lemma crc_step_u32 crc c : is_u32 crc → is_u32 (crc_step crc c).
Proof. intros. rewrite crc_step_byte by done. apply crc_byte_u32. Qed.

Lemma crc_bits_u32 msg crc : is_u32 crc → is_u32 (crc_bits msg crc).
Proof.
  revert crc. induction msg as [|b msg IH]; intros crc Hc; [done|].
  apply IH, crc_byte_u32.
Qed.

Lemma crc_bits_app m1 m2 crc : crc_bits (m1 ++ m2) crc = crc_bits m2 (crc_bits m1 crc).
Proof. apply foldl_app. Qed.

(** [crc_ptr] over any characters (signed or not) is the bit-serial CRC of
    the bytes they hold: the 256-entry table and the byte loop implement the
    32-bit shift register over polynomial 0x04C11DB7. *)
Theorem crc_ptr_bits cp bytes crc :
  is_u32 crc → (bytes <= length cp)%nat →
  crc_ptr cp bytes crc = crc_bits (map (λ c, Z.land c 0xFF) (take bytes cp)) crc.
Proof.
  revert cp crc. induction bytes as [|n IH]; intros cp crc Hc Hlen; [done|].
  destruct cp as [|c cp]; simpl in *; [lia|].
  rewrite IH by (first [by apply crc_step_u32 | lia]). by rewrite crc_step_byte.
Qed.

Lemma crc_ptr_bits_witness :
  is_u32 0 ∧ crc_ptr [49; 50; 51] 3 0 = crc_bits [49; 50; 51] 0.
Proof. split; [done|]. apply (crc_ptr_bits [49; 50; 51] 3 0); [done | simpl; lia]. Defined.

(** *** Error detection *)
Lemma bit_step_kernel d : is_u32 d → bit_step d = 0 → d = 0.
Proof.
  intros Hd Hk. unfold bit_step in Hk. destruct (Z.testbit d 31) eqn:E.
  - apply (f_equal (λ z, Z.testbit z 0)) in Hk.
    rewrite Z.lxor_spec, wrap_spec, Z.shiftl_spec_low in Hk by lia. done.
  - apply (bits_inj_below 32); [lia | done | done |]. intros i Hi. rewrite Z.bits_0.
    destruct (decide (i = 31)) as [->|]; [done|].
    apply (f_equal (λ z, Z.testbit z (i + 1))) in Hk.
    rewrite wrap_spec, Z.shiftl_spec, Z.bits_0 in Hk by lia.
    replace (i + 1 - 1) with i in Hk by lia.
    by destruct (Z.ltb_spec (i + 1) 32); [|lia].
Qed.

Lemma iter_step_inj n a b :
  is_u32 a → is_u32 b → Nat.iter n bit_step a = Nat.iter n bit_step b → a = b.
Proof.
  intros Ha Hb Heq. apply Z.lxor_eq.
  assert (Hx : Nat.iter n bit_step (Z.lxor a b) = 0)
    by (rewrite iter_step_lxor, Heq; apply Z.lxor_nilpotent).
  assert (Hu : is_u32 (Z.lxor a b)) by by apply lxor_bounds.
  clear -Hx Hu. induction n as [|n IH]; [done|].
  apply IH. apply bit_step_kernel; [by apply iter_step_u32 | done].
Qed.

Lemma shiftl_byte_u32 b k : is_byte b → 0 <= k <= 24 → is_u32 (Z.shiftl b k).
Proof.
  intros Hb Hk. unfold is_byte, is_u32 in *. rewrite Z.shiftl_mul_pow2 by lia.
  assert (0 < 2 ^ k <= 2 ^ 24).
  { split; [apply Z.pow_pos_nonneg; lia | apply Z.pow_le_mono_r; lia]. }
  split; [nia|]. nia.
Qed.

Lemma crc_byte_inj_state a b c :
  is_u32 a → is_u32 b → is_byte c → crc_byte a c = crc_byte b c → a = b.
Proof.
  intros Ha Hb Hc Heq. apply iter_step_inj in Heq.
  - apply (f_equal (λ z, Z.lxor z (Z.shiftl c 24))) in Heq.
    by rewrite !Z.lxor_assoc, !Z.lxor_nilpotent, !Z.lxor_0_r in Heq.
  - apply lxor_bounds; [done..|]. by apply shiftl_byte_u32.
  - apply lxor_bounds; [done..|]. by apply shiftl_byte_u32.
Qed.

Lemma crc_bits_inj_state post a b :
  is_u32 a → is_u32 b → Forall is_byte post → crc_bits post a = crc_bits post b → a = b.
Proof.
  revert a b. induction post as [|c post IH]; intros a b Ha Hb Hp Heq; [done|].
  inversion_clear Hp. simpl in Heq.
  apply IH in Heq; [| apply crc_byte_u32 .. | done].
  by apply crc_byte_inj_state in Heq.
Qed.

(** At most four bytes sit in the register side by side: feeding them is
    xoring the packed word in first and stepping after. *)
Fixpoint pack (sh : Z) (l : list Z) : Z :=
  match l with
  | [] => 0
  | b :: l => Z.lxor (Z.shiftl b sh) (pack (sh - 8) l)
  end.

Lemma pack_shift l sh :
  8 * Z.of_nat (length l) <= sh + 8 → sh <= 24 → Forall is_byte l →
  0 <= pack sh l ∧ pack sh l < 2 ^ (sh + 8).
Proof.
  revert sh. induction l as [|b l IH]; intros sh Hlen Hsh Hb; simpl in *.
  { split; [done|]. apply Z.pow_pos_nonneg; lia. }
  inversion_clear Hb as [|? ? Hb0 Hl]. apply (lxor_bounds (sh + 8)); [lia| |].
  - rewrite Z.shiftl_mul_pow2 by lia. rewrite Z.pow_add_r by lia.
    unfold is_byte in *. assert (0 < 2 ^ sh) by (apply Z.pow_pos_nonneg; lia). nia.
  - destruct (IH (sh - 8)) as [H1 H2]; [lia | lia | done |].
    replace (sh - 8 + 8) with sh in H2 by lia.
    rewrite Z.pow_add_r by lia.
    assert (0 < 2 ^ sh) by (apply Z.pow_pos_nonneg; lia). lia.
Qed.

Lemma pack_sub l sh :
  8 * Z.of_nat (length l) <= sh → sh <= 24 → Forall is_byte l →
  pack sh l = Z.shiftl (pack (sh - 8) l) 8.
Proof.
  revert sh. induction l as [|b l IH]; intros sh Hlen Hsh Hb; simpl in *; [done|].
  inversion_clear Hb. rewrite Z.shiftl_lxor, Z.shiftl_shiftl by lia.
  replace (sh - 8 + 8) with sh by lia. f_equal. apply IH; [lia | lia | done].
Qed.

Lemma crc_bits_pack l s :
  is_u32 s → (length l <= 4)%nat → Forall is_byte l →
  crc_bits l s = Nat.iter (8 * length l) bit_step (Z.lxor s (pack 24 l)).
Proof.
  revert s. induction l as [|b l IH]; intros s Hs Hlen Hb; cbn [length pack crc_bits foldl] in *.
  { by rewrite Z.lxor_0_r. }
  inversion_clear Hb as [|? ? Hb0 Hl]. change (foldl crc_byte ?x l) with (crc_bits l x).
  rewrite IH by (first [apply crc_byte_u32 | done | lia]). unfold crc_byte.
  rewrite Nat.mul_succ_r, Nat.iter_add. f_equal.
  rewrite <- Z.lxor_assoc, (iter_step_lxor 8 (Z.lxor s _)). f_equal.
  destruct (pack_shift l 16) as [H1 H2]; [lia | lia | done |].
  change (16 + 8) with 24 in H2. change (24 - 8) with 16.
  rewrite iter_step_small by (change (Z.of_nat 8) with 8; lia).
  apply (pack_sub l 24); [lia | lia | done].
Qed.

Lemma pack_inj l1 l2 sh :
  length l1 = length l2 → 8 * Z.of_nat (length l1) <= sh + 8 → sh <= 24 →
  Forall is_byte l1 → Forall is_byte l2 → pack sh l1 = pack sh l2 → l1 = l2.
Proof.
  revert l2 sh. induction l1 as [|a l1 IH]; intros [|b l2] sh Hlen Hn Hsh H1 H2 Heq;
    simpl in *; try done.
  inversion_clear H1 as [|? ? Ha Hl1]. inversion_clear H2 as [|? ? Hb Hl2].
  destruct (pack_shift l1 (sh - 8)) as [P1 Q1]; [lia | lia | done |].
  destruct (pack_shift l2 (sh - 8)) as [P2 Q2]; [lia | lia | done |].
  replace (sh - 8 + 8) with sh in Q1, Q2 by lia.
  assert (Hhi : a = b).
  { apply (bits_inj_below 8); [lia | done | done |]. intros i Hi.
    apply (f_equal (λ z, Z.testbit z (i + sh))) in Heq.
    rewrite !Z.lxor_spec, !Z.shiftl_spec in Heq by lia.
    replace (i + sh - sh) with i in Heq by lia.
    rewrite <- (wrap_small sh (pack (sh - 8) l1)), <- (wrap_small sh (pack (sh - 8) l2)) in Heq
      by lia.
    rewrite !wrap_spec in Heq by lia. destruct (Z.ltb_spec (i + sh) sh); [lia|].
    by rewrite !xorb_false_r in Heq. }
  subst b. f_equal. apply (IH l2 (sh - 8)); [lia | lia | lia | done | done |].
  apply (f_equal (Z.lxor (Z.shiftl a sh))) in Heq.
  by rewrite <- !Z.lxor_assoc, !Z.lxor_nilpotent, !Z.lxor_0_l in Heq.
Qed.

(** the checksum detects every error burst of up to 32 bits: two messages
    that agree outside a window of at most four bytes and differ inside it
    have different checksums, whatever the checksum was seeded with. *)
Theorem crc_detects_bursts pre mid1 mid2 post crc :
  is_u32 crc → length mid1 = length mid2 → (length mid1 <= 4)%nat → mid1 ≠ mid2 →
  Forall is_byte (pre ++ mid1 ++ post) → Forall is_byte (pre ++ mid2 ++ post) →
  crc_ptr (pre ++ mid1 ++ post) (length (pre ++ mid1 ++ post)) crc ≠
  crc_ptr (pre ++ mid2 ++ post) (length (pre ++ mid2 ++ post)) crc.
Proof.
  intros Hc Hlen Hle Hne HF1 HF2 Heq. apply Hne.
  assert (Hbyte : ∀ l, Forall is_byte l → map (λ c, Z.land c 0xFF) l = l).
  { intros l. induction 1 as [|x l Hx _ IH]; [done|]. simpl. rewrite IH. f_equal.
    change 0xFF with (Z.ones 8). rewrite <- wrap_ones by lia. by apply wrap_small. }
  rewrite !crc_ptr_bits, !firstn_all in Heq by done.
  rewrite (Hbyte _ HF1), (Hbyte _ HF2), !crc_bits_app in Heq.
  rewrite !Forall_app in HF1, HF2. destruct HF1 as (_ & Hm1 & Hp), HF2 as (_ & Hm2 & _).
  assert (Hs : is_u32 (crc_bits pre crc)) by by apply crc_bits_u32.
  apply crc_bits_inj_state in Heq; [| by apply crc_bits_u32 .. | done].
  rewrite (crc_bits_pack mid1), (crc_bits_pack mid2) in Heq by (done || lia).
  rewrite <- Hlen in Heq.
  destruct (pack_shift mid1 24) as [? ?]; [lia | lia | done |].
  destruct (pack_shift mid2 24) as [? ?]; [lia | lia | done |].
  apply iter_step_inj in Heq; [| by apply lxor_bounds ..].
  apply (pack_inj _ _ 24); [done | lia | lia | done | done |].
  apply (f_equal (Z.lxor (crc_bits pre crc))) in Heq.
  by rewrite <- !Z.lxor_assoc, !Z.lxor_nilpotent, !Z.lxor_0_l in Heq.
Qed.

Lemma crc_detects_bursts_witness :
  crc_ptr [1; 2; 3; 9] 4 0 ≠ crc_ptr [1; 7; 5; 9] 4 0.
Proof.
  apply (crc_detects_bursts [1] [2; 3] [7; 5] [9] 0); try done; try (simpl; lia).
  - repeat constructor; unfold is_byte; simpl; lia.
  - repeat constructor; unfold is_byte; simpl; lia.
Defined.

(** *** Finishing with the length *)
Lemma crc_len_loop_done fuel bytes crc :
  0 <= bytes < 2 ^ (8 * Z.of_nat fuel) → is_Some (crc_len_loop fuel bytes crc).
Proof.
  revert bytes crc. induction fuel as [|n IH]; intros bytes crc Hb; simpl.
  - destruct (Z.gtb_spec bytes 0); [simpl in Hb; lia | eauto].
  - destruct (Z.gtb_spec bytes 0); [|eauto]. apply IH.
    rewrite Z.shiftr_div_pow2 by lia. split; [apply Z.div_pos; lia|].
    apply Z.div_lt_upper_bound; [lia|]. rewrite <- Z.pow_add_r by lia.
    replace (8 + 8 * Z.of_nat n) with (8 * Z.of_nat (S n)) by lia. lia.
Qed.

Fixpoint len_bytes (fuel : nat) (bytes : Z) : list Z :=
  match fuel with
  | O => []
  | S n => if bytes >? 0 then Z.land bytes 0xFF :: len_bytes n (Z.shiftr bytes 8) else []
  end.

Lemma crc_len_loop_bits fuel bytes crc r :
  is_u32 crc → crc_len_loop fuel bytes crc = Some r →
  r = crc_bits (len_bytes fuel bytes) crc.
Proof.
  revert bytes crc. induction fuel as [|n IH]; intros bytes crc Hc Heq; simpl in *.
  - by destruct (bytes >? 0); simplify_eq.
  - destruct (bytes >? 0); [|by simplify_eq].
    apply IH in Heq; [|by apply crc_step_u32]. by rewrite Heq, crc_step_byte.
Qed.

(** [crc_len] always ends within four rounds of its loop, and returns the
    complement of the register after the length's significant bytes, least
    significant first. *)
Theorem crc_len_total bytes crc :
  is_u32 bytes → is_u32 crc →
  crc_len bytes crc = Some (not32 (crc_bits (len_bytes 4 bytes) crc)).
Proof.
  intros Hb Hc. unfold crc_len.
  destruct (crc_len_loop_done 4 bytes crc) as [r Hr]; [done|].
  rewrite Hr. cbv [fmap option_fmap option_map]. f_equal. apply crc_len_loop_bits in Hr as ->; [|done].
  change 0xFFFFFFFF with (Z.ones 32). rewrite <- wrap_ones by lia. apply wrap_small.
  apply lxor_bounds; [lia | by apply wrap_bounds | done].
Qed.

Lemma crc_len_total_witness :
  is_u32 300 ∧ is_u32 7 ∧ crc_len 300 7 = Some (not32 (crc_bits (len_bytes 4 300) 7)).
Proof.
  assert (H1 : is_u32 300) by done. assert (H2 : is_u32 7) by done.
  exact (conj H1 (conj H2 (crc_len_total 300 7 H1 H2))).
Defined.

End Crc.
