(* ===== verification/CFile.v ===== *)
(** * Files as text

    What the code that reads text files shares: the pieces [fgets] cuts a file
    in, strings as far as their first NUL, and the checksum of a file computed
    piece by piece. *)
From Stdlib Require Import String Ascii.
From stdpp Require Import strings.
From S2P Require Import Prelude CText Crc.
Import CText.

Module CFile.

Definition newline : string := String NL "".

(** [fgets], again and again, with a buffer of [S size]: the pieces of a file;
    [n] characters still fit in the piece begun. *)
Fixpoint fgets_all (size n : nat) (piece rest : string) : list string :=
  match rest with
  | EmptyString => if bool_decide (piece = ""%string) then [] else [piece]
  | String c rest =>
      let piece := (piece +:+ String c "")%string in
      match n with
      | S (S n) => if bool_decide (c = NL) then piece :: fgets_all size size "" rest else fgets_all size (S n) piece rest
      | _ => piece :: fgets_all size size "" rest
      end
  end.
(** [strlen]: a string ends at its first NUL. *)
Fixpoint c_str (s : string) : string :=
  match s with
  | String c s => if bool_decide (c = chr 0) then EmptyString else String c (c_str s)
  | EmptyString => EmptyString
  end.
Definition bytes_of (s : string) : list Z := map code (String.list_ascii_of_string s).

Definition one_line (s : string) : bool := all_chars (λ c, negb (bool_decide (c = NL))) s.

Lemma fgets_line (l piece rest : string) (size n : nat) :
  one_line l → (String.length l < n)%nat →
  fgets_all size n piece (l +:+ String NL rest)%string = (piece +:+ l +:+ newline)%string :: fgets_all size size "" rest.
Proof.
  revert piece n. induction l as [|c l IH]; intros piece n Ho Hn.
  - destruct n as [|[|n]]; [simpl in Hn; lia | done | done].
  - unfold one_line in Ho. rewrite all_chars_cons in Ho. apply andb_prop_elim in Ho as [Hc Ho].
    destruct n as [|[|n]]; [simpl in Hn; lia | simpl in Hn; lia|]. rewrite str_app_cons. cbn [fgets_all].
    destruct (bool_decide (c = NL)); [done|]. rewrite IH by (done || (simpl in Hn; lia)).
    rewrite str_app_assoc. done.
Qed.

Lemma crc_ptr_app a b crc :
  Crc.crc_ptr (a ++ b) (length a + length b) crc = Crc.crc_ptr b (length b) (Crc.crc_ptr a (length a) crc).
Proof. revert crc. induction a as [|c a IH]; intros crc; [done|]. cbn [app length Nat.add Crc.crc_ptr tail hd]. apply IH. Qed.

Definition no_nul (s : string) : bool := all_chars (λ c, negb (bool_decide (c = chr 0))) s.

Lemma c_str_all s : no_nul s → c_str s = s.
Proof.
  unfold no_nul. induction s as [|c s IH]; [done|]. rewrite all_chars_cons. intros [Hc Hs]%andb_prop_elim. cbn [c_str].
  destruct (bool_decide (c = chr 0)); [done | by rewrite IH].
Qed.

Lemma bytes_app s t : bytes_of (s +:+ t)%string = bytes_of s ++ bytes_of t.
Proof. unfold bytes_of. induction s as [|c s IH]; [done|]. rewrite str_app_cons. cbn [String.list_ascii_of_string map app]. by rewrite IH. Qed.

Lemma bytes_length s : length (bytes_of s) = String.length s.
Proof. unfold bytes_of. rewrite length_map. induction s as [|c s IH]; [done|]. simpl. by rewrite IH. Qed.

(** The pieces of a file are its text. *)
Lemma fgets_pieces size n piece rest : concat (fgets_all size n piece rest) = (piece +:+ rest)%string.
Proof.
  revert n piece. induction rest as [|c rest IH]; intros n piece.
  - cbn [fgets_all]. rewrite str_app_nil. case_bool_decide as E; [by rewrite E|]. cbn [concat foldr]. by rewrite str_app_nil.
  - assert (Hp : ∀ k, concat ((piece +:+ String c "")%string :: fgets_all size k "" rest) = (piece +:+ String c rest)%string).
    { intros k. cbn [concat foldr]. change (foldr String.append ""%string (fgets_all size k "" rest)) with (concat (fgets_all size k "" rest)).
      rewrite IH, str_app_assoc. done. }
    cbn [fgets_all]. destruct n as [|[|n]]; [apply Hp | apply Hp|]. destruct (bool_decide (c = NL)); [apply Hp|].
    rewrite IH, str_app_assoc. done.
Qed.

Lemma concat_cons (l : string) ls : concat (l :: ls) = (l +:+ concat ls)%string.
Proof. done. Qed.

Lemma pieces_no_nul size text : no_nul text → Forall no_nul (fgets_all size size "" text).
Proof.
  intros Hn. pose proof (fgets_pieces size size "" text) as E. change (String.append "" text) with text in E.
  rewrite <- E in Hn. clear E. induction (fgets_all size size "" text) as [|p l IH]; [done|].
  rewrite concat_cons in Hn. unfold no_nul in Hn. rewrite all_chars_app in Hn. apply andb_prop_elim in Hn as [Hp Hl].
  constructor; [done|by apply IH].
Qed.

Definition line_fits (size : nat) (l : string) : Prop := one_line l ∧ (String.length l < size)%nat.
Definition text_of (ls : list string) : string := concat (map (λ l, l +:+ newline)%string ls).

Lemma text_of_cons l ls : text_of (l :: ls) = (l +:+ String NL (text_of ls))%string.
Proof. unfold text_of. cbn [map concat foldr]. by rewrite str_app_assoc. Qed.

Lemma pieces_text size ls : Forall (line_fits size) ls → fgets_all size size "" (text_of ls) = map (λ l, l +:+ newline)%string ls.
Proof.
  induction 1 as [|l ls [Ho Hl] _ IH]; [done|]. rewrite text_of_cons, fgets_line by done.
  change (String.append "" ?x) with x. by rewrite IH.
Qed.

Lemma text_of_app ls ls' : text_of (ls ++ ls') = (text_of ls +:+ text_of ls')%string.
Proof.
  induction ls as [|l ls IH]; [done|]. cbn [app]. rewrite !text_of_cons, IH, str_app_assoc.
  by rewrite str_app_cons.
Qed.

End CFile.
