(* ===== verification/Tconv.v ===== *)
(** * Time conversion

    [src/gds/tconv.c]: seconds of GPS time to calendar date and time of UTC and
    back, with the table of leap seconds; nanoseconds to seconds; the portable
    form of a time; the next leap second.  Used by the waveform generator and
    the test point manager.  [long] and [unsigned long] have 64 bits. *)
From Stdlib Require Import Bool.
From S2P Require Import Prelude.

Module Tconv.

Abbreviation s64 := (swrap 64).

Definition TAIatGPSzero : Z := 694656019.
Definition _ONESEC : Z := 1000000000.
Definition SECS_PER_HOUR : Z := 60 * 60.
Definition SECS_PER_DAY : Z := SECS_PER_HOUR * 24.
Definition OFFS_YEAR : Z := 1972.
Definition OFFS_LEAP : Z := 10.
Definition OFFS_TAI : Z := ((72 - 58) * 365 + 3) * SECS_PER_DAY + OFFS_LEAP.
Definition OFFS_WDAY : Z := 6.

Definition ISLEAP (year : Z) : bool :=
  (Z.rem year 4 =? 0) && (negb (Z.rem year 100 =? 0) || (Z.rem year 400 =? 0)).
Definition LEAPS_THRU_END_OF (y : Z) : Z := Z.quot y 4 - Z.quot y 100 + Z.quot y 400.

Definition mon_yday (leap : bool) : list Z :=
  if leap then [0; 31; 60; 91; 121; 152; 182; 213; 244; 274; 305; 335; 366]
  else [0; 31; 59; 90; 120; 151; 181; 212; 243; 273; 304; 334; 365].

Record leap_t := mkLeap { transition : Z; change : Z }.
#[export] Instance leap_t_inhabited : Inhabited leap_t := populate (mkLeap 0 0).

Definition leaps : list leap_t :=
  [ mkLeap (OFFS_TAI + 182 * SECS_PER_DAY) 1;
    mkLeap (OFFS_TAI + (365 + 1) * SECS_PER_DAY + 1) 2;
    mkLeap (OFFS_TAI + (2 * 365 + 1) * SECS_PER_DAY + 2) 3;
    mkLeap (OFFS_TAI + (3 * 365 + 1) * SECS_PER_DAY + 3) 4;
    mkLeap (OFFS_TAI + (4 * 365 + 1) * SECS_PER_DAY + 4) 5;
    mkLeap (OFFS_TAI + (5 * 365 + 2) * SECS_PER_DAY + 5) 6;
    mkLeap (OFFS_TAI + (6 * 365 + 2) * SECS_PER_DAY + 6) 7;
    mkLeap (OFFS_TAI + (7 * 365 + 2) * SECS_PER_DAY + 7) 8;
    mkLeap (OFFS_TAI + (8 * 365 + 2) * SECS_PER_DAY + 8) 9;
    mkLeap (OFFS_TAI + (9 * 365 + 3 + 181) * SECS_PER_DAY + 9) 10;
    mkLeap (OFFS_TAI + (10 * 365 + 3 + 181) * SECS_PER_DAY + 10) 11;
    mkLeap (OFFS_TAI + (11 * 365 + 3 + 181) * SECS_PER_DAY + 11) 12;
    mkLeap (OFFS_TAI + (13 * 365 + 4 + 181) * SECS_PER_DAY + 12) 13;
    mkLeap (OFFS_TAI + (16 * 365 + 4) * SECS_PER_DAY + 13) 14;
    mkLeap (OFFS_TAI + (18 * 365 + 5) * SECS_PER_DAY + 14) 15;
    mkLeap (OFFS_TAI + (19 * 365 + 5) * SECS_PER_DAY + 15) 16;
    mkLeap (OFFS_TAI + (20 * 365 + 5 + 182) * SECS_PER_DAY + 16) 17;
    mkLeap (OFFS_TAI + (21 * 365 + 6 + 181) * SECS_PER_DAY + 17) 18;
    mkLeap (OFFS_TAI + (22 * 365 + 6 + 181) * SECS_PER_DAY + 18) 19;
    mkLeap (OFFS_TAI + (24 * 365 + 6) * SECS_PER_DAY + 19) 20;
    mkLeap (OFFS_TAI + (25 * 365 + 7 + 181) * SECS_PER_DAY + 20) 21;
    mkLeap (OFFS_TAI + (27 * 365 + 7) * SECS_PER_DAY + 21) 22;
    mkLeap (OFFS_TAI + (34 * 365 + 9) * SECS_PER_DAY + 22) 23;
    mkLeap (OFFS_TAI + (37 * 365 + 10) * SECS_PER_DAY + 23) 24;
    mkLeap (OFFS_TAI + (40 * 365 + 10 + 182) * SECS_PER_DAY + 24) 25;
    mkLeap (OFFS_TAI + (43 * 365 + 11 + 181) * SECS_PER_DAY + 25) 26;
    mkLeap (OFFS_TAI + (45 * 365 + 12) * SECS_PER_DAY + 26) 27 ].

(** [struct tm] *)
Record utc_t := mkUtc { tm_sec : Z; tm_min : Z; tm_hour : Z; tm_mday : Z; tm_mon : Z; tm_year : Z; tm_wday : Z; tm_yday : Z }.

(** ** From GPS time to UTC *)

(** The index found by the [do ... while] loop that starts at [n]; [None] for -1. *)
Fixpoint last_leap (tab : list leap_t) (t : Z) (n : nat) : option nat :=
  match n with
  | O => None
  | S i => if t <? transition (tab !!! i) then last_leap tab t i else Some i
  end.

(** The test for "exactly at transition time". *)
Definition at_transition (tab : list leap_t) (t : Z) (i : nat) : bool :=
  (t =? transition (tab !!! i)) &&
  match i with
  | O => 0 <? change (tab !!! i)
  | S j => change (tab !!! j) <? change (tab !!! i)
  end.

(** The [while] loop for more than one leap second. *)
Fixpoint more_extra (tab : list leap_t) (i : nat) : Z :=
  match i with
  | O => 0
  | S j =>
      if (transition (tab !!! i) =? transition (tab !!! j) + 1) && (change (tab !!! i) =? change (tab !!! j) + 1)
      then 1 + more_extra tab j else 0
  end.

(** [leap_correction] and [leap_extra_secs]. *)
Definition leap_state (tab : list leap_t) (t : Z) : Z * Z :=
  match last_leap tab t (length tab) with
  | None => (0, 0)
  | Some i => (change (tab !!! i), if at_transition tab t i then 1 + more_extra tab i else 0)
  end.

(** The loop that finds the year, with at most [fuel] corrections of the guess. *)
Definition year_length (y : Z) : Z := if ISLEAP y then 366 else 365.
Definition guess_year (y days : Z) : Z := y + Z.quot days 365 - Z.b2z (Z.rem days 365 <? 0).
Fixpoint year_loop (fuel : nat) (y days : Z) : option (Z * Z) :=
  if (days <? 0) || (year_length y <=? days) then
    match fuel with
    | O => None
    | S n => let yg := guess_year y days in
             year_loop n yg (days - ((yg - y) * 365 + LEAPS_THRU_END_OF (yg - 1) - LEAPS_THRU_END_OF (y - 1)))
    end
  else Some (y, days).
Definition YEAR_FUEL : nat := 8.

(** [for (y = 11; days < ip[y]; --y)] *)
Fixpoint find_month (ip : list Z) (days : Z) (m : nat) : nat :=
  match m with
  | O => O
  | S m' => if days <? ip !!! m then find_month ip days m' else m
  end.

(** Days since 1972 and the seconds of the day.  The remainder is above
    [-SECS_PER_DAY] and below [SECS_PER_DAY], so that the loops that adjust it
    run at most once. *)
Definition split_days (tt : Z) : Z * Z :=
  let days := Z.quot tt SECS_PER_DAY in
  let rem := Z.rem tt SECS_PER_DAY in
  if rem <? 0 then (days - 1, rem + SECS_PER_DAY) else (days, rem).

Definition TAItoUTC (tab : list leap_t) (t : Z) : option utc_t :=
  let t := u64 (t + TAIatGPSzero) in
  if t <? OFFS_TAI then None
  else
    let '(leap_correction, leap_extra_secs) := leap_state tab t in
    let tt := s64 (t - OFFS_TAI - leap_correction) in
    let '(days, rem) := split_days tt in
    let wday := Z.rem (OFFS_WDAY + days) 7 in
    '(y, yday) ← year_loop YEAR_FUEL OFFS_YEAR days;
    let ip := mon_yday (ISLEAP y) in
    let m := find_month ip yday 11 in
    Some (mkUtc (Z.rem (Z.rem rem SECS_PER_HOUR) 60 + leap_extra_secs) (Z.quot (Z.rem rem SECS_PER_HOUR) 60)
            (Z.quot rem SECS_PER_HOUR) (s32 (yday - ip !!! m + 1)) (Z.of_nat m) (s32 (y - 1900))
            (if wday <? 0 then wday + 7 else wday) (s32 yday)).

(** ** From UTC to GPS time *)

(** The [while] loop over the table. *)
Fixpoint correct_leaps (tab : list leap_t) (tai extra correction : Z) : Z :=
  match tab with
  | [] => correction
  | l :: tab' =>
      if ((0 <? extra) && (transition l <? u64 (tai + correction - extra)))
         || ((extra =? 0) && (transition l <=? u64 (tai + correction)))
      then correct_leaps tab' tai extra (change l) else correction
  end.

Definition UTCtoTAI (tab : list leap_t) (u : utc_t) : Z :=
  let '(mon_remainder, mon_years) :=
    if Z.rem (tm_mon u) 12 <? 0 then (Z.rem (tm_mon u) 12 + 12, Z.quot (tm_mon u) 12 - 1)
    else (Z.rem (tm_mon u) 12, Z.quot (tm_mon u) 12) in
  let year := s32 (tm_year u + mon_years + 1900) in
  let ydays := s32 (mon_yday (ISLEAP year) !!! Z.to_nat mon_remainder + tm_mday u - 1) in
  let days := s32 (ydays + 365 * (year - OFFS_YEAR) + LEAPS_THRU_END_OF (year - 1) - LEAPS_THRU_END_OF (OFFS_YEAR - 1)) in
  if days <? 0 then 0
  else
    let tai := u64 (days * SECS_PER_DAY + OFFS_TAI + tm_hour u * SECS_PER_HOUR + tm_min u * 60 + tm_sec u) in
    let leap_extra_secs := if 59 <? tm_sec u then tm_sec u - 59 else 0 in
    u64 (tai + correct_leaps tab tai leap_extra_secs 0 - TAIatGPSzero).

(** ** Nanoseconds *)
Record tai_t := mkTai { tai : Z; nsec : Z }.

Definition TAInsec (t : tai_t) : Z := s64 (_ONESEC * s64 (tai t) + nsec t).

(** The rounded second, and the parts stored through the second argument. *)
Definition TAIsec (t : Z) : Z * tai_t :=
  let t0 := mkTai (u64 (Z.quot t _ONESEC)) (s64 (u64 (Z.rem t _ONESEC))) in
  (if nsec t0 <? 500000000 then tai t0 else u64 (tai t0 + 1), t0).

Definition TAIntoUTC (tab : list leap_t) (t : Z) : option utc_t :=
  if (TAIsec t).1 =? 0 then None else TAItoUTC tab (TAIsec t).1.
Definition UTCtoTAIn (tab : list leap_t) (u : utc_t) : Z :=
  if UTCtoTAI tab u =? 0 then 0 else TAInsec (mkTai (UTCtoTAI tab u) 0).

(** [htonl] and [ntohl]: the four bytes of the low word in reverse order. *)
Definition byte_of (k x : Z) : Z := Z.land (Z.shiftr x (8 * k)) 0xFF.
Definition htonl (x : Z) : Z := 2 ^ 24 * byte_of 0 x + 2 ^ 16 * byte_of 1 x + 2 ^ 8 * byte_of 2 x + byte_of 3 x.

(** [memcpy] of the structure: two little-endian words of 8 bytes. *)
Definition word_bytes (x : Z) : list Z := (λ k, byte_of (Z.of_nat k) (u64 x)) <$> seq 0 8.
Definition bytes_word (l : list Z) : Z := foldr (λ b acc, b + 256 * acc) 0 l.

Definition htonTAI (t : Z) : option (list Z) :=
  let '(s, p) := TAIsec t in
  if s =? 0 then None else Some (word_bytes (htonl (tai p)) ++ word_bytes (htonl (nsec p))).
Definition ntohTAI (buf : list Z) : Z :=
  let tai := bytes_word (take 8 buf) in
  let nsec := bytes_word (take 8 (drop 8 buf)) in
  TAInsec (mkTai (htonl tai) (htonl nsec)).

(** ** The next leap second *)

(** [(tainsec_t) leaps[i].transition - TAIatGPSzero]: the subtraction of a
    [long] and an [unsigned long]. *)
Definition gps_of_leap (l : leap_t) : Z := u64 (s64 (transition l) - TAIatGPSzero).
Fixpoint skip_leaps (tab : list leap_t) (t : Z) : list leap_t :=
  match tab with
  | [] => []
  | l :: tab' => if gps_of_leap l <=? t then skip_leaps tab' t else tab
  end.
(** [None] is the null pointer. *)
Definition getNextLeap (tab : list leap_t) (t : Z) : option leap_t :=
  match skip_leaps tab t with
  | [] => None
  | l :: _ => Some (mkLeap (u64 (transition l - TAIatGPSzero)) (change l + OFFS_LEAP))
  end.

(** ** The calendar

    The first day of year [y], counted from 1972; what the two conversions
    share. *)
Definition leap_days (y : Z) : Z := LEAPS_THRU_END_OF (y - 1) - LEAPS_THRU_END_OF (OFFS_YEAR - 1).
Definition year_start (y : Z) : Z := 365 * (y - OFFS_YEAR) + leap_days y.

Lemma leaps_thru_div y : 0 <= y → LEAPS_THRU_END_OF y = y / 4 - y / 100 + y / 400.
Proof. intros. unfold LEAPS_THRU_END_OF. by rewrite !Z.quot_div_nonneg by lia. Qed.

Lemma div_pred a b : 0 < b → (a - 1) / b = a / b - Z.b2z (a mod b =? 0).
Proof.
  intros. pose proof (Z.div_mod a b ltac:(lia)). pose proof (Z.mod_pos_bound a b ltac:(lia)).
  destruct (Z.eqb_spec (a mod b) 0); symmetry.
  - apply Z.div_unique with (b - 1); simpl; lia.
  - apply Z.div_unique with (a mod b - 1); simpl; lia.
Qed.

Lemma leap_days_step y : 1 <= y → leap_days (y + 1) = leap_days y + Z.b2z (ISLEAP y).
Proof.
  intros Hy. unfold leap_days, ISLEAP. replace (y + 1 - 1) with y by lia.
  rewrite (leaps_thru_div y), (leaps_thru_div (y - 1)), !Z.rem_mod_nonneg, !div_pred by lia.
  destruct (Z.eqb_spec (y mod 4) 0), (Z.eqb_spec (y mod 100) 0), (Z.eqb_spec (y mod 400) 0); simpl; try lia;
    exfalso; Z.to_euclidean_division_equations; lia.
Qed.

Lemma year_start_next y : 1 <= y → year_start (y + 1) = year_start y + year_length y.
Proof.
  intros. unfold year_start. rewrite leap_days_step by done. unfold year_length. destruct (ISLEAP y); simpl; lia.
Qed.

Lemma div_add_bounds a k n : 0 < n → k / n <= (a + k) / n - a / n <= k / n + 1.
Proof.
  intros Hn. pose proof (Z.div_mod a n ltac:(lia)). pose proof (Z.mod_pos_bound a n Hn).
  pose proof (Z.div_mod k n ltac:(lia)). pose proof (Z.mod_pos_bound k n Hn).
  pose proof (Z.div_mod (a + k) n ltac:(lia)). pose proof (Z.mod_pos_bound (a + k) n Hn). nia.
Qed.

Lemma leap_days_between y k : 1 <= y → 0 <= k → 0 <= leap_days (y + k) - leap_days y <= k / 4 + 3.
Proof.
  intros. unfold leap_days. replace (y + k - 1) with (y - 1 + k) by lia.
  rewrite !(leaps_thru_div (y - 1)), (leaps_thru_div (y - 1 + k)) by lia. set (z := y - 1).
  pose proof (div_add_bounds z k 4 ltac:(lia)). pose proof (div_add_bounds z k 400 ltac:(lia)).
  pose proof (div_add_bounds z k 100 ltac:(lia)). pose proof (Z.div_pos k 400 ltac:(lia) ltac:(lia)).
  pose proof (Z.div_le_mono z (z + k) 4 ltac:(lia) ltac:(lia)).
  assert (∀ a, a / 100 = a / 4 / 25) as E by (intros; by rewrite Z.div_div by lia). rewrite !E in *.
  set (q := z / 4) in *. assert (∃ r, (z + k) / 4 = q + r) as [r Er] by (exists ((z + k) / 4 - q); lia).
  rewrite Er in *. pose proof (div_add_bounds q r 25 ltac:(lia)).
  assert (k / 400 <= k / 4 / 25) by (rewrite Z.div_div by lia; apply Z.div_le_compat_l; lia).
  destruct (Z.eq_dec r 0) as [Hr|Hr]; [rewrite Hr, Z.add_0_r in *; lia|].
  assert (r / 25 < r) by (apply Z.div_lt_upper_bound; lia). lia.
Qed.

Lemma leap_days_short y k : 1 <= y → 0 <= k <= 4 → leap_days (y + k) - leap_days y <= 1.
Proof.
  intros. unfold leap_days. replace (y + k - 1) with (y - 1 + k) by lia.
  rewrite !(leaps_thru_div (y - 1)), (leaps_thru_div (y - 1 + k)) by lia. set (z := y - 1).
  assert ((z + k) / 4 - z / 4 <= 1).
  { assert (k < 4 ∨ k = 4) as [Hk| ->] by lia.
    - pose proof (div_add_bounds z k 4 ltac:(lia)). rewrite (Z.div_small k 4) in * by lia. lia.
    - replace (z + 4) with (z + 1 * 4) by lia. rewrite Z.div_add by lia. lia. }
  pose proof (div_add_bounds z k 100 ltac:(lia)). rewrite (Z.div_small k 100) in * by lia.
  assert (∀ a, a / 400 = a / 100 / 4) as E by (intros; by rewrite Z.div_div by lia). rewrite !E.
  assert ((z + k) / 100 = z / 100 ∨ (z + k) / 100 = z / 100 + 1) as [-> | ->] by lia; [lia|].
  pose proof (div_add_bounds (z / 100) 1 4 ltac:(lia)). rewrite (Z.div_small 1 4) in * by lia. lia.
Qed.

Lemma guess_year_div y days : guess_year y days = y + days / 365.
Proof.
  unfold guess_year. pose proof (Z.quot_rem' days 365). pose proof (Z.rem_bound_abs days 365 ltac:(lia)).
  assert (∀ q, 365 * q <= days <= 365 * q + 364 → days / 365 = q) as Hq.
  { intros q Hq. symmetry. apply Z.div_unique with (days - 365 * q); lia. }
  destruct (Z.ltb_spec (Z.rem days 365) 0); simpl.
  - rewrite (Hq (Z.quot days 365 - 1)) by lia. lia.
  - rewrite (Hq (Z.quot days 365)) by lia. lia.
Qed.

(** Where the loop is on its way to day [D]. *)
Definition on_the_way (D y days : Z) : Prop :=
  0 <= D ∧ 1970 <= y ∧ y <= OFFS_YEAR + D / 365 ∧ days = D - year_start y.

Definition next_days (y days : Z) : Z :=
  days - ((guess_year y days - y) * 365 + LEAPS_THRU_END_OF (guess_year y days - 1) - LEAPS_THRU_END_OF (y - 1)).

Lemma next_days_eq D y days : days = D - year_start y → next_days y days = D - year_start (guess_year y days).
Proof. intros ->. unfold next_days, year_start, leap_days. lia. Qed.

Lemma floor_365 days : 365 * (days / 365) <= days <= 365 * (days / 365) + 364.
Proof. pose proof (Z.div_mod days 365 ltac:(lia)). pose proof (Z.mod_pos_bound days 365 ltac:(lia)). lia. Qed.

Lemma on_the_way_next D y days : on_the_way D y days → on_the_way D (guess_year y days) (next_days y days).
Proof.
  intros (HD & Hy & Hy2 & Hd). split; [done|]. rewrite guess_year_div.
  assert (Hl : 0 <= leap_days y <= (y - 1970) / 4 + 3).
  { pose proof (leap_days_between 1970 (y - 1970) ltac:(lia) ltac:(lia)) as Hl.
    replace (1970 + (y - 1970)) with y in Hl by lia. change (leap_days 1970) with 0 in Hl. lia. }
  assert (4 * ((y - 1970) / 4) <= y - 1970) by (apply Z.mul_div_le; lia).
  pose proof (floor_365 days). pose proof (floor_365 D). unfold OFFS_YEAR in *.
  pose proof Hd as Hd'. unfold year_start, OFFS_YEAR in Hd'. split; [lia|]. split.
  - assert (y + days / 365 - 1972 <= D / 365); [|lia]. apply Z.div_le_lower_bound; lia.
  - rewrite (next_days_eq D) by done. by rewrite guess_year_div.
Qed.

Lemma next_days_bound D y days b :
  on_the_way D y days → Z.abs days <= b → Z.abs (next_days y days) <= b / 1460 + 370.
Proof.
  intros Hw Hb. destruct (on_the_way_next D y days Hw) as (_ & Hg & _). destruct Hw as (HD & Hy & Hy2 & Hd).
  rewrite (next_days_eq D) by done. rewrite guess_year_div in *. set (k := days / 365) in *.
  assert (365 * k <= days <= 365 * k + 364) by apply floor_365.
  unfold year_start in *. pose proof (Z.div_pos b 1460 ltac:(lia) ltac:(lia)). destruct (Z.le_gt_cases 0 k).
  - pose proof (leap_days_between y k ltac:(lia) ltac:(lia)). pose proof (Z.mul_div_le k 4 ltac:(lia)).
    assert (k / 4 <= b / 1460) by (apply Z.div_le_lower_bound; lia). lia.
  - pose proof (leap_days_between (y + k) (- k) ltac:(lia) ltac:(lia)) as Hl. replace (y + k + - k) with y in Hl by lia.
    pose proof (Z.mul_div_le (- k) 4 ltac:(lia)).
    assert (- k / 4 - 1 <= b / 1460) by (apply Z.div_le_lower_bound; lia). lia.
Qed.

Lemma next_days_near D y days :
  on_the_way D y days → Z.abs days <= 1460 →
  (0 <= days → -1 <= next_days y days <= 364) ∧
  (days < 0 → 0 <= next_days y days <= 365) ∧
  (days = -1 → 364 <= next_days y days <= 365) ∧
  (ISLEAP y = false → days = 365 → next_days y days = 0) ∧
  (days < 0 → next_days y days = 365 → days = -1 → ISLEAP (guess_year y days) = true).
Proof.
  intros Hw Hb. destruct (on_the_way_next D y days Hw) as (_ & Hg & _). destruct Hw as (HD & Hy & Hy2 & Hd).
  rewrite !(next_days_eq D) by done. rewrite !guess_year_div in *. set (k := days / 365) in *.
  assert (365 * k <= days <= 365 * k + 364) by apply floor_365. unfold year_start in *. split_and!.
  - intros. pose proof (leap_days_short y k ltac:(lia) ltac:(lia)). pose proof (leap_days_between y k ltac:(lia) ltac:(lia)). lia.
  - intros. pose proof (leap_days_short (y + k) (- k) ltac:(lia) ltac:(lia)) as H1.
    pose proof (leap_days_between (y + k) (- k) ltac:(lia) ltac:(lia)) as H2. replace (y + k + - k) with y in * by lia. lia.
  - intros ->. replace k with (-1) in * by lia. pose proof (leap_days_step (y + -1) ltac:(lia)) as Hs.
    replace (y + -1 + 1) with y in Hs by lia. destruct (ISLEAP (y + -1)); simpl in Hs; lia.
  - intros Hn ->. replace k with 1 by lia. rewrite leap_days_step by lia. rewrite Hn. simpl. lia.
  - intros _ He ->. replace k with (-1) in * by lia. pose proof (leap_days_step (y + -1) ltac:(lia)) as Hs.
    replace (y + -1 + 1) with y in Hs by lia. destruct (ISLEAP (y + -1)); [done|]. simpl in Hs. lia.
Qed.

Lemma year_loop_unfold n y days :
  year_loop (S n) y days =
  if (days <? 0) || (year_length y <=? days) then year_loop n (guess_year y days) (next_days y days) else Some (y, days).
Proof. done. Qed.

Definition finishes (n : nat) (D y days : Z) : Prop :=
  ∃ y' d, year_loop n y days = Some (y', d) ∧ on_the_way D y' d ∧ 0 <= d < year_length y'.

Lemma finishes_now n D y days : on_the_way D y days → 0 <= days < year_length y → finishes n D y days.
Proof.
  intros Hw Hd. exists y, days. split; [|done]. destruct n; simpl; 
  by rewrite (proj2 (Z.ltb_ge days 0)), (proj2 (Z.leb_gt (year_length y) days)) by lia.
Qed.

Lemma finishes_step n D y days :
  on_the_way D y days → finishes n D (guess_year y days) (next_days y days) → finishes (S n) D y days.
Proof.
  intros Hw (y' & d & E & Hf). unfold finishes. rewrite year_loop_unfold. destruct (_ || _) eqn:Ec; [by exists y', d|].
  exists y, days. split; [done|]. split; [done|]. apply orb_false_iff in Ec as [?%Z.ltb_ge ?%Z.leb_gt]. lia.
Qed.

Lemma year_length_cases y : (ISLEAP y = true ∧ year_length y = 366) ∨ (ISLEAP y = false ∧ year_length y = 365).
Proof. unfold year_length. destruct (ISLEAP y); auto. Qed.

Lemma finishes_after_back D y : on_the_way D y (-1) → finishes 1 D y (-1).
Proof.
  intros Hw. apply finishes_step; [done|].
  destruct (next_days_near D y (-1) Hw ltac:(lia)) as (_ & _ & H1 & _ & H2). specialize (H1 eq_refl).
  apply finishes_now; [by apply on_the_way_next|].
  destruct (year_length_cases (guess_year y (-1))) as [[El ->]|[El ->]]; [lia|].
  split; [lia|]. assert (next_days y (-1) ≠ 365); [|lia]. intros He. rewrite H2 in El by (done || lia). done.
Qed.

Lemma finishes_near D y days : on_the_way D y days → -1 <= days <= 365 → finishes 1 D y days.
Proof.
  intros Hw Hd. destruct (decide (days = -1)) as [->|Hn]; [by apply finishes_after_back|].
  destruct (decide (days < year_length y)); [by apply finishes_now; [|lia]|].
  destruct (year_length_cases y) as [[El El']|[El El']]; [lia|]. assert (days = 365) as -> by lia.
  destruct (next_days_near D y 365 Hw ltac:(lia)) as (_ & _ & _ & H0 & _).
  apply finishes_step; [done|]. apply finishes_now; [by apply on_the_way_next|]. rewrite H0 by done.
  destruct (year_length_cases (guess_year y 365)) as [[_ ->]|[_ ->]]; lia.
Qed.

(** [n] corrections bring a distance of [1400 * 1000 ^ n] days down to 1400. *)
Lemma finishes_far n D y days :
  on_the_way D y days → Z.abs days <= 1400 * 1000 ^ Z.of_nat n → finishes (n + 2) D y days.
Proof.
  revert y days. induction n as [|n IH]; intros y days Hw Hb.
  - apply finishes_step; [done|]. destruct (next_days_near D y days Hw ltac:(lia)) as (H1 & H2 & _).
    apply finishes_near; [by apply on_the_way_next|]. lia.
  - apply finishes_step; [done|]. apply IH; [by apply on_the_way_next|].
    pose proof (next_days_bound D y days _ Hw Hb) as Hn. rewrite Nat2Z.inj_succ, Z.pow_succ_r in * by lia.
    set (p := 1000 ^ Z.of_nat n) in *. assert (0 < p) by (apply Z.pow_pos_nonneg; lia).
    assert (1400 * (1000 * p) / 1460 <= 960 * p) by (apply Z.div_le_upper_bound; lia). lia.
Qed.

(** The loop ends for every day number a [long] can hold. *)
Lemma year_loop_ok D :
  0 <= D < 2 ^ 63 →
  ∃ y d, year_loop YEAR_FUEL OFFS_YEAR D = Some (y, d) ∧ D = d + year_start y ∧ 0 <= d < year_length y ∧
         1972 <= y <= 1972 + D / 365.
Proof.
  intros HD. destruct (finishes_far 6 D OFFS_YEAR D) as (y & d & E & (_ & Hy & Hy2 & Hd) & Hl).
  - split; [lia|]. unfold OFFS_YEAR. pose proof (Z.div_pos D 365 ltac:(lia) ltac:(lia)).
    split; [lia|]. split; [lia|]. change (year_start 1972) with 0. lia.
  - change (1400 * 1000 ^ Z.of_nat 6) with 1400000000000000000000. lia.
  - exists y, d. split; [done|]. split; [lia|]. split; [done|]. unfold OFFS_YEAR in Hy2. split; [|done].
    assert (y ≠ 1970 ∧ y ≠ 1971); [|lia].
    split; intros ->; [change (year_start 1970) with (-730) in *; change (year_length 1970) with 365 in *
                      |change (year_start 1971) with (-365) in *; change (year_length 1971) with 365 in *]; lia.
Qed.

Lemma find_month_spec ip days n :
  ip !!! 0%nat <= days → days < ip !!! S n →
  (find_month ip days n <= n)%nat ∧ ip !!! find_month ip days n <= days ∧ days < ip !!! S (find_month ip days n).
Proof.
  intros H0. induction n as [|n IH]; intros Hn; simpl; [done|].
  destruct (Z.ltb_spec days (ip !!! S n)); [|done]. destruct (IH H) as (? & ? & ?). split; [lia|done].
Qed.

Lemma mon_yday_find y d :
  0 <= d < year_length y →
  let ip := mon_yday (ISLEAP y) in let m := find_month ip d 11 in
  (m <= 11)%nat ∧ ip !!! m <= d < ip !!! S m.
Proof.
  intros Hd ip m. assert (ip !!! 0%nat = 0 ∧ ip !!! 12%nat = year_length y) as [H0 H12].
  { subst ip. by destruct (year_length_cases y) as [[-> ->]|[-> ->]]. }
  destruct (find_month_spec ip d 11) as (? & ? & ?); [lia|lia|done].
Qed.
(** ** Tables of leap seconds

    A proper table counts the leap seconds from one, and each is the last
    second of a day of UTC. *)
Fixpoint table_from (k prev : Z) (tab : list leap_t) : bool :=
  match tab with
  | [] => true
  | l :: tab' =>
      (change l =? k + 1) && (prev + 3 <=? transition l) && (transition l <? 2 ^ 62) &&
      ((transition l - OFFS_TAI - k) mod SECS_PER_DAY =? 0) && table_from (k + 1) (transition l) tab'
  end.
Definition table_ok (tab : list leap_t) : bool := table_from 0 OFFS_TAI tab.

Section table.
Context (tab : list leap_t) (Hok : table_ok tab = true).

Lemma table_start l k prev i x : table_from k prev l = true → l !! i = Some x → prev + 3 * (Z.of_nat i + 1) <= transition x.
Proof.
  revert k prev i. induction l as [|a l IH]; intros k prev i H Hi; [done|]. simpl in H.
  rewrite !andb_true_iff in H. destruct H as [[[[Hc Hp] Hm] Hd] Hl]. apply Z.leb_le in Hp.
  destruct i as [|i]; simpl in Hi; [injection Hi as ->; lia|]. specialize (IH _ _ _ Hl Hi). lia.
Qed.

Lemma table_from_lookup l k prev i x :
  table_from k prev l = true → l !! i = Some x →
  change x = k + Z.of_nat i + 1 ∧ prev + 3 * (Z.of_nat i + 1) <= transition x < 2 ^ 62 ∧
  (transition x - OFFS_TAI - (k + Z.of_nat i)) mod SECS_PER_DAY = 0 ∧
  ∀ j y, (i < j)%nat → l !! j = Some y → transition x + 3 * (Z.of_nat j - Z.of_nat i) <= transition y.
Proof.
  revert k prev i. induction l as [|a l IH]; intros k prev i H Hi; [done|]. simpl in H.
  rewrite !andb_true_iff in H. destruct H as [[[[Hc Hp] Hm] Hd] Hl].
  apply Z.eqb_eq in Hc, Hd. apply Z.leb_le in Hp. apply Z.ltb_lt in Hm.
  destruct i as [|i]; simpl in Hi.
  - injection Hi as ->. split; [lia|]. split; [lia|]. split; [by rewrite Z.add_0_r|].
    intros [|j] y Hj Hy; [lia|]. simpl in Hy.
    pose proof (table_start _ _ _ _ _ Hl Hy). lia.
  - destruct (IH _ _ _ Hl Hi) as (E & ? & Em & Hr). rewrite E, Nat2Z.inj_succ. split; [lia|]. split; [lia|].
    split; [by replace (k + Z.succ (Z.of_nat i)) with (k + 1 + Z.of_nat i) by lia|].
    intros [|j] y Hj Hy; [lia|]. specialize (Hr j y ltac:(lia) Hy). lia.
Qed.

Local Abbreviation T i := (transition (tab !!! i)).

Lemma table_at i :
  (i < length tab)%nat →
  change (tab !!! i) = Z.of_nat i + 1 ∧ OFFS_TAI + 3 * (Z.of_nat i + 1) <= T i < 2 ^ 62 ∧
  (T i - OFFS_TAI - Z.of_nat i) mod SECS_PER_DAY = 0.
Proof.
  intros Hi. destruct (lookup_lt_is_Some_2 tab i Hi) as [x Hx]. rewrite (list_lookup_total_correct _ _ _ Hx).
  by destruct (table_from_lookup tab 0 OFFS_TAI i x Hok Hx) as (? & ? & ? & _).
Qed.

Lemma table_gap i j : (i <= j < length tab)%nat → T i + 3 * (Z.of_nat j - Z.of_nat i) <= T j.
Proof.
  intros Hij. destruct (decide (i = j)) as [->|]; [lia|].
  destruct (lookup_lt_is_Some_2 tab i ltac:(lia)) as [x Hx]. destruct (lookup_lt_is_Some_2 tab j ltac:(lia)) as [y Hy].
  rewrite (list_lookup_total_correct _ _ _ Hx), (list_lookup_total_correct _ _ _ Hy).
  destruct (table_from_lookup tab 0 OFFS_TAI i x Hok Hx) as (_ & _ & _ & Hr). apply Hr; [lia|done].
Qed.

(** [n] leap seconds have begun at [t]; [during] tells whether [t] is one. *)
Definition begun (t : Z) (n : nat) : Prop :=
  (n <= length tab)%nat ∧ (∀ i, (i < n)%nat → T i <= t) ∧ (∀ i, (n <= i < length tab)%nat → t < T i).
Definition during (t : Z) (n : nat) : bool := match n with O => false | S i => t =? T i end.

Lemma begun_last t n : (1 <= n <= length tab)%nat → T (n - 1)%nat <= t → ∀ i, (i < n)%nat → T i <= t.
Proof. intros Hn Ht i Hi. pose proof (table_gap i (n - 1) ltac:(lia)). lia. Qed.

Lemma last_leap_begun t k :
  (k <= length tab)%nat → (∀ i, (k <= i < length tab)%nat → t < T i) →
  ∃ n, begun t n ∧ last_leap tab t k = match n with O => None | S i => Some i end.
Proof.
  induction k as [|k IH]; intros Hk Ha; simpl.
  - exists 0%nat. split; [|done]. split; [lia|]. split; [lia|done].
  - destruct (Z.ltb_spec t (T k)).
    + apply IH; [lia|]. intros i Hi. destruct (decide (i = k)) as [->|]; [done|]. apply Ha. lia.
    + exists (S k). split; [|done]. split; [done|]. split; [|done].
      apply begun_last; [lia|]. replace (S k - 1)%nat with k by lia. done.
Qed.

Lemma no_more_extra i : (i < length tab)%nat → more_extra tab i = 0.
Proof.
  intros Hi. destruct i as [|j]; [done|]. pose proof (table_gap j (S j) ltac:(lia)). simpl.
  rewrite (proj2 (Z.eqb_neq (T (S j)) (T j + 1))) by lia. done.
Qed.

Lemma leap_state_ok t : ∃ n, begun t n ∧ leap_state tab t = (Z.of_nat n, Z.b2z (during t n)).
Proof.
  destruct (last_leap_begun t (length tab)) as (n & Hn & E); [done|lia|]. exists n. split; [done|].
  unfold leap_state. rewrite E. destruct n as [|i]; [done|]. destruct Hn as [Hi _].
  destruct (table_at i ltac:(lia)) as (-> & _). rewrite no_more_extra by lia.
  assert (at_transition tab t i = (t =? T i)) as ->.
  { unfold at_transition. destruct (Z.eqb_spec t (T i)); [|done]. destruct (table_at i ltac:(lia)) as (Hc & _).
    destruct i as [|j]; simpl; [apply Z.ltb_lt; lia|].
    destruct (table_at j ltac:(lia)) as (Hc' & _). apply Z.ltb_lt. lia. }
  apply pair_eq. split; [lia|]. simpl. by destruct (t =? T i).
Qed.

(** *** Through the table in the other direction *)
Lemma correct_leaps_upto tai extra n i :
  (i <= n <= length tab)%nat → 0 <= extra →
  (∀ j, (i <= j < n)%nat → if 0 <? extra then T j < u64 (tai + Z.of_nat j - extra) else T j <= u64 (tai + Z.of_nat j)) →
  ((n < length tab)%nat → if 0 <? extra then u64 (tai + Z.of_nat n - extra) <= T n else u64 (tai + Z.of_nat n) < T n) →
  correct_leaps (drop i tab) tai extra (Z.of_nat i) = Z.of_nat n.
Proof.
  intros Hi He. remember (n - i)%nat as m eqn:Em. revert i Hi Em. induction m as [|m IH]; intros i Hi Em Hb Hn.
  - assert (i = n) as -> by lia. destruct (decide (n < length tab)%nat) as [Hl|Hl].
    + destruct (lookup_lt_is_Some_2 tab n Hl) as [x Hx]. rewrite (drop_S _ _ _ Hx). simpl. specialize (Hn Hl).
      rewrite (list_lookup_total_correct _ _ _ Hx) in Hn.
      destruct (Z.ltb_spec 0 extra); simpl.
      * rewrite (proj2 (Z.ltb_ge _ _)) by done. by rewrite (proj2 (Z.eqb_neq extra 0)) by lia.
      * rewrite (proj2 (Z.leb_gt _ _)) by done. by rewrite andb_false_r.
    + by rewrite drop_ge by lia.
  - destruct (lookup_lt_is_Some_2 tab i ltac:(lia)) as [x Hx]. rewrite (drop_S _ _ _ Hx). simpl.
    specialize (Hb i ltac:(lia)) as Hbi. destruct (table_at i ltac:(lia)) as (Hc & _).
    rewrite (list_lookup_total_correct _ _ _ Hx) in Hbi, Hc.
    replace (((0 <? extra) && _) || _) with true.
    + rewrite Hc. replace (Z.of_nat i + 1) with (Z.of_nat (S i)) by lia. apply IH; [lia..| |done].
      intros j Hj. apply Hb. lia.
    + symmetry. destruct (Z.ltb_spec 0 extra); simpl.
      * apply orb_true_iff. left. by apply Z.ltb_lt.
      * rewrite (proj2 (Z.eqb_eq extra 0)) by lia. by apply Z.leb_le.
Qed.

Lemma correct_leaps_all tai extra n :
  (n <= length tab)%nat → 0 <= extra →
  (∀ j, (j < n)%nat → if 0 <? extra then T j < u64 (tai + Z.of_nat j - extra) else T j <= u64 (tai + Z.of_nat j)) →
  ((n < length tab)%nat → if 0 <? extra then u64 (tai + Z.of_nat n - extra) <= T n else u64 (tai + Z.of_nat n) < T n) →
  correct_leaps tab tai extra 0 = Z.of_nat n.
Proof. intros Hn He Hb Hl. apply (correct_leaps_upto tai extra n 0); [lia|done| |done]. intros; apply Hb; lia. Qed.

Lemma correct_leaps_back t n :
  begun t n → OFFS_TAI <= t < 2 ^ 62 →
  let x := Z.b2z (during t n) in
  u64 (t - Z.of_nat n + x) + correct_leaps tab (u64 (t - Z.of_nat n + x)) x 0 = t.
Proof.
  intros (Hn & Hlt & Hge) Ht. cbv zeta.
  assert (Hsm : ∀ z, 0 <= z < 2 ^ 63 → u64 z = z) by (intros; apply wrap_small; lia).
  assert (Hnt : n = 0%nat ∨ OFFS_TAI + 3 * Z.of_nat n <= T (n - 1)%nat <= t).
  { destruct n as [|i]; [by left|right]. replace (S i - 1)%nat with i by lia.
    destruct (table_at i ltac:(lia)) as (_ & ? & _). specialize (Hlt i ltac:(lia)). lia. }
  assert (Hgap : ∀ j, (j < n)%nat → T j + 3 * (Z.of_nat (n - 1) - Z.of_nat j) <= T (n - 1)%nat)
    by (intros; apply table_gap; lia).
  assert (0 <= OFFS_TAI) by done.
  destruct (during t n) eqn:Ed; simpl.
  - destruct n as [|i]; [done|]. simpl in Ed. apply Z.eqb_eq in Ed. replace (S i - 1)%nat with i in * by lia.
    rewrite !Hsm by lia. replace (t - Z.of_nat (S i) + 1) with (t - Z.of_nat i) by lia.
    rewrite (correct_leaps_all (t - Z.of_nat i) 1 i); [lia|lia|lia| |].
    + intros j Hj. simpl. specialize (Hgap j ltac:(lia)). rewrite Hsm by lia. lia.
    + intros _. simpl. rewrite Hsm by lia. lia.
  - rewrite Z.add_0_r, !Hsm by lia. rewrite (correct_leaps_all (t - Z.of_nat n) 0 n); [lia|lia|lia| |].
    + intros j Hj. simpl. specialize (Hgap j ltac:(lia)). rewrite Hsm by lia.
      destruct n as [|i]; [lia|]. replace (S i - 1)%nat with i in * by lia. simpl in Ed. apply Z.eqb_neq in Ed. lia.
    + intros Hl. simpl. rewrite Hsm by lia. specialize (Hge n ltac:(lia)). lia.
Qed.

(** *** The conversion to UTC, in one formula *)
Lemma TAItoUTC_parts t n :
  let t1 := u64 (t + TAIatGPSzero) in
  let tt := t1 - OFFS_TAI - Z.of_nat n in
  begun t1 n → OFFS_TAI <= t1 < 2 ^ 46 →
  0 <= tt ∧
  ∃ y d, let ip := mon_yday (ISLEAP y) in let m := find_month ip d 11 in
    tt / SECS_PER_DAY = d + year_start y ∧ 0 <= d < year_length y ∧ 1972 <= y <= 1972 + 2 ^ 22 ∧
    TAItoUTC tab t =
      Some (mkUtc (tt mod 60 + Z.b2z (during t1 n)) (tt mod SECS_PER_HOUR / 60) (tt mod SECS_PER_DAY / SECS_PER_HOUR)
              (d - ip !!! m + 1) (Z.of_nat m) (y - 1900) ((OFFS_WDAY + tt / SECS_PER_DAY) mod 7) d).
Proof.
  intros t1 tt Hb Ht.
  assert (Htt : 0 <= tt).
  { subst tt. destruct Hb as (Hn & Hlt & _). destruct n as [|i]; [lia|].
    destruct (table_at i ltac:(lia)) as (_ & ? & _). specialize (Hlt i ltac:(lia)). lia. }
  split; [done|]. assert (0 <= tt < 2 ^ 46) as Htt2 by (subst tt; assert (0 <= OFFS_TAI) by done; lia).
  pose proof (Z.div_pos tt SECS_PER_DAY Htt ltac:(done)).
  assert (tt / SECS_PER_DAY <= 2 ^ 30) by (apply Z.div_le_upper_bound; [done|]; unfold SECS_PER_DAY, SECS_PER_HOUR; lia).
  destruct (year_loop_ok (tt / SECS_PER_DAY)) as (y & d & Ey & Ed & Hd & Hy); [lia|].
  assert (tt / SECS_PER_DAY / 365 <= 2 ^ 22) by (apply Z.div_le_upper_bound; lia).
  exists y, d. split; [done|]. split; [done|]. split; [lia|].
  unfold TAItoUTC. fold t1. rewrite (proj2 (Z.ltb_ge _ _)) by lia.
  destruct (leap_state_ok t1) as (n' & Hb' & E). rewrite E.
  assert (n' = n) as ->.
  { destruct Hb as (? & H2 & H3), Hb' as (? & H2' & H3'). destruct (Nat.lt_trichotomy n n') as [Hlt|[->|Hlt]]; [|done|].
    - specialize (H3 n ltac:(lia)). specialize (H2' n ltac:(lia)). lia.
    - specialize (H3' n' ltac:(lia)). specialize (H2 n' ltac:(lia)). lia. }
  rewrite swrap_small by (fold tt; lia). fold tt. unfold split_days.
  rewrite Z.quot_div_nonneg, Z.rem_mod_nonneg by (done || lia).
  pose proof (Z.mod_pos_bound tt SECS_PER_DAY ltac:(done)). rewrite (proj2 (Z.ltb_ge _ _)) by lia.
  cbn -[year_loop mon_yday find_month Z.add Z.sub Z.div Z.modulo SECS_PER_DAY SECS_PER_HOUR]. rewrite Ey.
  cbn -[mon_yday find_month Z.add Z.sub Z.div Z.modulo SECS_PER_DAY SECS_PER_HOUR].
  destruct (mon_yday_find y d Hd) as (Hm & Hlo & Hhi).
  set (ip := mon_yday (ISLEAP y)) in *. set (m := find_month ip d 11) in *.
  assert (0 <= ip !!! m) by (subst ip; clear -Hm; do 12 (destruct m as [|m]; [by destruct (ISLEAP y)|]); lia).
  assert (d <= 366) by (destruct (year_length_cases y) as [[_ E']|[_ E']]; lia).
  rewrite !swrap_small by lia. unfold OFFS_WDAY.
  pose proof (Z.mod_pos_bound (6 + tt / SECS_PER_DAY) 7 ltac:(lia)).
  rewrite (Z.rem_mod_nonneg (tt mod SECS_PER_DAY) SECS_PER_HOUR) by (done || lia).
  pose proof (Z.mod_pos_bound (tt mod SECS_PER_DAY) SECS_PER_HOUR ltac:(done)).
  rewrite !Z.rem_mod_nonneg, !Z.quot_div_nonneg by (done || lia).
  rewrite (proj2 (Z.ltb_ge _ _)) by lia.
  assert (∀ a b, 0 < a → 0 < b → (tt mod (a * b)) mod a = tt mod a) as Hmm.
  { intros a b _ _. apply Z.mod_mod_divide, Z.divide_factor_l. }
  unfold SECS_PER_DAY. rewrite (Hmm SECS_PER_HOUR 24) by done. unfold SECS_PER_HOUR at 1. by rewrite (Hmm 60 60).
Qed.

End table.

(** A broken down time of the calendar. *)
Definition valid_utc (u : utc_t) : Prop :=
  let y := tm_year u + 1900 in
  let ip := mon_yday (ISLEAP y) in
  let m := Z.to_nat (tm_mon u) in
  0 <= tm_sec u <= 60 ∧ 0 <= tm_min u < 60 ∧ 0 <= tm_hour u < 24 ∧ 0 <= tm_mon u < 12 ∧
  1 <= tm_mday u <= ip !!! S m - ip !!! m ∧ tm_yday u = ip !!! m + tm_mday u - 1 ∧ 0 <= tm_yday u < year_length y ∧
  tm_wday u = (OFFS_WDAY + year_start y + tm_yday u) mod 7 ∧
  (tm_sec u = 60 → tm_min u = 59 ∧ tm_hour u = 23).

(** In a leap second the day of UTC has run to its last second. *)
Lemma during_day_end tab t n :
  table_ok tab = true → begun tab t n → during tab t n = true →
  (t - OFFS_TAI - Z.of_nat n) mod SECS_PER_DAY = SECS_PER_DAY - 1.
Proof.
  intros Hok Hb Hd. destruct n as [|i]; [done|]. destruct Hb as [Hi _]. apply Z.eqb_eq in Hd as ->.
  destruct (table_at tab Hok i ltac:(lia)) as (_ & _ & Hz). set (x := transition (tab !!! i) - OFFS_TAI) in *.
  pose proof (Z.div_mod (x - Z.of_nat i) SECS_PER_DAY ltac:(done)) as E. rewrite Hz in E.
  symmetry. apply Z.mod_unique_pos with ((x - Z.of_nat i) / SECS_PER_DAY - 1); unfold SECS_PER_DAY, SECS_PER_HOUR in *; lia.
Qed.

Lemma during_iff tab t n :
  table_ok tab = true → begun tab t n → during tab t n = true ↔ ∃ l, l ∈ tab ∧ transition l = t.
Proof.
  intros Hok Hb. pose proof Hb as (Hn & Hlt & Hge). split.
  - intros Hd. destruct n as [|i]; [done|]. apply Z.eqb_eq in Hd. exists (tab !!! i). split; [|done].
    by apply list_elem_of_lookup_total_2.
  - intros (l & Hl & E). apply list_elem_of_lookup_1 in Hl as [j Hj].
    pose proof (lookup_lt_Some _ _ _ Hj). apply list_lookup_total_correct in Hj. subst l.
    destruct (decide (n <= j)%nat); [specialize (Hge j ltac:(lia)); lia|].
    destruct n as [|i]; [lia|]. apply Z.eqb_eq. specialize (Hlt i ltac:(lia)).
    pose proof (table_gap tab Hok j i ltac:(lia)). assert (j = i) as -> by lia. done.
Qed.

Lemma day_end_fields tt :
  tt mod SECS_PER_DAY = SECS_PER_DAY - 1 →
  tt mod 60 = 59 ∧ tt mod SECS_PER_HOUR / 60 = 59 ∧ tt mod SECS_PER_DAY / SECS_PER_HOUR = 23.
Proof. unfold SECS_PER_DAY, SECS_PER_HOUR. intros. Z.to_euclidean_division_equations. lia. Qed.

(** Every time from 1972 on, for two million years, is converted to a
    proper date and time of day: the day exists in its month, the day of the
    week is right, and the second is 60 exactly in a leap second of the table,
    at the end of a day. *)
Theorem TAItoUTC_valid tab t :
  table_ok tab = true → OFFS_TAI <= u64 (t + TAIatGPSzero) < 2 ^ 46 →
  ∃ u, TAItoUTC tab t = Some u ∧ valid_utc u ∧
       (tm_sec u = 60 ↔ ∃ l, l ∈ tab ∧ transition l = u64 (t + TAIatGPSzero)).
Proof.
  intros Hok Ht. destruct (leap_state_ok tab Hok (u64 (t + TAIatGPSzero))) as (n & Hb & _).
  destruct (TAItoUTC_parts tab Hok t n Hb Ht) as (Htt & y & d & Ed & Hd & Hy & E).
  pose proof (during_iff tab _ n Hok Hb) as Hdi. pose proof (during_day_end tab _ n Hok Hb) as Hde.
  set (t1 := u64 (t + TAIatGPSzero)) in *. set (tt := t1 - OFFS_TAI - Z.of_nat n) in *.
  destruct (mon_yday_find y d Hd) as (Hm & Hlo & Hhi). set (m := find_month (mon_yday (ISLEAP y)) d 11) in *.
  pose proof (Z.mod_pos_bound tt 60 ltac:(done)). pose proof (Z.mod_pos_bound tt SECS_PER_HOUR ltac:(done)).
  pose proof (Z.mod_pos_bound tt SECS_PER_DAY ltac:(done)).
  pose proof (Z.div_pos (tt mod SECS_PER_HOUR) 60 ltac:(lia) ltac:(done)).
  pose proof (Z.div_pos (tt mod SECS_PER_DAY) SECS_PER_HOUR ltac:(lia) ltac:(done)).
  assert (tt mod SECS_PER_HOUR / 60 < 60) by (apply Z.div_lt_upper_bound; [done|]; unfold SECS_PER_HOUR in *; lia).
  assert (tt mod SECS_PER_DAY / SECS_PER_HOUR < 24).
  { apply Z.div_lt_upper_bound; [done|]. unfold SECS_PER_DAY, SECS_PER_HOUR in *. lia. }
  assert (Hday : during tab t1 n = true → tt mod 60 = 59 ∧ tt mod SECS_PER_HOUR / 60 = 59 ∧ tt mod SECS_PER_DAY / SECS_PER_HOUR = 23)
    by (intros; apply day_end_fields; auto).
  eexists. split; [exact E|]. rewrite <- Hdi. unfold valid_utc. cbn [tm_sec tm_min tm_hour tm_mday tm_mon tm_year tm_wday tm_yday].
  rewrite Nat2Z.id. replace (y - 1900 + 1900) with y by lia. rewrite Ed.
  destruct (during tab t1 n); simpl Z.b2z; split_and!; try lia; [f_equal; lia|f_equal; lia|..]; intuition lia.
Qed.

Lemma TAItoUTC_valid_witness :
  TAItoUTC leaps 1167264017 = Some (mkUtc 60 59 23 31 11 116 6 365) ∧
  ∃ u, TAItoUTC leaps 1167264017 = Some u ∧ valid_utc u ∧
       (tm_sec u = 60 ↔ ∃ l, l ∈ leaps ∧ transition l = u64 (1167264017 + TAIatGPSzero)).
Proof. split; [by vm_compute|]. apply (TAItoUTC_valid leaps 1167264017); [by vm_compute|by vm_compute]. Defined.

(** C15: Converted to UTC and back, a time is the same again, for any proper
    table of leap seconds and in the leap seconds too. *)
Theorem utc_roundtrip tab t :
  table_ok tab = true → 0 <= t < 2 ^ 64 → OFFS_TAI <= u64 (t + TAIatGPSzero) < 2 ^ 46 →
  ∃ u, TAItoUTC tab t = Some u ∧ UTCtoTAI tab u = t.
Proof.
  intros Hok Ht0 Ht. destruct (leap_state_ok tab Hok (u64 (t + TAIatGPSzero))) as (n & Hb & _).
  destruct (TAItoUTC_parts tab Hok t n Hb Ht) as (Htt & y & d & Ed & Hd & Hy & E).
  pose proof (during_day_end tab _ n Hok Hb) as Hde. pose proof (correct_leaps_back tab Hok _ n Hb ltac:(lia)) as Hc.
  assert (Hback : u64 (u64 (t + TAIatGPSzero) - TAIatGPSzero) = t).
  { rewrite <- (wrap_small 64 t) at 2 by done. unfold wrap. rewrite Zminus_mod_idemp_l. f_equal. lia. }
  set (t1 := u64 (t + TAIatGPSzero)) in *. set (tt := t1 - OFFS_TAI - Z.of_nat n) in *.
  destruct (mon_yday_find y d Hd) as (Hm & Hlo & Hhi). set (m := find_month (mon_yday (ISLEAP y)) d 11) in *.
  eexists. split; [exact E|]. unfold UTCtoTAI. cbn [tm_sec tm_min tm_hour tm_mday tm_mon tm_year tm_wday tm_yday].
  rewrite (Z.rem_small (Z.of_nat m)), (Z.quot_small (Z.of_nat m)) by lia.
  rewrite (proj2 (Z.ltb_ge _ _)) by lia. rewrite Nat2Z.id.
  replace (y - 1900 + 0 + 1900) with y by lia. rewrite (swrap_small 32 y) by lia.
  replace (mon_yday (ISLEAP y) !!! m + (d - mon_yday (ISLEAP y) !!! m + 1) - 1) with d by lia.
  assert (d <= 366) by (destruct (year_length_cases y) as [[_ E']|[_ E']]; lia).
  rewrite (swrap_small 32 d) by lia.
  replace (d + 365 * (y - OFFS_YEAR) + LEAPS_THRU_END_OF (y - 1) - LEAPS_THRU_END_OF (OFFS_YEAR - 1))
    with (tt / SECS_PER_DAY) by (rewrite Ed; unfold year_start, leap_days; lia).
  pose proof (Z.div_pos tt SECS_PER_DAY Htt ltac:(done)).
  assert (tt / SECS_PER_DAY <= 2 ^ 30).
  { apply Z.div_le_upper_bound; [done|]. assert (0 <= OFFS_TAI) by done. unfold SECS_PER_DAY, SECS_PER_HOUR. lia. }
  rewrite (swrap_small 32) by lia. rewrite (proj2 (Z.ltb_ge _ _)) by lia.
  pose proof (Z.mod_pos_bound tt 60 ltac:(done)).
  assert (Hex : (if 59 <? tt mod 60 + Z.b2z (during tab t1 n) then tt mod 60 + Z.b2z (during tab t1 n) - 59 else 0)
                = Z.b2z (during tab t1 n)).
  { destruct (during tab t1 n); simpl.
    - destruct (day_end_fields tt (Hde eq_refl)) as (-> & _). done.
    - rewrite Z.add_0_r. by rewrite (proj2 (Z.ltb_ge _ _)) by lia. }
  rewrite Hex. set (x := Z.b2z (during tab t1 n)) in *.
  assert (Esum : tt / SECS_PER_DAY * SECS_PER_DAY + OFFS_TAI + tt mod SECS_PER_DAY / SECS_PER_HOUR * SECS_PER_HOUR +
                 tt mod SECS_PER_HOUR / 60 * 60 + (tt mod 60 + x) = t1 - Z.of_nat n + x).
  { subst tt. set (z := t1 - OFFS_TAI - Z.of_nat n) in *. unfold SECS_PER_DAY, SECS_PER_HOUR.
    assert (E1 : (z mod 86400) mod 3600 = z mod 3600) by (apply Z.mod_mod_divide; by exists 24).
    assert (E2 : (z mod 3600) mod 60 = z mod 60) by (apply Z.mod_mod_divide; by exists 60).
    pose proof (Z.div_mod z 86400 ltac:(done)). pose proof (Z.div_mod (z mod 86400) 3600 ltac:(done)).
    pose proof (Z.div_mod (z mod 3600) 60 ltac:(done)). change (60 * 60 * 24) with 86400. change (60 * 60) with 3600. lia. }
  rewrite Esum, Hc. exact Hback.
Qed.

Lemma utc_roundtrip_witness :
  TAItoUTC leaps 1167264017 = Some (mkUtc 60 59 23 31 11 116 6 365) ∧
  ∃ u, TAItoUTC leaps 1167264017 = Some u ∧ UTCtoTAI leaps u = 1167264017.
Proof. split; [by vm_compute|]. apply (utc_roundtrip leaps 1167264017); [by vm_compute|lia|by vm_compute]. Defined.

(** ** Portable times *)
Lemma byte_of_div k x : 0 <= k → byte_of k x = x / 2 ^ (8 * k) mod 2 ^ 8.
Proof. intros. unfold byte_of. change 0xFF with (Z.ones 8). by rewrite Z.land_ones, Z.shiftr_div_pow2 by lia. Qed.

Lemma byte_of_bounds k x : 0 <= k → 0 <= byte_of k x < 256.
Proof. intros. rewrite byte_of_div by done. apply Z.mod_pos_bound. lia. Qed.

Lemma bytes_of_sum a b c d :
  0 <= a < 256 → 0 <= b < 256 → 0 <= c < 256 → 0 <= d < 256 →
  let x := 2 ^ 24 * a + 2 ^ 16 * b + 2 ^ 8 * c + d in
  byte_of 0 x = d ∧ byte_of 1 x = c ∧ byte_of 2 x = b ∧ byte_of 3 x = a.
Proof.
  intros Ha Hb Hc Hd x.
  assert (Hb' : ∀ k q r, 0 <= k → x = 2 ^ (8 * k) * q + r → 0 <= r < 2 ^ (8 * k) → byte_of k x = q mod 256).
  { intros k q r Hk Ex Hr. rewrite byte_of_div by done. change (2 ^ 8) with 256. f_equal. symmetry. by apply Z.div_unique_pos with r. }
  assert (Hm : ∀ q r, 0 <= r < 256 → (256 * q + r) mod 256 = r).
  { intros q r Hr. symmetry. by apply Z.mod_unique_pos with q. }
  rewrite (Hb' 0 (256 * (2 ^ 16 * a + 2 ^ 8 * b + c) + d) 0), (Hb' 1 (256 * (2 ^ 8 * a + b) + c) d),
    (Hb' 2 (256 * a + b) (2 ^ 8 * c + d)), (Hb' 3 (256 * 0 + a) (2 ^ 16 * b + 2 ^ 8 * c + d)), !Hm by (lia || (subst x; lia)).
  done.
Qed.

(** The four bytes of a 32-bit word make the word. *)
Lemma bytes_make_word x :
  0 <= x < 2 ^ 32 → 2 ^ 24 * byte_of 3 x + 2 ^ 16 * byte_of 2 x + 2 ^ 8 * byte_of 1 x + byte_of 0 x = x.
Proof.
  intros Hx. rewrite !byte_of_div by lia. change (2 ^ (8 * 0)) with 1. rewrite Z.div_1_r.
  change (2 ^ (8 * 3)) with (256 * 256 * 256). change (2 ^ (8 * 2)) with (256 * 256). change (2 ^ (8 * 1)) with 256.
  rewrite <- !Z.div_div by lia. change (2 ^ 8) with 256.
  pose proof (Z.div_mod x 256 ltac:(done)). pose proof (Z.div_mod (x / 256) 256 ltac:(done)).
  pose proof (Z.div_mod (x / 256 / 256) 256 ltac:(done)).
  rewrite (Z.mod_small (x / 256 / 256 / 256)); [lia|].
  rewrite !Z.div_div by lia. split; [by apply Z.div_pos; lia|apply Z.div_lt_upper_bound; lia].
Qed.

Lemma htonl_twice x : 0 <= x < 2 ^ 32 → htonl (htonl x) = x.
Proof.
  intros Hx. pose proof (byte_of_bounds 0 x ltac:(lia)). pose proof (byte_of_bounds 1 x ltac:(lia)).
  pose proof (byte_of_bounds 2 x ltac:(lia)). pose proof (byte_of_bounds 3 x ltac:(lia)).
  unfold htonl at 1. destruct (bytes_of_sum (byte_of 0 x) (byte_of 1 x) (byte_of 2 x) (byte_of 3 x)) as (E0 & E1 & E2 & E3);
    [done..|]. fold (htonl x) in *. rewrite E0, E1, E2, E3. by apply bytes_make_word.
Qed.

Lemma htonl_bounds x : 0 <= htonl x < 2 ^ 32.
Proof.
  pose proof (byte_of_bounds 0 x ltac:(lia)). pose proof (byte_of_bounds 1 x ltac:(lia)).
  pose proof (byte_of_bounds 2 x ltac:(lia)). pose proof (byte_of_bounds 3 x ltac:(lia)). unfold htonl. lia.
Qed.

Lemma bytes_word_bytes x : 0 <= x < 2 ^ 32 → bytes_word (word_bytes x) = x.
Proof.
  intros Hx. unfold word_bytes. rewrite wrap_small by lia. unfold bytes_word. cbn -[byte_of Z.add Z.mul].
  pose proof (bytes_make_word x Hx) as Ex.
  assert (∀ k, 4 <= k → byte_of k x = 0) as Hz.
  { intros k Hk. rewrite byte_of_div by lia. rewrite Z.div_small; [done|].
    assert (2 ^ 32 <= 2 ^ (8 * k)) by (apply Z.pow_le_mono_r; lia). lia. }
  rewrite (Hz (Z.of_nat 4)), (Hz (Z.of_nat 5)), (Hz (Z.of_nat 6)), (Hz (Z.of_nat 7)) by lia.
  change (Z.of_nat 0) with 0. change (Z.of_nat 1) with 1. change (Z.of_nat 2) with 2. change (Z.of_nat 3) with 3. lia.
Qed.

Lemma two_words x y :
  take 8 (word_bytes x ++ word_bytes y) = word_bytes x ∧ take 8 (drop 8 (word_bytes x ++ word_bytes y)) = word_bytes y.
Proof. done. Qed.

Lemma TAIsec_parts t : 0 <= t < 2 ^ 63 → (TAIsec t).2 = mkTai (t / _ONESEC) (t mod _ONESEC).
Proof.
  intros Ht. unfold TAIsec. simpl. rewrite Z.quot_div_nonneg, Z.rem_mod_nonneg by (done || lia).
  pose proof (Z.mod_pos_bound t _ONESEC ltac:(done)). pose proof (Z.div_pos t _ONESEC ltac:(lia) ltac:(done)).
  assert (t / _ONESEC <= t) by (apply Z.div_le_upper_bound; [done|]; unfold _ONESEC; lia). unfold _ONESEC in *.
  rewrite !(wrap_small 64), swrap_small by lia. done.
Qed.

(** The portable form of a time before the year 2116 is read back as the
    same time, to the nanosecond; it takes 16 bytes. *)
Theorem portable_roundtrip t buf :
  0 <= t < 2 ^ 32 * _ONESEC → htonTAI t = Some buf → ntohTAI buf = t ∧ length buf = 16%nat.
Proof.
  intros Ht. unfold htonTAI. pose proof (TAIsec_parts t) as Hp. destruct (TAIsec t) as [s p]. simpl in Hp.
  rewrite Hp by (unfold _ONESEC in *; lia). destruct (s =? 0); [done|]. intros <-%(inj Some). split; [|done].
  cbn [tai nsec]. unfold ntohTAI. destruct (two_words (htonl (t / _ONESEC)) (htonl (t mod _ONESEC))) as [-> ->].
  rewrite !bytes_word_bytes by apply htonl_bounds.
  pose proof (Z.mod_pos_bound t _ONESEC ltac:(done)). pose proof (Z.div_pos t _ONESEC ltac:(lia) ltac:(done)).
  assert (t / _ONESEC < 2 ^ 32) by (apply Z.div_lt_upper_bound; [done|lia]).
  rewrite !htonl_twice by (unfold _ONESEC in *; lia). unfold TAInsec. simpl.
  rewrite (swrap_small 64 (t / _ONESEC)) by lia. rewrite <- Z.div_mod by done.
  apply swrap_small; unfold _ONESEC in *; lia.
Qed.

Lemma portable_roundtrip_witness :
  htonTAI 1234567890123456789 = Some [73; 150; 2; 210; 0; 0; 0; 0; 7; 91; 205; 21; 0; 0; 0; 0] ∧
  ntohTAI [73; 150; 2; 210; 0; 0; 0; 0; 7; 91; 205; 21; 0; 0; 0; 0] = 1234567890123456789 ∧
  length [73; 150; 2; 210; 0; 0; 0; 0; 7; 91; 205; 21; 0; 0; 0; 0] = 16%nat.
Proof. split; [by vm_compute|]. apply portable_roundtrip; [unfold _ONESEC; lia|by vm_compute]. Defined.

(** ** The next leap second *)

(** The search for the next leap second never gets past a leap second from
    before the start of GPS time: its place on the GPS scale is negative, and
    compared as an unsigned number it is later than every time.  With the
    table of the program the answer is always the leap second of July 1972. *)
Theorem next_leap_is_first l tab t :
  0 <= transition l < TAIatGPSzero → 0 <= t < 2 ^ 63 →
  getNextLeap (l :: tab) t = Some (mkLeap (2 ^ 64 + transition l - TAIatGPSzero) (change l + OFFS_LEAP)).
Proof.
  intros Hl Ht. assert (E : u64 (transition l - TAIatGPSzero) = 2 ^ 64 + transition l - TAIatGPSzero).
  { unfold wrap. symmetry. apply Z.mod_unique_pos with (-1); unfold TAIatGPSzero in *; lia. }
  unfold getNextLeap. simpl. unfold gps_of_leap. rewrite swrap_small by (unfold TAIatGPSzero in *; lia).
  rewrite (proj2 (Z.leb_gt _ _)); [by rewrite E|]. rewrite E. unfold TAIatGPSzero in *. lia.
Qed.

Lemma next_leap_is_first_witness :
  getNextLeap leaps 1000000000 = Some (mkLeap 18446744073472383607 11) ∧
  TAItoUTC leaps 1000000000 = Some (mkUtc 25 46 1 14 8 111 3 256).
Proof.
  split; [|by vm_compute].
  apply (next_leap_is_first (mkLeap (OFFS_TAI + 182 * SECS_PER_DAY) 1) (tail leaps) 1000000000); by vm_compute.
Defined.

End Tconv.
