(* ===== verification/Ramp.v ===== *)
(** * Parameter ramps ([src/include/drv/tRamp.c], [inputFilterModule*.h])

    - [RampParamInit], [RampParamLoad], [RampParamUpdate]: the soft-landing
      ramp that moves filter offsets and gains to a requested value.
    - [inputFilterModuleRamp], [inputFilterModule] and the [...1] variants:
      the linear ramp and the single pole / single zero filter it feeds. *)
From Stdlib Require Import Reals Lra.
From S2P Require Import Prelude CFloat.

Module Ramp.
Section defs.
Context {F : Type} `{FloatOps F}.

(** [struct RampParamState]; the [int isRamping] only ever holds 0 or 1. *)
Record RampParamState := mkRamp {
  isRamping : bool;
  val : F;
  dxPrev : F;
  req : F;
  dxMax : F;
  ddxMax : F;
  softRatio : F;
  softVel : F;
  minAccCycles : F
}.

Definition RampParamGetVal (s : RampParamState) : F := val s.
Definition RampParamGetIsRamping (s : RampParamState) : bool := isRamping s.

Definition RampParamInit (xInit : F) (fe_rate : Z) : RampParamState := {|
  isRamping := false;
  val := xInit;
  dxPrev := flit 0 0;
  req := xInit;
  dxMax := flit 0 0;
  ddxMax := flit 0 0;
  softRatio := flit 4 0;
  softVel := flit 136 (-2);
  minAccCycles := flit 5 (-2) ⊗ fofZ fe_rate
|}.

Definition RampParamLoad (s : RampParamState) (r tRamp : F) (fe_rate : Z) : RampParamState :=
  if tRamp ≤ᶠ f0 then
    mkRamp false r f0 r f0 f0 (softRatio s) (softVel s) (minAccCycles s)
  else if isRamping s || (r ≠ᶠ val s) then
    let inv_nRamp := f1 ⊘ (fofZ fe_rate ⊗ tRamp) in
    let dxm := softVel s ⊗ fabs (r ⊖ val s) ⊗ inv_nRamp in
    let ddxm := softRatio s ⊗ dxm ⊗ inv_nRamp in
    let ddxm := if isRamping s then fabs (dxm ⊕ dxPrev s) ⊘ minAccCycles s else ddxm in
    mkRamp true (val s) (dxPrev s) r dxm ddxm (softRatio s) (softVel s) (minAccCycles s)
  else s.

(** The limits [RampParamUpdate] applies in turn to the step [dxNow]. *)
Definition slew_limit (dxReq dxm : F) : F :=
  if dxReq >ᶠ dxm then dxm
  else if dxReq <ᶠ fneg dxm then fneg dxm
  else dxReq.

Definition accel_limit (dxNow dxp ddxm : F) : F :=
  let ddxNow := dxNow ⊖ dxp in
  if ddxNow >ᶠ ddxm then dxp ⊕ ddxm
  else if ddxNow <ᶠ fneg ddxm then dxp ⊖ ddxm
  else dxNow.

Definition soft_landing (dxNow dxReq ddxm : F) : F :=
  let dxNowAbs := fabs dxNow in
  if (dxNowAbs >ᶠ ddxm) && (dxNow ⊗ dxReq >ᶠ f0) then
    let nStop := dxNowAbs ⊘ ddxm in
    let dxStop := dxNow ⊗ (flit 15 (-1) ⊕ flit 5 (-1) ⊗ nStop) in
    let dxLand := dxNow ⊕ (dxReq ⊖ dxStop) ⊘ (flit 15 (-1) ⊕ nStop) in
    if fabs dxLand <ᶠ dxNowAbs then dxLand else dxNow
  else dxNow.

Definition min_change (dxNow dxReq v : F) : F :=
  let minchange := fabs v ⊗ flit 11103 (-20) in
  if dxNow ≠ᶠ f0 then
    if minchange >ᶠ fabs dxReq then dxReq
    else if minchange >ᶠ fabs dxNow then
      (if dxNow >ᶠ f0 then minchange else fneg minchange)
    else dxNow
  else dxNow.

Definition step_size (s : RampParamState) : F :=
  let dxReq := req s ⊖ val s in
  min_change
    (soft_landing (accel_limit (slew_limit dxReq (dxMax s)) (dxPrev s) (ddxMax s))
                  dxReq (ddxMax s))
    dxReq (val s).

(** Returns the new value and the new state. *)
Definition RampParamUpdate (s : RampParamState) : F * RampParamState :=
  if negb (isRamping s) then (val s, s)
  else
    let dxReq := req s ⊖ val s in
    let dxNow := step_size s in
    let isR := negb ((dxNow =ᶠ f0) && (dxPrev s =ᶠ f0)) in
    let '(v, dxNow) :=
      if fabs dxNow ≥ᶠ fabs dxReq then (req s, dxReq) else (val s ⊕ dxNow, dxNow) in
    (v, mkRamp isR v dxNow (req s) (dxMax s) (ddxMax s)
               (softRatio s) (softVel s) (minAccCycles s)).

(** The state after [n] cycles. *)
Definition ramp_run (n : nat) (s : RampParamState) : RampParamState :=
  Nat.iter n (λ s, snd (RampParamUpdate s)) s.

(** *** The linear ramp of the single pole / single zero module *)
Section input_filter.
Variable CYCLE_PER_SECOND : Z.

(** [inputFilterModuleRamp(v, nv, tramp, step)] returns the result and the
    updated [*v] and [*step] (an [unsigned long]). *)
Definition inputFilterModuleRamp (v nv tramp : F) (step : Z) : F * (F * Z) :=
  if truthy step then
    if tramp =ᶠ f0 then (nv, (nv, 0))
    else
      let step := u64 (step - 1) in
      let v := if negb (truthy step) then nv else v in
      (nv ⊖ ((nv ⊖ v) ⊘ (fofZ CYCLE_PER_SECOND ⊗ tramp)) ⊗ fofZ (u64 (1 + step)), (v, step))
  else if v ≠ᶠ nv then
    if tramp ≤ᶠ f0 then (nv, (nv, step))
    else (v, (v, u64 (f_to_sint 64 (fofZ CYCLE_PER_SECOND ⊗ tramp))))
  else (v, (v, step)).

Definition M_PI : F := flit 314159265358979323846 (-20).

Record InputFilterState := mkIF {
  old_out : F; old_val : F;
  pk : F; pp : F; pz : F;
  ks : Z; ps : Z; zs : Z
}.

Definition inputFilterModule (st : InputFilterState) (inp offset : F)
    (epics_k epics_p epics_z k_tramp p_tramp z_tramp : F) : InputFilterState :=
  let '(rp, (pp', ps')) := inputFilterModuleRamp (pp st) epics_p p_tramp (ps st) in
  let p := rp ⊗ (M_PI ⊘ fofZ CYCLE_PER_SECOND) in
  let a := (f1 ⊖ p) ⊘ (f1 ⊕ p) in
  let '(rz, (pz', zs')) := inputFilterModuleRamp (pz st) epics_z z_tramp (zs st) in
  let z := rz ⊗ (M_PI ⊘ fofZ CYCLE_PER_SECOND) in
  let b := (f1 ⊖ z) ⊘ (f1 ⊕ z) in
  let '(rk, (pk', ks')) := inputFilterModuleRamp (pk st) epics_k k_tramp (ks st) in
  let newval := rk ⊗ (inp ⊕ offset) in
  let out := newval ⊖ b ⊗ old_val st ⊕ a ⊗ old_out st in
  mkIF out newval pk' pp' pz' ks' ps' zs'.

(** The variant gated by the operator's "ramp go" flag. *)
Definition inputFilterModuleRamp1 (v nv tramp : F) (step : Z) (doramp : Z) : F * (F * Z) :=
  if truthy doramp then inputFilterModuleRamp v nv tramp step else (v, (v, step)).

Definition inputFilterModule1 (st : InputFilterState) (inp offset : F)
    (epics_k epics_p epics_z tramp : F) (doramp : Z) : InputFilterState * Z :=
  let '(rp, (pp', ps')) := inputFilterModuleRamp1 (pp st) epics_p tramp (ps st) doramp in
  let p := rp ⊗ (M_PI ⊘ fofZ CYCLE_PER_SECOND) in
  let a := (f1 ⊖ p) ⊘ (f1 ⊕ p) in
  let '(rz, (pz', zs')) := inputFilterModuleRamp1 (pz st) epics_z tramp (zs st) doramp in
  let z := rz ⊗ (M_PI ⊘ fofZ CYCLE_PER_SECOND) in
  let b := (f1 ⊖ z) ⊘ (f1 ⊕ z) in
  let '(rk, (pk', ks')) := inputFilterModuleRamp1 (pk st) epics_k tramp (ks st) doramp in
  let newval := rk ⊗ (inp ⊕ offset) in
  let out := newval ⊖ b ⊗ old_val st ⊕ a ⊗ old_out st in
  let doramp :=
    if truthy doramp && negb (truthy ks') && negb (truthy ps') && negb (truthy zs')
    then 0 else doramp in
  (mkIF out newval pk' pp' pz' ks' ps' zs', doramp).
End input_filter.
End defs.
Arguments RampParamState : clear implicits.
Arguments InputFilterState : clear implicits.

(** ** Exact arithmetic: the soft landing *)
Section exact.
Local Open Scope R_scope.

(** Towards the target: limits positive and no velocity away from it. *)
Definition approaching (s : RampParamState R) : Prop :=
  isRamping s = true ∧ 0 < dxMax s ∧ 0 < ddxMax s ∧ 0 <= dxPrev s * (req s - val s).

Definition idle (s : RampParamState R) : Prop :=
  isRamping s = false ∧ req s = val s ∧ dxPrev s = 0 ∧ 0 < softVel s ∧ 0 < softRatio s.

(** The least progress of a cycle that does not land. *)
Definition min_step (s : RampParamState R) : R := Rmin (dxMax s) (ddxMax s / 5).

Lemma slew_limit_pos (q m : R) : 0 < q → 0 < m → slew_limit q m = Rmin q m.
Proof.
  intros. unfold slew_limit. rops. unfold Rmin. repeat rcase; lra.
Qed.

Lemma accel_limit_pos (d p a : R) : 0 < d → 0 <= p → 0 < a → Rmin d a <= accel_limit d p a.
Proof.
  intros. unfold accel_limit. rops. unfold Rmin. repeat rcase; lra.
Qed.

Lemma soft_landing_pos (x q a : R) :
  0 < x → 0 < q → 0 < a → Rmin x (a / 5) <= soft_landing x q a.
Proof.
  intros Hx Hq Ha. unfold soft_landing. rops. rewrite (Rabs_pos_eq x) by lra.
  assert (Hmin : Rmin x (a / 5) <= x) by apply Rmin_l.
  destruct (Rlt_dec a x) as [Hax|]; [|cbn [andb]; lra].
  destruct (Rlt_dec 0 (x * q)); [|cbn [andb]; lra]. simpl andb; cbv iota.
  set (n := x / a). assert (Hx' : x = n * a) by (unfold n; field; lra).
  assert (Hn : 1 < n) by nra.
  assert (Hland : x + (q - x * (15 * powerRZ 10 (-1) + 5 * powerRZ 10 (-1) * n))
                       / (15 * powerRZ 10 (-1) + n) = (n / 2 * x + q) / (3 / 2 + n)).
  { rewrite powerRZ_m1. field. lra. }
  rewrite Hland. set (land := (n / 2 * x + q) / (3 / 2 + n)).
  assert (Hl : land * (3 / 2 + n) = n / 2 * x + q) by (unfold land; field; lra).
  destruct (Rlt_dec _ x); [|lra].
  transitivity (a / 5); [apply Rmin_r|]. nra.
Qed.

Lemma min_change_pos (y q v : R) :
  0 < y → 0 < q → min_change y q v = q ∨ y <= min_change y q v.
Proof.
  intros. unfold min_change. rops. repeat rcase; auto; try lra.
  right. rewrite (Rabs_pos_eq y) in * by lra. lra.
Qed.

(** The limits are odd functions, so one direction is enough. *)
Lemma slew_limit_odd (q m : R) : 0 < m → slew_limit (- q) m = - slew_limit q m.
Proof. intros. unfold slew_limit. rops. repeat rcase; lra. Qed.

Lemma accel_limit_odd (d p a : R) : 0 < a → accel_limit (- d) (- p) a = - accel_limit d p a.
Proof. intros. unfold accel_limit. rops. repeat rcase; lra. Qed.

Lemma soft_landing_odd (x q a : R) : soft_landing (- x) (- q) a = - soft_landing x q a.
Proof.
  unfold soft_landing. rops. rewrite Rabs_Ropp.
  replace (- x * - q) with (x * q) by ring.
  set (n := Rabs x / a). set (k := 15 * powerRZ 10 (-1) + n).
  set (h := 15 * powerRZ 10 (-1) + 5 * powerRZ 10 (-1) * n).
  replace (- x + (- q - - x * h) / k) with (- (x + (q - x * h) / k)) by (unfold Rdiv; ring).
  rewrite Rabs_Ropp. by repeat rcase.
Qed.

Lemma min_change_odd (y q v : R) : min_change (- y) (- q) (- v) = - min_change y q v.
Proof.
  unfold min_change. rops. rewrite !Rabs_Ropp. repeat rcase; try lra.
Qed.

Definition negate (s : RampParamState R) : RampParamState R :=
  mkRamp (isRamping s) (- val s) (- dxPrev s) (- req s) (dxMax s) (ddxMax s)
         (softRatio s) (softVel s) (minAccCycles s).

Lemma step_size_odd s :
  0 < dxMax s → 0 < ddxMax s → step_size (negate s) = - step_size s.
Proof.
  intros. unfold step_size. simpl. replace (- req s - - val s) with (- (req s - val s)) by ring.
  by rewrite slew_limit_odd, accel_limit_odd, soft_landing_odd, min_change_odd by done.
Qed.

Lemma step_size_pos s :
  approaching s → 0 < req s - val s → Rmin (req s - val s) (min_step s) <= step_size s.
Proof.
  intros (_ & Hm & Ha & Hp) Hq. unfold step_size, min_step. rops.
  set (q := req s - val s) in *.
  assert (Hp' : 0 <= dxPrev s) by nra.
  set (x := accel_limit (slew_limit q (dxMax s)) (dxPrev s) (ddxMax s)).
  assert (Hx : Rmin (Rmin q (dxMax s)) (ddxMax s) <= x).
  { unfold x. rewrite slew_limit_pos by lra. apply accel_limit_pos; try lra.
    by apply Rmin_pos. }
  assert (Hx0 : 0 < x) by (clear -Hx Ha Hm Hq; rminabs; lra).
  pose proof (soft_landing_pos x q (ddxMax s) Hx0 Hq Ha) as Hy.
  set (y := soft_landing x q (ddxMax s)) in *.
  assert (Hy0 : 0 < y) by (clear -Hy Ha Hx0; rminabs; lra).
  destruct (min_change_pos y q (val s) Hy0 Hq) as [->|Hz]; [apply Rmin_l|].
  clear -Hx Hy Hz Ha. rminabs; lra.
Qed.

Abbreviation after s := (snd (RampParamUpdate s)).

Lemma update_negate s :
  0 < dxMax s → 0 < ddxMax s → after (negate s) = negate (after s).
Proof.
  intros Hm Ha. unfold RampParamUpdate. simpl isRamping. destruct (isRamping s); [|done].
  cbn [negb]. rewrite step_size_odd by done. rops. simpl.
  replace (- req s - - val s) with (- (req s - val s)) by ring. rewrite !Rabs_Ropp.
  replace (- val s + - step_size s) with (- (val s + step_size s)) by ring.
  repeat rcase; simpl; unfold negate; simpl; f_equal; lra.
Qed.

Lemma approaching_negate s : approaching s → approaching (negate s).
Proof. unfold approaching, negate; simpl. intros (? & ? & ? & ?). repeat split; auto; nra. Qed.

Lemma update_params s :
  req (after s) = req s ∧ dxMax (after s) = dxMax s ∧ ddxMax (after s) = ddxMax s.
Proof.
  unfold RampParamUpdate. destruct (isRamping s); [|done]. cbn [negb].
  by destruct (_ ≥ᶠ _).
Qed.

(** One cycle below the target: up, not past it, and by a least amount. *)
Lemma update_below s :
  approaching s → 0 < req s - val s →
  approaching (after s) ∧ val s < val (after s) <= req s ∧
  (val (after s) = req s ∨ val s + min_step s <= val (after s)).
Proof.
  intros Hs Hq. pose proof (step_size_pos s Hs Hq) as Hx.
  destruct Hs as (Hr & Hm & Ha & Hp).
  assert (Hc : 0 < min_step s) by (unfold min_step; rminabs; lra).
  assert (Hx0 : 0 < step_size s) by (clear -Hx Hc Hq; rminabs; lra).
  unfold RampParamUpdate. rewrite Hr. cbn [negb]. rops.
  rewrite (Rabs_pos_eq (step_size s)), (Rabs_pos_eq (req s - val s)) by lra.
  destruct (Req_EM_T (step_size s) 0) as [|Hne]; [lra|].
  destruct (Rle_dec _ _) as [Hle|Hnle]; unfold approaching, min_step in *; simpl.
  - repeat split; try lra.
  - repeat split; try lra; [nra|]. right. clear -Hx Hnle. rminabs; lra.
Qed.

(** At the target: the velocity is cleared, then the flag. *)
Lemma update_at s :
  isRamping s = true → val s = req s →
  val (after s) = req s ∧ dxPrev (after s) = 0 ∧
  (0 < dxMax s → 0 < ddxMax s → dxPrev s = 0 → isRamping (after s) = false).
Proof.
  intros Hr Hv. unfold RampParamUpdate. rewrite Hr. cbn [negb]. rops.
  destruct (Rle_dec (Rabs (req s - val s)) (Rabs (step_size s))) as [|Hn].
  - simpl. repeat split; [lra|]. intros Hm Ha Hp.
    assert (step_size s = 0) as ->.
    { unfold step_size. rops. replace (req s - val s) with 0 by lra. rewrite Hp.
      assert (slew_limit 0 (dxMax s) = 0) as -> by (unfold slew_limit; rops; repeat rcase; lra).
      assert (accel_limit 0 0 (ddxMax s) = 0) as ->
        by (unfold accel_limit; rops; repeat rcase; lra).
      assert (soft_landing 0 0 (ddxMax s) = 0) as ->
        by (unfold soft_landing; rops; rewrite Rabs_R0; repeat rcase; lra).
      unfold min_change. rops. repeat rcase; lra. }
    rewrite Hp. by repeat rcase.
  - exfalso. apply Hn. replace (req s - val s) with 0 by lra. rewrite Rabs_R0. apply Rabs_pos.
Qed.

(** A ramp under way, or landed. *)
Definition on_course (s : RampParamState R) : Prop :=
  approaching s ∨ (isRamping s = false ∧ val s = req s).

(** The distance to the target after a cycle. *)
Definition closer (c : R) (s s' : RampParamState R) : Prop :=
  0 <= (req s - val s) * (req s - val s') ∧
  Rabs (req s - val s') <= Rabs (req s - val s) ∧
  (val s' = req s ∨ Rabs (req s - val s') <= Rabs (req s - val s) - c).

Lemma update_closer_below s :
  approaching s → 0 < req s - val s → approaching (after s) ∧ closer (min_step s) s (after s).
Proof.
  intros Hs Hq. destruct (update_below s Hs Hq) as (Ha & Hv & Hstep).
  split; [done|]. unfold closer. repeat split.
  - nra.
  - rminabs; lra.
  - destruct Hstep; [by left|right]. rminabs; lra.
Qed.

Lemma on_course_step s :
  on_course s → on_course (after s) ∧ closer (min_step s) s (after s).
Proof.
  intros [Hs|[Hr Hv]].
  - destruct (Rtotal_order 0 (req s - val s)) as [Hq|[Hq|Hq]].
    + destruct (update_closer_below s Hs Hq). split; [by left | done].
    + pose proof Hs as (Hr & Hm & Ha & Hp).
      destruct (update_at s Hr) as (Hv & Hd & _); [lra|].
      destruct (update_params s) as (Er & Em & Ea).
      split; [|unfold closer; rewrite Hv; replace (req s - req s) with 0 by ring;
               rewrite Rabs_R0; repeat split; [nra | apply Rabs_pos | by left]].
      destruct (isRamping (after s)) eqn:Hra; [left|right; rewrite Er; split; [done | lra]].
      unfold approaching. rewrite Hra, Em, Ea, Hd. repeat split; auto; lra.
    + pose proof Hs as (_ & Hm & Ha & _).
      assert (Hs' := approaching_negate _ Hs).
      destruct (update_closer_below (negate s) Hs') as [Hap Hcl]; [simpl; lra|].
      rewrite update_negate in Hap, Hcl by done. split.
      * left. apply approaching_negate in Hap. destruct (after s). unfold negate in Hap.
        simpl in Hap. rewrite !Ropp_involutive in Hap. exact Hap.
      * unfold closer in *. simpl in Hcl.
        change (min_step (negate s)) with (min_step s) in Hcl.
        replace (- req s - - val s) with (- (req s - val s)) in Hcl by ring.
        replace (- req s - - val (after s)) with (- (req s - val (after s))) in Hcl by ring.
        rewrite !Rabs_Ropp in Hcl. destruct Hcl as (H1 & H2 & H3). repeat split; [nra | lra|].
        destruct H3; [left | right]; lra.
  - assert (E : after s = s) by (unfold RampParamUpdate; by rewrite Hr).
    rewrite E. split; [by right|]. unfold closer. repeat split; [nra | lra | by left].
Qed.

Lemma ramp_run_S n s : ramp_run (S n) s = after (ramp_run n s).
Proof. done. Qed.

Lemma ramp_run_params n s :
  req (ramp_run n s) = req s ∧ dxMax (ramp_run n s) = dxMax s ∧
  ddxMax (ramp_run n s) = ddxMax s.
Proof.
  induction n as [|n (I1 & I2 & I3)]; [done|]. rewrite ramp_run_S.
  destruct (update_params (ramp_run n s)) as (-> & -> & ->). done.
Qed.

Lemma on_course_run n s :
  on_course s →
  on_course (ramp_run n s) ∧ 0 <= (req s - val s) * (req s - val (ramp_run n s)) ∧
  (val (ramp_run n s) = req s ∨
   Rabs (req s - val (ramp_run n s)) <= Rabs (req s - val s) - INR n * min_step s).
Proof.
  intros Hs. induction n as [|n (Hon & Hside & Hdist)].
  - change (ramp_run 0 s) with s. change (INR 0) with 0.
    split; [done|]. split; [apply Rle_0_sqr | right; lra].
  - rewrite ramp_run_S. destruct (on_course_step _ Hon) as (Hon' & Hc1 & Hc2 & Hc3).
    destruct (ramp_run_params n s) as (Er & Em & Ea).
    assert (Emin : min_step (ramp_run n s) = min_step s) by (unfold min_step; by rewrite Em, Ea).
    rewrite Er, Emin in *. split; [done|].
    set (v := val (ramp_run n s)) in *. set (v' := val (after (ramp_run n s))) in *.
    rewrite S_INR. split.
    + clear -Hside Hc1 Hc2. destruct (Req_dec (req s - v) 0) as [E|].
      * rewrite E, Rabs_R0 in Hc2.
        assert (req s - v' = 0) as -> by (rminabs; lra). lra.
      * assert (0 <= (req s - v) * (req s - v)) by apply Rle_0_sqr.
        assert (H' : 0 < (req s - v) * (req s - v)) by nra.
        apply (Rmult_le_reg_l ((req s - v) * (req s - v))); [done|]. nra.
    + destruct Hc3 as [|Hc3]; [by left|]. destruct Hdist as [Hd|Hd].
      * left. rewrite Hd in *. replace (req s - req s) with 0 in Hc2 by ring.
        rewrite Rabs_R0 in Hc2. clear -Hc2. rminabs; lra.
      * right. lra.
Qed.

Lemma load_on_course s r tRamp rate :
  idle s → (0 < rate)%Z →
  on_course (RampParamLoad s r tRamp rate) ∧ req (RampParamLoad s r tRamp rate) = r ∧
  (val (RampParamLoad s r tRamp rate) = val s ∨ val (RampParamLoad s r tRamp rate) = r) ∧
  (isRamping (RampParamLoad s r tRamp rate) = true → 0 < min_step (RampParamLoad s r tRamp rate)).
Proof.
  intros (Hr & Hv & Hp & H1 & H2) Hrate. unfold RampParamLoad. rewrite Hr, Hp. cbn [orb].
  apply IZR_lt in Hrate. rops.
  destruct (Rle_dec tRamp 0) as [|Ht].
  { split; [by right|]. simpl. repeat split; [by right | done]. }
  destruct (Req_EM_T r (val s)) as [->|Hne]; cbn [negb].
  { split; [by right|]. repeat split; [done | by left | congruence]. }
  assert (Hi : 0 < 1 / (IZR rate * tRamp)) by (apply Rdiv_lt_0_compat; [|apply Rmult_lt_0_compat]; lra).
  assert (Hd : 0 < Rabs (r - val s)) by (apply Rabs_pos_lt; lra).
  set (i := 1 / (IZR rate * tRamp)) in *. clearbody i.
  assert (Hm : 0 < softVel s * Rabs (r - val s) * i) by (repeat apply Rmult_lt_0_compat; done).
  assert (Ha : 0 < softRatio s * (softVel s * Rabs (r - val s) * i) * i)
    by (repeat apply Rmult_lt_0_compat; done).
  split; [|repeat split; auto; intros _; unfold min_step; simpl; rminabs; lra].
  left. unfold approaching. simpl. repeat split; try done. lra.
Qed.

(** a ramp loaded on an idle parameter always ends: after finitely many
    cycles the value is exactly the requested one and the ramping flag is
    clear, and both stay so (exact arithmetic). *)
Theorem ramp_reaches_request s r tRamp rate :
  idle s → (0 < rate)%Z →
  ∃ n, ∀ m, (n <= m)%nat →
    val (ramp_run m (RampParamLoad s r tRamp rate)) = r ∧
    isRamping (ramp_run m (RampParamLoad s r tRamp rate)) = false.
Proof.
  intros Hs Hrate. destruct (load_on_course s r tRamp rate Hs Hrate) as (Hon & Hr & _ & Hc).
  set (l := RampParamLoad s r tRamp rate) in *. clearbody l. subst r. clear Hs.
  assert (Hland : ∃ n, val (ramp_run n l) = req l).
  { destruct (isRamping l) eqn:El.
    - destruct (archimed_cor1 (min_step l / (Rabs (req l - val l) + 1))) as (N & HN & HN0).
      { apply Rdiv_lt_0_compat; [by apply Hc|]. pose proof (Rabs_pos (req l - val l)). lra. }
      exists N. destruct (on_course_run N l Hon) as (_ & _ & [|Hd]); [done|]. exfalso.
      pose proof (Rabs_pos (req l - val (ramp_run N l))).
      pose proof (Rabs_pos (req l - val l)).
      assert (HNR : 0 < INR N) by by apply lt_0_INR.
      apply (Rmult_lt_compat_r (INR N * (Rabs (req l - val l) + 1))) in HN; [|nra].
      replace (/ INR N * (INR N * (Rabs (req l - val l) + 1)))
        with (Rabs (req l - val l) + 1) in HN by (field; lra).
      replace (min_step l / (Rabs (req l - val l) + 1) * (INR N * (Rabs (req l - val l) + 1)))
        with (INR N * min_step l) in HN by (field; lra). lra.
    - exists 0%nat. by destruct Hon as [(? & _)|[_ ?]]; [congruence|]. }
  destruct Hland as (n & Hn). exists (n + 2)%nat. intros m Hm.
  assert (Hstop : val (ramp_run (n + 2) l) = req l ∧ isRamping (ramp_run (n + 2) l) = false).
  { replace (n + 2)%nat with (S (S n)) by lia. rewrite !ramp_run_S.
    destruct (ramp_run_params n l) as (Er & Em & Ea). set (u := ramp_run n l) in *.
    assert (Hu : on_course u) by by apply on_course_run.
    destruct (isRamping u) eqn:Eu.
    2:{ assert (E : after u = u) by (unfold RampParamUpdate; by rewrite Eu).
        by rewrite !E. }
    destruct (update_at u Eu) as (Hv & Hd & _); [congruence|].
    destruct (update_params u) as (Er' & Em' & Ea').
    destruct (isRamping (after u)) eqn:Eau.
    2:{ assert (E : after (after u) = after u) by (unfold RampParamUpdate at 1; by rewrite Eau).
        rewrite E. split; [congruence | done]. }
    destruct (update_at (after u) Eau) as (Hv2 & _ & Hf); [congruence|].
    destruct Hu as [(_ & Hm0 & Ha0 & _)|[? _]]; [|congruence].
    split; [congruence|]. apply Hf; [by rewrite Em' | by rewrite Ea' | done]. }
  clear -Hstop Hm. induction Hm as [|m _ IH]; [done|].
  rewrite ramp_run_S. unfold RampParamUpdate. by rewrite (proj2 IH).
Qed.

Lemma ramp_reaches_request_witness :
  ∃ n, ∀ m, (n <= m)%nat →
    val (ramp_run m (RampParamLoad (RampParamInit 0 16) 1 2 16)) = 1 ∧
    isRamping (ramp_run m (RampParamLoad (RampParamInit 0 16) 1 2 16)) = false.
Proof.
  apply (ramp_reaches_request (RampParamInit 0 16) 1 2 16); [|lia].
  unfold idle. simpl. repeat split; lra.
Defined.

(** it gets there without overshoot: at every cycle the value lies between
    the starting point and the request, on the side it started from, and the
    distance to the request never grows (exact arithmetic). *)
Theorem ramp_no_overshoot s r tRamp rate n :
  idle s → (0 < rate)%Z →
  let v k := val (ramp_run k (RampParamLoad s r tRamp rate)) in
  0 <= (r - v 0%nat) * (r - v n) ∧ Rabs (r - v (S n)) <= Rabs (r - v n) ∧
  Rabs (r - v n) <= Rabs (r - val s).
Proof.
  intros Hs Hrate v. destruct (load_on_course s r tRamp rate Hs Hrate) as (Hon & Hr & Hv & _).
  unfold v. set (l := RampParamLoad s r tRamp rate) in *. clearbody l. subst r.
  assert (Hstep : ∀ k, Rabs (req l - val (ramp_run (S k) l)) <= Rabs (req l - val (ramp_run k l))).
  { intros k. rewrite ramp_run_S. destruct (on_course_run k l Hon) as (Hk & _).
    destruct (on_course_step _ Hk) as (_ & _ & H2 & _).
    destruct (ramp_run_params k l) as (E & _). by rewrite E in H2. }
  split; [|split; [apply Hstep|]].
  - by apply on_course_run.
  - transitivity (Rabs (req l - val l)).
    + induction n as [|n IH]; [apply Req_le; done|]. etransitivity; [apply Hstep | done].
    + destruct Hv as [->| ->]; [lra|]. replace (req l - req l) with 0 by ring.
      rewrite Rabs_R0. apply Rabs_pos.
Qed.

Lemma ramp_no_overshoot_witness :
  let v k := val (ramp_run k (RampParamLoad (RampParamInit 0 16) 1 2 16)) in
  0 <= (1 - v 0%nat) * (1 - v 3%nat) ∧ Rabs (1 - v 4%nat) <= Rabs (1 - v 3%nat) ∧
  Rabs (1 - v 3%nat) <= Rabs (1 - 0).
Proof.
  apply (ramp_no_overshoot (RampParamInit 0 16) 1 2 16 3); [|lia].
  unfold idle. simpl. repeat split; lra.
Defined.

(** One cycle with no acceleration available and full speed the wrong way. *)
Lemma runaway_step s d :
  isRamping s = true → dxMax s = d → ddxMax s = 0 → dxPrev s = - d → 0 < d →
  d < req s - val s → Rabs (val s) * flit 11103 (-20) <= d →
  after s = mkRamp true (val s - d) (- d) (req s) d 0 (softRatio s) (softVel s) (minAccCycles s).
Proof.
  intros Hr Hm Ha Hp Hd Hq Hmin. unfold RampParamUpdate. rewrite Hr. cbn [negb].
  assert (Hstep : step_size s = - d).
  { unfold step_size. rops. rewrite Hm, Ha, Hp. set (q := req s - val s) in *.
    assert (slew_limit q d = d) as -> by (unfold slew_limit; rops; repeat rcase; lra).
    assert (accel_limit d (- d) 0 = - d) as -> by (unfold accel_limit; rops; repeat rcase; lra).
    assert (soft_landing (- d) q 0 = - d) as ->.
    { unfold soft_landing. rops. destruct (Rlt_dec 0 (- d * q)); [exfalso; nra|].
      by rewrite andb_false_r. }
    unfold min_change. rops. rewrite (Rabs_pos_eq q), Rabs_Ropp, (Rabs_pos_eq d) by lra.
    repeat rcase; lra. }
  rops. rewrite Hstep, Hm, Ha, Hp, Rabs_Ropp, (Rabs_pos_eq d), Rabs_pos_eq by lra.
  destruct (Rle_dec (req s - val s) d); [lra|].
  destruct (Req_EM_T (- d) 0); [lra|]. reflexivity.
Qed.

(** a request that interrupts a ramp whose velocity is exactly opposite to
    the new maximum velocity is never honoured: the new acceleration limit
    |dxMax + dxPrev| / minAccCycles is zero, and the value runs away from the
    request at full speed on every later cycle (until rounding of the value
    itself matters, which the last hypothesis excludes). *)
Theorem ramp_interrupted_runaway s r tRamp rate n :
  let l := RampParamLoad s r tRamp rate in
  isRamping s = true → 0 < tRamp → 0 < dxMax l → dxPrev s = - dxMax l →
  dxMax l < r - val s →
  (Rabs (val s) + INR n * dxMax l) * flit 11103 (-20) <= dxMax l →
  isRamping (ramp_run n l) = true ∧ val (ramp_run n l) = val s - INR n * dxMax l.
Proof.
  intros l Hr Ht Hd0 Hp Hq Hsmall.
  assert (Hl : isRamping l = true ∧ val l = val s ∧ dxPrev l = - dxMax l ∧ req l = r ∧
               ddxMax l = 0).
  { revert Hp. unfold l, RampParamLoad. rewrite Hr. rops.
    destruct (Rle_dec tRamp 0); [lra|]. simpl. intros Hp. repeat split; [done|].
    rewrite Hp. replace (_ + - _) with 0 by ring. rewrite Rabs_R0. unfold Rdiv. ring. }
  destruct Hl as (Hlr & Hlv & Hlp & Hlq & Hla). set (d := dxMax l) in *.
  assert (Heps : 0 < (flit 11103 (-20) : R)) by by apply flit_pos.
  enough (∀ k, (k <= n)%nat → isRamping (ramp_run k l) = true ∧
            val (ramp_run k l) = val s - INR k * d ∧ dxPrev (ramp_run k l) = - d) as H
    by (destruct (H n) as (? & ? & _); auto).
  induction k as [|k IH]; intros Hk.
  { change (ramp_run 0 l) with l. change (INR 0) with 0. repeat split; auto. lra. }
  destruct IH as (I1 & I2 & I3); [lia|].
  destruct (ramp_run_params k l) as (Er & Em & Ea).
  assert (HkR : 0 <= INR k <= INR n) by (split; [apply pos_INR | apply le_INR; lia]).
  rewrite ramp_run_S, (runaway_step _ d); try done; try congruence.
  - rewrite S_INR. simpl. repeat split. rewrite I2. ring.
  - rewrite Er, Hlq, I2. nra.
  - etransitivity; [|exact Hsmall]. apply Rmult_le_compat_r; [lra|].
    rewrite I2. pose proof (Rabs_triang (val s) (- (INR k * d))) as Htri.
    replace (val s + - (INR k * d)) with (val s - INR k * d) in Htri by ring.
    rewrite Rabs_Ropp, (Rabs_pos_eq (INR k * d)) in Htri by nra. nra.
Qed.

Lemma ramp_interrupted_runaway_witness :
  let s := mkRamp true 0 (- (136 / 100) / 32) (-1) 0 0 4 (136 / 100) (8 / 10) in
  isRamping (ramp_run 3 (RampParamLoad s 1 2 16)) = true ∧
  val (ramp_run 3 (RampParamLoad s 1 2 16))
    = val s - INR 3 * dxMax (RampParamLoad s 1 2 16).
Proof.
  intros s.
  assert (Hd : dxMax (RampParamLoad s 1 2 16) = 136 / 100 / 32).
  { unfold RampParamLoad. rops. destruct (Rle_dec 2 0); [lra|]. simpl.
    rewrite Rabs_pos_eq by lra. field. }
  apply (ramp_interrupted_runaway s 1 2 16 3); rewrite ?Hd; simpl; try lra.
  - rewrite Rabs_R0. lra.
Defined.

(** The same on the machine's doubles: from 0, a request for -1 over 2 s at 16
    cycles/s, and after 12 cycles a request one unit above the present value;
    400 cycles later the value has passed -15 and is still ramping. *)
Example ramp_runaway_binary64 :
  let s2 := ramp_run 12 (RampParamLoad (RampParamInit (fofZ 0) 16) (fofZ (-1)) (fofZ 2) 16) in
  let s3 := RampParamLoad s2 (val s2 ⊕ fofZ 1) (fofZ 2) 16 : RampParamState binary64 in
  (val (ramp_run 400 s3) <ᶠ fofZ (-15)) && isRamping (ramp_run 400 s3) = true.
Proof. vm_compute. reflexivity. Qed.


(** *** The linear ramp *)
Definition lin_state (c : Z) (nv tramp v : R) (n : nat) : R * Z :=
  Nat.iter n (λ st, snd (inputFilterModuleRamp c (fst st) nv tramp (snd st))) (v, 0%Z).

(** What the [k]-th call returns, the call that starts the ramp being the 0-th. *)
Definition lin_out (c : Z) (nv tramp v : R) (k : nat) : R :=
  fst (inputFilterModuleRamp c (fst (lin_state c nv tramp v k)) nv tramp
                             (snd (lin_state c nv tramp v k))).

Lemma R_trunc_IZR z : R_trunc (IZR z) = z.
Proof.
  assert (HI : ∀ z, Int_part (IZR z) = z).
  { intros y. unfold Int_part. rewrite <- (up_tech (IZR y) y); [lia | lra |].
    rewrite plus_IZR. lra. }
  unfold R_trunc. destruct (Rlt_dec _ _); [|apply HI].
  rewrite <- opp_IZR, HI. apply Z.opp_involutive.
Qed.

Section linear.
Variables (c N : Z) (v nv tramp : R).
Hypothesis Hne : v ≠ nv.
Hypothesis Ht : 0 < tramp.
Hypothesis HcN : IZR c * tramp = IZR N.
Hypothesis HN : (0 < N < 2 ^ 63)%Z.

Lemma lin_start : inputFilterModuleRamp c v nv tramp 0 = (v, (v, N)).
Proof.
  unfold inputFilterModuleRamp, f_to_sint. rops. change (truthy 0) with false. cbv iota.
  destruct (Req_EM_T v nv); [done|]. destruct (Rle_dec tramp 0); [lra|]. cbn [negb].
  rewrite HcN, R_trunc_IZR. change (64 - 1)%Z with 63%Z.
  replace ((- 2 ^ 63 <=? N)%Z && (N <? 2 ^ 63)%Z) with true by lia.
  cbv iota. by rewrite wrap_small by lia.
Qed.

Lemma lin_step (st : Z) :
  (0 < st <= N)%Z →
  inputFilterModuleRamp c v nv tramp st =
    if (st =? 1)%Z then (nv, (nv, 0%Z))
    else (nv - (nv - v) * IZR st / IZR N, (v, (st - 1)%Z)).
Proof.
  intros Hst. unfold inputFilterModuleRamp. rops.
  replace (truthy st) with true by (unfold truthy; lia).
  destruct (Req_EM_T tramp 0); [lra|]. rewrite wrap_small by lia. rewrite HcN.
  replace (negb (truthy (st - 1))) with (st =? 1)%Z by (unfold truthy; lia).
  destruct (Z.eqb_spec st 1) as [->|]; f_equal.
  - change (1 - 1)%Z with 0%Z. lra.
  - rewrite wrap_small by lia. replace (1 + (st - 1))%Z with st by lia. unfold Rdiv. ring.
Qed.

Lemma lin_state_S k :
  (k < Z.to_nat N)%nat → lin_state c nv tramp v (S k) = (v, (N - Z.of_nat k)%Z).
Proof.
  induction k as [|k IH]; intros Hk.
  - unfold lin_state. simpl. rewrite lin_start. simpl. by rewrite Z.sub_0_r.
  - change (lin_state c nv tramp v (S (S k))) with
      (snd (inputFilterModuleRamp c (fst (lin_state c nv tramp v (S k))) nv tramp
              (snd (lin_state c nv tramp v (S k))))).
    rewrite IH by lia. cbn [fst snd]. rewrite lin_step by lia.
    destruct (Z.eqb_spec (N - Z.of_nat k) 1); [lia|]. simpl. f_equal. lia.
Qed.

(** the linear ramp of a pole, zero or gain setting (exact arithmetic,
    [CYCLE_PER_SECOND * tramp] a whole number N of cycles): the call that sees
    the new value returns the old one, call k of the next N returns the old
    value plus (k-1)/N of the change, the N-th returns the new value exactly,
    and the ramp is then over with the stored value updated. *)
Theorem linear_ramp :
  lin_out c nv tramp v 0 = v ∧
  (∀ k, (1 <= k < Z.to_nat N)%nat →
     lin_out c nv tramp v k = v + (nv - v) * INR (k - 1) / IZR N) ∧
  lin_out c nv tramp v (Z.to_nat N) = nv ∧
  lin_state c nv tramp v (S (Z.to_nat N)) = (nv, 0%Z).
Proof.
  assert (HNR : 0 < IZR N) by (apply IZR_lt; lia).
  assert (Hlast : inputFilterModuleRamp c (fst (lin_state c nv tramp v (Z.to_nat N))) nv tramp
                    (snd (lin_state c nv tramp v (Z.to_nat N))) = (nv, (nv, 0%Z))).
  { replace (Z.to_nat N) with (S (Z.to_nat N - 1)) by lia. rewrite lin_state_S by lia.
    cbn [fst snd]. rewrite lin_step by lia.
    by destruct (Z.eqb_spec (N - Z.of_nat (Z.to_nat N - 1)) 1); [|lia]. }
  repeat split.
  - unfold lin_out, lin_state. simpl. by rewrite lin_start.
  - intros k Hk. unfold lin_out. replace k with (S (k - 1)) at 1 2 by lia.
    rewrite lin_state_S by lia. cbn [fst snd]. rewrite lin_step by lia.
    destruct (Z.eqb_spec (N - Z.of_nat (k - 1)) 1); [lia|]. simpl.
    rewrite minus_IZR, <- INR_IZR_INZ. field. lra.
  - unfold lin_out. by rewrite Hlast.
  - unfold lin_state. simpl. fold (lin_state c nv tramp v (Z.to_nat N)). by rewrite Hlast.
Qed.
End linear.

Lemma linear_ramp_witness :
  lin_out 16 5 (1 / 4) 1 0 = 1 ∧
  (∀ k, (1 <= k < 4)%nat → lin_out 16 5 (1 / 4) 1 k = 1 + (5 - 1) * INR (k - 1) / 4) ∧
  lin_out 16 5 (1 / 4) 1 4 = 5 ∧ lin_state 16 5 (1 / 4) 1 5 = (5, 0%Z).
Proof. apply (linear_ramp 16 4 1 5 (1 / 4)); [lra | lra | lra | lia]. Defined.

End exact.
End Ramp.
