(* ===== verification/Iir.v ===== *)
(** * Recursive filters ([src/include/drv/fm10Gen.c], top; [src/drv/fmReadCoeff.c])

    - [iir_filter], [iir_filter_biquad], [fir_filter]: one sample through a
      cascade of second order sections, in direct form II, in biquad form, or
      through a tapped delay line.  The C code walks pointers over the
      coefficient and history arrays; the loops below use the same indices.
    - [biquad_coeffs]: the conversion of a section's coefficients that the
      filter file reader applies to modules built in biquad form. *)
From stdpp Require Import prelude list.
From Stdlib Require Import Ring Reals.
From S2P Require Import Prelude CFloat.

#[export] Instance float_inhabited {F} `{FloatOps F} : Inhabited F := populate f0.

Module Iir.
Section defs.
Context {F : Type} `{FloatOps F}.

(** The body of the loop of [iir_filter] for section [i]. *)
Definition iir_section (coef : list F) (i : nat) (st : F * list F) : F * list F :=
  let '(output, history) := st in
  let history1 := history !!! (2 * i)%nat in
  let history2 := history !!! (2 * i + 1)%nat in
  let output := output ⊖ history1 ⊗ (coef !!! (4 * i + 1)%nat) in
  let new_hist := output ⊖ history2 ⊗ (coef !!! (4 * i + 2)%nat) in
  let output := new_hist ⊕ history1 ⊗ (coef !!! (4 * i + 3)%nat) in
  let output := output ⊕ history2 ⊗ (coef !!! (4 * i + 4)%nat) in
  (output, <[(2 * i)%nat := new_hist]> (<[(2 * i + 1)%nat := history1]> history)).

(** [iir_filter(input, coef, n, history)]: the output and the new history. *)
Definition iir_filter (input : F) (coef : list F) (n : nat) (history : list F) : F * list F :=
  for_n n (iir_section coef) (input ⊗ (coef !!! 0%nat), history).

Definition biquad_section (coef : list F) (i : nat) (st : F * list F) : F * list F :=
  let '(output, history) := st in
  let w := history !!! (2 * i)%nat in
  let u := history !!! (2 * i + 1)%nat in
  let a11 := coef !!! (4 * i + 1)%nat in
  let a12 := coef !!! (4 * i + 2)%nat in
  let c1 := coef !!! (4 * i + 3)%nat in
  let c2 := coef !!! (4 * i + 4)%nat in
  let new_w := output ⊕ a11 ⊗ w ⊕ a12 ⊗ u in
  let output := output ⊕ w ⊗ c1 ⊕ u ⊗ c2 in
  let new_u := w ⊕ u in
  (output, <[(2 * i + 1)%nat := new_u]> (<[(2 * i)%nat := new_w]> history)).

Definition iir_filter_biquad (input : F) (coef : list F) (n : nat) (history : list F) : F * list F :=
  for_n n (biquad_section coef) (input ⊗ (coef !!! 0%nat), history).

(** [fir_filter]: [coef] and [history] point at arrays of at least [n] and
    [n - 1] elements; loop variable [i] runs from 2, tap [k = i - 2]; [coef_ptr] has
    come down to the first coefficient when the input tap is added. *)
Definition fir_tap (coef : list F) (n : nat) (k : nat) (st : F * list F) : F * list F :=
  let '(output, history) := st in
  let h := history !!! (k + 1)%nat in
  (output ⊕ h ⊗ (coef !!! (n - 2 - k)%nat), <[k := h]> history).

Definition fir_filter (input : F) (coef : list F) (n : nat) (history : list F) : F * list F :=
  let output := (history !!! 0%nat) ⊗ (coef !!! (n - 1)%nat) in
  let '(output, history) := for_n (n - 2) (fir_tap coef n) (output, history) in
  (output ⊕ input ⊗ (coef !!! 0%nat), <[(n - 2)%nat := input]> history).

(** The [switch (j)] of the filter file reader over the four coefficients
    [a1 a2 b1 b2] of a section. *)
Definition biquad_coeffs (c : F * F * F * F) : F * F * F * F :=
  let '(a1, a2, b1, b2) := c in
  (fneg a1 ⊖ f1, fneg a2 ⊖ a1 ⊖ f1, b1 ⊖ a1, b2 ⊖ a2 ⊕ b1 ⊖ a1).

(** ** The filters as cascades *)
Definition sos_step (c : F * F * F * F) (h : F * F) (x : F) : F * (F * F) :=
  let '(a1, a2, b1, b2) := c in
  let w := x ⊖ fst h ⊗ a1 ⊖ snd h ⊗ a2 in
  (w ⊕ fst h ⊗ b1 ⊕ snd h ⊗ b2, (w, fst h)).

Definition biquad_step (c : F * F * F * F) (h : F * F) (x : F) : F * (F * F) :=
  let '(a11, a12, c1, c2) := c in
  let '(w, u) := h in
  (x ⊕ w ⊗ c1 ⊕ u ⊗ c2, (x ⊕ a11 ⊗ w ⊕ a12 ⊗ u, w ⊕ u)).

Fixpoint cascade (step : F * F * F * F → F * F → F → F * (F * F))
    (cs : list (F * F * F * F)) (hs : list (F * F)) (x : F) : F * list (F * F) :=
  match cs, hs with
  | c :: cs, h :: hs =>
      let '(y, h') := step c h x in
      let '(z, hs') := cascade step cs hs y in (z, h' :: hs')
  | _, _ => (x, [])
  end.

(** How sections and section states lie in the C arrays. *)
Definition flat_coef (g : F) (cs : list (F * F * F * F)) : list F :=
  g :: concat (map (λ '(a1, a2, b1, b2), [a1; a2; b1; b2]) cs).
Definition flat_hist (hs : list (F * F)) : list F := concat (map (λ '(w, u), [w; u]) hs).

Lemma length_flat_hist hs : length (flat_hist hs) = (2 * length hs)%nat.
Proof. induction hs as [|[w u] hs IH]; [done|]. simpl in *. unfold flat_hist in IH. lia. Qed.

Lemma flat_hist_lookup pre h hs :
  flat_hist (pre ++ h :: hs) !!! (2 * length pre)%nat = fst h ∧
  flat_hist (pre ++ h :: hs) !!! (2 * length pre + 1)%nat = snd h.
Proof.
  unfold flat_hist. rewrite map_app, concat_app.
  change (concat (map _ pre)) with (flat_hist pre). destruct h as [w u]. simpl concat.
  rewrite <- length_flat_hist.
  rewrite !lookup_total_app_r by lia.
  replace (length (flat_hist pre) + 1 - length (flat_hist pre))%nat with 1%nat by lia.
  by rewrite Nat.sub_diag.
Qed.

Lemma flat_hist_insert pre h hs a b :
  <[(2 * length pre)%nat := a]> (<[(2 * length pre + 1)%nat := b]> (flat_hist (pre ++ h :: hs))) =
  flat_hist (pre ++ (a, b) :: hs).
Proof.
  unfold flat_hist. rewrite !map_app, !concat_app.
  change (concat (map _ pre)) with (flat_hist pre). destruct h as [w u]. simpl concat.
  rewrite <- length_flat_hist, !insert_app_r_alt by lia.
  replace (length (flat_hist pre) + 1 - length (flat_hist pre))%nat with 1%nat by lia.
  by rewrite Nat.sub_diag.
Qed.

Lemma flat_coef_lookup g pre a1 a2 b1 b2 cs :
  let l := flat_coef g (pre ++ (a1, a2, b1, b2) :: cs) in
  l !!! (4 * length pre + 1)%nat = a1 ∧ l !!! (4 * length pre + 2)%nat = a2 ∧
  l !!! (4 * length pre + 3)%nat = b1 ∧ l !!! (4 * length pre + 4)%nat = b2.
Proof.
  intros l. unfold l, flat_coef. rewrite map_app, concat_app.
  set (p := concat (map _ pre)).
  assert (Hp : length p = (4 * length pre)%nat).
  { unfold p. clear. induction pre as [|[[[? ?] ?] ?] pre IH]; [done|]. simpl in *. lia. }
  simpl concat. assert (Hk : ∀ k, (g :: p ++ a1 :: a2 :: b1 :: b2 :: concat (map (λ '(a1, a2, b1, b2), [a1; a2; b1; b2]) cs))
       !!! (4 * length pre + S k)%nat = (a1 :: a2 :: b1 :: b2 ::
         concat (map (λ '(a1, a2, b1, b2), [a1; a2; b1; b2]) cs)) !!! k).
  { intros k. rewrite <- Hp, <- Nat.add_succ_comm, Nat.add_succ_l.
    change ((g :: ?x) !!! S ?j) with (x !!! j). rewrite lookup_total_app_r by lia.
    f_equal. lia. }
  by rewrite (Hk 0%nat), (Hk 1%nat), (Hk 2%nat), (Hk 3%nat).
Qed.

Lemma iir_section_step g cpre c cs hpre h hs x :
  length hpre = length cpre →
  iir_section (flat_coef g (cpre ++ c :: cs)) (length cpre) (x, flat_hist (hpre ++ h :: hs)) =
  let '(y, h') := sos_step c h x in (y, flat_hist (hpre ++ h' :: hs)).
Proof.
  intros Hl. destruct c as [[[a1 a2] b1] b2].
  destruct (flat_coef_lookup g cpre a1 a2 b1 b2 cs) as (C1 & C2 & C3 & C4).
  pose proof (flat_hist_lookup hpre h hs) as [H1 H2].
  unfold iir_section. rewrite C1, C2, C3, C4, <- Hl, H1, H2, flat_hist_insert. done.
Qed.

Lemma biquad_section_step g cpre c cs hpre h hs x :
  length hpre = length cpre →
  biquad_section (flat_coef g (cpre ++ c :: cs)) (length cpre) (x, flat_hist (hpre ++ h :: hs)) =
  let '(y, h') := biquad_step c h x in (y, flat_hist (hpre ++ h' :: hs)).
Proof.
  intros Hl. destruct c as [[[a11 a12] c1] c2].
  destruct (flat_coef_lookup g cpre a11 a12 c1 c2 cs) as (C1 & C2 & C3 & C4).
  pose proof (flat_hist_lookup hpre h hs) as [H1 H2]. destruct h as [w u].
  unfold biquad_section. rewrite C1, C2, C3, C4, <- Hl, H1, H2.
  rewrite list_insert_insert_ne by lia. by rewrite flat_hist_insert.
Qed.

(** A loop of such sections is the cascade. *)
Lemma section_loop sec step g cs :
  (∀ cpre c cs' hpre h hs x, cs = cpre ++ c :: cs' → length hpre = length cpre →
     sec (flat_coef g cs) (length cpre) (x, flat_hist (hpre ++ h :: hs)) =
     let '(y, h') := step c h x in (y, flat_hist (hpre ++ h' :: hs))) →
  ∀ cs2 hs cpre hpre x,
    cs = cpre ++ cs2 → length hs = length cs2 → length hpre = length cpre →
    for_up (length cpre) (length cs2) (sec (flat_coef g cs)) (x, flat_hist (hpre ++ hs)) =
    let '(y, hs') := cascade step cs2 hs x in (y, flat_hist (hpre ++ hs')).
Proof.
  intros Hsec. induction cs2 as [|c cs2 IH]; intros [|h hs] cpre hpre x Heq Hlen Hpre; try done.
  simpl. rewrite (Hsec cpre c cs2 hpre h hs) by done.
  destruct (step c h x) as [y h'].
  specialize (IH hs (cpre ++ [c]) (hpre ++ [h']) y).
  rewrite !length_app, <- !app_assoc in IH. simpl in IH, Hlen. rewrite !Nat.add_1_r in IH.
  rewrite IH by (done || lia). destruct (cascade step cs2 hs y). by rewrite <- app_assoc.
Qed.

(** [iir_filter] on arrays holding a gain, [n] sections and their histories
    computes the cascade of [n] direct form II sections on the scaled input,
    and leaves the new histories in the array, in order. *)
Theorem iir_filter_cascade g cs hs x :
  length hs = length cs →
  iir_filter x (flat_coef g cs) (length cs) (flat_hist hs) =
  let '(y, hs') := cascade sos_step cs hs (x ⊗ g) in (y, flat_hist hs').
Proof.
  intros Hl. apply (section_loop iir_section sos_step g cs) with (cpre := []) (hpre := []); try done.
  intros cpre c cs' hpre h hs0 x0 ->. apply iir_section_step.
Qed.

(** [iir_filter_biquad] is likewise the cascade of biquad sections. *)
Theorem iir_filter_biquad_cascade g cs hs x :
  length hs = length cs →
  iir_filter_biquad x (flat_coef g cs) (length cs) (flat_hist hs) =
  let '(y, hs') := cascade biquad_step cs hs (x ⊗ g) in (y, flat_hist hs').
Proof.
  intros Hl.
  apply (section_loop biquad_section biquad_step g cs) with (cpre := []) (hpre := []); try done.
  intros cpre c cs' hpre h hs0 x0 ->. apply biquad_section_step.
Qed.

(** The loop on arrays that are longer than the sections need, with the same
    coefficients where they are used. *)
Definition local_section (sec : list F → nat → F * list F → F * list F) : Prop :=
  ∀ coef coef' i x h rest,
    (∀ k, (4 * i + 1 <= k <= 4 * i + 4)%nat → coef !!! k = coef' !!! k) → (2 * i + 1 < length h)%nat →
    length (snd (sec coef' i (x, h))) = length h ∧
    sec coef i (x, h ++ rest) = let '(y, h') := sec coef' i (x, h) in (y, h' ++ rest).

Lemma iir_section_local : local_section iir_section.
Proof.
  intros coef coef' i x h rest Hc Hi. unfold iir_section.
  rewrite !lookup_total_app_l by lia. rewrite !(Hc (4 * i + _)%nat) by lia.
  rewrite !insert_app_l by (rewrite ?length_insert; lia). cbn [snd]. by rewrite !length_insert.
Qed.

Lemma biquad_section_local : local_section biquad_section.
Proof.
  intros coef coef' i x h rest Hc Hi. unfold biquad_section.
  rewrite !lookup_total_app_l by lia. rewrite !(Hc (4 * i + _)%nat) by lia.
  rewrite !insert_app_l by (rewrite ?length_insert; lia). cbn [snd]. by rewrite !length_insert.
Qed.

Lemma section_loop_local sec coef coef' n x h rest :
  local_section sec → (∀ k, (1 <= k < 4 * n + 1)%nat → coef !!! k = coef' !!! k) → length h = (2 * n)%nat →
  for_n n (sec coef) (x, h ++ rest) = let '(y, h') := for_n n (sec coef') (x, h) in (y, h' ++ rest).
Proof.
  intros Hsec Hc Hh.
  assert (H' : ∀ m, (m <= n)%nat → length (snd (for_n m (sec coef') (x, h))) = length h ∧
    for_n m (sec coef) (x, h ++ rest) = let '(y, h') := for_n m (sec coef') (x, h) in (y, h' ++ rest)); [|by apply H'].
  induction m as [|m IH]; intros Hm; [done|]. rewrite !for_up_S, !Nat.add_0_l. destruct IH as [Hl ->]; [lia|].
  destruct (for_n m (sec coef') (x, h)) as [y1 h1]. cbn [snd] in Hl. rewrite <- Hl.
  apply Hsec; [|lia]. intros k Hk. apply Hc. lia.
Qed.

(** [fir_filter] with [n >= 2] taps over a delay line of [n - 1] samples
    adds, oldest sample first, each sample times its coefficient and last the
    input times [coef[0]], and shifts the input into the delay line. *)
Theorem fir_filter_delay_line input coef n history :
  (2 <= n)%nat → length history = (n - 1)%nat →
  fir_filter input coef n history =
  (foldl (λ acc k, acc ⊕ (history !!! k) ⊗ (coef !!! (n - 1 - k)%nat))
         ((history !!! 0%nat) ⊗ (coef !!! (n - 1)%nat)) (seq 1 (n - 2))
     ⊕ input ⊗ (coef !!! 0%nat),
   tail history ++ [input]).
Proof.
  intros Hn Hl. unfold fir_filter. set (o0 := _ ⊗ (coef !!! (n - 1)%nat)).
  set (step := λ acc k, acc ⊕ (history !!! k) ⊗ (coef !!! (n - 1 - k)%nat)).
  pose (P := λ k (st : F * list F),
    (k <= n - 2)%nat → st = (foldl step o0 (seq 1 k), take k (tail history) ++ drop k history)).
  assert (HP : P (n - 2)%nat (for_n (n - 2) (fir_tap coef n) (o0, history))).
  { apply (for_up_ind P (fir_tap coef n) 0 (n - 2)); [by intros _|].
    intros k st Hk IH Hk'. rewrite IH by lia. unfold fir_tap.
    assert (Htl : length (take k (tail history)) = k).
    { rewrite length_take. destruct history; simpl in *; lia. }
    assert (Hh : (take k (tail history) ++ drop k history) !!! (k + 1)%nat = history !!! (k + 1)%nat).
    { rewrite lookup_total_app_r, Htl by lia. rewrite lookup_total_drop. f_equal. lia. }
    rewrite Hh, seq_app, foldl_app. simpl foldl. unfold step at 2. f_equal.
    - do 2 f_equal; f_equal; lia.
    - rewrite insert_app_r_alt by lia. rewrite Htl, Nat.sub_diag.
      destruct (drop k history) as [|a l] eqn:Ed.
      { apply (f_equal length) in Ed. rewrite length_drop in Ed. simpl in Ed. lia. }
      assert (Hl2 : tail history !! k = Some (history !!! (k + 1)%nat)).
      { rewrite <- list_lookup_lookup_total_lt by lia. rewrite Nat.add_1_r.
        destruct history; [simpl in *; lia | done]. }
      rewrite Nat.add_1_r at 2. rewrite (take_S_r _ _ _ Hl2), <- app_assoc. simpl. do 2 f_equal.
      apply (f_equal tail) in Ed. simpl in Ed. rewrite <- Ed.
      clear. revert history. induction k as [|k IHk]; intros [|x hs]; try done.
      apply (IHk hs). }
  rewrite HP by lia. f_equal.
  destruct history as [|a hs]; cbn [length tail] in *; [lia|].
  rewrite (take_ge hs), insert_app_r_alt by lia.
  replace (n - 2 - length hs)%nat with 0%nat by lia.
  assert (Hd : length (drop (n - 2) (a :: hs)) = 1%nat) by (rewrite length_drop; simpl; lia).
  destruct (drop (n - 2) (a :: hs)) as [|b [|]]; simpl in Hd; (lia || done).
Qed.

(** A filter run over a stream of samples. *)
Fixpoint run_filter (f : F → list F → F * list F) (xs : list F) (h : list F) : list F * list F :=
  match xs with
  | [] => ([], h)
  | x :: xs => let '(y, h) := f x h in let '(ys, h) := run_filter f xs h in (y :: ys, h)
  end.
Lemma run_filter_app f xs xs' h :
  run_filter f (xs ++ xs') h =
  (let '(ys, h1) := run_filter f xs h in let '(ys', h2) := run_filter f xs' h1 in (ys ++ ys', h2)).
Proof.
  revert h. induction xs as [|x xs IH]; intros h; cbn [app run_filter]; [by destruct (run_filter f xs' h)|].
  destruct (f x h) as [y h1]. rewrite IH. destruct (run_filter f xs h1) as [ys h2]. by destruct (run_filter f xs' h2).
Qed.
Lemma run_filter_length f xs h : length (run_filter f xs h).1 = length xs.
Proof.
  revert h. induction xs as [|x xs IH]; intros h; cbn [run_filter]; [done|]. destruct (f x h) as [y h1]. specialize (IH h1).
  destruct (run_filter f xs h1) as [ys h2]. cbn [fst length] in *. by rewrite IH.
Qed.
End defs.

(** ** Exact arithmetic *)
Section exact.
Context {F : Type} `{RF : RingArith F}.
Add Ring F_ring : (ring_arith (F := F)).

(** a second order section computes its difference equation: from any
    history, of any three consecutive outputs the last is
    x2 + b1 x1 + b2 x0 - a1 y1 - a2 y0. *)
Theorem sos_difference_equation (a1 a2 b1 b2 x0 x1 x2 : F) (h : F * F) :
  let c := (a1, a2, b1, b2) in
  let '(y0, h) := sos_step c h x0 in
  let '(y1, h) := sos_step c h x1 in
  let '(y2, h) := sos_step c h x2 in
  y2 = x2 ⊕ b1 ⊗ x1 ⊕ b2 ⊗ x0 ⊖ a1 ⊗ y1 ⊖ a2 ⊗ y0.
Proof. destruct h as [h1 h2]. simpl. ring. Qed.

(** The states of the two forms: [w = h1 - h2], [u = h2]. *)
Definition to_biquad (h : F * F) : F * F := (fst h ⊖ snd h, snd h).

Lemma biquad_step_equiv c h x :
  biquad_step (biquad_coeffs c) (to_biquad h) x =
  let '(y, h') := sos_step c h x in (y, to_biquad h').
Proof.
  destruct c as [[[a1 a2] b1] b2], h as [h1 h2]. unfold to_biquad. simpl.
  f_equal; [ring|]. f_equal; ring.
Qed.

Lemma cascade_equiv cs hs x :
  cascade biquad_step (map biquad_coeffs cs) (map to_biquad hs) x =
  let '(y, hs') := cascade sos_step cs hs x in (y, map to_biquad hs').
Proof.
  revert hs x. induction cs as [|c cs IH]; intros [|h hs] x; try done.
  cbn [cascade map]. rewrite biquad_step_equiv. destruct (sos_step c h x) as [y h'].
  rewrite IH. by destruct (cascade sos_step cs hs y).
Qed.

Lemma cascade_length step (cs : list (F * F * F * F)) hs x :
  length hs = length cs → length (snd (cascade step cs hs x)) = length cs.
Proof.
  revert hs x. induction cs as [|c cs IH]; intros [|h hs] x Hl; try done.
  simpl in *. destruct (step c h x) as [y h'].
  specialize (IH hs y). destruct (cascade step cs hs y). simpl in *. lia.
Qed.

(** C39: the biquad form is equivalent to the direct form: with coefficients
    converted as the filter file reader converts them, and related histories
    (zero histories are), both filters produce the same outputs on every input
    stream and stay related (exact arithmetic). *)
Theorem biquad_equivalent g cs hs xs :
  length hs = length cs →
  ∃ hs', length hs' = length cs ∧
  let '(ys, h) := run_filter (λ x, iir_filter x (flat_coef g cs) (length cs)) xs (flat_hist hs) in
  h = flat_hist hs' ∧
  run_filter (λ x, iir_filter_biquad x (flat_coef g (map biquad_coeffs cs)) (length cs)) xs
    (flat_hist (map to_biquad hs)) = (ys, flat_hist (map to_biquad hs')).
Proof.
  revert hs. induction xs as [|x xs IH]; intros hs Hl; [by exists hs|].
  cbn [run_filter]. rewrite iir_filter_cascade by done.
  pose proof (iir_filter_biquad_cascade g (map biquad_coeffs cs) (map to_biquad hs) x) as Hb.
  rewrite !length_map in Hb. rewrite Hb by done. rewrite cascade_equiv.
  pose proof (cascade_length sos_step cs hs (x ⊗ g) Hl) as Hl'.
  destruct (cascade sos_step cs hs (x ⊗ g)) as [y hs1]. simpl in Hl'.
  destruct (IH hs1 Hl') as (hs' & Hlen & Hrun). exists hs'. split; [done|].
  destruct (run_filter _ xs (flat_hist hs1)) as [ys h]. destruct Hrun as [-> ->]. done.
Qed.
End exact.

Lemma iir_filter_cascade_witness :
  iir_filter (fofZ 3) (flat_coef (fofZ 2) [(fofZ 1, fofZ 0, fofZ 1, fofZ 1)]) 1
             (flat_hist [(fofZ 5, fofZ 7)]) =
  ((fofZ 13, [fofZ 1; fofZ 5]) : binary64 * list binary64).
Proof.
  transitivity (let '(y, hs') := cascade sos_step [(fofZ 1, fofZ 0, fofZ 1, fofZ 1)]
                   [(fofZ 5, fofZ 7)] (fofZ 3 ⊗ (fofZ 2 : binary64)) in (y, flat_hist hs')).
  - apply (iir_filter_cascade (fofZ 2) [(fofZ 1, fofZ 0, fofZ 1, fofZ 1)] [(fofZ 5, fofZ 7)]). done.
  - vm_compute. reflexivity.
Defined.

Lemma iir_filter_biquad_cascade_witness :
  iir_filter_biquad (fofZ 3) (flat_coef (fofZ 2) [(fofZ 1, fofZ 0, fofZ 1, fofZ 1)]) 1
             (flat_hist [(fofZ 5, fofZ 7)]) =
  ((fofZ 18, [fofZ 11; fofZ 12]) : binary64 * list binary64).
Proof.
  transitivity (let '(y, hs') := cascade biquad_step [(fofZ 1, fofZ 0, fofZ 1, fofZ 1)]
                   [(fofZ 5, fofZ 7)] (fofZ 3 ⊗ (fofZ 2 : binary64)) in (y, flat_hist hs')).
  - apply (iir_filter_biquad_cascade (fofZ 2) [(fofZ 1, fofZ 0, fofZ 1, fofZ 1)] [(fofZ 5, fofZ 7)]).
    done.
  - vm_compute. reflexivity.
Defined.

Lemma fir_filter_delay_line_witness :
  fir_filter (fofZ 3) [fofZ 10; fofZ 100; fofZ 1] 3 [fofZ 5; fofZ 7] =
  ((fofZ 735, [fofZ 7; fofZ 3]) : binary64 * list binary64).
Proof.
  rewrite (fir_filter_delay_line (fofZ 3 : binary64) [fofZ 10; fofZ 100; fofZ 1] 3
             [fofZ 5; fofZ 7]) by (simpl; lia).
  vm_compute. reflexivity.
Defined.

Lemma sos_difference_equation_witness :
  (let '(y0, h) := sos_step (1, 2, 3, 4) (5, 6) 1 in
   let '(y1, h) := sos_step (1, 2, 3, 4) h 2 in
   let '(y2, h) := sos_step (1, 2, 3, 4) h 3 in
   y2 = 3 ⊕ 3 ⊗ 2 ⊕ 4 ⊗ 1 ⊖ 1 ⊗ y1 ⊖ 2 ⊗ y0)%R.
Proof. apply (sos_difference_equation (F := R) 1 2 3 4 1 2 3 (5, 6))%R. Defined.

Lemma biquad_equivalent_witness :
  ∃ hs', length hs' = 1%nat ∧
  let '(ys, h) := run_filter (λ x, iir_filter x (flat_coef 2 [(1, 0, 1, 1)]) 1)%R
                    [1%R; 2%R] (flat_hist [(0, 0)])%R in
  h = flat_hist hs' ∧
  run_filter (λ x, iir_filter_biquad x (flat_coef 2 (map biquad_coeffs [(1, 0, 1, 1)])) 1)%R
    [1%R; 2%R] (flat_hist (map to_biquad [(0, 0)]))%R = (ys, flat_hist (map to_biquad hs')).
Proof. apply (biquad_equivalent (F := R) 2 [(1, 0, 1, 1)] [(0, 0)] [1; 2])%R. done. Defined.
End Iir.
