(* ===== verification/FilterModule.v ===== *)
(** * The standard filter module ([src/include/drv/fm10Gen.c], [src/include/fm10Gen.h])

    One filter module: ten switchable filter stages between an input stage
    (excitation, input and offset switches) and an output stage (gain, limiter,
    hold, output and decimation switches).

    - data: [FM_OP_IN], [FM_OP_DATA], [FM_OP_COEF], [FILT_MOD], the switch bits
      and the rate dependent constants;
    - [decode_switches], [input_stage], [filter_stages], [output_stage]: the
      four parts of [filterModuleD2], on the [module_view] of the one module
      the call works on;
    - [filterModuleD2], [filterModuleD]: the entry points on the whole arrays.

    The build modelled is the one without [FIR_FILTERS]. *)
From S2P Require Import Prelude CFloat Ramp Iir.
Import Ramp Iir.

Module FilterModule.

Definition FILTERS : nat := 10.
Definition MAX_COEFFS : nat := 41.
Definition MAX_HISTRY : nat := 20.

Definition OPSWITCH_INPUT_ENABLE : Z := 0x4.
Definition OPSWITCH_OFFSET_ENABLE : Z := 0x8.
Definition OPSWITCH_LIMITER_ENABLE : Z := 0x1000000.
Definition OPSWITCH_DECIMATE_ENABLE : Z := 0x2000000.
Definition OPSWITCH_OUTPUT_ENABLE : Z := 0x4000000.
Definition OPSWITCH_HOLD_ENABLE : Z := 0x8000000.
Definition OPSWITCH_LIMITER_RAMPING : Z := 0x20000000.
Definition OPSWITCH_GAIN_RAMPING : Z := 0x10000000.

Definition pow2_in : list Z :=
  [0x10; 0x40; 0x100; 0x400; 0x1000; 0x4000; 0x10000; 0x40000; 0x100000; 0x400000].
Definition pow2_out : list Z :=
  [0x20; 0x80; 0x200; 0x800; 0x2000; 0x8000; 0x20000; 0x80000; 0x200000; 0x800000].
Definition fltrConst : list Z :=
  [16; 64; 256; 1024; 4096; 16384; 65536; 262144; 1048576; 4194304; 0x4; 0x8;
   0x4000000; 0x1000000; 0x1; 0x2000000; 0x8000000].

(** [a & b] as a condition. *)
Definition has (a b : Z) : bool := truthy (Z.land a b).
(** [a &= ~b]. *)
Definition clear (a b : Z) : Z := Z.land a (not32 b).

(** The [SERVO...] macro the model is built with, and the constants it selects. *)
Inductive servo := SERVO2K | SERVO4K | SERVO16K | SERVO32K | SERVO64K | SERVO128K
                 | SERVO256K | SERVO512K | SERVO1024K.

Definition rate (s : servo) : Z :=
  match s with
  | SERVO2K => 2048 | SERVO4K => 4096 | SERVO16K => 16384 | SERVO32K => 32768
  | SERVO64K => 2 * 32768 | SERVO128K => 4 * 32768 | SERVO256K => 8 * 32768
  | SERVO512K => 16 * 32768 | SERVO1024K => 32 * 32768
  end.

Definition FE_RATE (s : servo) : Z :=
  match s with
  | SERVO2K => 2048 | SERVO4K => 4096 | SERVO16K => 16384 | SERVO32K => 32768
  | SERVO64K => 65536 | SERVO128K => 131072 | SERVO256K => 262144
  | SERVO512K => 524288 | SERVO1024K => 1048576
  end.

(** [filtCtrlBitConvert]: the switch register in the 17-bit control format. *)
Definition filtCtrlBitConvert (v : Z) : Z :=
  for_n 17 (λ i val, if has v (fltrConst !!! i) then Z.lor val (Z.shiftl 1 (Z.of_nat i)) else val) 0.

Section defs.
Context {F : Type} `{FloatOps F}.

Definition sixteenKAvgCoeff : list F :=
  [flit 19084759 (-19); flit (-199708675982420) (-14); flit 99709029700517 (-14);
   flit 200000005830747 (-14); flit 100000000739582 (-14); flit (-199878510620232) (-14);
   flit 99879373895648 (-14); flit 199999994169253 (-14); flit 99999999260419 (-14)].
Definition twoKAvgCoeff : list F :=
  [flit 7705446 (-15); flit (-197673337437048) (-14); flit 97695747524900 (-14);
   flit 200000006227141 (-14); flit 100000000659235 (-14); flit (-198984125831661) (-14);
   flit 99039139954634 (-14); flit 199999993772859 (-14); flit 99999999340765 (-14)].
Definition avgCoeff (s : servo) : list F :=
  match s with SERVO2K | SERVO4K => twoKAvgCoeff | _ => sixteenKAvgCoeff end.

(** [struct FM_OP_IN]: the operator inputs of a module; [offset], [outgain],
    [limiter] and [gain_ramp_time] hold C [float]s. *)
Record FM_OP_IN := mkIn {
  opSwitchE : Z;
  opSwitchP : Z;
  rset : Z;
  offset : F;
  outgain : F;
  limiter : F;
  rmpcmp : list Z;
  timeout : list Z;
  cnt : list Z;
  gain_ramp_time : F;
  mask : Z;
  control : Z;
  swReq : Z;
  swMask : Z
}.

(** [struct FM_OP_DATA]: the signals of a module. *)
Record FM_OP_DATA := mkData {
  filterInput : F;
  exciteInput : F;
  inputTestpoint : F;
  testpoint : F;
  output : F;
  output16Hz : F;
  swStatus : Z
}.

(** [struct FM_OP_COEF]: coefficients and histories of a module. *)
Record FM_OP_COEF := mkCoef {
  filtCoeff : list (list F);
  filtHist : list (list F);
  filtSections : list Z;
  sType : list Z;
  decHist : list F;
  filterType : list Z;
  biquad : Z
}.

(** [struct FILT_MOD]: all modules of a model. *)
Record FILT_MOD := mkMod {
  inputs : list FM_OP_IN;
  data : list FM_OP_DATA;
  cycle : Z;
  coef_load_error : Z
}.

Definition set_opSwitchE (v : Z) (r : FM_OP_IN) : FM_OP_IN :=
  mkIn v (opSwitchP r) (rset r) (offset r) (outgain r) (limiter r) (rmpcmp r) (timeout r)
    (cnt r) (gain_ramp_time r) (mask r) (control r) (swReq r) (swMask r).
Definition set_opSwitchP (v : Z) (r : FM_OP_IN) : FM_OP_IN :=
  mkIn (opSwitchE r) v (rset r) (offset r) (outgain r) (limiter r) (rmpcmp r) (timeout r)
    (cnt r) (gain_ramp_time r) (mask r) (control r) (swReq r) (swMask r).
Definition set_rset (v : Z) (r : FM_OP_IN) : FM_OP_IN :=
  mkIn (opSwitchE r) (opSwitchP r) v (offset r) (outgain r) (limiter r) (rmpcmp r)
    (timeout r) (cnt r) (gain_ramp_time r) (mask r) (control r) (swReq r) (swMask r).
Definition set_offset (v : F) (r : FM_OP_IN) : FM_OP_IN :=
  mkIn (opSwitchE r) (opSwitchP r) (rset r) v (outgain r) (limiter r) (rmpcmp r) (timeout r)
    (cnt r) (gain_ramp_time r) (mask r) (control r) (swReq r) (swMask r).
Definition set_outgain (v : F) (r : FM_OP_IN) : FM_OP_IN :=
  mkIn (opSwitchE r) (opSwitchP r) (rset r) (offset r) v (limiter r) (rmpcmp r) (timeout r)
    (cnt r) (gain_ramp_time r) (mask r) (control r) (swReq r) (swMask r).
Definition set_rmpcmp (v : list Z) (r : FM_OP_IN) : FM_OP_IN :=
  mkIn (opSwitchE r) (opSwitchP r) (rset r) (offset r) (outgain r) (limiter r) v (timeout r)
    (cnt r) (gain_ramp_time r) (mask r) (control r) (swReq r) (swMask r).
Definition set_timeout (v : list Z) (r : FM_OP_IN) : FM_OP_IN :=
  mkIn (opSwitchE r) (opSwitchP r) (rset r) (offset r) (outgain r) (limiter r) (rmpcmp r) v
    (cnt r) (gain_ramp_time r) (mask r) (control r) (swReq r) (swMask r).
Definition set_cnt (v : list Z) (r : FM_OP_IN) : FM_OP_IN :=
  mkIn (opSwitchE r) (opSwitchP r) (rset r) (offset r) (outgain r) (limiter r) (rmpcmp r)
    (timeout r) v (gain_ramp_time r) (mask r) (control r) (swReq r) (swMask r).
Definition set_gain_ramp_time (v : F) (r : FM_OP_IN) : FM_OP_IN :=
  mkIn (opSwitchE r) (opSwitchP r) (rset r) (offset r) (outgain r) (limiter r) (rmpcmp r)
    (timeout r) (cnt r) v (mask r) (control r) (swReq r) (swMask r).
Definition set_mask (v : Z) (r : FM_OP_IN) : FM_OP_IN :=
  mkIn (opSwitchE r) (opSwitchP r) (rset r) (offset r) (outgain r) (limiter r) (rmpcmp r)
    (timeout r) (cnt r) (gain_ramp_time r) v (control r) (swReq r) (swMask r).
Definition set_control (v : Z) (r : FM_OP_IN) : FM_OP_IN :=
  mkIn (opSwitchE r) (opSwitchP r) (rset r) (offset r) (outgain r) (limiter r) (rmpcmp r)
    (timeout r) (cnt r) (gain_ramp_time r) (mask r) v (swReq r) (swMask r).

Definition set_filterInput (v : F) (r : FM_OP_DATA) : FM_OP_DATA :=
  mkData v (exciteInput r) (inputTestpoint r) (testpoint r) (output r) (output16Hz r)
    (swStatus r).
Definition set_inputTestpoint (v : F) (r : FM_OP_DATA) : FM_OP_DATA :=
  mkData (filterInput r) (exciteInput r) v (testpoint r) (output r) (output16Hz r)
    (swStatus r).
Definition set_testpoint (v : F) (r : FM_OP_DATA) : FM_OP_DATA :=
  mkData (filterInput r) (exciteInput r) (inputTestpoint r) v (output r) (output16Hz r)
    (swStatus r).
Definition set_output (v : F) (r : FM_OP_DATA) : FM_OP_DATA :=
  mkData (filterInput r) (exciteInput r) (inputTestpoint r) (testpoint r) v (output16Hz r)
    (swStatus r).
Definition set_output16Hz (v : F) (r : FM_OP_DATA) : FM_OP_DATA :=
  mkData (filterInput r) (exciteInput r) (inputTestpoint r) (testpoint r) (output r) v
    (swStatus r).
Definition set_swStatus (v : Z) (r : FM_OP_DATA) : FM_OP_DATA :=
  mkData (filterInput r) (exciteInput r) (inputTestpoint r) (testpoint r) (output r)
    (output16Hz r) v.

Definition set_filtCoeff (v : list (list F)) (r : FM_OP_COEF) : FM_OP_COEF :=
  mkCoef v (filtHist r) (filtSections r) (sType r) (decHist r) (filterType r) (biquad r).
Definition set_filtHist (v : list (list F)) (r : FM_OP_COEF) : FM_OP_COEF :=
  mkCoef (filtCoeff r) v (filtSections r) (sType r) (decHist r) (filterType r) (biquad r).
Definition set_filtSections (v : list Z) (r : FM_OP_COEF) : FM_OP_COEF :=
  mkCoef (filtCoeff r) (filtHist r) v (sType r) (decHist r) (filterType r) (biquad r).
Definition set_sType (v : list Z) (r : FM_OP_COEF) : FM_OP_COEF :=
  mkCoef (filtCoeff r) (filtHist r) (filtSections r) v (decHist r) (filterType r) (biquad r).
Definition set_decHist (v : list F) (r : FM_OP_COEF) : FM_OP_COEF :=
  mkCoef (filtCoeff r) (filtHist r) (filtSections r) (sType r) v (filterType r) (biquad r).
Definition set_filterType (v : list Z) (r : FM_OP_COEF) : FM_OP_COEF :=
  mkCoef (filtCoeff r) (filtHist r) (filtSections r) (sType r) (decHist r) v (biquad r).
Definition set_biquad (v : Z) (r : FM_OP_COEF) : FM_OP_COEF :=
  mkCoef (filtCoeff r) (filtHist r) (filtSections r) (sType r) (decHist r) (filterType r) v.

Definition set_inputs (v : list FM_OP_IN) (r : FILT_MOD) : FILT_MOD :=
  mkMod v (data r) (cycle r) (coef_load_error r).
Definition set_data (v : list FM_OP_DATA) (r : FILT_MOD) : FILT_MOD :=
  mkMod (inputs r) v (cycle r) (coef_load_error r).
Definition set_coef_load_error (v : Z) (r : FILT_MOD) : FILT_MOD :=
  mkMod (inputs r) (data r) (cycle r) v.

(** What a call works on: the entries of module [modNum] in the arrays, and its
    offset and gain ramps. *)
Record module_view := mkView {
  fin : FM_OP_IN;
  fdata : FM_OP_DATA;
  fcoef : FM_OP_COEF;
  foffset : RampParamState F;
  fgain : RampParamState F
}.

Definition set_fin (v : FM_OP_IN) (r : module_view) : module_view :=
  mkView v (fdata r) (fcoef r) (foffset r) (fgain r).
Definition set_fdata (v : FM_OP_DATA) (r : module_view) : module_view :=
  mkView (fin r) v (fcoef r) (foffset r) (fgain r).
Definition set_fcoef (v : FM_OP_COEF) (r : module_view) : module_view :=
  mkView (fin r) (fdata r) v (foffset r) (fgain r).
Definition set_foffset (v : RampParamState F) (r : module_view) : module_view :=
  mkView (fin r) (fdata r) (fcoef r) v (fgain r).
Definition set_fgain (v : RampParamState F) (r : module_view) : module_view :=
  mkView (fin r) (fdata r) (fcoef r) (foffset r) v.

(** *** Control inputs (lines 919-975)

    [switch_bits] is the loop over the 13 control bits; [c] is [fltrCtrlVal],
    shifted once per round, [oldP] the shifted readback register. *)
Definition switch_bit (oldP msk : Z) (ix : nat) (st : Z * Z * Z) : Z * Z * Z :=
  let '(fltrSwitch, epicsExclude, c) := st in
  let k := fltrConst !!! ix in
  let '(fltrSwitch, epicsExclude) :=
    if has msk (Z.shiftl 1 (Z.of_nat ix)) then
      let fltrSwitch := if has oldP k then Z.lor fltrSwitch k else fltrSwitch in
      let fltrSwitch := if Z.rem c 2 =? 1 then Z.lor fltrSwitch k else clear fltrSwitch k in
      (fltrSwitch, Z.lor epicsExclude k)
    else (fltrSwitch, epicsExclude) in
  (fltrSwitch, epicsExclude, Z.shiftr c 1).

Definition switch_bits (oldP msk ctrl : Z) : Z * Z * Z :=
  for_n 13 (switch_bit oldP msk) (0, 0, ctrl).

(** Returns the module inputs and the local copy [opSwitchE]. *)
Definition decode_switches (i : FM_OP_IN) (fltrCtrlVal msk : Z) (offset_in gain_in ramp_in : F)
  : FM_OP_IN * Z :=
  let oldP := Z.shiftr (opSwitchP i) 1 in
  let fltrCtrlVal := Z.land fltrCtrlVal 0xffff in
  if negb (msk =? 0) && (0 <=? fltrCtrlVal) then
    let '(fltrSwitch, epicsExclude, i) :=
      if 0 <? msk then
        let '(fltrSwitch, epicsExclude, _) := switch_bits oldP msk fltrCtrlVal in
        let epicsExclude := Z.lor epicsExclude (u32 (Z.shiftl (Z.land msk 0xe000) 16)) in
        let i := if has msk 0x2000 then set_offset (fsingle offset_in) i else i in
        let i := if has msk 0x4000 then set_outgain (fsingle gain_in) i else i in
        let i := if has msk 0x8000 then set_gain_ramp_time (fsingle ramp_in) i else i in
        (fltrSwitch, epicsExclude, i)
      else (0, 0, i) in
    let i := set_control fltrSwitch (set_mask epicsExclude i) in
    let e := Z.lor (clear (opSwitchE i) epicsExclude) fltrSwitch in
    (set_opSwitchE e i, e)
  else
    let i := set_control 0 (set_mask 0 i) in
    (i, opSwitchE i).

(** *** Input stage (lines 978-1020) *)
Definition request_offset (sv : servo) (r : F) (v : module_view) : module_view :=
  if r ≠ᶠ req (foffset v) then
    let v := set_foffset (RampParamLoad (foffset v) r (gain_ramp_time (fin v)) (rate sv)) v in
    set_fin (set_opSwitchP (Z.lor (opSwitchP (fin v)) OPSWITCH_LIMITER_RAMPING) (fin v)) v
  else v.

(** Returns [fmInput] and the new view. *)
Definition input_stage (sv : servo) (filterIn : F) (v : module_view) : F * module_view :=
  let fmInput := f0 in
  let v := set_fdata (set_filterInput (filterIn ⊕ fmInput) (fdata v)) v in
  let fmInput := fmInput ⊕ exciteInput (fdata v) in
  let fmInput :=
    if has (opSwitchE (fin v)) OPSWITCH_INPUT_ENABLE then fmInput ⊕ filterIn else fmInput in
  let v := set_fdata (set_inputTestpoint fmInput (fdata v)) v in
  let v :=
    if has (opSwitchE (fin v)) OPSWITCH_OFFSET_ENABLE
    then request_offset sv (offset (fin v)) v
    else request_offset sv (flit 0 0) v in
  let v :=
    if isRamping (foffset v) then v
    else set_fin (set_opSwitchP (clear (opSwitchP (fin v)) OPSWITCH_LIMITER_RAMPING) (fin v)) v in
  let '(o, r) := RampParamUpdate (foffset v) in
  (fmInput ⊕ o, set_foffset r v).

(** *** One filter stage (lines 1025-1219)

    [switch_filter] is the [switch] on the output type while a switching
    request is pending: it returns the signal, [sw_out] and the counter. *)
Definition switch_filter (typ sw sw_out ramp timeout kk : Z) (fmInput filtData : F) : F * Z * Z :=
  if typ =? 1 then
    (if truthy sw then filtData else fmInput, sw, kk)
  else if typ =? 2 then
    if kk =? ramp then
      (if truthy sw then filtData else fmInput, sw, 0)
    else if truthy kk then
      let t := fofZ kk ⊘ fofZ ramp in
      (if truthy sw then (flit 1 0 ⊖ t) ⊗ fmInput ⊕ t ⊗ filtData
       else t ⊗ fmInput ⊕ (flit 1 0 ⊖ t) ⊗ filtData, sw_out, kk + 1)
    else
      (if truthy sw then fmInput else filtData, sw_out, kk + 1)
  else if (typ =? 3) || (typ =? 4) then
    let compare :=
      fsingle (if typ =? 3 then fmInput ⊖ filtData
               else if truthy sw_out then filtData else fmInput) in
    let compare := if compare <ᶠ flit 0 0 then fneg compare else compare in
    let kk := kk + 1 in
    if (timeout <=? kk) || (compare ≤ᶠ fsingle (fofZ ramp)) then
      (if truthy sw then filtData else fmInput, sw, 0)
    else
      (if truthy sw_out then filtData else fmInput, sw_out, kk)
  else (fofZ 777, sw_out, kk).

(** The filter calculation of stage [ii]: the filtered sample and the coefficients
    with the stage's new history. *)
Definition calc_filter (c : FM_OP_COEF) (ii : nat) (input : F) : F * FM_OP_COEF :=
  let f := if truthy (biquad c) then iir_filter_biquad else iir_filter in
  let '(y, h) := f input (filtCoeff c !!! ii) (Z.to_nat (filtSections c !!! ii))
                   (filtHist c !!! ii) in
  (y, set_filtHist (<[ii := h]> (filtHist c)) c).

(** [opSwitchE] and [oldP] are the local copies taken at entry. *)
Definition filter_stage (opSwitchE oldP : Z) (ii : nat) (st : F * module_view) : F * module_view :=
  let '(fmInput, v) := st in
  if filtSections (fcoef v) !!! ii =? 0 then st
  else
    let sw := Z.land opSwitchE (pow2_in !!! ii) in
    let sw_out := Z.land oldP (pow2_in !!! ii) in
    let sTyp := sType (fcoef v) !!! ii in
    let sw_in := (sTyp <? 20) || truthy sw_out || ((sTyp =? 22) && truthy sw) in
    let '(filtData, c) := calc_filter (fcoef v) ii (if sw_in then fmInput else f0) in
    let v := set_fcoef c v in
    if sw =? sw_out then (if truthy sw then filtData else fmInput, v)
    else
      let i := fin v in
      let '(fmInput, sw_out, kk) :=
        switch_filter (Z.rem sTyp 10) sw sw_out (rmpcmp i !!! ii) (timeout i !!! ii)
                      (cnt i !!! ii) fmInput filtData in
      let v := set_fin (set_cnt (<[ii := kk]> (cnt i)) i) v in
      let v :=
        if sw =? sw_out then
          let v := if truthy sw then v
                   else set_fcoef (set_filtHist (<[ii := replicate MAX_HISTRY (flit 0 0)]>
                                                   (filtHist (fcoef v))) (fcoef v)) v in
          let p := opSwitchP (fin v) in
          let p := if truthy sw_out then Z.lor p (pow2_out !!! ii)
                   else clear p (pow2_out !!! ii) in
          set_fin (set_opSwitchP p (fin v)) v
        else v in
      (fmInput, v).

Definition filter_stages (opSwitchE oldP : Z) (st : F * module_view) : F * module_view :=
  for_n FILTERS (filter_stage opSwitchE oldP) st.

(** *** Output stage (lines 1222-1303) *)
Definition request_gain (sv : servo) (v : module_view) : module_view :=
  let v :=
    if outgain (fin v) ≠ᶠ req (fgain v) then
      let v := set_fgain (RampParamLoad (fgain v) (outgain (fin v)) (gain_ramp_time (fin v))
                                        (rate sv)) v in
      set_fin (set_opSwitchP (Z.lor (opSwitchP (fin v)) OPSWITCH_GAIN_RAMPING) (fin v)) v
    else v in
  if isRamping (fgain v) then v
  else set_fin (set_opSwitchP (clear (opSwitchP (fin v)) OPSWITCH_GAIN_RAMPING) (fin v)) v.

Definition limit_output (opSwitchE : Z) (lim out : F) : F :=
  let out := if out >ᶠ flit 1 20 then flit 1 20 else out in
  if has opSwitchE OPSWITCH_LIMITER_ENABLE then
    if out >ᶠ lim then lim
    else if out <ᶠ fneg lim then fneg lim
    else out
  else out.

Definition switch_status (opSwitchE oP : Z) : Z :=
  let swstat := filtCtrlBitConvert opSwitchE in
  let swstat := if has oP OPSWITCH_LIMITER_RAMPING then Z.lor swstat OPSWITCH_LIMITER_RAMPING
                else clear swstat OPSWITCH_LIMITER_RAMPING in
  if has oP OPSWITCH_GAIN_RAMPING then Z.lor swstat OPSWITCH_GAIN_RAMPING
  else clear swstat OPSWITCH_GAIN_RAMPING.

(** Hold, output enable and decimation: the value returned and the new view. *)
Definition route_output (sv : servo) (opSwitchE : Z) (out : F) (v : module_view) : F * module_view :=
  if has opSwitchE OPSWITCH_HOLD_ENABLE then (output (fdata v), v)
  else if has opSwitchE OPSWITCH_OUTPUT_ENABLE then
    let v := set_fdata (set_output out (fdata v)) v in
    if has opSwitchE OPSWITCH_DECIMATE_ENABLE then
      let '(avg, h) := iir_filter out (avgCoeff sv) 2 (decHist (fcoef v)) in
      let v := set_fcoef (set_decHist h (fcoef v)) v in
      (out, set_fdata (set_output16Hz (fsingle avg) (fdata v)) v)
    else (out, set_fdata (set_output16Hz out (fdata v)) v)
  else (flit 0 0, set_fdata (set_output16Hz f0 (set_output f0 (fdata v))) v).

Definition output_stage (sv : servo) (opSwitchE : Z) (st : F * module_view) : F * module_view :=
  let '(fmInput, v) := st in
  let v := request_gain sv v in
  let '(g, r) := RampParamUpdate (fgain v) in
  let v := set_fgain r v in
  let out := limit_output opSwitchE (limiter (fin v)) (fmInput ⊗ g) in
  let v := set_fdata (set_testpoint out (fdata v)) v in
  let v := set_fdata (set_swStatus (switch_status opSwitchE (opSwitchP (fin v))) (fdata v)) v in
  route_output sv opSwitchE out v.

(** The whole of [filterModuleD2] on one module's view. *)
Definition module_step (sv : servo) (filterIn : F) (fltrCtrlVal msk : Z)
    (offset_in gain_in ramp_in : F) (v : module_view) : F * module_view :=
  let oldP := Z.shiftr (opSwitchP (fin v)) 1 in
  let '(i, e) := decode_switches (fin v) fltrCtrlVal msk offset_in gain_in ramp_in in
  let st := input_stage sv filterIn (set_fin i v) in
  output_stage sv e (filter_stages e oldP st).

(** *** The entry points on the arrays

    [offset_ramp] and [gain_ramp] are indexed by module and system id; a
    filter module call uses system id 0. *)
#[global] Instance FM_OP_IN_inhabited : Inhabited FM_OP_IN :=
  populate (mkIn 0 0 0 f0 f0 f0 [] [] [] f0 0 0 0 0).
#[global] Instance FM_OP_DATA_inhabited : Inhabited FM_OP_DATA :=
  populate (mkData f0 f0 f0 f0 f0 f0 0).
#[global] Instance FM_OP_COEF_inhabited : Inhabited FM_OP_COEF :=
  populate (mkCoef [] [] [] [] [] [] 0).
#[global] Instance RampParamState_inhabited : Inhabited (RampParamState F) :=
  populate (RampParamInit f0 0).

Record FMState := mkFM {
  pFilt : FILT_MOD;
  pC : list FM_OP_COEF;
  offset_ramp : list (list (RampParamState F));
  gain_ramp : list (list (RampParamState F))
}.

Definition view_of (m : nat) (s : FMState) : module_view :=
  mkView (inputs (pFilt s) !!! m) (data (pFilt s) !!! m) (pC s !!! m)
         ((offset_ramp s !!! m) !!! 0%nat) ((gain_ramp s !!! m) !!! 0%nat).

Definition put_view (m : nat) (v : module_view) (s : FMState) : FMState :=
  mkFM (set_data (<[m := fdata v]> (data (pFilt s)))
          (set_inputs (<[m := fin v]> (inputs (pFilt s))) (pFilt s)))
       (<[m := fcoef v]> (pC s))
       (alter (λ l, <[0%nat := foffset v]> l) m (offset_ramp s))
       (alter (λ l, <[0%nat := fgain v]> l) m (gain_ramp s)).

Definition filterModuleD2 (sv : servo) (s : FMState) (modNum : nat) (filterIn : F)
    (fltrCtrlVal msk : Z) (offset_in gain_in ramp_in : F) : F * FMState :=
  let '(y, v) := module_step sv filterIn fltrCtrlVal msk offset_in gain_in ramp_in (view_of modNum s) in
  (y, put_view modNum v s).

Definition filterModuleD (sv : servo) (s : FMState) (modNum : nat) (filterIn : F)
    (fltrCtrlVal msk : Z) : F * FMState :=
  filterModuleD2 sv s modNum filterIn (Z.land fltrCtrlVal 0x3ff) (Z.land msk 0x3ff)
    (flit 0 0) (flit 0 0) (flit 0 0).

End defs.
Arguments FM_OP_IN : clear implicits.
Arguments FM_OP_DATA : clear implicits.
Arguments FM_OP_COEF : clear implicits.
Arguments FILT_MOD : clear implicits.
Arguments module_view : clear implicits.
Arguments FMState : clear implicits.

(** ** Control bits *)

(** The register bit each control bit drives. *)
Definition ctrl_pos : list Z := [4; 6; 8; 10; 12; 14; 16; 18; 20; 22; 2; 3; 26].

Lemma ctrl_pos_const ix : (ix < 13)%nat → fltrConst !!! ix = 2 ^ (ctrl_pos !!! ix) ∧ 0 <= (ctrl_pos !!! ix) < 32.
Proof. intros Hix. do 13 (destruct ix as [|ix]; [done|]). lia. Qed.

Lemma ctrl_pos_inj i j :
  (i < 13)%nat → (j < 13)%nat → ctrl_pos !!! i = ctrl_pos !!! j → i = j.
Proof.
  intros Hi Hj.
  do 13 (destruct i as [|i]; [do 13 (destruct j as [|j]; [done|]); lia|]). lia.
Qed.

Lemma has_pow2 a k : 0 <= k → has a (2 ^ k) = Z.testbit a k.
Proof. apply truthy_land_pow2. Qed.

Lemma not32_spec b i : Z.testbit (not32 b) i = (0 <=? i) && (i <? 32) && negb (Z.testbit b i).
Proof.
  destruct (Z.leb_spec 0 i); [|by rewrite Z.testbit_neg_r].
  unfold not32. change (2 ^ 32 - 1) with (Z.ones 32).
  rewrite Z.lxor_spec, wrap_spec, Z.testbit_ones_nonneg by lia.
  destruct (Z.ltb_spec i 32); simpl; [by destruct (Z.testbit b i) | done].
Qed.

Lemma clear_spec a b i :
  Z.testbit (clear a b) i = Z.testbit a i && ((0 <=? i) && (i <? 32) && negb (Z.testbit b i)).
Proof. unfold clear. by rewrite Z.land_spec, not32_spec. Qed.

Lemma rem2_testbit c : 0 <= c → (Z.rem c 2 =? 1) = Z.testbit c 0.
Proof.
  intros Hc. rewrite Z.rem_mod_nonneg, Z.bit0_odd, Zmod_odd by lia. by destruct (Z.odd c).
Qed.

(** After [n] rounds: the low [n] control bits under the mask, at their places. *)
Lemma switch_bits_inv oldP msk ctrl n :
  0 <= ctrl → (n <= 13)%nat →
  let '(sw, ex, c) := for_n n (switch_bit oldP msk) (0, 0, ctrl) in
  c = Z.shiftr ctrl (Z.of_nat n) ∧
  (∀ ix, (ix < 13)%nat →
     Z.testbit sw (ctrl_pos !!! ix) =
       bool_decide (ix < n)%nat && Z.testbit msk (Z.of_nat ix) && Z.testbit ctrl (Z.of_nat ix) ∧
     Z.testbit ex (ctrl_pos !!! ix) = bool_decide (ix < n)%nat && Z.testbit msk (Z.of_nat ix)) ∧
  (∀ i, (∀ ix, (ix < 13)%nat → ctrl_pos !!! ix ≠ i) → Z.testbit sw i = false ∧ Z.testbit ex i = false).
Proof.
  intros Hc. induction n as [|n IH]; intros Hn.
  { simpl. repeat split; intros; by rewrite Z.testbit_0_l. }
  rewrite for_up_S. simpl (0 + n)%nat.
  destruct (for_n n (switch_bit oldP msk) (0, 0, ctrl)) as [[sw ex] c].
  destruct IH as (-> & Hpos & Hoth); [lia|]. unfold switch_bit.
  destruct (ctrl_pos_const n) as [Ek Hk]; [lia|]. rewrite Ek.
  rewrite Z.shiftl_1_l, !has_pow2 by lia.
  rewrite rem2_testbit by (by apply Z.shiftr_nonneg).
  rewrite Z.shiftr_spec by lia. replace (0 + Z.of_nat n) with (Z.of_nat n) by lia.
  assert (Hshift : Z.shiftr (Z.shiftr ctrl (Z.of_nat n)) 1 = Z.shiftr ctrl (Z.of_nat (S n))).
  { rewrite Z.shiftr_shiftr by lia. f_equal. lia. }
  assert (Hdec : ∀ ix, (ix < 13)%nat →
            bool_decide (ix < S n)%nat = bool_decide (ix < n)%nat || (ctrl_pos !!! n =? ctrl_pos !!! ix)).
  { intros ix Hix. destruct (Z.eqb_spec (ctrl_pos !!! n) (ctrl_pos !!! ix)) as [E|E].
    - apply ctrl_pos_inj in E as ->; [|lia..]. rewrite orb_true_r.
      apply bool_decide_true. lia.
    - rewrite orb_false_r. apply bool_decide_ext. assert (ix ≠ n) by congruence. lia. }
  set (sw0 := if Z.testbit oldP (ctrl_pos !!! n) then Z.lor sw (2 ^ (ctrl_pos !!! n)) else sw).
  assert (Hsw0 : ∀ i, i ≠ ctrl_pos !!! n → Z.testbit sw0 i = Z.testbit sw i).
  { intros i Hi. unfold sw0. destruct (Z.testbit oldP _); [|done].
    rewrite testbit_lor_pow2 by lia. destruct (Z.eqb_spec (ctrl_pos !!! n) i); [congruence|].
    by rewrite orb_false_r. }
  destruct (Z.testbit msk (Z.of_nat n)) eqn:Em; (split; [done|]; split).
  - intros ix Hix. rewrite Hdec by done. destruct (Hpos ix Hix) as [Hs He].
    rewrite testbit_lor_pow2, He by lia.
    destruct (Z.eqb_spec (ctrl_pos !!! n) (ctrl_pos !!! ix)) as [E|E].
    + apply ctrl_pos_inj in E as <-; [|lia..]. rewrite Em, !orb_true_r. split; [|done].
      destruct (Z.testbit ctrl (Z.of_nat n)); simpl.
      * by rewrite testbit_lor_pow2, Z.eqb_refl, orb_true_r by lia.
      * by rewrite clear_spec, Z.pow2_bits_true, !andb_false_r by lia.
    + rewrite !orb_false_r. split; [|done]. rewrite <- Hs.
      destruct (Z.testbit ctrl (Z.of_nat n)).
      * rewrite testbit_lor_pow2, Hsw0 by (lia || congruence).
        destruct (Z.eqb_spec (ctrl_pos !!! n) (ctrl_pos !!! ix)); [done|]. by rewrite orb_false_r.
      * rewrite clear_spec, Hsw0, Z.pow2_bits_false by congruence.
        destruct (ctrl_pos_const ix Hix) as [_ Hr].
        replace ((0 <=? ctrl_pos !!! ix) && (ctrl_pos !!! ix <? 32)) with true by lia.
        by rewrite andb_true_r.
  - intros i Hi. destruct (Hoth i Hi) as [Hs He]. assert (ctrl_pos !!! n ≠ i) by (apply Hi; lia).
    rewrite testbit_lor_pow2, He by lia. destruct (Z.eqb_spec (ctrl_pos !!! n) i); [done|].
    split; [|done]. destruct (Z.testbit ctrl (Z.of_nat n)).
    + rewrite testbit_lor_pow2, Hsw0, Hs by (lia || congruence).
      by destruct (Z.eqb_spec (ctrl_pos !!! n) i).
    + by rewrite clear_spec, Hsw0, Hs by congruence.
  - intros ix Hix. rewrite Hdec by done. destruct (Hpos ix Hix) as [-> ->].
    destruct (Z.eqb_spec (ctrl_pos !!! n) (ctrl_pos !!! ix)) as [E|E].
    + apply ctrl_pos_inj in E as <-; [|lia..]. rewrite Em. by rewrite !andb_false_r.
    + by rewrite !orb_false_r.
  - done.
Qed.
End FilterModule.
