(* ===== verification/FilterProps.v ===== *)
(** * Properties of the filter module ([FilterModule.v])

    - the control mask table of the front end's switch inputs;
    - the switching protocol of a stage as a step relation, the refinement of
      it by [filterModuleD2], and the number of samples a request takes;
    - a module without pending requests as the cascade of its engaged stages;
    - the limiter, the output switches, and what a call leaves alone. *)
From Stdlib Require Import SpecFloat.
From S2P Require Import Prelude CFloat Ramp Iir FilterModule.
Import Ramp Iir FilterModule.

Module FilterProps.

(** ** Helpers: the request and readback bits of a stage *)
Definition req_bit (ii : nat) : Z := 4 + 2 * Z.of_nat ii.
Definition ack_bit (ii : nat) : Z := 5 + 2 * Z.of_nat ii.

Lemma pow2_in_bit ii : (ii < FILTERS)%nat → pow2_in !!! ii = 2 ^ req_bit ii.
Proof. unfold FILTERS. intros. do 10 (destruct ii as [|ii]; [done|]). lia. Qed.
Lemma pow2_out_bit ii : (ii < FILTERS)%nat → pow2_out !!! ii = 2 ^ ack_bit ii.
Proof. unfold FILTERS. intros. do 10 (destruct ii as [|ii]; [done|]). lia. Qed.

Lemma land_pow2_eqb a b k :
  0 <= k → (Z.land a (2 ^ k) =? Z.land b (2 ^ k)) = eqb (Z.testbit a k) (Z.testbit b k).
Proof.
  intros Hk. destruct (Z.eqb_spec (Z.land a (2 ^ k)) (Z.land b (2 ^ k))) as [E|E].
  - apply (f_equal (λ z, Z.testbit z k)) in E.
    rewrite !Z.land_spec, Z.pow2_bits_true, !andb_true_r in E by done. rewrite E. by destruct (Z.testbit b k).
  - symmetry. apply eqb_false_iff. intros Eb. apply E. apply Z.bits_inj'. intros i Hi.
    rewrite !Z.land_spec, Z.pow2_bits_eqb by done. destruct (Z.eqb_spec k i) as [<-|]; [by rewrite Eb|].
    by rewrite !andb_false_r.
Qed.

Lemma testbit_set a k i : 0 <= k → Z.testbit (Z.lor a (2 ^ k)) i = (if k =? i then true else Z.testbit a i).
Proof.
  intros. rewrite testbit_lor_pow2 by done. destruct (k =? i); [by rewrite orb_true_r|by rewrite orb_false_r].
Qed.

Lemma testbit_below w a b : 0 <= w → 0 <= a < 2 ^ w → w <= b → Z.testbit a b = false.
Proof.
  intros Hw Ha Hb. rewrite <- (wrap_small w a), wrap_spec by done. by replace (b <? w) with false by lia.
Qed.

Lemma testbit_clear a k i :
  0 <= k → 0 <= i < 32 → Z.testbit (clear a (2 ^ k)) i = (if k =? i then false else Z.testbit a i).
Proof.
  intros Hk Hi. rewrite clear_spec, Z.pow2_bits_eqb by done.
  destruct (Z.eqb_spec k i); simpl; rewrite ?andb_false_r; [done|].
  replace ((0 <=? i) && (i <? 32)) with true by lia. by rewrite !andb_true_r.
Qed.

(** ** Control inputs *)
Section control.
Context {F : Type} `{FloatOps F}.

Lemma land_ffff_bit c i : 0 <= i → Z.testbit (Z.land c 0xffff) i = (i <? 16) && Z.testbit c i.
Proof.
  intros. change 0xffff with (Z.ones 16). rewrite Z.land_spec, Z.testbit_ones_nonneg by lia.
  by rewrite andb_comm.
Qed.

Lemma exclude_high_bit msk i :
  0 <= i → Z.testbit (u32 (Z.shiftl (Z.land msk 0xe000) 16)) i =
             (29 <=? i) && (i <? 32) && Z.testbit msk (i - 16).
Proof.
  intros Hi. rewrite wrap_spec, Z.shiftl_spec, Z.land_spec by lia.
  change 0xe000 with (Z.shiftl (Z.ones 3) 13). 
  destruct (Z.ltb_spec i 32); [|by rewrite andb_false_r].
  destruct (Z.leb_spec 29 i); simpl.
  - rewrite Z.shiftl_spec, Z.testbit_ones_nonneg by lia.
    replace (i - 16 - 13 <? 3) with true by lia. by rewrite andb_true_r.
  - destruct (Z.leb_spec 16 i).
    + rewrite Z.shiftl_spec_low by lia. by rewrite andb_false_r.
    + rewrite Z.testbit_neg_r by lia. done.
Qed.

(** The switch register in force, bit by bit, when some control is masked. *)
Lemma decode_switches_bits (i : FM_OP_IN F) ctrl msk off g r :
  0 <= opSwitchE i < 2 ^ 32 → 0 <= ctrl → 0 < msk →
  let e := snd (decode_switches i ctrl msk off g r) in
  (∀ ix, (ix < 13)%nat →
     Z.testbit e (ctrl_pos !!! ix) =
       if Z.testbit msk (Z.of_nat ix) then Z.testbit ctrl (Z.of_nat ix)
       else Z.testbit (opSwitchE i) (ctrl_pos !!! ix)) ∧
  (∀ b, 0 <= b → (∀ ix, (ix < 13)%nat → ctrl_pos !!! ix ≠ b) →
     Z.testbit e b = Z.testbit (opSwitchE i) b && negb ((29 <=? b) && Z.testbit msk (b - 16))).
Proof.
  intros HE Hctrl Hm. cbv zeta. unfold decode_switches.
  assert (Hc : 0 <= Z.land ctrl 0xffff) by (apply Z.land_nonneg; lia).
  rewrite (proj2 (Z.leb_le _ _) Hc), andb_true_r, (proj2 (Z.eqb_neq msk 0)), (proj2 (Z.ltb_lt 0 msk)) by lia.
  cbn [negb].
  pose proof (switch_bits_inv (Z.shiftr (opSwitchP i) 1) msk (Z.land ctrl 0xffff) 13 Hc ltac:(lia)) as Hinv.
  unfold switch_bits. destruct (for_n 13 _ _) as [[sw ex] c]. destruct Hinv as (_ & Hpos & Hoth).
  set (i3 := if has msk 0x8000 then _ else _).
  assert (HI : opSwitchE i3 = opSwitchE i).
  { unfold i3. by destruct (has msk 0x8000), (has msk 0x4000), (has msk 0x2000). }
  cbn [snd set_control set_mask set_opSwitchE opSwitchE]. rewrite HI. split.
  - intros ix Hix. destruct (Hpos ix Hix) as [Hs He]. destruct (ctrl_pos_const ix Hix) as [_ Hr].
    assert (Hlow : ctrl_pos !!! ix < 29) by (do 13 (destruct ix as [|ix]; [done|]); lia).
    rewrite Z.lor_spec, clear_spec, Z.lor_spec, Hs, He, exclude_high_bit, land_ffff_bit by lia.
    rewrite bool_decide_true by lia.
    replace ((0 <=? ctrl_pos !!! ix) && (ctrl_pos !!! ix <? 32)) with true by lia.
    replace (29 <=? ctrl_pos !!! ix) with false by lia. replace (Z.of_nat ix <? 16) with true by lia.
    simpl. rewrite orb_false_r. by destruct (Z.testbit msk _), (Z.testbit ctrl _), (Z.testbit (opSwitchE i) _).
  - intros b Hb Hnot. destruct (Hoth b Hnot) as [Hs He].
    rewrite Z.lor_spec, clear_spec, Z.lor_spec, Hs, He, exclude_high_bit, orb_false_r by done.
    destruct (Z.ltb_spec b 32); [|by rewrite (testbit_below 32) by lia].
    replace (0 <=? b) with true by lia. cbn [andb]. by rewrite !andb_true_r.
Qed.

Lemma decode_switches_unmasked (i : FM_OP_IN F) ctrl msk off g r :
  0 <= opSwitchE i < 2 ^ 32 → msk <= 0 → snd (decode_switches i ctrl msk off g r) = opSwitchE i.
Proof.
  intros HE Hm. unfold decode_switches. destruct (negb (msk =? 0) && (0 <=? _)); [|done].
  rewrite (proj2 (Z.ltb_ge 0 msk) Hm). cbn [snd set_control set_mask set_opSwitchE opSwitchE].
  apply Z.bits_inj'. intros b Hb. rewrite Z.lor_0_r, clear_spec, Z.testbit_0_l.
  destruct (Z.ltb_spec b 32); [|by rewrite (testbit_below 32) by lia].
  replace (0 <=? b) with true by lia. by rewrite andb_true_r.
Qed.

(** The register stored is the register in force. *)
Lemma decode_switches_stored (i : FM_OP_IN F) ctrl msk off g r :
  opSwitchE (fst (decode_switches i ctrl msk off g r)) = snd (decode_switches i ctrl msk off g r).
Proof.
  unfold decode_switches. destruct (negb (msk =? 0) && (0 <=? _)); [|done].
  destruct (0 <? msk); [|done]. by destruct (switch_bits _ _ _) as [[sw ex] c].
Qed.

(** the control mask table of the source (the comment before
    [filterModuleD2]) holds for all thirteen switch controls: a masked bit
    takes the control input, an unmasked bit keeps its state; the switch
    register has no other change, except that mask bits 13 to 15, which take
    over offset, gain and ramp time, clear bits 29 to 31.  The register stored
    is the register the rest of the call uses, and a mask of zero or below
    changes nothing. *)
Theorem control_mask_table (i : FM_OP_IN F) ctrl msk off g r :
  0 <= opSwitchE i < 2 ^ 32 → 0 <= ctrl →
  let '(i', e) := decode_switches i ctrl msk off g r in
  opSwitchE i' = e ∧
  (msk <= 0 → e = opSwitchE i) ∧
  (0 < msk →
    (∀ ix, (ix < 13)%nat →
       Z.testbit e (ctrl_pos !!! ix) =
         if Z.testbit msk (Z.of_nat ix) then Z.testbit ctrl (Z.of_nat ix)
         else Z.testbit (opSwitchE i) (ctrl_pos !!! ix)) ∧
    (∀ b, 0 <= b → (∀ ix, (ix < 13)%nat → ctrl_pos !!! ix ≠ b) →
       Z.testbit e b = Z.testbit (opSwitchE i) b && negb ((29 <=? b) && Z.testbit msk (b - 16)))).
Proof.
  intros HE Hc. pose proof (decode_switches_stored i ctrl msk off g r) as Hst.
  pose proof (decode_switches_unmasked i ctrl msk off g r HE) as Hun.
  pose proof (decode_switches_bits i ctrl msk off g r HE Hc) as Hbits.
  destruct (decode_switches i ctrl msk off g r) as [i' e]. cbn [fst snd] in *. auto.
Qed.
End control.

(** ** The switching protocol of one stage

    [sw_step typ ramp timeout r (e, k) (e', k')]: one sample of a stage of
    output type [typ] (the last digit of [sType]) whose request bit is [r];
    [e] is the readback bit and [k] the sample counter. *)
Inductive sw_step (typ ramp timeout : Z) (r : bool) : bool * Z → bool * Z → Prop :=
  | sw_idle k : sw_step typ ramp timeout r (r, k) (r, k)
  | sw_instant e k : typ = 1 → e ≠ r → sw_step typ ramp timeout r (e, k) (r, k)
  | sw_ramp e k : typ = 2 → e ≠ r → k ≠ ramp → sw_step typ ramp timeout r (e, k) (e, k + 1)
  | sw_ramped e : typ = 2 → e ≠ r → sw_step typ ramp timeout r (e, ramp) (r, 0)
  | sw_wait e k : typ = 3 ∨ typ = 4 → e ≠ r → k + 1 < timeout → sw_step typ ramp timeout r (e, k) (e, k + 1)
  | sw_match e k : typ = 3 ∨ typ = 4 → e ≠ r → sw_step typ ramp timeout r (e, k) (r, 0)
  | sw_invalid e k : typ ≠ 1 → typ ≠ 2 → typ ≠ 3 → typ ≠ 4 → e ≠ r → sw_step typ ramp timeout r (e, k) (e, k).

Section protocol.
Context {F : Type} `{FloatOps F}.

(** What the protocol is about, of stage [ii]. *)
Definition stage_obs (ii : nat) (v : module_view F) : bool * Z :=
  (Z.testbit (opSwitchP (fin v)) (ack_bit ii), cnt (fin v) !!! ii).

(** The parts of a view that a sample leaves alone, and the counters' number. *)
Definition same_config (v v' : module_view F) : Prop :=
  rmpcmp (fin v') = rmpcmp (fin v) ∧ timeout (fin v') = timeout (fin v) ∧
  filtSections (fcoef v') = filtSections (fcoef v) ∧ sType (fcoef v') = sType (fcoef v) ∧
  length (cnt (fin v')) = length (cnt (fin v)).

(** What the control inputs set, and the loaded filters. *)
Definition settings (v : module_view F) :=
  let i := fin v in let c := fcoef v in
  (opSwitchE i, (offset i, outgain i, limiter i, gain_ramp_time i), (mask i, control i, rset i, swReq i, swMask i),
   (filtCoeff c, filterType c, biquad c)).

Lemma settings_switches v v' : settings v' = settings v → opSwitchE (fin v') = opSwitchE (fin v).
Proof. by injection 1. Qed.

#[local] Instance same_config_preorder : PreOrder same_config.
Proof.
  split; [by intros v|]. intros a b c (?&?&?&?&?) (?&?&?&?&?). unfold same_config. repeat split; congruence.
Qed.

(** [quiet p v v']: nothing of the protocol moves except readback bit [p]. *)
Definition quiet (p : Z → Prop) (v v' : module_view F) : Prop :=
  same_config v v' ∧ settings v' = settings v ∧ cnt (fin v') = cnt (fin v) ∧
  (∀ b, 0 <= b < 32 → ¬ p b → Z.testbit (opSwitchP (fin v')) b = Z.testbit (opSwitchP (fin v)) b).

Lemma quiet_obs p v v' ii :
  (ii < FILTERS)%nat → (∀ b, p b → 24 <= b) → quiet p v v' → stage_obs ii v' = stage_obs ii v.
Proof.
  unfold FILTERS, stage_obs, ack_bit. intros Hii Hp (_ & _ & Hc & Hb). rewrite Hc, Hb; [done|lia|].
  intros Hq%Hp. lia.
Qed.

Lemma decode_switches_frame (i : FM_OP_IN F) ctrl msk off g r :
  let '(i', e) := decode_switches i ctrl msk off g r in
  opSwitchE i' = e ∧ opSwitchP i' = opSwitchP i ∧ cnt i' = cnt i ∧ rmpcmp i' = rmpcmp i ∧
  timeout i' = timeout i.
Proof.
  unfold decode_switches.
  destruct (negb (msk =? 0) && (0 <=? _)); [|by repeat split].
  destruct (0 <? msk); [|by repeat split].
  destruct (switch_bits _ _ _) as [[sw ex] c].
  by destruct (has msk 0x8000), (has msk 0x4000), (has msk 0x2000); repeat split.
Qed.

Lemma decode_switches_limiter (i : FM_OP_IN F) ctrl msk off g r :
  limiter (fst (decode_switches i ctrl msk off g r)) = limiter i.
Proof.
  unfold decode_switches. destruct (negb (msk =? 0) && (0 <=? _)); [|done].
  destruct (0 <? msk); [|done]. destruct (switch_bits _ _ _) as [[sw ex] c].
  by destruct (has msk 0x8000), (has msk 0x4000), (has msk 0x2000).
Qed.

Lemma request_offset_quiet sv r (v : module_view F) : quiet (eq 29) v (request_offset sv r v).
Proof.
  unfold request_offset. destruct (negb _); [|by repeat split]. repeat split. intros b Hb Hn.
  cbn [set_fin set_foffset set_opSwitchP fin opSwitchP]. change OPSWITCH_LIMITER_RAMPING with (2 ^ 29).
  rewrite testbit_set by lia. by destruct (Z.eqb_spec 29 b).
Qed.

Lemma quiet_trans p u v w : quiet p u v → quiet p v w → quiet p u w.
Proof.
  intros (H1 & E1 & H2 & H3) (H4 & E4 & H5 & H6). split; [by etrans|]. do 2 (split; [congruence|]).
  intros b Hb Hn. rewrite H6, H3; done.
Qed.

Lemma input_stage_quiet sv x (v : module_view F) : quiet (eq 29) v (snd (input_stage sv x v)).
Proof.
  unfold input_stage. cbv zeta.
  set (x2 := if has (opSwitchE (fin (set_fdata _ v))) OPSWITCH_INPUT_ENABLE then _ else _).
  set (v1 := set_fdata _ (set_fdata _ _)). set (v2 := if has _ OPSWITCH_OFFSET_ENABLE then _ else _).
  assert (H2 : quiet (eq 29) v v2).
  { apply (quiet_trans _ _ v1); [by repeat split|]. unfold v2. destruct (has (opSwitchE (fin v1)) OPSWITCH_OFFSET_ENABLE); apply request_offset_quiet. }
  set (v3 := if isRamping (foffset v2) then _ else _).
  assert (H3 : quiet (eq 29) v2 v3).
  { unfold v3. destruct (isRamping _); [by repeat split|]. repeat split. intros b Hb Hn.
    cbn [set_fin set_opSwitchP fin opSwitchP]. change OPSWITCH_LIMITER_RAMPING with (2 ^ 29).
    rewrite testbit_clear by lia. by destruct (Z.eqb_spec 29 b). }
  clearbody v3. destruct (RampParamUpdate (foffset v3)) as [o r]. apply (quiet_trans _ _ v3); [by apply (quiet_trans _ _ v2)|].
  by repeat split.
Qed.

Lemma request_gain_quiet sv (v : module_view F) : quiet (eq 28) v (request_gain sv v).
Proof.
  unfold request_gain. cbv zeta. set (v1 := if negb _ then _ else v).
  assert (H1 : quiet (eq 28) v v1).
  { unfold v1. destruct (negb _); [|by repeat split]. repeat split. intros b Hb Hn.
    cbn [set_fin set_fgain set_opSwitchP fin opSwitchP]. change OPSWITCH_GAIN_RAMPING with (2 ^ 28).
    rewrite testbit_set by lia. by destruct (Z.eqb_spec 28 b). }
  destruct (isRamping _); [done|]. apply (quiet_trans _ _ v1); [done|]. repeat split. intros b Hb Hn.
  cbn [set_fin set_opSwitchP fin opSwitchP]. change OPSWITCH_GAIN_RAMPING with (2 ^ 28).
  rewrite testbit_clear by lia. by destruct (Z.eqb_spec 28 b).
Qed.

Lemma output_stage_quiet sv e x (v : module_view F) : quiet (eq 28) v (snd (output_stage sv e (x, v))).
Proof.
  unfold output_stage. cbv zeta. apply (quiet_trans _ _ (request_gain sv v)); [apply request_gain_quiet|].
  generalize (request_gain sv v). intros v1. destruct (RampParamUpdate _) as [g r]. unfold route_output.
  destruct (has e OPSWITCH_HOLD_ENABLE); [by repeat split|].
  destruct (has e OPSWITCH_OUTPUT_ENABLE); [|by repeat split].
  destruct (has e OPSWITCH_DECIMATE_ENABLE); [|by repeat split].
  destruct (iir_filter _ _ _ _). by repeat split.
Qed.

Lemma switch_filter_step typ sw swo ramp tmo kk (a b : F) r e :
  sw ≠ swo → e ≠ r →
  let '(_, o, k) := switch_filter typ sw swo ramp tmo kk a b in
  sw_step typ ramp tmo r (e, kk) (if sw =? o then r else e, k).
Proof.
  intros Hsw He. unfold switch_filter.
  destruct (Z.eqb_spec typ 1); [rewrite Z.eqb_refl; by apply sw_instant|].
  destruct (Z.eqb_spec typ 2).
  - destruct (Z.eqb_spec kk ramp) as [->|]; [rewrite Z.eqb_refl; by apply sw_ramped|].
    destruct (truthy kk); rewrite (proj2 (Z.eqb_neq sw swo)) by done; by apply sw_ramp.
  - destruct (Z.eqb_spec typ 3) as [|H3]; [|destruct (Z.eqb_spec typ 4) as [|H4]]; simpl orb; cbv iota.
    3:{ rewrite (proj2 (Z.eqb_neq sw swo)) by done. by apply sw_invalid. }
    all: set (c := if (_ <ᶠ _)%cf then _ else _);
      destruct (Z.leb_spec tmo (kk + 1)); simpl orb; cbv iota;
      [rewrite Z.eqb_refl; apply sw_match; auto|];
      destruct (fleb c _); [rewrite Z.eqb_refl; apply sw_match; auto|];
      rewrite (proj2 (Z.eqb_neq sw swo)) by done; apply sw_wait; auto.
Qed.

Lemma truthy_ack (b : bool) (p : Z) ii :
  (ii < FILTERS)%nat →
  Z.testbit (if b then Z.lor p (pow2_out !!! ii) else clear p (pow2_out !!! ii)) (ack_bit ii) = b ∧
  (∀ i, 0 <= i < 32 → i ≠ ack_bit ii →
     Z.testbit (if b then Z.lor p (pow2_out !!! ii) else clear p (pow2_out !!! ii)) i = Z.testbit p i).
Proof.
  intros Hii. rewrite pow2_out_bit by done. assert (0 <= ack_bit ii < 32).
  { unfold ack_bit, FILTERS in *. lia. }
  destruct b; (split; [|intros i Hi Hn]).
  - rewrite testbit_set by lia. by rewrite Z.eqb_refl.
  - rewrite testbit_set by lia. by destruct (Z.eqb_spec (ack_bit ii) i).
  - rewrite testbit_clear by lia. by rewrite Z.eqb_refl.
  - rewrite testbit_clear by lia. by destruct (Z.eqb_spec (ack_bit ii) i).
Qed.

Lemma calc_filter_hist (c : FM_OP_COEF F) ii x :
  ∃ h, snd (calc_filter c ii x) = set_filtHist h c.
Proof. unfold calc_filter. destruct (_ : F * list F) as [y h]. by eexists. Qed.

(** One stage moves its own readback bit and counter only, and moves them by
    the protocol. *)
Lemma filter_stage_step e oldP jj x (v : module_view F) :
  (jj < FILTERS)%nat → length (cnt (fin v)) = FILTERS →
  Z.testbit oldP (req_bit jj) = Z.testbit (opSwitchP (fin v)) (ack_bit jj) →
  let v' := snd (filter_stage e oldP jj (x, v)) in
  same_config v v' ∧ settings v' = settings v ∧
  (∀ ii, ii ≠ jj → cnt (fin v') !!! ii = cnt (fin v) !!! ii) ∧
  (∀ i, 0 <= i < 32 → i ≠ ack_bit jj → Z.testbit (opSwitchP (fin v')) i = Z.testbit (opSwitchP (fin v)) i) ∧
  (if filtSections (fcoef v) !!! jj =? 0 then stage_obs jj v' = stage_obs jj v
   else sw_step (Z.rem (sType (fcoef v) !!! jj) 10) (rmpcmp (fin v) !!! jj) (timeout (fin v) !!! jj)
          (Z.testbit e (req_bit jj)) (stage_obs jj v) (stage_obs jj v')).
Proof.
  intros Hjj Hlen Hack. cbv zeta. unfold filter_stage.
  destruct (filtSections (fcoef v) !!! jj =? 0); [by repeat split|].
  set (xin := if _ || _ then x else f0).
  pose proof (calc_filter_hist (fcoef v) jj xin) as [h Ec].
  destruct (calc_filter (fcoef v) jj xin) as [fd c]. cbn [snd] in Ec. subst c.
  assert (0 <= req_bit jj) by (unfold req_bit; lia).
  rewrite pow2_in_bit, land_pow2_eqb, Hack by done.
  set (r := Z.testbit e (req_bit jj)). set (a := Z.testbit (opSwitchP (fin v)) (ack_bit jj)).
  destruct (eqb r a) eqn:Era.
  { apply eqb_prop in Era. cbn [snd]. repeat split.
    unfold stage_obs. cbn [set_fcoef fin]. fold a. rewrite <- Era. apply sw_idle. }
  set (sw := Z.land e _). set (swo := Z.land oldP _).
  assert (Hsw : sw ≠ swo).
  { intros E%Z.eqb_eq. unfold sw, swo in E. rewrite land_pow2_eqb, Hack in E by done. fold r a in E. congruence. }
  assert (Har : a ≠ r) by (intros E; rewrite E, eqb_reflx in Era; done).
  cbn [set_fcoef fin].
  pose proof (switch_filter_step (Z.rem (sType (fcoef v) !!! jj) 10) sw swo (rmpcmp (fin v) !!! jj)
     (timeout (fin v) !!! jj) (cnt (fin v) !!! jj) x fd r a Hsw Har) as Hstep.
  destruct (switch_filter _ _ _ _ _ _ _ _) as [[y o] k].
  assert (Hcnt : ∀ ii, (<[jj:=k]> (cnt (fin v)) : list Z) !!! ii = if decide (ii = jj) then k else cnt (fin v) !!! ii).
  { intros ii. destruct (decide (ii = jj)) as [->|].
    - apply list_lookup_total_insert_eq. by rewrite Hlen.
    - by rewrite list_lookup_total_insert_ne. }
  assert (Htr : truthy sw = r) by (apply truthy_land_pow2; done).
  destruct (Z.eqb_spec sw o) as [<-|Hno].
  - rewrite Htr. pose proof (truthy_ack r (opSwitchP (fin v)) jj Hjj) as [Hb1 Hb2].
    unfold same_config, stage_obs.
    destruct r; cbn [snd set_fin set_fcoef set_cnt set_opSwitchP set_filtHist fin fcoef rmpcmp timeout cnt opSwitchP
        filtSections sType]; rewrite ?length_insert, ?Hb1, ?Hcnt, ?decide_True by done;
      (repeat split; [intros ii Hii; by rewrite Hcnt, decide_False|exact Hb2|exact Hstep]).
  - unfold same_config, stage_obs.
    cbn [snd set_fin set_fcoef set_cnt set_opSwitchP set_filtHist fin fcoef rmpcmp timeout cnt opSwitchP
        filtSections sType]. rewrite ?length_insert, ?Hcnt, ?decide_True by done.
    repeat split; [intros ii Hii; by rewrite Hcnt, decide_False|exact Hstep].
Qed.

(** What one sample does to stage [ii], given the switch register [e] in force. *)
Definition stage_spec (e : Z) (ii : nat) (v v' : module_view F) : Prop :=
  if filtSections (fcoef v) !!! ii =? 0 then stage_obs ii v' = stage_obs ii v
  else sw_step (Z.rem (sType (fcoef v) !!! ii) 10) (rmpcmp (fin v) !!! ii) (timeout (fin v) !!! ii)
         (Z.testbit e (req_bit ii)) (stage_obs ii v) (stage_obs ii v').

Lemma stage_spec_proper e ii v v' w w' :
  stage_spec e ii v v' → same_config v w → stage_obs ii w = stage_obs ii v →
  stage_obs ii w' = stage_obs ii v' → stage_spec e ii w w'.
Proof. unfold stage_spec. intros Hs (E1&E2&E3&E4&_) -> ->. by rewrite E1, E2, E3, E4. Qed.

Lemma same_config_sym v w : same_config v w → same_config w v.
Proof. intros (?&?&?&?&?). by repeat split. Qed.

Lemma filter_stages_step e oldP x (v : module_view F) :
  length (cnt (fin v)) = FILTERS →
  (∀ ii, (ii < FILTERS)%nat → Z.testbit oldP (req_bit ii) = Z.testbit (opSwitchP (fin v)) (ack_bit ii)) →
  let v' := snd (filter_stages e oldP (x, v)) in
  same_config v v' ∧ settings v' = settings v ∧
  ∀ ii, (ii < FILTERS)%nat → stage_spec e ii v v'.
Proof.
  intros Hlen Hack. cbv zeta. unfold filter_stages.
  pose (P := λ (k : nat) (st : F * module_view F),
    same_config v (snd st) ∧ settings (snd st) = settings v ∧
    (∀ ii, (k <= ii < FILTERS)%nat → stage_obs ii (snd st) = stage_obs ii v) ∧
    (∀ ii, (ii < k)%nat → stage_spec e ii v (snd st))).
  enough (HP : P (0 + FILTERS)%nat (for_n FILTERS (filter_stage e oldP) (x, v))).
  { destruct HP as (H1 & H2 & _ & H3). by split. }
  apply for_up_ind.
  { do 3 (split; [done|]). intros; lia. }
  intros k [y w] Hk (Hc & HE & Hrest & Hdone). cbn [snd] in *.
  assert (Hoff : ∀ i j, (i < FILTERS)%nat → i ≠ j → 0 <= ack_bit i < 32 ∧ ack_bit i ≠ ack_bit j)
    by (unfold ack_bit, FILTERS; intros; lia).
  destruct (filter_stage_step e oldP k y w) as (Hc' & HE' & Hcnt & Hbit & Hstep); [lia| |..].
  { destruct Hc as (_&_&_&_&->). done. }
  { transitivity (Z.testbit (opSwitchP (fin v)) (ack_bit k)).
    - apply Hack. lia.
    - symmetry. assert (E : stage_obs k w = stage_obs k v) by (apply Hrest; lia). by injection E. }
  set (v' := snd (filter_stage e oldP k (y, w))) in *.
  assert (Hsame : ∀ ii, (ii < FILTERS)%nat → ii ≠ k → stage_obs ii v' = stage_obs ii w).
  { intros ii Hii Hn. unfold stage_obs. destruct (Hoff ii k Hii Hn). by rewrite Hbit, Hcnt. }
  split; [by etrans|]. split; [exact (eq_trans HE' HE)|]. split.
  - intros ii Hii. rewrite Hsame by lia. apply Hrest. lia.
  - intros ii Hii. destruct (decide (ii = k)) as [->|Hn].
    + apply (stage_spec_proper _ _ w v'); [exact Hstep|by apply same_config_sym| |done].
      symmetry. apply Hrest. lia.
    + apply (stage_spec_proper _ _ v w); [apply Hdone; lia|done|done|]. apply Hsame; lia.
Qed.

(** One sample of a module follows the protocol in every stage. *)
Lemma module_step_protocol sv x ctrl msk off g r (v : module_view F) :
  length (cnt (fin v)) = FILTERS →
  let v' := snd (module_step sv x ctrl msk off g r v) in
  let e := snd (decode_switches (fin v) ctrl msk off g r) in
  same_config v v' ∧ settings v' = settings (set_fin (fst (decode_switches (fin v) ctrl msk off g r)) v) ∧
  opSwitchE (fin v') = e ∧ ∀ ii, (ii < FILTERS)%nat → stage_spec e ii v v'.
Proof.
  intros Hlen. cbv zeta. unfold module_step.
  pose proof (decode_switches_frame (fin v) ctrl msk off g r) as Hq1.
  destruct (decode_switches (fin v) ctrl msk off g r) as [i e]. cbn [fst snd].
  destruct Hq1 as (He & HP & Hcnt & Hrmp & Htmo).
  pose proof (input_stage_quiet sv x (set_fin i v)) as Hq2.
  destruct (input_stage sv x (set_fin i v)) as [y w]. cbn [snd] in Hq2.
  assert (Hobs : ∀ ii, (ii < FILTERS)%nat → stage_obs ii w = stage_obs ii v).
  { intros ii Hii. transitivity (stage_obs ii (set_fin i v)).
    - eapply quiet_obs; [done| |exact Hq2]. intros b <-. lia.
    - unfold stage_obs. cbn [set_fin fin]. by rewrite HP, Hcnt. }
  assert (Hcvw : same_config v w).
  { etrans; [|apply Hq2]. unfold same_config. cbn [set_fin fin fcoef]. rewrite Hcnt, Hrmp, Htmo. by repeat split. }
  destruct (filter_stages_step e (Z.shiftr (opSwitchP (fin v)) 1) y w) as (Hc & HE & Hst).
  { destruct Hcvw as (_&_&_&_&->). done. }
  { intros ii Hii. pose proof (Hobs ii Hii) as E. injection E as -> _.
    rewrite Z.shiftr_spec by (unfold req_bit; lia). f_equal. unfold req_bit, ack_bit. lia. }
  destruct (filter_stages _ _ _) as [z u]. cbn [snd] in *.
  pose proof (output_stage_quiet sv e z u) as Hq3.
  split; [etrans; [exact Hcvw|]; etrans; [exact Hc|apply Hq3]|].
  assert (HS : settings (snd (output_stage sv e (z, u))) = settings (set_fin i v)).
  { destruct Hq2 as (_&E2&_), Hq3 as (_&E3&_). congruence. }
  split; [exact HS|]. split; [by rewrite (settings_switches _ _ HS)|].
  intros ii Hii. apply (stage_spec_proper _ _ w u); [by apply Hst|by apply same_config_sym| |].
  - symmetry. by apply Hobs.
  - eapply quiet_obs; [done| |exact Hq3]. intros b <-. lia.
Qed.

(** *** The protocol as a countdown *)

(** Samples until the readback follows the request. *)
Definition remaining (typ ramp tmo : Z) (r : bool) (o : bool * Z) : Z :=
  if eqb (fst o) r then 0
  else if typ =? 1 then 1
  else if typ =? 2 then ramp - snd o + 1
  else Z.max 1 (tmo - snd o).

Lemma sw_step_remaining typ ramp tmo r o o' :
  1 <= typ <= 4 → (typ = 2 → 0 <= snd o <= ramp) → sw_step typ ramp tmo r o o' →
  (typ = 2 → 0 <= snd o' <= ramp) ∧
  remaining typ ramp tmo r o' <= Z.max 0 (remaining typ ramp tmo r o - 1) ∧
  (typ = 2 → fst o ≠ r → remaining typ ramp tmo r o' = remaining typ ramp tmo r o - 1).
Proof.
  intros Ht Hk Hs. unfold remaining.
  assert (Hneq : ∀ e : bool, e ≠ r → eqb e r = false) by (intros e; by apply eqb_false_iff).
  destruct Hs as [k|e k T Hn|e k T Hn Hkr|e T Hn|e k T Hn Hlt|e k T Hn|e k T1 T2 T3 T4 Hn];
    cbn [fst snd] in *; rewrite ?eqb_reflx; try rewrite (Hneq e Hn).
  - repeat split; try lia. intros _ []. done.
  - rewrite T. cbn. repeat split; lia.
  - rewrite T. cbn. specialize (Hk T). repeat split; lia.
  - rewrite T. cbn. specialize (Hk T). repeat split; lia.
  - destruct T as [-> | ->]; cbn; repeat split; lia.
  - destruct T as [-> | ->]; cbn; repeat split; lia.
  - lia.
Qed.
End protocol.

(** ** The module arrays *)
Section arrays.
Context {F : Type} `{FloatOps F}.

Record wf_state (m : nat) (s : FMState F) : Prop := {
  wf_inputs : (m < length (inputs (pFilt s)))%nat;
  wf_data : (m < length (data (pFilt s)))%nat;
  wf_pC : (m < length (pC s))%nat;
  wf_offset : (0 < length (offset_ramp s !!! m))%nat;
  wf_gain : (0 < length (gain_ramp s !!! m))%nat;
  wf_cnt : length (cnt (inputs (pFilt s) !!! m)) = FILTERS
}.

Lemma ramp_put (l : list (list (RampParamState F))) m r :
  (0 < length (l !!! m))%nat → ((alter (λ l, <[0%nat := r]> l) m l) !!! m) !!! 0%nat = r.
Proof.
  intros Hl. destruct (l !! m) as [x|] eqn:E.
  - rewrite (list_lookup_total_correct l m x E) in Hl.
    rewrite (list_lookup_total_correct (alter _ m l) m (<[0%nat:=r]> x)).
    + by apply list_lookup_total_insert_eq.
    + rewrite list_lookup_alter_eq. by rewrite E.
  - rewrite list_lookup_total_alt, E in Hl. cbn in Hl. lia.
Qed.

Lemma view_put m v (s : FMState F) : wf_state m s → view_of m (put_view m v s) = v.
Proof.
  intros []. destruct v. unfold view_of, put_view.
  cbn [pFilt pC offset_ramp gain_ramp set_data set_inputs inputs data fin fdata fcoef foffset fgain].
  by rewrite !list_lookup_total_insert_eq, !ramp_put by done.
Qed.

Lemma view_put_ne m j v (s : FMState F) : j ≠ m → view_of j (put_view m v s) = view_of j s.
Proof.
  intros Hn. unfold view_of, put_view.
  cbn [pFilt pC offset_ramp gain_ramp set_data set_inputs inputs data].
  rewrite !list_lookup_total_insert_ne by done. 
  by rewrite !(list_lookup_total_alt (alter _ _ _)), !list_lookup_alter_ne, <- !list_lookup_total_alt by done.
Qed.

Lemma wf_put m v (s : FMState F) :
  wf_state m s → length (cnt (fin v)) = FILTERS → wf_state m (put_view m v s).
Proof.
  intros Hwf Hc. pose proof (view_put m v s Hwf) as E. destruct Hwf.
  assert (Hal : ∀ (l : list (list (RampParamState F))) r, (0 < length (l !!! m))%nat →
            (0 < length (alter (λ l, <[0%nat := r]> l) m l !!! m))%nat).
  { intros l r. rewrite !list_lookup_total_alt, list_lookup_alter_eq.
    destruct (l !! m); cbn; [by rewrite length_insert|lia]. }
  split; unfold put_view; cbn [pFilt pC offset_ramp gain_ramp set_data set_inputs inputs data];
    rewrite ?length_insert; auto.
  by rewrite list_lookup_total_insert_eq.
Qed.

Lemma filterModuleD2_view sv (s : FMState F) m x ctrl msk off g r :
  wf_state m s →
  view_of m (snd (filterModuleD2 sv s m x ctrl msk off g r)) =
  snd (module_step sv x ctrl msk off g r (view_of m s)).
Proof.
  intros Hwf. unfold filterModuleD2. destruct (module_step _ _ _ _ _ _ _ _). by apply view_put.
Qed.

Lemma filterModuleD2_wf sv (s : FMState F) m x ctrl msk off g r :
  wf_state m s → wf_state m (snd (filterModuleD2 sv s m x ctrl msk off g r)).
Proof.
  intros Hwf. unfold filterModuleD2.
  pose proof (module_step_protocol sv x ctrl msk off g r (view_of m s) (wf_cnt _ _ Hwf)) as ((_&_&_&_&Hl)&_).
  destruct (module_step _ _ _ _ _ _ _ _) as [y v]. cbn [snd] in *. apply wf_put; [done|]. rewrite Hl. apply Hwf.
Qed.

(** Consecutive samples of module [m] with the switch controls left alone. *)
Definition module_run (sv : servo) (m : nat) (s : FMState F) (xs : list F) : FMState F :=
  fold_left (λ s x, snd (filterModuleD2 sv s m x 0 0 f0 f0 f0)) xs s.

Lemma module_run_cons sv m (s : FMState F) x xs :
  module_run sv m s (x :: xs) = module_run sv m (snd (filterModuleD2 sv s m x 0 0 f0 f0 f0)) xs.
Proof. done. Qed.

#[local] Opaque module_step filterModuleD2.

(** One sample of the run: the configuration stays, the countdown moves. *)
Lemma module_run_step sv m ii x (s : FMState F) :
  wf_state m s → 0 <= opSwitchE (fin (view_of m s)) < 2 ^ 32 → (ii < FILTERS)%nat →
  let v := view_of m s in
  let s1 := snd (filterModuleD2 sv s m x 0 0 f0 f0 f0) in
  wf_state m s1 ∧ same_config v (view_of m s1) ∧ opSwitchE (fin (view_of m s1)) = opSwitchE (fin v) ∧
  stage_spec (opSwitchE (fin v)) ii v (view_of m s1).
Proof.
  intros Hwf HE Hii. cbv zeta.
  destruct (module_step_protocol sv x 0 0 f0 f0 f0 (view_of m s) (wf_cnt _ _ Hwf)) as (Hcfg & _ & HE1 & Hst).
  rewrite <- filterModuleD2_view in Hcfg, HE1, Hst by done.
  rewrite decode_switches_unmasked in HE1, Hst by (done || lia).
  split; [by apply filterModuleD2_wf|]. auto.
Qed.

Lemma module_run_remaining sv m ii xs (s : FMState F) :
  wf_state m s → 0 <= opSwitchE (fin (view_of m s)) < 2 ^ 32 → (ii < FILTERS)%nat →
  let v := view_of m s in
  let v' := view_of m (module_run sv m s xs) in
  let rest := remaining (Z.rem (sType (fcoef v) !!! ii) 10) (rmpcmp (fin v) !!! ii) (timeout (fin v) !!! ii)
                (Z.testbit (opSwitchE (fin v)) (req_bit ii)) in
  filtSections (fcoef v) !!! ii ≠ 0 → 1 <= Z.rem (sType (fcoef v) !!! ii) 10 <= 4 →
  (Z.rem (sType (fcoef v) !!! ii) 10 = 2 → 0 <= cnt (fin v) !!! ii <= rmpcmp (fin v) !!! ii) →
  (Z.rem (sType (fcoef v) !!! ii) 10 = 2 → 0 <= snd (stage_obs ii v') <= rmpcmp (fin v) !!! ii) ∧
  rest (stage_obs ii v') <= Z.max 0 (rest (stage_obs ii v) - Z.of_nat (length xs)) ∧
  (Z.rem (sType (fcoef v) !!! ii) 10 = 2 → Z.of_nat (length xs) <= rest (stage_obs ii v) →
   rest (stage_obs ii v') = rest (stage_obs ii v) - Z.of_nat (length xs)).
Proof.
  revert s. induction xs as [|x xs IH]; intros s Hwf HE Hii v v' rest Hsec Htyp Hk.
  { simpl length. change v' with v. split; [exact Hk|]. split; [lia|]. intros; lia. }
  destruct (module_run_step sv m ii x s Hwf HE Hii) as (Hwf1 & Hcfg & HE1 & Hst).
  unfold v'. rewrite module_run_cons. clear v'.
  set (s1 := snd (filterModuleD2 sv s m x 0 0 f0 f0 f0)) in *. clearbody s1.
  destruct Hcfg as (E1 & E2 & E3 & E4 & _). fold v in E1, E2, E3, E4, HE, HE1, Hst.
  unfold stage_spec in Hst. rewrite (proj2 (Z.eqb_neq _ _) Hsec) in Hst.
  destruct (sw_step_remaining _ _ _ _ (stage_obs ii v) (stage_obs ii (view_of m s1)) Htyp Hk Hst) as (Hk1 & Hrem & Hdown).
  specialize (IH s1 Hwf1). cbv zeta in IH. rewrite E1, E2, E3, E4, HE1 in IH.
  specialize (IH HE Hii Hsec Htyp Hk1). fold rest in IH, Hrem, Hdown.
  destruct IH as (IH1 & IH2 & IH3). change (length (x :: xs)) with (S (length xs)).
  rewrite Nat2Z.inj_succ. split; [done|]. split; [lia|].
  intros Ht2 Hle. destruct (decide (fst (stage_obs ii v) = Z.testbit (opSwitchE (fin v)) (req_bit ii))) as [E|E].
  - exfalso. revert Hle. unfold rest, remaining. rewrite E, eqb_reflx. lia.
  - specialize (Hdown Ht2 E). rewrite IH3, Hdown; lia.
Qed.

(** C1: [filterModuleD2] implements the switching protocol: whatever the sample,
    the control inputs and the state of the other stages, every stage that has
    filter sections makes exactly one step of [sw_step] under the request bit of
    the switch register in force after the control inputs were taken over, and a
    stage without sections keeps its readback bit and its counter. *)
Theorem filterModuleD2_switching sv (s : FMState F) m x ctrl msk off g r ii :
  wf_state m s → (ii < FILTERS)%nat →
  let s' := snd (filterModuleD2 sv s m x ctrl msk off g r) in
  let i := inputs (pFilt s) !!! m in
  let i' := inputs (pFilt s') !!! m in
  let c := pC s !!! m in
  let obs i := (Z.testbit (opSwitchP i) (ack_bit ii), cnt i !!! ii) in
  if filtSections c !!! ii =? 0 then obs i' = obs i
  else sw_step (Z.rem (sType c !!! ii) 10) (rmpcmp i !!! ii) (timeout i !!! ii)
         (Z.testbit (opSwitchE i') (req_bit ii)) (obs i) (obs i').
Proof.
  intros Hwf Hii. cbv zeta.
  destruct (module_step_protocol sv x ctrl msk off g r (view_of m s) (wf_cnt _ _ Hwf)) as (_ & _ & HE & Hst).
  rewrite <- filterModuleD2_view in HE, Hst by done. specialize (Hst ii Hii).
  rewrite <- HE in Hst. exact Hst.
Qed.

(** C29: a switching request is carried out.  While the switch register is left
    alone, the readback bit of a stage with sections equals its request bit after
    one sample (output type 1), after [rmpcmp - cnt + 1] samples (type 2, and
    not one sample earlier), or after at most [timeout - cnt] samples, at least
    one (types 3 and 4), for every input; it then stays. *)
Theorem switching_completes sv (s : FMState F) m ii xs :
  wf_state m s → (ii < FILTERS)%nat → 0 <= opSwitchE (inputs (pFilt s) !!! m) < 2 ^ 32 →
  let i := inputs (pFilt s) !!! m in
  let typ := Z.rem (sType (pC s !!! m) !!! ii) 10 in
  let needed := if typ =? 1 then 1 else if typ =? 2 then rmpcmp i !!! ii - cnt i !!! ii + 1
                else Z.max 1 (timeout i !!! ii - cnt i !!! ii) in
  let i' := inputs (pFilt (module_run sv m s xs)) !!! m in
  filtSections (pC s !!! m) !!! ii ≠ 0 → 1 <= typ <= 4 →
  (typ = 2 → 0 <= cnt i !!! ii <= rmpcmp i !!! ii) →
  Z.testbit (opSwitchP i) (ack_bit ii) ≠ Z.testbit (opSwitchE i) (req_bit ii) →
  (needed <= Z.of_nat (length xs) →
     Z.testbit (opSwitchP i') (ack_bit ii) = Z.testbit (opSwitchE i) (req_bit ii)) ∧
  (typ = 2 → Z.of_nat (length xs) < needed →
     Z.testbit (opSwitchP i') (ack_bit ii) = Z.testbit (opSwitchP i) (ack_bit ii)).
Proof.
  intros Hwf Hii HE i typ needed i' Hsec Htyp Hk Hne.
  destruct (module_run_remaining sv m ii xs s Hwf HE Hii Hsec Htyp Hk) as (Hk' & Hrem & Hexact).
  set (rest := remaining _ _ _ _) in Hrem, Hexact.
  assert (Hr0 : rest (stage_obs ii (view_of m s)) = needed).
  { unfold rest, remaining, stage_obs. cbn [fst snd view_of fin]. fold i.
    rewrite (proj2 (eqb_false_iff _ _) Hne). done. }
  rewrite Hr0 in Hrem, Hexact.
  split.
  - intros Hlen. change (fst (stage_obs ii (view_of m (module_run sv m s xs))) = Z.testbit (opSwitchE i) (req_bit ii)).
    apply eqb_prop. destruct (eqb _ _) eqn:E; [done|]. exfalso. revert Hrem.
    unfold rest, remaining. cbn [view_of fin fcoef]. fold i typ. cbn [view_of fin fcoef] in Hk'. fold i typ in Hk'.
    rewrite E. destruct (Z.eqb_spec typ 1); [lia|].
    destruct (Z.eqb_spec typ 2); [specialize (Hk' ltac:(done))|]; lia.
  - intros Ht Hlen. specialize (Hexact Ht ltac:(lia)).
    change (fst (stage_obs ii (view_of m (module_run sv m s xs))) = Z.testbit (opSwitchP i) (ack_bit ii)).
    revert Hexact. unfold rest, remaining. cbn [view_of fin fcoef]. fold i typ.
    destruct (eqb _ _) eqn:E; [lia|]. intros _. apply eqb_false_iff in E.
    by destruct (fst _), (Z.testbit (opSwitchP i) _), (Z.testbit (opSwitchE i) _).
Qed.

(** *** What a call leaves alone *)
Lemma land_3ff_bit m b : 0 <= b → Z.testbit (Z.land m 0x3ff) b = (b <? 10) && Z.testbit m b.
Proof.
  intros. change 0x3ff with (Z.ones 10). rewrite Z.land_spec, Z.testbit_ones_nonneg by lia. by rewrite andb_comm.
Qed.

Lemma has_3ff_high m k : 10 <= k → has (Z.land m 0x3ff) (2 ^ k) = false.
Proof.
  intros. rewrite has_pow2, land_3ff_bit by lia. by replace (k <? 10) with false by lia.
Qed.

Lemma decode_switches_params (i : FM_OP_IN F) ctrl msk off g r :
  has msk 0x2000 = false → has msk 0x4000 = false → has msk 0x8000 = false →
  ∃ e p c, fst (decode_switches i ctrl msk off g r) = set_opSwitchE e (set_control c (set_mask p i)).
Proof.
  intros H1 H2 H3. unfold decode_switches.
  destruct (negb (msk =? 0) && (0 <=? _)); [|by exists (opSwitchE i), 0, 0; destruct i].
  destruct (0 <? msk); [|by eexists _, _, _].
  destruct (switch_bits _ _ _) as [[sw ex] c]. rewrite H1, H2, H3. by eexists _, _, _.
Qed.

Lemma ctrl_pos_dec b :
  (∃ ix, (ix < 13)%nat ∧ ctrl_pos !!! ix = b) ∨ (∀ ix, (ix < 13)%nat → ctrl_pos !!! ix ≠ b).
Proof.
  destruct (decide (b ∈ ctrl_pos)) as [[ix Hix]%list_elem_of_lookup|Hn].
  - left. exists ix. split; [by apply lookup_lt_Some in Hix|by apply list_lookup_total_correct].
  - right. intros ix Hix E. apply Hn, list_elem_of_lookup. exists ix. rewrite <- E.
    by apply list_lookup_lookup_total_lt.
Qed.

Lemma request_ctrl_pos ix : (ix < 10)%nat → ctrl_pos !!! ix = req_bit ix.
Proof. intros. do 10 (destruct ix as [|ix]; [done|]). lia. Qed.

(** a [filterModuleD] call of module [m] touches nothing else: the other
    modules' inputs, signals, coefficients and ramps are as before, module [m]
    keeps its coefficients and operator settings, and in its switch register
    only the ten stage request bits can change - each one takes its control
    bit if its mask bit is set. *)
Theorem filterModuleD_footprint sv (s : FMState F) m x ctrl msk :
  wf_state m s → 0 <= opSwitchE (inputs (pFilt s) !!! m) < 2 ^ 32 → 0 <= ctrl →
  let s' := snd (filterModuleD sv s m x ctrl msk) in
  let i := inputs (pFilt s) !!! m in
  let i' := inputs (pFilt s') !!! m in
  (∀ j, j ≠ m → view_of j s' = view_of j s) ∧
  (offset i', outgain i', limiter i', gain_ramp_time i') = (offset i, outgain i, limiter i, gain_ramp_time i) ∧
  filtCoeff (pC s' !!! m) = filtCoeff (pC s !!! m) ∧
  filtSections (pC s' !!! m) = filtSections (pC s !!! m) ∧
  (∀ ix, (ix < FILTERS)%nat →
     Z.testbit (opSwitchE i') (req_bit ix) =
       if Z.testbit msk (Z.of_nat ix) then Z.testbit ctrl (Z.of_nat ix)
       else Z.testbit (opSwitchE i) (req_bit ix)) ∧
  (∀ b, 0 <= b → (∀ ix, (ix < FILTERS)%nat → req_bit ix ≠ b) →
     Z.testbit (opSwitchE i') b = Z.testbit (opSwitchE i) b).
Proof.
  intros Hwf HE Hc. cbv zeta. unfold filterModuleD.
  set (c := Z.land ctrl 0x3ff). set (k := Z.land msk 0x3ff).
  assert (Hc0 : 0 <= c) by (apply Z.land_nonneg; lia).
  assert (Hk0 : 0 <= k) by (apply Z.land_nonneg; lia).
  pose proof (module_step_protocol sv x c k (flit 0 0) (flit 0 0) (flit 0 0) (view_of m s) (wf_cnt _ _ Hwf))
    as ((_&_&Hsec&_) & HS & HE' & _).
  destruct (decode_switches_params (fin (view_of m s)) c k (flit 0 0) (flit 0 0) (flit 0 0)) as (e & p & q & Edec).
  { by apply (has_3ff_high msk 13). }
  { by apply (has_3ff_high msk 14). }
  { by apply (has_3ff_high msk 15). }
  rewrite Edec in HS. rewrite <- !(filterModuleD2_view sv s m) in HS, HE', Hsec by done.
  split; [|split; [|split; [|split]]].
  - intros j Hj. Transparent filterModuleD2. unfold filterModuleD2. Opaque filterModuleD2.
    destruct (module_step _ _ _ _ _ _ _ _). by apply view_put_ne.
  - exact (f_equal (λ t, t.1.1.2) HS).
  - exact (f_equal (λ t, t.2.1.1) HS).
  - exact Hsec.
  - set (s' := snd (filterModuleD2 sv s m x c k (flit 0 0) (flit 0 0) (flit 0 0))) in *. clearbody s'.
    change (inputs (pFilt s') !!! m) with (fin (view_of m s')). rewrite HE'.
    destruct (Z.ltb_spec 0 k) as [Hk|Hk].
    + destruct (decode_switches_bits (fin (view_of m s)) c k (flit 0 0) (flit 0 0) (flit 0 0) HE Hc0 Hk) as [Hb Ho].
      split.
      * intros ix Hix. unfold FILTERS in Hix. rewrite <- request_ctrl_pos, Hb by (done || lia).
        unfold c, k. rewrite !land_3ff_bit by lia. by replace (Z.of_nat ix <? 10) with true by lia.
      * intros b Hb0 Hn. destruct (ctrl_pos_dec b) as [(ix & Hix & <-)|Hno].
        { rewrite Hb by done. unfold k. rewrite land_3ff_bit by lia.
          destruct (Z.ltb_spec (Z.of_nat ix) 10); [|done].
          exfalso. apply (Hn ix); [unfold FILTERS; lia|]. rewrite request_ctrl_pos by lia. done. }
        rewrite Ho by done.
        destruct (Z.leb_spec 29 b); [|by rewrite andb_true_r]. unfold k.
        rewrite land_3ff_bit by lia. replace (b - 16 <? 10) with false by lia. by rewrite andb_true_r.
    + rewrite decode_switches_unmasked by done. split; [|done]. intros ix Hix.
      replace (Z.testbit msk (Z.of_nat ix)) with false; [done|].
      assert (Hk' : k = 0) by lia. apply (f_equal (λ z, Z.testbit z (Z.of_nat ix))) in Hk'.
      unfold k in Hk'. rewrite land_3ff_bit, Z.testbit_0_l in Hk' by lia. unfold FILTERS in Hix.
      by replace (Z.of_nat ix <? 10) with true in Hk' by lia.
Qed.
End arrays.

(** ** Signals *)
Section signals.
Context {F : Type} `{FloatOps F}.

(** What stage [ii] does to the sample when no request is pending. *)
Definition stage_on (e : Z) (ii : nat) : bool := Z.testbit e (req_bit ii).
Definition stage_signal (e : Z) (c : FM_OP_COEF F) (ii : nat) (x : F) : F :=
  if (filtSections c !!! ii =? 0) || negb (stage_on e ii) then x else fst (calc_filter c ii x).

Definition settled (e oldP : Z) (c : FM_OP_COEF F) (ii : nat) : Prop :=
  filtSections c !!! ii = 0 ∨ Z.testbit oldP (req_bit ii) = stage_on e ii.

Lemma filter_stage_settled e oldP ii x (v : module_view F) :
  (ii < FILTERS)%nat → settled e oldP (fcoef v) ii →
  fst (filter_stage e oldP ii (x, v)) = stage_signal e (fcoef v) ii x ∧
  ∃ h, snd (filter_stage e oldP ii (x, v)) = set_fcoef (set_filtHist h (fcoef v)) v ∧
       ∀ jj, jj ≠ ii → h !!! jj = filtHist (fcoef v) !!! jj.
Proof.
  intros Hii Hset. unfold filter_stage, stage_signal.
  destruct (Z.eqb_spec (filtSections (fcoef v) !!! ii) 0) as [E0|E0]; cbn [orb].
  { split; [done|]. exists (filtHist (fcoef v)). destruct v as [? ? [] ? ?]. done. }
  destruct Hset as [?|Hset]; [done|]. assert (0 <= req_bit ii) by (unfold req_bit; lia).
  rewrite pow2_in_bit, land_pow2_eqb, !truthy_land_pow2, Hset by done. fold (stage_on e ii).
  rewrite eqb_reflx.
  assert (Hin : stage_on e ii = true →
    (sType (fcoef v) !!! ii <? 20) || stage_on e ii || ((sType (fcoef v) !!! ii =? 22) && stage_on e ii) = true).
  { intros ->. by rewrite orb_true_r. }
  set (xin := if _ || _ then x else f0).
  assert (Hx : stage_on e ii = true → xin = x) by (intros Ht; unfold xin; by rewrite Hin).
  assert (Hh : ∃ h, snd (calc_filter (fcoef v) ii xin) = set_filtHist h (fcoef v) ∧
                    ∀ jj, jj ≠ ii → h !!! jj = filtHist (fcoef v) !!! jj).
  { unfold calc_filter. destruct (_ : F * list F) as [y h]. eexists. split; [done|].
    intros jj Hj. by rewrite list_lookup_total_insert_ne. }
  clearbody xin.
  destruct (stage_on e ii); cbn [negb]; [rewrite Hx in * by done|];
    destruct (calc_filter _ _ _) as [y c]; cbn [fst snd] in *; (split; [done|]);
    destruct Hh as (h & -> & Hh); by exists h.
Qed.

Lemma stage_signal_hist e (c : FM_OP_COEF F) h ii x :
  h !!! ii = filtHist c !!! ii → stage_signal e (set_filtHist h c) ii x = stage_signal e c ii x.
Proof.
  intros Hh. unfold stage_signal, calc_filter. cbn [set_filtHist filtSections biquad filtCoeff filtHist].
  rewrite Hh. destruct (_ || _); [done|]. by destruct (_ : F * list F).
Qed.

(** The stages of a settled module are the cascade of the engaged filters. *)
Lemma filter_stages_settled e oldP x (v : module_view F) :
  (∀ ii, (ii < FILTERS)%nat → settled e oldP (fcoef v) ii) →
  fst (filter_stages e oldP (x, v)) = for_n FILTERS (stage_signal e (fcoef v)) x ∧
  ∃ h, snd (filter_stages e oldP (x, v)) = set_fcoef (set_filtHist h (fcoef v)) v.
Proof.
  intros Hset. unfold filter_stages.
  assert (Hk : ∀ k, (k <= FILTERS)%nat →
    let st := for_n k (filter_stage e oldP) (x, v) in
    fst st = for_n k (stage_signal e (fcoef v)) x ∧
    ∃ h, snd st = set_fcoef (set_filtHist h (fcoef v)) v ∧
         ∀ jj, (k <= jj)%nat → h !!! jj = filtHist (fcoef v) !!! jj).
  { induction k as [|k IH]; intros Hk; cbv zeta.
    { split; [done|]. exists (filtHist (fcoef v)). destruct v as [? ? [] ? ?]. done. }
    rewrite !for_up_S. rewrite Nat.add_0_l. destruct IH as (H1 & h & H2 & H3); [lia|].
    destruct (for_n k (filter_stage e oldP) (x, v)) as [y w]. cbn [fst snd] in *. subst y w.
    set (y := for_n k _ x).
    destruct (filter_stage_settled e oldP k y (set_fcoef (set_filtHist h (fcoef v)) v)) as (E1 & h' & E2 & E3);
      [lia|apply Hset; lia|].
    split.
    - rewrite E1. apply stage_signal_hist, H3. lia.
    - exists h'. split; [exact E2|]. intros jj Hj. rewrite E3 by lia. apply H3. lia. }
  destruct (Hk FILTERS (le_n _)) as (H1 & h & H2 & _). split; [exact H1|]. by exists h.
Qed.

(** The last stage on the signal and what it stores. *)
Definition route_spec (e : Z) (y : F) (d d' : FM_OP_DATA F) : Prop :=
  if has e OPSWITCH_HOLD_ENABLE then
    y = output d ∧ output d' = output d ∧ output16Hz d' = output16Hz d
  else if has e OPSWITCH_OUTPUT_ENABLE then
    y = testpoint d' ∧ output d' = y ∧ (has e OPSWITCH_DECIMATE_ENABLE = false → output16Hz d' = y)
  else y = flit 0 0 ∧ output d' = f0 ∧ output16Hz d' = f0.

Lemma output_stage_spec sv e x (v : module_view F) :
  let '(y, v') := output_stage sv e (x, v) in
  testpoint (fdata v') = limit_output e (limiter (fin v)) (x ⊗ fst (RampParamUpdate (fgain (request_gain sv v)))) ∧
  inputTestpoint (fdata v') = inputTestpoint (fdata v) ∧ filterInput (fdata v') = filterInput (fdata v) ∧
  route_spec e y (fdata v) (fdata v').
Proof.
  unfold output_stage, route_spec. cbv zeta.
  assert (Hg : limiter (fin (request_gain sv v)) = limiter (fin v) ∧ fdata (request_gain sv v) = fdata v).
  { unfold request_gain. by destruct (outgain (fin v) ≠ᶠ req (fgain v))%cf; destruct (isRamping _). }
  destruct Hg as [Hl Hd]. set (v1 := request_gain sv v) in *. clearbody v1.
  destruct (RampParamUpdate (fgain v1)) as [g r]. unfold route_output.
  destruct (has e OPSWITCH_HOLD_ENABLE); [by cbn; rewrite Hl, Hd|].
  destruct (has e OPSWITCH_OUTPUT_ENABLE); [|by cbn; rewrite Hl, Hd].
  destruct (has e OPSWITCH_DECIMATE_ENABLE); [|by cbn; rewrite Hl, Hd].
  destruct (iir_filter _ _ _ _). cbn. by rewrite Hl, Hd.
Qed.

Lemma filter_stages_data e oldP x (v : module_view F) :
  fdata (snd (filter_stages e oldP (x, v))) = fdata v ∧
  limiter (fin (snd (filter_stages e oldP (x, v)))) = limiter (fin v).
Proof.
  unfold filter_stages.
  apply (for_up_inv (λ st, fdata (snd st) = fdata v ∧ limiter (fin (snd st)) = limiter (fin v))); [done|].
  intros k [y w] _ Hw. unfold filter_stage. cbn [snd] in *.
  destruct (_ =? 0); [done|]. destruct (calc_filter _ _ _) as [fd c]. destruct (_ =? _); [done|].
  destruct (switch_filter _ _ _ _ _ _ _ _) as [[z o] kk]. destruct (_ =? o); [|done].
  by destruct (truthy (Z.land e _)), (truthy o).
Qed.

(** The sample that enters the module: excitation plus the switched input. *)
Definition module_input (e : Z) (exc filterIn : F) : F :=
  if has e OPSWITCH_INPUT_ENABLE then f0 ⊕ exc ⊕ filterIn else f0 ⊕ exc.

Lemma request_offset_signals sv r (v : module_view F) :
  fdata (request_offset sv r v) = fdata v ∧ fcoef (request_offset sv r v) = fcoef v ∧
  fgain (request_offset sv r v) = fgain v ∧
  settings (request_offset sv r v) = settings v ∧
  ((r =ᶠ req (foffset v)) = true → request_offset sv r v = v)%cf.
Proof. unfold request_offset. destruct (r =ᶠ req (foffset v))%cf; repeat split. by intros. Qed.

Lemma input_stage_spec sv x (v : module_view F) :
  let v' := snd (input_stage sv x v) in
  fdata v' = set_inputTestpoint (module_input (opSwitchE (fin v)) (exciteInput (fdata v)) x)
               (set_filterInput (x ⊕ f0) (fdata v)) ∧
  fcoef v' = fcoef v ∧ fgain v' = fgain v ∧ settings v' = settings v ∧
  (((if has (opSwitchE (fin v)) OPSWITCH_OFFSET_ENABLE then offset (fin v) else flit 0 0) =ᶠ req (foffset v)) = true →
   isRamping (foffset v) = false →
   fst (input_stage sv x v) = module_input (opSwitchE (fin v)) (exciteInput (fdata v)) x ⊕ val (foffset v))%cf.
Proof.
  unfold input_stage. cbv zeta.
  set (x2 := if has (opSwitchE (fin (set_fdata _ v))) OPSWITCH_INPUT_ENABLE then _ else _).
  change x2 with (module_input (opSwitchE (fin v)) (exciteInput (fdata v)) x). clear x2.
  set (x2 := module_input _ _ _). set (v1 := set_fdata _ (set_fdata _ _)).
  replace (if has (opSwitchE (fin v1)) OPSWITCH_OFFSET_ENABLE then request_offset sv (offset (fin v1)) v1
           else request_offset sv (flit 0 0) v1)
    with (request_offset sv (if has (opSwitchE (fin v)) OPSWITCH_OFFSET_ENABLE then offset (fin v) else flit 0 0) v1)
    by (change (fin v1) with (fin v); by destruct (has _ OPSWITCH_OFFSET_ENABLE)).
  set (r := if has (opSwitchE (fin v)) OPSWITCH_OFFSET_ENABLE then _ else _).
  destruct (request_offset_signals sv r v1) as (Ed & Ec & Eg & Es & Ereq).
  set (v2 := request_offset sv r v1) in *. clearbody v2.
  set (v3 := if isRamping (foffset v2) then _ else _).
  assert (E3 : fdata v3 = fdata v2 ∧ fcoef v3 = fcoef v2 ∧ fgain v3 = fgain v2 ∧ settings v3 = settings v2 ∧
               foffset v3 = foffset v2).
  { unfold v3. by destruct (isRamping _). }
  clearbody v3. destruct E3 as (Fd & Fc & Fg & Fs & Fo).
  assert (Hsame : fdata v3 = fdata v1 ∧ fcoef v3 = fcoef v ∧ fgain v3 = fgain v ∧ settings v3 = settings v).
  { rewrite Fd, Fc, Fg, Fs, Ed, Ec, Eg, Es. done. }
  destruct Hsame as (Gd & Gc & Gg & Gs). rewrite Fo.
  destruct (RampParamUpdate (foffset v2)) as [o rr] eqn:Eu. cbn [fst snd].
  split; [by cbn [set_foffset fdata]; rewrite Gd|]. do 2 (split; [done|]). split; [exact Gs|].
  intros Hr Hi. assert (Ev : v2 = v1) by (apply Ereq; exact Hr).
  rewrite Ev in Eu. unfold RampParamUpdate in Eu. cbn [v1 set_fdata foffset] in Eu. rewrite Hi in Eu.
  cbn [negb] in Eu. by injection Eu as <- _.
Qed.
End signals.

(** ** The signal path of a call *)
Section calls.
Context {F : Type} `{FloatOps F}.
#[local] Opaque filterModuleD2.

(** The call, cut at its stages: what enters the output stage and what leaves. *)
Lemma module_step_signals sv x ctrl msk off g r (v : module_view F) :
  ∃ e i z u,
    decode_switches (fin v) ctrl msk off g r = (i, e) ∧
    filter_stages e (Z.shiftr (opSwitchP (fin v)) 1) (input_stage sv x (set_fin i v)) = (z, u) ∧
    module_step sv x ctrl msk off g r v = output_stage sv e (z, u) ∧
    fdata u = fdata (snd (input_stage sv x (set_fin i v))) ∧ limiter (fin u) = limiter (fin v) ∧ opSwitchE i = e.
Proof.
  unfold module_step. pose proof (decode_switches_frame (fin v) ctrl msk off g r) as Hd.
  pose proof (decode_switches_limiter (fin v) ctrl msk off g r) as Hl.
  destruct (decode_switches (fin v) ctrl msk off g r) as [i e]. destruct Hd as (He & _).
  pose proof (input_stage_spec sv x (set_fin i v)) as (_ & _ & _ & Hs & _).
  destruct (input_stage sv x (set_fin i v)) as [y w] eqn:Ei.
  pose proof (filter_stages_data e (Z.shiftr (opSwitchP (fin v)) 1) y w) as [H1 H2].
  destruct (filter_stages e (Z.shiftr (opSwitchP (fin v)) 1) (y, w)) as [z u] eqn:E.
  exists e, i, z, u. rewrite Ei. cbn [fst snd] in *.
  split; [done|]. split; [by rewrite E|]. split; [done|]. split; [done|]. split; [|done].
  rewrite H2. transitivity (limiter i); [|exact Hl]. exact (f_equal (λ t, t.1.1.2.1.2) Hs).
Qed.

Lemma filterModuleD2_output sv (s : FMState F) m x ctrl msk off g r :
  wf_state m s →
  let '(y, s') := filterModuleD2 sv s m x ctrl msk off g r in
  let d' := data (pFilt s') !!! m in
  let e := opSwitchE (inputs (pFilt s') !!! m) in
  (∃ z, testpoint d' = limit_output e (limiter (inputs (pFilt s) !!! m)) z) ∧
  route_spec e y (data (pFilt s) !!! m) d'.
Proof.
  intros Hwf. pose proof (filterModuleD2_view sv s m x ctrl msk off g r Hwf) as Hview.
  pose proof (module_step_protocol sv x ctrl msk off g r (view_of m s) (wf_cnt _ _ Hwf)) as (_ & _ & HE & _).
  assert (Hy : fst (filterModuleD2 sv s m x ctrl msk off g r) = fst (module_step sv x ctrl msk off g r (view_of m s))).
  { Transparent filterModuleD2. unfold filterModuleD2. destruct (module_step _ _ _ _ _ _ _ _). Opaque filterModuleD2. done. }
  destruct (filterModuleD2 sv s m x ctrl msk off g r) as [y s']. cbn [fst snd] in *. subst y.
  destruct (module_step_signals sv x ctrl msk off g r (view_of m s)) as (e & i & z & u & Ed & Ef & Em & Hd & Hl & He).
  change (data (pFilt s') !!! m) with (fdata (view_of m s')).
  change (inputs (pFilt s') !!! m) with (fin (view_of m s')).
  rewrite Hview, HE, Ed. rewrite Em. cbn [snd].
  pose proof (output_stage_spec sv e z u) as Ho. destruct (output_stage sv e (z, u)) as [y v'].
  destruct Ho as (Htp & _ & _ & Hroute). cbn [fst snd].
  split; [eexists; rewrite Htp, Hl; done|].
  pose proof (input_stage_spec sv x (set_fin i (view_of m s))) as (Hd' & _).
  rewrite Hd, Hd' in Hroute. exact Hroute.
Qed.
(** hold and output switches.  With HOLD on, whatever OUTPUT says, the call
    returns the output of the last call and freezes both output channels; with
    OUTPUT on it returns and records the output test point (and the slow channel
    follows it unless decimation is on); with both off it returns zero and zeroes
    the channels.  The test point is driven in every case. *)
Theorem output_switches sv (s : FMState F) m x ctrl msk off g r :
  wf_state m s →
  let '(y, s') := filterModuleD2 sv s m x ctrl msk off g r in
  let d := data (pFilt s) !!! m in
  let d' := data (pFilt s') !!! m in
  let e := opSwitchE (inputs (pFilt s') !!! m) in
  (∃ z, testpoint d' = limit_output e (limiter (inputs (pFilt s) !!! m)) z) ∧
  if has e OPSWITCH_HOLD_ENABLE then
    y = output d ∧ output d' = output d ∧ output16Hz d' = output16Hz d
  else if has e OPSWITCH_OUTPUT_ENABLE then
    y = testpoint d' ∧ output d' = y ∧ (has e OPSWITCH_DECIMATE_ENABLE = false → output16Hz d' = y)
  else y = flit 0 0 ∧ output d' = f0 ∧ output16Hz d' = f0.
Proof. intros Hwf. exact (filterModuleD2_output sv s m x ctrl msk off g r Hwf). Qed.

(** The ramps of a module at rest contribute their values. *)
Lemma request_gain_idle sv (v : module_view F) :
  (outgain (fin v) =ᶠ req (fgain v))%cf = true → isRamping (fgain v) = false →
  fst (RampParamUpdate (fgain (request_gain sv v))) = val (fgain v).
Proof.
  intros Hr Hi. unfold request_gain. rewrite Hr. cbn [negb]. rewrite Hi. cbn [set_fin fgain].
  unfold RampParamUpdate. by rewrite Hi.
Qed.

Lemma module_step_settled sv x (v : module_view F) :
  0 <= opSwitchE (fin v) < 2 ^ 32 →
  (∀ ii, (ii < FILTERS)%nat → filtSections (fcoef v) !!! ii ≠ 0 →
     Z.testbit (opSwitchP (fin v)) (ack_bit ii) = Z.testbit (opSwitchE (fin v)) (req_bit ii)) →
  isRamping (foffset v) = false → isRamping (fgain v) = false →
  ((if has (opSwitchE (fin v)) OPSWITCH_OFFSET_ENABLE then offset (fin v) else flit 0 0) =ᶠ req (foffset v))%cf = true →
  (outgain (fin v) =ᶠ req (fgain v))%cf = true →
  testpoint (fdata (snd (module_step sv x 0 0 f0 f0 f0 v))) =
    limit_output (opSwitchE (fin v)) (limiter (fin v))
      (for_n FILTERS (stage_signal (opSwitchE (fin v)) (fcoef v))
         (module_input (opSwitchE (fin v)) (exciteInput (fdata v)) x ⊕ val (foffset v)) ⊗ val (fgain v))%cf.
Proof.
  intros HE Hset Ho Hk Hreqo Hreqk. unfold module_step.
  change (decode_switches (fin v) 0 0 f0 f0 f0) with (set_control 0 (set_mask 0 (fin v)), opSwitchE (fin v)).
  set (j := set_control 0 (set_mask 0 (fin v))). set (e := opSwitchE (fin v)) in *.
  assert (Hj : opSwitchE j = e ∧ offset j = offset (fin v) ∧ outgain j = outgain (fin v) ∧ limiter j = limiter (fin v))
    by done.
  destruct Hj as (Je & Jo & Jg & Jl). clearbody j.
  destruct (input_stage_spec sv x (set_fin j v)) as (_ & Hc & Hg & Hs & Hsig).
  cbn [set_fin fin fdata foffset fcoef fgain] in Hc, Hg, Hsig.
  rewrite Je, Jo in Hsig. specialize (Hsig Hreqo Ho).
  destruct (input_stage sv x (set_fin j v)) as [y w]. cbn [fst snd] in *. subst y.
  assert (Hlim : limiter (fin w) = limiter (fin v)).
  { rewrite <- Jl. exact (f_equal (λ t, t.1.1.2.1.2) Hs). }
  assert (Hog : outgain (fin w) = outgain (fin v)).
  { rewrite <- Jg. exact (f_equal (λ t, t.1.1.2.1.1.2) Hs). }
  set (x1 := (module_input _ _ _ ⊕ _)%cf).
  destruct (filter_stages_settled e (Z.shiftr (opSwitchP (fin v)) 1) x1 w) as [Hz [h Hu]].
  { intros ii Hii. unfold settled. rewrite Hc.
    destruct (decide (filtSections (fcoef v) !!! ii = 0)) as [|Hn]; [by left|]. right.
    rewrite Z.shiftr_spec by (unfold req_bit; lia). unfold stage_on. rewrite <- (Hset ii Hii Hn).
    f_equal. unfold req_bit, ack_bit. lia. }
  destruct (filter_stages e _ (x1, w)) as [z u]. cbn [fst snd] in Hz, Hu. subst z u.
  set (u := set_fcoef _ w).
  pose proof (output_stage_spec sv e (for_n FILTERS (stage_signal e (fcoef w)) x1) u) as Hout.
  destruct (output_stage sv e _) as [y v']. destruct Hout as (Htp & _). cbn [snd].
  rewrite Htp, request_gain_idle.
  - change (limiter (fin u)) with (limiter (fin w)). change (fgain u) with (fgain w). by rewrite Hlim, Hc, Hg.
  - change (fgain u) with (fgain w). change (fin u) with (fin w). by rewrite Hog, Hg.
  - change (fgain u) with (fgain w). by rewrite Hg.
Qed.

(** the signal path of a module at rest.  With no request pending, ramps
    idle at the requested values and the controls left alone, the test point is
    the limited product of the gain and the cascade of exactly the engaged stages
    that have sections, applied to the switched input plus excitation and
    offset. *)
Theorem settled_signal_path sv (s : FMState F) m x :
  wf_state m s → 0 <= opSwitchE (inputs (pFilt s) !!! m) < 2 ^ 32 →
  let i := inputs (pFilt s) !!! m in
  let d := data (pFilt s) !!! m in
  let c := pC s !!! m in
  let e := opSwitchE i in
  let o := (offset_ramp s !!! m) !!! 0%nat in
  let k := (gain_ramp s !!! m) !!! 0%nat in
  (∀ ii, (ii < FILTERS)%nat → filtSections c !!! ii ≠ 0 →
     Z.testbit (opSwitchP i) (ack_bit ii) = Z.testbit e (req_bit ii)) →
  isRamping o = false → isRamping k = false →
  ((if has e OPSWITCH_OFFSET_ENABLE then offset i else flit 0 0) =ᶠ req o)%cf = true →
  (outgain i =ᶠ req k)%cf = true →
  testpoint (data (pFilt (snd (filterModuleD2 sv s m x 0 0 f0 f0 f0))) !!! m) =
    limit_output e (limiter i)
      (for_n FILTERS (stage_signal e c) (module_input e (exciteInput d) x ⊕ val o) ⊗ val k)%cf.
Proof.
  intros Hwf HE i d c e o k Hset Ho Hk Hreqo Hreqk.
  transitivity (testpoint (fdata (snd (module_step sv x 0 0 f0 f0 f0 (view_of m s))))).
  - rewrite <- filterModuleD2_view by done.
    set (s' := snd (filterModuleD2 sv s m x 0 0 f0 f0 f0)). clearbody s'. reflexivity.
  - by apply module_step_settled.
Qed.
End calls.

(** ** The limiter on machine numbers *)
Lemma SFcompare_antisym x y : SFcompare y x = option_map CompOpp (SFcompare x y).
Proof.
  destruct x as [[]|[]| |[] m e], y as [[]|[]| |[] n f]; cbn; try done;
    rewrite (Z.compare_antisym e f); destruct (Z.compare e f); cbn; try done;
    change (Pos.compare_cont Eq ?a ?b) with (Pos.compare a b);
    rewrite (Pos.compare_antisym m n); by destruct (Pos.compare m n).
Qed.

Lemma SFcompare_num x y : SFeqb x x = true → SFeqb y y = true → SFcompare x y ≠ None.
Proof.
  destruct x as [[]|[]| |[] m e], y as [[]|[]| |[] n f]; cbn; try done; destruct (Z.compare e f); done.
Qed.

(** Not above is at most, for numbers. *)
Lemma SFltb_false x y : SFeqb x x = true → SFeqb y y = true → SFltb x y = false → SFleb y x = true.
Proof.
  intros Hx Hy. pose proof (SFcompare_num x y Hx Hy). unfold SFltb, SFleb. rewrite (SFcompare_antisym x y).
  by destruct (SFcompare x y) as [[]|].
Qed.

Lemma SFcompare_refl x : SFeqb x x = true → SFcompare x x = Some Eq.
Proof. unfold SFeqb. by destruct (SFcompare x x) as [[]|]. Qed.

Lemma limit_output_bounds e (lim z : binary64) :
  has e OPSWITCH_LIMITER_ENABLE = true → fleb f0 lim = true →
  let t := limit_output e lim z in feqb t t = true → fleb (fneg lim) t = true ∧ fleb t lim = true.
Proof.
  intros He Hl. cbv zeta. unfold limit_output. rewrite He.
  generalize (if fltb (flit 1 20) z then flit 1 20 else z). intros out.
  cbn [fleb fltb feqb fneg binary64_ops] in *.
  assert (Hnum : SFeqb lim lim = true ∧ SFeqb (SFopp lim) (SFopp lim) = true ∧ SFleb (SFopp lim) lim = true).
  { destruct lim as [[]|[]| |[] m e']; try done; cbn in *.
    unfold SFeqb, SFleb. cbn. rewrite Z.compare_refl, !(Pos.compare_cont_refl m). by cbn. }
  destruct Hnum as (N1 & N2 & N3).
  assert (R1 : SFleb lim lim = true) by (unfold SFleb; by rewrite SFcompare_refl).
  assert (R2 : SFleb (SFopp lim) (SFopp lim) = true) by (unfold SFleb; by rewrite SFcompare_refl).
  destruct (SFltb lim out) eqn:E1; [done|].
  destruct (SFltb out (SFopp lim)) eqn:E2; [done|].
  intros N. split; by apply SFltb_false.
Qed.

(** the limiter bounds what leaves the module.  On IEEE doubles, with a limit that is not
    negative and LIMITER on, the output test point is within [-limit, limit],
    unless it is a NaN; and so is the returned value while OUTPUT is on and HOLD
    is off. *)
Theorem limiter_bounds sv (s : FMState binary64) m x ctrl msk off g r :
  wf_state m s →
  let '(y, s') := filterModuleD2 sv s m x ctrl msk off g r in
  let lim := limiter (inputs (pFilt s) !!! m) in
  let t := testpoint (data (pFilt s') !!! m) in
  let e := opSwitchE (inputs (pFilt s') !!! m) in
  fleb f0 lim = true → has e OPSWITCH_LIMITER_ENABLE = true → feqb t t = true →
  (fleb (fneg lim) t = true ∧ fleb t lim = true) ∧
  (has e OPSWITCH_HOLD_ENABLE = false → has e OPSWITCH_OUTPUT_ENABLE = true → y = t).
Proof.
  intros Hwf. pose proof (filterModuleD2_output sv s m x ctrl msk off g r Hwf) as Hout.
  destruct (filterModuleD2 _ _ _ _ _ _ _ _ _) as [y s']. destruct Hout as [[z Ez] Hroute]. cbv zeta.
  intros Hl He Ht. split.
  - rewrite Ez in *. by apply limit_output_bounds.
  - intros Hh Ho. unfold route_spec in Hroute. rewrite Hh, Ho in Hroute. by destruct Hroute.
Qed.

(** ** Concrete instances

    One module with input, limiter and output on; stage 0 holds one section of
    switching type 12 and a ramp of two samples; [switches] and [acks] are the
    request and readback registers. *)
Definition demo_coef (sections : Z) : FM_OP_COEF binary64 :=
  mkCoef (replicate 10 (flit 2 0 :: replicate 40 f0)) (replicate 10 (replicate 20 f0))
         (sections :: replicate 9 0) (replicate 10 12) (replicate 8 f0) (replicate 10 0) 0.

Definition demo_state (switches acks : Z) : FMState binary64 :=
  mkFM (mkMod [mkIn switches acks 0 f0 f1 (flit 5 0) (replicate 10 2) (replicate 10 0) (replicate 10 0) f0 0 0 0 0]
              [mkData f0 f0 f0 f0 f0 f0 0] 0 0)
       [demo_coef 1] [[RampParamInit f0 16384]] [[RampParamInit f1 16384]].

Lemma demo_wf switches acks : wf_state 0 (demo_state switches acks).
Proof. split; vm_compute; lia. Qed.

Lemma control_mask_table_witness :
  let i := inputs (pFilt (demo_state 0x50 0)) !!! 0%nat in
  let '(i', e) := decode_switches i 0x1002 0x1003 f0 f0 f0 in e = 0x4000040 ∧ Z.testbit e 4 = false.
Proof.
  cbv zeta. set (i := inputs (pFilt (demo_state 0x50 0)) !!! 0%nat).
  assert (Hr : 0 <= opSwitchE i < 2 ^ 32) by (vm_compute; split; done).
  assert (He : snd (decode_switches i 0x1002 0x1003 f0 f0 f0) = 0x4000040) by (vm_compute; done).
  pose proof (control_mask_table i 0x1002 0x1003 f0 f0 f0 Hr (Zle_0_pos _)) as Hc.
  destruct (decode_switches _ _ _ _ _ _) as [i' e]. split; [exact He|].
  destruct Hc as (_ & _ & Hbits). destruct (Hbits eq_refl) as [Hbit _].
  assert (H0 : (0 < 13)%nat) by lia. exact (Hbit 0%nat H0).
Defined.

Lemma filterModuleD2_switching_witness :
  let s := demo_state 0x5000014 0 in
  let s' := snd (filterModuleD2 SERVO16K s 0 f1 0 0 f0 f0 f0) in
  sw_step 2 2 0 true (false, 0) (Z.testbit (opSwitchP (inputs (pFilt s') !!! 0%nat)) (ack_bit 0),
                                 cnt (inputs (pFilt s') !!! 0%nat) !!! 0%nat).
Proof.
  exact (filterModuleD2_switching SERVO16K (demo_state 0x5000014 0) 0 f1 0 0 f0 f0 f0 0
           (demo_wf _ _) ltac:(unfold FILTERS; lia)).
Defined.

Lemma switching_completes_witness :
  let s := demo_state 0x5000014 0 in
  let run xs := Z.testbit (opSwitchP (inputs (pFilt (module_run SERVO16K 0 s xs)) !!! 0%nat)) (ack_bit 0) in
  run [f1; f1; f0] = true ∧ run [f1; f1] = false.
Proof.
  assert (Hr : 0 <= opSwitchE (inputs (pFilt (demo_state 0x5000014 0)) !!! 0%nat) < 2 ^ 32)
    by (vm_compute; split; done).
  pose proof (λ xs, switching_completes SERVO16K (demo_state 0x5000014 0) 0 0 xs (demo_wf _ _)
           ltac:(unfold FILTERS; lia) Hr ltac:(vm_compute; done) ltac:(vm_compute; split; done)
           ltac:(intros _; vm_compute; split; done) ltac:(vm_compute; done)) as Hc.
  split; [apply (proj1 (Hc [f1; f1; f0])) | apply (proj2 (Hc [f1; f1]) eq_refl)]; vm_compute; done.
Defined.

Lemma filterModuleD_footprint_witness :
  let s := demo_state 0x5000014 0 in
  let s' := snd (filterModuleD SERVO16K s 0 f1 0x1002 0x1003) in
  Z.testbit (opSwitchE (inputs (pFilt s') !!! 0%nat)) (req_bit 0) = false ∧
  Z.testbit (opSwitchE (inputs (pFilt s') !!! 0%nat)) 26 = true.
Proof.
  assert (Hr : 0 <= opSwitchE (inputs (pFilt (demo_state 0x5000014 0)) !!! 0%nat) < 2 ^ 32)
    by (vm_compute; split; done).
  pose proof (filterModuleD_footprint SERVO16K (demo_state 0x5000014 0) 0 f1 0x1002 0x1003 (demo_wf _ _) Hr
                (Zle_0_pos _)) as Hf.
  cbv zeta in Hf |- *. set (s' := snd (filterModuleD _ _ _ _ _ _)) in *. clearbody s'.
  destruct Hf as (_ & _ & _ & _ & Hreq & Hoth).
  split; [exact (Hreq 0%nat ltac:(unfold FILTERS; lia))|].
  rewrite Hoth; [done|lia|]. intros ix Hix. unfold req_bit, FILTERS in *. lia.
Defined.

Lemma output_switches_witness :
  let '(y, s') := filterModuleD2 SERVO16K (demo_state 0xD000004 0) 0 f1 0 0 f0 f0 f0 in
  y = f0 ∧ output (data (pFilt s') !!! 0%nat) = f0.
Proof.
  pose proof (output_switches SERVO16K (demo_state 0xD000004 0) 0 f1 0 0 f0 f0 f0 (demo_wf _ _)) as Ho.
  assert (He : opSwitchE (inputs (pFilt (snd (filterModuleD2 SERVO16K (demo_state 0xD000004 0) 0 f1 0 0 f0 f0 f0)))
                 !!! 0%nat) = 0xD000004) by (vm_compute; done).
  destruct (filterModuleD2 _ _ _ _ _ _ _ _ _) as [y s']. cbn [snd] in He. cbv zeta in Ho. rewrite He in Ho.
  destruct Ho as (_ & Hy & Ho & _). split; [by rewrite Hy|by rewrite Ho].
Defined.

Lemma settled_signal_path_witness :
  let s := demo_state 0x5000014 0x20 in
  testpoint (data (pFilt (snd (filterModuleD2 SERVO16K s 0 (flit 3 0) 0 0 f0 f0 f0))) !!! 0%nat) = flit 5 0.
Proof.
  transitivity (limit_output 0x5000014 (flit 5 0)
    (for_n FILTERS (stage_signal 0x5000014 (demo_coef 1)) (module_input 0x5000014 f0 (flit 3 0) ⊕ f0) ⊗ f1)%cf);
    [|vm_compute; done].
  apply (settled_signal_path SERVO16K (demo_state 0x5000014 0x20) 0 (flit 3 0) (demo_wf _ _));
    [vm_compute; split; done| |done..].
  intros ii Hii. unfold FILTERS in Hii. do 10 (destruct ii as [|ii]; [done|]). lia.
Defined.

Lemma limiter_bounds_witness :
  let '(y, s') := filterModuleD2 SERVO16K (demo_state 0x5000014 0x20) 0 (flit (-30) 0) 0 0 f0 f0 f0 in
  fleb (flit (-5) 0) y = true.
Proof.
  pose proof (limiter_bounds SERVO16K (demo_state 0x5000014 0x20) 0 (flit (-30) 0) 0 0 f0 f0 f0 (demo_wf _ _)) as Hl.
  assert (He : opSwitchE (inputs (pFilt (snd (filterModuleD2 SERVO16K (demo_state 0x5000014 0x20) 0 (flit (-30) 0)
                 0 0 f0 f0 f0))) !!! 0%nat) = 0x5000014) by (vm_compute; done).
  assert (Ht : let t := testpoint (data (pFilt (snd (filterModuleD2 SERVO16K (demo_state 0x5000014 0x20) 0 (flit (-30) 0)
                 0 0 f0 f0 f0))) !!! 0%nat) in feqb t t = true) by (vm_compute; done).
  destruct (filterModuleD2 _ _ _ _ _ _ _ _ _) as [y s']. cbn [snd] in He, Ht. cbv zeta in Hl, Ht. rewrite He in Hl.
  destruct (Hl ltac:(done) ltac:(done) Ht) as [[Hlow _] Hy]. rewrite Hy by done. exact Hlow.
Defined.
End FilterProps.
