(* ===== verification/FilterLoad.v ===== *)
(** * Loading filter coefficients ([src/include/drv/fm10Gen.c], [src/drv/fmReadCoeff.c])

    The EPICS process publishes the coefficients of a filter file in shared
    memory ([publish]); the front end copies them, all at start ([readCoefVme],
    [initVars]) or, while the servo runs, one second order section per cycle
    ([readCoefVme2], driven by the state machine [checkFiltReset]).

    - data: [VME_FM_OP_COEF] (shared memory), [ResetId] (one reload state
      machine), [LoadState] and [CheckState] (what the calls read and write);
    - [load_begin], [load_section], [load_commit]: the three kinds of cycle of
      [readCoefVme2], whose checksum runs over the bytes it copies;
    - [reload_completes], [reload_matches_publication]: a reload ends, after a known number of
      cycles, with the published filters and the published checksum.

    The build modelled is the one without [FIR_FILTERS]. *)
From S2P Require Import Prelude CFloat Crc Ramp Iir FilterModule.
Import Crc Ramp Iir FilterModule.

Module FilterLoad.

Definition MAX_SO_SECTIONS : Z := 10.
Definition MAX_UPDATE_CYCLE : Z := MAX_SO_SECTIONS + 1.

(** The bytes of an object of [n] bytes in memory, least significant first. *)
Definition le_bytes (n : nat) (z : Z) : list Z :=
  map (λ i, Z.land (Z.shiftr z (8 * Z.of_nat i)) 0xFF) (seq 0 n).

(** [crc_ptr] over an [int] object. *)
Definition crc_int (x crc : Z) : Z := crc_ptr (le_bytes 4 (u32 x)) 4 crc.

Section defs.
Context {F : Type} `{FloatOps F, FloatBits F}.

(** [crc_ptr] over a [double] object. *)
Definition crc_double (x : F) (crc : Z) : Z := crc_ptr (le_bytes 8 (fbits x)) 8 crc.

(** [struct VME_FM_OP_COEF]: the coefficients of one module in shared memory. *)
Record VME_FM_OP_COEF := mkVme {
  vfiltCoeff : list (list F);
  filtName : list (list Z);
  bankNum : Z;
  vfiltSections : list Z;
  vsType : list Z;
  ramp : list Z;
  timout : list Z;
  crc : Z;
  vfilterType : list Z;
  vbiquad : Z
}.

(** [struct filtResetId]; [fmResetDsp] is the pointer to the module array the
    reload is for, as the identity of that array. *)
Record ResetId := mkReset {
  fmResetCoeff : Z;
  fmResetCounter : nat;
  fmSubCounter : Z;
  fmResetDsp : option nat;
  changed : list Z
}.

(** What [readCoefVme2] works on: the arrays behind [filtC] and [fmt], its static
    [localCoeff], and the flags behind [changed]. *)
Record LoadState := mkLoad {
  filtC : list (FM_OP_COEF F);
  fmt : FILT_MOD F;
  localCoeff : VME_FM_OP_COEF;
  chg : list Z
}.

(** What [checkFiltResetId] works on: the global reset table, the static of
    [readCoefVme2], the local and shared module arrays and the coefficients. *)
Record CheckState := mkCheck {
  filtResetId : list ResetId;
  cs_localCoeff : VME_FM_OP_COEF;
  cs_pL : FILT_MOD F;
  dspVme : FILT_MOD F;
  cs_pC : list (FM_OP_COEF F)
}.

Definition set_vfiltCoeff (v : list (list F)) (r : VME_FM_OP_COEF) : VME_FM_OP_COEF :=
  mkVme v (filtName r) (bankNum r) (vfiltSections r) (vsType r) (ramp r) (timout r) (crc r)
    (vfilterType r) (vbiquad r).
Definition set_bankNum (v : Z) (r : VME_FM_OP_COEF) : VME_FM_OP_COEF :=
  mkVme (vfiltCoeff r) (filtName r) v (vfiltSections r) (vsType r) (ramp r) (timout r)
    (crc r) (vfilterType r) (vbiquad r).
Definition set_vfiltSections (v : list Z) (r : VME_FM_OP_COEF) : VME_FM_OP_COEF :=
  mkVme (vfiltCoeff r) (filtName r) (bankNum r) v (vsType r) (ramp r) (timout r) (crc r)
    (vfilterType r) (vbiquad r).
Definition set_vsType (v : list Z) (r : VME_FM_OP_COEF) : VME_FM_OP_COEF :=
  mkVme (vfiltCoeff r) (filtName r) (bankNum r) (vfiltSections r) v (ramp r) (timout r)
    (crc r) (vfilterType r) (vbiquad r).
Definition set_ramp (v : list Z) (r : VME_FM_OP_COEF) : VME_FM_OP_COEF :=
  mkVme (vfiltCoeff r) (filtName r) (bankNum r) (vfiltSections r) (vsType r) v (timout r)
    (crc r) (vfilterType r) (vbiquad r).
Definition set_timout (v : list Z) (r : VME_FM_OP_COEF) : VME_FM_OP_COEF :=
  mkVme (vfiltCoeff r) (filtName r) (bankNum r) (vfiltSections r) (vsType r) (ramp r) v
    (crc r) (vfilterType r) (vbiquad r).
Definition set_crc (v : Z) (r : VME_FM_OP_COEF) : VME_FM_OP_COEF :=
  mkVme (vfiltCoeff r) (filtName r) (bankNum r) (vfiltSections r) (vsType r) (ramp r)
    (timout r) v (vfilterType r) (vbiquad r).
Definition set_vfilterType (v : list Z) (r : VME_FM_OP_COEF) : VME_FM_OP_COEF :=
  mkVme (vfiltCoeff r) (filtName r) (bankNum r) (vfiltSections r) (vsType r) (ramp r)
    (timout r) (crc r) v (vbiquad r).
Definition set_vbiquad (v : Z) (r : VME_FM_OP_COEF) : VME_FM_OP_COEF :=
  mkVme (vfiltCoeff r) (filtName r) (bankNum r) (vfiltSections r) (vsType r) (ramp r)
    (timout r) (crc r) (vfilterType r) v.
Definition set_fmResetCoeff (v : Z) (r : ResetId) : ResetId :=
  mkReset v (fmResetCounter r) (fmSubCounter r) (fmResetDsp r) (changed r).
Definition set_fmResetCounter (v : nat) (r : ResetId) : ResetId :=
  mkReset (fmResetCoeff r) v (fmSubCounter r) (fmResetDsp r) (changed r).
Definition set_fmSubCounter (v : Z) (r : ResetId) : ResetId :=
  mkReset (fmResetCoeff r) (fmResetCounter r) v (fmResetDsp r) (changed r).
Definition set_fmResetDsp (v : option nat) (r : ResetId) : ResetId :=
  mkReset (fmResetCoeff r) (fmResetCounter r) (fmSubCounter r) v (changed r).
Definition set_changed (v : list Z) (r : ResetId) : ResetId :=
  mkReset (fmResetCoeff r) (fmResetCounter r) (fmSubCounter r) (fmResetDsp r) v.
Definition set_filtC (v : list (FM_OP_COEF F)) (r : LoadState) : LoadState :=
  mkLoad v (fmt r) (localCoeff r) (chg r).
Definition set_fmt (v : FILT_MOD F) (r : LoadState) : LoadState :=
  mkLoad (filtC r) v (localCoeff r) (chg r).
Definition set_localCoeff (v : VME_FM_OP_COEF) (r : LoadState) : LoadState :=
  mkLoad (filtC r) (fmt r) v (chg r).
Definition set_chg (v : list Z) (r : LoadState) : LoadState :=
  mkLoad (filtC r) (fmt r) (localCoeff r) v.
Definition set_filtResetId (v : list ResetId) (r : CheckState) : CheckState :=
  mkCheck v (cs_localCoeff r) (cs_pL r) (dspVme r) (cs_pC r).
Definition set_cs_localCoeff (v : VME_FM_OP_COEF) (r : CheckState) : CheckState :=
  mkCheck (filtResetId r) v (cs_pL r) (dspVme r) (cs_pC r).
Definition set_cs_pL (v : FILT_MOD F) (r : CheckState) : CheckState :=
  mkCheck (filtResetId r) (cs_localCoeff r) v (dspVme r) (cs_pC r).
Definition set_dspVme (v : FILT_MOD F) (r : CheckState) : CheckState :=
  mkCheck (filtResetId r) (cs_localCoeff r) (cs_pL r) v (cs_pC r).
Definition set_cs_pC (v : list (FM_OP_COEF F)) (r : CheckState) : CheckState :=
  mkCheck (filtResetId r) (cs_localCoeff r) (cs_pL r) (dspVme r) v.

#[global] Instance VME_inhabited : Inhabited VME_FM_OP_COEF :=
  populate (mkVme [] [] 0 [] [] [] [] 0 [] 0).
#[global] Instance ResetId_inhabited : Inhabited ResetId := populate (mkReset 0 0 0 None []).

(** Update of the entry of one filter module. *)
Definition upd_coef (m : nat) (f : FM_OP_COEF F → FM_OP_COEF F) (s : LoadState) : LoadState :=
  set_filtC (alter f m (filtC s)) s.
Definition upd_in (m : nat) (f : FM_OP_IN F → FM_OP_IN F) (s : LoadState) : LoadState :=
  set_fmt (set_inputs (alter f m (inputs (fmt s))) (fmt s)) s.
Definition upd_local (f : VME_FM_OP_COEF → VME_FM_OP_COEF) (s : LoadState) : LoadState :=
  set_localCoeff (f (localCoeff s)) s.
(** [a[j][k] = x]. *)
Definition set2 {A} (j k : nat) (x : A) (a : list (list A)) : list (list A) := alter (λ r, <[k := x]> r) j a.

(** *** Start-up copy

    [load_filter] is the body of the filter loop; it returns the new state and
    the error code it returns early with. *)
Definition load_filter (rfm : list VME_FM_OP_COEF) (ii jj : nat) (s : list (FM_OP_COEF F) * FILT_MOD F)
  : (list (FM_OP_COEF F) * FILT_MOD F) * option Z :=
  let v := rfm !!! ii in
  if truthy (vfiltSections v !!! jj) then
    let '(C, M) := s in
    let n := vfiltSections v !!! jj in
    let C := alter (λ c, set_sType (<[jj := vsType v !!! jj]> (sType c))
                (set_filtSections (<[jj := n]> (filtSections c))
                (set_filterType (<[jj := vfilterType v !!! jj]> (filterType c)) c))) ii C in
    let M := set_inputs (alter (λ i, set_timeout (<[jj := timout v !!! jj]> (timeout i))
                (set_rmpcmp (<[jj := ramp v !!! jj]> (rmpcmp i)) i)) ii (inputs M)) M in
    if vfilterType v !!! jj =? 0 then
      if n >? 10 then ((C, M), Some 1)
      else
        let C := alter (λ c, set_filtCoeff
                   (for_n (Z.to_nat (n * 4 + 1))
                      (λ kk a, set2 jj kk ((vfiltCoeff v !!! jj) !!! kk) a) (filtCoeff c)) c) ii C in
        ((C, M), None)
    else ((C, M), None)
  else (s, None).

Definition load_module (rfm : list VME_FM_OP_COEF) (ii : nat) (s : list (FM_OP_COEF F) * FILT_MOD F)
  : (list (FM_OP_COEF F) * FILT_MOD F) * option Z :=
  let '(C, M) := s in
  for_exit 0 FILTERS (load_filter rfm ii) (alter (set_biquad (vbiquad (rfm !!! ii))) ii C, M).

Definition readCoefVme (C : list (FM_OP_COEF F)) (M : FILT_MOD F) (bF sF : nat)
    (rfm : list VME_FM_OP_COEF) : Z * (list (FM_OP_COEF F) * FILT_MOD F) :=
  match for_exit bF (sF - bF) (load_module rfm) (C, M) with
  | (s, Some r) => (r, s)
  | (s, None) => (0, s)
  end.

(** *** One cycle of a reload *)

(** Cycle 0: the switching parameters. *)
Definition load_begin (v : VME_FM_OP_COEF) (m j : nat) (s : LoadState) : Z * LoadState :=
  let type := vfilterType v !!! j in
  let s := set_chg (replicate 10 0) s in
  let ii := u32 (vfiltSections v !!! j) in
  let s := if (j =? 0)%nat then upd_local (set_crc 0) s else s in
  let s := upd_local (λ l, set_crc (crc_int ii (crc l)) l) s in
  if ((ii >? 0) && (ii <? 11)) || ((ii >? 10) && (type >? 0)) then
    let s := upd_local (λ l,
      set_timout (<[j := timout v !!! j]> (timout l))
      (set_ramp (<[j := ramp v !!! j]> (ramp l))
      (set_vsType (<[j := vsType v !!! j]> (vsType l))
      (set_vfilterType (<[j := type]> (vfilterType l))
      (set_vfiltSections (<[j := s32 ii]> (vfiltSections l)) l))))) s in
    let s := upd_local (λ l, set_crc (crc_int (vsType l !!! j) (crc l)) l) s in
    let s := upd_local (λ l, set_crc (crc_int (ramp l !!! j) (crc l)) l) s in
    let s := upd_local (λ l, set_crc (crc_int (timout l !!! j) (crc l)) l) s in
    (1, s)
  else
    let s := upd_in m (λ i, set_opSwitchP (clear (opSwitchP i) (pow2_out !!! j)) i) s in
    let s := upd_coef m (λ c, set_filterType (<[j := 0]> (filterType c))
                               (set_filtSections (<[j := 0]> (filtSections c)) c)) s in
    let s := set_chg (replicate 10 1) s in
    let s := upd_local (λ l, set_vfiltSections (<[j := 0]> (vfiltSections l)) l) s in
    (MAX_UPDATE_CYCLE, s).

(** [localCoeff.filtCoeff[j][k] = temp], with the comparison and the checksum. *)
Definition load_coef (v : VME_FM_OP_COEF) (m j k : nat) (s : LoadState) : LoadState :=
  let temp := (vfiltCoeff v !!! j) !!! k in
  let s := if ((filtCoeff (filtC s !!! m) !!! j) !!! k) ≠ᶠ temp
           then set_chg (alter (λ n, n + 1) j (chg s)) s else s in
  let s := upd_local (λ l, set_vfiltCoeff (set2 j k temp (vfiltCoeff l)) l) s in
  upd_local (λ l, set_crc (crc_double ((vfiltCoeff l !!! j) !!! k) (crc l)) l) s.

(** Cycles 1 to 10: the gain on the first, and one second order section. *)
Definition load_section (v : VME_FM_OP_COEF) (m j : nat) (cycle : Z) (s : LoadState) : Z * LoadState :=
  let type := vfilterType v !!! j in
  let s := if (cycle =? 1) && negb (type >? 0) then load_coef v m j 0 s else s in
  let to := Z.to_nat (cycle * 4 + 1) in
  let s := if type >? 0 then s else for_up (to - 4) 4 (load_coef v m j) s in
  (if vfiltSections (localCoeff s) !!! j >? cycle then cycle + 1 else MAX_UPDATE_CYCLE, s).

(** Last cycle: the local filter is replaced.  The checksum is compared for the
    last filter of a bank, and nothing is done about the outcome. *)
Definition load_commit (v : VME_FM_OP_COEF) (m j : nat) (s : LoadState) : Z * LoadState :=
  let type := vfilterType v !!! j in
  let l := localCoeff s in
  if truthy (vfiltSections l !!! j) then
    let s := for_n FILTERS (λ jj s,
      if truthy (chg s !!! jj) then
        if truthy type then s
        else upd_coef m (λ c, set_filtHist (<[jj := replicate MAX_HISTRY f0]> (filtHist c)) c) s
      else s) s in
    let s := upd_coef m (λ c,
      set_sType (<[j := vsType l !!! j]> (sType c))
      (set_filterType (<[j := vfilterType l !!! j]> (filterType c))
      (set_filtSections (<[j := vfiltSections l !!! j]> (filtSections c)) c))) s in
    let s := upd_in m (λ i, set_timeout (<[j := timout l !!! j]> (timeout i))
                              (set_rmpcmp (<[j := ramp l !!! j]> (rmpcmp i)) i)) s in
    let s :=
      if type >? 0 then s
      else upd_coef m (λ c, set_filtCoeff
             (for_n (Z.to_nat (filtSections c !!! j * 4 + 1))
                (λ kk a, set2 j kk ((vfiltCoeff l !!! j) !!! kk) a) (filtCoeff c)) c) s in
    (0, s)
  else (0, s).

Definition readCoefVme2 (modNum1 filtNum : nat) (cycle : Z) (pRfmCoeff : list VME_FM_OP_COEF) (s : LoadState)
  : Z * LoadState :=
  let v := pRfmCoeff !!! modNum1 in
  if cycle =? 0 then load_begin v modNum1 filtNum s
  else if (cycle >? 0) && (cycle <? MAX_UPDATE_CYCLE) then load_section v modNum1 filtNum cycle s
  else if cycle =? MAX_UPDATE_CYCLE then load_commit v modNum1 filtNum s
  else (0, s).

(** *** The reload state machine *)

(** A reload in progress for the caller's module array: one cycle of it. *)
Definition reset_step (pRfmCoeff : list VME_FM_OP_COEF) (id : nat) (s : CheckState) : CheckState :=
  let r := filtResetId s !!! id in
  let '(sub, l) := readCoefVme2 (Z.to_nat (fmResetCoeff r - 1)) (fmResetCounter r) (fmSubCounter r) pRfmCoeff
                     (mkLoad (cs_pC s) (cs_pL s) (cs_localCoeff s) (changed r)) in
  let r := set_fmSubCounter sub (set_changed (chg l) r) in
  let '(r, D) :=
    if sub =? -1 then
      (set_fmResetCounter 0%nat (set_fmResetCoeff 0 r), set_coef_load_error (-1) (dspVme s))
    else if sub =? 0 then
      let r := set_fmResetCounter (fmResetCounter r + 1)%nat r in
      if (FILTERS <=? fmResetCounter r)%nat then
        (set_fmResetCoeff 0 (set_fmResetCounter 0%nat r), set_coef_load_error (fmResetCoeff r) (dspVme s))
      else (r, dspVme s)
    else (r, dspVme s) in
  mkCheck (<[id := r]> (filtResetId s)) (localCoeff l) (fmt l) D (filtC l).

(** No reload in progress: the reset requests of module [bankNum]. *)
Definition reset_request (bankNum : nat) (pL : nat) (id : nat) (s : CheckState) : CheckState :=
  let status := Z.land (rset (inputs (dspVme s) !!! bankNum)) 0x3 in
  let s :=
    if truthy status then
      set_dspVme (set_inputs (alter (λ i, mkIn (opSwitchE i) (opSwitchP i) 0 (offset i) (outgain i)
        (limiter i) (rmpcmp i) (timeout i) (cnt i) (gain_ramp_time i) (mask i) (control i) (swReq i)
        (swMask i)) bankNum (inputs (dspVme s))) (dspVme s)) s
    else s in
  let s :=
    if has status 2 then
      set_cs_pC (alter (λ c, set_decHist (replicate 8 f0)
        (for_n FILTERS (λ jj c, set_filtHist (<[jj := replicate MAX_HISTRY f0]> (filtHist c)) c) c))
        bankNum (cs_pC s)) s
    else s in
  set_filtResetId (alter (λ r,
    if has status 1 then set_fmResetDsp (Some pL) (set_fmResetCoeff (Z.of_nat bankNum + 1) r)
    else set_fmResetCoeff 0 r) id (filtResetId s)) s.

(** [pL] is the identity of the array the caller passes. *)
Definition checkFiltResetId (bankNum : Z) (pL : nat) (totMod : Z) (pRfmCoeff : list VME_FM_OP_COEF) (id : Z)
    (s : CheckState) : CheckState :=
  if (id <? 0) || (id >? 9) then s
  else
    let id := Z.to_nat id in
    let r := filtResetId s !!! id in
    if truthy (fmResetCoeff r) then
      if decide (fmResetDsp r = Some pL) then reset_step pRfmCoeff id s else s
    else if (0 <=? bankNum) && (bankNum <? totMod) then reset_request (Z.to_nat bankNum) pL id s
    else s.

Definition checkFiltReset (bankNum : Z) (pL : nat) (totMod : Z) (pRfmCoeff : list VME_FM_OP_COEF)
    (s : CheckState) : CheckState :=
  checkFiltResetId bankNum pL totMod pRfmCoeff 0 s.

(** *** Start-up *)
Definition init_module (sv : servo) (pV : FILT_MOD F) (id : nat) (ii : nat) (s : FMState F) : FMState F :=
  let c := pC s !!! ii in
  let i := inputs (pFilt s) !!! ii in
  let p := inputs pV !!! ii in
  let c := for_n FILTERS (λ kk c, set_filtHist (<[kk := replicate MAX_HISTRY f0]> (filtHist c)) c) c in
  let c := set_decHist (replicate 8 f0) c in
  let i := mkIn (opSwitchE p) 0 0 (offset p) (outgain p) (limiter p) (rmpcmp i) (timeout i)
             (for_n FILTERS (λ kk l, <[kk := 0]> l) (cnt i)) (gain_ramp_time p) (mask i) (control i) (swReq i)
             (swMask i) in
  let o := if has (opSwitchE i) OPSWITCH_OFFSET_ENABLE then offset i else flit 0 0 in
  mkFM (set_inputs (<[ii := i]> (inputs (pFilt s))) (pFilt s)) (<[ii := c]> (pC s))
       (alter (λ l, <[id := RampParamInit o (FE_RATE sv)]> l) ii (offset_ramp s))
       (alter (λ l, <[id := RampParamInit (outgain i) (FE_RATE sv)]> l) ii (gain_ramp s)).

Definition initVarsId (sv : servo) (s : FMState F) (pV : FILT_MOD F) (totMod : nat)
    (pRfmCoeff : list VME_FM_OP_COEF) (id : nat) : Z * FMState F :=
  let s := for_n totMod (init_module sv pV id) s in
  let '(r, (C, M)) := readCoefVme (pC s) (pFilt s) 0 totMod pRfmCoeff in
  (r, mkFM M C (offset_ramp s) (gain_ramp s)).

Definition initVars (sv : servo) (s : FMState F) (pV : FILT_MOD F) (totMod : nat)
    (pRfmCoeff : list VME_FM_OP_COEF) : Z * FMState F :=
  initVarsId sv s pV totMod pRfmCoeff 0.

(** *** The publisher ([fmReadCoeff.c], lines 850-928)

    [publish_filter] is the body of the loop over the filters of a module:
    the checksum so far and the shared record.  [d] is the parsed [fmd]. *)
Definition publish_coef (d : VME_FM_OP_COEF) (j k : nat) (st : Z * VME_FM_OP_COEF) : Z * VME_FM_OP_COEF :=
  let '(coefCrc, p) := st in
  let p := set_vfiltCoeff (set2 j k ((vfiltCoeff d !!! j) !!! k) (vfiltCoeff p)) p in
  let nSections := u32 (vfiltSections d !!! j) in
  (if nSections >? 0 then crc_double ((vfiltCoeff d !!! j) !!! k) coefCrc else coefCrc, p).

Definition publish_filter (d : VME_FM_OP_COEF) (j : nat) (st : Z * VME_FM_OP_COEF) : Z * VME_FM_OP_COEF :=
  let '(coefCrc, p) := st in
  let nSections := u32 (vfiltSections d !!! j) in
  let nCoefs := u32 (1 + nSections * 4) in
  let coefCrc := crc_int nSections coefCrc in
  let coefCrc :=
    if nSections >? 0 then
      crc_int (timout d !!! j) (crc_int (ramp d !!! j) (crc_int (vsType d !!! j) coefCrc))
    else coefCrc in
  let p := set_vfilterType (<[j := vfilterType d !!! j]> (vfilterType p)) p in
  let '(coefCrc, p) := for_n (Z.to_nat nCoefs) (publish_coef d j) (coefCrc, p) in
  let p := mkVme (vfiltCoeff p) (<[j := filtName d !!! j]> (filtName p)) (bankNum p)
             (<[j := s32 nSections]> (vfiltSections p)) (<[j := vsType d !!! j]> (vsType p))
             (<[j := ramp d !!! j]> (ramp p)) (<[j := timout d !!! j]> (timout p)) (crc p)
             (vfilterType p) (vbiquad p) in
  (coefCrc, p).

Definition publish (d : VME_FM_OP_COEF) (biquad : Z) (p : VME_FM_OP_COEF) : VME_FM_OP_COEF :=
  let '(coefCrc, p) := for_n FILTERS (publish_filter d) (0, p) in
  set_bankNum (bankNum d) (set_vbiquad biquad (set_crc coefCrc p)).

End defs.
Arguments VME_FM_OP_COEF : clear implicits.
Arguments LoadState : clear implicits.
Arguments CheckState : clear implicits.
End FilterLoad.
