(* ===== verification/FilterReload.v ===== *)
(** * Reloading filters: correctness ([FilterLoad.v])

    - what one filter's cycles amount to ([load_whole]) and that the cycles of
      [readCoefVme2] amount to it;
    - the state machine [checkFiltReset] as a run over the ten filters;
    - the reload ends, after a computed number of cycles, with the shared filters
      loaded and the checksum of what was read;
    - the publisher's checksum is the loader's. *)
From S2P Require Import Prelude CFloat Crc Ramp Iir FilterModule FilterLoad.
Import Crc Ramp Iir FilterModule FilterLoad.

Module FilterReload.
Section reload.
Context {F : Type} `{FloatOps F, FloatBits F}.

(** Shared records the IIR loader accepts. *)
Record vme_ok (v : VME_FM_OP_COEF F) : Prop := {
  vme_sections : ∀ j, (j < FILTERS)%nat → 0 <= vfiltSections v !!! j <= 10;
  vme_iir : ∀ j, (j < FILTERS)%nat → vfilterType v !!! j = 0
}.

(** The arrays have their C dimensions. *)
Definition coef_dims (c : list (list F)) : Prop :=
  length c = FILTERS ∧ ∀ j, (j < FILTERS)%nat → length (c !!! j) = MAX_COEFFS.
Record local_ok (l : VME_FM_OP_COEF F) : Prop := {
  lk_coef : coef_dims (vfiltCoeff l);
  lk_sec : length (vfiltSections l) = FILTERS;
  lk_sty : length (vsType l) = FILTERS;
  lk_ramp : length (ramp l) = FILTERS;
  lk_tim : length (timout l) = FILTERS;
  lk_typ : length (vfilterType l) = FILTERS
}.
Record module_ok (c : FM_OP_COEF F) (i : FM_OP_IN F) : Prop := {
  mo_coef : coef_dims (filtCoeff c);
  mo_hist : length (filtHist c) = FILTERS;
  mo_sec : length (filtSections c) = FILTERS;
  mo_sty : length (sType c) = FILTERS;
  mo_typ : length (filterType c) = FILTERS;
  mo_rmp : length (rmpcmp i) = FILTERS;
  mo_tmo : length (timeout i) = FILTERS
}.

(** ** Arrays of rows *)
Lemma set2_lookup (a : list (list F)) j k j' k' x :
  coef_dims a → (j < FILTERS)%nat → (k < MAX_COEFFS)%nat →
  (set2 j k x a !!! j') !!! k' = if decide (j' = j ∧ k' = k) then x else (a !!! j') !!! k'.
Proof.
  intros [Hl Hr] Hj Hk. unfold set2. destruct (decide (j' = j)) as [->|Hn].
  - rewrite lookup_total_alter_eq by lia. rewrite lookup_total_insert by (by rewrite Hr).
    destruct (decide (k' = k)), (decide (j = j ∧ k' = k)); done || tauto.
  - rewrite lookup_total_alter_ne by done. destruct (decide (j' = j ∧ k' = k)); [tauto|done].
Qed.

Lemma set2_dims (a : list (list F)) j k x : coef_dims a → coef_dims (set2 j k x a).
Proof.
  intros [Hl Hr]. unfold set2. split; [by rewrite length_alter|]. intros i Hi.
  destruct (decide (i = j)) as [->|Hn].
  - rewrite lookup_total_alter_eq by lia. rewrite length_insert. by apply Hr.
  - rewrite lookup_total_alter_ne by done. by apply Hr.
Qed.

(** Copying the first [n] coefficients of a row. *)
Lemma copy_row (src : list (list F)) (a : list (list F)) j n :
  coef_dims a → (j < FILTERS)%nat → (n <= MAX_COEFFS)%nat →
  let b := for_n n (λ kk a, set2 j kk ((src !!! j) !!! kk) a) a in
  coef_dims b ∧
  (∀ k, (k < n)%nat → (b !!! j) !!! k = (src !!! j) !!! k) ∧
  (∀ j', j' ≠ j → b !!! j' = a !!! j').
Proof.
  intros Ha Hj Hn. cbv zeta.
  apply (for_up_ind (λ m b, coef_dims b ∧ (∀ k, (k < m)%nat → (b !!! j) !!! k = (src !!! j) !!! k) ∧
    (∀ j', j' ≠ j → b !!! j' = a !!! j')) (λ kk a, set2 j kk ((src !!! j) !!! kk) a) 0 n a).
  { split; [done|]. split; [lia|done]. }
  intros k b Hk (Hb & Hrow & Hoth). split; [by apply set2_dims|]. split.
  - intros k' Hk'. rewrite set2_lookup by (done || lia). destruct (decide (j = j ∧ k' = k)) as [[_ ->]|Hne]; [done|].
    apply Hrow. assert (k' ≠ k) by tauto. lia.
  - intros j' Hj'. unfold set2. rewrite lookup_total_alter_ne by done. by apply Hoth.
Qed.

(** ** The checksum of a shared record *)
Definition filter_crc (v : VME_FM_OP_COEF F) (j : nat) (c : Z) : Z :=
  let n := vfiltSections v !!! j in
  let c := crc_int n c in
  if n >? 0 then
    for_n (Z.to_nat (n * 4 + 1)) (λ k c, crc_double ((vfiltCoeff v !!! j) !!! k) c)
      (crc_int (timout v !!! j) (crc_int (ramp v !!! j) (crc_int (vsType v !!! j) c)))
  else c.
Definition vme_crc (v : VME_FM_OP_COEF F) : Z := for_n FILTERS (filter_crc v) 0.

(** ** What the cycles of one filter amount to *)
Definition load_whole (v : VME_FM_OP_COEF F) (m j : nat) (s : LoadState F) : LoadState F :=
  let s1 := snd (load_begin v m j s) in
  if vfiltSections v !!! j >? 0
  then snd (load_commit v m j (for_n (Z.to_nat (vfiltSections v !!! j * 4 + 1)) (load_coef v m j) s1))
  else snd (load_commit v m j s1).

(** Sections copied so far: [begin] and [k] section cycles. *)
Definition load_part (v : VME_FM_OP_COEF F) (m j k : nat) (s : LoadState F) : LoadState F :=
  for_n (if (k =? 0)%nat then 0 else 4 * k + 1)%nat (load_coef v m j) (snd (load_begin v m j s)).

Lemma load_coef_sections v m j k (s : LoadState F) :
  vfiltSections (localCoeff (load_coef v m j k s)) = vfiltSections (localCoeff s).
Proof. unfold load_coef. by destruct (negb _). Qed.

Lemma load_coefs_sections v m j i n (s : LoadState F) :
  vfiltSections (localCoeff (for_up i n (load_coef v m j) s)) = vfiltSections (localCoeff s).
Proof.
  apply (for_up_inv (λ s', vfiltSections (localCoeff s') = vfiltSections (localCoeff s))); [done|].
  intros k s' _ Hs. by rewrite load_coef_sections.
Qed.

Lemma u32_small z : 0 <= z <= 10 → u32 z = z.
Proof. intros. apply wrap_small. lia. Qed.
Lemma s32_small z : 0 <= z <= 10 → s32 z = z.
Proof. intros. apply swrap_small; lia. Qed.

Lemma load_begin_code v m j (s : LoadState F) :
  vme_ok v → (j < FILTERS)%nat → length (vfiltSections (localCoeff s)) = FILTERS →
  fst (load_begin v m j s) = (if vfiltSections v !!! j >? 0 then 1 else MAX_UPDATE_CYCLE) ∧
  vfiltSections (localCoeff (snd (load_begin v m j s))) !!! j = vfiltSections v !!! j.
Proof.
  intros Hv Hj Hl. pose proof (vme_sections v Hv j Hj) as Hn. unfold load_begin.
  rewrite (vme_iir v Hv j Hj), u32_small, s32_small by done.
  set (n := vfiltSections v !!! j) in *.
  assert (Hlen : (j < length (vfiltSections (localCoeff s)))%nat) by lia.
  replace (((n >? 0) && (n <? 11)) || ((n >? 10) && (0 >? 0))) with (n >? 0) by lia.
  destruct (Z.gtb_spec n 0).
  - cbn [fst snd]. split; [done|].
    destruct (j =? 0)%nat; cbn; rewrite lookup_total_insert, decide_True by done; done.
  - cbn [fst snd]. split; [done|].
    destruct (j =? 0)%nat; cbn; rewrite lookup_total_insert, decide_True by done; lia.
Qed.

(** A section cycle copies the next section. *)
Lemma load_section_part v m j k (s : LoadState F) :
  vme_ok v → (j < FILTERS)%nat → length (vfiltSections (localCoeff s)) = FILTERS →
  (1 <= k)%nat → Z.of_nat k <= vfiltSections v !!! j →
  load_section v m j (Z.of_nat k) (load_part v m j (k - 1) s) =
  (if vfiltSections v !!! j >? Z.of_nat k then Z.of_nat k + 1 else MAX_UPDATE_CYCLE, load_part v m j k s).
Proof.
  intros Hv Hj Hl Hk Hkn. unfold load_section. rewrite (vme_iir v Hv j Hj).
  change (0 >? 0) with false. cbn [negb]. rewrite andb_true_r.
  set (s1 := if Z.of_nat k =? 1 then _ else _).
  assert (E : for_up (Z.to_nat (Z.of_nat k * 4 + 1) - 4) 4 (load_coef v m j) s1 = load_part v m j k s).
  { unfold load_part in *. rewrite (proj2 (Nat.eqb_neq k 0)) by lia.
    replace (4 * k + 1)%nat with ((4 * k - 3) + 4)%nat by lia. rewrite for_up_add.
    replace (Z.to_nat (Z.of_nat k * 4 + 1) - 4)%nat with (0 + (4 * k - 3))%nat by lia.
    f_equal. unfold s1. destruct (Z.eqb_spec (Z.of_nat k) 1).
    - replace k with 1%nat by lia. done.
    - rewrite (proj2 (Nat.eqb_neq (k - 1) 0)) by lia. f_equal. lia. }
  rewrite E. f_equal. unfold load_part at 1. rewrite load_coefs_sections.
  destruct (load_begin_code v m j s Hv Hj Hl) as [_ ->]. done.
Qed.

(** ** The state machine *)

(** The state of [checkFiltReset] while filter [j] of module [m] is loaded, at
    sub-cycle [sub]; [rest] are the other entries of the reset table. *)
Definition in_progress (m pL : nat) (rest : list ResetId) (D : FILT_MOD F) (j : nat) (sub : Z) (l : LoadState F)
  : CheckState F :=
  mkCheck (mkReset (Z.of_nat m + 1) j sub (Some pL) (chg l) :: rest) (localCoeff l) (fmt l) D (filtC l).
Definition finished (m pL : nat) (rest : list ResetId) (D : FILT_MOD F) (l : LoadState F) : CheckState F :=
  mkCheck (mkReset 0 0 0 (Some pL) (chg l) :: rest) (localCoeff l) (fmt l)
    (set_coef_load_error (Z.of_nat m + 1) D) (filtC l).

(** After the last cycle of filter [j]. *)
Definition next_filter (m pL : nat) rest D (j : nat) (l : LoadState F) : CheckState F :=
  if (FILTERS <=? j + 1)%nat then finished m pL rest D l else in_progress m pL rest D (j + 1) 0 l.

Lemma check_in_progress b m pL totMod rfm rest D j sub (l : LoadState F) :
  0 <= sub →
  checkFiltReset b pL totMod rfm (in_progress m pL rest D j sub l) =
  let '(sub', l') := readCoefVme2 m j sub rfm l in
  if sub' =? -1 then
    mkCheck (mkReset 0 0 sub' (Some pL) (chg l') :: rest) (localCoeff l') (fmt l') (set_coef_load_error (-1) D) (filtC l')
  else if sub' =? 0 then next_filter m pL rest D j l'
  else in_progress m pL rest D j sub' l'.
Proof.
  intros Hsub. unfold checkFiltReset, checkFiltResetId. simpl (_ || _). cbv iota.
  change (Z.to_nat 0) with 0%nat.
  change (filtResetId (in_progress m pL rest D j sub l) !!! 0%nat) with
    (mkReset (Z.of_nat m + 1) j sub (Some pL) (chg l)).
  cbn [fmResetCoeff fmResetDsp]. unfold truthy. rewrite (proj2 (Z.eqb_neq (Z.of_nat m + 1) 0)) by lia. cbn [negb].
  rewrite decide_True by done. unfold reset_step.
  change (filtResetId (in_progress m pL rest D j sub l) !!! 0%nat) with
    (mkReset (Z.of_nat m + 1) j sub (Some pL) (chg l)).
  cbn [fmResetCoeff fmResetCounter fmSubCounter changed in_progress cs_pC cs_pL cs_localCoeff filtResetId dspVme].
  replace (Z.to_nat (Z.of_nat m + 1 - 1)) with m by lia.
  assert (El : mkLoad (filtC l) (fmt l) (localCoeff l) (chg l) = l) by (by destruct l). rewrite El.
  destruct (readCoefVme2 m j sub rfm l) as [sub' l'].
  destruct (Z.eqb_spec sub' (-1)) as [->|]; [done|].
  destruct (Z.eqb_spec sub' 0) as [->|]; [|done].
  unfold next_filter. cbn [set_fmResetCounter set_fmSubCounter set_changed fmResetCounter fmResetCoeff fmResetDsp changed
    set_fmResetCoeff fmSubCounter].
  by destruct (FILTERS <=? j + 1)%nat.
Qed.

(** [n] cycles of the machine. *)
Definition check_run (pL : nat) (totMod : Z) (rfm : list (VME_FM_OP_COEF F)) (banks : list Z) (s : CheckState F)
  : CheckState F :=
  fold_left (λ s b, checkFiltReset b pL totMod rfm s) banks s.

(** The cycles a filter takes. *)
Definition filter_cycles (v : VME_FM_OP_COEF F) (j : nat) : nat := Z.to_nat (vfiltSections v !!! j) + 2.

Lemma part_sections v m j k (l : LoadState F) :
  vme_ok v → (j < FILTERS)%nat → length (vfiltSections (localCoeff l)) = FILTERS →
  vfiltSections (localCoeff (load_part v m j k l)) !!! j = vfiltSections v !!! j.
Proof.
  intros Hv Hj Hl. unfold load_part. rewrite load_coefs_sections. by apply load_begin_code.
Qed.

Lemma load_commit_code v m j (l : LoadState F) : fst (load_commit v m j l) = 0.
Proof. unfold load_commit. by destruct (truthy _). Qed.

(** The section cycles, from cycle [k] with [n - k + 1] of them left. *)
Lemma section_run m pL totMod rfm rest D j k banks (l : LoadState F) :
  let v := rfm !!! m in
  vme_ok v → (j < FILTERS)%nat → length (vfiltSections (localCoeff l)) = FILTERS →
  (1 <= k)%nat → Z.of_nat k <= vfiltSections v !!! j →
  length banks = (Z.to_nat (vfiltSections v !!! j) + 1 - k)%nat →
  check_run pL totMod rfm banks (in_progress m pL rest D j (Z.of_nat k) (load_part v m j (k - 1) l)) =
  in_progress m pL rest D j MAX_UPDATE_CYCLE (load_part v m j (Z.to_nat (vfiltSections v !!! j)) l).
Proof.
  intros v Hv Hj Hl. pose proof (vme_sections v Hv j Hj) as Hn.
  remember (Z.to_nat (vfiltSections v !!! j) + 1 - k)%nat as r eqn:Er.
  revert k banks Er. induction r as [|r IH]; intros k banks Er Hk Hkn Hlen; [lia|].
  destruct banks as [|b banks]; [done|]. cbn [check_run fold_left].
  rewrite check_in_progress by lia. unfold readCoefVme2. unfold MAX_UPDATE_CYCLE, MAX_SO_SECTIONS.
  rewrite (proj2 (Z.eqb_neq (Z.of_nat k) 0)) by lia.
  replace ((Z.of_nat k >? 0) && (Z.of_nat k <? 10 + 1)) with true by lia.
  fold v. rewrite load_section_part by done.
  destruct (Z.gtb_spec (vfiltSections v !!! j) (Z.of_nat k)) as [Hgt|Hle].
  - replace (Z.of_nat k + 1) with (Z.of_nat (S k)) by lia.
    rewrite (proj2 (Z.eqb_neq (Z.of_nat (S k)) (-1))), (proj2 (Z.eqb_neq (Z.of_nat (S k)) 0)) by lia.
    specialize (IH (S k) banks). replace (S k - 1)%nat with k in IH by lia. apply IH; try lia. by injection Hlen.
  - destruct banks; [|simpl in Hlen; lia]. cbn. do 2 f_equal. lia.
Qed.

Lemma filter_run m pL totMod rfm rest D j banks (l : LoadState F) :
  let v := rfm !!! m in
  vme_ok v → (j < FILTERS)%nat → length (vfiltSections (localCoeff l)) = FILTERS →
  length banks = filter_cycles v j →
  check_run pL totMod rfm banks (in_progress m pL rest D j 0 l) = next_filter m pL rest D j (load_whole v m j l).
Proof.
  intros v Hv Hj Hl Hlen. pose proof (vme_sections v Hv j Hj) as Hn.
  destruct (load_begin_code v m j l Hv Hj Hl) as [Hcode _].
  unfold filter_cycles in Hlen. destruct banks as [|b banks]; [simpl in Hlen; lia|].
  assert (Hcommit : ∀ b l', check_run pL totMod rfm [b] (in_progress m pL rest D j MAX_UPDATE_CYCLE l') =
            next_filter m pL rest D j (snd (load_commit v m j l'))).
  { intros b' l'. cbn [check_run fold_left]. rewrite check_in_progress by done. unfold readCoefVme2.
    change (MAX_UPDATE_CYCLE =? 0) with false. rewrite Z.ltb_irrefl, andb_false_r, Z.eqb_refl. cbv iota. fold v.
    pose proof (load_commit_code v m j l') as Hc. destruct (load_commit v m j l') as [z l2]. cbn in Hc. by subst z. }
  cbn [check_run fold_left]. rewrite check_in_progress by done. unfold readCoefVme2. rewrite Z.eqb_refl. fold v.
  rewrite (surjective_pairing (load_begin v m j l)), Hcode. clear Hcode. unfold load_whole.
  destruct (Z.gtb_spec (vfiltSections v !!! j) 0) as [Hpos|Hzero].
  - change (1 =? -1) with false. change (1 =? 0) with false. cbv iota.
    assert (Hb : ∃ bs b', banks = bs ++ [b']).
    { destruct (exists_last (l := banks)) as (bs & b' & E); [intros ->; simpl in Hlen; lia|]. by exists bs, b'. }
    destruct Hb as (bs & b' & ->). rewrite fold_left_app.
    pose proof (section_run m pL totMod rfm rest D j 1 bs l Hv Hj Hl (le_n _) ltac:(fold v; lia)) as Hs.
    change (load_part (rfm !!! m) m j (1 - 1) l) with (snd (load_begin v m j l)) in Hs.
    unfold check_run in Hs at 1. change (Z.of_nat 1) with 1 in Hs. rewrite Hs; clear Hs.
    + etrans; [apply Hcommit|]. fold v. unfold load_part. rewrite (proj2 (Nat.eqb_neq _ 0)) by lia.
      do 4 f_equal. lia.
    + simpl in Hlen. rewrite length_app in Hlen. simpl in Hlen. fold v. lia.
  - change (MAX_UPDATE_CYCLE =? -1) with false. change (MAX_UPDATE_CYCLE =? 0) with false. cbv iota.
    destruct banks as [|b' banks]; [simpl in Hlen; lia|]. destruct banks; [|simpl in Hlen; lia]. apply Hcommit.
Qed.

(** ** What is loaded *)

(** Filter [j] of the module holds what the shared record says. *)
Definition loaded (v : VME_FM_OP_COEF F) (j : nat) (c : FM_OP_COEF F) (i : FM_OP_IN F) : Prop :=
  let n := vfiltSections v !!! j in
  filtSections c !!! j = n ∧ filterType c !!! j = 0 ∧
  (n = 0 → Z.testbit (opSwitchP i) (5 + 2 * Z.of_nat j) = false) ∧
  (n ≠ 0 → sType c !!! j = vsType v !!! j ∧ rmpcmp i !!! j = ramp v !!! j ∧ timeout i !!! j = timout v !!! j ∧
     ∀ k, (k < Z.to_nat (n * 4 + 1))%nat → (filtCoeff c !!! j) !!! k = (vfiltCoeff v !!! j) !!! k).

(** Some coefficient of filter [j] differs from the shared one. *)
Definition differs (v : VME_FM_OP_COEF F) (j n : nat) (c : FM_OP_COEF F) : bool :=
  existsb (λ k, (filtCoeff c !!! j) !!! k ≠ᶠ (vfiltCoeff v !!! j) !!! k)%cf (seq 0 n).

(** What the cycles of the other filters leave of filter [j]. *)
Definition same_filter (j : nat) (c c' : FM_OP_COEF F) (i i' : FM_OP_IN F) : Prop :=
  filtSections c' !!! j = filtSections c !!! j ∧ filterType c' !!! j = filterType c !!! j ∧
  sType c' !!! j = sType c !!! j ∧ filtCoeff c' !!! j = filtCoeff c !!! j ∧ filtHist c' !!! j = filtHist c !!! j ∧
  rmpcmp i' !!! j = rmpcmp i !!! j ∧ timeout i' !!! j = timeout i !!! j ∧
  Z.testbit (opSwitchP i') (5 + 2 * Z.of_nat j) = Z.testbit (opSwitchP i) (5 + 2 * Z.of_nat j).

Lemma loaded_frame v j c c' i i' : same_filter j c c' i i' → loaded v j c i → loaded v j c' i'.
Proof.
  intros (E1&E2&E3&E4&_&E6&E7&E8) (L1&L2&L3&L4). unfold loaded. rewrite E1, E2, E3, E4, E6, E7, E8. auto.
Qed.

Definition state_ok (m : nat) (s : LoadState F) : Prop :=
  (m < length (filtC s))%nat ∧ (m < length (inputs (fmt s)))%nat ∧
  local_ok (localCoeff s) ∧ module_ok (filtC s !!! m) (inputs (fmt s) !!! m).

(** Reading a module after an update of that module. *)
Lemma upd_coef_eq m f (s : LoadState F) : (m < length (filtC s))%nat → filtC (upd_coef m f s) !!! m = f (filtC s !!! m).
Proof. intros. cbn. by apply lookup_total_alter_eq. Qed.
Lemma upd_in_eq m f (s : LoadState F) :
  (m < length (inputs (fmt s)))%nat → inputs (fmt (upd_in m f s)) !!! m = f (inputs (fmt s) !!! m).
Proof. intros. cbn. by apply lookup_total_alter_eq. Qed.

(** *** The copy loop *)
Definition copied (v : VME_FM_OP_COEF F) (m j : nat) (s1 : LoadState F) (k : nat) (s : LoadState F) : Prop :=
  filtC s = filtC s1 ∧ fmt s = fmt s1 ∧ local_ok (localCoeff s) ∧
  vfiltSections (localCoeff s) = vfiltSections (localCoeff s1) ∧ vsType (localCoeff s) = vsType (localCoeff s1) ∧
  ramp (localCoeff s) = ramp (localCoeff s1) ∧ timout (localCoeff s) = timout (localCoeff s1) ∧
  vfilterType (localCoeff s) = vfilterType (localCoeff s1) ∧
  (∀ i, (i < k)%nat → (vfiltCoeff (localCoeff s) !!! j) !!! i = (vfiltCoeff v !!! j) !!! i) ∧
  crc (localCoeff s) = for_n k (λ i c, crc_double ((vfiltCoeff v !!! j) !!! i) c) (crc (localCoeff s1)) ∧
  length (chg s) = FILTERS ∧ (∀ i, i ≠ j → chg s !!! i = chg s1 !!! i) ∧ 0 <= chg s !!! j ∧
  (truthy (chg s !!! j) = differs v j k (filtC s1 !!! m)).

Lemma copied_step v m j s1 k s :
  (j < FILTERS)%nat → (k < MAX_COEFFS)%nat → copied v m j s1 k s → copied v m j s1 (k + 1) (load_coef v m j k s).
Proof.
  intros Hj Hk (EC & EM & Hok & E1 & E2 & E3 & E4 & E5 & Hrow & Hcrc & Hlen & Hoth & Hpos & Hchg).
  pose proof (set2_lookup (vfiltCoeff (localCoeff s)) j k j k ((vfiltCoeff v !!! j) !!! k) (lk_coef _ Hok) Hj Hk) as Hget.
  rewrite decide_True in Hget by done.
  assert (Hd : differs v j (k + 1) (filtC s1 !!! m) =
    differs v j k (filtC s1 !!! m) || ((filtCoeff (filtC s !!! m) !!! j) !!! k ≠ᶠ (vfiltCoeff v !!! j) !!! k)%cf).
  { unfold differs. rewrite seq_app, existsb_app. cbn. rewrite orb_false_r. by rewrite EC. }
  unfold load_coef. set (s2 := if negb _ then _ else s).
  assert (Hs2 : filtC s2 = filtC s ∧ fmt s2 = fmt s ∧ localCoeff s2 = localCoeff s ∧
    length (chg s2) = FILTERS ∧ (∀ i, i ≠ j → chg s2 !!! i = chg s !!! i) ∧ 0 <= chg s2 !!! j ∧
    truthy (chg s2 !!! j) = differs v j (k + 1) (filtC s1 !!! m)).
  { rewrite Hd. unfold s2. destruct ((filtCoeff (filtC s !!! m) !!! j) !!! k ≠ᶠ (vfiltCoeff v !!! j) !!! k)%cf; cbn.
    - rewrite length_alter, lookup_total_alter_eq by lia. repeat split; try done; [| lia |].
      + intros i Hi. by rewrite lookup_total_alter_ne by congruence.
      + rewrite orb_true_r. unfold truthy. by rewrite (proj2 (Z.eqb_neq _ 0)) by lia.
    - rewrite orb_false_r. repeat split; done. }
  clearbody s2. destruct Hs2 as (F1 & F2 & F3 & F4 & F5 & F6 & F7).
  unfold copied. cbn [upd_local set_localCoeff localCoeff filtC fmt chg set_crc set_vfiltCoeff vfiltCoeff vfiltSections vsType ramp timout
        vfilterType crc]. rewrite F3, Hget.
  repeat split; try congruence; try done.
  - cbn. apply set2_dims, Hok.
  - cbn. by apply set2_dims, Hok.
  - apply Hok.
  - apply Hok.
  - apply Hok.
  - apply Hok.
  - apply Hok.
  - intros i Hi. cbn. rewrite set2_lookup by (done || apply Hok). destruct (decide (j = j ∧ i = k)) as [[_ ->]|Hn]; [done|].
    apply Hrow. assert (i ≠ k) by tauto. lia.
  - cbn. rewrite Nat.add_1_r, for_up_S, Hcrc. done.
  - intros i Hi. cbn. by rewrite F5, Hoth.
Qed.

Lemma copied_run v m j s1 n :
  (j < FILTERS)%nat → (n <= MAX_COEFFS)%nat → local_ok (localCoeff s1) → chg s1 = replicate FILTERS 0 →
  copied v m j s1 n (for_n n (load_coef v m j) s1).
Proof.
  intros Hj Hn Hok Hc. apply (for_up_ind (copied v m j s1) (load_coef v m j) 0 n s1).
  - assert (E : chg s1 !!! j = 0) by (rewrite Hc; by apply lookup_total_replicate_2).
    unfold copied. rewrite E, Hc. repeat split; try apply Hok; lia || done.
  - intros k s Hk Hs. apply copied_step; [done|lia|done].
Qed.

(** *** Begin *)
Lemma ack_clear p j i :
  (j < FILTERS)%nat → 0 <= i < 32 →
  Z.testbit (clear p (pow2_out !!! j)) i = (if 5 + 2 * Z.of_nat j =? i then false else Z.testbit p i).
Proof.
  unfold FILTERS. intros Hj Hi.
  replace (pow2_out !!! j) with (2 ^ (5 + 2 * Z.of_nat j)) by (do 10 (destruct j as [|j]; [done|]); lia).
  rewrite clear_spec, Z.pow2_bits_eqb by lia. replace ((0 <=? i) && (i <? 32)) with true by lia.
  destruct (5 + 2 * Z.of_nat j =? i); simpl; by rewrite ?andb_true_r, ?andb_false_r.
Qed.

Lemma begin_on v m j (s : LoadState F) :
  vme_ok v → (j < FILTERS)%nat → state_ok m s → 0 < vfiltSections v !!! j →
  let s1 := snd (load_begin v m j s) in
  filtC s1 = filtC s ∧ fmt s1 = fmt s ∧ chg s1 = replicate FILTERS 0 ∧ local_ok (localCoeff s1) ∧
  vfiltSections (localCoeff s1) !!! j = vfiltSections v !!! j ∧ vsType (localCoeff s1) !!! j = vsType v !!! j ∧
  ramp (localCoeff s1) !!! j = ramp v !!! j ∧ timout (localCoeff s1) !!! j = timout v !!! j ∧
  vfilterType (localCoeff s1) !!! j = 0 ∧
  crc (localCoeff s1) =
    crc_int (timout v !!! j) (crc_int (ramp v !!! j) (crc_int (vsType v !!! j)
      (crc_int (vfiltSections v !!! j) (if (j =? 0)%nat then 0 else crc (localCoeff s))))).
Proof.
  intros Hv Hj (_ & _ & Hok & _) Hpos. pose proof (vme_sections v Hv j Hj) as Hn. cbv zeta. unfold load_begin.
  rewrite (vme_iir v Hv j Hj), u32_small, s32_small by done.
  rewrite (proj2 (Z.gtb_gt _ 0)) by lia. replace (vfiltSections v !!! j <? 11) with true by lia. cbn [andb orb snd].
  pose proof (lk_sec _ Hok) as L1. pose proof (lk_sty _ Hok) as L2. pose proof (lk_ramp _ Hok) as L3.
  pose proof (lk_tim _ Hok) as L4. pose proof (lk_typ _ Hok) as L5.
  set (s0 := if (j =? 0)%nat then _ else _).
  assert (Hs0 : filtC s0 = filtC s ∧ fmt s0 = fmt s ∧ chg s0 = replicate 10 0 ∧
    ∃ c, localCoeff s0 = set_crc c (localCoeff s) ∧ c = if (j =? 0)%nat then 0 else crc (localCoeff s)).
  { unfold s0. destruct (j =? 0)%nat; repeat split;
      [by exists 0|exists (crc (localCoeff s)); by destruct s as [? ? []]]. }
  clearbody s0. destruct Hs0 as (E1 & E2 & E3 & c & E4 & <-).
  cbn [upd_local set_localCoeff localCoeff filtC fmt chg]. rewrite E1, E2, E3, E4.
  cbn [set_crc set_timout set_ramp set_vsType set_vfilterType set_vfiltSections
       vfiltCoeff filtName bankNum vfiltSections vsType ramp timout crc vfilterType vbiquad].
  rewrite !lookup_total_insert, !decide_True by (done || lia).
  repeat split; cbn; rewrite ?length_insert; try done; apply Hok.
Qed.

Lemma begin_off v m j (s : LoadState F) :
  vme_ok v → (j < FILTERS)%nat → state_ok m s → vfiltSections v !!! j = 0 →
  let s1 := snd (load_begin v m j s) in
  state_ok m s1 ∧ loaded v j (filtC s1 !!! m) (inputs (fmt s1) !!! m) ∧
  (∀ j', (j' < FILTERS)%nat → j' ≠ j →
     same_filter j' (filtC s !!! m) (filtC s1 !!! m) (inputs (fmt s) !!! m) (inputs (fmt s1) !!! m)) ∧
  filtHist (filtC s1 !!! m) = filtHist (filtC s !!! m) ∧
  vfiltSections (localCoeff s1) !!! j = 0 ∧
  (∀ m', m' ≠ m → filtC s1 !!! m' = filtC s !!! m' ∧ inputs (fmt s1) !!! m' = inputs (fmt s) !!! m') ∧
  crc (localCoeff s1) = crc_int 0 (if (j =? 0)%nat then 0 else crc (localCoeff s)).
Proof.
  intros Hv Hj (Hm & Hmi & Hok & Hmo) Hz. cbv zeta. unfold load_begin. rewrite (vme_iir v Hv j Hj), Hz.
  change (u32 0) with 0. cbn [Z.gtb Z.compare andb orb snd].
  pose proof (lk_sec _ Hok) as L1. pose proof (mo_sec _ _ Hmo) as L2. pose proof (mo_typ _ _ Hmo) as L3.
  set (s0 := if (j =? 0)%nat then _ else _).
  assert (Hs0 : filtC s0 = filtC s ∧ fmt s0 = fmt s ∧
    ∃ c, localCoeff s0 = set_crc c (localCoeff s) ∧ c = if (j =? 0)%nat then 0 else crc (localCoeff s)).
  { unfold s0. destruct (j =? 0)%nat; repeat split;
      [by exists 0|exists (crc (localCoeff s)); by destruct s as [? ? []]]. }
  clearbody s0. destruct Hs0 as (E1 & E2 & c & E4 & <-).
  unfold state_ok.
  cbn [upd_local upd_coef upd_in set_localCoeff set_chg set_fmt set_filtC localCoeff filtC fmt inputs set_inputs].
  rewrite E1, E2, E4.
  rewrite !length_alter, !lookup_total_alter_eq by done.
  cbn [set_filterType set_filtSections set_opSwitchP set_crc set_vfiltSections filtCoeff filtHist filtSections sType
       filterType rmpcmp timeout opSwitchP vfiltSections crc].
  repeat split; try done; try (cbn; rewrite ?length_insert; by apply Hok || by apply Hmo);
    try (cbn; rewrite lookup_total_insert, decide_True by lia; done);
    try (cbn; rewrite lookup_total_insert, decide_False by (lia || done); done).
  - intros _. cbn. rewrite ack_clear by (done || (unfold FILTERS in Hj; lia)). by rewrite Z.eqb_refl.
  - cbn. rewrite ack_clear by (done || (unfold FILTERS in *; lia)).
    destruct (Z.eqb_spec (5 + 2 * Z.of_nat j) (5 + 2 * Z.of_nat j')); [lia|done].
  - by rewrite lookup_total_alter_ne.
  - by rewrite lookup_total_alter_ne.
Qed.

(** *** Commit *)
Lemma commit_history (v : VME_FM_OP_COEF F) m j (s : LoadState F) :
  (j < FILTERS)%nat → vfilterType v !!! j = 0 → (∀ i, (i < FILTERS)%nat → i ≠ j → chg s !!! i = 0) →
  for_n FILTERS (λ jj s,
    if truthy (chg s !!! jj) then
      if truthy (vfilterType v !!! j) then s
      else upd_coef m (λ c, set_filtHist (<[jj := replicate MAX_HISTRY f0]> (filtHist c)) c) s
    else s) s =
  if truthy (chg s !!! j) then upd_coef m (λ c, set_filtHist (<[j := replicate MAX_HISTRY f0]> (filtHist c)) c) s else s.
Proof.
  intros Hj Ht Hc. rewrite Ht. change (truthy 0) with false. cbv iota.
  set (f := λ (jj : nat) (s : LoadState F), _). change (for_n FILTERS f s = f j s).
  apply (for_up_single (λ s', chg s' = chg s)); [done|done| |]; unfold f.
  - intros s' E. by destruct (truthy (chg s' !!! j)).
  - intros k s' Hkn Hk ->. by rewrite (Hc k Hkn Hk).
Qed.

Lemma commit_on (v : VME_FM_OP_COEF F) m j s1 (s : LoadState F) :
  let n := vfiltSections v !!! j in
  vme_ok v → (j < FILTERS)%nat → 0 < n → state_ok m s →
  copied v m j s1 (Z.to_nat (n * 4 + 1)) s → (∀ i, (i < FILTERS)%nat → i ≠ j → chg s1 !!! i = 0) →
  vfiltSections (localCoeff s) !!! j = n → vsType (localCoeff s) !!! j = vsType v !!! j →
  ramp (localCoeff s) !!! j = ramp v !!! j → timout (localCoeff s) !!! j = timout v !!! j →
  vfilterType (localCoeff s) !!! j = 0 →
  let s' := snd (load_commit v m j s) in
  state_ok m s' ∧ localCoeff s' = localCoeff s ∧ loaded v j (filtC s' !!! m) (inputs (fmt s') !!! m) ∧
  (∀ j', (j' < FILTERS)%nat → j' ≠ j →
     same_filter j' (filtC s !!! m) (filtC s' !!! m) (inputs (fmt s) !!! m) (inputs (fmt s') !!! m)) ∧
  filtHist (filtC s' !!! m) !!! j =
    (if differs v j (Z.to_nat (n * 4 + 1)) (filtC s !!! m) then replicate MAX_HISTRY f0
     else filtHist (filtC s !!! m) !!! j) ∧
  (∀ m', m' ≠ m → filtC s' !!! m' = filtC s !!! m' ∧ inputs (fmt s') !!! m' = inputs (fmt s) !!! m').
Proof.
  intros n Hv Hj Hn (Hm & Hmi & Hok & Hmo) Hcp Hz L1 L2 L3 L4 L5. cbv zeta.
  pose proof (vme_sections v Hv j Hj) as Hn10. fold n in Hn10.
  destruct Hcp as (EC & _ & _ & _ & _ & _ & _ & _ & Hrow & _ & _ & Hchg0 & _ & Hchg).
  unfold load_commit.
  assert (Htn : truthy n = true) by (unfold truthy; by rewrite (proj2 (Z.eqb_neq n 0)) by lia).
  rewrite L1, Htn. cbn [snd].
  rewrite commit_history; [|done|by apply vme_iir|intros i Hi Hij; by rewrite Hchg0, Hz].
  rewrite Hchg, <- EC, L2, L3, L4, L5, (vme_iir v Hv j Hj). change (0 >? 0) with false. cbv iota.
  set (d := differs v j _ _). set (s2 := if d then _ else s).
  assert (Hs2 : localCoeff s2 = localCoeff s ∧ fmt s2 = fmt s ∧ (m < length (filtC s2))%nat ∧
    filtC s2 !!! m = set_filtHist (if d then <[j := replicate MAX_HISTRY f0]> (filtHist (filtC s !!! m))
                                   else filtHist (filtC s !!! m)) (filtC s !!! m) ∧
    (∀ m', m' ≠ m → filtC s2 !!! m' = filtC s !!! m')).
  { unfold s2. destruct d; repeat split; cbn; rewrite ?length_alter; try done.
    - by rewrite lookup_total_alter_eq.
    - intros m' Hm'. by rewrite lookup_total_alter_ne.
    - by destruct (filtC s !!! m). }
  clearbody s2. destruct Hs2 as (E1 & E2 & E3 & E4 & E5).
  unfold state_ok.
  cbn [upd_coef upd_in set_fmt set_filtC localCoeff filtC fmt inputs set_inputs].
  rewrite !length_alter, E1, E2. rewrite !lookup_total_alter_eq by (rewrite ?length_alter; done).
  rewrite E4. cbn [set_filtHist set_sType set_filterType set_filtSections set_filtCoeff set_timeout set_rmpcmp
    filtCoeff filtHist filtSections sType filterType rmpcmp timeout opSwitchP].
  pose proof (mo_sec _ _ Hmo) as M1. pose proof (mo_typ _ _ Hmo) as M2. pose proof (mo_sty _ _ Hmo) as M3.
  pose proof (mo_rmp _ _ Hmo) as M4. pose proof (mo_tmo _ _ Hmo) as M5. pose proof (mo_hist _ _ Hmo) as M6.
  assert (Hsec : forall x, (<[j := x]> (filtSections (filtC s !!! m)) : list Z) !!! j = x)
    by (intros x; rewrite lookup_total_insert, decide_True by lia; done).
  rewrite Hsec.
  destruct (copy_row (vfiltCoeff (localCoeff s)) (filtCoeff (filtC s !!! m)) j (Z.to_nat (n * 4 + 1)))
    as (Hd & Hcopy & Hother); [apply Hmo|done|unfold MAX_COEFFS; lia|].
  split; [|split; [done|split; [|split; [|split]]]].
  - do 3 (split; [done|]). split; cbn; rewrite ?length_insert; try done; [by destruct d; rewrite ?length_insert].
  - unfold loaded. cbn. rewrite !lookup_total_insert, !decide_True by lia.
    repeat split; try done; [intros E; fold n in E; lia|].
    intros k Hk. rewrite Hcopy by done. by apply Hrow.
  - intros j' Hj' Hne. unfold same_filter. cbn. rewrite !lookup_total_insert, !decide_False by lia.
    rewrite Hother by done. repeat split. destruct d; [|done]. by rewrite lookup_total_insert, decide_False by lia.
  - cbn. destruct d; [|done]. by rewrite lookup_total_insert, decide_True by lia.
  - intros m' Hm'. by rewrite !lookup_total_alter_ne, E5 by done.
Qed.

Lemma sum_list_with_ext_seq (f g : nat → nat) i n :
  (∀ j, (j < i + n)%nat → f j = g j) → sum_list_with f (seq i n) = sum_list_with g (seq i n).
Proof.
  revert i. induction n as [|n IH]; intros i Hfg; [done|]. simpl. rewrite (Hfg i), IH; try done; [|lia].
  intros j Hj. apply Hfg. lia.
Qed.

(** *** A whole filter, a whole module *)
Definition history_after (v : VME_FM_OP_COEF F) (j : nat) (c : FM_OP_COEF F) : list F :=
  let n := vfiltSections v !!! j in
  if (n >? 0) && differs v j (Z.to_nat (n * 4 + 1)) c then replicate MAX_HISTRY f0 else filtHist c !!! j.

Lemma load_whole_spec (v : VME_FM_OP_COEF F) m j (s : LoadState F) :
  vme_ok v → (j < FILTERS)%nat → state_ok m s →
  let s' := load_whole v m j s in
  state_ok m s' ∧ loaded v j (filtC s' !!! m) (inputs (fmt s') !!! m) ∧
  (∀ j', (j' < FILTERS)%nat → j' ≠ j →
     same_filter j' (filtC s !!! m) (filtC s' !!! m) (inputs (fmt s) !!! m) (inputs (fmt s') !!! m)) ∧
  filtHist (filtC s' !!! m) !!! j = history_after v j (filtC s !!! m) ∧
  (∀ m', m' ≠ m → filtC s' !!! m' = filtC s !!! m' ∧ inputs (fmt s') !!! m' = inputs (fmt s) !!! m') ∧
  crc (localCoeff s') = filter_crc v j (if (j =? 0)%nat then 0 else crc (localCoeff s)).
Proof.
  intros Hv Hj Hs. cbv zeta. unfold load_whole, history_after, filter_crc.
  pose proof (vme_sections v Hv j Hj) as Hn.
  destruct (Z.gtb_spec (vfiltSections v !!! j) 0) as [Hpos|Hz]; cbn [andb].
  - destruct (begin_on v m j s Hv Hj Hs Hpos) as (EC & EM & Echg & Hok & L1 & L2 & L3 & L4 & L5 & Ecrc).
    set (s1 := snd (load_begin v m j s)) in *. clearbody s1.
    pose proof (copied_run v m j s1 (Z.to_nat (vfiltSections v !!! j * 4 + 1)) Hj ltac:(unfold MAX_COEFFS; lia) Hok Echg) as Hcp.
    set (s2 := for_n _ _ s1) in *. clearbody s2.
    pose proof Hcp as (FC & FM & Fok & F1 & F2 & F3 & F4 & F5 & _ & Fcrc & _).
    destruct Hs as (Hm & Hmi & _ & Hmo).
    assert (Hs2 : state_ok m s2) by (unfold state_ok; rewrite FC, FM, EC, EM; auto).
    assert (Hz : ∀ i, (i < FILTERS)%nat → i ≠ j → chg s1 !!! i = 0).
    { intros i Hi _. rewrite Echg. by apply lookup_total_replicate_2. }
    destruct (commit_on v m j s1 s2 Hv Hj Hpos Hs2 Hcp Hz) as (G1 & G2 & G3 & G4 & G5 & G6); try congruence.
    rewrite FC, FM, EC, EM in *. split; [done|]. split; [done|]. split; [done|]. split; [done|]. split; [done|].
    rewrite G2, Fcrc, Ecrc. done.
  - assert (Hz' : vfiltSections v !!! j = 0) by lia.
    destruct (begin_off v m j s Hv Hj Hs Hz') as (G1 & G2 & G3 & G4 & G5 & G6 & G7).
    set (s1 := snd (load_begin v m j s)) in *. clearbody s1.
    unfold load_commit. rewrite G5. cbn [truthy Z.eqb negb snd]. rewrite Hz'.
    split; [done|]. split; [done|]. split; [done|]. split; [by rewrite G4|]. by split.
Qed.

Lemma same_filter_trans j c1 c2 c3 i1 i2 i3 :
  same_filter j c1 c2 i1 i2 → same_filter j c2 c3 i2 i3 → same_filter j c1 c3 i1 i3.
Proof. intros (?&?&?&?&?&?&?&?) (?&?&?&?&?&?&?&?). unfold same_filter. repeat split; congruence. Qed.

(** After the first [k] filters. *)
Definition progress (v : VME_FM_OP_COEF F) (m : nat) (s0 : LoadState F) (k : nat) (s : LoadState F) : Prop :=
  state_ok m s ∧
  (∀ j, (j < k)%nat → loaded v j (filtC s !!! m) (inputs (fmt s) !!! m) ∧
     filtHist (filtC s !!! m) !!! j = history_after v j (filtC s0 !!! m)) ∧
  (∀ j, (k <= j < FILTERS)%nat →
     same_filter j (filtC s0 !!! m) (filtC s !!! m) (inputs (fmt s0) !!! m) (inputs (fmt s) !!! m)) ∧
  (∀ m', m' ≠ m → filtC s !!! m' = filtC s0 !!! m' ∧ inputs (fmt s) !!! m' = inputs (fmt s0) !!! m') ∧
  ((0 < k)%nat → crc (localCoeff s) = for_n k (filter_crc v) 0).

Lemma progress_step v m s0 k s :
  vme_ok v → (k < FILTERS)%nat → progress v m s0 k s → progress v m s0 (k + 1) (load_whole v m k s).
Proof.
  intros Hv Hk (Hok & Hdone & Hrest & Hoth & Hcrc).
  destruct (load_whole_spec v m k s Hv Hk Hok) as (G1 & G2 & G3 & G4 & G5 & G6).
  pose proof (Hrest k (conj (le_n _) Hk)) as Hsame.
  split; [done|]. split; [|split; [|split]].
  - intros j Hj. destruct (decide (j = k)) as [->|Hne].
    + split; [done|]. rewrite G4. destruct Hsame as (_ & _ & _ & Ecoef & Ehist & _).
      unfold history_after, differs. by rewrite Ecoef, Ehist.
    + destruct (Hdone j ltac:(lia)) as [D1 D2]. specialize (G3 j ltac:(lia) Hne). split.
      * by eapply loaded_frame.
      * destruct G3 as (_ & _ & _ & _ & -> & _). done.
  - intros j Hj. eapply same_filter_trans; [apply Hrest; lia|]. apply G3; lia.
  - intros m' Hm'. destruct (Hoth m' Hm') as [<- <-]. by apply G5.
  - intros _. rewrite G6, Nat.add_1_r, for_up_S, Nat.add_0_l. f_equal.
    destruct k; [done|]. by rewrite Hcrc by lia.
Qed.

Lemma progress_all v m s0 :
  vme_ok v → state_ok m s0 → progress v m s0 FILTERS (for_n FILTERS (load_whole v m) s0).
Proof.
  intros Hv Hs. apply (for_up_ind (progress v m s0) (load_whole v m) 0 FILTERS s0).
  - split; [done|]. split; [lia|]. split; [by repeat split|]. split; [done|lia].
  - intros k s Hk. apply progress_step; [done|lia].
Qed.

Definition reload_cycles (v : VME_FM_OP_COEF F) (j n : nat) : nat := sum_list_with (filter_cycles v) (seq j n).

Lemma check_run_app pL totMod rfm b1 b2 (s : CheckState F) :
  check_run pL totMod rfm (b1 ++ b2) s = check_run pL totMod rfm b2 (check_run pL totMod rfm b1 s).
Proof. apply fold_left_app. Qed.

Lemma module_run m pL totMod rfm rest D j n banks (l : LoadState F) :
  let v := rfm !!! m in
  vme_ok v → state_ok m l → (j + S n = FILTERS)%nat → length banks = reload_cycles v j (S n) →
  check_run pL totMod rfm banks (in_progress m pL rest D j 0 l) =
  finished m pL rest D (for_up j (S n) (load_whole v m) l).
Proof.
  intros v Hv. revert j banks l. induction n as [|n IH]; intros j banks l Hok Hj Hlen.
  - pose proof Hok as (_ & _ & Hl & _). rewrite (filter_run m pL totMod rfm rest D j banks l Hv); [|lia|apply Hl|].
    + unfold next_filter. rewrite (proj2 (Nat.leb_le _ _)) by lia. done.
    + unfold reload_cycles in Hlen. simpl in Hlen. fold v. lia.
  - unfold reload_cycles in Hlen. simpl in Hlen.
    rewrite <- (take_drop (filter_cycles v j) banks), check_run_app.
    pose proof Hok as (_ & _ & Hl & _).
    rewrite (filter_run m pL totMod rfm rest D j _ l Hv); [|lia|apply Hl|].
    + unfold next_filter. rewrite (proj2 (Nat.leb_gt _ _)) by lia. rewrite Nat.add_1_r.
      change (for_up j (S (S n)) ?f l) with (for_up (S j) (S n) f (f j l)).
      apply IH; [by apply load_whole_spec; [..|lia|]|lia|].
      rewrite length_drop, Hlen. unfold reload_cycles. simpl. lia.
    + rewrite length_take, Hlen. fold v. simpl. lia.
Qed.

(** ** From the operator's request to the loaded module *)

(** What a request finds and the reads it leads to. *)
Definition load_state (s : CheckState F) (ch : list Z) : LoadState F :=
  mkLoad (cs_pC s) (cs_pL s) (cs_localCoeff s) ch.

Lemma request_starts m pL totMod rfm dptr ch rest (s : CheckState F) :
  filtResetId s = mkReset 0 0 0 dptr ch :: rest → Z.of_nat m < totMod →
  Z.land (rset (inputs (dspVme s) !!! m)) 3 = 1 →
  ∃ D, checkFiltReset (Z.of_nat m) pL totMod rfm s = in_progress m pL rest D 0 0 (load_state s ch).
Proof.
  intros Er Hm Hs. unfold checkFiltReset, checkFiltResetId. simpl (_ || _). cbv iota.
  change (Z.to_nat 0) with 0%nat. rewrite Er. simpl (_ !!! 0%nat). cbn [fmResetCoeff truthy Z.eqb negb].
  replace ((0 <=? Z.of_nat m) && (Z.of_nat m <? totMod)) with true by lia.
  rewrite Nat2Z.id. unfold reset_request. rewrite Hs. change (truthy 1) with true. change (has 1 2) with false.
  change (has 1 1) with true. cbv iota. cbn [set_dspVme set_filtResetId filtResetId]. rewrite Er. by eexists.
Qed.

Lemma reload_run m pL totMod rfm dptr ch rest banks (s : CheckState F) :
  let v := rfm !!! m in
  filtResetId s = mkReset 0 0 0 dptr ch :: rest → Z.of_nat m < totMod →
  Z.land (rset (inputs (dspVme s) !!! m)) 3 = 1 →
  vme_ok v → state_ok m (load_state s ch) → length banks = reload_cycles v 0 FILTERS →
  ∃ D l, check_run pL totMod rfm (Z.of_nat m :: banks) s = finished m pL rest D l ∧
         progress v m (load_state s ch) FILTERS l.
Proof.
  intros v Er Hm Hs Hv Hok Hlen. destruct (request_starts m pL totMod rfm dptr ch rest s Er Hm Hs) as [D ED].
  change (Z.of_nat m :: banks) with ([Z.of_nat m] ++ banks). rewrite check_run_app.
  change (check_run pL totMod rfm [Z.of_nat m] s) with (checkFiltReset (Z.of_nat m) pL totMod rfm s). rewrite ED.
  eexists _, _. split; [exact (module_run m pL totMod rfm rest D 0 9 banks _ Hv Hok eq_refl Hlen)|].
  exact (progress_all v m _ Hv Hok).
Qed.

(** a coefficient reload completes.  From the cycle in which the request bit
    of module [m] is seen, whatever banks the later calls are for, the reload
    takes the two cycles plus one per section of each of the ten filters; then the reset
    table is idle again, the load flag shows the module, all ten filters hold the
    shared coefficients and switching parameters, a filter without sections has
    its readback bit off, the history of a filter is zeroed exactly if one of its
    coefficients changed, and no other module is touched. *)
Theorem reload_completes m pL totMod rfm dptr ch rest banks (s : CheckState F) :
  let v := rfm !!! m in
  filtResetId s = mkReset 0 0 0 dptr ch :: rest → Z.of_nat m < totMod →
  Z.land (rset (inputs (dspVme s) !!! m)) 3 = 1 →
  vme_ok v → state_ok m (load_state s ch) →
  length banks = sum_list_with (λ j, Z.to_nat (vfiltSections v !!! j) + 2)%nat (seq 0 FILTERS) →
  let s' := check_run pL totMod rfm (Z.of_nat m :: banks) s in
  let c' := cs_pC s' !!! m in
  let i' := inputs (cs_pL s') !!! m in
  fmResetCoeff (filtResetId s' !!! 0%nat) = 0 ∧ coef_load_error (dspVme s') = Z.of_nat m + 1 ∧
  (∀ j, (j < FILTERS)%nat →
     loaded v j c' i' ∧ filtHist c' !!! j = history_after v j (cs_pC s !!! m)) ∧
  (∀ m', m' ≠ m → cs_pC s' !!! m' = cs_pC s !!! m' ∧ inputs (cs_pL s') !!! m' = inputs (cs_pL s) !!! m').
Proof.
  intros v Er Hm Hs Hv Hok Hlen s' c' i'.
  destruct (reload_run m pL totMod rfm dptr ch rest banks s Er Hm Hs Hv Hok Hlen) as (D & l & E & Hp).
  unfold c', i', s'. rewrite E. destruct Hp as (_ & Hdone & _ & Hoth & _).
  split; [done|]. split; [done|]. split; [exact Hdone|exact Hoth].
Qed.

(** the checksum comparison never stops a reload: no cycle of
    [readCoefVme2], whatever it reads, returns the error code, so
    [checkFiltReset] never reports [coef_load_error] -1. *)
Theorem checksum_never_rejects bankNum pL totMod rfm (s : CheckState F) :
  0 <= fmSubCounter (filtResetId s !!! 0%nat) → 0 <= fmResetCoeff (filtResetId s !!! 0%nat) →
  coef_load_error (dspVme s) ≠ -1 →
  coef_load_error (dspVme (checkFiltReset bankNum pL totMod rfm s)) ≠ -1.
Proof.
  intros Hsub Hc He. unfold checkFiltReset, checkFiltResetId. simpl (_ || _). cbv iota.
  change (Z.to_nat 0) with 0%nat. set (r := filtResetId s !!! 0%nat) in *.
  destruct (truthy (fmResetCoeff r)).
  - destruct (decide (fmResetDsp r = Some pL)); [|done]. unfold reset_step. fold r.
    assert (Hcode : ∀ m j l, fst (readCoefVme2 m j (fmSubCounter r) rfm l) ≠ -1).
    { intros m j l. unfold readCoefVme2. destruct (fmSubCounter r =? 0) eqn:E0.
      - unfold load_begin, MAX_UPDATE_CYCLE, MAX_SO_SECTIONS. destruct (_ || _); cbn [fst]; lia.
      - destruct ((fmSubCounter r >? 0) && _).
        + unfold load_section, MAX_UPDATE_CYCLE, MAX_SO_SECTIONS. cbn [fst]. destruct (_ >? _); lia.
        + destruct (fmSubCounter r =? MAX_UPDATE_CYCLE); [rewrite load_commit_code|cbn]; lia. }
    specialize (Hcode (Z.to_nat (fmResetCoeff r - 1)) (fmResetCounter r) (load_state s (changed r))).
    unfold load_state in Hcode. destruct (readCoefVme2 _ _ _ _ _) as [sub l]. cbn [fst] in Hcode.
    rewrite (proj2 (Z.eqb_neq sub (-1)) Hcode). destruct (sub =? 0); [|done].
    destruct (FILTERS <=? _)%nat; [|done]. cbn. lia.
  - destruct ((0 <=? bankNum) && (bankNum <? totMod)); [|done]. unfold reset_request.
    destruct (truthy (Z.land _ 3)), (has _ 2); done.
Qed.

(** ** The publisher *)

(** Filter [j] of the record agrees with the parsed one. *)
Definition published (d : VME_FM_OP_COEF F) (j : nat) (p : VME_FM_OP_COEF F) : Prop :=
  vfiltSections p !!! j = vfiltSections d !!! j ∧ vsType p !!! j = vsType d !!! j ∧
  ramp p !!! j = ramp d !!! j ∧ timout p !!! j = timout d !!! j ∧ vfilterType p !!! j = vfilterType d !!! j ∧
  ∀ k, (k < Z.to_nat (vfiltSections d !!! j * 4 + 1))%nat → (vfiltCoeff p !!! j) !!! k = (vfiltCoeff d !!! j) !!! k.

Definition same_record (j : nat) (p p' : VME_FM_OP_COEF F) : Prop :=
  vfiltSections p' !!! j = vfiltSections p !!! j ∧ vsType p' !!! j = vsType p !!! j ∧
  ramp p' !!! j = ramp p !!! j ∧ timout p' !!! j = timout p !!! j ∧ vfilterType p' !!! j = vfilterType p !!! j ∧
  vfiltCoeff p' !!! j = vfiltCoeff p !!! j.

Lemma publish_coefs (d : VME_FM_OP_COEF F) j n c (p : VME_FM_OP_COEF F) :
  coef_dims (vfiltCoeff p) → (j < FILTERS)%nat → (n <= MAX_COEFFS)%nat →
  ∃ a, for_n n (publish_coef d j) (c, p) =
    ((if u32 (vfiltSections d !!! j) >? 0 then for_n n (λ k c, crc_double ((vfiltCoeff d !!! j) !!! k) c) c else c),
     set_vfiltCoeff a p) ∧
    coef_dims a ∧ (∀ k, (k < n)%nat → (a !!! j) !!! k = (vfiltCoeff d !!! j) !!! k) ∧
    (∀ j', j' ≠ j → a !!! j' = vfiltCoeff p !!! j').
Proof.
  intros Hp Hj Hn.
  exists (for_n n (λ kk a, set2 j kk ((vfiltCoeff d !!! j) !!! kk) a) (vfiltCoeff p)).
  split; [|by apply copy_row]. clear Hn.
  induction n as [|n IH]; [simpl; by destruct (_ >? 0), p|].
  rewrite !for_up_S, IH. unfold publish_coef. rewrite !Nat.add_0_l. by destruct (_ >? 0).
Qed.

Lemma publish_filter_spec (d : VME_FM_OP_COEF F) j c (p : VME_FM_OP_COEF F) :
  vme_ok d → (j < FILTERS)%nat → local_ok p →
  let '(c', p') := publish_filter d j (c, p) in
  c' = filter_crc d j c ∧ local_ok p' ∧ published d j p' ∧ (∀ j', j' ≠ j → same_record j' p p').
Proof.
  intros Hd Hj Hp. pose proof (vme_sections d Hd j Hj) as Hn. unfold publish_filter, filter_crc.
  rewrite (vme_iir d Hd j Hj), (u32_small (vfiltSections d !!! j)), (s32_small (vfiltSections d !!! j)) by done.
  set (n := vfiltSections d !!! j) in *.
  replace (Z.to_nat (u32 (1 + n * 4))) with (Z.to_nat (n * 4 + 1)) by (rewrite wrap_small; lia).
  set (p1 := set_vfilterType _ p).
  destruct (publish_coefs d j (Z.to_nat (n * 4 + 1))
    (if n >? 0 then crc_int (timout d !!! j) (crc_int (ramp d !!! j) (crc_int (vsType d !!! j) (crc_int n c)))
     else crc_int n c) p1) as (a & E & Ha & Hrow & Hoth);
    [apply Hp|done|unfold MAX_COEFFS; lia|].
  rewrite E. fold n. rewrite u32_small by done.
  pose proof (lk_sec _ Hp) as L1. pose proof (lk_sty _ Hp) as L2. pose proof (lk_ramp _ Hp) as L3.
  pose proof (lk_tim _ Hp) as L4. pose proof (lk_typ _ Hp) as L5.
  split; [by destruct (n >? 0)|]. unfold p1. split; [|split].
  - split; cbn [vfiltCoeff vfiltSections vsType ramp timout vfilterType set_vfilterType set_vfiltCoeff];
      rewrite ?length_insert; done.
  - unfold published. cbn. rewrite !lookup_total_insert, !decide_True by lia. repeat split; try done.
    symmetry. by apply vme_iir.
  - intros j' Hj'. unfold same_record. cbn. rewrite !lookup_total_insert, !decide_False by lia.
    rewrite Hoth by done. repeat split.
Qed.

Lemma publish_spec (d : VME_FM_OP_COEF F) biquad (p : VME_FM_OP_COEF F) :
  vme_ok d → local_ok p →
  let v := publish d biquad p in
  (∀ j, (j < FILTERS)%nat → published d j v) ∧ crc v = vme_crc d ∧ vbiquad v = biquad.
Proof.
  intros Hd Hp. cbv zeta. unfold publish, vme_crc.
  assert (Hk : ∀ k, (k <= FILTERS)%nat → let '(c, q) := for_n k (publish_filter d) (0, p) in
    c = for_n k (filter_crc d) 0 ∧ local_ok q ∧ ∀ j, (j < k)%nat → published d j q).
  { induction k as [|k IH]; intros Hk; [simpl; repeat split; (apply Hp || lia)|].
    rewrite !for_up_S, Nat.add_0_l. specialize (IH ltac:(lia)).
    destruct (for_n k (publish_filter d) (0, p)) as [c q]. destruct IH as (-> & Hq & Hpub).
    pose proof (publish_filter_spec d k (for_n k (filter_crc d) 0) q Hd ltac:(lia) Hq) as Hs.
    destruct (publish_filter d k _) as [c' q']. destruct Hs as (-> & Hq' & Hpub' & Hsame).
    split; [done|]. split; [done|]. intros j Hj. destruct (decide (j = k)) as [->|Hne]; [done|].
    destruct (Hsame j Hne) as (E1&E2&E3&E4&E5&E6). unfold published. rewrite E1, E2, E3, E4, E5, E6. apply Hpub. lia. }
  specialize (Hk FILTERS (le_n _)). destruct (for_n FILTERS (publish_filter d) (0, p)) as [c q].
  destruct Hk as (-> & _ & Hpub). split; [exact Hpub|done].
Qed.

Lemma for_up_crc_ext (v d : VME_FM_OP_COEF F) :
  (∀ j, (j < FILTERS)%nat → published d j v) → vme_crc v = vme_crc d.
Proof.
  intros Hp. unfold vme_crc. apply for_up_ext. intros j c Hj.
  destruct (Hp j ltac:(lia)) as (E1&E2&E3&E4&_&E6). unfold filter_crc. rewrite E1, E2, E3, E4.
  destruct (_ >? 0); [|done]. apply for_up_ext. intros k c' Hk. by rewrite E6 by lia.
Qed.

(** ** The form of the modules

    The start of the front end takes the form from the shared record; a reload
    leaves it. *)
Lemma forms_alter (f : FM_OP_COEF F → FM_OP_COEF F) m l :
  (∀ c, biquad (f c) = biquad c) → map biquad (alter f m l) = map biquad l.
Proof.
  intros Hf. revert m. induction l as [|c l IH]; intros [|m]; simpl; try done; f_equal; [apply Hf | apply IH].
Qed.

Lemma forms_loop {A} (g : A → list (FM_OP_COEF F)) (f : nat → A → A) i n a :
  (∀ k a, map biquad (g (f k a)) = map biquad (g a)) → map biquad (g (for_up i n f a)) = map biquad (g a).
Proof.
  intros Hf. apply (for_up_ind (λ _ b, map biquad (g b) = map biquad (g a)) f i n a); [done|].
  intros k b _ E. by rewrite Hf.
Qed.

Lemma load_coef_forms v m j k (s : LoadState F) : map biquad (filtC (load_coef v m j k s)) = map biquad (filtC s).
Proof. unfold load_coef. by destruct (_ ≠ᶠ _). Qed.

Lemma readCoefVme2_forms m j cycle rfm (s : LoadState F) :
  map biquad (filtC (snd (readCoefVme2 m j cycle rfm s))) = map biquad (filtC s).
Proof.
  unfold readCoefVme2. destruct (cycle =? 0); [|destruct (_ && _); [|destruct (_ =? _); [|done]]].
  - unfold load_begin. cbv zeta. destruct (j =? 0)%nat; destruct (_ || _); cbn [snd]; try done; by apply forms_alter.
  - unfold load_section. cbv zeta. cbn [snd]. destruct (_ >? 0).
    + rewrite andb_false_r. done.
    + rewrite (forms_loop filtC) by (intros; apply load_coef_forms). destruct (_ && _); [apply load_coef_forms | done].
  - unfold load_commit. cbv zeta. destruct (truthy (vfiltSections _ !!! j)); [|done]. cbn [snd].
    set (s1 := for_up _ _ _ s). assert (E : map biquad (filtC s1) = map biquad (filtC s)).
    { apply (forms_loop filtC). intros k a. destruct (truthy (chg _ !!! _)); [|done]. destruct (truthy _); [done | by apply forms_alter]. }
    rewrite <- E. destruct (_ >? 0); cbn [upd_in upd_coef set_fmt set_filtC filtC]; rewrite ?forms_alter; done.
Qed.

Lemma checkFiltReset_forms b pL totMod rfm (s : CheckState F) :
  map biquad (cs_pC (checkFiltReset b pL totMod rfm s)) = map biquad (cs_pC s).
Proof.
  unfold checkFiltReset, checkFiltResetId. destruct (_ || _); [done|]. destruct (truthy _).
  - destruct (decide _); [|done]. unfold reset_step.
    match goal with |- context [readCoefVme2 ?m ?j ?c ?r ?l] => pose proof (readCoefVme2_forms m j c r l) as E;
      destruct (readCoefVme2 m j c r l) as [sub l'] end. cbn [snd] in E.
    destruct (sub =? -1); [done|]. destruct (sub =? 0); [|done]. by destruct (FILTERS <=? _)%nat.
  - destruct (_ && _); [|done]. unfold reset_request. cbn [cs_pC set_filtResetId]. destruct (has _ 2), (truthy _);
      try done; cbn [cs_pC set_cs_pC set_dspVme]; apply forms_alter; intros c; cbn [biquad set_decHist];
      by apply (for_up_ind (λ _ c', biquad c' = biquad c)).
Qed.

Lemma check_run_forms pL totMod rfm banks (s : CheckState F) :
  map biquad (cs_pC (check_run pL totMod rfm banks s)) = map biquad (cs_pC s).
Proof.
  revert s. induction banks as [|b banks IH]; intros s; [done|]. cbn [check_run fold_left].
  etrans; [apply IH | apply checkFiltReset_forms].
Qed.

Lemma map_lookup_total (l l' : list (FM_OP_COEF F)) m :
  map biquad l = map biquad l' → (m < length l)%nat → biquad (l !!! m) = biquad (l' !!! m).
Proof.
  intros E Hm. assert (Hl : length l = length l') by (apply (f_equal length) in E; by rewrite !length_map in E).
  apply (f_equal (λ x, x !! m)) in E. rewrite !list_lookup_fmap in E.
  destruct (lookup_lt_is_Some_2 l m Hm) as [c Ec]. destruct (lookup_lt_is_Some_2 l' m) as [c' Ec']; [lia|].
  rewrite Ec, Ec' in E. injection E as E. by rewrite (list_lookup_total_correct _ _ _ Ec), (list_lookup_total_correct _ _ _ Ec').
Qed.

(** A reload of a module whose shared record agrees with [d]. *)
Lemma reload_published (d : VME_FM_OP_COEF F) m pL totMod rfm dptr ch rest banks (s : CheckState F) :
  vme_ok d → (∀ j, (j < FILTERS)%nat → published d j (rfm !!! m)) →
  filtResetId s = mkReset 0 0 0 dptr ch :: rest → Z.of_nat m < totMod →
  Z.land (rset (inputs (dspVme s) !!! m)) 3 = 1 → state_ok m (load_state s ch) →
  length banks = sum_list_with (λ j, Z.to_nat (vfiltSections d !!! j) + 2)%nat (seq 0 FILTERS) →
  let s' := check_run pL totMod rfm (Z.of_nat m :: banks) s in
  (∀ j, (j < FILTERS)%nat → loaded d j (cs_pC s' !!! m) (inputs (cs_pL s') !!! m)) ∧
  crc (cs_localCoeff s') = vme_crc d.
Proof.
  intros Hd Hpub Er Hm Hs Hok Hlen s'.
  assert (Hv : vme_ok (rfm !!! m)).
  { split; intros j Hj; destruct (Hpub j Hj) as (E1&_&_&_&E5&_); rewrite ?E1, ?E5; by apply Hd. }
  destruct (reload_run m pL totMod rfm dptr ch rest banks s Er Hm Hs Hv Hok) as (D & l & E & _ & Hdone & _ & _ & Hc).
  { rewrite Hlen. unfold reload_cycles. apply sum_list_with_ext_seq. intros j Hj. unfold filter_cycles.
    by destruct (Hpub j Hj) as (->&_). }
  unfold s'. rewrite E. split.
  - intros j Hj. destruct (Hdone j Hj) as [(L1 & L2 & L3 & L4) _].
    destruct (Hpub j Hj) as (E1&E2&E3&E4&E5&E6). unfold loaded. rewrite <- E1, <- E2, <- E3, <- E4.
    split; [done|]. split; [done|]. split; [done|]. intros Hn. destruct (L4 Hn) as (M1 & M2 & M3 & M4).
    do 3 (split; [done|]). intros k Hk. rewrite E1 in Hk. rewrite <- E6 by done. apply M4. by rewrite E1.
  - cbn [finished cs_localCoeff]. rewrite Hc by (unfold FILTERS; lia). by apply for_up_crc_ext.
Qed.

(** C3: what the EPICS process publishes is what a reload loads: if the shared
    record of module [m] was written by the publication loop from the parsed
    filters [d], then after the reload all ten filters of the module hold [d], and the
    checksum the front end accumulated over one section per cycle is the checksum the
    publisher stored. *)
Theorem reload_matches_publication (d : VME_FM_OP_COEF F) biquad p m pL totMod rfm dptr ch rest banks (s : CheckState F) :
  vme_ok d → local_ok p → rfm !!! m = publish d biquad p →
  filtResetId s = mkReset 0 0 0 dptr ch :: rest → Z.of_nat m < totMod →
  Z.land (rset (inputs (dspVme s) !!! m)) 3 = 1 → state_ok m (load_state s ch) →
  length banks = sum_list_with (λ j, Z.to_nat (vfiltSections d !!! j) + 2)%nat (seq 0 FILTERS) →
  let s' := check_run pL totMod rfm (Z.of_nat m :: banks) s in
  (∀ j, (j < FILTERS)%nat → loaded d j (cs_pC s' !!! m) (inputs (cs_pL s') !!! m)) ∧
  crc (cs_localCoeff s') = crc (rfm !!! m).
Proof.
  intros Hd Hp Ev Er Hm Hs Hok Hlen. destruct (publish_spec d biquad p Hd Hp) as (Hpub & Hcrc & _).
  rewrite <- Ev in Hpub, Hcrc. rewrite Hcrc. by apply reload_published with dptr ch rest.
Qed.
End reload.

(** ** A concrete reload

    Module 1 of two: a filter of two sections and a filter of one are published and
    loaded over filters that were off. *)
Definition demo_record (n0 n9 : Z) (g : binary64) : VME_FM_OP_COEF binary64 :=
  mkVme (replicate 10 (replicate 41 g)) (replicate 10 []) 1 (n0 :: replicate 8 0 ++ [n9]) (replicate 10 12)
    (replicate 10 16) (replicate 10 2) 0 (replicate 10 0) 0.
Definition demo_published : VME_FM_OP_COEF binary64 := publish (demo_record 2 1 (flit 15 (-1))) 0 (demo_record 0 0 f0).
Definition demo_module (r : Z) : FM_OP_IN binary64 :=
  mkIn 0 0x20 r f0 f1 f0 (replicate 10 0) (replicate 10 0) (replicate 10 0) f0 0 0 0 0.
Definition demo_coefs : FM_OP_COEF binary64 :=
  mkCoef (replicate 10 (replicate 41 f0)) (replicate 10 (replicate 20 f1)) (replicate 10 0) (replicate 10 0)
    (replicate 8 f0) (replicate 10 0) 0.
Definition demo_mods (r : Z) : FILT_MOD binary64 :=
  mkMod [demo_module 0; demo_module r] [] 0 0.
Definition demo_check : CheckState binary64 :=
  mkCheck (replicate 10 (mkReset 0 0 0 None (replicate 10 0))) (demo_record 0 0 f0) (demo_mods 0) (demo_mods 1)
    [demo_coefs; demo_coefs].

Lemma lookup_total_replicate_10 {A} `{Inhabited A} (x : A) j : (j < FILTERS)%nat → replicate 10 x !!! j = x.
Proof. apply lookup_total_replicate_2. Qed.

Lemma demo_record_ok n0 n9 g : 0 <= n0 <= 10 → 0 <= n9 <= 10 → vme_ok (demo_record n0 n9 g) ∧ local_ok (demo_record n0 n9 g).
Proof.
  intros H0 H9. split; split; try done.
  - intros j Hj. unfold FILTERS in Hj. do 10 (destruct j as [|j]; [cbn; lia|]). lia.
  - intros j Hj. by apply lookup_total_replicate_10.
  - split; [done|]. intros j Hj. cbn [demo_record vfiltCoeff]. by rewrite lookup_total_replicate_10.
Qed.

Lemma demo_state_ok : state_ok 1 (load_state demo_check (replicate 10 0)).
Proof.
  split; [cbn; lia|]. split; [cbn; lia|]. split; [by apply demo_record_ok|]. split; try done. split; [done|].
  intros j Hj. cbn [load_state filtC demo_check cs_pC demo_coefs filtCoeff].
  change ([demo_coefs; demo_coefs] !!! 1%nat) with demo_coefs. cbn [demo_coefs filtCoeff].
  by rewrite lookup_total_replicate_10.
Qed.

Lemma demo_published_ok : vme_ok demo_published.
Proof.
  split; intros j Hj; unfold FILTERS in Hj; do 10 (destruct j as [|j]; [vm_compute; (done || by split)|]); lia.
Qed.

Lemma reload_completes_witness :
  let s' := check_run 7 2 [demo_record 0 0 f0; demo_published] (1 :: replicate 23 0) demo_check in
  coef_load_error (dspVme s') = 2 ∧ filtHist (cs_pC s' !!! 1%nat) !!! 0%nat = replicate 20 f0.
Proof.
  pose proof (reload_completes 1 7 2 [demo_record 0 0 f0; demo_published] None (replicate 10 0)
    (replicate 9 (mkReset 0 0 0 None (replicate 10 0))) (replicate 23 0) demo_check eq_refl eq_refl eq_refl
    demo_published_ok demo_state_ok ltac:(vm_compute; reflexivity)) as Hr.
  cbv zeta in Hr |- *. set (s' := check_run _ _ _ _ _) in *. clearbody s'.
  destruct Hr as (_ & He & Hload & _). split; [exact He|].
  assert (H0 : (0 < FILTERS)%nat) by (unfold FILTERS; lia).
  destruct (Hload 0%nat H0) as [_ Hh]. etrans; [exact Hh|]. vm_compute. reflexivity.
Defined.

Lemma demo_shared :
  [demo_record 0 0 f0; demo_published] !!! 1%nat = publish (demo_record 2 1 (flit 15 (-1))) 0 (demo_record 0 0 f0).
Proof. unfold demo_published. by generalize (publish (demo_record 2 1 (flit 15 (-1))) 0 (demo_record 0 0 f0)). Qed.

Lemma checksum_never_rejects_witness :
  coef_load_error (dspVme (checkFiltReset 1 7 2 [demo_record 0 0 f0; demo_record 1 1 f1] demo_check)) ≠ -1.
Proof.
  apply (checksum_never_rejects 1 7 2 [demo_record 0 0 f0; demo_record 1 1 f1] demo_check); vm_compute; done.
Defined.

Lemma reload_matches_publication_witness :
  let s' := check_run 7 2 [demo_record 0 0 f0; demo_published] (1 :: replicate 23 0) demo_check in
  loaded (demo_record 2 1 (flit 15 (-1))) 9 (cs_pC s' !!! 1%nat) (inputs (cs_pL s') !!! 1%nat) ∧
  crc (cs_localCoeff s') = crc demo_published.
Proof.
  assert (H2 : 0 <= 2 <= 10) by lia. assert (H1 : 0 <= 1 <= 10) by lia. assert (H0 : 0 <= 0 <= 10) by lia.
  destruct (demo_record_ok 2 1 (flit 15 (-1)) H2 H1) as [Hd _]. destruct (demo_record_ok 0 0 f0 H0 H0) as [_ Hp].
  pose proof (reload_matches_publication (demo_record 2 1 (flit 15 (-1))) 0 (demo_record 0 0 f0) 1 7 2
    [demo_record 0 0 f0; demo_published] None (replicate 10 0)
    (replicate 9 (mkReset 0 0 0 None (replicate 10 0))) (replicate 23 0) demo_check Hd Hp demo_shared eq_refl eq_refl eq_refl
    demo_state_ok ltac:(vm_compute; reflexivity)) as Hr.
  cbv zeta in Hr |- *. set (s' := check_run _ _ _ _ _) in *. clearbody s'.
  destruct Hr as (Hload & Hcrc). rewrite demo_shared in Hcrc.
  split; [apply Hload; unfold FILTERS; lia|exact Hcrc].
Defined.
End FilterReload.
