(* ===== verification/FilterFile.v ===== *)
(** * Filter files ([src/drv/fmReadCoeff.c])

    The EPICS process reads the filter file of a model, keeps a copy of it in an
    archive, and publishes the filters in shared memory ([FilterLoad]); to load
    one module only it first replaces that module's part of the file.

    - tokens: [strtok_r], [lineTok], [getwords], [intToken], [doubleToken];
    - [fmSubSysMap]: the module table of a model, with the _placeholders_ the
      filters are parsed into; [Reader]: the table and where the reader is;
    - [declaration], [continuation], [file_line]: one line of the file, with the
      complaint that ends the reading; [read_lines]: a file;
    - [fmReadCoeffFile]: the whole call, from the files found to the memory, the
      archives and the message; [fmCreatePartial]: the partial file.

    Files are texts; whether they open is in [Files].  Failures to write or close
    a file that did open are left out.  The build is the one without
    [FIR_FILTERS], in which the [.fir] file is read like the [.txt] file. *)
From Stdlib Require Import String Ascii.
From stdpp Require Import strings.
From S2P Require Import Prelude CFloat CText Crc CFile Ramp Iir FilterModule FilterLoad.
Import CText CFile Iir FilterModule FilterLoad.

Module FilterFile.

(** ** Tokens *)
Definition info_line (c : string) : bool :=
  match skip_spaces c with
  | EmptyString => false
  | String c _ => negb (bool_decide (c = chr 35))
  end.

Fixpoint skip_delims (delim : ascii → bool) (s : string) : string :=
  match s with String c s' => if delim c then skip_delims delim s' else s | EmptyString => EmptyString end.

(** A token and what follows the delimiter behind it. *)
Fixpoint split_token (delim : ascii → bool) (s : string) : string * string :=
  match s with
  | String c s => if delim c then (""%string, s) else let '(t, r) := split_token delim s in (String c t, r)
  | EmptyString => (""%string, ""%string)
  end.
Definition strtok_r (delim : ascii → bool) (s : string) : option (string * string) :=
  match skip_delims delim s with
  | EmptyString => None
  | s => Some (split_token delim s)
  end.

(** At most [n] tokens. *)
Fixpoint tokens (delim : ascii → bool) (n : nat) (s : string) : list string :=
  match n with
  | O => []
  | S n => match strtok_r delim s with Some (t, s) => t :: tokens delim n s | None => [] end
  end.

Definition MAX_TOKENS : nat := 12.
Definition tok_delim (c : ascii) : bool := bool_decide (c = SPACE) || bool_decide (c = TAB) || bool_decide (c = NL).
Definition lineTok (s : string) : list string := tokens tok_delim MAX_TOKENS s.
Definition getwords (line : string) (maxwords : nat) : list string := tokens is_space maxwords line.

Definition intToken (str : string) : option Z :=
  let '(v, rest) := strtol 10 str in if bool_decide (rest = ""%string) then Some (s32 v) else None.
Definition doubleToken (str : string) : option binary64 :=
  let rest := strtod_end str in
  if bool_decide (rest = ""%string) || head_is (λ c, bool_decide (c = NL)) rest then Some (atof str) else None.
Definition doubles (l : list string) : option (list binary64) := mapM doubleToken l.

(** ** The module table *)
Record fmSubSysMap := mkMap { name : string; fmModNum : nat; mbiquad : Z; filters : Z; fmd : VME_FM_OP_COEF binary64 }.
Definition set_fmd (d : VME_FM_OP_COEF binary64) (e : fmSubSysMap) : fmSubSysMap :=
  mkMap (name e) (fmModNum e) (mbiquad e) (filters e) d.
Definition set_filters (n : Z) (e : fmSubSysMap) : fmSubSysMap :=
  mkMap (name e) (fmModNum e) (mbiquad e) n (fmd e).

(** [memset] to zero of the placeholder; names are C strings. *)
Definition empty_fmd : VME_FM_OP_COEF binary64 :=
  mkVme (replicate FILTERS (replicate MAX_COEFFS f0)) (replicate FILTERS []) 0 (replicate FILTERS 0)
    (replicate FILTERS 0) (replicate FILTERS 0) (replicate FILTERS 0) 0 (replicate FILTERS 0) 0.
Definition clear_entry (e : fmSubSysMap) : fmSubSysMap := set_fmd empty_fmd (set_filters 0 e).
#[export] Instance fmSubSysMap_inhabited : Inhabited fmSubSysMap := populate (mkMap "" 0 0 0 empty_fmd).

(** ** The reader

    [inFilter] is the number of continuation lines expected; [curFilter] the
    table entry of the filter being read, if it is one of the table's. *)
Record Reader := mkReader { table : list fmSubSysMap; inFilter : Z; curFilter : option nat; curFilterNum : nat }.

(** Why a line is refused; the numbers are those of the fields. *)
Inductive Complaint := Invalid | BadField (k : Z) | OutOfRange (k : Z) | WrongField (k : Z) | BadCoeffs.
Inductive Checked (A : Type) := Fine (x : A) | Refused (c : Complaint).
Arguments Fine {A} x.
Arguments Refused {A} c.
#[export] Instance Checked_bind : MBind Checked :=
  λ A B f m, match m with Fine x => f x | Refused c => Refused c end.
Definition or_refuse {A} (c : Complaint) (o : option A) : Checked A :=
  match o with Some x => Fine x | None => Refused c end.
Definition demand (c : Complaint) (b : bool) : Checked unit := if b then Fine () else Refused c.

(** [fmShortErrMsgTxt] *)
Definition short_message (ext : string) (line : Z) (c : Complaint) : string :=
  match c with
  | Invalid => "Invalid " +:+ ext +:+ " line " +:+ fmt_d line
  | BadField k => "Bad field " +:+ fmt_d k +:+ " on " +:+ ext +:+ " line " +:+ fmt_d line
  | OutOfRange k => "Out of range field " +:+ fmt_d k +:+ " on " +:+ ext +:+ " line " +:+ fmt_d line
  | WrongField k => "Wrong field " +:+ fmt_d k +:+ " on " +:+ ext +:+ " line " +:+ fmt_d line
  | BadCoeffs => "Bad coeffs on " +:+ ext +:+ " line " +:+ fmt_d line
  end%string.

(** The coefficient stored at [j] of the four of a continuation line, or of the
    five of a declaration. *)
Definition cont_coeff (biquad : Z) (c : list binary64) (j : nat) : binary64 :=
  if truthy biquad then
    match j with
    | 0 => fneg (c !!! 0) ⊖ f1
    | 1 => fneg (c !!! 1) ⊖ (c !!! 0) ⊖ f1
    | 2 => (c !!! 2) ⊖ (c !!! 0)
    | 3 => (c !!! 3) ⊖ (c !!! 1) ⊕ (c !!! 2) ⊖ (c !!! 0)
    | _ => c !!! j
    end%nat
  else c !!! j.
Definition decl_coeff (biquad : Z) (c : list binary64) (j : nat) : binary64 :=
  if truthy biquad then
    match j with
    | 1 => fneg (c !!! 1) ⊖ f1
    | 2 => fneg (c !!! 2) ⊖ (c !!! 1) ⊖ f1
    | 3 => (c !!! 3) ⊖ (c !!! 1)
    | 4 => (c !!! 4) ⊖ (c !!! 2) ⊕ (c !!! 3) ⊖ (c !!! 1)
    | _ => c !!! j
    end%nat
  else c !!! j.

(** [indexN]: where the coefficients of a continuation line go in the row, with
    [left] more lines to come. *)
Definition cont_index (sections left : Z) (j : nat) : Z := 5 + 4 * (sections - left - 2) + Z.of_nat j.
(** Coefficients of the continuation line with [left] more to come. *)
Definition store_section (num : nat) (left : Z) (c : list binary64) (e : fmSubSysMap) : fmSubSysMap :=
  let d := fmd e in
  if truthy (vfilterType d !!! num) then e
  else
    set_fmd (set_vfiltCoeff
      (for_n 4 (λ j a, set2 num (Z.to_nat (cont_index (vfiltSections d !!! num) left j)) (cont_coeff (mbiquad e) c j) a) (vfiltCoeff d)) d) e.

Definition continuation (tok : list string) (s : Reader) : Checked Reader :=
  let left := inFilter s - 1 in
  match curFilter s with
  | None => Fine (mkReader (table s) left None (curFilterNum s))
  | Some i =>
      c ← or_refuse Invalid (doubles (take 4 tok));
      Fine (mkReader (alter (store_section (curFilterNum s) left c) i (table s)) left (Some i) (curFilterNum s))
  end.

(** The filter of a declaration put in the placeholder. *)
Definition store_filter (num : nat) (sType sections ramp_ timeout : Z) (label : string) (c : list binary64)
    (e : fmSubSysMap) : fmSubSysMap :=
  let d := fmd e in
  let a := for_n 5 (λ j a, set2 num j (decl_coeff (mbiquad e) c j) a) (vfiltCoeff d) in
  mkMap (name e) (fmModNum e) (mbiquad e) (filters e + 1)
    (mkVme a (<[num := bytes_of label]> (filtName d)) (Z.of_nat (fmModNum e))
       (<[num := sections]> (vfiltSections d)) (<[num := sType]> (vsType d)) (<[num := ramp_]> (ramp d))
       (<[num := timeout]> (timout d)) (crc d) (<[num := 0]> (vfilterType d)) (vbiquad d)).

(** The first entry of the table with a name. *)
Fixpoint find_entry (t : list fmSubSysMap) (n : string) : option nat :=
  match t with
  | [] => None
  | e :: t => if bool_decide (name e = n) then Some 0%nat else S <$> find_entry t n
  end.

Definition stype_ok (sType : Z) : bool :=
  let inType := Z.quot sType 10 in
  let outType := Z.rem sType 10 in
  ((inType =? 1) || (inType =? 2)) && (1 <=? outType) && (outType <=? 4).

Definition declaration (tok : list string) (s : Reader) : Checked Reader :=
  num ← or_refuse (BadField 2) (intToken (tok !!! 1%nat));
  _ ← demand (OutOfRange 2) ((0 <=? num) && (num <=? 9));
  sType ← or_refuse (BadField 3) (intToken (tok !!! 2%nat));
  _ ← demand (WrongField 3) (stype_ok sType);
  sections ← or_refuse (BadField 4) (intToken (tok !!! 3%nat));
  _ ← demand (WrongField 4) ((0 <? sections) && (sections <=? MAX_SO_SECTIONS));
  ramp_ ← or_refuse (BadField 5) (intToken (tok !!! 4%nat));
  _ ← demand (WrongField 5) (0 <=? ramp_);
  timeout ← or_refuse (BadField 6) (intToken (tok !!! 5%nat));
  _ ← demand (WrongField 6) (0 <=? timeout);
  _ ← demand (BadField 7) (String.length (tok !!! 6%nat) <=? 31)%nat;
  c ← or_refuse BadCoeffs (doubles (take 5 (drop 7 tok)));
  let left := sections - 1 in
  match find_entry (table s) (tok !!! 0%nat) with
  | Some i =>
      Fine (mkReader (alter (store_filter (Z.to_nat num) sType sections ramp_ timeout (tok !!! 6%nat) c) i (table s))
              left (Some i) (Z.to_nat num))
  | None => Fine (mkReader (table s) left None 0)
  end.

(** The body of the loop over the lines, without the checksum and the archive. *)
Definition file_line (line : string) (s : Reader) : Checked Reader :=
  if info_line line then
    let tok := lineTok line in
    if (length tok <? (if truthy (inFilter s) then 4 else MAX_TOKENS))%nat then Refused Invalid
    else if truthy (inFilter s) then continuation tok s
    else declaration tok s
  else Fine s.

(** A file: the checksum and the archive go on over the line that is refused. *)
Record Progress := mkProgress { pcrc : Z; copied : string; reader : Reader; refused : option (Z * Complaint) }.
Fixpoint read_lines (pieces : list string) (lineNo crc : Z) (copy : string) (s : Reader) : Progress :=
  match pieces with
  | [] => mkProgress crc copy s None
  | piece :: pieces =>
      let line := c_str piece in
      let crc := Crc.crc_ptr (bytes_of line) (String.length line) crc in
      let copy := (copy +:+ line)%string in
      match file_line line s with
      | Fine s => read_lines pieces (lineNo + 1) crc copy s
      | Refused c => mkProgress crc copy s (Some (lineNo, c))
      end
  end.
Definition file_pieces (text : string) : list string := fgets_all 1023 1023 "" text.

(** ** The call

    A file is there with a text or not ([stat]); it, and its archive, can be
    opened or not. *)
Record Files := mkFiles {
  txt : option string; txt_opens : bool; txt_archive_opens : bool;
  fir : option string; fir_opens : bool; fir_archive_opens : bool
}.
Record subSys := mkSub { map_ : list fmSubSysMap; sub_crc : Z }.

(** What the call leaves of an archive: no file, one of which the text is known,
    or one that is never closed. *)
Inductive Archive := NoArchive | Archived (text : string) | LeftOpen (text : string).

Record Outcome := mkOutcome {
  ret : Z; message : string; sub : subSys; vmeCoeffs : list (VME_FM_OP_COEF binary64);
  archive_txt : Archive; archive_fir : Archive
}.

Definition FM_CANNOT_STAT_INPUT_FILE : Z := 1.
Definition FM_EMPTY_INPUT_FILE : Z := 2.
Definition FM_CANNOT_OPEN_ARCHIVE_FILE : Z := 4.
Definition FM_INVALID_INPUT_FILE : Z := 6.

(** The last loop: every placeholder is published in the record of its module. *)
Definition publish_entry (v : list (VME_FM_OP_COEF binary64)) (e : fmSubSysMap) : list (VME_FM_OP_COEF binary64) :=
  alter (publish (fmd e) (mbiquad e)) (fmModNum e) v.
Definition publish_all (t : list fmSubSysMap) (v : list (VME_FM_OP_COEF binary64)) : list (VME_FM_OP_COEF binary64) :=
  foldl publish_entry v t.

(** The text of the [.fir] file, when it is read. *)
Definition fir_text (f : Files) : option string :=
  match fir f with
  | Some text => if bool_decide (text = ""%string) || negb (fir_opens f && fir_archive_opens f) then None else Some text
  | None => None
  end.
Definition size_of (text : string) : Z := Z.of_nat (String.length text).

(** What follows the reading: the checksum is compared with the one of the last
    call, and the archives of unchanged files are deleted. *)
Definition finish (totalLength crc : Z) (old : Z) (t : list fmSubSysMap) (v : list (VME_FM_OP_COEF binary64))
    (copy_txt : Archive) (copy_fir : Archive) : option Outcome :=
  crc ← Crc.crc_len totalLength crc;
  Some (if negb (crc =? old) then mkOutcome 0 "" (mkSub t crc) (publish_all t v) copy_txt copy_fir
        else mkOutcome 0 "" (mkSub t old) (publish_all t v) NoArchive NoArchive).

(** The short message is the one of this call.  [None] is a checksum loop that
    does not end. *)
Definition fmReadCoeffFile (f : Files) (s : subSys) (v : list (VME_FM_OP_COEF binary64)) : option Outcome :=
  let t := map clear_entry (map_ s) in
  let fail code msg t := Some (mkOutcome code msg (mkSub t (sub_crc s)) v NoArchive NoArchive) in
  match txt f with
  | None => fail FM_CANNOT_STAT_INPUT_FILE "Can't stat input .txt file"%string t
  | Some text =>
      if bool_decide (text = ""%string) then fail FM_EMPTY_INPUT_FILE "Empty input .txt file"%string t
      else if negb (txt_opens f) then
        fail FM_CANNOT_OPEN_ARCHIVE_FILE "Can't open input .txt file for reading"%string t
      else if negb (txt_archive_opens f) then
        fail FM_CANNOT_OPEN_ARCHIVE_FILE (substring 0 39 "Can't open archive .txt file for writing") t
      else
        let p := read_lines (file_pieces text) 1 0 "" (mkReader t 0 None 0) in
        match refused p, fir_text f with
        | Some (n, c), _ => fail FM_INVALID_INPUT_FILE (short_message ".txt" n c) (table (reader p))
        | None, None =>
            finish (u32 (size_of text)) (pcrc p) (sub_crc s) (table (reader p)) v (Archived (copied p)) NoArchive
        | None, Some text' =>
            let q := read_lines (file_pieces text') 1 (pcrc p) "" (reader p) in
            match refused q with
            | Some (n, c) =>
                Some (mkOutcome FM_INVALID_INPUT_FILE (short_message ".fir" n c) (mkSub (table (reader q)) (sub_crc s)) v
                        (LeftOpen (copied p)) NoArchive)
            | None =>
                finish (u32 (size_of text + size_of text')) (pcrc q) (sub_crc s) (table (reader q)) v
                  (Archived (copied p)) (Archived (copied q))
            end
        end
  end.

(** ** The partial file *)

(** [getline]: the lines of a text, with their ends. *)
Fixpoint getlines (line rest : string) : list string :=
  match rest with
  | EmptyString => if bool_decide (line = ""%string) then [] else [line]
  | String c rest =>
      let line := (line +:+ String c "")%string in
      if bool_decide (c = NL) then line :: getlines "" rest else getlines line rest
  end.
Definition stopPattern : string := "########".

(** Whether a line with the search pattern is the header of the module: its
    second word.  [None]: the line overflows the array it is copied in, or has no
    second word. *)
Definition names_filter (filtName line : string) : option bool :=
  if (100 <=? String.length line)%nat then None
  else match getwords line 10 with
       | _ :: w :: _ => Some (bool_decide (filtName = w))
       | _ => None
       end.

(** The scanning of the photon file: whether inside the module's part, the number
    of stop lines, and the lines collected, of less than 50000 characters. *)
Record Scan := mkScan { fstart : bool; fstop : Z; newcoeffs : string }.
Definition collect (line : string) (s : Scan) : option Scan :=
  let text := (newcoeffs s +:+ line)%string in
  if 50000 <=? Z.of_nat (String.length text) then None else Some (mkScan (fstart s) (fstop s) text).
Definition count_stop (line : string) (s : Scan) : Scan :=
  let s := if fstart s && strstr line stopPattern then mkScan (fstart s) (fstop s + 1) (newcoeffs s) else s in
  if fstop s =? 2 then mkScan false (fstop s) (newcoeffs s) else s.
Definition scan_line (filtName : string) (s : Scan) (line : string) : option Scan :=
  s ← (if fstart s && (fstop s <? 2) then collect line s else Some s);
  s ← (if strstr line ("### " +:+ filtName)%string && negb (fstart s) then
         here ← names_filter filtName line;
         if here : bool then collect line (mkScan true (fstop s) (newcoeffs s)) else Some s
       else Some s);
  Some (count_stop line s).

(** The copy of the load file; [newcoeffs] is now the text written. *)
Definition copy_line (filtName new : string) (s : Scan) (line : string) : option Scan :=
  let out t s := mkScan (fstart s) (fstop s) (newcoeffs s +:+ t)%string in
  let hit := strstr line ("### " +:+ filtName)%string in
  let s1 := if negb hit && negb (fstart s) then out line s else s in
  s2 ← (if hit && negb (fstart s1) then
          here ← names_filter filtName line;
          Some (if here : bool then out new (mkScan true (fstop s1) (newcoeffs s1)) else out line s1)
        else Some s1);
  Some (count_stop line s2).

Fixpoint fold_lines (f : Scan → string → option Scan) (lines : list string) (s : Scan) : option Scan :=
  match lines with
  | [] => Some s
  | l :: lines => s ← f s (c_str l); fold_lines f lines s
  end.

(** The returned code and the load file afterwards; [None] is an array overrun
    or a word that is not there. *)
Definition fmCreatePartial (photon load : option string) (tmp_opens : bool) (filtName : string)
  : option (Z * option string) :=
  if (60 <=? String.length filtName)%nat then None
  else
    match photon with
    | None => Some (FM_CANNOT_STAT_INPUT_FILE, load)
    | Some ptext =>
        p ← fold_lines (scan_line filtName) (getlines "" ptext) (mkScan false 0 "");
        match load with
        | None => Some (FM_CANNOT_STAT_INPUT_FILE, None)
        | Some text =>
            if negb tmp_opens then Some (FM_CANNOT_STAT_INPUT_FILE, load)
            else
              c ← fold_lines (copy_line filtName (newcoeffs p)) (getlines "" text) (mkScan false 0 "");
              Some (0, Some (newcoeffs c))
        end
    end.

End FilterFile.
