(* ===== verification/FilterFileProps.v ===== *)
(** * Filter files: correctness ([FilterFile.v])

    - [FilterDef], [says]: the filters a file declares, line by line, and
      [define]: what a declaration means for the table; reading a file defines
      its filters one after the other;
    - [reader_ok]: what holds of the placeholders whatever the file says;
    - the call: its outcomes, the checksum, and the way of a filter from the file
      to the front end, with [FilterReload];
    - the partial file. *)
From Stdlib Require Import String Ascii.
From stdpp Require Import strings.
From S2P Require Import Prelude CFloat CText Crc CFile Ramp Iir FilterModule FilterLoad FilterReload FilterFile.
Import CText CFile Iir FilterModule FilterLoad FilterReload FilterFile.

Module FilterFileProps.

(** ** What a file says *)
Definition section : Type := binary64 * binary64 * binary64 * binary64.
Record FilterDef := mkDef {
  d_name : string; d_num : nat; d_stype : Z; d_ramp : Z; d_timeout : Z; d_label : string;
  d_gain : binary64; d_sections : list section
}.
Definition sec_list (c : section) : list binary64 := let '(a1, a2, b1, b2) := c in [a1; a2; b1; b2].

(** The declaration line, with the gain and the first section, and a
    continuation line. *)
Definition decl_tokens (tok : list string) (d : FilterDef) (first : section) : Prop :=
  length tok = MAX_TOKENS ∧ tok !!! 0%nat = d_name d ∧ intToken (tok !!! 1%nat) = Some (Z.of_nat (d_num d)) ∧
  intToken (tok !!! 2%nat) = Some (d_stype d) ∧
  intToken (tok !!! 3%nat) = Some (Z.of_nat (length (d_sections d))) ∧
  intToken (tok !!! 4%nat) = Some (d_ramp d) ∧ intToken (tok !!! 5%nat) = Some (d_timeout d) ∧
  tok !!! 6%nat = d_label d ∧ doubles (take 5 (drop 7 tok)) = Some (d_gain d :: sec_list first).
Definition cont_tokens (tok : list string) (c : section) : Prop :=
  (4 <= length tok)%nat ∧ doubles (take 4 tok) = Some (sec_list c).

Definition def_ok (d : FilterDef) : Prop :=
  (d_num d < FILTERS)%nat ∧ stype_ok (d_stype d) ∧ (1 <= length (d_sections d) <= 10)%nat ∧
  0 <= d_ramp d ∧ 0 <= d_timeout d ∧ (String.length (d_label d) <= 31)%nat.

(** The lines (as tokens) say these filters. *)
Inductive says : list (list string) → list FilterDef → Prop :=
| says_nil : says [] []
| says_cons tok conts rest d ds first more :
    def_ok d → d_sections d = first :: more → decl_tokens tok d first → Forall2 cont_tokens conts more →
    says rest ds → says (tok :: conts ++ rest) (d :: ds).

(** The lines of a file that are not comments. *)
Definition info_lines (pieces : list string) : list (list string) :=
  map lineTok (filter (λ l, info_line l) (map c_str pieces)).

(** ** What a filter means for the table

    The row of a filter: the gain and the sections, converted for a module in
    biquad form. *)
Definition stored (biquad : Z) (c : section) : section := if truthy biquad then biquad_coeffs c else c.
Definition row (biquad : Z) (g : binary64) (cs : list section) : list binary64 :=
  g :: flat_map (λ c, sec_list (stored biquad c)) cs.
(** [row] over the beginning of what was there. *)
Definition over {A} (new old : list A) : list A := new ++ drop (length new) old.

Definition define_entry (d : FilterDef) (cs : list section) (e : fmSubSysMap) : fmSubSysMap :=
  let f := fmd e in
  mkMap (name e) (fmModNum e) (mbiquad e) (filters e + 1)
    (mkVme (alter (over (row (mbiquad e) (d_gain d) cs)) (d_num d) (vfiltCoeff f))
       (<[d_num d := bytes_of (d_label d)]> (filtName f)) (Z.of_nat (fmModNum e))
       (<[d_num d := Z.of_nat (length (d_sections d))]> (vfiltSections f)) (<[d_num d := d_stype d]> (vsType f))
       (<[d_num d := d_ramp d]> (ramp f)) (<[d_num d := d_timeout d]> (timout f)) (crc f)
       (<[d_num d := 0]> (vfilterType f)) (vbiquad f)).
Definition define (t : list fmSubSysMap) (d : FilterDef) : list fmSubSysMap :=
  match find_entry t (d_name d) with
  | Some i => alter (define_entry d (d_sections d)) i t
  | None => t
  end.

(** ** Writing a row *)
Lemma write_run {A} (f : nat → A) (p old : list A) n :
  (length p + n <= length old)%nat →
  for_n n (λ j r, <[(length p + j)%nat := f j]> r) (over p old) = over (p ++ map f (seq 0 n)) old.
Proof.
  intros Hn. induction n as [|n IH]; [by rewrite app_nil_r|].
  rewrite for_up_S, IH, Nat.add_0_l by lia. unfold over.
  assert (Hl : length (p ++ map f (seq 0 n)) = (length p + n)%nat) by by rewrite length_app, length_map, length_seq.
  rewrite <- Hl at 1. rewrite insert_app_r_alt by lia. rewrite Nat.sub_diag.
  rewrite seq_S, map_app. cbn [map]. rewrite Nat.add_0_l, (app_assoc p), (length_app _ [f n]), Hl, <- (app_assoc (p ++ map f (seq 0 n)) [f n]). f_equal.
  assert (E2 : drop (length p + n + 1) old = drop 1 (drop (length p + n) old)) by by rewrite drop_drop.
  cbn [length]. rewrite E2. destruct (drop (length p + n) old) as [|x r] eqn:E; [|done].
  apply (f_equal length) in E. rewrite length_drop in E. cbn in E. lia.
Qed.

Lemma set2_run {A} (f : nat → A) (g : nat → nat) num n (a : list (list A)) :
  for_n n (λ j a, set2 num (g j) (f j) a) a = alter (λ r, for_n n (λ j r, <[g j := f j]> r) r) num a.
Proof.
  induction n as [|n IH]; [symmetry; by apply list_alter_id|].
  rewrite for_up_S, IH. unfold set2. rewrite list_alter_alter_eq. apply list_alter_ext; [|done].
  intros x _. by rewrite for_up_S.
Qed.

Lemma length_row b g cs : length (row b g cs) = (1 + 4 * length cs)%nat.
Proof.
  unfold row. cbn [length]. f_equal. induction cs as [|c cs IH]; [done|]. cbn [flat_map]. rewrite length_app, IH.
  destruct (stored b c) as [[[??]?]?]. cbn. lia.
Qed.
Lemma row_snoc b g cs c : row b g (cs ++ [c]) = row b g cs ++ sec_list (stored b c).
Proof. unfold row. rewrite flat_map_app. cbn. by rewrite app_nil_r. Qed.

Lemma decl_coeffs b g c : map (decl_coeff b (g :: sec_list c)) (seq 0 5) = row b g [c].
Proof. unfold row, stored, decl_coeff. destruct c as [[[a1 a2] b1] b2]. by destruct (truthy b). Qed.
Lemma cont_coeffs b c : map (cont_coeff b (sec_list c)) (seq 0 4) = sec_list (stored b c).
Proof. unfold stored, cont_coeff. destruct c as [[[a1 a2] b1] b2]. by destruct (truthy b). Qed.

(** ** The placeholders

    What holds of every entry of the table whatever was read. *)
Definition entry_ok (e : fmSubSysMap) : Prop := vme_ok (fmd e) ∧ local_ok (fmd e).

Lemma cleared_ok e : entry_ok (clear_entry e).
Proof.
  split; cbn [fmd clear_entry set_fmd].
  - split; intros j Hj; cbn [empty_fmd vfiltSections vfilterType]; rewrite lookup_total_replicate_2 by done; done.
  - split; try done. split; [done|]. intros j Hj. cbn [empty_fmd vfiltCoeff]. by rewrite lookup_total_replicate_2.
Qed.

Lemma entry_row e num r : entry_ok e → vfiltCoeff (fmd e) !! num = Some r → length r = MAX_COEFFS.
Proof.
  intros [_ [[Hl Hr] _ _ _ _ _]] E. pose proof (lookup_lt_Some _ _ _ E) as Hlt.
  rewrite <- (list_lookup_total_correct _ _ _ E). apply Hr. lia.
Qed.

Lemma store_filter_define d first e :
  entry_ok e →
  store_filter (d_num d) (d_stype d) (Z.of_nat (length (d_sections d))) (d_ramp d) (d_timeout d) (d_label d)
    (d_gain d :: sec_list first) e = define_entry d [first] e.
Proof.
  intros He. unfold store_filter, define_entry. f_equal. f_equal. rewrite set2_run. apply list_alter_ext; [|done].
  intros r Er. rewrite <- decl_coeffs.
  change r with (over [] r) at 1. apply (write_run (decl_coeff (mbiquad e) (d_gain d :: sec_list first)) [] r 5).
  rewrite (entry_row e (d_num d) r) by done. unfold MAX_COEFFS. cbn. lia.
Qed.

Lemma store_section_define d cs c left e :
  entry_ok e → (d_num d < FILTERS)%nat → (length cs < 10)%nat → (1 <= length cs)%nat →
  left = Z.of_nat (length (d_sections d)) - Z.of_nat (length cs) - 1 →
  store_section (d_num d) left (sec_list c) (define_entry d cs e) = define_entry d (cs ++ [c]) e.
Proof.
  intros He Hd Hcs H1 ->. unfold store_section. cbn [define_entry fmd vfilterType vfiltSections mbiquad].
  pose proof He as [_ [_ L1 _ _ _ L5]].
  rewrite !lookup_total_insert, !decide_True by lia. cbn [truthy Z.eqb negb].
  unfold define_entry, set_fmd. f_equal. unfold set_vfiltCoeff. cbn [fmd vfiltCoeff]. f_equal.
  rewrite (for_up_ext _ (λ j a, set2 (d_num d) (length (row (mbiquad e) (d_gain d) cs) + j)%nat (cont_coeff (mbiquad e) (sec_list c) j) a)).
  2:{ intros j a _. f_equal. rewrite length_row. unfold cont_index. lia. }
  rewrite set2_run, list_alter_alter_eq. apply list_alter_ext; [|done]. intros r Er. unfold compose.
  rewrite write_run; [by rewrite cont_coeffs, <- row_snoc|].
  rewrite (entry_row e (d_num d) r) by done. rewrite length_row. unfold MAX_COEFFS. lia.
Qed.

Lemma define_entry_ok d cs e :
  entry_ok e → (d_num d < FILTERS)%nat → (length cs <= 10)%nat → (length (d_sections d) <= 10)%nat →
  entry_ok (define_entry d cs e).
Proof.
  intros He Hd Hcs Hn. pose proof He as [[Hs Ht] [[Hl Hr] L1 L2 L3 L4 L5]].
  split; cbn [define_entry fmd].
  - split; intros j Hj; cbn [vfiltSections vfilterType]; rewrite lookup_total_insert by lia.
    + destruct (decide _); [lia|by apply Hs].
    + destruct (decide _); [done|by apply Ht].
  - split; cbn [vfiltCoeff vfiltSections vsType ramp timout vfilterType]; rewrite ?length_insert; try done.
    split; [by rewrite length_alter|]. intros j Hj. destruct (decide (j = d_num d)) as [->|Hne].
    + rewrite lookup_total_alter_eq by lia. unfold over. rewrite length_app, length_drop, Hr by done.
      rewrite length_row. unfold MAX_COEFFS. lia.
    + rewrite lookup_total_alter_ne by done. by apply Hr.
Qed.

(** ** Reading the lines that are not comments *)
Definition step_tokens (tok : list string) (s : Reader) : Checked Reader :=
  if (length tok <? (if truthy (inFilter s) then 4 else MAX_TOKENS))%nat then Refused Invalid
  else if truthy (inFilter s) then continuation tok s
  else declaration tok s.
Fixpoint read_tokens (l : list (list string)) (s : Reader) : Checked Reader :=
  match l with [] => Fine s | tok :: l => s ← step_tokens tok s; read_tokens l s end.

Lemma read_lines_tokens pieces n crc copy s s' :
  read_tokens (info_lines pieces) s = Fine s' →
  let p := read_lines pieces n crc copy s in refused p = None ∧ reader p = s'.
Proof.
  cbv zeta. revert n crc copy s. induction pieces as [|piece pieces IH]; intros n crc copy s E; [by injection E|].
  cbn [read_lines]. unfold info_lines in E. cbn [map] in E. unfold file_line. rewrite filter_cons in E.
  destruct (info_line (c_str piece)) eqn:Ei.
  - rewrite decide_True in E by done. cbn [map read_tokens] in E. change (if _ : bool then _ else _) with (step_tokens (lineTok (c_str piece)) s).
    destruct (step_tokens _ s) as [s1|c]; [|done]. by apply IH.
  - rewrite decide_False in E by (by intros H). by apply IH.
Qed.

Lemma find_entry_name t n i : find_entry t n = Some i → ∃ e, t !! i = Some e ∧ name e = n.
Proof.
  revert i. induction t as [|e t IH]; intros i; [done|]. cbn [find_entry]. case_bool_decide as Hn.
  - intros [= <-]. by exists e.
  - destruct (find_entry t n) as [k|]; [|done]. intros [= <-]. by apply IH.
Qed.

Lemma declare tok d first more t cf cn :
  def_ok d → d_sections d = first :: more → decl_tokens tok d first → Forall entry_ok t →
  step_tokens tok (mkReader t 0 cf cn) =
    Fine (match find_entry t (d_name d) with
          | Some i => mkReader (alter (define_entry d [first]) i t) (Z.of_nat (length more)) (Some i) (d_num d)
          | None => mkReader t (Z.of_nat (length more)) None 0
          end).
Proof.
  intros (Hn & Hs & Hl & Hr & Ht & Hlab) Es (L & E0 & E1 & E2 & E3 & E4 & E5 & E6 & Ec) Ht'.
  unfold step_tokens. cbn [inFilter truthy Z.eqb negb]. rewrite L, Nat.ltb_irrefl. unfold declaration.
  rewrite E1, E2, E3, E4, E5, Ec, E0, E6. unfold FILTERS in Hn. cbn [or_refuse mbind Checked_bind table].
  rewrite (proj2 (Z.leb_le 0 (Z.of_nat (d_num d)))), (proj2 (Z.leb_le (Z.of_nat (d_num d)) 9)) by lia.
  rewrite (proj1 (Is_true_true _) Hs).
  rewrite (proj2 (Z.ltb_lt 0 (Z.of_nat (length (d_sections d))))), (proj2 (Z.leb_le (Z.of_nat (length (d_sections d))) MAX_SO_SECTIONS))
    by (unfold MAX_SO_SECTIONS; lia).
  rewrite (proj2 (Z.leb_le 0 (d_ramp d)) Hr), (proj2 (Z.leb_le 0 (d_timeout d)) Ht), (proj2 (Nat.leb_le _ 31) Hlab).
  cbn [demand andb mbind Checked_bind].
  assert (El : Z.of_nat (length (d_sections d)) - 1 = Z.of_nat (length more)) by (rewrite Es; cbn; lia).
  rewrite El, Nat2Z.id. destruct (find_entry t (d_name d)) as [i|] eqn:Ef; [|done]. do 2 f_equal.
  apply list_alter_ext; [|done]. intros e Ei. apply store_filter_define.
  by apply (Forall_lookup_1 entry_ok t i).
Qed.

Lemma continue_sections d i t conts more cs rest :
  Forall2 cont_tokens conts more → Forall entry_ok t → (d_num d < FILTERS)%nat → (1 <= length cs)%nat →
  (length cs + length more = length (d_sections d))%nat → (length (d_sections d) <= 10)%nat →
  read_tokens (conts ++ rest) (mkReader (alter (define_entry d cs) i t) (Z.of_nat (length more)) (Some i) (d_num d)) =
  read_tokens rest (mkReader (alter (define_entry d (cs ++ more)) i t) 0 (Some i) (d_num d)).
Proof.
  intros H Ht Hd. revert cs. induction H as [|tok c conts more [Hl Hc] H IH]; intros cs H1 Hlen H10; [by rewrite app_nil_r|].
  cbn [app read_tokens length]. unfold step_tokens at 1. cbn [inFilter].
  assert (Et : truthy (Z.of_nat (S (length more))) = true) by (unfold truthy; apply negb_true_iff, Z.eqb_neq; lia).
  rewrite Et, (proj2 (Nat.ltb_ge _ _) Hl). unfold continuation. cbn [curFilter inFilter table curFilterNum].
  rewrite Hc. cbn [or_refuse mbind Checked_bind]. rewrite list_alter_alter_eq.
  replace (Z.of_nat (S (length more)) - 1) with (Z.of_nat (length more)) by lia.
  rewrite (list_alter_ext (store_section _ _ _ ∘ define_entry d cs) (define_entry d (cs ++ [c])) t t i); [|..|done].
  - rewrite IH; [by rewrite <- app_assoc|..]; rewrite ?length_app; cbn [length] in *; lia.
  - intros e Ei. unfold compose. cbn [length] in Hlen. apply store_section_define; [|done|lia..].
    by apply (Forall_lookup_1 entry_ok t i).
Qed.

Lemma skip_sections t conts more cn rest :
  Forall2 cont_tokens conts more →
  read_tokens (conts ++ rest) (mkReader t (Z.of_nat (length more)) None cn) = read_tokens rest (mkReader t 0 None cn).
Proof.
  induction 1 as [|tok c conts more [Hl Hc] H IH]; [done|]. cbn [app read_tokens length]. unfold step_tokens at 1. cbn [inFilter].
  assert (Et : truthy (Z.of_nat (S (length more))) = true) by (unfold truthy; apply negb_true_iff, Z.eqb_neq; lia).
  rewrite Et, (proj2 (Nat.ltb_ge _ _) Hl). unfold continuation. cbn [curFilter inFilter table curFilterNum mbind Checked_bind].
  by replace (Z.of_nat (S (length more)) - 1) with (Z.of_nat (length more)) by lia.
Qed.

Lemma define_ok t d : Forall entry_ok t → def_ok d → Forall entry_ok (define t d).
Proof.
  intros Ht (Hn & _ & Hl & _). unfold define. destruct (find_entry _ _) as [i|]; [|done].
  apply Forall_alter; [done|]. intros e _ He. by apply define_entry_ok; try lia.
Qed.

Lemma read_says ls ds t cf cn :
  says ls ds → Forall entry_ok t →
  ∃ cf' cn', read_tokens ls (mkReader t 0 cf cn) = Fine (mkReader (foldl define t ds) 0 cf' cn') ∧
    Forall entry_ok (foldl define t ds).
Proof.
  intros H. revert t cf cn. induction H as [|tok conts rest d ds first more Hd Es Htok Hc H IH]; intros t cf cn Ht.
  - by exists cf, cn.
  - cbn [read_tokens]. rewrite (declare tok d first more) by done. cbn [mbind Checked_bind].
    pose proof Hd as (Hn & _ & Hl & _). pose proof (define_ok t d Ht Hd) as Ht'.
    destruct (IH (define t d) (find_entry t (d_name d)) (match find_entry t (d_name d) with Some _ => d_num d | None => 0%nat end) Ht')
      as (cf' & cn' & E & Hok).
    exists cf', cn'. split; [|done]. cbn [foldl]. rewrite <- E. clear E IH.
    unfold define. destruct (find_entry t (d_name d)) as [i|].
    + rewrite (continue_sections d i t) by (done || (rewrite ?Es in *; cbn in *; lia)). rewrite Es. done.
    + by apply skip_sections.
Qed.

(** ** Whatever the file says *)
Definition modules (t : list fmSubSysMap) : list (string * nat * Z) := map (λ e, (name e, fmModNum e, mbiquad e)) t.

(** While continuation lines are expected, there are fewer of them than sections
    in the filter that is being read. *)
Definition reader_ok (t : list fmSubSysMap) (s : Reader) : Prop :=
  Forall entry_ok (table s) ∧ modules (table s) = modules t ∧ 0 <= inFilter s ∧
  ∀ i, curFilter s = Some i → (i < length (table s))%nat ∧ (curFilterNum s < FILTERS)%nat ∧
    inFilter s < vfiltSections (fmd (table s !!! i)) !!! curFilterNum s.

Lemma modules_alter f i t :
  (∀ e, (name (f e), fmModNum (f e), mbiquad (f e)) = (name e, fmModNum e, mbiquad e)) → modules (alter f i t) = modules t.
Proof.
  intros Hf. unfold modules. revert i. induction t as [|e t IH]; intros [|i]; [done|done| |].
  - cbn. by rewrite Hf.
  - cbn. f_equal. apply IH.
Qed.

Lemma store_section_same num left c e :
  vfiltSections (fmd (store_section num left c e)) = vfiltSections (fmd e) ∧
  (entry_ok e → entry_ok (store_section num left c e)) ∧
  (name (store_section num left c e), fmModNum (store_section num left c e), mbiquad (store_section num left c e)) =
  (name e, fmModNum e, mbiquad e).
Proof.
  unfold store_section. destruct (truthy _); [split; [done|]; split; [by intros ?|done]|]. cbn [set_fmd fmd set_vfiltCoeff vfiltSections name fmModNum mbiquad].
  split; [done|]. split; [|done]. intros [[Hs Ht] [Hd L1 L2 L3 L4 L5]]. split; [by split|]. split; try done.
  cbn [set_fmd fmd set_vfiltCoeff vfiltCoeff]. apply for_up_inv; [done|]. intros. by apply set2_dims.
Qed.

Lemma store_filter_same num st n r t l c e :
  (num < FILTERS)%nat → 0 < n <= 10 → entry_ok e →
  entry_ok (store_filter num st n r t l c e) ∧ vfiltSections (fmd (store_filter num st n r t l c e)) !!! num = n.
Proof.
  intros Hn Hs [[Hsec Hty] [Hd L1 L2 L3 L4 L5]]. unfold store_filter. cbn [fmd]. split.
  - split; cbn [fmd].
    + split; intros j Hj; cbn [vfiltSections vfilterType]; rewrite lookup_total_insert by lia;
        (destruct (decide _); [lia || done|by apply Hsec || by apply Hty]).
    + split; cbn [vfiltCoeff vfiltSections vsType ramp timout vfilterType]; rewrite ?length_insert; try done.
      apply for_up_inv; [done|]. intros. by apply set2_dims.
  - cbn [vfiltSections]. by rewrite lookup_total_insert, decide_True by lia.
Qed.

Lemma continuation_ok t tok s s' :
  reader_ok t s → truthy (inFilter s) = true → continuation tok s = Fine s' → reader_ok t s'.
Proof.
  intros (Ht & Hm & H0 & Hc) Ei. apply negb_true_iff, Z.eqb_neq in Ei. unfold continuation.
  destruct (curFilter s) as [i|] eqn:Ec.
  - destruct (doubles _) as [c|]; [|done]. cbn [or_refuse mbind Checked_bind]. intros [= <-].
    destruct (Hc i eq_refl) as (Hi & Hn & Hlt). split; [|split; [|split]]; cbn [table inFilter curFilter curFilterNum].
    + apply Forall_alter; [done|]. intros e _. apply store_section_same.
    + rewrite modules_alter; [done|]. intros e. apply store_section_same.
    + lia.
    + intros ? [= <-]. rewrite length_alter. split; [done|]. split; [done|]. rewrite lookup_total_alter_eq by done.
      rewrite (proj1 (store_section_same _ _ _ _)). lia.
  - intros [= <-]. by repeat split; cbn [table inFilter curFilter curFilterNum]; try lia.
Qed.

Lemma or_refuse_fine {A B} c (o : option A) (f : A → Checked B) x :
  (y ← or_refuse c o; f y) = Fine x → ∃ y, o = Some y ∧ f y = Fine x.
Proof. destruct o as [y|]; [|done]. intros E. by exists y. Qed.
Lemma demand_fine {B} c b (f : unit → Checked B) x : (y ← demand c b; f y) = Fine x → b = true ∧ f () = Fine x.
Proof. by destruct b. Qed.

Lemma declaration_ok t tok s s' : reader_ok t s → declaration tok s = Fine s' → reader_ok t s'.
Proof.
  intros (Ht & Hm & H0 & Hc). unfold declaration.
  intros (num & _ & [Hnum E]%demand_fine)%or_refuse_fine.
  revert E; intros (sType & _ & [_ E]%demand_fine)%or_refuse_fine.
  revert E; intros (sections & _ & [Hsec E]%demand_fine)%or_refuse_fine.
  revert E; intros (rmp & _ & [_ E]%demand_fine)%or_refuse_fine.
  revert E; intros (tmo & _ & [_ [_ E]%demand_fine]%demand_fine)%or_refuse_fine.
  revert E; intros (c & _ & E)%or_refuse_fine.
  apply andb_true_iff in Hnum as [Hnum1%Z.leb_le Hnum2%Z.leb_le]. apply andb_true_iff in Hsec as [Hsec1%Z.ltb_lt Hsec2%Z.leb_le].
  unfold MAX_SO_SECTIONS in Hsec2. assert (Hf : (Z.to_nat num < FILTERS)%nat) by (unfold FILTERS; lia).
  revert E. destruct (find_entry _ _) as [i|] eqn:Ef; intros [= <-].
  - destruct (find_entry_name _ _ _ Ef) as (e & Ei & _). pose proof (lookup_lt_Some _ _ _ Ei) as Hi.
    pose proof (Forall_lookup_1 _ _ _ _ Ht Ei) as He.
    destruct (store_filter_same (Z.to_nat num) sType sections rmp tmo (tok !!! 6%nat) c e Hf ltac:(lia) He) as [Hok Hs].
    split; [|split; [|split]]; cbn [table inFilter curFilter curFilterNum].
    + apply Forall_alter; [done|]. intros e' _ He'. by apply store_filter_same; [|lia|].
    + by rewrite modules_alter.
    + lia.
    + intros ? [= <-]. rewrite length_alter. split; [done|]. split; [done|]. rewrite lookup_total_alter_eq by done.
      rewrite (list_lookup_total_correct _ _ _ Ei), Hs. lia.
  - by repeat split; cbn [table inFilter curFilter curFilterNum]; try lia.
Qed.

Lemma read_lines_ok t pieces n crc copy s : reader_ok t s → reader_ok t (reader (read_lines pieces n crc copy s)).
Proof.
  revert n crc copy s. induction pieces as [|piece pieces IH]; intros n crc copy s Hs; [done|]. cbn [read_lines].
  destruct (file_line _ s) as [s'|c] eqn:E; [|done]. apply IH. revert E. unfold file_line.
  destruct (info_line _); [|by intros [= <-]]. destruct (_ <? _)%nat; [done|].
  destruct (truthy (inFilter s)) eqn:Et; [by apply continuation_ok|by apply declaration_ok].
Qed.

Lemma cleared_reader_ok t : reader_ok (map clear_entry t) (mkReader (map clear_entry t) 0 None 0).
Proof. split; [|done]. cbn. apply Forall_map, Forall_true. intros. apply cleared_ok. Qed.

(** ** The copy and the checksum *)
Lemma read_lines_copy pieces n crc copy s :
  refused (read_lines pieces n crc copy s) = None →
  copied (read_lines pieces n crc copy s) = (copy +:+ concat (map c_str pieces))%string ∧
  pcrc (read_lines pieces n crc copy s) =
    Crc.crc_ptr (bytes_of (concat (map c_str pieces))) (String.length (concat (map c_str pieces))) crc.
Proof.
  revert n crc copy s. induction pieces as [|piece pieces IH]; intros n crc copy s; [by rewrite str_app_nil|].
  cbn [read_lines map]. destruct (file_line _ s) as [s'|c]; [|done]. intros Hr. destruct (IH _ _ _ _ Hr) as [-> ->].
  rewrite concat_cons, str_app_assoc, str_length_app, bytes_app. split; [done|].
  rewrite <- !bytes_length. symmetry. apply crc_ptr_app.
Qed.

(** What the reader sees of a text: each piece up to its first null character. *)
Definition heard (text : string) : string := concat (map c_str (file_pieces text)).

Lemma heard_plain text : no_nul text → heard text = text.
Proof.
  intros Hn. unfold heard. pose proof (fgets_pieces 1023 1023 "" text) as E. change (String.append "" text) with text in E.
  pose proof (pieces_no_nul 1023 text Hn) as Hp. unfold file_pieces. rewrite <- E at 2. clear E.
  induction Hp as [|p ps Hp _ IH]; [done|]. cbn [map]. by rewrite !concat_cons, IH, c_str_all.
Qed.

Lemma file_copy text n crc s :
  refused (read_lines (file_pieces text) n crc "" s) = None →
  copied (read_lines (file_pieces text) n crc "" s) = heard text ∧
  pcrc (read_lines (file_pieces text) n crc "" s) = Crc.crc_ptr (bytes_of (heard text)) (String.length (heard text)) crc.
Proof. apply read_lines_copy. Qed.

(** ** The call *)
Lemma finish_ends n crc old t v a b :
  0 <= n < 2 ^ 32 → ∃ c, Crc.crc_len n crc = Some c ∧
    finish n crc old t v a b =
      Some (mkOutcome 0 "" (mkSub t c) (publish_all t v) (if c =? old then NoArchive else a) (if c =? old then NoArchive else b)).
Proof.
  intros Hn. destruct (Crc.crc_len_loop_done 4 n crc Hn) as [c E]. unfold finish, Crc.crc_len. rewrite E.
  eexists. split; [done|]. cbn [fmap option_fmap option_map mbind option_bind].
  destruct (_ =? old) eqn:Eo; [|done]. by apply Z.eqb_eq in Eo as <-.
Qed.

(** The text the checksum is of, and the length of the files. *)
Definition whole_text (f : Files) (text : string) : string := (heard text +:+ default "" (heard <$> fir_text f))%string.
Definition whole_size (f : Files) (text : string) : Z := size_of text + default 0 (size_of <$> fir_text f).
Definition copy_of (o : option string) : Archive := match o with Some t => Archived (heard t) | None => NoArchive end.

Definition refused_outcome (s : subSys) (v : list (VME_FM_OP_COEF binary64)) (o : Outcome) : Prop :=
  vmeCoeffs o = v ∧ sub_crc (sub o) = sub_crc s ∧ archive_fir o = NoArchive.
Definition read_outcome (f : Files) (s : subSys) (v : list (VME_FM_OP_COEF binary64)) (o : Outcome) : Prop :=
  vmeCoeffs o = publish_all (map_ (sub o)) v ∧
  ∃ text, txt f = Some text ∧
    Crc.crc_len (u32 (whole_size f text))
      (Crc.crc_ptr (bytes_of (whole_text f text)) (String.length (whole_text f text)) 0) = Some (sub_crc (sub o)) ∧
    (archive_txt o, archive_fir o) =
      if sub_crc (sub o) =? sub_crc s then (NoArchive, NoArchive) else (Archived (heard text), copy_of (fir_text f)).
Definition outcome_ok (f : Files) (s : subSys) (v : list (VME_FM_OP_COEF binary64)) (o : Outcome) : Prop :=
  Forall entry_ok (map_ (sub o)) ∧ modules (map_ (sub o)) = modules (map_ s) ∧
  if ret o =? 0 then read_outcome f s v o else refused_outcome s v o.

Lemma modules_cleared t : modules (map clear_entry t) = modules t.
Proof. unfold modules. rewrite map_map. by apply map_ext. Qed.

Lemma finish_one f s v text p t :
  txt f = Some text → fir_text f = None → Forall entry_ok t → modules t = modules (map_ s) →
  copied p = heard text ∧ pcrc p = Crc.crc_ptr (bytes_of (heard text)) (String.length (heard text)) 0 →
  ∃ o, finish (u32 (size_of text)) (pcrc p) (sub_crc s) t v (Archived (copied p)) NoArchive = Some o ∧ outcome_ok f s v o.
Proof.
  intros Et Ef Ht Hm [Hc Hp]. destruct (finish_ends (u32 (size_of text)) (pcrc p) (sub_crc s) t v (Archived (copied p)) NoArchive)
    as (c & Ec & ->); [by apply wrap_bounds|]. eexists. split; [done|]. split; [done|]. split; [done|].
  split; [done|]. exists text. split; [done|]. cbn [sub sub_crc archive_txt archive_fir].
  unfold whole_text, whole_size. rewrite Ef. cbn [fmap option_fmap option_map default from_option id].
  rewrite str_app_nil, Z.add_0_r, <- Hp, Hc. split; [done|]. by destruct (c =? sub_crc s).
Qed.

Lemma finish_two f s v text text' p q t :
  txt f = Some text → fir_text f = Some text' → Forall entry_ok t → modules t = modules (map_ s) →
  copied p = heard text ∧ pcrc p = Crc.crc_ptr (bytes_of (heard text)) (String.length (heard text)) 0 →
  copied q = heard text' ∧ pcrc q = Crc.crc_ptr (bytes_of (heard text')) (String.length (heard text')) (pcrc p) →
  ∃ o, finish (u32 (size_of text + size_of text')) (pcrc q) (sub_crc s) t v (Archived (copied p)) (Archived (copied q)) = Some o ∧
    outcome_ok f s v o.
Proof.
  intros Et Ef Ht Hm [Hc Ep] [Hc' Eq].
  destruct (finish_ends (u32 (size_of text + size_of text')) (pcrc q) (sub_crc s) t v (Archived (copied p)) (Archived (copied q)))
    as (c & Ec & ->); [by apply wrap_bounds|]. eexists. split; [done|]. split; [done|]. split; [done|].
  split; [done|]. exists text. split; [done|]. cbn [sub sub_crc archive_txt archive_fir].
  unfold whole_text, whole_size. rewrite Ef. cbn [fmap option_fmap option_map default from_option id copy_of].
  assert (Ea : Crc.crc_ptr (bytes_of (heard text +:+ heard text')) (String.length (heard text +:+ heard text')) 0 = pcrc q).
  { rewrite Eq, Ep, str_length_app, bytes_app, <- !bytes_length. apply crc_ptr_app. }
  rewrite Ea, Hc, Hc'. split; [done|]. by destruct (c =? sub_crc s).
Qed.

(** C14: The call on a filter file has one of two outcomes.  It returns an error, and
    then the published filters and the checksum of the last file are as they
    were, and no [.fir] archive is left.  Or it returns 0; then every placeholder
    is published, the checksum is that of what is read of the [.txt] and [.fir]
    file ([heard]: the bytes of a file, when it has no null characters) together
    with the length of the files, and the archives are copies of what is read, or
    deleted when the checksum is the one of the last call.  On both ways the
    placeholders stay well formed (ten filters of at most ten sections, all IIR,
    rows of 41) and the modules those of the table. *)
Theorem fmReadCoeffFile_outcome f s v : ∃ o, fmReadCoeffFile f s v = Some o ∧ outcome_ok f s v o.
Proof.
  set (t := map clear_entry (map_ s)). pose proof (cleared_reader_ok (map_ s)) as Hr. fold t in Hr.
  assert (Hfail : ∀ code msg t' a, Forall entry_ok t' → modules t' = modules t → code ≠ 0 →
    ∃ o, Some (mkOutcome code msg (mkSub t' (sub_crc s)) v a NoArchive) = Some o ∧ outcome_ok f s v o).
  { intros code msg t' a Ht Hm Hc. eexists. split; [done|]. split; [done|]. split; [exact (eq_trans Hm (modules_cleared (map_ s)))|].
    cbn [ret]. by rewrite (proj2 (Z.eqb_neq code 0) Hc). }
  assert (Hf0 : ∀ code msg, code ≠ 0 → ∃ o,
    Some (mkOutcome code msg (mkSub t (sub_crc s)) v NoArchive NoArchive) = Some o ∧ outcome_ok f s v o)
    by (intros; by apply Hfail; [apply Hr|..]).
  unfold fmReadCoeffFile. fold t. destruct (txt f) as [text|] eqn:Et; [|by apply Hf0].
  case_bool_decide; [by apply Hf0|]. destruct (txt_opens f); [|by apply Hf0].
  destruct (txt_archive_opens f); [|by apply Hf0]. cbn [negb].
  pose proof (read_lines_ok _ (file_pieces text) 1 0 "" _ Hr) as (Hp & Hpm & _).
  pose proof (file_copy text 1 0 (mkReader t 0 None 0)) as Hcp. pose proof (read_lines_ok _ (file_pieces text) 1 0 "" _ Hr) as Hrp.
  set (p := read_lines (file_pieces text) 1 0 "" (mkReader t 0 None 0)) in *.
  destruct (refused p) as [[n c]|]; [by apply Hfail|]. destruct (fir_text f) as [text'|] eqn:Ef.
  - pose proof (read_lines_ok _ (file_pieces text') 1 (pcrc p) "" _ Hrp) as (Hq & Hqm & _).
    pose proof (file_copy text' 1 (pcrc p) (reader p)) as Hcq. set (q := read_lines (file_pieces text') 1 (pcrc p) "" (reader p)) in *.
    destruct (refused q) as [[n c]|]; [by apply Hfail|].
    apply finish_two; [done..|exact (eq_trans Hqm (modules_cleared _))|by apply Hcp|by apply Hcq].
  - apply finish_one; [done..|exact (eq_trans Hpm (modules_cleared _))|by apply Hcp].
Qed.

(** C32: Whatever a file says, and wherever in it the reader is, the coefficients of
    the next continuation line go behind those of the declaration and within the
    41 numbers of the row of their filter. *)
Theorem coefficients_in_row t pieces n crc copy i j :
  let s := reader (read_lines pieces n crc copy (mkReader (map clear_entry t) 0 None 0)) in
  truthy (inFilter s) = true → curFilter s = Some i → (j < 4)%nat →
  (curFilterNum s < FILTERS)%nat ∧
  5 <= cont_index (vfiltSections (fmd (table s !!! i)) !!! curFilterNum s) (inFilter s - 1) j < Z.of_nat MAX_COEFFS.
Proof.
  intros s Ht Hc Hj. destruct (read_lines_ok _ pieces n crc copy _ (cleared_reader_ok t)) as (He & _ & H0 & Hi).
  fold s in He, H0, Hi. destruct (Hi i Hc) as (Hl & Hn & Hlt). split; [done|].
  apply negb_true_iff, Z.eqb_neq in Ht.
  destruct (proj1 (Forall_lookup_total_1 _ _ i He Hl)) as [Hs _]. specialize (Hs _ Hn).
  unfold cont_index, MAX_COEFFS. change (Z.of_nat 41) with 41. lia.
Qed.

(** A file means the filters its lines say, one after the other, comments and
    white space apart: each replaces, in the entry of the table with its name,
    the filter of its number (type, times, label, the gain and the sections, in
    the form the module computes in), and names not in the table are passed over. *)
Theorem file_meaning text ds t n crc :
  says (info_lines (file_pieces text)) ds →
  let p := read_lines (file_pieces text) n crc "" (mkReader (map clear_entry t) 0 None 0) in
  refused p = None ∧ table (reader p) = foldl define (map clear_entry t) ds ∧ inFilter (reader p) = 0.
Proof.
  intros Hs p. destruct (read_says _ ds (map clear_entry t) None 0 Hs (proj1 (cleared_reader_ok t))) as (cf & cn & E & _).
  destruct (read_lines_tokens _ n crc "" _ _ E) as [Hr Ep]. fold p in Hr, Ep. by rewrite Ep.
Qed.

(** ** From the file to the front end *)
Lemma publish_entry_ne v e m : fmModNum e ≠ m → publish_entry v e !!! m = v !!! m.
Proof. intros Hne. unfold publish_entry. by rewrite lookup_total_alter_ne by congruence. Qed.

Lemma publish_all_entry t v i e :
  NoDup (map fmModNum t) → t !! i = Some e → (fmModNum e < length v)%nat →
  publish_all t v !!! fmModNum e = publish (fmd e) (mbiquad e) (v !!! fmModNum e).
Proof.
  unfold publish_all. revert v i. induction t as [|e' t IH]; intros v i; [done|]. cbn [map foldl].
  intros [Hni Hnd]%NoDup_cons Hi Hl. assert (Hl' : (fmModNum e < length (publish_entry v e'))%nat)
    by (unfold publish_entry; by rewrite length_alter).
  destruct i as [|i]; cbn in Hi.
  - injection Hi as ->. clear IH. assert (Hk : ∀ w, foldl publish_entry w t !!! fmModNum e = w !!! fmModNum e).
    { clear Hl'. induction t as [|e' t IHt]; intros w; [done|]. cbn [map] in *. apply not_elem_of_cons in Hni as [Hne Hni].
      apply NoDup_cons in Hnd as [_ Hnd]. cbn [foldl]. rewrite IHt by done. by apply publish_entry_ne. }
    rewrite Hk. unfold publish_entry. by rewrite lookup_total_alter_eq.
  - rewrite (IH _ i) by done. f_equal. apply publish_entry_ne. intros E. apply Hni.
    rewrite E. apply list_elem_of_fmap. exists e. split; [done|]. by apply list_elem_of_lookup_2 in Hi.
Qed.

(** The entry holds the filter [d]. *)
Definition holds (d : FilterDef) (e : fmSubSysMap) : Prop :=
  let f := fmd e in let num := d_num d in
  vfiltSections f !!! num = Z.of_nat (length (d_sections d)) ∧ vsType f !!! num = d_stype d ∧
  ramp f !!! num = d_ramp d ∧ timout f !!! num = d_timeout d ∧
  ∀ k, (k < length (row (mbiquad e) (d_gain d) (d_sections d)))%nat →
    (vfiltCoeff f !!! num) !!! k = row (mbiquad e) (d_gain d) (d_sections d) !!! k.

Lemma define_holds d e : entry_ok e → (d_num d < FILTERS)%nat → holds d (define_entry d (d_sections d) e).
Proof.
  intros [_ [[Hl _] L1 L2 L3 L4 L5]] Hn. unfold holds. cbn [define_entry fmd vfiltSections vsType ramp timout vfiltCoeff mbiquad].
  rewrite !list_lookup_total_insert_eq, lookup_total_alter_eq by lia. do 4 (split; [done|]).
  intros k Hk. unfold over. by rewrite lookup_total_app_l.
Qed.

Lemma define_keeps d d' cs e :
  d_num d' ≠ d_num d → holds d e → holds d (define_entry d' cs e).
Proof.
  intros Hn. unfold holds. cbn [define_entry fmd vfiltSections vsType ramp timout vfiltCoeff mbiquad].
  by rewrite !list_lookup_total_insert_ne, lookup_total_alter_ne by done.
Qed.

Lemma find_entry_names t t' n : map name t = map name t' → find_entry t n = find_entry t' n.
Proof.
  revert t'. induction t as [|e t IH]; intros [|e' t']; [done|done|done|]. cbn [map find_entry]. intros [= -> E].
  by rewrite (IH t' E).
Qed.
Lemma define_names t d : map name (define t d) = map name t.
Proof.
  unfold define. destruct (find_entry _ _) as [i|]; [|done]. revert i. induction t as [|e t IH]; intros [|i]; [done..|].
  cbn. f_equal. apply IH.
Qed.

(** The last definition of a filter stands. *)
Lemma defined_stands ds t d i :
  Forall entry_ok t → Forall def_ok ds → (∀ d', d' ∈ ds → (d_name d', d_num d') ≠ (d_name d, d_num d)) →
  find_entry t (d_name d) = Some i → holds d (t !!! i) → holds d (foldl define t ds !!! i).
Proof.
  revert t. induction ds as [|d' ds IH]; intros t Ht Hds Hne Hf Hh; [done|]. apply Forall_cons in Hds as [Hd' Hds]. cbn [foldl].
  apply IH; [by apply define_ok|done|intros d2 H2; apply Hne; by right|by rewrite (find_entry_names _ t) by apply define_names|].
  specialize (Hne d' ltac:(by left)). unfold define. destruct (find_entry t (d_name d')) as [i'|] eqn:Ef; [|done].
  destruct (find_entry_name _ _ _ Hf) as (e & Ei & En). pose proof (lookup_lt_Some _ _ _ Ei) as Hl.
  destruct (decide (i' = i)) as [->|Hi]; [|by rewrite lookup_total_alter_ne].
  rewrite lookup_total_alter_eq by done. destruct (find_entry_name _ _ _ Ef) as (e' & Ei' & En'). apply define_keeps; [|done].
  intros E. apply Hne. rewrite E. congruence.
Qed.

Lemma says_ok ls ds : says ls ds → Forall def_ok ds.
Proof. induction 1; by constructor. Qed.
Lemma foldl_define_ok ds t : Forall entry_ok t → Forall def_ok ds → Forall entry_ok (foldl define t ds).
Proof.
  revert t. induction ds as [|d ds IH]; intros t Ht H; [done|]. apply Forall_cons in H as [Hd Hds].
  apply IH; [by apply define_ok|done].
Qed.
Lemma foldl_define_names ds t : map name (foldl define t ds) = map name t.
Proof. revert t. induction ds as [|d ds IH]; intros t; [done|]. cbn [foldl]. by rewrite IH, define_names. Qed.

Lemma file_holds ds1 d ds2 t i :
  Forall def_ok (ds1 ++ d :: ds2) → (∀ d', d' ∈ ds2 → (d_name d', d_num d') ≠ (d_name d, d_num d)) →
  find_entry t (d_name d) = Some i → holds d (foldl define (map clear_entry t) (ds1 ++ d :: ds2) !!! i).
Proof.
  intros Hds Hne Hf. apply Forall_app in Hds as [H1 [Hd H2]%Forall_cons]. rewrite foldl_app. cbn [foldl].
  set (t1 := foldl define (map clear_entry t) ds1).
  assert (Ht1 : Forall entry_ok t1) by by apply foldl_define_ok; [apply cleared_reader_ok|].
  assert (Hf1 : find_entry t1 (d_name d) = Some i).
  { rewrite <- Hf. apply find_entry_names. unfold t1. by rewrite foldl_define_names, map_map. }
  apply defined_stands; [by apply define_ok|done|done|by rewrite (find_entry_names _ t1) by apply define_names|].
  destruct (find_entry_name _ _ _ Hf1) as (e & Ei & _). pose proof (lookup_lt_Some _ _ _ Ei) as Hl.
  unfold define. rewrite Hf1, lookup_total_alter_eq by done. apply define_holds; [|apply Hd].
  by apply Forall_lookup_total_1.
Qed.

Lemma read_call f s v text ds :
  txt f = Some text → text ≠ ""%string → txt_opens f = true → txt_archive_opens f = true → fir_text f = None →
  says (info_lines (file_pieces text)) ds →
  ∃ o, fmReadCoeffFile f s v = Some o ∧ ret o = 0 ∧
    vmeCoeffs o = publish_all (foldl define (map clear_entry (map_ s)) ds) v.
Proof.
  intros Et Hne Ho Ha Ef Hs. unfold fmReadCoeffFile. rewrite Et, bool_decide_false, Ho, Ha, Ef by done. cbn [negb].
  destruct (read_says _ ds (map clear_entry (map_ s)) None 0 Hs (proj1 (cleared_reader_ok (map_ s)))) as (cf & cn & E & _).
  destruct (read_lines_tokens _ 1 0 "" _ _ E) as [-> ->]. cbn [table].
  destruct (finish_ends (u32 (size_of text))
    (pcrc (read_lines (file_pieces text) 1 0 "" (mkReader (map clear_entry (map_ s)) 0 None 0))) (sub_crc s)
    (foldl define (map clear_entry (map_ s)) ds) v
    (Archived (copied (read_lines (file_pieces text) 1 0 "" (mkReader (map clear_entry (map_ s)) 0 None 0)))) NoArchive)
    as (c & _ & ->); [by apply wrap_bounds|]. by eexists.
Qed.

Lemma modules_fmModNum t t' : modules t = modules t' → map fmModNum t = map fmModNum t'.
Proof.
  intros E. apply (f_equal (map (λ x, snd (fst x)))) in E. unfold modules in E. by rewrite !map_map in E.
Qed.
Lemma define_modules t ds : modules (foldl define t ds) = modules t.
Proof.
  revert t. induction ds as [|d ds IH]; intros t; [done|]. cbn [foldl]. rewrite IH. unfold define.
  destruct (find_entry _ _); [|done]. by apply modules_alter.
Qed.
Lemma modules_lookup t t' i e :
  modules t' = modules t → t !! i = Some e → ∃ e', t' !! i = Some e' ∧ fmModNum e' = fmModNum e ∧ mbiquad e' = mbiquad e.
Proof.
  intros E Hi. apply (f_equal (λ l, l !! i)) in E. unfold modules in E. rewrite !list_lookup_fmap, Hi in E. cbn in E.
  destruct (t' !! i) as [e'|]; [|done]. cbn in E. injection E as _ E1 E2. by exists e'.
Qed.

(** *** The stage of a module

    The step of a section in the form of a module. *)
Definition form_step (biquad : Z) : section → binary64 * binary64 → binary64 → binary64 * (binary64 * binary64) :=
  if truthy biquad then biquad_step else sos_step.

Lemma row_flat biquad g cs : row biquad g cs = flat_coef g (map (stored biquad) cs).
Proof.
  unfold row, flat_coef. f_equal. induction cs as [|c cs IH]; [done|]. cbn [flat_map map]. rewrite IH. simpl.
  by destruct (stored biquad c) as [[[? ?] ?] ?].
Qed.

(** A stage with the coefficients of these sections, in a module of the form they
    are converted for, computes their cascade. *)
Lemma calc_stage (c : FM_OP_COEF binary64) j b g cs hs unused x :
  filtSections c !!! j = Z.of_nat (length cs) → biquad c = b →
  (∀ k, (k < length (row b g cs))%nat → (filtCoeff c !!! j) !!! k = row b g cs !!! k) →
  length hs = length cs → filtHist c !!! j = flat_hist hs ++ unused →
  let '(y, hs') := cascade (form_step b) (map (stored b) cs) hs (x ⊗ g) in
  calc_filter c j x = (y, set_filtHist (<[j := flat_hist hs' ++ unused]> (filtHist c)) c).
Proof.
  intros Hn Hb Hrow Hl Hh. unfold calc_filter, form_step. rewrite Hn, Hb, Hh, Nat2Z.id. rewrite row_flat in Hrow.
  assert (Hlen : length (flat_coef g (map (stored b) cs)) = (4 * length cs + 1)%nat).
  { rewrite <- row_flat, length_row. lia. }
  assert (H0' : (filtCoeff c !!! j) !!! 0%nat = g) by (by rewrite Hrow by lia).
  assert (Hk : ∀ k, (1 <= k < 4 * length cs + 1)%nat → (filtCoeff c !!! j) !!! k = flat_coef g (map (stored b) cs) !!! k).
  { intros k Hk. apply Hrow. lia. }
  assert (Hls : length (flat_hist hs) = (2 * length cs)%nat) by (rewrite length_flat_hist; lia).
  destruct (truthy b).
  - pose proof (iir_filter_biquad_cascade g (map (stored b) cs) hs x) as Hc. rewrite length_map in Hc. specialize (Hc Hl).
    unfold iir_filter_biquad in *. rewrite H0'.
    rewrite (section_loop_local _ _ _ _ _ _ unused biquad_section_local Hk Hls).
    change (flat_coef g (map (stored b) cs) !!! 0%nat) with g in Hc. rewrite Hc. by destruct (cascade _ _ _ _).
  - pose proof (iir_filter_cascade g (map (stored b) cs) hs x) as Hc. rewrite length_map in Hc. specialize (Hc Hl).
    unfold iir_filter in *. rewrite H0'.
    rewrite (section_loop_local _ _ _ _ _ _ unused iir_section_local Hk Hls).
    change (flat_coef g (map (stored b) cs) !!! 0%nat) with g in Hc. rewrite Hc. by destruct (cascade _ _ _ _).
Qed.

(** The start of the front end takes the form of each module from its record. *)
Lemma load_filter_form (rfm : list (VME_FM_OP_COEF binary64)) ii jj s :
  map biquad (load_filter rfm ii jj s).1.1 = map biquad s.1 ∧ ∀ r, (load_filter rfm ii jj s).2 = Some r → r = 1.
Proof.
  destruct s as [C M]. unfold load_filter. destruct (truthy _); [|done]. destruct (_ =? 0); cbn [fst snd].
  - destruct (_ >? 10); cbn [fst snd]; rewrite ?forms_alter by done; (split; [done|]); by intros r [= <-].
  - by rewrite forms_alter.
Qed.

Lemma load_module_form (rfm : list (VME_FM_OP_COEF binary64)) ii s :
  map biquad (load_module rfm ii s).1.1 = <[ii := vbiquad (rfm !!! ii)]> (map biquad s.1) ∧
  ∀ r, (load_module rfm ii s).2 = Some r → r = 1.
Proof.
  destruct s as [C M]. unfold load_module. cbn [fst].
  assert (Ef : map biquad (alter (set_biquad (vbiquad (rfm !!! ii))) ii C) = <[ii := vbiquad (rfm !!! ii)]> (map biquad C)).
  { clear. generalize (vbiquad (rfm !!! ii)). revert ii. induction C as [|c C IH]; intros [|ii] b; simpl; try done.
    f_equal. apply IH. }
  rewrite <- Ef. apply (for_exit_both (λ t : list (FM_OP_COEF binary64) * FILT_MOD binary64,
    map biquad t.1 = map biquad (alter (set_biquad (vbiquad (rfm !!! ii))) ii C)) (λ r, r = 1)); [done|].
  intros k t _ Ht. destruct (load_filter_form rfm ii k t) as [E1 E2]. by rewrite E1.
Qed.

Lemma start_takes_form (rfm : list (VME_FM_OP_COEF binary64)) C M n C' M' ii :
  readCoefVme C M 0 n rfm = (0, (C', M')) → (ii < n)%nat → (ii < length C)%nat → biquad (C' !!! ii) = vbiquad (rfm !!! ii).
Proof.
  unfold readCoefVme. rewrite Nat.sub_0_r. intros E Hii Hl.
  pose proof (for_exit_both (λ _, True) (λ r, r = 1) (load_module rfm) 0 n (C, M) I) as Hr.
  pose proof (for_exit_done (λ k s, length (map biquad s.1) = length C ∧
    ∀ i, (i < k)%nat → (i < length C)%nat → map biquad s.1 !! i = Some (vbiquad (rfm !!! i))) (load_module rfm) 0 n (C, M)) as Hd.
  destruct (for_exit 0 n (load_module rfm) (C, M)) as [s [r|]].
  { destruct Hr as [_ Hr]; [intros k t _ _; split; [done | apply load_module_form]|].
    injection E as -> _. by specialize (Hr 0 eq_refl). }
  injection E as ->. destruct Hd as [Hlen Hd]; [| | done |].
  - split; [by rewrite length_map | intros; lia].
  - intros k s _ [Hlen Hk] _. destruct (load_module_form rfm k s) as [-> _]. split; [by rewrite length_insert|].
    intros i Hi Hil. destruct (decide (i = k)) as [->|Hn].
    + apply list_lookup_insert_eq. by rewrite Hlen.
    + rewrite list_lookup_insert_ne by done. apply Hk; lia.
  - specialize (Hd ii Hii Hl). cbn [fst] in Hd. rewrite list_lookup_fmap in Hd.
    destruct (C' !! ii) as [c|] eqn:Ec; [|done]. injection Hd as Hd. by rewrite (list_lookup_total_correct _ _ _ Ec).
Qed.

(** C2: The sections of a filter reach the filter routines of the front end as the
    file declares them.  Let the file of a model say a filter for a module of
    the table, and not say it again further down.  When the file has been read
    and the module reloaded, the filter of that number in the front end has the
    declared type and times, and its coefficients are the gain and the sections
    in the form, direct or biquad, of the module.  That is the form the front end
    computes in, if it was before, since a reload leaves it (the start takes it
    from the published record, [start_takes_form]): the stage's output is the
    cascade of the declared sections, in that form, on the sample times the gain.
    The checksum the front end computed over its cycles is the one published. *)
Theorem file_to_front_end f s v o text ds1 d ds2 i e pL totMod dptr ch rest banks (cs : CheckState binary64) :
  txt f = Some text → txt_opens f = true → txt_archive_opens f = true → fir_text f = None →
  says (info_lines (file_pieces text)) (ds1 ++ d :: ds2) →
  (∀ d', d' ∈ ds2 → (d_name d', d_num d') ≠ (d_name d, d_num d)) →
  find_entry (map_ s) (d_name d) = Some i → map_ s !! i = Some e → NoDup (map fmModNum (map_ s)) →
  (fmModNum e < length v)%nat → local_ok (v !!! fmModNum e) →
  fmReadCoeffFile f s v = Some o →
  filtResetId cs = mkReset 0 0 0 dptr ch :: rest → Z.of_nat (fmModNum e) < totMod →
  Z.land (rset (inputs (dspVme cs) !!! fmModNum e)) 3 = 1 → state_ok (fmModNum e) (load_state cs ch) →
  length banks = sum_list_with (λ j, Z.to_nat (vfiltSections (vmeCoeffs o !!! fmModNum e) !!! j) + 2)%nat (seq 0 FILTERS) →
  biquad (cs_pC cs !!! fmModNum e) = mbiquad e →
  let cs' := check_run pL totMod (vmeCoeffs o) (Z.of_nat (fmModNum e) :: banks) cs in
  let c := cs_pC cs' !!! fmModNum e in let inp := inputs (cs_pL cs') !!! fmModNum e in
  ret o = 0 ∧
  filtSections c !!! d_num d = Z.of_nat (length (d_sections d)) ∧ filterType c !!! d_num d = 0 ∧
  sType c !!! d_num d = d_stype d ∧ rmpcmp inp !!! d_num d = d_ramp d ∧ timeout inp !!! d_num d = d_timeout d ∧
  (∀ k, (k < length (row (mbiquad e) (d_gain d) (d_sections d)))%nat →
     (filtCoeff c !!! d_num d) !!! k = row (mbiquad e) (d_gain d) (d_sections d) !!! k) ∧
  biquad c = mbiquad e ∧
  (∀ hs unused x, length hs = length (d_sections d) → filtHist c !!! d_num d = flat_hist hs ++ unused →
     let '(y, hs') := cascade (form_step (mbiquad e)) (map (stored (mbiquad e)) (d_sections d)) hs (x ⊗ d_gain d) in
     calc_filter c (d_num d) x = (y, set_filtHist (<[d_num d := flat_hist hs' ++ unused]> (filtHist c)) c)) ∧
  crc (cs_localCoeff cs') = crc (vmeCoeffs o !!! fmModNum e).
Proof.
  intros Et Ho Ha Ef Hs Hne Hf He Hnd Hm Hv Hcall Er Htot Hreq Hok Hlen Hform cs' c inp.
  pose proof (says_ok _ _ Hs) as Hds.
  destruct (read_call f s v text (ds1 ++ d :: ds2) Et) as (o' & E & Hret & Ev); [|done..|].
  { intros ->. change (info_lines (file_pieces "")) with (@nil (list string)) in Hs.
    inversion Hs as [E1 E2|]. by destruct ds1. }
  rewrite Hcall in E. injection E as <-. split; [done|].
  set (t := foldl define (map clear_entry (map_ s)) (ds1 ++ d :: ds2)) in *.
  assert (Hmod : modules t = modules (map_ s)) by (unfold t; rewrite define_modules; apply modules_cleared).
  destruct (modules_lookup _ _ i e Hmod He) as (e' & Ei & Em & Eb).
  pose proof (file_holds ds1 d ds2 (map_ s) i Hds Hne Hf) as Hh. fold t in Hh. rewrite (list_lookup_total_correct _ _ _ Ei) in Hh.
  assert (Hok' : Forall entry_ok t) by (apply foldl_define_ok; [apply cleared_reader_ok|done]).
  destruct (Forall_lookup_1 _ _ _ _ Hok' Ei) as [Hvme Hloc].
  pose proof (publish_all_entry t v i e' ltac:(by rewrite (modules_fmModNum _ _ Hmod)) Ei ltac:(by rewrite Em)) as Hpub.
  rewrite Em, <- Ev in Hpub. destruct (publish_spec (fmd e') (mbiquad e') (v !!! fmModNum e) Hvme Hv) as (Hp & Hcrc & _).
  rewrite <- Hpub in Hp, Hcrc.
  destruct (reload_published (fmd e') (fmModNum e) pL totMod (vmeCoeffs o) dptr ch rest banks cs Hvme Hp Er Htot Hreq Hok) as [Hl Hc].
  { rewrite Hlen. apply sum_list_with_ext_seq. intros j Hj. by destruct (Hp j Hj) as (-> & _). }
  fold cs' in Hl, Hc. rewrite Hcrc, <- Hc.
  destruct Hh as (H1 & H2 & H3 & H4 & H5). rewrite Eb in H5.
  assert (Hdef : def_ok d) by (apply Forall_app in Hds as [_ [Hd _]%Forall_cons]; exact Hd).
  destruct Hdef as (Hn & _ & Hlen' & _). destruct (Hl (d_num d) Hn) as (L1 & L2 & _ & L4). fold c inp in L1, L2, L4.
  rewrite H1 in L1, L4. destruct L4 as (M1 & M2 & M3 & M4); [lia|]. rewrite H2 in M1. rewrite H3 in M2. rewrite H4 in M3.
  assert (Hrow : ∀ k, (k < length (row (mbiquad e) (d_gain d) (d_sections d)))%nat →
    (filtCoeff c !!! d_num d) !!! k = row (mbiquad e) (d_gain d) (d_sections d) !!! k).
  { intros k Hk. rewrite M4; [by apply H5|]. rewrite length_row in Hk. lia. }
  assert (Hbq : biquad c = mbiquad e).
  { rewrite <- Hform. symmetry. apply map_lookup_total; [symmetry; apply check_run_forms | apply Hok]. }
  do 6 (split; [done|]). split; [done|]. split; [|done].
  intros hs unused x Hhs Hhist. by apply calc_stage.
Qed.

(** ** The partial file *)
Lemma getlines_line l line rest :
  one_line l → getlines line (l +:+ String NL rest)%string = (line +:+ l +:+ newline)%string :: getlines "" rest.
Proof.
  revert line. induction l as [|c l IH]; intros line Ho; [done|]. rewrite str_app_cons. cbn [getlines].
  unfold one_line in Ho. rewrite all_chars_cons in Ho. apply andb_prop_elim in Ho as [Hc Ho].
  destruct (bool_decide (c = NL)); [done|]. rewrite IH, str_app_assoc by done. done.
Qed.
Lemma getlines_text ls : Forall (λ l, one_line l) ls → getlines "" (text_of ls) = map (λ l, l +:+ newline)%string ls.
Proof.
  induction 1 as [|l ls Ho _ IH]; [done|]. rewrite text_of_cons, getlines_line by done.
  change (String.append "" ?x) with x. by rewrite IH.
Qed.

Section partial.
Variable filtName : string.
Let search : string := ("### " +:+ filtName)%string.

(** Lines with their ends: the header of the module, and lines that are not. *)
Definition names_it (l : string) : Prop :=
  strstr (l +:+ newline) search = true ∧ names_filter filtName (l +:+ newline) = Some true ∧
  strstr (l +:+ newline) stopPattern = false.
Definition passes (l : string) : Prop :=
  strstr (l +:+ newline) search = false ∨ names_filter filtName (l +:+ newline) = Some false.
Definition is_stop (l : string) : bool := strstr (l +:+ newline) stopPattern.
Definition stops (ls : list string) : Z := Z.of_nat (length (filter (λ l, is_stop l) ls)).
Definition plain_line (l : string) : Prop := one_line l ∧ no_nul l ∧ (String.length l < 1023)%nat.

Definition fold_plain (f : Scan → string → option Scan) (ls : list string) (s : Scan) : option Scan :=
  fold_lines f (map (λ l, l +:+ newline)%string ls) s.

Lemma fold_plain_cons f l ls s : plain_line l → fold_plain f (l :: ls) s = (f s (l +:+ newline)%string ≫= fold_plain f ls).
Proof.
  intros (_ & Hn & _). unfold fold_plain. cbn [map fold_lines]. rewrite c_str_all; [done|].
  unfold no_nul in *. rewrite all_chars_app. by apply andb_prop_intro.
Qed.
Lemma fold_plain_app f ls ls' s : fold_plain f (ls ++ ls') s = (fold_plain f ls s ≫= fold_plain f ls').
Proof.
  unfold fold_plain. rewrite map_app. revert s. induction (map _ ls) as [|l k IH]; intros s; [done|].
  cbn [app fold_lines]. destruct (f s (c_str l)) as [s'|]; [|done]. apply IH.
Qed.

Lemma count_stop_idle l n acc : count_stop l (mkScan false n acc) = mkScan false n acc.
Proof. unfold count_stop. cbn [fstart fstop newcoeffs andb]. by destruct (n =? 2). Qed.

Lemma scan_pass ls n acc :
  Forall plain_line ls → Forall passes ls → fold_plain (scan_line filtName) ls (mkScan false n acc) = Some (mkScan false n acc).
Proof.
  intros Hp. induction Hp as [|l ls Hl _ IH]; intros Ho; [done|]. apply Forall_cons in Ho as [Ho Hos].
  rewrite fold_plain_cons by done.
  assert (E : scan_line filtName (mkScan false n acc) (l +:+ newline) = Some (mkScan false n acc)).
  { unfold scan_line. cbn [fstart fstop newcoeffs andb negb mbind option_bind]. fold search.
    destruct (strstr (l +:+ newline) search) eqn:Eh; cbn [andb mbind option_bind].
    - destruct Ho as [|Ho]; [congruence|]. rewrite Ho. cbn [mbind option_bind]. by rewrite count_stop_idle.
    - by rewrite count_stop_idle. }
  rewrite E. by apply IH.
Qed.

Lemma stops_cons l ls : stops (l :: ls) = (if is_stop l then 1 else 0) + stops ls.
Proof. unfold stops. rewrite filter_cons. destruct (is_stop l); (rewrite decide_True by done) || (rewrite decide_False by (by intros [])); cbn [length]; lia. Qed.
Lemma stops_nonneg ls : 0 <= stops ls.
Proof. unfold stops. lia. Qed.

Lemma count_stop_inside l n acc :
  n + (if is_stop l then 1 else 0) < 2 →
  count_stop (l +:+ newline) (mkScan true n acc) = mkScan true (n + (if is_stop l then 1 else 0)) acc.
Proof.
  intros Hn. unfold count_stop. cbn [fstart fstop newcoeffs andb]. change (strstr (l +:+ newline) stopPattern) with (is_stop l).
  destruct (is_stop l); cbn [fstop fstart newcoeffs]; rewrite ?Z.add_0_r; (rewrite (proj2 (Z.eqb_neq _ 2)) by lia); done.
Qed.

Lemma scan_inside_line l n acc :
  n < 2 → n + (if is_stop l then 1 else 0) < 2 → Z.of_nat (String.length acc + String.length (l +:+ newline)) < 50000 →
  scan_line filtName (mkScan true n acc) (l +:+ newline) =
    Some (mkScan true (n + (if is_stop l then 1 else 0)) (acc +:+ (l +:+ newline))%string).
Proof.
  intros Hn Hs Hlen. unfold scan_line. cbn [fstart fstop newcoeffs andb]. rewrite (proj2 (Z.ltb_lt n 2) Hn).
  unfold collect. cbn [newcoeffs fstart fstop]. rewrite (proj2 (Z.leb_gt 50000 _)) by (rewrite str_length_app; lia).
  cbn [fstart negb mbind option_bind]. rewrite andb_false_r. cbn [mbind option_bind]. by rewrite count_stop_inside.
Qed.

Lemma scan_inside ls n acc :
  Forall plain_line ls → 0 <= n → n + stops ls < 2 → Z.of_nat (String.length acc + String.length (text_of ls)) < 50000 →
  fold_plain (scan_line filtName) ls (mkScan true n acc) = Some (mkScan true (n + stops ls) (acc +:+ text_of ls)%string).
Proof.
  intros Hp. revert n acc. induction Hp as [|l ls Hl _ IH]; intros n acc Hn Hs Hlen; [by rewrite Z.add_0_r, str_app_nil|].
  rewrite stops_cons in *. pose proof (stops_nonneg ls) as Hnn.
  assert (Et : text_of (l :: ls) = ((l +:+ newline) +:+ text_of ls)%string) by (rewrite text_of_cons, str_app_assoc; done).
  rewrite Et, str_length_app in Hlen. rewrite Et, fold_plain_cons by done.
  rewrite scan_inside_line by (destruct (is_stop l); lia). cbn [mbind option_bind].
  rewrite IH; [by rewrite <- Z.add_assoc, str_app_assoc|destruct (is_stop l); lia|lia|rewrite str_length_app; lia].
Qed.

Lemma scan_header l n acc :
  plain_line l → names_it l → n < 2 → Z.of_nat (String.length acc + String.length (l +:+ newline)) < 50000 →
  scan_line filtName (mkScan false n acc) (l +:+ newline) = Some (mkScan true n (acc +:+ (l +:+ newline))%string).
Proof.
  intros Hl (H1 & H2 & H3) Hn Hlen. unfold scan_line. cbn [fstart fstop newcoeffs andb negb mbind option_bind].
  fold search. rewrite H1, H2. cbn [andb mbind option_bind]. unfold collect. cbn [newcoeffs fstart fstop].
  rewrite (proj2 (Z.leb_gt 50000 _)) by (rewrite str_length_app; lia). cbn [mbind option_bind].
  unfold count_stop. cbn [fstart fstop newcoeffs andb]. rewrite H3. cbn [fstop].
  by rewrite (proj2 (Z.eqb_neq _ 2)) by lia.
Qed.

Lemma scan_stop l acc :
  plain_line l → is_stop l = true → Z.of_nat (String.length acc + String.length (l +:+ newline)) < 50000 →
  scan_line filtName (mkScan true 1 acc) (l +:+ newline) = Some (mkScan false 2 (acc +:+ (l +:+ newline))%string).
Proof.
  intros Hl Hs Hlen. unfold scan_line. cbn [fstart fstop newcoeffs andb negb]. change (1 <? 2) with true. cbn [andb].
  unfold collect. cbn [newcoeffs fstart fstop]. rewrite (proj2 (Z.leb_gt 50000 _)) by (rewrite str_length_app; lia).
  cbn [fstart negb mbind option_bind]. rewrite andb_false_r. cbn [mbind option_bind].
  unfold count_stop. cbn [fstart fstop newcoeffs andb]. unfold is_stop in Hs. by rewrite Hs.
Qed.

Lemma copy_pass new ls n acc :
  Forall plain_line ls → Forall passes ls →
  fold_plain (copy_line filtName new) ls (mkScan false n acc) = Some (mkScan false n (acc +:+ text_of ls)%string).
Proof.
  intros Hp. revert acc. induction Hp as [|l ls Hl _ IH]; intros acc Ho; [by rewrite str_app_nil|].
  apply Forall_cons in Ho as [Ho Hos]. rewrite fold_plain_cons by done.
  assert (E : copy_line filtName new (mkScan false n acc) (l +:+ newline) = Some (mkScan false n (acc +:+ (l +:+ newline))%string)).
  { unfold copy_line. cbn [fstart fstop newcoeffs andb negb]. fold search.
    destruct (strstr (l +:+ newline) search) eqn:Eh; cbn [negb andb fstart fstop newcoeffs mbind option_bind].
    - destruct Ho as [|Ho]; [congruence|]. rewrite Ho. cbn [mbind option_bind]. by rewrite count_stop_idle.
    - by rewrite count_stop_idle. }
  rewrite E. cbn [mbind option_bind]. rewrite IH, text_of_cons, !str_app_assoc by done. done.
Qed.

Lemma copy_inside_line new l n acc :
  n + (if is_stop l then 1 else 0) < 2 →
  copy_line filtName new (mkScan true n acc) (l +:+ newline) = Some (mkScan true (n + (if is_stop l then 1 else 0)) acc).
Proof.
  intros Hs. unfold copy_line. cbn [fstart fstop newcoeffs negb]. rewrite !andb_false_r. cbn [fstart negb].
  rewrite ?andb_false_r. cbn [mbind option_bind]. by rewrite count_stop_inside.
Qed.

Lemma copy_inside new ls n acc :
  Forall plain_line ls → 0 <= n → n + stops ls < 2 →
  fold_plain (copy_line filtName new) ls (mkScan true n acc) = Some (mkScan true (n + stops ls) acc).
Proof.
  intros Hp. revert n. induction Hp as [|l ls Hl _ IH]; intros n Hn Hs; [by rewrite Z.add_0_r|].
  rewrite stops_cons in *. pose proof (stops_nonneg ls) as Hnn. rewrite fold_plain_cons by done.
  rewrite copy_inside_line by lia. cbn [mbind option_bind]. rewrite IH by (destruct (is_stop l); lia). by rewrite Z.add_assoc.
Qed.

Lemma copy_header new l n acc :
  plain_line l → names_it l → n < 2 → copy_line filtName new (mkScan false n acc) (l +:+ newline) = Some (mkScan true n (acc +:+ new)%string).
Proof.
  intros Hl (H1 & H2 & H3) Hn. unfold copy_line. fold search. rewrite H1. cbn [fstart fstop newcoeffs andb negb].
  rewrite H2. cbn [mbind option_bind]. unfold count_stop. cbn [fstart fstop newcoeffs andb]. rewrite H3. cbn [fstop].
  by rewrite (proj2 (Z.eqb_neq _ 2)) by lia.
Qed.

Lemma copy_stop new l acc :
  plain_line l → is_stop l = true → copy_line filtName new (mkScan true 1 acc) (l +:+ newline) = Some (mkScan false 2 acc).
Proof.
  intros Hl Hs. unfold copy_line. cbn [fstart fstop newcoeffs negb]. rewrite !andb_false_r. cbn [fstart negb].
  rewrite ?andb_false_r. cbn [mbind option_bind]. unfold count_stop. cbn [fstart fstop newcoeffs andb].
  unfold is_stop in Hs. by rewrite Hs.
Qed.

(** A part: its header, lines of which one is a stop line, and a stop line, which
    is the first line of the header of the next module. *)
Definition part_ok (hdr : string) (body : list string) (stop : string) : Prop :=
  names_it hdr ∧ stops body = 1 ∧ is_stop stop = true.

Lemma text_cons l ls : text_of (l :: ls) = ((l +:+ newline) +:+ text_of ls)%string.
Proof. rewrite text_of_cons, str_app_assoc. done. Qed.

Lemma scan_part pre hdr body stop post :
  Forall plain_line (pre ++ hdr :: body ++ stop :: post) → Forall passes pre → Forall passes post → part_ok hdr body stop →
  Z.of_nat (String.length (text_of (hdr :: body ++ [stop]))) < 50000 →
  fold_plain (scan_line filtName) (pre ++ hdr :: body ++ stop :: post) (mkScan false 0 "") =
    Some (mkScan false 2 (text_of (hdr :: body ++ [stop]))).
Proof.
  intros [H1 [H2 [H3 [H4 H5]%Forall_cons]%Forall_app]%Forall_cons]%Forall_app Hpre Hpost (Hh & Hb & Hs) Hlen.
  rewrite text_cons, text_of_app, text_cons, !str_length_app in Hlen.
  rewrite fold_plain_app, scan_pass by done. cbn [mbind option_bind]. rewrite fold_plain_cons by done.
  rewrite scan_header by (done || rewrite ?str_length_app; cbn [String.length]; lia). cbn [mbind option_bind].
  change (String.append "" ?x) with x. rewrite fold_plain_app, scan_inside by (done || rewrite ?Hb, ?str_length_app; lia). cbn [mbind option_bind].
  rewrite Hb, fold_plain_cons by done. change (0 + 1) with 1.
  rewrite scan_stop by (done || rewrite !str_length_app; lia). cbn [mbind option_bind]. rewrite scan_pass by done.
  rewrite text_cons, text_of_app, text_cons. by rewrite str_app_nil, str_app_assoc.
Qed.

Lemma copy_part new pre hdr body stop post :
  Forall plain_line (pre ++ hdr :: body ++ stop :: post) → Forall passes pre → Forall passes post → part_ok hdr body stop →
  fold_plain (copy_line filtName new) (pre ++ hdr :: body ++ stop :: post) (mkScan false 0 "") =
    Some (mkScan false 2 (text_of pre +:+ new +:+ text_of post)%string).
Proof.
  intros [H1 [H2 [H3 [H4 H5]%Forall_cons]%Forall_app]%Forall_cons]%Forall_app Hpre Hpost (Hh & Hb & Hs).
  rewrite fold_plain_app, copy_pass by done. cbn [mbind option_bind]. rewrite fold_plain_cons, copy_header by done.
  cbn [mbind option_bind]. rewrite fold_plain_app, copy_inside by (done || rewrite ?Hb; lia). cbn [mbind option_bind].
  rewrite Hb, fold_plain_cons by done. change (0 + 1) with 1. rewrite copy_stop by done. cbn [mbind option_bind].
  rewrite copy_pass by done. change (String.append "" ?x) with x. by rewrite !str_app_assoc.
Qed.

Lemma plain_one_line ls : Forall plain_line ls → Forall (λ l, one_line l) ls.
Proof. intros H. eapply Forall_impl; [exact H|]. by intros l (Ho & _). Qed.
End partial.

(** ** What the partial file says *)
Lemma says_app l1 d1 l2 d2 : says l1 d1 → says l2 d2 → says (l1 ++ l2) (d1 ++ d2).
Proof.
  intros H H2. induction H as [|tok conts rest d ds first more Hd Es Ht Hc H IH]; [done|].
  cbn [app]. rewrite <- app_assoc. by apply says_cons with first more.
Qed.

Definition lines_of (ls : list string) : list (list string) := info_lines (map (λ l, l +:+ newline)%string ls).
Lemma lines_of_app ls ls' : lines_of (ls ++ ls') = lines_of ls ++ lines_of ls'.
Proof. unfold lines_of, info_lines. by rewrite map_app, map_app, filter_app, map_app. Qed.

Lemma file_lines_of ls : Forall plain_line ls → info_lines (file_pieces (text_of ls)) = lines_of ls.
Proof.
  intros H. unfold file_pieces, lines_of. rewrite pieces_text; [done|]. eapply Forall_impl; [exact H|].
  intros l (H1 & _ & H3). by split.
Qed.

(** C20: Loading one module replaces its part of the file and nothing else.  When the
    photon file and the load file both have the module's part (its header line,
    and the lines to the header of the module after it), the new load file is
    the old one with the photon file's part in its place; and it says the
    filters of the load file before, then the photon file's filters of the
    module, then the filters of the load file behind. *)
Theorem partial_load filtName pre hdr body stop post pre' hdr' body' stop' post' A B C :
  (String.length filtName < 60)%nat →
  Forall plain_line (pre ++ hdr :: body ++ stop :: post) → Forall plain_line (pre' ++ hdr' :: body' ++ stop' :: post') →
  Forall (passes filtName) (pre ++ post) → Forall (passes filtName) (pre' ++ post') →
  part_ok filtName hdr body stop → part_ok filtName hdr' body' stop' →
  Z.of_nat (String.length (text_of (hdr :: body ++ [stop]))) < 50000 →
  says (lines_of pre') A → says (lines_of (hdr :: body ++ [stop])) B → says (lines_of post') C →
  ∃ new, fmCreatePartial (Some (text_of (pre ++ hdr :: body ++ stop :: post)))
           (Some (text_of (pre' ++ hdr' :: body' ++ stop' :: post'))) true filtName = Some (0, Some new) ∧
    new = text_of (pre' ++ (hdr :: body ++ [stop]) ++ post') ∧
    says (info_lines (file_pieces new)) (A ++ B ++ C).
Proof.
  intros Hf Hp Hp' [Hq1 Hq2]%Forall_app [Hq1' Hq2']%Forall_app Hpart Hpart' Hlen HA HB HC.
  eexists. split; [|split; [done|]].
  - unfold fmCreatePartial. rewrite (proj2 (Nat.leb_gt _ _) Hf). cbn [negb].
    rewrite !getlines_text by by apply plain_one_line. pose proof (scan_part filtName _ _ _ _ _ Hp Hq1 Hq2 Hpart Hlen) as E.
    unfold fold_plain in E. rewrite E. cbn [mbind option_bind newcoeffs].
    pose proof (copy_part filtName (text_of (hdr :: body ++ [stop])) _ _ _ _ _ Hp' Hq1' Hq2' Hpart') as E'.
    unfold fold_plain in E'. rewrite E'. cbn [mbind option_bind newcoeffs]. by rewrite !text_of_app.
  - rewrite file_lines_of.
    + rewrite !lines_of_app. by repeat apply says_app.
    + apply Forall_app in Hp as [_ [H2 [H3 [H4 _]%Forall_cons]%Forall_app]%Forall_cons].
      apply Forall_app in Hp' as [H1 [_ [_ [_ H5]%Forall_cons]%Forall_app]%Forall_cons].
      apply Forall_app. split; [done|]. cbn [app]. constructor; [done|]. rewrite <- app_assoc. apply Forall_app. by split; [|constructor].
Qed.

(** loading a module that is not in the photon file deletes its part of the load
    file, and reports success. *)
Theorem partial_absent_deletes filtName photon pre' hdr' body' stop' post' :
  (String.length filtName < 60)%nat → Forall plain_line photon → Forall (passes filtName) photon →
  Forall plain_line (pre' ++ hdr' :: body' ++ stop' :: post') → Forall (passes filtName) (pre' ++ post') →
  part_ok filtName hdr' body' stop' →
  fmCreatePartial (Some (text_of photon)) (Some (text_of (pre' ++ hdr' :: body' ++ stop' :: post'))) true filtName =
    Some (0, Some (text_of (pre' ++ post'))).
Proof.
  intros Hf Hp Ho Hp' [Hq1' Hq2']%Forall_app Hpart'. unfold fmCreatePartial. rewrite (proj2 (Nat.leb_gt _ _) Hf). cbn [negb].
  rewrite !getlines_text by by apply plain_one_line. pose proof (scan_pass filtName photon 0 "" Hp Ho) as E.
  unfold fold_plain in E. rewrite E. cbn [mbind option_bind newcoeffs].
  pose proof (copy_part filtName "" _ _ _ _ _ Hp' Hq1' Hq2' Hpart') as E'.
  unfold fold_plain in E'. rewrite E'. cbn [mbind option_bind newcoeffs]. by rewrite text_of_app.
Qed.

(** ** A concrete file

    Two modules: ALPHA, in biquad form, with a filter of two sections, and BETA
    with one of one section. *)
Definition demo_table : list fmSubSysMap := [mkMap "BETA" 0 0 0 empty_fmd; mkMap "ALPHA" 1 1 0 empty_fmd].
Definition demo_vme : list (VME_FM_OP_COEF binary64) := [demo_record 0 0 f0; demo_record 0 0 f0].
Definition alpha_header : string := "### ALPHA                ###".
Definition bar : string := "################################".
Definition alpha_lines : list string :=
  ["# DESIGN ALPHA 0 lead"; "ALPHA 0 12 2 32 0 lead   1.5 -0.5 0.25 0.1 0.2"; "     0.75  -0.5 1 2"; ""]%string.
Definition beta_lines : list string := ["### BETA                 ###"; bar; "BETA 3 21 1 100 5 lag 2 0 0 0 0"]%string.
Definition demo_lines : list string := ["# FILTERS"%string; bar] ++ alpha_header :: (bar :: alpha_lines) ++ bar :: beta_lines.
Definition demo_files (ls : list string) : Files := mkFiles (Some (text_of ls)) true true None false false.

Definition sec (a1 a2 b1 b2 : string) : section := (atof a1, atof a2, atof b1, atof b2).
Definition lead : FilterDef := mkDef "ALPHA" 0 12 32 0 "lead" (atof "1.5") [sec "-0.5" "0.25" "0.1" "0.2"; sec "0.75" "-0.5" "1" "2"].
Definition lag : FilterDef := mkDef "BETA" 3 21 100 5 "lag" (atof "2") [sec "0" "0" "0" "0"].

Lemma alpha_says : says (lines_of (alpha_header :: (bar :: alpha_lines) ++ [bar])) [lead].
Proof.
  assert (E : lines_of (alpha_header :: (bar :: alpha_lines) ++ [bar]) =
    [["ALPHA"; "0"; "12"; "2"; "32"; "0"; "lead"; "1.5"; "-0.5"; "0.25"; "0.1"; "0.2"]; ["0.75"; "-0.5"; "1"; "2"]]%string)
    by (vm_compute; reflexivity).
  rewrite E. apply (says_cons _ [["0.75"; "-0.5"; "1"; "2"]]%string [] lead [] (sec "-0.5" "0.25" "0.1" "0.2") [sec "0.75" "-0.5" "1" "2"]);
    [|reflexivity| | |constructor].
  - unfold def_ok, FILTERS. cbn. split_and!; try lia; done.
  - unfold decl_tokens. do 8 (split; [vm_compute; reflexivity|]). vm_compute. reflexivity.
  - constructor; [split; [apply Nat.leb_le; vm_compute; reflexivity|vm_compute; reflexivity]|constructor].
Qed.

Lemma beta_says : says (lines_of beta_lines) [lag].
Proof.
  assert (E : lines_of beta_lines = [["BETA"; "3"; "21"; "1"; "100"; "5"; "lag"; "2"; "0"; "0"; "0"; "0"]]%string)
    by (vm_compute; reflexivity).
  rewrite E. apply (says_cons _ [] [] lag [] (sec "0" "0" "0" "0") []); [|reflexivity| |constructor|constructor].
  - unfold def_ok, FILTERS. cbn. split_and!; try lia; done.
  - unfold decl_tokens. do 8 (split; [vm_compute; reflexivity|]). vm_compute. reflexivity.
Qed.

Lemma demo_lines_plain : Forall plain_line demo_lines.
Proof. repeat (constructor; [split_and!; [vm_compute; exact I..|apply Nat.ltb_lt; vm_compute; reflexivity]|]). constructor. Qed.

Lemma top_says : says (lines_of ["# FILTERS"%string; bar]) [].
Proof. assert (E : lines_of ["# FILTERS"%string; bar] = []) by (vm_compute; reflexivity). rewrite E. constructor. Qed.

Lemma demo_says : says (info_lines (file_pieces (text_of demo_lines))) [lead; lag].
Proof.
  rewrite file_lines_of by apply demo_lines_plain. unfold demo_lines. rewrite lines_of_app.
  change (alpha_header :: (bar :: alpha_lines) ++ bar :: beta_lines) with ((alpha_header :: (bar :: alpha_lines) ++ [bar]) ++ beta_lines).
  rewrite lines_of_app. apply (says_app _ [] _ [lead; lag] top_says), (says_app _ [lead] _ [lag] alpha_says beta_says).
Qed.

Lemma coefficients_in_row_witness :
  let s := reader (read_lines (map (λ l, l +:+ newline)%string ["ALPHA 0 12 3 32 0 lead   1.5 -0.5 0.25 0.1 0.2"]%string) 1 0 ""
                     (mkReader (map clear_entry demo_table) 0 None 0)) in
  (curFilterNum s < FILTERS)%nat ∧
  5 <= cont_index (vfiltSections (fmd (table s !!! 1%nat)) !!! curFilterNum s) (inFilter s - 1) 3 < Z.of_nat MAX_COEFFS.
Proof.
  apply (coefficients_in_row demo_table (map (λ l, l +:+ newline)%string ["ALPHA 0 12 3 32 0 lead   1.5 -0.5 0.25 0.1 0.2"]%string) 1 0 "" 1 3);
    [vm_compute; reflexivity|vm_compute; reflexivity|lia].
Defined.

Lemma file_meaning_witness :
  let p := read_lines (file_pieces (text_of demo_lines)) 1 0 "" (mkReader (map clear_entry demo_table) 0 None 0) in
  refused p = None ∧ table (reader p) = foldl define (map clear_entry demo_table) [lead; lag] ∧ inFilter (reader p) = 0.
Proof. apply (file_meaning (text_of demo_lines) [lead; lag] demo_table 1 0 demo_says). Defined.

Lemma demo_pass : Forall (passes "ALPHA") (["# FILTERS"%string; bar] ++ beta_lines).
Proof. repeat (constructor; [left; vm_compute; reflexivity|]). constructor. Qed.
Lemma demo_part : part_ok "ALPHA" alpha_header (bar :: alpha_lines) bar.
Proof. split; [split; [|split]|split]; vm_compute; reflexivity. Qed.

(** The load file has another filter for ALPHA; loading ALPHA makes it the photon
    file. *)
Lemma partial_load_witness :
  ∃ new, fmCreatePartial (Some (text_of demo_lines))
    (Some (text_of (["# FILTERS"%string; bar] ++ alpha_header :: [bar; "ALPHA 7 12 1 32 0 old 1 0 0 0 0"%string] ++ bar :: beta_lines)))
    true "ALPHA" = Some (0, Some new) ∧ new = text_of demo_lines ∧ says (info_lines (file_pieces new)) [lead; lag].
Proof.
  destruct (partial_load "ALPHA" ["# FILTERS"%string; bar] alpha_header (bar :: alpha_lines) bar beta_lines
    ["# FILTERS"%string; bar] alpha_header [bar; "ALPHA 7 12 1 32 0 old 1 0 0 0 0"%string] bar beta_lines [] [lead] [lag])
    as (new & E & En & Hs);
    [apply Nat.ltb_lt; vm_compute; reflexivity|exact demo_lines_plain| |exact demo_pass|exact demo_pass|exact demo_part| | |
     exact top_says|exact alpha_says|exact beta_says|].
  - repeat (constructor; [split_and!; [vm_compute; exact I..|apply Nat.ltb_lt; vm_compute; reflexivity]|]). constructor.
  - split; [split; [|split]|split]; vm_compute; reflexivity.
  - vm_compute. reflexivity.
  - exists new. split; [exact E|]. split; [|exact Hs]. rewrite En. reflexivity.
Defined.

Lemma demo_nodup : NoDup (map fmModNum demo_table).
Proof. change (NoDup [0%nat; 1%nat]). apply NoDup_cons. split; [by intros ?%list_elem_of_singleton|apply NoDup_singleton]. Qed.
Lemma demo_local_ok : local_ok (demo_vme !!! 1%nat).
Proof. assert (H0 : 0 <= 0 <= 10) by lia. apply (demo_record_ok 0 0 f0 H0 H0). Qed.

(** The front end of [demo_check] with its modules in biquad form, as the table has
    them, and a first stage that has been at rest. *)
Definition demo_biquads : CheckState binary64 := set_cs_pC (map (set_biquad 1) (cs_pC demo_check)) demo_check.

Lemma demo_biquads_ok : state_ok 1 (load_state demo_biquads (replicate 10 0)).
Proof.
  split; [cbn; lia|]. split; [cbn; lia|]. split; [by apply demo_record_ok|]. split; try done. split; [done|].
  intros j Hj. change (filtC (load_state demo_biquads (replicate 10 0)) !!! 1%nat) with (set_biquad 1 demo_coefs).
  cbn [set_biquad demo_coefs filtCoeff]. by rewrite lookup_total_replicate_10.
Qed.

Lemma file_to_front_end_witness :
  ∃ o, fmReadCoeffFile (demo_files demo_lines) (mkSub demo_table 0) demo_vme = Some o ∧
  let cs' := check_run 7 2 (vmeCoeffs o) (1 :: replicate 22 0) demo_biquads in
  let c := cs_pC cs' !!! 1%nat in
  ret o = 0 ∧ filtSections c !!! 0%nat = 2 ∧ (filtCoeff c !!! 0%nat) !!! 0%nat = atof "1.5" ∧ biquad c = 1 ∧
  (∀ unused, filtHist c !!! 0%nat = flat_hist [(f0, f0); (f0, f0)] ++ unused →
     (calc_filter c 0 f1).1 = (cascade biquad_step (map biquad_coeffs (d_sections lead)) [(f0, f0); (f0, f0)] (f1 ⊗ atof "1.5")).1).
Proof.
  destruct (read_call (demo_files demo_lines) (mkSub demo_table 0) demo_vme (text_of demo_lines) [lead; lag])
    as (o & E & _ & Ev); [reflexivity|discriminate|reflexivity..|exact demo_says|].
  exists o. split; [exact E|].
  assert (Hb : length (replicate 22 0) =
    sum_list_with (λ j, Z.to_nat (vfiltSections (vmeCoeffs o !!! 1%nat) !!! j) + 2)%nat (seq 0 FILTERS))
    by (rewrite Ev; vm_compute; reflexivity).
  pose proof (file_to_front_end (demo_files demo_lines) (mkSub demo_table 0) demo_vme o (text_of demo_lines) [] lead [lag] 1
    (mkMap "ALPHA" 1 1 0 empty_fmd) 7 2 None (replicate 10 0) (replicate 9 (mkReset 0 0 0 None (replicate 10 0)))
    (replicate 22 0) demo_biquads eq_refl eq_refl eq_refl eq_refl demo_says) as H.
  cbv zeta in H |- *. set (cs' := check_run _ _ _ _ _) in *. clearbody cs'.
  destruct H as (H1 & H2 & _ & _ & _ & _ & H3 & H4 & H5 & _); [|reflexivity|reflexivity| | |exact demo_local_ok|exact E|reflexivity|
    vm_compute; reflexivity|vm_compute; reflexivity|exact demo_biquads_ok|exact Hb|reflexivity|].
  - intros d' Hd'. apply list_elem_of_singleton in Hd' as ->. discriminate.
  - exact demo_nodup.
  - apply Nat.ltb_lt. vm_compute. reflexivity.
  - split; [exact H1|]. split; [exact H2|]. split; [apply (H3 0%nat); apply Nat.ltb_lt; vm_compute; reflexivity|].
    split; [exact H4|]. intros unused Hh. specialize (H5 [(f0, f0); (f0, f0)] unused f1 eq_refl Hh).
    cbn [mbiquad d_gain lead d_num] in H5. unfold form_step in H5. change (truthy 1) with true in H5. cbv iota in H5.
    change (stored 1) with (biquad_coeffs (F := binary64)) in H5.
    destruct (cascade biquad_step _ _ _) as [y hs']. exact (f_equal fst H5).
Defined.

End FilterFileProps.
