(* ===== verification/GdsRand.v ===== *)
(** * Random numbers ([src/gds/gdsrand.c], [src/gds/gdsrand.h])

    The noise of the waveform generators: a multiplicative generator with a
    shuffle table, normal deviates from pairs of uniform ones, and a filter of
    two second-order sections on a rotating register.

    - [randBlock], [urand_r], [nrand_r], [rand_filter], [rand_filter_calc];
    - [schrage_mod]: the update by parts is the multiplication modulo
      [RAND_IM], within 32 bits, and [urand_index]: the table is never left;
    - [seed_period]: a seed does not come back before 2^31 - 2 updates;
    - [rotating_register]: the filter is the cascade of its sections.

    Functions of the mathematical library are those of the class [Libm]. *)
From Stdlib Require Import Zdivisibility Zpow_facts Reals Lra.
From S2P Require Import Prelude CFloat Iir.

(** [floor], [fmod], [sin], [tan], [exp], [log] and [sqrt] of [math.h]. *)
Class Libm (F : Type) := {
  lfloor : F → F; lfmod : F → F → F; lsin : F → F; ltan : F → F; lexp : F → F; llog : F → F; lsqrt : F → F
}.

#[export] Instance R_libm : Libm R := ({|
  lfloor := λ x, IZR (Int_part x); lfmod := λ x y, x - y * IZR (R_trunc (x / y));
  lsin := sin; ltan := tan; lexp := exp; llog := ln; lsqrt := sqrt
|})%R.

Module GdsRand.

Definition RAND_IA : Z := 16807.
Definition RAND_IM : Z := 2147483647.
Definition RAND_IQ : Z := 127773.
Definition RAND_IR : Z := 2836.
Definition RAND_NTAB : Z := 32.
Definition RAND_NDIV : Z := 1 + Z.quot (RAND_IM - 1) RAND_NTAB.

Definition next_seed (seed : Z) : Z :=
  let k := Z.quot seed RAND_IQ in
  let seed := RAND_IA * (seed - k * RAND_IQ) - RAND_IR * k in
  if seed <? 0 then seed + RAND_IM else seed.

Section defs.
Context {F : Type} `{FloatOps F, Libm F}.

Definition RAND_AM : F := f1 ⊘ fofZ RAND_IM.
Definition RAND_RNMX : F := f1 ⊖ flit 12 (-8).
Definition M_PI : F := flit 314159265358979323846 (-20).

Record randBlock := mkRand {
  seed : Z; lastr : Z; itab : list Z; ncnt : Z; nextn : F;
  shift_reg : list F; b : list F; a : list F; shift_count : Z
}.
Definition zero_block : randBlock :=
  mkRand 0 0 (replicate 32 0) 0 f0 (replicate 6 f0) (replicate 6 f0) (replicate 6 f0) 0.
#[export] Instance block_inhabited : Inhabited randBlock := populate zero_block.

Definition set_gen (s l : Z) (tab : list Z) (rb : randBlock) : randBlock :=
  mkRand s l tab (ncnt rb) (nextn rb) (shift_reg rb) (b rb) (a rb) (shift_count rb).
Definition set_normal (c : Z) (n : F) (rb : randBlock) : randBlock :=
  mkRand (seed rb) (lastr rb) (itab rb) c n (shift_reg rb) (b rb) (a rb) (shift_count rb).
Definition set_filter (reg bs as_ : list F) (sc : Z) (rb : randBlock) : randBlock :=
  mkRand (seed rb) (lastr rb) (itab rb) (ncnt rb) (nextn rb) reg bs as_ sc.

(** ** Uniform numbers

    [warm_up n] is the first loop from [j = n - 1] down to 0.  [now] is
    [TAInow()]. *)
Fixpoint warm_up (n : nat) (s : Z) (tab : list Z) : Z * list Z :=
  match n with
  | O => (s, tab)
  | S j =>
      let s := next_seed s in
      warm_up j s (if (j <? 32)%nat then <[j := s]> tab else tab)
  end.
Definition first_seed (now : Z) (rb : randBlock) : Z :=
  if seed rb =? 0 then Z.land (Z.quot now 1000) 0xFFFFFFFF else swrap 64 (- seed rb).
Definition rand_init (now : Z) (rb : randBlock) : randBlock :=
  if seed rb <=? 0 then
    let '(s, tab) := warm_up 40 (first_seed now rb) (itab rb) in
    set_gen s (tab !!! 0%nat) tab rb
  else rb.
Definition rand_index (rb : randBlock) : Z := Z.quot (lastr rb) RAND_NDIV.
Definition urand_r (now : Z) (rb : randBlock) (lo hi : F) : randBlock * F :=
  let rb := rand_init now rb in
  let s := next_seed (seed rb) in
  let j := Z.to_nat (rand_index rb) in
  let l := itab rb !!! j in
  let rb := set_gen s l (<[j := s]> (itab rb)) rb in
  let temp := RAND_AM ⊗ fofZ l in
  (rb, if temp >ᶠ RAND_RNMX then RAND_RNMX ⊗ (hi ⊖ lo) ⊕ lo else temp ⊗ (hi ⊖ lo) ⊕ lo).

(** ** Normal numbers

    [unit_pair] is the loop that draws a point of the unit circle; it may take
    any number of draws, and its fuel bounds them. *)
Fixpoint unit_pair (fuel : nat) (now : Z) (rb : randBlock) : option (randBlock * (F * F * F)) :=
  match fuel with
  | O => None
  | S fuel =>
      let '(rb, v1) := urand_r now rb (fneg f1) f1 in
      let '(rb, v2) := urand_r now rb (fneg f1) f1 in
      let rsq := v1 ⊗ v1 ⊕ v2 ⊗ v2 in
      if (rsq ≥ᶠ f1) || (rsq =ᶠ f0) then unit_pair fuel now rb else Some (rb, (v1, v2, rsq))
  end.
Definition nrand_r (fuel : nat) (now : Z) (rb : randBlock) (m sig : F) : option (randBlock * F) :=
  if ncnt rb =? 0 then
    '(rb, (v1, v2, rsq)) ← unit_pair fuel now rb;
    let fac := lsqrt (fneg (fofZ 2) ⊗ llog rsq ⊘ rsq) in
    Some (set_normal 1 (v1 ⊗ fac) rb, v2 ⊗ fac ⊗ sig ⊕ m)
  else Some (set_normal 0 (nextn rb) rb, nextn rb ⊗ sig ⊕ m).

(** ** The filter *)
Definition filter_kind (g1 g2 : F) : Z :=
  if g1 <ᶠ g2 then
    if f0 <ᶠ g1 then
      if g2 <ᶠ flit 45 (-2) then 0 else if g1 <ᶠ flit 45 (-2) then 2 else 3
    else if g2 <ᶠ flit 45 (-2) then 1 else 3
  else if (f0 <ᶠ g2) && (g1 <ᶠ flit 45 (-2)) then 4 else 3.

Definition rand_filter (rb : randBlock) (dt g1 g2 : F) : randBlock :=
  let two := fofZ 2 in
  let four := fofZ 4 in
  let sw := filter_kind g1 g2 in
  let t1 := ltan (M_PI ⊗ g1) in
  let t2 := ltan (M_PI ⊗ g2) in
  let sq x := x ⊗ x in
  let low1 := (two ⊖ two ⊗ t1) ⊘ (f1 ⊕ t1) in
  let low2 := fneg (sq (f1 ⊖ t1)) ⊘ sq (f1 ⊕ t1) in
  let up1 := (two ⊖ two ⊗ t2) ⊘ (f1 ⊕ t2) in
  let up2 := fneg (sq (f1 ⊖ t2)) ⊘ sq (f1 ⊕ t2) in
  let '(bs, as_) :=
    if sw =? 0 then
      let G1 := (sq (t1 ⊕ t2) ⊕ four ⊗ t1 ⊗ t1) ⊘ sq (t1 ⊕ t2) in
      let G2 := (sq (t1 ⊕ t2) ⊕ four ⊗ t2 ⊗ t2) ⊘ (four ⊗ t2 ⊗ t2) in
      let b0 := G1 ⊘ sq (f1 ⊕ t1) in
      let b3 := (t2 ⊗ t2 ⊗ G2) ⊘ sq (f1 ⊕ t2) in
      ([b0; fneg two ⊗ b0; b0; b3; two ⊗ b3; b3], [f0; low1; low2; f0; up1; up2])
    else if sw =? 1 then
      let b0 := t2 ⊗ t2 ⊘ sq (f1 ⊕ t2) in
      ([b0; two ⊗ b0; b0; b0; two ⊗ b0; b0], [f0; up1; up2; f0; up1; up2])
    else if sw =? 2 then
      let b0 := f1 ⊘ sq (f1 ⊕ t1) in
      ([b0; fneg two ⊗ b0; b0; b0; fneg two ⊗ b0; b0], [f0; low1; low2; f0; low1; low2])
    else if sw =? 4 then
      let d := f1 ⊕ t1 ⊖ t2 ⊕ t1 ⊗ t2 in
      let b0 := (f1 ⊕ t1 ⊗ t2) ⊘ d in
      let b1 := (fneg two ⊕ two ⊗ t1 ⊗ t2) ⊘ d in
      let a1 := (two ⊖ two ⊗ t1 ⊗ t2) ⊘ d in
      let a2 := fneg (f1 ⊖ t1 ⊕ t2 ⊕ t1 ⊗ t2) ⊘ d in
      ([b0; b1; b0; b0; b1; b0], [f0; a1; a2; f0; a1; a2])
    else ([f1; f0; f0; f1; f0; f0], replicate 6 f0) in
  set_filter (replicate 6 f0) bs as_ 0 rb.

(** One stage; the second is reached by the recursive call of the first. *)
Definition filter_stage (rb : randBlock) (u : F) (stage : nat) : list F * F :=
  let sc := Z.to_nat (shift_count rb) in
  let zero := (sc mod 3 + 3 * stage)%nat in
  let one := ((sc + 1) mod 3 + 3 * stage)%nat in
  let two := ((sc + 2) mod 3 + 3 * stage)%nat in
  let reg := shift_reg rb in
  let reg := <[zero := u ⊕ a rb !!! (1 + 3 * stage)%nat ⊗ reg !!! one ⊕ a rb !!! (2 + 3 * stage)%nat ⊗ reg !!! two]> reg in
  (reg, b rb !!! (0 + 3 * stage)%nat ⊗ reg !!! zero ⊕ b rb !!! (1 + 3 * stage)%nat ⊗ reg !!! one
        ⊕ b rb !!! (2 + 3 * stage)%nat ⊗ reg !!! two).
Definition rand_filter_calc (rb : randBlock) (u : F) : randBlock * F :=
  let '(reg, x) := filter_stage rb u 0 in
  let rb := set_filter reg (b rb) (a rb) (shift_count rb) rb in
  let '(reg, x) := filter_stage rb x 1 in
  (set_filter reg (b rb) (a rb) ((shift_count rb + 5) mod 3) rb, x).

Definition urand_filter_r (now : Z) (rb : randBlock) (lo hi : F) : randBlock * F :=
  let '(rb, x) := urand_r now rb lo hi in rand_filter_calc rb x.
Definition nrand_filter_r (fuel : nat) (now : Z) (rb : randBlock) (m s : F) : option (randBlock * F) :=
  '(rb, x) ← nrand_r fuel now rb m s;
  Some (rand_filter_calc rb x).
End defs.
Arguments randBlock : clear implicits.

(** ** The update of the seed *)
Lemma next_seed_mod s : 0 <= s < 2 ^ 32 → next_seed s = (RAND_IA * s) mod RAND_IM.
Proof.
  intros Hs. unfold next_seed. rewrite Z.quot_div_nonneg by (unfold RAND_IQ; lia).
  set (k := s / RAND_IQ). pose proof (Z.div_mod s RAND_IQ ltac:(done)) as Hd. pose proof (Z.mod_pos_bound s RAND_IQ ltac:(done)) as Hm.
  fold k in Hd. unfold RAND_IA, RAND_IM, RAND_IQ, RAND_IR in *.
  assert (0 <= k <= 33614) by lia.
  destruct (Z.ltb_spec (16807 * (s - k * 127773) - 2836 * k) 0) as [Hn|Hn].
  - apply (Z.mod_unique _ _ (k - 1)); lia.
  - apply (Z.mod_unique _ _ k); lia.
Qed.

Definition good (s : Z) : Prop := 0 < s < RAND_IM.

Lemma IA_invertible : (1407677000 * RAND_IA) mod RAND_IM = 1.
Proof. reflexivity. Qed.

Lemma next_seed_good s : 0 <= s < 2 ^ 32 → s mod RAND_IM ≠ 0 → good (next_seed s).
Proof.
  intros Hs Hn. rewrite next_seed_mod by done. pose proof (Z.mod_pos_bound (RAND_IA * s) RAND_IM ltac:(done)) as Hb.
  assert ((RAND_IA * s) mod RAND_IM ≠ 0); [|unfold good; lia]. intros E. apply Hn.
  rewrite <- (Z.mul_1_l s), Z.mul_mod, <- IA_invertible, Z.mod_mod, <- Z.mul_mod by done.
  by rewrite <- Z.mul_assoc, Z.mul_mod, E, Z.mul_0_r.
Qed.

Lemma good_mod s : good s → 0 <= s < 2 ^ 32 ∧ s mod RAND_IM ≠ 0.
Proof. unfold good. intros Hs. rewrite Z.mod_small by lia. split; [|lia]. unfold RAND_IM in Hs. lia. Qed.

Lemma next_seed_keeps s : good s → good (next_seed s).
Proof. intros Hs. apply good_mod in Hs as [??]. by apply next_seed_good. Qed.

Lemma next_seed_iter n s : good s → Nat.iter n next_seed s = (RAND_IA ^ Z.of_nat n * s) mod RAND_IM ∧ good (Nat.iter n next_seed s).
Proof.
  intros Hs. induction n as [|n [IH Hg]].
  - cbn [Nat.iter]. rewrite Z.pow_0_r, Z.mul_1_l, Z.mod_small by (unfold good in Hs; lia). done.
  - rewrite Nat.iter_succ. split; [|by apply next_seed_keeps].
    rewrite next_seed_mod by (by apply good_mod). rewrite IH, Z.mul_mod_idemp_r by done.
    rewrite Nat2Z.inj_succ, Z.pow_succ_r by lia. f_equal. lia.
Qed.

(** *** Primes, by trial division *)
Fixpoint no_divisor (n : nat) (p d : Z) : bool :=
  match n with
  | O => p <? d * d
  | S n => (p <? d * d) || negb (p mod d =? 0) && no_divisor n p (d + 1)
  end.

Lemma no_divisor_spec n p d e : 1 < d → no_divisor n p d = true → d <= e → e * e <= p → ¬ (e | p).
Proof.
  revert d. induction n as [|n IH]; intros d Hd Hb He Hp; cbn [no_divisor] in Hb.
  - apply Z.ltb_lt in Hb. nia.
  - apply orb_true_iff in Hb as [Hb|Hb]; [apply Z.ltb_lt in Hb; nia|]. apply andb_true_iff in Hb as [Hm Hb].
    destruct (decide (e = d)) as [->|Hn].
    + intros Hdiv. apply Z.mod_divide in Hdiv; [|lia]. rewrite Hdiv in Hm. done.
    + apply (IH (d + 1)); (done || lia).
Qed.

Lemma trial_prime n p : 1 < p → no_divisor n p 2 = true → Z.prime p.
Proof.
  intros Hp Hb. split; [done|]. intros e He [m Hm].
  destruct (Z.le_gt_cases (e * e) p) as [Hs|Hs].
  - apply (no_divisor_spec n p 2 e); [lia|done|lia|done|]. by exists m.
  - apply (no_divisor_spec n p 2 m); [lia|done|nia|nia|]. exists e. lia.
Qed.

Lemma prime_IM : Z.prime RAND_IM.
Proof. apply (trial_prime (Z.to_nat 46341)); [done|]. vm_compute. reflexivity. Qed.

(** *** The order of the multiplier

    The primes that divide [RAND_IM - 1]. *)
Definition order_primes : list Z := [2; 3; 7; 11; 31; 151; 331].
Lemma order_primes_prime : Forall Z.prime order_primes.
Proof. repeat (apply Forall_cons_2; [by apply (trial_prime 20)|]). apply Forall_nil_2. Qed.

Lemma order_factor d m : d * m = RAND_IM - 1 → 1 < m → ∃ q, q ∈ order_primes ∧ (q | m).
Proof.
  intros E Hm. destruct (decide (Exists (λ q, m mod q = 0) order_primes)) as [Hx|Hx].
  - apply Exists_exists in Hx as (q & Hq & Hmq). exists q. split; [done|]. apply Z.mod_divide; [|done].
    pose proof (Z.prime_ge_2 q (proj1 (Forall_forall _ _) order_primes_prime q Hq)). lia.
  - exfalso. apply not_Exists_Forall in Hx; [|apply _].
    assert (Hr : Forall (λ q, Z.coprime m q) order_primes).
    { apply Forall_forall. intros q Hq. pose proof (proj1 (Forall_forall _ _) order_primes_prime q Hq) as Hp.
      symmetry. apply Z.coprime_prime_l; [done|]. intros Hd. apply (proj1 (Forall_forall _ _) Hx q Hq).
      apply Z.mod_divide; [|done]. pose proof (Z.prime_ge_2 q Hp). lia. }
    unfold order_primes in Hr. decompose_Forall_hyps.
    assert (Hone : Z.coprime m (RAND_IM - 1)).
    { change (RAND_IM - 1) with (2 * (3 * (3 * (7 * (11 * (31 * (151 * 331))))))). by repeat apply Z.coprime_mul_r. }
    assert (Hd1 : (m | 1)).
    { apply (Z.gauss m (RAND_IM - 1) 1); [|done]. rewrite Z.mul_1_r. exists d. lia. }
    apply Z.divide_1_r_nonneg in Hd1; lia.
Qed.

Lemma power_of_order d m : 0 <= d → 0 <= m → RAND_IA ^ d mod RAND_IM = 1 → RAND_IA ^ (d * m) mod RAND_IM = 1.
Proof.
  intros Hd Hm E. by rewrite Z.pow_mul_r, <- Z.mod_pow_l, E, Z.pow_1_l.
Qed.

Lemma order_IA d : 0 < d < RAND_IM - 1 → RAND_IA ^ d mod RAND_IM ≠ 1.
Proof.
  assert (Hfull : RAND_IA ^ (RAND_IM - 1) mod RAND_IM = 1).
  { rewrite <- Zpow_mod_correct by done. vm_compute. reflexivity. }
  induction (Z.lt_wf 0 d) as [d _ IH]. intros Hd E.
  set (N := RAND_IM - 1) in *. pose proof (Z.div_mod N d ltac:(lia)) as Hdm. pose proof (Z.mod_pos_bound N d ltac:(lia)) as Hb.
  assert (Hq : 0 <= N / d) by (apply Z.div_pos; lia).
  destruct (Z.eq_dec (N mod d) 0) as [Ez|Hn].
  - assert (Hm : 1 < N / d) by nia. destruct (order_factor d (N / d)) as (q & Hqin & [m Hqm]); [subst N; lia|done|].
    assert (Hq2 : 2 <= q) by apply (Z.prime_ge_2 q (proj1 (Forall_forall _ _) order_primes_prime q Hqin)).
    assert (Hs : N / q = d * m) by (symmetry; apply (Z.div_unique _ _ _ 0); nia).
    assert (Hc : Forall (λ q, Zpow_mod RAND_IA (N / q) RAND_IM ≠ 1) order_primes).
    { subst N. unfold order_primes. repeat (apply Forall_cons_2; [by vm_compute|]). apply Forall_nil_2. }
    apply (proj1 (Forall_forall _ _) Hc q Hqin). rewrite Zpow_mod_correct by done. rewrite Hs.
    apply power_of_order; [lia|nia|done].
  - apply (IH (N mod d)); [lia|lia|].
    rewrite Hdm, Z.pow_add_r, Z.mul_mod, power_of_order, Z.mul_1_l, Z.mod_mod in Hfull by (done || lia || nia). done.
Qed.

(** *** The table *)
Section table.
Context {F : Type} `{FloatOps F, Libm F}.

Definition ready (rb : randBlock F) : Prop :=
  good (seed rb) ∧ good (lastr rb) ∧ length (itab rb) = 32%nat ∧ Forall good (itab rb).
(** A block in use, or one that was zeroed. *)
Definition usable (now : Z) (rb : randBlock F) : Prop :=
  ready rb ∨ (seed rb = 0 ∧ length (itab rb) = 32%nat ∧ first_seed now rb mod RAND_IM ≠ 0).

Lemma warm_up_spec n s tab :
  0 <= s < 2 ^ 32 → s mod RAND_IM ≠ 0 →
  ∃ s' tab', warm_up n s tab = (s', tab') ∧ length tab' = length tab ∧ ((0 < n)%nat → good s') ∧
    (∀ k, (k < n)%nat → (k < 32)%nat → (k < length tab)%nat → good (tab' !!! k)) ∧
    (∀ k, (n <= k)%nat → tab' !!! k = tab !!! k).
Proof.
  revert s tab. induction n as [|n IH]; intros s tab Hs Hn; cbn [warm_up].
  - exists s, tab. split; [done|]. split; [done|]. split; [lia|]. split; [lia|done].
  - pose proof (next_seed_good s Hs Hn) as Hg. destruct (good_mod _ Hg) as [Hg1 Hg2].
    set (tab1 := if (n <? 32)%nat then <[n := next_seed s]> tab else tab).
    assert (Hl : length tab1 = length tab) by (unfold tab1; case_match; rewrite ?length_insert; done).
    destruct (IH (next_seed s) tab1 Hg1 Hg2) as (s' & tab' & E & Hlen & Hgs & Hlow & Hhigh).
    exists s', tab'. rewrite E. split; [done|]. split; [congruence|]. split; [|split].
    + intros _. destruct n; [|apply Hgs; lia]. cbn [warm_up] in E. by injection E as <- <-.
    + intros k Hk Hk32 Hkl. destruct (decide (k = n)) as [->|Hkn]; [|apply Hlow; lia].
      rewrite Hhigh by lia. unfold tab1. rewrite (proj2 (Nat.ltb_lt n 32)) by done.
      by rewrite list_lookup_total_insert_eq.
    + intros k Hk. rewrite Hhigh by lia. unfold tab1. case_match; [|done]. rewrite list_lookup_total_insert_ne by lia. done.
Qed.

Lemma first_seed_range now (rb : randBlock F) : seed rb = 0 → 0 <= first_seed now rb < 2 ^ 32.
Proof.
  intros E. unfold first_seed. rewrite E. change (0 =? 0) with true. cbv iota.
  change 0xFFFFFFFF with (Z.ones 32). rewrite Z.land_ones by done. by apply Z.mod_pos_bound.
Qed.

Lemma rand_init_ready now (rb : randBlock F) : usable now rb → ready (rand_init now rb).
Proof.
  intros [Hr|(E & Hl & Hn)]; unfold rand_init.
  - destruct (Z.leb_spec (seed rb) 0); [|done]. destruct Hr as [[? _] _]. lia.
  - rewrite E. change (0 <=? 0) with true. cbv iota.
    destruct (warm_up_spec 40 (first_seed now rb) (itab rb) (first_seed_range now rb E) Hn)
      as (s' & tab' & -> & Hlen & Hgs & Hlow & _).
    assert (Hall : ∀ k, (k < 32)%nat → good (tab' !!! k)) by (intros k Hk; apply Hlow; lia).
    split; [apply Hgs; lia|]. split; [apply Hall; lia|]. cbn [itab set_gen]. split; [congruence|].
    apply (proj2 (Forall_lookup_total _ _)). intros k Hk. apply Hall. lia.
Qed.

Lemma rand_index_bound (rb : randBlock F) : ready rb → 0 <= rand_index rb < RAND_NTAB.
Proof.
  intros (_ & Hl & _). unfold rand_index, good in *. change RAND_NDIV with (2 ^ 26). unfold RAND_IM in Hl.
  rewrite Z.quot_div_nonneg by lia. change RAND_NTAB with 32.
  split; [apply Z.div_pos; lia|apply Z.div_lt_upper_bound; lia].
Qed.

Lemma urand_keeps now (rb : randBlock F) lo hi : usable now rb → ready (urand_r now rb lo hi).1.
Proof.
  intros Hu. pose proof (rand_init_ready now rb Hu) as Hr. pose proof (rand_index_bound _ Hr) as Hi.
  destruct Hr as (Hs & Hl & Hn & Ht). unfold urand_r. cbn [fst]. split; [by apply next_seed_keeps|]. split; [|split].
  - cbn [lastr set_gen]. apply (proj1 (Forall_lookup_total _ _) Ht). change RAND_NTAB with 32 in Hi. lia.
  - cbn [itab set_gen]. by rewrite length_insert.
  - cbn [itab set_gen]. apply Forall_insert; [done|]. by apply next_seed_keeps.
Qed.
End table.

(** ** The rotating register

    A section in direct form II; [shift_reg] holds the histories of the two
    sections, whose newest entry [shift_count] turns. *)
Section register.
Context {F : Type} `{FloatOps F, Libm F}.

Definition section2 (c : F * F * F * F * F) (h : F * F) (u : F) : F * (F * F) :=
  let '(b0, b1, b2, a1, a2) := c in
  let '(w1, w2) := h in
  let w := u ⊕ a1 ⊗ w1 ⊕ a2 ⊗ w2 in
  (b0 ⊗ w ⊕ b1 ⊗ w1 ⊕ b2 ⊗ w2, (w, w1)).
Definition section_coef (rb : randBlock F) (k : nat) : F * F * F * F * F :=
  (b rb !!! (0 + 3 * k)%nat, b rb !!! (1 + 3 * k)%nat, b rb !!! (2 + 3 * k)%nat,
   a rb !!! (1 + 3 * k)%nat, a rb !!! (2 + 3 * k)%nat).
Definition section_hist (rb : randBlock F) (k : nat) : F * F :=
  let sc := Z.to_nat (shift_count rb) in
  (shift_reg rb !!! ((sc + 1) mod 3 + 3 * k)%nat, shift_reg rb !!! ((sc + 2) mod 3 + 3 * k)%nat).
Definition two_sections (c1 c2 : F * F * F * F * F) (h : (F * F) * (F * F)) (u : F) : F * ((F * F) * (F * F)) :=
  let '(x, h1) := section2 c1 h.1 u in
  let '(y, h2) := section2 c2 h.2 x in (y, (h1, h2)).
Fixpoint two_sections_run (c1 c2 : F * F * F * F * F) (h : (F * F) * (F * F)) (us : list F) : list F :=
  match us with
  | [] => []
  | u :: us => let '(y, h) := two_sections c1 c2 h u in y :: two_sections_run c1 c2 h us
  end.
Fixpoint rand_filter_run (rb : randBlock F) (us : list F) : list F :=
  match us with
  | [] => []
  | u :: us => let '(rb, y) := rand_filter_calc rb u in y :: rand_filter_run rb us
  end.
Definition register_ok (rb : randBlock F) : Prop := length (shift_reg rb) = 6%nat ∧ 0 <= shift_count rb < 3.

Lemma rand_filter_calc_step (rb : randBlock F) u :
  register_ok rb →
  let '(rb', y) := rand_filter_calc rb u in
  (y, (section_hist rb' 0, section_hist rb' 1)) =
    two_sections (section_coef rb 0) (section_coef rb 1) (section_hist rb 0, section_hist rb 1) u ∧
  register_ok rb' ∧ section_coef rb' 0 = section_coef rb 0 ∧ section_coef rb' 1 = section_coef rb 1.
Proof.
  destruct rb as [s l tab nc nx reg bs as_ sc]. intros [Hl Hs]. cbn [shift_reg shift_count] in Hl, Hs.
  do 6 (destruct reg as [|? reg]; [done|]). destruct reg; [|done].
  assert (sc = 0 ∨ sc = 1 ∨ sc = 2) as [-> | [-> | ->]] by lia; (split; [reflexivity|]); (split; [by split|]); done.
Qed.

Lemma rand_filter_run_sections (rb : randBlock F) us :
  register_ok rb →
  rand_filter_run rb us =
    two_sections_run (section_coef rb 0) (section_coef rb 1) (section_hist rb 0, section_hist rb 1) us.
Proof.
  revert rb. induction us as [|u us IH]; intros rb Hr; [done|]. cbn [rand_filter_run two_sections_run].
  pose proof (rand_filter_calc_step rb u Hr) as Hs. destruct (rand_filter_calc rb u) as [rb' y].
  destruct Hs as (<- & Hr' & E0 & E1). f_equal. by rewrite IH, E0, E1.
Qed.

Lemma rand_filter_register (rb : randBlock F) dt g1 g2 : register_ok (rand_filter rb dt g1 g2).
Proof. unfold rand_filter. case_match. split; [done|]. cbn. lia. Qed.
End register.

(** ** On the reals *)
Open Scope R_scope.
Lemma unit_interval (l : Z) : good l → 0 < RAND_AM ⊗ fofZ l < 1.
Proof.
  intros [Hl Hh]. unfold RAND_AM. rops. apply IZR_lt in Hl, Hh. unfold RAND_IM in *.
  split.
  - apply Rmult_lt_0_compat; lra.
  - apply Rmult_lt_reg_l with (2147483647); lra.
Qed.

Lemma scaled_between (x lo hi : R) : 0 < x < 1 → lo < hi → lo < x * (hi - lo) + lo < hi.
Proof. intros [Hx0 Hx1] Hlh. nra. Qed.

(** a uniform number. On a zeroed block, once the microsecond of the clock
    is no multiple of 2^31 - 1, and on every block that was drawn from, the
    shuffle table is read inside its 32 entries, the number lies strictly between
    the limits, and the block can be drawn from again. *)
Theorem urand_range (now : Z) (rb : randBlock R) (lo hi : R) :
  usable now rb → lo < hi →
  let '(rb', x) := urand_r now rb lo hi in
  ready rb' ∧ (0 <= rand_index (rand_init now rb) < RAND_NTAB)%Z ∧ lo < x < hi.
Proof.
  intros Hu Hlh. pose proof (urand_keeps now rb lo hi Hu) as Hk. pose proof (rand_init_ready now rb Hu) as Hr.
  pose proof (rand_index_bound _ Hr) as Hi. destruct Hr as (_ & _ & Hn & Ht). revert Hk. unfold urand_r. cbn [fst].
  intros Hk. split; [exact Hk|]. split; [exact Hi|].
  assert (Hg : good (itab (rand_init now rb) !!! Z.to_nat (rand_index (rand_init now rb)))).
  { apply (proj1 (Forall_lookup_total _ _) Ht). change RAND_NTAB with 32%Z in Hi. lia. }
  pose proof (unit_interval _ Hg) as Hx.
  assert (Hrn : 0 < RAND_RNMX < 1) by (unfold RAND_RNMX; rops; simpl; lra).
  destruct (_ >ᶠ _); by apply scaled_between.
Qed.

Lemma urand_range_witness :
  let '(rb', x) := urand_r 5000 (zero_block (F := R)) (-1) 1 in
  ready rb' ∧ (0 <= rand_index (rand_init 5000 (zero_block (F := R))) < RAND_NTAB)%Z ∧ -1 < x < 1.
Proof. apply (urand_range 5000 zero_block (-1) 1); [right; repeat split; vm_compute; congruence|lra]. Defined.
Close Scope R_scope.

(** the sequence of seeds. Updated by parts, without a product above 31
    bits, the seed is multiplied by [RAND_IA] modulo the prime 2^31 - 1; it is
    never zero, and it does not come back before 2^31 - 2 updates. *)
Theorem seed_sequence (s : Z) (n : nat) :
  good s → 0 < Z.of_nat n < RAND_IM - 1 →
  (0 <= RAND_IA * Z.rem s RAND_IQ < 2 ^ 31 ∧ 0 <= RAND_IR * Z.quot s RAND_IQ < 2 ^ 31) ∧
  Nat.iter n next_seed s = (RAND_IA ^ Z.of_nat n * s) mod RAND_IM ∧
  good (Nat.iter n next_seed s) ∧ Nat.iter n next_seed s ≠ s.
Proof.
  intros Hs Hn. destruct (next_seed_iter n s Hs) as [E Hg]. split; [|split; [done|split; [done|]]].
  - unfold good, RAND_IM, RAND_IA, RAND_IQ, RAND_IR in *. rewrite Z.quot_div_nonneg, Z.rem_mod_nonneg by lia.
    pose proof (Z.mod_pos_bound s 127773 ltac:(done)). pose proof (Z.div_mod s 127773 ltac:(done)). lia.
  - rewrite E. intros Es. apply (order_IA (Z.of_nat n) Hn). unfold good in Hs.
    assert (Hd : (RAND_IM | (RAND_IA ^ Z.of_nat n - 1) * s)).
    { apply Z.mod_divide; [done|]. rewrite Z.mul_sub_distr_r, Z.mul_1_l, Zminus_mod, Es, (Z.mod_small s), Z.sub_diag by lia. done. }
    apply Z.divide_prime_mul in Hd as [Hd|Hd]; [| |apply prime_IM].
    + apply Z.mod_divide in Hd; [|done]. replace (RAND_IA ^ Z.of_nat n) with (RAND_IA ^ Z.of_nat n - 1 + 1) by lia.
      by rewrite Z.add_mod, Hd by done.
    + apply Z.divide_pos_le in Hd; lia.
Qed.

Lemma seed_sequence_witness :
  (0 <= RAND_IA * Z.rem 5 RAND_IQ < 2 ^ 31 ∧ 0 <= RAND_IR * Z.quot 5 RAND_IQ < 2 ^ 31) ∧
  Nat.iter 3 next_seed 5 = (RAND_IA ^ Z.of_nat 3 * 5) mod RAND_IM ∧
  good (Nat.iter 3 next_seed 5) ∧ Nat.iter 3 next_seed 5 ≠ 5.
Proof. apply (seed_sequence 5 3); [done|vm_compute; done]. Defined.

(** the noise filter. Whatever the kind of filter, the numbers that leave
    the rotating register are those of two second-order sections in a row that
    start at rest. *)
Theorem rotating_register {F} `{FloatOps F, Libm F} (rb : randBlock F) (dt g1 g2 : F) (us : list F) :
  let rb' := rand_filter rb dt g1 g2 in
  rand_filter_run rb' us =
    two_sections_run (section_coef rb' 0) (section_coef rb' 1) ((f0, f0), (f0, f0)) us.
Proof.
  intros rb'. rewrite rand_filter_run_sections by apply rand_filter_register.
  assert (Hh : ∀ k, (k < 2)%nat → section_hist rb' k = (f0, f0)).
  { intros k Hk. unfold rb', rand_filter, section_hist. case_match. cbn [shift_reg shift_count set_filter].
    destruct k as [|[|k]]; [done|done|lia]. }
  by rewrite !Hh by lia.
Qed.

End GdsRand.
