(* ===== verification/AwgFunc.v ===== *)
(** * Waveform components ([src/gds/awgfunc.c], [src/gds/awgtype.h])

    The arbitrary waveform generator adds up _components_, each a signal with a
    start, a duration, a restart time and ramps at both ends.

    - [AWG_Component]; [RAMP_TYPE] and its inverses;
    - the signal and ramp functions [awgPeriodicSignal], [awgPhaseIn],
      [awgPhaseOut], [awgSweepOut], and the filter section [awgSOS];
    - the makers of components, among them [awgSweepComponents];
    - [awgIsValidComponent], [awgBinarySearch] and [awgSortComponents], on which
      the component lists of [Awg] rest.

    Functions of the mathematical library are those of the class [Libm]. *)
From S2P Require Import Prelude CFloat Iir GdsRand.
Import Iir.

Module AwgFunc.
Abbreviation s64 := (swrap 64).

Definition awgNone : Z := 0.
Definition awgSine : Z := 1.
Definition awgSquare : Z := 2.
Definition awgRamp : Z := 3.
Definition awgTriangle : Z := 4.
Definition awgImpulse : Z := 5.
Definition awgConst : Z := 6.
Definition awgNoiseN : Z := 7.
Definition awgNoiseU : Z := 8.
Definition awgArb : Z := 9.
Definition awgStream : Z := 10.

Definition AWG_PHASING_STEP : Z := 0.
Definition AWG_PHASING_LINEAR : Z := 1.
Definition AWG_PHASING_QUADRATIC : Z := 2.
Definition AWG_PHASING_LOG : Z := 3.
Definition RAMP_TYPE (PItype POtype SWtype : Z) : Z :=
  Z.lor (Z.lor (Z.land PItype 0x000F) (Z.shiftl (Z.land POtype 0x000F) 4)) (Z.shiftl (Z.land SWtype 0x000F) 12).
Definition PHASE_IN_TYPE (ramptype : Z) : Z := Z.land ramptype 0x000F.
Definition PHASE_OUT_TYPE (ramptype : Z) : Z := Z.shiftr (Z.land ramptype 0x00F0) 4.
Definition SWEEP_OUT_TYPE (ramptype : Z) : Z := Z.shiftr (Z.land ramptype 0xF000) 12.

Definition AWG_SWEEP_LOG : Z := 0x200.
Definition AWG_SWEEP_CYCLE : Z := 0x400.
Definition AWG_SWEEP_ONCE : Z := 0x800.

Definition NUMBER_OF_EPOCHS : Z := 16.
Definition _ONESEC : Z := 1000000000.
Definition _EPOCH : Z := Z.quot _ONESEC NUMBER_OF_EPOCHS.
Definition _ONEDAY : Z := 24 * (3600 * _ONESEC).

Section defs.
Context {F : Type} `{FloatOps F, Libm F}.

Definition PI : F := flit 31415926535897932384626433832795029 (-34).
Definition EULER_E : F := flit 27182818284590452353602874713526625 (-34).
Definition TWO_PI : F := fofZ 2 ⊗ PI.
Definition TWO_OVER_PI : F := fofZ 2 ⊘ PI.
Definition __ONESEC : F := fofZ _ONESEC.

(** Times are in nanoseconds; [duration] < 0 is for ever, [restart] <= 0 never. *)
Record AWG_Component := mkComp {
  wtype : Z; par : list F; start : Z; duration : Z; restart : Z; ramptype : Z; ramptime : list Z; ramppar : list F
}.
Definition set_start (v : Z) (c : AWG_Component) : AWG_Component :=
  mkComp (wtype c) (par c) v (duration c) (restart c) (ramptype c) (ramptime c) (ramppar c).
Definition set_restart (v : Z) (c : AWG_Component) : AWG_Component :=
  mkComp (wtype c) (par c) (start c) (duration c) v (ramptype c) (ramptime c) (ramppar c).
Definition set_duration (v : Z) (c : AWG_Component) : AWG_Component :=
  mkComp (wtype c) (par c) (start c) v (restart c) (ramptype c) (ramptime c) (ramppar c).
Definition set_wtype (v : Z) (c : AWG_Component) : AWG_Component :=
  mkComp v (par c) (start c) (duration c) (restart c) (ramptype c) (ramptime c) (ramppar c).
Definition set_par (v : list F) (c : AWG_Component) : AWG_Component :=
  mkComp (wtype c) v (start c) (duration c) (restart c) (ramptype c) (ramptime c) (ramppar c).
Definition zero_comp : AWG_Component := mkComp awgNone (replicate 4 f0) 0 0 0 0 [0; 0] (replicate 4 f0).
#[export] Instance comp_inhabited : Inhabited AWG_Component := populate zero_comp.

(** ** Signals *)
Definition fMod (x y : F) : F := x ⊖ y ⊗ lfloor (x ⊘ y).
Definition normPhase (phi : F) : F := if (phi ≥ᶠ f0) && (phi <ᶠ TWO_PI) then phi else fMod phi TWO_PI.

(** [(double)(long)x] *)
Definition to_long (x : F) : F := fofZ (f_to_sint 64 x).
Definition startPhase (f t dphi : F) : F :=
  let tint := to_long t in
  let fint := to_long f in
  normPhase (TWO_PI ⊗ (f ⊗ (t ⊖ tint) ⊕ tint ⊗ (f ⊖ fint)) ⊖ dphi).

Definition awgPeriodicSignal (wtype : Z) (A ofs phi : F) : F :=
  if wtype =? awgSine then A ⊗ lsin phi ⊕ ofs
  else if wtype =? awgSquare then if normPhase phi <ᶠ PI then A ⊕ ofs else fneg A ⊕ ofs
  else if wtype =? awgRamp then A ⊗ (normPhase phi ⊘ TWO_PI) ⊕ ofs
  else if wtype =? awgTriangle then
    let x := normPhase phi in
    if x <ᶠ PI then A ⊗ (x ⊗ TWO_OVER_PI ⊖ f1) ⊕ ofs else A ⊗ (fofZ 3 ⊖ x ⊗ TWO_OVER_PI) ⊕ ofs
  else if wtype =? awgConst then ofs
  else f0.

(** [None] when the fuel of [nrand_r] runs out. *)
Definition awgNoiseSignal (fuel : nat) (now : Z) (wtype : Z) (A ofs : F) (rbp : GdsRand.randBlock F)
  : option (GdsRand.randBlock F * F) :=
  if wtype =? awgNoiseN then GdsRand.nrand_filter_r fuel now rbp ofs A
  else if wtype =? awgNoiseU then Some (GdsRand.urand_filter_r now rbp (ofs ⊖ A) (ofs ⊕ A))
  else Some (rbp, f0).

Definition awgPhaseIn (rtype : Z) (t tPI : F) : F :=
  if rtype =? AWG_PHASING_STEP then f0
  else if rtype =? AWG_PHASING_LINEAR then t ⊘ tPI
  else if (rtype =? AWG_PHASING_QUADRATIC) || (rtype =? AWG_PHASING_LOG) then
    let q := t ⊘ tPI in
    let q := q ⊗ q in
    fneg q ⊗ q ⊕ fofZ 2 ⊗ q
  else f0.

Definition POWER (x y : F) : F := lexp (llog x ⊗ y).
Definition awgPhaseOut (rtype : Z) (t tPO c : F) : F :=
  if rtype =? AWG_PHASING_STEP then f1
  else if rtype =? AWG_PHASING_LINEAR then f1 ⊖ (f1 ⊖ c) ⊗ (t ⊘ tPO)
  else if rtype =? AWG_PHASING_QUADRATIC then
    let q := t ⊘ tPO in
    let q := q ⊗ q in
    f1 ⊕ (f1 ⊖ c) ⊗ (q ⊗ q ⊖ fofZ 2 ⊗ q)
  else if rtype =? AWG_PHASING_LOG then if c =ᶠ f0 then f0 else POWER (fabs c) (t ⊘ tPO)
  else f0.

Definition awgSweepOut (rtype : Z) (t tPO f df dphi : F) : F :=
  if rtype =? AWG_PHASING_STEP then f0
  else if (rtype =? AWG_PHASING_LINEAR) || (rtype =? AWG_PHASING_QUADRATIC) then
    (t ⊘ tPO) ⊗ (TWO_PI ⊗ df ⊗ t ⊖ dphi)
  else if rtype =? AWG_PHASING_LOG then
    let q := t ⊘ tPO in
    (TWO_PI ⊗ f ⊗ tPO ⊗ POWER df q ⊖ dphi) ⊗ q
  else f0.

(** [productLog]: the start value, then at most ten steps of Newton's method. *)
Definition product_start (z : F) : F :=
  if z <ᶠ flit 2 (-1) then z
  else if z <ᶠ fofZ 3 then lsqrt z ⊘ fofZ 2
  else if z ≤ᶠ flit 1 3 then llog z ⊘ flit 133 (-2)
  else if z ≤ᶠ flit 1 6 then llog z ⊘ flit 122 (-2)
  else llog z ⊘ flit 117 (-2).
Fixpoint product_newton (n : nat) (z w : F) : F :=
  match n with
  | O => w
  | S n =>
      let dw := (w ⊖ z ⊗ lexp (fneg w)) ⊘ (f1 ⊕ w) in
      if fabs dw <ᶠ flit 1 (-8) ⊗ w then w ⊖ dw else product_newton n z (w ⊖ dw)
  end.
Definition productLog (z : F) : F := if z ≤ᶠ f0 then f0 else product_newton 10 z (product_start z).

(** The body of the loop of [awgSOS] on a sample [x]: the output, in single
    precision, and the histories. *)
Definition awg_sos_step (b1 b2 a1 a2 : F) (x : F) (h : F * F) : F * (F * F) :=
  let '(hzm1, hzm2) := h in
  let hzzero := x ⊖ hzm1 ⊗ a1 ⊖ hzm2 ⊗ a2 in
  (fsingle (hzzero ⊕ hzm1 ⊗ b1 ⊕ hzm2 ⊗ b2), (hzzero, hzm1)).
Fixpoint awgSOS (x : list F) (b1 b2 a1 a2 : F) (h : F * F) : list F * (F * F) :=
  match x with
  | [] => ([], h)
  | v :: x =>
      let '(y, h) := awg_sos_step b1 b2 a1 a2 v h in
      let '(ys, h) := awgSOS x b1 b2 a1 a2 h in (y :: ys, h)
  end.

(** ** Making components

    The time is given; the variants that take the present time are these at
    [TAInow()]. *)
Definition sweep_one (t d : Z) (fa fb a1 a2 : F) (flag : Z) : option AWG_Component :=
  if (t <? 0) || (d <=? 0) || (fa <ᶠ f0) || (fb <ᶠ f0) || (a1 <ᶠ f0) || (a2 <ᶠ f0) then None
  else Some (mkComp awgSine [fabs a1; fa; f0; f0] t d (if Z.land flag AWG_SWEEP_ONCE =? 0 then d else 0)
    (if Z.land flag AWG_SWEEP_LOG =? 0 then RAMP_TYPE AWG_PHASING_STEP AWG_PHASING_LINEAR AWG_PHASING_LINEAR
     else RAMP_TYPE AWG_PHASING_STEP AWG_PHASING_LOG AWG_PHASING_LOG)
    [0; d] [fabs a2; fb; f0; f0]).

(** [None] is the return of -1; [flag & ~AWG_SWEEP_CYCLE] ends the recursion of
    the source after one level. *)
Definition awgSweepComponents (t d : Z) (fa fb a1 a2 : F) (flag : Z) : option (list AWG_Component) :=
  if negb (Z.land flag AWG_SWEEP_CYCLE =? 0) then
    let flag' := Z.land flag (Z.lnot AWG_SWEEP_CYCLE) in
    c0 ← sweep_one t (Z.quot d 2) fa fb a1 a2 flag';
    c1 ← sweep_one (t + Z.quot d 2) (Z.quot d 2) fb fa a2 a1 flag';
    Some (if Z.land flag AWG_SWEEP_ONCE =? 0 then [set_restart d c0; set_restart d c1] else [c0; c1])
  else (λ c, [c]) <$> sweep_one t d fa fb a1 a2 flag.

Definition day_phase (f : F) (st : Z) : F := lfmod (TWO_PI ⊗ f ⊗ fofZ (Z.rem st _ONEDAY) ⊘ __ONESEC) TWO_PI.
Definition awgPeriodicComponentEx (wt t0 : Z) (f A phi ofs : F) : option AWG_Component :=
  if negb ((wt =? awgSine) || (wt =? awgRamp) || (wt =? awgSquare) || (wt =? awgTriangle) || (wt =? awgArb) || (wt =? awgImpulse))
     || (f ≤ᶠ f0) then None
  else
    let st := if (wt =? awgImpulse) && (f ≤ᶠ f0) then t0 + 4 * _EPOCH else t0 in
    let st := if (wt =? awgImpulse) && (f >ᶠ f0) then _ONESEC * Z.quot st _ONESEC else st in
    let phi := if negb (wt =? awgArb) && negb (wt =? awgImpulse) then phi ⊖ day_phase f st else phi in
    Some (mkComp wt [A; f; phi; ofs] st (-1) (-1) 0 [0; 0] (replicate 4 f0)).
Definition awgConstantComponentEx (t0 : Z) (ofs : F) : AWG_Component :=
  mkComp awgConst [f0; f0; f0; ofs] t0 (-1) (-1) 0 [0; 0] (replicate 4 f0).
Definition awgSquareWaveComponentEx (now t0 : Z) (f A phi ofs ratio : F) : option (AWG_Component * AWG_Component) :=
  if (f ≤ᶠ f0) || (ratio <ᶠ f0) then None
  else
    c0 ← awgPeriodicComponentEx awgImpulse t0 f (fofZ 2 ⊗ A) (ratio ⊘ f) f0;
    let c1 := awgConstantComponentEx now (fneg A ⊕ ofs) in
    let shift := __ONESEC ⊗ fneg (lfmod (f ⊗ fofZ (Z.rem (start c0) _ONEDAY) ⊘ __ONESEC) f1) ⊘ f
                 ⊕ __ONESEC ⊗ (fMod (phi ⊘ TWO_PI) f1 ⊖ f1) ⊘ f ⊕ flit 5 (-1) in
    let c0 := set_start (start c0 + f_to_sint 64 shift) c0 in
    Some (c0, set_start (start c0) c1).
Definition awgNoiseComponentEx (wt t0 : Z) (fa fb A ofs : F) : option AWG_Component :=
  if negb ((wt =? awgNoiseN) || (wt =? awgNoiseU)) then None
  else Some (mkComp wt [fabs A; if fa ≤ᶠ f0 then f0 else fa; if fb ≤ᶠ f0 then flit 1 15 else fb; ofs]
               t0 (-1) (-1) 0 [0; 0] (replicate 4 f0)).
Definition awgStreamComponentEx (t0 : Z) (scaling : F) : AWG_Component :=
  mkComp awgStream [scaling; f0; f0; f0] t0 (-1) (-1) 0 [0; 0] (replicate 4 f0).

(** ** Validity *)
Definition par_ok (c : AWG_Component) : bool :=
  let p k := par c !!! k in
  let r k := ramppar c !!! k in
  if (wtype c =? awgSine) || (wtype c =? awgSquare) || (wtype c =? awgRamp) || (wtype c =? awgTriangle) then
    negb ((p 0%nat <ᶠ f0) || (p 1%nat <ᶠ f0)) && negb ((r 0%nat <ᶠ f0) || (r 1%nat <ᶠ f0))
  else if wtype c =? awgImpulse then negb ((p 1%nat <ᶠ f0) || (p 2%nat <ᶠ f0) || (p 3%nat <ᶠ f0))
  else if wtype c =? awgConst then true
  else if (wtype c =? awgNoiseN) || (wtype c =? awgNoiseU) then
    negb ((p 0%nat <ᶠ f0) || (p 1%nat <ᶠ f0) || (p 2%nat <ᶠ f0)) &&
    negb ((r 0%nat <ᶠ f0) || (r 1%nat <ᶠ f0) || (r 2%nat <ᶠ f0))
  else if wtype c =? awgArb then
    negb ((p 1%nat <ᶠ f0) || (p 2%nat <ᶠ f0)) &&
    negb ((f_to_int (p 3%nat ⊕ flit 5 (-1)) <? 0) || (2 <? f_to_int (p 3%nat ⊕ flit 5 (-1))))
  else wtype c =? awgStream.

Definition awgIsValidComponent (c : AWG_Component) : bool :=
  if wtype c =? awgNone then true
  else
    par_ok c && negb (start c <? 0) &&
    negb ((PHASE_IN_TYPE (ramptype c) <? 0) || (AWG_PHASING_QUADRATIC <? PHASE_IN_TYPE (ramptype c)) ||
          (PHASE_OUT_TYPE (ramptype c) <? 0) || (AWG_PHASING_LOG <? PHASE_OUT_TYPE (ramptype c)) ||
          (SWEEP_OUT_TYPE (ramptype c) <? 0) || (AWG_PHASING_LOG <? SWEEP_OUT_TYPE (ramptype c)) ||
          (SWEEP_OUT_TYPE (ramptype c) =? AWG_PHASING_QUADRATIC)) &&
    negb ((ramptime c !!! 0%nat <? 0) || (ramptime c !!! 1%nat <? 0)).

(** ** Searching and sorting by start time

    [awgBinarySearch]: the loop takes the number of components as fuel. *)
Fixpoint search_loop (fuel : nat) (l : list AWG_Component) (s : Z) (jl ju : nat) : option (nat * nat) :=
  if (1 <? ju - jl)%nat then
    match fuel with
    | O => None
    | S fuel =>
        let jm := ((ju + jl) / 2)%nat in
        if s <? start (l !!! jm) then search_loop fuel l s jl jm else search_loop fuel l s jm ju
    end
  else Some (jl, ju).
Definition awgBinarySearch (l : list AWG_Component) (c : AWG_Component) : option nat :=
  if (length l =? 0)%nat then Some 0%nat
  else
    '(jl, ju) ← search_loop (length l) l (start c) 0 (length l);
    Some (if start c <? start (l !!! jl) then jl else ju).

(** The inner loop of the heap sort: the array and the place [i] of the hole
    into which [cp] goes. *)
Fixpoint sift (fuel : nat) (a : list AWG_Component) (cp : AWG_Component) (ir i j : nat)
  : option (list AWG_Component * nat) :=
  if (j <=? ir)%nat then
    match fuel with
    | O => None
    | S fuel =>
        let j := if (j <? ir)%nat && (start (a !!! j) <? start (a !!! (j + 1)%nat)) then (j + 1)%nat else j in
        if start cp <? start (a !!! j) then sift fuel (<[i := a !!! j]> a) cp ir j (2 * j + 1)
        else Some (a, i)
    end
  else Some (a, i).
Definition sift_down (a : list AWG_Component) (cp : AWG_Component) (ir l : nat) : option (list AWG_Component) :=
  '(a, i) ← sift (S ir) a cp ir l (2 * l + 1);
  Some (<[i := cp]> a).

Fixpoint sort_loop (fuel : nat) (a : list AWG_Component) (l ir : nat) : option (list AWG_Component) :=
  match fuel with
  | O => None
  | S fuel =>
      if (0 <? l)%nat then
        let l := (l - 1)%nat in
        a ← sift_down a (a !!! l) ir l;
        sort_loop fuel a l ir
      else
        let cp := a !!! ir in
        let a := <[ir := a !!! 0%nat]> a in
        let ir := (ir - 1)%nat in
        if (ir =? 0)%nat then Some (<[0%nat := cp]> a)
        else a ← sift_down a cp ir 0; sort_loop fuel a 0 ir
  end.
Definition awgSortComponents (l : list AWG_Component) : option (list AWG_Component) :=
  if (length l <? 2)%nat then Some l
  else sort_loop (2 * length l) l (length l / 2) (length l - 1).

End defs.
Arguments AWG_Component : clear implicits.

(** ** The search

    On a list in order of start time, the place behind all components that do not
    start later. *)
Section search.
Context {F : Type} `{FloatOps F, Libm F}.
Local Abbreviation Comp := (AWG_Component F).

Definition ordered (l : list Comp) : Prop :=
  ∀ i j : nat, (i < j < length l)%nat → start (l !!! i) <= start (l !!! j).

Lemma search_loop_finds fuel (l : list Comp) s jl ju :
  ordered l → (ju - jl <= S fuel)%nat → (jl < ju <= length l)%nat →
  ((0 < jl)%nat → start (l !!! jl) <= s) → ((ju < length l)%nat → s < start (l !!! ju)) →
  ∃ k, search_loop fuel l s jl ju = Some (k, S k) ∧ (S k <= length l)%nat ∧
    ((0 < k)%nat → start (l !!! k) <= s) ∧ ((S k < length l)%nat → s < start (l !!! S k)).
Proof.
  intros Hl. revert jl ju. induction fuel as [|fuel IH]; intros jl ju Hf Hj Hlo Hhi; cbn [search_loop].
  - rewrite (proj2 (Nat.ltb_ge 1 (ju - jl))) by lia. exists jl. replace ju with (S jl) in * by lia. split; [done|]. split; [lia|done].
  - destruct (Nat.ltb_spec 1 (ju - jl)) as [Hlt|Hge].
    + set (jm := ((ju + jl) / 2)%nat). assert (Hjm : (jl < jm < ju)%nat).
      { pose proof (Nat.div_mod_eq (ju + jl) 2). pose proof (Nat.mod_upper_bound (ju + jl) 2 ltac:(done)). subst jm. lia. }
      destruct (Z.ltb_spec s (start (l !!! jm))); apply IH; lia || done || (intros; lia).
    + exists jl. replace ju with (S jl) in * by lia. split; [done|]. split; [lia|done].
Qed.

Lemma search_place (l : list Comp) c :
  ordered l → ∃ k, awgBinarySearch l c = Some k ∧ (k <= length l)%nat ∧
    (∀ i, (i < k)%nat → start (l !!! i) <= start c) ∧ (∀ i, (k <= i < length l)%nat → start c < start (l !!! i)).
Proof.
  intros Hl. unfold awgBinarySearch. destruct (Nat.eqb_spec (length l) 0) as [E|E].
  - exists 0%nat. split; [done|]. split; [lia|]. split; intros; lia.
  - destruct (search_loop_finds (length l) l (start c) 0 (length l) Hl) as (k & -> & Hk & Hlo & Hhi); [lia..|].
    cbn [mbind option_bind].
    assert (Hafter : ∀ i, (S k <= i < length l)%nat → start c < start (l !!! i)).
    { intros i Hi. destruct (decide (i = S k)) as [->|Hn]; [apply Hhi; lia|].
      pose proof (Hhi ltac:(lia)). pose proof (Hl (S k) i ltac:(lia)). lia. }
    destruct (Z.ltb_spec (start c) (start (l !!! k))) as [Hlt|Hge].
    + exists k. split; [done|]. split; [lia|]. split.
      * intros i Hi. exfalso. pose proof (Hlo ltac:(lia)). lia.
      * intros i Hi. destruct (decide (i = k)) as [->|Hn]; [done|]. apply Hafter. lia.
    + exists (S k). split; [done|]. split; [lia|]. split; [|done].
      intros i Hi. destruct (decide (i = k)) as [->|Hn]; [done|]. pose proof (Hl i k ltac:(lia)). lia.
Qed.
End search.
End AwgFunc.
