(* ===== verification/AwgSort.v ===== *)
(** * The heap sort of component lists ([src/gds/awgfunc.c], [AwgFunc.v])

    [awgSortComponents] orders a list by start time and keeps its components,
    and its loops end.  The inner loop moves a hole down the heap; the array with
    the component in hand in the hole is what the lemmas are about. *)
From S2P Require Import Prelude CFloat Iir AwgFunc.
Import AwgFunc.

Module AwgSort.

(** ** Exchanging two elements of a list *)
Section exchange.
Context {A : Type} `{!Inhabited A}.

Definition exchange (i j : nat) (l : list A) : list A := <[i := l !!! j]> (<[j := l !!! i]> l).

Lemma exchange_lookup i j l k :
  (i < length l)%nat → (j < length l)%nat →
  exchange i j l !!! k = l !!! (if decide (k = i) then j else if decide (k = j) then i else k).
Proof.
  intros Hi Hj. unfold exchange. rewrite lookup_total_insert by (by rewrite length_insert).
  destruct (decide (k = i)); [done|]. rewrite lookup_total_insert by done. by destruct (decide (k = j)).
Qed.

Lemma exchange_perm i j l : (i < length l)%nat → (j < length l)%nat → exchange i j l ≡ₚ l.
Proof.
  intros Hi Hj. apply Permutation_inj. split; [unfold exchange; by rewrite !length_insert|].
  exists (λ k, if decide (k = i) then j else if decide (k = j) then i else k). split.
  - intros x y. repeat case_decide; intros; subst; congruence.
  - intros k. assert (Hl : length (exchange i j l) = length l) by (unfold exchange; by rewrite !length_insert).
    destruct (decide (k < length l)%nat) as [Hk|Hk].
    + rewrite !list_lookup_lookup_total_lt by (rewrite ?Hl; repeat case_decide; lia). f_equal.
      by apply exchange_lookup.
    + rewrite !lookup_ge_None_2 by (rewrite ?Hl; repeat case_decide; lia). done.
Qed.
End exchange.

Section sort.
Context {F : Type} `{FloatOps F, Libm F}.
Local Abbreviation Comp := (AWG_Component F).
Implicit Types (a b : list Comp).

Definition key (a : list Comp) (k : nat) : Z := start (a !!! k).
Definition child (k c : nat) : Prop := c = (2 * k + 1)%nat ∨ c = (2 * k + 2)%nat.

(** From place [lo] on, no component up to [ir] starts later than its parent; and
    the same but for the children of [i], which are not later than the parent
    of [i]. *)
Definition heap_from (a : list Comp) (lo ir : nat) : Prop :=
  ∀ k c, (lo <= k)%nat → child k c → (c <= ir)%nat → key a c <= key a k.
Definition heap_but (a : list Comp) (lo ir i : nat) : Prop :=
  (∀ k c, (lo <= k)%nat → k ≠ i → child k c → (c <= ir)%nat → key a c <= key a k) ∧
  (∀ k c, (lo <= k)%nat → child k i → child i c → (c <= ir)%nat → key a c <= key a k).

(** What moving the hole keeps: the rest of the array, and which components are
    up to [ir]. *)
Definition rearranged (ir : nat) (a b : list Comp) : Prop :=
  b ≡ₚ a ∧ (∀ k, (ir < k)%nat → b !!! k = a !!! k) ∧ ∀ k, (k <= ir)%nat → ∃ k', (k' <= ir)%nat ∧ b !!! k = a !!! k'.

Lemma rearranged_refl ir a : rearranged ir a a.
Proof. split; [done|]. split; [done|]. intros k Hk. by exists k. Qed.
Lemma rearranged_trans ir a b c : rearranged ir a b → rearranged ir b c → rearranged ir a c.
Proof.
  intros (P1 & S1 & E1) (P2 & S2 & E2). split; [by rewrite P2|]. split.
  - intros k Hk. by rewrite S2, S1.
  - intros k Hk. destruct (E2 k Hk) as (k' & Hk' & ->). apply (E1 k' Hk').
Qed.
Lemma rearranged_exchange ir i j a :
  (ir < length a)%nat → (i <= ir)%nat → (j <= ir)%nat → rearranged ir a (exchange i j a).
Proof.
  intros Hl Hi Hj. split; [apply exchange_perm; lia|]. split; intros k Hk; rewrite exchange_lookup by lia.
  - by rewrite !decide_False by lia.
  - exists (if decide (k = i) then j else if decide (k = j) then i else k). split; [repeat case_decide; lia|done].
Qed.

(** Filling the hole at [i] after [a[i] = a[j]] is the exchange of the two. *)
Lemma hole_moves a cp i j :
  (i < length a)%nat → (j < length a)%nat → i ≠ j →
  <[j := cp]> (<[i := a !!! j]> a) = exchange i j (<[i := cp]> a).
Proof.
  intros Hi Hj Hn. unfold exchange. rewrite list_lookup_total_insert_eq, list_lookup_total_insert_ne by done.
  rewrite (list_insert_insert_ne (<[i := cp]> a) i j) by done. by rewrite list_insert_insert_eq, list_insert_insert_ne.
Qed.

Lemma sift_spec fuel a cp ir i lo :
  (ir < length a)%nat → (lo <= i <= ir)%nat → (ir < i + fuel)%nat → heap_but (<[i := cp]> a) lo ir i →
  ∃ a' i', sift fuel a cp ir i (2 * i + 1) = Some (a', i') ∧
    heap_from (<[i' := cp]> a') lo ir ∧ rearranged ir (<[i := cp]> a) (<[i' := cp]> a') ∧
    length a' = length a.
Proof.
  revert a i. induction fuel as [|fuel IH]; intros a i Hir Hi Hf [Hb Hp]; [lia|]. cbn [sift].
  set (b := <[i := cp]> a) in *.
  assert (Hbi : key b i = start cp) by (unfold key, b; rewrite list_lookup_total_insert_eq by lia; done).
  assert (Hbk : ∀ k, k ≠ i → b !!! k = a !!! k) by (intros k Hk; unfold b; by rewrite list_lookup_total_insert_ne).
  destruct (Nat.leb_spec (2 * i + 1) ir) as [Hj|Hj].
  - set (j := if (2 * i + 1 <? ir)%nat && (start (a !!! (2 * i + 1)%nat) <? start (a !!! (2 * i + 1 + 1)%nat))
              then (2 * i + 1 + 1)%nat else (2 * i + 1)%nat).
    assert (Hjc : child i j ∧ (j <= ir)%nat ∧ ∀ c, child i c → (c <= ir)%nat → key b c <= key b j).
    { unfold j, key. destruct (Nat.ltb_spec (2 * i + 1) ir); cbn [andb].
      - destruct (Z.ltb_spec (start (a !!! (2 * i + 1)%nat)) (start (a !!! (2 * i + 1 + 1)%nat)));
          (split; [unfold child; lia|]); (split; [lia|]); intros c [-> | ->] Hc; rewrite !Hbk by lia;
          replace (2 * i + 2)%nat with (2 * i + 1 + 1)%nat by lia; lia.
      - split; [unfold child; lia|]. split; [lia|]. intros c [-> | ->] Hc; [lia|lia]. }
    destruct Hjc as (Hjc & Hjir & Hmax). assert (Hij : (i < j)%nat) by (destruct Hjc; lia).
    destruct (Z.ltb_spec (start cp) (start (a !!! j))) as [Hlt|Hge].
    + assert (Eb : <[j := cp]> (<[i := a !!! j]> a) = exchange i j b) by (apply hole_moves; lia).
      assert (Hlen : length b = length a) by (unfold b; by rewrite length_insert).
      assert (Hx : ∀ k, exchange i j b !!! k = b !!! (if decide (k = i) then j else if decide (k = j) then i else k))
        by (intros k; apply exchange_lookup; lia).
      destruct (IH (<[i := a !!! j]> a) j) as (a' & i' & E & Hh & Hr & Hl); [by rewrite length_insert|lia|lia| |].
      { rewrite Eb. split.
        - intros k c Hk Hkj Hc Hcir. unfold key. rewrite !Hx.
          destruct (decide (k = i)) as [->|Hki].
          + destruct (decide (c = i)) as [->|]; [destruct Hc; lia|]. destruct (decide (c = j)) as [->|].
            * fold (key b i) (key b j). rewrite Hbi. unfold key. rewrite Hbk by lia. lia.
            * by apply Hmax.
          + rewrite (decide_False (P := k = j)) by done. destruct (decide (c = i)) as [->|Hci].
            * apply Hp; try done.
            * rewrite (decide_False (P := c = j)); [by apply Hb|]. intros ->. destruct Hjc, Hc; lia.
        - intros k c Hk Hkj Hc Hcir. unfold key. rewrite !Hx.
          assert (k = i) as -> by (destruct Hkj, Hjc; lia). rewrite (decide_True (P := i = i)) by done.
          rewrite (decide_False (P := c = i)), (decide_False (P := c = j)) by (destruct Hc; lia).
          apply Hb; [lia|lia|done|done]. }
      exists a', i'. split; [exact E|]. split; [exact Hh|]. rewrite length_insert in Hl. split; [|done].
      apply (rearranged_trans _ _ (exchange i j b)); [by apply rearranged_exchange; lia|by rewrite <- Eb].
    + exists a, i. split; [done|]. fold b. split; [|split; [apply rearranged_refl|done]].
      intros k c Hk Hc Hcir. destruct (decide (k = i)) as [->|Hn]; [|by apply Hb].
      rewrite Hbi. pose proof (Hmax c Hc Hcir). unfold key in *. rewrite (Hbk j) in * by lia. lia.
  - exists a, i. split; [done|]. fold b. split; [|split; [apply rearranged_refl|done]].
    intros k c Hk Hc Hcir. apply Hb; [done| |done|done]. intros ->. destruct Hc; lia.
Qed.

Lemma sift_down_spec a cp ir i lo :
  (ir < length a)%nat → (lo <= i <= ir)%nat → heap_but (<[i := cp]> a) lo ir i →
  ∃ a', sift_down a cp ir i = Some a' ∧ heap_from a' lo ir ∧ rearranged ir (<[i := cp]> a) a' ∧ length a' = length a.
Proof.
  intros Hir Hi Hb. unfold sift_down. destruct (sift_spec (S ir) a cp ir i lo Hir Hi ltac:(lia) Hb) as (a' & i' & -> & Hh & Hr & Hl).
  cbn [mbind option_bind]. exists (<[i' := cp]> a'). by rewrite length_insert.
Qed.

(** The root of a heap starts last. *)
Lemma heap_max a ir k : heap_from a 0 ir → (k <= ir)%nat → key a k <= key a 0.
Proof.
  intros Hh. induction (lt_wf k) as [k _ IH]. intros Hk. destruct (decide (k = 0)%nat) as [->|Hn]; [lia|].
  set (p := ((k - 1) / 2)%nat). assert (Hp : (p < k)%nat ∧ child p k).
  { pose proof (Nat.div_mod_eq (k - 1) 2). pose proof (Nat.mod_upper_bound (k - 1) 2 ltac:(done)). subst p. unfold child. lia. }
  pose proof (IH p ltac:(lia) ltac:(lia)). pose proof (Hh p k ltac:(lia) (proj2 Hp) Hk). lia.
Qed.

(** The second phase: up to [ir] a heap, behind it in order, and nothing of the
    heap later than what is behind. *)
Definition sorted_behind (a : list Comp) (ir : nat) : Prop :=
  heap_from a 0 ir ∧ (∀ i j, (ir < i < j)%nat → (j < length a)%nat → key a i <= key a j) ∧
  (∀ i j, (i <= ir < j)%nat → (j < length a)%nat → key a i <= key a j).

Lemma sort_second fuel a ir :
  (1 <= ir < length a)%nat → (ir <= fuel)%nat → sorted_behind a ir →
  ∃ a', sort_loop fuel a 0 ir = Some a' ∧ ordered a' ∧ a' ≡ₚ a.
Proof.
  revert a ir. induction fuel as [|fuel IH]; intros a ir Hir Hf (Hh & Hs & Hps); [lia|]. cbn [sort_loop].
  change (0 <? 0)%nat with false. cbv iota.
  set (b := <[0%nat := a !!! ir]> (<[ir := a !!! 0%nat]> a)).
  assert (Eb : b = exchange 0 ir a) by done.
  assert (Hx : ∀ k, b !!! k = a !!! (if decide (k = 0%nat) then ir else if decide (k = ir) then 0%nat else k))
    by (intros k; rewrite Eb; apply exchange_lookup; lia).
  assert (Hlb : length b = length a) by (unfold b; by rewrite !length_insert).
  assert (Hpre : ∀ k, (k <= ir)%nat → key b k <= key a 0).
  { intros k Hk. unfold key at 1. rewrite Hx. fold (key a (if decide (k = 0%nat) then ir else if decide (k = ir) then 0%nat else k)).
    apply heap_max with ir; [done|]. repeat case_decide; lia. }
  assert (Hsuf : ∀ k, (ir < k)%nat → key b k = key a k).
  { intros k Hk. unfold key. by rewrite Hx, !decide_False by lia. }
  assert (Hbir : key b ir = key a 0).
  { unfold key. rewrite Hx, decide_False, decide_True by lia. done. }
  assert (Hperm : b ≡ₚ a) by (rewrite Eb; apply exchange_perm; lia).
  destruct (Nat.eqb_spec (ir - 1) 0) as [E|E].
  - exists b. split; [done|]. split; [|done]. intros i j Hij. fold (key b i) (key b j). rewrite Hlb in Hij.
    assert (ir = 1%nat) as -> by lia. destruct (decide (j = 1%nat)) as [->|Hj].
    + rewrite Hbir. apply Hpre. lia.
    + rewrite (Hsuf j) by lia. destruct (decide (i <= 1)%nat) as [Hi|Hi].
      * pose proof (Hpre i Hi). pose proof (Hps 0%nat j ltac:(lia) ltac:(lia)). lia.
      * rewrite (Hsuf i) by lia. apply Hs; lia.
  - destruct (sift_down_spec (<[ir := a !!! 0%nat]> a) (a !!! ir) (ir - 1) 0 0) as (a' & -> & Hh' & (Hp' & Hs' & He') & Hl').
    { rewrite length_insert. lia. }
    { lia. }
    { fold b. split; [|intros k c _ [?|?]; lia]. intros k c _ Hk Hc Hcir. unfold key. rewrite !Hx.
      rewrite !decide_False by (destruct Hc; lia). apply Hh; [lia|done|lia]. }
    rewrite length_insert in Hl'. fold b in Hp', Hs', He'. cbn [mbind option_bind].
    destruct (IH a' (ir - 1)%nat) as (a2 & E2 & Ho & Hp2); [lia|lia| |].
    { split; [done|]. split.
      - intros i j Hij Hj. unfold key. rewrite !Hs' by lia. fold (key b i) (key b j). rewrite (Hsuf j) by lia.
        destruct (decide (i = ir)) as [->|]; [rewrite Hbir; apply Hps; lia|rewrite Hsuf by lia; apply Hs; lia].
      - intros i j Hij Hj. destruct (He' i ltac:(lia)) as (k' & Hk' & Ei). unfold key. rewrite Ei, (Hs' j) by lia.
        fold (key b k') (key b j). pose proof (Hpre k' ltac:(lia)).
        destruct (decide (j = ir)) as [->|]; [rewrite Hbir; apply Hpre; lia|]. rewrite (Hsuf j) by lia. pose proof (Hps 0%nat j ltac:(lia) ltac:(lia)). lia. }
    exists a2. split; [done|]. split; [done|]. by rewrite Hp2, Hp', Hperm.
Qed.

Lemma sort_first fuel a l :
  (2 <= length a)%nat → (l + length a <= S fuel)%nat → heap_from a l (length a - 1) →
  ∃ a', sort_loop fuel a l (length a - 1) = Some a' ∧ ordered a' ∧ a' ≡ₚ a.
Proof.
  revert fuel a. induction l as [|l IH]; intros fuel a Hl Hf Hh.
  - apply sort_second; [lia|lia|]. split; [done|]. split; intros; lia.
  - destruct fuel as [|fuel]; [lia|]. cbn [sort_loop]. rewrite (proj2 (Nat.ltb_lt 0 (S l))) by lia.
    replace (S l - 1)%nat with l by lia.
    destruct (decide (l < length a)%nat) as [Hla|Hla].
    + assert (Ei : <[l := a !!! l]> a = a) by (apply list_insert_id; by apply list_lookup_lookup_total_lt).
      destruct (sift_down_spec a (a !!! l) (length a - 1) l l) as (a' & -> & Hh' & (Hp' & _) & Hl'); [lia|lia| |].
      { rewrite Ei. split; [|intros k c Hk [?|?]; lia]. intros k c Hk Hn Hc Hcir. apply Hh; [lia|done|done]. }
      rewrite Ei in Hp'. cbn [mbind option_bind].
      destruct (IH fuel a') as (a2 & E2 & Ho & Hp2); [lia|lia|by rewrite Hl'|].
      rewrite Hl' in E2. exists a2. split; [done|]. split; [done|]. by rewrite Hp2.
    + assert (Es : sift_down a (a !!! l) (length a - 1) l = Some a).
      { unfold sift_down. cbn [sift]. rewrite (proj2 (Nat.leb_gt _ _)) by lia. cbn [mbind option_bind].
        by rewrite list_insert_ge by lia. }
      rewrite Es. cbn [mbind option_bind]. apply IH; [done|lia|]. intros k c Hk [->| ->] Hc; lia.
Qed.

(** A list sorted by start time keeps its components, whatever it was. *)
Lemma sort_sorts (l : list Comp) : ∃ l', awgSortComponents l = Some l' ∧ ordered l' ∧ l' ≡ₚ l.
Proof.
  unfold awgSortComponents. destruct (Nat.ltb_spec (length l) 2) as [Hl|Hl].
  - exists l. split; [done|]. split; [|done]. intros i j Hij. lia.
  - apply sort_first; [lia| |].
    + pose proof (Nat.div_mod_eq (length l) 2). lia.
    + pose proof (Nat.div_mod_eq (length l) 2). pose proof (Nat.mod_upper_bound (length l) 2 ltac:(done)).
      intros k c Hk [->| ->] Hc; lia.
Qed.

End sort.
End AwgSort.
