(* ===== verification/Awg.v ===== *)
(** * Waveform generators: slots and commands ([src/gds/awg.c])

    The bank of nine generators: each _slot_ is bound to an output channel and
    holds a list of components in order of their start, a gain, a filter and a
    buffer of sixteen seconds for waveforms sent as a stream.

    - [AWG_ConfigBlock], [streambufpage_t], [filter_coeff_t] and the state
      [Bank] of all three arrays;
    - the commands a client reaches through the server: [getIndexAWG],
      [releaseIndexAWG], [awgLock], [resetAWG], [disableAWG], [enableAWG],
      [addWaveformAWG], [setWaveformAWG], [sendWaveformAWG], [stopWaveformAWG],
      [queryWaveformAWG], [setGainAWG], [setFilterAWG];
    - [retireAWGComp], which drops what has expired.

    A command returns the new state and the value of the C function; [None] is
    a trap (a division by zero, [abort]) or an access outside an array.  The
    functions are those of the build for Unix front ends, [RMEM_LAYOUT] 2, whose
    test point pages grow with [sys_freq_mult].  The mutexes are not modelled: a
    command is one step.  Fields are left out which only the configuration file
    sets ([optr], [oname]) or another layout reads ([rmem]). *)
From S2P Require Import Prelude CFloat Iir GdsRand AwgFunc.
Import Iir AwgFunc.

Module Awg.

Definition MAX_NUM_AWG : nat := 9.
Definition MAX_NUM_AWG_COMPONENTS : Z := 5000.
Definition MAX_INVALID_COMPONENTS : Z := 10.
Definition MAX_STREAM_BUFFER : Z := 16.
Definition MAX_AWG_SOS : nat := 20.

Definition AWG_CONFIG : Z := 0x01.
Definition AWG_IN_USE : Z := 0x02.
Definition AWG_ENABLE : Z := 0x04.

Definition awgLSCtp : Z := 1.
Definition awgASCtp : Z := 2.
Definition awgDAC : Z := 3.
Definition awgDS340 : Z := 4.
Definition awgFile : Z := 5.
Definition awgMem : Z := 6.

Definition TP_LSC_EX_INTERFACE : Z := 0.
Definition TP_ASC_EX_INTERFACE : Z := 1.
Definition TP_LSC_TP_INTERFACE : Z := 2.
Definition TP_ASC_TP_INTERFACE : Z := 3.
Definition TP_DAC_INTERFACE : Z := 100.
Definition TP_DS340_INTERFACE : Z := 101.
Definition TP_ID_LSC_TP_OFS : Z := 10000.
Definition TP_ID_ASC_EX_OFS : Z := 20000.
Definition TP_ID_ASC_TP_OFS : Z := 30000.
Definition TP_ID_DAC_OFS : Z := 40000.
Definition TP_ID_DS340_OFS : Z := 50000.
Definition TP_ID_END_OFS : Z := 60000.
Definition TP_ID_TO_INTERFACE (a : Z) : Z :=
  if a =? 0 then -1
  else if a <? TP_ID_LSC_TP_OFS then TP_LSC_EX_INTERFACE
  else if a <? TP_ID_ASC_EX_OFS then TP_LSC_TP_INTERFACE
  else if a <? TP_ID_ASC_TP_OFS then TP_ASC_EX_INTERFACE
  else if a <? TP_ID_DAC_OFS then TP_ASC_TP_INTERFACE
  else if a <? TP_ID_DS340_OFS then TP_DAC_INTERFACE
  else if a <? TP_ID_END_OFS then TP_DS340_INTERFACE
  else -1.

Definition _LSCTP_PAGE (sys_freq_mult : Z) : Z := 1024 * sys_freq_mult.
Definition _ASCTP_PAGE (sys_freq_mult : Z) : Z := 128 * sys_freq_mult.
Definition _DAC_PAGE : Z := 1024.

Definition GDS_ERR_NONE : Z := 0.
Definition GDS_ERR_PRM : Z := -2.
Definition GDS_ERR_FORMAT : Z := -5.

(** A list with [x] put in at place [k]; what [memmove] makes room for. *)
Definition insert_at {A} (k : nat) (x : A) (l : list A) : list A := take k l ++ x :: drop k l.

Section defs.
Context {F : Type} `{FloatOps F, Libm F}.
Local Abbreviation Comp := (AWG_Component F).
Local Abbreviation randBlock := (GdsRand.randBlock F).

Record AWG_Gain := mkGain {
  gstate : Z; value : F; gramptime : Z; current : F; old : F; rampstart : Z
}.
Definition unit_gain : AWG_Gain := mkGain 0 f1 0 f0 f0 0.

(** [comp] and [rb] hold the first [ncomp] entries of the arrays. *)
Record AWG_ConfigBlock := mkAwg {
  status : Z; otype : Z; delay : Z; ID : Z; pagesize : Z; rb : list randBlock; comp : list Comp;
  gain : AWG_Gain; wave : option (list F); tproc : Z; unbreakable : bool
}.
Definition ncomp (g : AWG_ConfigBlock) : Z := Z.of_nat (length (comp g)).
Definition has (bits : Z) (g : AWG_ConfigBlock) : bool := negb (Z.land (status g) bits =? 0).
Definition free_slot : AWG_ConfigBlock := mkAwg 0 awgNone 0 0 0 [] [] unit_gain None 0 false.
#[export] Instance awg_inhabited : Inhabited AWG_ConfigBlock := populate free_slot.

Record streambufpage_t := mkPage { ready : Z; time : Z; epoch : Z; pagelen : Z; buf : list F }.
#[export] Instance page_inhabited : Inhabited streambufpage_t := populate (mkPage 0 0 0 0 []).

(** [sos] and [hist] hold the first [nsos] entries of the arrays. *)
Record filter_coeff_t := mkFilter { valid : bool; fgain : F; sos : list (F * F * F * F); hist : list (F * F) }.
#[export] Instance filter_inhabited : Inhabited filter_coeff_t := populate (mkFilter false f0 [] []).

Record Bank := mkBank {
  AWG : list AWG_ConfigBlock; awgstream : list (list streambufpage_t); awgfilter : list filter_coeff_t
}.
Definition set_awg (i : nat) (g : AWG_ConfigBlock) (s : Bank) : Bank :=
  mkBank (<[i := g]> (AWG s)) (awgstream s) (awgfilter s).
Definition set_filter (i : nat) (c : filter_coeff_t) (s : Bank) : Bank :=
  mkBank (AWG s) (awgstream s) (<[i := c]> (awgfilter s)).
Definition slot (s : Bank) (i : Z) : AWG_ConfigBlock := AWG s !!! Z.to_nat i.
Definition in_bank (i : Z) : bool := (0 <=? i) && (i <? Z.of_nat MAX_NUM_AWG).

Definition set_comp (l : list Comp) (r : list randBlock) (g : AWG_ConfigBlock) : AWG_ConfigBlock :=
  mkAwg (status g) (otype g) (delay g) (ID g) (pagesize g) r l (gain g) (wave g) (tproc g) (unbreakable g).
Definition set_status (v : Z) (g : AWG_ConfigBlock) : AWG_ConfigBlock :=
  mkAwg v (otype g) (delay g) (ID g) (pagesize g) (rb g) (comp g) (gain g) (wave g) (tproc g) (unbreakable g).
Definition set_gain (v : AWG_Gain) (g : AWG_ConfigBlock) : AWG_ConfigBlock :=
  mkAwg (status g) (otype g) (delay g) (ID g) (pagesize g) (rb g) (comp g) v (wave g) (tproc g) (unbreakable g).
Definition set_wave (v : option (list F)) (g : AWG_ConfigBlock) : AWG_ConfigBlock :=
  mkAwg (status g) (otype g) (delay g) (ID g) (pagesize g) (rb g) (comp g) (gain g) v (tproc g) (unbreakable g).
Definition set_lock (v : bool) (g : AWG_ConfigBlock) : AWG_ConfigBlock :=
  mkAwg (status g) (otype g) (delay g) (ID g) (pagesize g) (rb g) (comp g) (gain g) (wave g) (tproc g) v.
Definition set_tproc (v : Z) (g : AWG_ConfigBlock) : AWG_ConfigBlock :=
  mkAwg (status g) (otype g) (delay g) (ID g) (pagesize g) (rb g) (comp g) (gain g) (wave g) v (unbreakable g).

(** ** Slots *)
Inductive Request := Bound (chnnum pagesize : Z) | Refused (ret : Z) | Aborts.
Definition awg_request (sys_freq_mult chntype id : Z) : Request :=
  if chntype =? awgLSCtp then
    if TP_ID_TO_INTERFACE id =? TP_LSC_EX_INTERFACE then Bound id (_LSCTP_PAGE sys_freq_mult) else Refused (-1)
  else if chntype =? awgASCtp then
    if TP_ID_TO_INTERFACE id =? TP_ASC_EX_INTERFACE then Bound id (_ASCTP_PAGE sys_freq_mult) else Refused (-1)
  else if chntype =? awgDAC then
    if TP_ID_TO_INTERFACE id =? TP_DAC_INTERFACE then Bound (id - TP_ID_DAC_OFS) _DAC_PAGE else Refused (-1)
  else if chntype =? awgDS340 then
    if TP_ID_TO_INTERFACE id =? TP_DS340_INTERFACE then Bound (id - TP_ID_DS340_OFS) 0 else Refused (-1)
  else if chntype =? awgMem then Aborts
  else Refused (-2).

(** The search: [inl i] is the duplicate found at [i], [inr] the last free slot. *)
Fixpoint slot_search (l : list AWG_ConfigBlock) (i : Z) (chntype chnnum pgsize ifree : Z) : Z + Z :=
  match l with
  | [] => inr ifree
  | g :: l =>
      if negb (has AWG_IN_USE g) then slot_search l (i + 1) chntype chnnum pgsize i
      else if (otype g =? chntype) && (ID g =? chnnum) && (pagesize g =? pgsize) then inl i
      else slot_search l (i + 1) chntype chnnum pgsize ifree
  end.
Definition getIndexAWG (sys_freq_mult : Z) (s : Bank) (chntype id arg1 : Z) : option (Bank * Z) :=
  match awg_request sys_freq_mult chntype id with
  | Aborts => None
  | Refused ret => Some (s, ret)
  | Bound chnnum pgsize =>
      match slot_search (AWG s) 0 chntype chnnum pgsize (-3) with
      | inl i => Some (s, i)
      | inr ifree =>
          if 0 <=? ifree then
            Some (set_awg (Z.to_nat ifree)
                    (mkAwg (Z.lor AWG_CONFIG (Z.lor AWG_IN_USE AWG_ENABLE)) chntype arg1 chnnum pgsize [] []
                       unit_gain (wave (slot s ifree)) (tproc (slot s ifree)) false) s, ifree)
          else Some (s, ifree)
      end
  end.

(** One slot of [releaseIndexAWG]. *)
Definition release_slot (i : nat) (s : Bank) : Bank :=
  let g := AWG s !!! i in
  if unbreakable g then s
  else
    let c := awgfilter s !!! i in
    set_filter i (mkFilter false (fgain c) (sos c) (hist c))
      (set_awg i (mkAwg 0 awgNone 0 0 0 [] [] unit_gain None (tproc g) false) s).
Definition releaseIndexAWG (s : Bank) (i : Z) : Bank * Z :=
  if i =? -1 then (for_up 0 MAX_NUM_AWG release_slot s, 0)
  else if negb (in_bank i) then (s, -1)
  else (release_slot (Z.to_nat i) s, 0).

Definition awgLock (lock : bool) (s : Bank) : Bank :=
  mkBank ((λ g, set_lock (lock && has AWG_IN_USE g) g) <$> AWG s) (awgstream s) (awgfilter s).

Definition reset_slot (g : AWG_ConfigBlock) : AWG_ConfigBlock :=
  if unbreakable g then g else set_wave None (set_comp [] [] g).
Definition resetAWG (s : Bank) (i : Z) : Bank * Z :=
  if negb (in_bank i) then (s, -1) else (set_awg (Z.to_nat i) (reset_slot (slot s i)) s, 0).

Definition disableAWG (s : Bank) (i : Z) : Bank * Z :=
  if negb (in_bank i) then (s, GDS_ERR_PRM)
  else (set_awg (Z.to_nat i) (set_status (Z.land (status (slot s i)) (Z.lnot AWG_ENABLE)) (slot s i)) s, GDS_ERR_NONE).
Definition enableAWG (s : Bank) (i : Z) : Bank * Z :=
  if negb (in_bank i) then (s, GDS_ERR_PRM)
  else if negb (has AWG_CONFIG (slot s i)) then (s, GDS_ERR_FORMAT)
  else (set_awg (Z.to_nat i) (set_status (Z.lor (status (slot s i)) AWG_ENABLE) (slot s i)) s, GDS_ERR_NONE).

(** ** Components *)
Definition LAST_TIME : Z := 0x7FFFFFFFFFFFFFFF.
Definition prepare_comp (t : Z) (cp : Comp) : Comp :=
  let cp :=
    if start cp <=? 0 then
      let cp := set_start (t + _EPOCH) cp in
      if (wtype cp =? awgSine) || (wtype cp =? awgRamp) || (wtype cp =? awgSquare) || (wtype cp =? awgTriangle)
      then set_par (<[2%nat := par cp !!! 2%nat ⊖ day_phase (par cp !!! 1%nat) (start cp)]> (par cp)) cp
      else cp
    else cp in
  let cp := if awgIsValidComponent cp then cp else set_wtype awgNone cp in
  let cp := if wtype cp =? awgNone then set_start LAST_TIME cp else cp in
  if negb (wtype cp =? awgNone) && (0 <? restart cp) && (0 <? duration cp) && (s64 (start cp + restart cp) <? t)
  then set_start (start cp + restart cp * Z.quot (t - start cp) (restart cp)) cp
  else cp.

Definition new_block (pgsize : Z) (cp : Comp) : randBlock :=
  let dt := f1 ⊘ fofZ (pgsize * NUMBER_OF_EPOCHS) in
  GdsRand.rand_filter GdsRand.zero_block dt (par cp !!! 1%nat ⊗ dt) (par cp !!! 2%nat ⊗ dt).

(** The loop that adds the prepared and sorted components [todo]: the lists and
    the number added. *)
Fixpoint add_loop (pgsize : Z) (todo cs : list Comp) (rbs : list randBlock) (n : Z)
  : option (list Comp * list randBlock * Z) :=
  match todo with
  | [] => Some (cs, rbs, n)
  | cp :: todo =>
      if (Z.of_nat (length cs) <? MAX_NUM_AWG_COMPONENTS) && negb (wtype cp =? awgNone) then
        cid ← awgBinarySearch cs cp;
        add_loop pgsize todo (insert_at cid cp cs) (insert_at cid (new_block pgsize cp) rbs) (n + 1)
      else Some (cs, rbs, n)
  end.
Definition addWaveformAWG (s : Bank) (i : Z) (comps : list Comp) : option (Bank * Z) :=
  if negb (in_bank i) then Some (s, -1)
  else
    let g := slot s i in
    if unbreakable g then Some (s, 0)
    else if negb (has AWG_CONFIG g) || negb (has AWG_IN_USE g) then Some (s, -10)
    else
      sorted ← awgSortComponents (prepare_comp (tproc g + _EPOCH) <$> comps);
      '(cs, rbs, n) ← add_loop (pagesize g) sorted (comp g) (rb g) 0;
      Some (set_awg (Z.to_nat i) (set_comp cs rbs g) s, n).

(** [y] is [None] for the null pointer; [memory] says whether [calloc] gets its
    memory. *)
Definition setWaveformAWG (memory : bool) (s : Bank) (i : Z) (y : option (list F)) (len : Z) : Bank * Z :=
  match y with
  | None => (s, -1)
  | Some y =>
      if negb (in_bank i) then (s, -1)
      else
        let g := slot s i in
        if unbreakable g then (s, 0)
        else if negb (has AWG_CONFIG g) || negb (has AWG_IN_USE g) then (s, -10)
        else if len <=? 0 then (set_awg (Z.to_nat i) (set_wave None g) s, 0)
        else if negb memory then (set_awg (Z.to_nat i) (set_wave None g) s, -11)
        else (set_awg (Z.to_nat i) (set_wave (Some (take (Z.to_nat len) y)) g) s, 0)
  end.

(** [_GET_STREAM_BUFFER]: the place in the buffer, and [None] outside it. *)
Definition stream_index (time epoch : Z) : option nat :=
  let k := Z.rem time MAX_STREAM_BUFFER * NUMBER_OF_EPOCHS + epoch in
  if (0 <=? k) && (k <? NUMBER_OF_EPOCHS * MAX_STREAM_BUFFER) then Some (Z.to_nat k) else None.
(** The loops that bring an epoch below 16, and above 0, carrying to the time. *)
Definition carry (time epoch : Z) : Z * Z :=
  if epoch <? NUMBER_OF_EPOCHS then (time, epoch)
  else (u64 (time + epoch / NUMBER_OF_EPOCHS), epoch mod NUMBER_OF_EPOCHS).
Definition borrow (time epoch : Z) : Z * Z :=
  if 0 <=? epoch then (time, epoch) else (u64 (time + epoch / NUMBER_OF_EPOCHS), epoch mod NUMBER_OF_EPOCHS).
Definition holds (time' epoch' : Z) (p : streambufpage_t) : bool :=
  negb (ready p =? 0) && (time p =? time') && (epoch p =? epoch').

(** The loop over the [n] pages of [y] that are left. *)
Fixpoint send_loop (n : nat) (tm ep i pgsize : Z) (y : list F) (st : list streambufpage_t) (dup : bool)
  : option (list streambufpage_t * bool) :=
  match n with
  | O => Some (st, dup)
  | S n =>
      let '(buftime, bufepoch) := carry tm (ep + i) in
      k ← stream_index buftime bufepoch;
      let dup := dup || holds buftime bufepoch (st !!! k) in
      let page := mkPage 1 buftime bufepoch pgsize (take (Z.to_nat pgsize) (drop (Z.to_nat (i * pgsize)) y)) in
      send_loop n tm ep (i + 1) pgsize y (<[k := page]> st) dup
  end.

(** [now] is [TAInow()]. *)
Definition sendWaveformAWG (now : Z) (s : Bank) (i tm ep : Z) (y : list F) : option (Bank * Z) :=
  if negb (in_bank i) then Some (s, -1)
  else
    let g := slot s i in
    if unbreakable g then Some (s, 0)
    else if negb (has AWG_CONFIG g) || negb (has AWG_IN_USE g) then Some (s, -1)
    else if pagesize g =? 0 then None
    else
      let len := Z.of_nat (length y) in
      let n := Z.quot len (pagesize g) in
      if negb (Z.rem len (pagesize g) =? 0) || (n <=? 0) || (NUMBER_OF_EPOCHS <? n) then Some (s, -2)
      else
        let diff := s64 (tm * NUMBER_OF_EPOCHS + ep - Z.quot now _EPOCH) in
        if diff <? NUMBER_OF_EPOCHS then Some (s, -3)
        else if (MAX_STREAM_BUFFER - 1) * NUMBER_OF_EPOCHS <=? diff + n then Some (s, -4)
        else
          let st := awgstream s !!! Z.to_nat i in
          '(st, dup) ← send_loop (Z.to_nat n) tm ep 0 (pagesize g) y st false;
          let s := mkBank (AWG s) (<[Z.to_nat i := st]> (awgstream s)) (awgfilter s) in
          let '(buftime, bufepoch) := borrow tm (ep - 1) in
          k ← stream_index buftime bufepoch;
          if negb (holds buftime bufepoch (st !!! k)) then Some (s, 3)
          else if (dup : bool) then Some (s, 2)
          else if (MAX_STREAM_BUFFER - 1) * NUMBER_OF_EPOCHS <=? diff + 2 * n then Some (s, 1)
          else Some (s, 0).

(** The number of components that have started by [now]. *)
Fixpoint started (now : Z) (cs : list Comp) : nat :=
  match cs with
  | [] => 0
  | cp :: cs => if start cp <=? now then S (started now cs) else 0
  end.
(** Type 1: the last component that started, or the one behind it when that one
    is about to end, goes on for ever, and those behind it are dropped. *)
Definition stop_endless (now : Z) (cs : list Comp) : list Comp :=
  let cid := started now cs in
  let cp := cs !!! (cid - 1)%nat in
  if (0 <? cid)%nat && (restart cp =? -1) then
    let cid :=
      if negb (duration cp =? -1) && (start cp + duration cp - ramptime cp !!! 1%nat <? now) && (cid <? length cs)%nat
      then S cid else cid in
    take cid (alter (set_duration (-1)) (cid - 1)%nat cs)
  else take cid cs.
(** Type 2: one component. *)
Definition stop_comp (stop arg : Z) (cp : Comp) : Comp :=
  if negb (duration cp =? -1) then
    let cp := set_restart (-1) cp in
    set_duration (if duration cp <? stop - start cp then duration cp else stop - start cp) cp
  else
    mkComp (wtype cp) (par cp) (start cp) (stop - start cp) (-1)
      (RAMP_TYPE (PHASE_IN_TYPE (ramptype cp)) AWG_PHASING_LINEAR AWG_PHASING_STEP)
      (<[1%nat := if 0 <? arg then arg else 0]> (ramptime cp))
      (<[3%nat := f0]> (<[0%nat := f0]> (ramppar cp))).
Definition stopWaveformAWG (s : Bank) (i terminate arg : Z) : Bank * Z :=
  if negb (in_bank i) then (s, -1)
  else
    let g := slot s i in
    if unbreakable g then (s, 0)
    else if negb (terminate =? 1) && negb (terminate =? 2) then resetAWG s i
    else
      let now := tproc g + _EPOCH in
      let stop := now + (if 0 <? arg then arg else 0) in
      if terminate =? 1 then
        let cs := stop_endless now (comp g) in
        (set_awg (Z.to_nat i) (set_comp cs (take (length cs) (rb g)) g) s, 0)
      else (set_awg (Z.to_nat i) (set_comp (stop_comp stop arg <$> comp g) (rb g) g) s, 0).

(** The components returned, and the value. *)
Definition queryWaveformAWG (s : Bank) (i maxComp : Z) : list Comp * Z :=
  if negb (in_bank i) then ([], -1)
  else
    let g := slot s i in
    if negb (has AWG_CONFIG g) || negb (has AWG_IN_USE g) then ([], -10)
    else
      let l := take (Z.to_nat (Z.min maxComp MAX_NUM_AWG_COMPONENTS)) (comp g) in
      (l, Z.of_nat (length l)).

(** ** Gain and filter *)
Definition new_gain (v : F) (rtime : Z) (a : AWG_Gain) : AWG_Gain :=
  mkGain 1 v (if 0 <=? rtime then rtime else gramptime a) (current a)
    (if gstate a =? 1 then old a else if gstate a =? 2 then current a else value a) (rampstart a).
Definition setGainAWG (s : Bank) (i : Z) (v : F) (rtime : Z) : Bank * Z :=
  if negb (in_bank i) then (s, -1)
  else
    let g := slot s i in
    if unbreakable g then (s, 0)
    else (set_awg (Z.to_nat i) (set_gain (new_gain v rtime (gain g)) g) s, 0).

Definition filter_sections (y : list F) : list (F * F * F * F) :=
  let c (i k : nat) := y !!! (1 + 4 * i + k)%nat in
  (λ i, (c i 0%nat, c i 1%nat, c i 2%nat, c i 3%nat)) <$> seq 0 (Nat.min ((length y - 1) / 4) MAX_AWG_SOS).
(** [y] has the length [len]; [None] is the null pointer. *)
Definition setFilterAWG (s : Bank) (i : Z) (y : option (list F)) (len : Z) : Bank * Z :=
  if (len <? 0) || ((0 <? len) && match y with None => true | Some _ => false end) then (s, -2)
  else if negb (in_bank i) then (s, -1)
  else if unbreakable (slot s i) then (s, 0)
  else
    let c := awgfilter s !!! Z.to_nat i in
    if len =? 0 then (set_filter (Z.to_nat i) (mkFilter false (fgain c) (sos c) (hist c)) s, 0)
    else
      let y := default [] y in
      let l := filter_sections y in
      (set_filter (Z.to_nat i) (mkFilter true (y !!! 0%nat) l (replicate (length l) (f0, f0))) s, 0).

(** ** Retiring *)
Definition expired (t : Z) (cp : Comp) : bool :=
  (wtype cp =? awgNone) || ((0 <=? duration cp) && (restart cp <=? 0) && (start cp + duration cp <=? t)).
(** The loop over [j] with [k] and [l]. *)
Fixpoint retire_scan (t : Z) (cs : list Comp) (j k l : Z) : Z * Z :=
  match cs with
  | [] => (k, l)
  | cp :: cs =>
      if expired t cp then retire_scan t cs (j + 1) k (j + 1)
      else if l =? -1 then retire_scan t cs (j + 1) (j + 1) l
      else (k, l)
  end.
Definition cut {A} (k l : Z) (xs : list A) : list A := take (Z.to_nat k) xs ++ drop (Z.to_nat l) xs.
Definition retire_slot (t : Z) (g : AWG_ConfigBlock) : AWG_ConfigBlock :=
  if negb (has AWG_CONFIG g) || (otype g =? awgNone) || (ncomp g <=? 0) then g
  else
    let '(k, l) := retire_scan t (comp g) 0 0 (-1) in
    if 0 <? l then set_comp (cut k l (comp g)) (cut k l (rb g)) g else g.
Definition retireAWGComp (t : Z) (s : Bank) : Bank :=
  mkBank (retire_slot t <$> AWG s) (awgstream s) (awgfilter s).

End defs.
Arguments AWG_Gain : clear implicits.
Arguments AWG_ConfigBlock : clear implicits.
Arguments streambufpage_t : clear implicits.
Arguments filter_coeff_t : clear implicits.
Arguments Bank : clear implicits.
End Awg.
