(* ===== verification/AwgCalc.v ===== *)
(** * Waveform generators: the samples of one epoch ([src/gds/awg.c])

    Sixteen times a second a slot adds up a page of samples: each component its
    signal ([calcAWGPeriodic], [calcAWGNoise], [calcAWGImpulse],
    [calcAWGStream], by way of [calcAWGComp]), then the filter and the gain
    ([calcAWGFilter], [calcAWGGain]).  [processAWG] is the whole of it for one
    slot.

    The four signals run through the samples of the page in the same way,
    [sample_loop]: until the component ends, or over again when it restarts; the
    component keeps its new start.  [None] is a stream buffer index outside the
    buffer, or the end of the fuel of [nrand_r].  [now] is [TAInow()], which
    seeds the random numbers. *)
From S2P Require Import Prelude CFloat Iir GdsRand AwgFunc Awg.
Import Iir AwgFunc Awg.

Module AwgCalc.
Section defs.
Context {F : Type} `{FloatOps F, Libm F}.
Local Abbreviation Comp := (AWG_Component F).
Local Abbreviation randBlock := (GdsRand.randBlock F).

Definition seconds (t : Z) : F := fofZ t ⊘ __ONESEC.
Definition sample_time (imax : Z) : F := f1 ⊘ fofZ (NUMBER_OF_EPOCHS * imax).

(** The time parameters: the lengths of the ramps, and the times at which the
    first ends, the last starts and the component ends. *)
Record Ramps := mkRamps { tPI : F; tPO : F; t1 : F; t2 : F; tEND : F }.
Definition ramp_times (cp : Comp) (t : F) : Ramps :=
  let tPI := seconds (ramptime cp !!! 0%nat) in
  if duration cp <? 0 then mkRamps tPI f0 tPI (t ⊕ f1) (t ⊕ f1)
  else
    let tPO := seconds (ramptime cp !!! 1%nat) in
    let tEND := seconds (duration cp) in
    let t2 := tEND ⊖ tPO in
    let t1 :=
      if t2 <ᶠ tPI then
        if tPI ⊕ tPO >ᶠ f0 then (tPI ⊗ tPO ⊕ t2 ⊗ tPI) ⊘ (tPI ⊕ tPO) else (tPI ⊕ t2) ⊘ fofZ 2
      else tPI in
    mkRamps tPI tPO t1 t2 tEND.
Definition out_ratio (cp : Comp) (A : F) : F :=
  if duration cp <? 0 then f0 else if A ≠ᶠ f0 then ramppar cp !!! 0%nat ⊘ A else f1.

(** The loop over the samples: [x] is what a signal carries from sample to
    sample, [resync] brings it to the time of a restart, and [body] makes the
    sample [i] at the time [t]. *)
Section loop.
Context {X : Type} (tend dt : F) (again : Z) (resync : F → X → X) (body : nat → F → X → F → option (F * X)).
Fixpoint sample_loop (i : nat) (st : Z) (t : F) (x : X) (vp : list F) : option (Z * X * list F) :=
  match vp with
  | [] => Some (st, x, [])
  | v :: vs =>
      if (t ≥ᶠ tend) && (again <=? 0) then Some (st, x, vp)
      else
        let '(st, t, x) :=
          if t ≥ᶠ tend then (s64 (st + again), t ⊖ seconds again, resync (t ⊖ seconds again) x) else (st, t, x) in
        '(v, x) ← body i t x v;
        '(st, x, vs) ← sample_loop (S i) st (t ⊕ dt) x vs;
        Some (st, x, v :: vs)
  end.
End loop.

(** ** Periodic signals *)
Record Sweep := mkSweep { fSweep : F; phiSweep : F; phit2 : F; dOfs : F }.
Definition fold_phase (x : F) : F :=
  if x >ᶠ PI then x ⊖ TWO_PI else if x <ᶠ fneg PI then x ⊕ TWO_PI else x.
Definition sweep_of (cp : Comp) (r : Ramps) : Sweep :=
  let f := par cp !!! 1%nat in
  if duration cp <? 0 then mkSweep f0 f0 f0 f0
  else if negb (SWEEP_OUT_TYPE (ramptype cp) =? AWG_PHASING_LOG) then
    let fs := (ramppar cp !!! 1%nat ⊖ f) ⊘ fofZ 2 in
    mkSweep fs
      (fold_phase (lfmod (ramppar cp !!! 2%nat ⊖ par cp !!! 2%nat ⊕ TWO_PI ⊗ fs ⊗ tPO r ⊕ TWO_PI ⊗ f ⊗ tEND r) TWO_PI))
      f0 (ramppar cp !!! 3%nat ⊖ par cp !!! 3%nat)
  else
    let fs := if f ≠ᶠ f0 then fabs (ramppar cp !!! 1%nat ⊘ f) else f1 in
    let fs := lexp (productLog (EULER_E ⊗ fs) ⊖ f1) in
    mkSweep fs
      (fold_phase (lfmod (ramppar cp !!! 2%nat ⊖ par cp !!! 2%nat ⊕ TWO_PI ⊗ f ⊗ (fs ⊖ f1) ⊗ tPO r ⊕ TWO_PI ⊗ f ⊗ tEND r)
                     TWO_PI))
      (startPhase f (t2 r) (par cp !!! 2%nat)) (ramppar cp !!! 3%nat ⊖ par cp !!! 3%nat).
Definition next_phase (dph ph : F) : F := if ph ⊕ dph >ᶠ TWO_PI then ph ⊕ dph ⊖ TWO_PI else ph ⊕ dph.
(** What a sample adds, [None] for nothing. *)
Definition periodic_value (cp : Comp) (r : Ramps) (w : Sweep) (t ph : F) : option F :=
  let A := par cp !!! 0%nat in
  let ofs := par cp !!! 3%nat in
  let PO := PHASE_OUT_TYPE (ramptype cp) in
  let SW := SWEEP_OUT_TYPE (ramptype cp) in
  if t <ᶠ f0 then None
  else if t <ᶠ t1 r then
    Some (awgPhaseIn (PHASE_IN_TYPE (ramptype cp)) t (tPI r) ⊗ awgPeriodicSignal (wtype cp) A ofs ph)
  else if t ≤ᶠ t2 r then Some (awgPeriodicSignal (wtype cp) A ofs ph)
  else if t <ᶠ tEND r then
    let x := ofs ⊕ dOfs w ⊗ awgPhaseIn PO (t ⊖ t2 r) (tPO r) in
    let y := (if negb (SW =? AWG_PHASING_LOG) then ph else phit2 w)
             ⊕ awgSweepOut SW (t ⊖ t2 r) (tPO r) (par cp !!! 1%nat) (fSweep w) (phiSweep w) in
    Some (awgPhaseOut PO (t ⊖ t2 r) (tPO r) (out_ratio cp A) ⊗ awgPeriodicSignal (wtype cp) A f0 y ⊕ x)
  else None.
Definition add_value (v : F) (e : option F) : F := match e with None => v | Some e => fsingle (v ⊕ e) end.
Definition calcAWGPeriodic (cp : Comp) (t : F) (vp : list F) : option (Comp * list F) :=
  let dt := sample_time (Z.of_nat (length vp)) in
  let f := par cp !!! 1%nat in
  let dph := dt ⊗ f ⊗ TWO_PI in
  let r := ramp_times cp t in
  let w := sweep_of cp r in
  '(st, _, vp) ← sample_loop (tEND r) dt (restart cp) (λ t _, startPhase f t (par cp !!! 2%nat))
                   (λ _ t ph v, Some (add_value v (periodic_value cp r w t ph), next_phase dph ph))
                   0 (start cp) t (startPhase f t (par cp !!! 2%nat)) vp;
  Some (set_start st cp, vp).

(** ** Noise *)
Definition calcAWGNoise (fuel : nat) (now : Z) (cp : Comp) (t : F) (vp : list F) (rb : randBlock)
  : option (Comp * randBlock * list F) :=
  let A := fabs (par cp !!! 0%nat) in
  let ofs := par cp !!! 3%nat in
  let dofs := if duration cp <? 0 then f0 else ramppar cp !!! 3%nat ⊖ ofs in
  let PO := PHASE_OUT_TYPE (ramptype cp) in
  let r := ramp_times cp t in
  let noise := awgNoiseSignal fuel now (wtype cp) A in
  '(st, rb, vp) ← sample_loop (tEND r) (sample_time (Z.of_nat (length vp))) (restart cp) (λ _ rb, rb)
    (λ _ t rb v,
       if t <ᶠ f0 then Some (v, rb)
       else if t <ᶠ t1 r then
         '(rb, z) ← noise ofs rb;
         Some (fsingle (v ⊕ awgPhaseIn (PHASE_IN_TYPE (ramptype cp)) t (tPI r) ⊗ z), rb)
       else if t <ᶠ t2 r then '(rb, z) ← noise ofs rb; Some (fsingle (v ⊕ z), rb)
       else if t <ᶠ tEND r then
         let x := ofs ⊕ dofs ⊗ awgPhaseIn PO (t ⊖ t2 r) (tPO r) in
         '(rb, z) ← noise f0 rb;
         Some (fsingle (v ⊕ (awgPhaseOut PO (t ⊖ t2 r) (tPO r) (out_ratio cp A) ⊗ z ⊕ x)), rb)
       else Some (v, rb))
    0 (start cp) t rb vp;
  Some (set_start st cp, rb, vp).

(** ** Impulses *)
Definition calcAWGImpulse (cp : Comp) (t : F) (vp : list F) : option (Comp * list F) :=
  let dt := sample_time (Z.of_nat (length vp)) in
  let A := par cp !!! 0%nat in
  let f := par cp !!! 1%nat in
  let tHigh := par cp !!! 2%nat in
  let dly := par cp !!! 3%nat in
  let TT := if f >ᶠ f0 then f1 ⊘ f else flit 1 99 in
  let r := ramp_times cp t in
  let tHighEnd := if tHigh >ᶠ dt then dly ⊕ tHigh else dly ⊕ dt in
  let norm t := if f >ᶠ f0 then t ⊖ lfloor (t ⊗ f) ⊗ TT else t in
  let PO := PHASE_OUT_TYPE (ramptype cp) in
  '(st, _, vp) ← sample_loop (tEND r) dt (restart cp) (λ t _, norm t)
    (λ _ t tnorm v,
       Some (if t <ᶠ f0 then v
             else if (tnorm ≥ᶠ dly) && (tnorm <ᶠ tHighEnd) then
               if t <ᶠ t1 r then fsingle (v ⊕ awgPhaseIn (PHASE_IN_TYPE (ramptype cp)) t (tPI r) ⊗ A)
               else if t <ᶠ t2 r then fsingle (v ⊕ A)
               else if t <ᶠ tEND r then fsingle (v ⊕ awgPhaseOut PO (t ⊖ t2 r) (tPO r) (out_ratio cp A) ⊗ A)
               else v
             else v,
             let tnorm := tnorm ⊕ dt in if tnorm >ᶠ TT then tnorm ⊖ TT else tnorm))
    0 (start cp) t (norm t) vp;
  Some (set_start st cp, vp).

(** ** Streams *)
Definition stream_value (cp : Comp) (r : Ramps) (t x : F) : option F :=
  let scale := par cp !!! 0%nat in
  let PO := PHASE_OUT_TYPE (ramptype cp) in
  if t <ᶠ t1 r then Some (awgPhaseIn (PHASE_IN_TYPE (ramptype cp)) t (tPI r) ⊗ scale ⊗ x)
  else if t <ᶠ t2 r then Some (scale ⊗ x)
  else if t <ᶠ tEND r then Some (awgPhaseOut PO (t ⊖ t2 r) (tPO r) (out_ratio cp scale) ⊗ scale ⊗ x)
  else None.
Definition calcAWGStream (cp : Comp) (s : streambufpage_t F) (t : F) (vp : list F)
  : option (Comp * streambufpage_t F * list F) :=
  let r := ramp_times cp t in
  if negb (ready s =? 0) && (Z.of_nat (length vp) =? pagelen s) then
    '(st, _, vp) ← sample_loop (tEND r) (sample_time (Z.of_nat (length vp))) (restart cp) (λ _ _, tt)
                     (λ i t _ v, Some (add_value v (stream_value cp r t (buf s !!! i)), tt))
                     0 (start cp) t tt vp;
    Some (set_start st cp, mkPage 0 (time s) (epoch s) (pagelen s) (buf s), vp)
  else Some (cp, s, vp).

(** ** One component

    The status, and what changes: the component, its random numbers, the stream
    buffer and the page. *)
Definition comp_time (tm ep dly : Z) (cp : Comp) : F := seconds (s64 (tm * _ONESEC + _EPOCH * ep - start cp + dly)).
Definition calcAWGComp (fuel : nat) (now tm ep dly : Z) (cp : Comp) (rb : randBlock)
    (st : list (streambufpage_t F)) (vp : list F)
  : option (Z * Comp * randBlock * list (streambufpage_t F) * list F) :=
  if wtype cp =? awgNone then Some (- MAX_INVALID_COMPONENTS, cp, rb, st, vp)
  else
    let t := comp_time tm ep dly cp in
    if t ⊕ seconds _EPOCH <ᶠ f0 then Some (-1, cp, rb, st, vp)
    else if (wtype cp =? awgSine) || (wtype cp =? awgSquare) || (wtype cp =? awgRamp) || (wtype cp =? awgTriangle)
            || (wtype cp =? awgConst) then
      '(cp, vp) ← calcAWGPeriodic cp t vp; Some (0, cp, rb, st, vp)
    else if wtype cp =? awgImpulse then '(cp, vp) ← calcAWGImpulse cp t vp; Some (0, cp, rb, st, vp)
    else if (wtype cp =? awgNoiseN) || (wtype cp =? awgNoiseU) then
      '(cp, rb, vp) ← calcAWGNoise fuel now cp t vp rb; Some (0, cp, rb, st, vp)
    else if wtype cp =? awgArb then Some (0, cp, rb, st, vp)
    else if wtype cp =? awgStream then
      k ← stream_index tm ep;
      let s := st !!! k in
      if (time s =? tm) && (epoch s =? ep) then
        '(cp, s, vp) ← calcAWGStream cp s t vp; Some (0, cp, rb, <[k := s]> st, vp)
      else Some (0, cp, rb, st, vp)
    else Some (- MAX_INVALID_COMPONENTS, cp, rb, st, vp).

(** ** Gain and filter *)
Definition epoch_time (tm ep : Z) : Z := tm * _ONESEC + ep * _EPOCH.
Definition gain_start (tm ep : Z) (a : AWG_Gain F) : AWG_Gain F :=
  if gstate a =? 1 then
    if gramptime a <=? 0 then mkGain 0 (value a) (gramptime a) (current a) (old a) (rampstart a)
    else mkGain 2 (value a) (gramptime a) (current a) (old a) (epoch_time tm ep)
  else a.
Definition ramp_gain (a : AWG_Gain F) (dur t : F) : F :=
  if t ≤ᶠ f0 then old a else if t ≥ᶠ dur then value a else old a ⊕ t ⊗ ((value a ⊖ old a) ⊘ dur).
(** The loop: the last gain, the time behind the page and the page. *)
Fixpoint gain_loop (a : AWG_Gain F) (dur dt : F) (g t : F) (vp : list F) : F * F * list F :=
  match vp with
  | [] => (g, t, [])
  | v :: vp =>
      let g := ramp_gain a dur t in
      let '(g', t, vp) := gain_loop a dur dt g (t ⊕ dt) vp in (g', t, fsingle (v ⊗ g) :: vp)
  end.
Definition calcAWGGain (tm ep : Z) (a : AWG_Gain F) (vp : list F) : AWG_Gain F * list F :=
  let a := gain_start tm ep a in
  if negb (gstate a =? 2) then
    (a, if value a ≠ᶠ f1 then (λ v, fsingle (v ⊗ value a)) <$> vp else vp)
  else
    let dt := sample_time (Z.of_nat (length vp)) in
    let t := seconds (epoch_time tm ep - rampstart a) in
    let dur := seconds (gramptime a) in
    let '(g, t, vp) := gain_loop a dur dt (current a) t vp in
    (mkGain (if t >ᶠ dur ⊖ flit 1 (-9) then 0 else 2) (value a) (gramptime a) g (old a) (rampstart a), vp).

Fixpoint sos_loop (ss : list (F * F * F * F)) (hs : list (F * F)) (vp : list F) : list (F * F) * list F :=
  match ss, hs with
  | (c0, c1, c2, c3) :: ss, h :: hs =>
      let '(vp, h) := awgSOS vp c0 c1 c2 c3 h in
      let '(hs, vp) := sos_loop ss hs vp in (h :: hs, vp)
  | _, _ => (hs, vp)
  end.
Definition calcAWGFilter (c : filter_coeff_t F) (vp : list F) : filter_coeff_t F * list F :=
  if negb (valid c) then (c, vp)
  else
    let '(hs, vp) := sos_loop (sos c) (hist c) ((λ v, fsingle (v ⊗ fgain c)) <$> vp) in
    (mkFilter (valid c) (fgain c) (sos c) hs, vp).

(** ** One slot

    The loop over the components stops behind more than ten invalid or early
    ones. *)
Fixpoint comp_loop (fuel : nat) (now tm ep dly inv : Z) (cs : list Comp) (rbs : list randBlock)
    (st : list (streambufpage_t F)) (vp : list F)
  : option (list Comp * list randBlock * list (streambufpage_t F) * list F) :=
  match cs, rbs with
  | cp :: cs, r :: rbs =>
      '(status, cp, r, st, vp) ← calcAWGComp fuel now tm ep dly cp r st vp;
      if inv + status <? - MAX_INVALID_COMPONENTS then Some (cp :: cs, r :: rbs, st, vp)
      else
        '(cs, rbs, st, vp) ← comp_loop fuel now tm ep dly (inv + status) cs rbs st vp;
        Some (cp :: cs, r :: rbs, st, vp)
  | _, _ => Some (cs, rbs, st, vp)
  end.
(** The state, the value and the page, [None] when the slot is off. *)
Definition processAWG (fuel : nat) (now : Z) (s : Bank F) (i tm ep : Z) : option (Bank F * Z * option (list F)) :=
  if negb (in_bank i) then Some (s, -1, None)
  else
    let k := Z.to_nat i in
    let g := AWG s !!! k in
    if negb (has AWG_CONFIG g) || negb (has AWG_ENABLE g) then Some (s, 0, None)
    else
      '(cs, rbs, st, vp) ← comp_loop fuel now tm ep (delay g) 0 (comp g) (rb g) (awgstream s !!! k)
                             (replicate (Z.to_nat (pagesize g)) f0);
      let '(c, vp) := calcAWGFilter (awgfilter s !!! k) vp in
      let '(a, vp) := calcAWGGain tm ep (gain g) vp in
      let g := set_tproc (epoch_time tm ep) (set_gain a (set_comp cs rbs g)) in
      Some (mkBank (<[k := g]> (AWG s)) (<[k := st]> (awgstream s)) (<[k := c]> (awgfilter s)), 0, Some vp).

End defs.
End AwgCalc.
