(* ===== verification/AwgProps.v ===== *)
(** * Waveform generators: theorems about the commands ([Awg.v])

    Component lists: [sorted_components], [waveforms_added], [stopped_by],
    [stretch_retired]; and the bindings of slots to channels,
    [channel_of_one_slot], over all sequences of the operations. *)
From Stdlib Require Import Reals.
From S2P Require Import Prelude CFloat Iir GdsRand AwgFunc AwgSort Awg AwgCalc.
Import Iir AwgFunc AwgSort Awg AwgCalc.

Module AwgProps.

(** ** Putting in at a place *)
Section insert_at.
Context {A : Type} `{!Inhabited A}.
Implicit Types (l : list A).

Lemma insert_at_perm k (x : A) l : insert_at k x l ≡ₚ x :: l.
Proof. unfold insert_at. by rewrite <- Permutation_middle, take_drop. Qed.
Lemma length_insert_at k (x : A) l : length (insert_at k x l) = S (length l).
Proof. by rewrite (Permutation_length (insert_at_perm k x l)). Qed.
Lemma insert_at_lookup k (x : A) l i :
  (k <= length l)%nat →
  insert_at k x l !!! i = if (i <? k)%nat then l !!! i else if (i =? k)%nat then x else l !!! (i - 1)%nat.
Proof.
  intros Hk. unfold insert_at. assert (Hl : length (take k l) = k) by (rewrite length_take; lia).
  destruct (Nat.ltb_spec i k) as [Hi|Hi].
  - rewrite lookup_total_app_l by lia. rewrite !list_lookup_total_alt, lookup_take_lt by done. done.
  - rewrite lookup_total_app_r by lia. rewrite Hl. destruct (Nat.eqb_spec i k) as [->|Hn].
    + by rewrite Nat.sub_diag.
    + replace (i - k)%nat with (S (i - 1 - k)) by lia.
      change ((x :: drop k l) !!! S (i - 1 - k)%nat) with (drop k l !!! (i - 1 - k)%nat).
      rewrite !list_lookup_total_alt, lookup_drop. do 2 f_equal. lia.
Qed.
End insert_at.

Section components.
Context {F : Type} `{FloatOps F, Libm F}.
Local Abbreviation Comp := (AWG_Component F).
Implicit Types (l cs : list Comp) (cp : Comp).

Lemma ordered_insert l cp k :
  ordered l → (k <= length l)%nat →
  (∀ i, (i < k)%nat → start (l !!! i) <= start cp) → (∀ i, (k <= i < length l)%nat → start cp < start (l !!! i)) →
  ordered (insert_at k cp l).
Proof.
  intros Ho Hk Hlo Hhi i j Hij. rewrite length_insert_at in Hij. rewrite !insert_at_lookup by done.
  destruct (Nat.ltb_spec i k), (Nat.ltb_spec j k).
  - apply Ho. lia.
  - destruct (Nat.eqb_spec j k); [by apply Hlo|]. apply Ho. lia.
  - lia.
  - destruct (Nat.eqb_spec i k), (Nat.eqb_spec j k); try lia.
    + pose proof (Hhi (j - 1)%nat ltac:(lia)). lia.
    + apply Ho. lia.
Qed.

(** ** Adding *)
Definition present (cp : Comp) : Prop := wtype cp ≠ awgNone.
#[export] Instance present_dec cp : Decision (present cp) := ltac:(unfold present; apply _).

Lemma add_loop_spec pgsize (V W cs : list Comp) rbs n :
  Forall present V → (∀ cp, head W = Some cp → ¬ present cp) →
  ordered cs → length rbs = length cs → Z.of_nat (length cs) <= MAX_NUM_AWG_COMPONENTS →
  let m := Nat.min (length V) (Z.to_nat MAX_NUM_AWG_COMPONENTS - length cs)%nat in
  ∃ cs' rbs', add_loop pgsize (V ++ W) cs rbs n = Some (cs', rbs', n + Z.of_nat m) ∧
    ordered cs' ∧ cs' ≡ₚ take m V ++ cs ∧ length rbs' = length cs'.
Proof.
  revert cs rbs n. induction V as [|v V IH]; intros cs rbs n HV HW Ho Hl Hm m.
  - exists cs, rbs. subst m. cbn [app length take Nat.min]. rewrite Z.add_0_r.
    destruct W as [|w W]; [done|]. cbn [add_loop]. pose proof (HW w eq_refl) as Hw. unfold present in Hw.
    destruct (Z.eqb_spec (wtype w) awgNone); [|tauto]. cbn [negb]. by rewrite andb_false_r.
  - apply Forall_cons in HV as [Hv HV]. cbn [app add_loop].
    destruct (Z.ltb_spec (Z.of_nat (length cs)) MAX_NUM_AWG_COMPONENTS) as [Hroom|Hfull].
    + unfold present in Hv. rewrite (proj2 (Z.eqb_neq _ _) Hv). cbn [negb andb].
      destruct (search_place cs v Ho) as (k & -> & Hk & Hlo & Hhi). cbn [mbind option_bind].
      destruct (IH (insert_at k v cs) (insert_at k (new_block pgsize v) rbs) (n + 1)) as (cs' & rbs' & -> & Ho' & Hp & Hl').
      * done.
      * done.
      * by apply ordered_insert.
      * by rewrite !length_insert_at, Hl.
      * rewrite length_insert_at. lia.
      * rewrite length_insert_at in *. unfold MAX_NUM_AWG_COMPONENTS in *.
        set (m' := Nat.min (length V) (Z.to_nat 5000 - S (length cs))%nat) in *.
        assert (Em : m = S m') by (subst m m'; cbn [length]; lia). exists cs', rbs'. rewrite Em.
        split; [do 2 f_equal; lia|]. split; [done|]. split; [|done].
        rewrite Hp. cbn [take app]. rewrite insert_at_perm. by rewrite Permutation_middle.
    + exists cs, rbs. assert (Em : m = 0%nat) by (subst m; unfold MAX_NUM_AWG_COMPONENTS in *; lia). rewrite Em, Z.add_0_r. cbn [andb]. done.
Qed.

Lemma quot_between d r : 0 < r → Z.min 0 d <= r * Z.quot d r <= Z.max 0 d.
Proof.
  intros Hr. pose proof (Z.quot_rem' d r). destruct (Z.le_gt_cases 0 d) as [Hd|Hd].
  - pose proof (Z.rem_bound_pos d r Hd Hr). pose proof (Z.quot_pos d r Hd ltac:(lia)). nia.
  - pose proof (Z.rem_bound_pos_neg d r Hr ltac:(lia)). assert (Z.quot d r <= 0) by nia. nia.
Qed.

Lemma prepare_start t cp :
  t + _EPOCH < LAST_TIME → start cp < LAST_TIME →
  (present (prepare_comp t cp) → start (prepare_comp t cp) < LAST_TIME) ∧
  (¬ present (prepare_comp t cp) → start (prepare_comp t cp) = LAST_TIME).
Proof.
  intros Ht Hs. unfold prepare_comp.
  set (c1 := if start cp <=? 0 then _ else cp). assert (H1 : start c1 < LAST_TIME).
  { unfold c1. destruct (start cp <=? 0); [|done]. cbn zeta. destruct (_ || _); exact Ht. }
  set (c2 := if awgIsValidComponent c1 then c1 else set_wtype awgNone c1).
  assert (H2 : start c2 < LAST_TIME) by (unfold c2; destruct (awgIsValidComponent c1); done).
  cbv zeta. unfold present. destruct (Z.eqb_spec (wtype c2) awgNone) as [E|E].
  - rewrite (proj2 (Z.eqb_eq (wtype (set_start LAST_TIME c2)) awgNone) E). cbn [negb andb]. split; [|done]. intros []. exact E.
  - rewrite (proj2 (Z.eqb_neq _ _) E). cbn [negb andb].
    destruct (Z.ltb_spec 0 (restart c2)) as [Hr|Hr]; cbn [andb]; [|by split; [|tauto]].
    destruct (_ && _); [|by split; [|tauto]]. split; [|intros Hn; exfalso; by apply Hn]. intros _. cbn [start set_start].
    pose proof (quot_between (t - start c2) (restart c2) Hr). assert (0 <= _EPOCH) by done. lia.
Qed.

(** The components that are there come first in a list in order. *)
Lemma ordered_present l :
  ordered l → (∀ cp, cp ∈ l → (present cp → start cp < LAST_TIME) ∧ (¬ present cp → start cp = LAST_TIME)) →
  ∃ V W, l = V ++ W ∧ Forall present V ∧ Forall (λ cp, ¬ present cp) W ∧ ordered V.
Proof.
  intros Ho Hl. induction l as [|cp l IH].
  - exists [], []. repeat split; try constructor. intros i j Hij. cbn in Hij. lia.
  - assert (Ho' : ordered l) by (intros i j Hij; apply (Ho (S i) (S j)); cbn [length]; lia).
    destruct (decide (present cp)) as [Hp|Hp].
    + destruct IH as (V & W & -> & HV & HW & HoV); [done|by intros c Hc; apply Hl; right|].
      exists (cp :: V), W. split; [done|]. split; [by constructor|]. split; [done|].
      intros i j Hij. rewrite !(app_comm_cons V W cp) in Ho. pose proof (Ho i j) as Hx.
      rewrite !lookup_total_app_l in Hx by lia. apply Hx. rewrite length_app. lia.
    + exists [], (cp :: l). split; [done|]. split; [done|]. split; [|intros i j Hij; cbn in Hij; lia].
      constructor; [done|]. apply Forall_forall. intros c Hc Hpc.
      destruct (proj1 (list_elem_of_lookup _ _) Hc) as [j Hj].
      pose proof (Ho 0%nat (S j)) as Hx. cbn [length] in Hx. pose proof (lookup_lt_Some _ _ _ Hj).
      assert (Ec : (cp :: l) !!! S j = c) by (by apply list_lookup_total_correct). rewrite Ec in Hx. cbn in Hx.
      pose proof (proj2 (Hl cp ltac:(left)) Hp). pose proof (proj1 (Hl c ltac:(by right)) Hpc). lia.
Qed.

(** sorting components. The heap sort ends and leaves the same components in
    order of their start. *)
Theorem sorted_components l : ∃ l', awgSortComponents l = Some l' ∧ ordered l' ∧ l' ≡ₚ l.
Proof. apply sort_sorts. Qed.

(** C27: adding waveforms. On a configured slot that is not locked, and whose list
    is in order, the command adds the valid ones of the components it is given
    as far as there is room, the earliest first; the list is in order again,
    nothing of it is lost, and the value is the number added. *)
Theorem waveforms_added (s : Bank F) (i : Z) (comps : list Comp) :
  let g := slot s i in
  let t := tproc g + _EPOCH in
  let valids := filter present (prepare_comp t <$> comps) in
  let m := Nat.min (length valids) (Z.to_nat MAX_NUM_AWG_COMPONENTS - length (comp g))%nat in
  in_bank i = true → unbreakable g = false → has AWG_CONFIG g = true → has AWG_IN_USE g = true →
  ordered (comp g) → length (rb g) = length (comp g) → ncomp g <= MAX_NUM_AWG_COMPONENTS →
  t + _EPOCH < LAST_TIME → Forall (λ cp, start cp < LAST_TIME) comps →
  ∃ cs rbs earliest,
    addWaveformAWG s i comps = Some (set_awg (Z.to_nat i) (set_comp cs rbs g) s, Z.of_nat m) ∧
    ordered cs ∧ earliest ≡ₚ valids ∧ ordered earliest ∧ cs ≡ₚ take m earliest ++ comp g ∧ length rbs = length cs.
Proof.
  intros g t valids m Hi Hu Hc Hin Ho Hl Hn Ht Hs. unfold addWaveformAWG. fold g. rewrite Hi, Hu, Hc, Hin. cbn [negb orb].
  fold t. destruct (sort_sorts (prepare_comp t <$> comps)) as (l & -> & Hlo & Hlp). cbn [mbind option_bind].
  destruct (ordered_present l Hlo) as (V & W & -> & HV & HW & HoV).
  { intros cp Hcp. rewrite Hlp in Hcp. apply list_elem_of_fmap in Hcp as (c & -> & Hc').
    apply prepare_start; [done|]. by apply (proj1 (Forall_forall _ _) Hs). }
  assert (EV : V ≡ₚ valids).
  { unfold valids. rewrite <- Hlp, filter_app, (filter_all present V) by (by apply Forall_forall).
    assert (Hnil : filter present W = []) by (clear -HW; induction HW; [done|by rewrite filter_cons_False]).
    by rewrite Hnil, app_nil_r. }
  destruct (add_loop_spec (pagesize g) V W (comp g) (rb g) 0 HV) as (cs & rbs & E & Ho' & Hp & Hl'); [|done|done|done|].
  { intros cp Hh. destruct W as [|w W]; [done|]. injection Hh as <-. by apply Forall_cons in HW as [? _]. }
  rewrite (Permutation_length EV) in E, Hp. fold m in E, Hp. cbv zeta in E. rewrite E. cbn [mbind option_bind].
  exists cs, rbs, V. done.
Qed.

(** ** Stopping *)

(** stopping by a ramp. After the command of type 2, a component that starts
    by the stop time has expired at the stop time, whether it was endless or
    not. One that starts later never expires, since its new duration is
    negative, which is to say endless; nor does one with a duration below -1,
    which is endless too but is not treated so. *)
Theorem stopped_by (s : Bank F) (i arg : Z) :
  let g := slot s i in
  let stop := tproc g + _EPOCH + Z.max 0 arg in
  in_bank i = true → unbreakable g = false →
  ∃ f, stopWaveformAWG s i 2 arg = (set_awg (Z.to_nat i) (set_comp (f <$> comp g) (rb g) g) s, 0) ∧
    ∀ cp, present cp →
      (-1 <= duration cp → start cp <= stop → expired stop (f cp) = true) ∧
      (stop < start cp ∨ duration cp < -1 → ∀ t, expired t (f cp) = false).
Proof.
  intros g stop Hi Hu. exists (stop_comp stop arg). split.
  - unfold stopWaveformAWG. fold g. rewrite Hi, Hu. cbn [negb]. change (2 =? 1) with false. change (2 =? 2) with true. cbn [negb andb].
    replace (tproc g + _EPOCH + (if 0 <? arg then arg else 0)) with stop; [done|].
    subst stop. destruct (Z.ltb_spec 0 arg); lia.
  - intros cp Hp. unfold present in Hp. unfold stop_comp, expired. split.
    + intros Hd Hs. destruct (Z.eqb_spec (duration cp) (-1)) as [E|E]; cbn -[Z.add Z.sub].
      * apply orb_true_iff. right. rewrite !andb_true_iff, !Z.leb_le. lia.
      * apply orb_true_iff. right. rewrite !andb_true_iff, !Z.leb_le. destruct (Z.ltb_spec (duration cp) (stop - start cp)); lia.
    + intros Hs t. destruct (Z.eqb_spec (duration cp) (-1)) as [E|E]; cbn -[Z.add Z.sub];
        rewrite (proj2 (Z.eqb_neq _ _) Hp), orb_false_l, !andb_false_iff, !Z.leb_gt.
      * lia.
      * destruct (Z.ltb_spec (duration cp) (stop - start cp)); lia.
Qed.

(** ** Retiring *)
Definition live (t : Z) (cp : Comp) : Prop := expired t cp = false.

Lemma retire_scan_rest t b c j k :
  Forall (λ cp, expired t cp = true) b → (∀ cp, head c = Some cp → live t cp) → 0 < j →
  retire_scan t (b ++ c) j k j = (k, j + Z.of_nat (length b)).
Proof.
  revert j. induction b as [|x b IH]; intros j Hb Hc Hj.
  - cbn [app length]. rewrite Z.add_0_r. destruct c as [|x c]; [done|]. cbn [retire_scan]. rewrite (Hc x eq_refl).
    by rewrite (proj2 (Z.eqb_neq j (-1))) by lia.
  - apply Forall_cons in Hb as [Hx Hb]. cbn [app retire_scan length]. rewrite Hx, IH by (done || lia). f_equal. lia.
Qed.

Lemma retire_scan_spec t cs j :
  0 <= j → ∃ a b c, cs = a ++ b ++ c ∧ Forall (live t) a ∧ Forall (λ cp, expired t cp = true) b ∧
    (∀ cp, head c = Some cp → live t cp) ∧ (b = [] → c = []) ∧
    retire_scan t cs j j (-1) = (j + Z.of_nat (length a), if decide (b = []) then -1 else j + Z.of_nat (length a + length b)).
Proof.
  revert j. induction cs as [|x cs IH]; intros j Hj.
  - exists [], [], []. cbn. rewrite Z.add_0_r. repeat split; done || constructor.
  - cbn [retire_scan]. change (-1 =? -1) with true. cbv iota. destruct (expired t x) eqn:Ex.
    + assert (Hsp : ∃ b c, cs = b ++ c ∧ Forall (λ cp, expired t cp = true) b ∧ (∀ cp, head c = Some cp → live t cp)).
      { clear -cs. induction cs as [|y cs (b & c & -> & Hb & Hc)]; [by exists [], []|]. destruct (expired t y) eqn:Ey.
        - exists (y :: b), c. split; [done|]. split; [by constructor|done].
        - exists [], (y :: b ++ c). split; [done|]. split; [done|]. intros cp [= <-]. exact Ey. }
      destruct Hsp as (b & c & -> & Hb & Hc). exists [], (x :: b), c. rewrite retire_scan_rest by (done || lia).
      split; [done|]. split; [done|]. split; [by constructor|]. split; [done|]. split; [done|].
      rewrite decide_False by done. cbn [length]. f_equal; lia.
    + destruct (IH (j + 1)) as (a & b & c & -> & Ha & Hb & Hc & Hn & E); [lia|]. exists (x :: a), b, c.
      rewrite E. split; [done|]. split; [by constructor|]. split; [done|]. split; [done|]. split; [done|].
      cbn [length]. destruct (decide (b = [])); f_equal; lia.
Qed.

Lemma zip_cut {A B} (k l : Z) (xs : list A) (ys : list B) :
  length xs = length ys → zip (cut k l xs) (cut k l ys) = cut k l (zip xs ys).
Proof.
  intros Hl. unfold cut. rewrite zip_with_app by (rewrite !length_take; lia).
  by rewrite <- zip_with_take, <- zip_with_drop.
Qed.
Lemma cut_app {A} (a b c : list A) : cut (Z.of_nat (length a)) (Z.of_nat (length a + length b)) (a ++ b ++ c) = a ++ c.
Proof.
  unfold cut. rewrite !Nat2Z.id, take_app_length. f_equal. by rewrite app_assoc, <- length_app, drop_app_length.
Qed.

(** retiring components. Of a configured slot the first stretch of
    components that have expired is dropped and nothing else: what is before it
    and behind it stays, in its order and with its random numbers. *)
Theorem stretch_retired (t : Z) (g : AWG_ConfigBlock F) :
  has AWG_CONFIG g = true → otype g ≠ awgNone → length (rb g) = length (comp g) →
  ∃ a b c, zip (comp g) (rb g) = a ++ b ++ c ∧
    Forall (λ p, live t p.1) a ∧ Forall (λ p, expired t p.1 = true) b ∧ (∀ p, head c = Some p → live t p.1) ∧
    (b = [] → c = []) ∧
    let g' := retire_slot t g in zip (comp g') (rb g') = a ++ c ∧ length (rb g') = length (comp g').
Proof.
  intros Hc Ho Hl. destruct (retire_scan_spec t (comp g) 0 ltac:(done)) as (a & b & c & E & Ha & Hb & Hh & Hn & Es).
  set (z := zip (comp g) (rb g)).
  assert (Ez : fst <$> z = a ++ b ++ c) by (unfold z; rewrite fst_zip by lia; exact E).
  assert (Hlz : length z = (length a + (length b + length c))%nat) by (rewrite <- (length_fmap fst z), Ez, !length_app; lia).
  set (za := take (length a) z). set (zb := take (length b) (drop (length a) z)). set (zc := drop (length b) (drop (length a) z)).
  assert (Hz : z = za ++ zb ++ zc) by (unfold za, zb, zc; by rewrite !take_drop).
  assert (Fa : fst <$> za = a) by (unfold za; by rewrite fmap_take, Ez, take_app_length).
  assert (Fb : fst <$> zb = b) by (unfold zb; by rewrite fmap_take, fmap_drop, Ez, drop_app_length, take_app_length).
  assert (Fc : fst <$> zc = c) by (unfold zc; by rewrite !fmap_drop, Ez, !drop_app_length).
  exists za, zb, zc. split; [done|].
  split; [apply (proj1 (Forall_fmap fst (live t) za)); by rewrite Fa|].
  split; [apply (proj1 (Forall_fmap fst (λ cp, expired t cp = true) zb)); by rewrite Fb|].
  split; [intros p Hp; apply Hh; rewrite <- Fc; destruct zc; by inversion Hp|].
  split; [intros ->; rewrite <- Fb in Hn; specialize (Hn eq_refl); rewrite <- Fc in Hn; by destruct zc|].
  assert (La : length za = length a) by (by rewrite <- Fa, length_fmap).
  assert (Lb : length zb = length b) by (by rewrite <- Fb, length_fmap).
  cbv zeta. unfold retire_slot. rewrite Hc, (proj2 (Z.eqb_neq _ _) Ho), Es. cbn [negb orb]. rewrite Z.add_0_l.
  destruct (Z.leb_spec (ncomp g) 0) as [Hz0|Hz0].
  { assert (Hzn : za ++ zb ++ zc = []).
    { apply nil_length_inv. rewrite <- Hz, Hlz. unfold ncomp in Hz0. rewrite E, !length_app in Hz0. lia. }
    split; [|done]. fold z. rewrite Hz. apply app_nil in Hzn as [-> Hzn]. by apply app_nil in Hzn as [-> ->]. }
  destruct (decide (b = [])) as [Eb|Eb].
  { rewrite (proj2 (Z.ltb_ge 0 (-1))) by done. split; [|done]. fold z. rewrite Hz. rewrite Eb in Lb.
    by rewrite (nil_length_inv zb Lb). }
  rewrite (proj2 (Z.ltb_lt 0 _)) by (destruct b; [done|cbn [length]; lia]).
  cbn [comp rb set_comp]. rewrite zip_cut by done. split.
  - fold z. rewrite Z.add_0_l, Hz, <- La, <- Lb. apply cut_app.
  - unfold cut. rewrite !length_app, !length_take, !length_drop. lia.
Qed.

End components.

(** ** The bank

    One operation on the bank, with any arguments; [m] is [sys_freq_mult]. *)
Section bank.
Context {F : Type} `{FloatOps F, Libm F}.
Local Abbreviation Block := (AWG_ConfigBlock F).
Implicit Types (l : list Block) (g : Block).

Inductive operation (m : Z) (s : Bank F) : Bank F → Prop :=
  | op_get ct id a s' r : getIndexAWG m s ct id a = Some (s', r) → operation m s s'
  | op_release i : operation m s (releaseIndexAWG s i).1
  | op_lock b : operation m s (awgLock b s)
  | op_reset i : operation m s (resetAWG s i).1
  | op_disable i : operation m s (disableAWG s i).1
  | op_enable i : operation m s (enableAWG s i).1
  | op_add i comps s' r : addWaveformAWG s i comps = Some (s', r) → operation m s s'
  | op_wave b i y n : operation m s (setWaveformAWG b s i y n).1
  | op_send now i tm ep y s' r : sendWaveformAWG now s i tm ep y = Some (s', r) → operation m s s'
  | op_stop i ty a : operation m s (stopWaveformAWG s i ty a).1
  | op_gain i v t : operation m s (setGainAWG s i v t).1
  | op_filter i y n : operation m s (setFilterAWG s i y n).1
  | op_retire t : operation m s (retireAWGComp t s)
  | op_process fuel now i tm ep s' r vp : processAWG fuel now s i tm ep = Some (s', r, vp) → operation m s s'.
Inductive history (m : Z) : Bank F → Prop :=
  | history_start st fs : history m (mkBank (replicate MAX_NUM_AWG free_slot) st fs)
  | history_step s s' : history m s → operation m s s' → history m s'.

Definition binding (g : AWG_ConfigBlock F) : Z * Z * Z := (otype g, ID g, pagesize g).
Definition in_use (g : AWG_ConfigBlock F) : Prop := has AWG_IN_USE g = true.
Definition slot_ok (g : AWG_ConfigBlock F) : Prop :=
  length (rb g) = length (comp g) ∧ ncomp g <= MAX_NUM_AWG_COMPONENTS.
Definition bank_ok (l : list (AWG_ConfigBlock F)) : Prop :=
  length l = MAX_NUM_AWG ∧ Forall slot_ok l ∧
  ∀ i j, (i < MAX_NUM_AWG)%nat → (j < MAX_NUM_AWG)%nat → i ≠ j →
    in_use (l !!! i) → in_use (l !!! j) → binding (l !!! i) ≠ binding (l !!! j).

(** What does not bind keeps the bank in order. *)
Definition tame (g g' : AWG_ConfigBlock F) : Prop :=
  slot_ok g' ∧ (in_use g' → in_use g ∧ binding g' = binding g).

Lemma tame_refl g : slot_ok g → tame g g.
Proof. done. Qed.

Lemma bank_map l l' :
  bank_ok l → length l' = length l →
  (∀ k, (k < MAX_NUM_AWG)%nat → slot_ok (l !!! k) → tame (l !!! k) (l' !!! k)) → bank_ok l'.
Proof.
  intros (Hl & Hs & Hx) Hl' Ht.
  assert (Ht' : ∀ k, (k < MAX_NUM_AWG)%nat → tame (l !!! k) (l' !!! k)).
  { intros k Hk. apply Ht; [done|]. apply (proj1 (Forall_lookup_total _ _) Hs). lia. }
  split; [lia|]. split.
  - apply (proj2 (Forall_lookup_total _ _)). intros k Hk. apply Ht'. lia.
  - intros i j Hi Hj Hn Ui Uj. destruct (Ht' i Hi) as [_ Bi], (Ht' j Hj) as [_ Bj].
    destruct (Bi Ui) as [Ui' ->], (Bj Uj) as [Uj' ->]. by apply Hx.
Qed.

Lemma bank_insert l k g' : bank_ok l → (slot_ok (l !!! k) → tame (l !!! k) g') → bank_ok (<[k := g']> l).
Proof.
  intros Hb Ht. destruct (decide (k < length l)%nat) as [Hk|Hk]; [|by rewrite list_insert_ge by lia].
  apply (bank_map l); [done|by rewrite length_insert|]. intros j Hj Hs.
  rewrite lookup_total_insert by lia. destruct (decide (j = k)) as [->|]; [by apply Ht|by apply tame_refl].
Qed.
Lemma bank_fmap l f : bank_ok l → (∀ g, slot_ok g → tame g (f g)) → bank_ok (f <$> l).
Proof.
  intros Hb Ht. apply (bank_map l); [done|by rewrite length_fmap|]. intros j Hj Hs. destruct Hb as (Hl & _).
  rewrite (list_lookup_total_fmap f l j) by lia. by apply Ht.
Qed.

Lemma slot_search_spec l j ct ch pg ifree :
  match slot_search l j ct ch pg ifree with
  | inl i => True
  | inr r => (∀ k, (k < length l)%nat → in_use (l !!! k) → binding (l !!! k) ≠ (ct, ch, pg)) ∧
             (r = ifree ∨ ∃ k, (k < length l)%nat ∧ r = j + Z.of_nat k ∧ ¬ in_use (l !!! k))
  end.
Proof.
  revert j ifree. induction l as [|g l IH]; intros j ifree; cbn [slot_search].
  - split; [intros k Hk; cbn in Hk; lia|by left].
  - destruct (has AWG_IN_USE g) eqn:Eu; cbn [negb].
    + destruct ((otype g =? ct) && (ID g =? ch) && (pagesize g =? pg)) eqn:Eb; [done|].
      specialize (IH (j + 1) ifree). destruct (slot_search l (j + 1) ct ch pg ifree); [done|]. destruct IH as [H1 H2]. split.
      * intros [|k] Hk; [|apply H1; cbn in Hk; lia]. intros _ [= Eo Ei Ep]. cbn in Eo, Ei, Ep. rewrite Eo, Ei, Ep, !Z.eqb_refl in Eb. done.
      * destruct H2 as [->|(k & Hk & -> & Hu)]; [by left|]. right. exists (S k). cbn [length]. split; [lia|]. split; [lia|done].
    + specialize (IH (j + 1) j). destruct (slot_search l (j + 1) ct ch pg j); [done|]. destruct IH as [H1 H2]. split.
      * intros [|k] Hk; [|apply H1; cbn in Hk; lia]. intros Hu. unfold in_use in Hu. cbn in Hu. congruence.
      * right. destruct H2 as [->|(k & Hk & -> & Hu)].
        -- exists 0%nat. cbn [length]. split; [lia|]. split; [lia|]. unfold in_use. cbn. congruence.
        -- exists (S k). cbn [length]. split; [lia|]. split; [lia|done].
Qed.

Lemma get_bank m (s : Bank F) ct id a s' r : bank_ok (AWG s) → getIndexAWG m s ct id a = Some (s', r) → bank_ok (AWG s').
Proof.
  intros Hb. unfold getIndexAWG. destruct (awg_request m ct id) as [ch pg|ret|]; [|by intros [= <- _]|done].
  pose proof (slot_search_spec (AWG s) 0 ct ch pg (-3)) as Hs. destruct (slot_search (AWG s) 0 ct ch pg (-3)) as [i|ifree];
    [by intros [= <- _]|]. destruct (Z.leb_spec 0 ifree) as [Hi|Hi]; [|by intros [= <- _]].
  intros Eq. injection Eq as <- _. destruct Hs as [Hfree [->|(k & Hk & -> & Hu)]]; [done|]. rewrite Z.add_0_l, Nat2Z.id.
  destruct Hb as (Hl & Hsl & Hx). cbn [AWG set_awg]. set (g := mkAwg _ _ _ _ _ _ _ _ _ _ _).
  assert (Hg : ∀ j, (j < MAX_NUM_AWG)%nat → <[k := g]> (AWG s) !!! j = if decide (j = k) then g else AWG s !!! j)
    by (intros j Hj; apply lookup_total_insert; lia).
  split; [by rewrite length_insert|]. split; [apply Forall_insert; [done|by split]|].
  intros i j Hi' Hj Hn. rewrite !Hg by done. destruct (decide (i = k)) as [->|], (decide (j = k)) as [->|]; try done.
  - intros _ Uj E. apply (Hfree j); [lia|done|by rewrite <- E].
  - intros Ui _. apply Hfree; [lia|done].
  - by apply Hx.
Qed.

Lemma release_bank s k : bank_ok (AWG s) → bank_ok (AWG (release_slot k s)).
Proof.
  intros Hb. unfold release_slot. destruct (unbreakable _); [done|]. cbn [AWG set_filter set_awg].
  apply bank_insert; [done|]. intros _. split; [by split|]. intros Hu. by vm_compute in Hu.
Qed.

Lemma add_loop_length pgsize todo cs rbs n cs' rbs' n' :
  add_loop pgsize todo cs rbs n = Some (cs', rbs', n') → length rbs = length cs →
  Z.of_nat (length cs) <= MAX_NUM_AWG_COMPONENTS →
  length rbs' = length cs' ∧ Z.of_nat (length cs') <= MAX_NUM_AWG_COMPONENTS.
Proof.
  revert cs rbs n. induction todo as [|cp todo IH]; intros cs rbs n E Hl Hm; cbn [add_loop] in E.
  - by injection E as <- <- _.
  - destruct ((Z.of_nat (length cs) <? MAX_NUM_AWG_COMPONENTS) && negb (wtype cp =? awgNone)) eqn:Eb;
      [|by injection E as <- <- _].
    apply andb_true_iff in Eb as [Hlt%Z.ltb_lt _]. destruct (awgBinarySearch cs cp) as [k|]; [|done]. cbn [mbind option_bind] in E.
    apply IH in E; [done|by rewrite !length_insert_at, Hl|rewrite length_insert_at; lia].
Qed.

Lemma stop_endless_length now (cs : list (AWG_Component F)) : (length (stop_endless now cs) <= length cs)%nat.
Proof. unfold stop_endless. destruct (_ && _); rewrite length_take, ?length_alter; lia. Qed.

Lemma retire_tame t g : slot_ok g → tame g (retire_slot t g).
Proof.
  intros [Hl Hm]. destruct (has AWG_CONFIG g) eqn:Ec; [|by unfold retire_slot; rewrite Ec].
  destruct (decide (otype g = awgNone)) as [Eo|Eo]; [by unfold retire_slot; rewrite Ec, Eo|].
  destruct (retire_scan_spec t (comp g) 0 ltac:(done)) as (a & b & c & E & _ & _ & _ & _ & Es).
  unfold retire_slot. rewrite Ec, (proj2 (Z.eqb_neq _ _) Eo), Es. cbn [negb orb]. rewrite Z.add_0_l.
  destruct (ncomp g <=? 0); [by split|]. destruct (decide (b = [])); [by split|].
  destruct (0 <? _); [|by split]. split; [|done]. unfold slot_ok, ncomp in *. cbn [rb comp set_comp].
  unfold cut. rewrite !length_app, !length_take, !length_drop, <- Hl in *. lia.
Qed.

Lemma comp_loop_length fuel now tm ep dly inv cs rbs st vp cs' rbs' st' vp' :
  comp_loop (F := F) fuel now tm ep dly inv cs rbs st vp = Some (cs', rbs', st', vp') → length rbs = length cs →
  length rbs' = length cs' ∧ length cs' = length cs.
Proof.
  revert inv rbs st vp cs' rbs' st' vp'. induction cs as [|cp cs IH]; intros inv [|r rbs] st vp cs' rbs' st' vp' E Hl; cbn [comp_loop] in E;
    try done; [by injection E as <- <- _ _|].
  destruct (calcAWGComp fuel now tm ep dly cp r st vp) as [[[[[v cp1] r1] st1] vp1]|]; [|done]. cbn [mbind option_bind] in E.
  destruct (_ <? _); [injection E as <- <- _ _; done|].
  destruct (comp_loop fuel now tm ep dly (inv + v) cs rbs st1 vp1) as [[[[cs2 rbs2] st2] vp2]|] eqn:Ec; [|done].
  cbn [mbind option_bind] in E. injection E as <- <- _ _. cbn [length] in *. apply IH in Ec as [? ?]; lia.
Qed.

Lemma status_tame g v : slot_ok g → (Z.land v AWG_IN_USE = Z.land (status g) AWG_IN_USE) → tame g (set_status v g).
Proof. intros Hs E. split; [done|]. unfold in_use, has. cbn [status set_status]. by rewrite E. Qed.

Lemma add_bank (s : Bank F) i comps s' r : bank_ok (AWG s) → addWaveformAWG s i comps = Some (s', r) → bank_ok (AWG s').
Proof.
  intros Hb.
  unfold addWaveformAWG. destruct (in_bank i); [|by intros [= <- _]]. cbn [negb]. destruct (unbreakable _); [by intros [= <- _]|].
  destruct (_ || _); [by intros [= <- _]|]. destruct (awgSortComponents _) as [srt|]; [|done]. cbn [mbind option_bind].
  destruct (add_loop _ srt _ _ 0) as [[[cs rbs] n]|] eqn:Ea; [|done]. cbn [mbind option_bind]. intros [= <- _].
  cbn [AWG set_awg]. apply bank_insert; [done|]. intros [Hl Hm]. split; [|done]. by eapply add_loop_length.
Qed.
Lemma send_bank (s : Bank F) now i tm ep y s' r : bank_ok (AWG s) → sendWaveformAWG now s i tm ep y = Some (s', r) → bank_ok (AWG s').
Proof.
  intros Hb.
  unfold sendWaveformAWG. destruct (in_bank i); [|by intros [= <- _]]. cbn [negb]. destruct (unbreakable _); [by intros [= <- _]|].
  destruct (_ || _); [by intros [= <- _]|]. destruct (_ =? 0); [done|]. cbv zeta. destruct (_ || _); [by intros [= <- _]|].
  destruct (_ <? _); [by intros [= <- _]|]. destruct (_ <=? _); [by intros [= <- _]|].
  destruct (send_loop _ _ _ _ _ _ _ _) as [[st dup]|]; [|done]. cbn [mbind option_bind]. destruct (borrow _ _) as [bt be].
  destruct (stream_index bt be); [|done]. cbn [mbind option_bind].
  destruct (holds _ _ _); cbn [negb]; [|by intros [= <- _]]. destruct dup; [by intros [= <- _]|].
  destruct (_ <=? _); by intros [= <- _].
Qed.
Lemma process_bank (s : Bank F) fuel now i tm ep s' r vp : bank_ok (AWG s) → processAWG fuel now s i tm ep = Some (s', r, vp) → bank_ok (AWG s').
Proof.
  intros Hb.
  unfold processAWG. destruct (in_bank i); [|by intros [= <- _ _]]. cbn [negb]. destruct (_ || _); [by intros [= <- _ _]|].
  destruct (comp_loop _ _ _ _ _ _ _ _ _ _) as [[[[cs rbs] st] vp1]|] eqn:Ec; [|done]. cbn [mbind option_bind].
  destruct (calcAWGFilter _ _) as [c vp2]. destruct (calcAWGGain _ _ _ _) as [a vp3]. intros [= <- _ _].
  cbn [AWG]. apply bank_insert; [done|]. intros [Hl Hm]. destruct (comp_loop_length _ _ _ _ _ _ _ _ _ _ _ _ _ _ Ec Hl) as [E1 E2].
  split; [|done]. split; [done|]. unfold ncomp in *. cbn [comp set_tproc set_gain set_comp]. lia.
Qed.
Lemma stop_bank (s : Bank F) i ty a : bank_ok (AWG s) → bank_ok (AWG (stopWaveformAWG s i ty a).1).
Proof.
  intros Hb.
  unfold stopWaveformAWG. destruct (in_bank i) eqn:Ei; [|done]. cbn [negb]. destruct (unbreakable _) eqn:Eu; [done|].
  destruct (negb (ty =? 1) && negb (ty =? 2)).
  { unfold resetAWG. rewrite Ei. cbn [negb fst AWG set_awg]. apply bank_insert; [done|].
    unfold reset_slot. intros Hs. destruct (unbreakable _); [done|]. by repeat split. }
  cbv zeta. destruct (ty =? 1); cbn [fst AWG set_awg]; (apply bank_insert; [done|]); intros [Hl Hm]; split; try done; split;
    unfold ncomp in *; cbn [rb comp set_comp]; fold (slot s i) in *.
  + pose proof (stop_endless_length (tproc (slot s i) + _EPOCH) (comp (slot s i))). rewrite length_take. lia.
  + pose proof (stop_endless_length (tproc (slot s i) + _EPOCH) (comp (slot s i))). lia.
  + by rewrite length_fmap.
  + by rewrite length_fmap.
Qed.

Lemma operation_bank m (s s' : Bank F) : bank_ok (AWG s) → operation m s s' → bank_ok (AWG s').
Proof.
  intros Hb Ho. destruct Ho.
  - by eapply get_bank.
  - unfold releaseIndexAWG. destruct (_ =? -1); [|destruct (in_bank i); [by apply release_bank|done]].
    apply (for_up_inv (λ s, bank_ok (AWG s))); [done|]. intros k s' _ Hs'. by apply release_bank.
  - cbn [awgLock AWG]. by apply bank_fmap.
  - unfold resetAWG. destruct (in_bank i); [|done]. cbn [negb fst AWG set_awg]. apply bank_insert; [done|].
    unfold reset_slot, slot. intros Hs. destruct (unbreakable _); [done|]. by repeat split.
  - unfold disableAWG. destruct (in_bank i); [|done]. cbn [negb fst AWG set_awg]. apply bank_insert; [done|].
    intros Hs. apply status_tame; [done|]. rewrite <- Z.land_assoc. done.
  - unfold enableAWG. destruct (in_bank i); [|done]. cbn [negb]. destruct (has AWG_CONFIG _); [|done].
    cbn [negb fst AWG set_awg]. apply bank_insert; [done|]. intros Hs. apply status_tame; [done|].
    rewrite Z.land_lor_distr_l. change (Z.land AWG_ENABLE AWG_IN_USE) with 0. by rewrite Z.lor_0_r.
  - by eapply add_bank.
  - unfold setWaveformAWG. destruct y as [y|]; [|done]. destruct (in_bank i); [|done]. cbn [negb].
    destruct (unbreakable _); [done|]. destruct (_ || _); [done|]. destruct (n <=? 0), b; cbn [negb fst AWG set_awg];
      (apply bank_insert; [done|]; intros Hs; exact (conj Hs (λ Hu, conj Hu eq_refl))).
  - by eapply send_bank.
  - by apply stop_bank.
  - unfold setGainAWG. destruct (in_bank i); [|done]. cbn [negb]. destruct (unbreakable _); [done|].
    cbn [fst AWG set_awg]. apply bank_insert; [done|]. intros Hs. exact (conj Hs (λ Hu, conj Hu eq_refl)).
  - unfold setFilterAWG. destruct (_ || _); [done|]. destruct (in_bank i); [|done]. cbn [negb]. destruct (unbreakable _); [done|].
    by destruct (_ =? 0).
  - cbn [retireAWGComp AWG]. apply bank_fmap; [done|]. intros g. apply retire_tame.
  - by eapply process_bank.
Qed.

Lemma history_bank m (s : Bank F) : history m s → bank_ok (AWG s).
Proof.
  induction 1 as [st fs|s s' _ IH Ho]; [|by eapply operation_bank]. cbn [AWG]. split; [done|]. split.
  - apply Forall_replicate. by split.
  - intros i j Hi Hj _ Ui. unfold in_use in Ui. rewrite lookup_total_replicate_2 in Ui by done. by vm_compute in Ui.
Qed.

(** C25: one slot for a channel. Whatever clients and the generators do, two slots
    in use are never bound to the same channel, no slot holds more components
    than its array, and each component has its random numbers. *)
Theorem channel_of_one_slot m (s : Bank F) (i j : nat) :
  history m s → (i < MAX_NUM_AWG)%nat → (j < MAX_NUM_AWG)%nat →
  (i ≠ j → in_use (AWG s !!! i) → in_use (AWG s !!! j) → binding (AWG s !!! i) ≠ binding (AWG s !!! j)) ∧
  ncomp (AWG s !!! i) <= MAX_NUM_AWG_COMPONENTS ∧ length (rb (AWG s !!! i)) = length (comp (AWG s !!! i)).
Proof.
  intros Hh Hi Hj. destruct (history_bank m s Hh) as (Hl & Hs & Hx). split; [by apply Hx|].
  destruct (proj1 (Forall_lookup_total _ _) Hs i ltac:(lia)). done.
Qed.

End bank.

(** ** Witnesses *)
Section witnesses.
Local Open Scope R_scope.

Definition some_comp : AWG_Component R := awgConstantComponentEx 5 1.
Definition some_slot : AWG_ConfigBlock R :=
  mkAwg 7 awgLSCtp 0 1 2 [GdsRand.zero_block] [some_comp] unit_gain None 0 false.
Definition some_bank : Bank R :=
  mkBank (replicate MAX_NUM_AWG some_slot) (replicate MAX_NUM_AWG (replicate 256 (mkPage 0 0 0 0 []))) (replicate MAX_NUM_AWG inhabitant).

Lemma waveforms_added_witness :
  let g := slot some_bank 3 in
  let t := (tproc g + _EPOCH)%Z in
  let valids := filter present (prepare_comp t <$> [some_comp; some_comp]) in
  let m := Nat.min (length valids) (Z.to_nat MAX_NUM_AWG_COMPONENTS - length (comp g))%nat in
  ∃ cs rbs earliest,
    addWaveformAWG some_bank 3 [some_comp; some_comp] = Some (set_awg 3 (set_comp cs rbs g) some_bank, Z.of_nat m) ∧
    ordered cs ∧ earliest ≡ₚ valids ∧ ordered earliest ∧ cs ≡ₚ take m earliest ++ comp g ∧ length rbs = length cs.
Proof.
  apply (waveforms_added some_bank 3 [some_comp; some_comp]); try reflexivity; try done.
  - intros i j Hij. change (length _) with 1%nat in Hij. lia.
  - repeat constructor.
Defined.

Lemma stopped_by_witness :
  let g := slot some_bank 3 in
  let stop := (tproc g + _EPOCH + Z.max 0 100)%Z in
  ∃ f, stopWaveformAWG some_bank 3 2 100 = (set_awg 3 (set_comp (f <$> comp g) (rb g) g) some_bank, 0%Z) ∧
    ∀ cp, present cp →
      ((-1 <= duration cp)%Z → (start cp <= stop)%Z → expired stop (f cp) = true) ∧
      ((stop < start cp)%Z ∨ (duration cp < -1)%Z → ∀ t, expired t (f cp) = false).
Proof. apply (stopped_by some_bank 3 100); reflexivity. Defined.

Lemma stretch_retired_witness :
  ∃ a b c, zip (comp some_slot) (rb some_slot) = a ++ b ++ c ∧
    Forall (λ p, live 9 p.1) a ∧ Forall (λ p, expired 9 p.1 = true) b ∧ (∀ p, head c = Some p → live 9 p.1) ∧
    (b = [] → c = []) ∧
    let g' := retire_slot 9 some_slot in zip (comp g') (rb g') = a ++ c ∧ length (rb g') = length (comp g').
Proof. apply (stretch_retired 9 some_slot); done. Defined.

Definition empty_bank : Bank R := mkBank (replicate MAX_NUM_AWG free_slot) [] [].
Definition bound_bank : Bank R := default empty_bank (fst <$> getIndexAWG 1 empty_bank awgLSCtp 5 0).
Lemma channel_of_one_slot_witness :
  history 1 bound_bank ∧
  (8 ≠ 7 → in_use (AWG bound_bank !!! 8) → in_use (AWG bound_bank !!! 7) → binding (AWG bound_bank !!! 8) ≠ binding (AWG bound_bank !!! 7))%nat ∧
  (ncomp (AWG bound_bank !!! 8%nat) <= MAX_NUM_AWG_COMPONENTS)%Z ∧
  length (rb (AWG bound_bank !!! 8%nat)) = length (comp (AWG bound_bank !!! 8%nat)).
Proof.
  assert (Hh : history 1 bound_bank).
  { apply (history_step _ empty_bank); [apply history_start|]. apply (op_get _ _ awgLSCtp 5 0 _ 8). reflexivity. }
  split; [exact Hh|]. apply (channel_of_one_slot 1 bound_bank 8 7); [exact Hh|by apply Nat.ltb_lt|by apply Nat.ltb_lt].
Defined.
End witnesses.
End AwgProps.
