(* ===== verification/AwgPage.v ===== *)
(** * Waveform generators: theorems about the samples ([AwgFunc.v], [AwgCalc.v])

    In real arithmetic: the page of a periodic component ([periodic_page]), of a
    stream from the client's command to the output ([stream_delivered]) and the
    gain ramp ([gain_ramp]); and that the makers of components make valid ones
    ([made_valid]). *)
From Stdlib Require Import Reals Lra.
From S2P Require Import Prelude CFloat Iir GdsRand AwgFunc AwgSort Awg AwgCalc AwgProps.
Import Iir AwgFunc Awg AwgCalc AwgProps.

Module AwgPage.
Open Scope R_scope.
Local Abbreviation Comp := (AWG_Component R).

(** ** A loop that neither ends nor restarts *)
Section steady.
Context {X : Type} (tend dt : R) (again : Z) (resync : R → X → X) (g : nat → R → X → R → R) (nx : X → X).

Lemma sample_loop_steady i st t x vp :
  (∀ k, (k < length vp)%nat → t + INR k * dt < tend) →
  sample_loop tend dt again resync (λ i t x v, Some (g i t x v, nx x)) i st t x vp =
    Some (st, Nat.iter (length vp) nx x, imap (λ k v, g (i + k)%nat (t + INR k * dt) (Nat.iter k nx x) v) vp).
Proof.
  revert i t x. induction vp as [|v vp IH]; intros i t x Ht; [done|]. cbn [sample_loop length].
  pose proof (Ht 0%nat ltac:(cbn [length]; lia)) as H0. cbn [INR] in H0. rops.
  destruct (Rle_dec tend t); [lra|]. cbn [andb mbind option_bind].
  rewrite IH.
  - cbn [mbind option_bind]. rewrite Nat.iter_succ_r. do 2 f_equal. rewrite imap_cons. f_equal.
    + rewrite Nat.add_0_r. cbn [INR Nat.iter]. by replace (t + 0 * dt) with t by lra.
    + apply imap_ext. intros k v' Hk. unfold compose. rewrite S_INR, Nat.iter_succ_r. f_equal; [lia|lra].
  - intros k Hk. specialize (Ht (S k) ltac:(cbn [length]; lia)). rewrite S_INR in Ht. lra.
Qed.
End steady.

(** The samples of a page lie within a sixteenth of a second. *)
Lemma sample_time_bound n k : (k < n)%nat → 0 <= INR k * sample_time (Z.of_nat n) < 1 / 16.
Proof.
  intros Hk. unfold sample_time. rops. unfold NUMBER_OF_EPOCHS. rewrite mult_IZR, <- INR_IZR_INZ.
  assert (0 <= INR k) by apply pos_INR. assert (Hlt : INR k < INR n) by (by apply lt_INR). assert (Hn : 0 < INR n) by lra.
  split.
  - apply Rmult_le_pos; [done|]. left. apply Rdiv_lt_0_compat; lra.
  - apply Rmult_lt_reg_r with (16 * INR n); [lra|]. field_simplify; lra.
Qed.

Lemma set_start_id (cp : Comp) : set_start (start cp) cp = cp.
Proof. by destruct cp. Qed.

(** A component at its full size: it does not end and has no ramp at its start. *)
Definition endless (cp : Comp) : Prop := (duration cp < 0)%Z ∧ ramptime cp !!! 0%nat = 0%Z.
Lemma endless_ramps cp t : endless cp → ramp_times cp t = mkRamps 0 0 0 (t + 1) (t + 1).
Proof.
  intros [Hd Hr]. unfold ramp_times. rewrite (proj2 (Z.ltb_lt _ _) Hd), Hr. unfold seconds. rops.
  by replace (0 / __ONESEC) with 0 by (unfold Rdiv; lra).
Qed.

(** ** Phases *)
Lemma PI_pos : 0 < (PI : R).
Proof. by apply flit_pos. Qed.
Lemma TWO_PI_pos : 0 < (TWO_PI : R).
Proof. pose proof PI_pos. unfold TWO_PI. rops. lra. Qed.

Lemma to_long_int (x : R) : ∃ z : Z, to_long x = IZR z.
Proof. unfold to_long. rops. by eexists. Qed.

Lemma normPhase_turns (phi : R) : ∃ z : Z, normPhase phi = phi + TWO_PI * IZR z.
Proof.
  unfold normPhase, fMod. destruct (_ && _).
  - exists 0%Z. lra.
  - exists (- Int_part (phi / TWO_PI))%Z. rops. cbn [lfloor R_libm]. rewrite opp_IZR. lra.
Qed.

Lemma startPhase_turns (f t dphi : R) : ∃ z : Z, startPhase f t dphi = TWO_PI * f * t - dphi + TWO_PI * IZR z.
Proof.
  unfold startPhase. destruct (to_long_int t) as [zt ->], (to_long_int f) as [zf ->].
  destruct (normPhase_turns (TWO_PI ⊗ (f ⊗ (t ⊖ IZR zt) ⊕ IZR zt ⊗ (f ⊖ IZR zf)) ⊖ dphi)) as [z ->].
  exists (z - zt * zf)%Z. rewrite minus_IZR, mult_IZR. rops. lra.
Qed.

Lemma next_phase_turns (dph ph : R) : ∃ z : Z, next_phase dph ph = ph + dph + TWO_PI * IZR z.
Proof. unfold next_phase. destruct (_ >ᶠ _); [exists (-1)%Z|exists 0%Z]; rops; ring. Qed.

Lemma phase_turns (dph ph : R) k : ∃ z : Z, Nat.iter k (next_phase dph) ph = ph + INR k * dph + TWO_PI * IZR z.
Proof.
  induction k as [|k [z IH]]; [exists 0%Z; change (INR 0) with 0; cbn [Nat.iter nat_rect]; ring|]. rewrite Nat.iter_succ, IH.
  destruct (next_phase_turns dph (ph + INR k * dph + TWO_PI * IZR z)) as [z' ->].
  exists (z + z')%Z. rewrite plus_IZR, S_INR. lra.
Qed.

(** a page of a periodic signal. To every sample of the page an endless
    component that has started adds its signal at a phase that is, up to whole
    turns, 2 pi times the frequency times the time of that sample, less the
    phase of the component; so the signal runs on from page to page. *)
Theorem periodic_page (cp : Comp) (t : R) (vp : list R) :
  endless cp → 0 <= t →
  ∃ phase : nat → R,
    calcAWGPeriodic cp t vp =
      Some (cp, imap (λ k v, v + awgPeriodicSignal (wtype cp) (par cp !!! 0%nat) (par cp !!! 3%nat) (phase k)) vp) ∧
    ∀ k, ∃ z : Z, phase k =
      TWO_PI * (par cp !!! 1%nat) * (t + INR k * sample_time (Z.of_nat (length vp))) - par cp !!! 2%nat + TWO_PI * IZR z.
Proof.
  intros He Ht. set (f := par cp !!! 1%nat). set (dt := sample_time (Z.of_nat (length vp))).
  exists (λ k, Nat.iter k (next_phase (dt ⊗ f ⊗ TWO_PI)) (startPhase f t (par cp !!! 2%nat))). split.
  - unfold calcAWGPeriodic. rewrite endless_ramps by done. cbn [tEND]. fold f dt.
    rewrite sample_loop_steady.
    + cbn [mbind option_bind]. rewrite set_start_id. do 2 f_equal. apply imap_ext. intros k v Hk.
      apply lookup_lt_Some in Hk. pose proof (sample_time_bound _ _ Hk) as Hb. fold dt in Hb.
      unfold add_value, periodic_value. cbn [t1 t2 tEND tPI tPO]. rops. repeat (rcase; try lra).
    + intros k Hk. pose proof (sample_time_bound _ _ Hk) as Hb. fold dt in Hb. lra.
  - intros k. destruct (phase_turns (dt ⊗ f ⊗ TWO_PI) (startPhase f t (par cp !!! 2%nat)) k) as [z ->].
    destruct (startPhase_turns f t (par cp !!! 2%nat)) as [z' ->]. exists (z + z')%Z. rewrite plus_IZR. rops. lra.
Qed.

(** ** The gain *)

(** The part of a ramp of length [dur] that is over at [t]. *)
Definition part (dur t : R) : R := Rmax 0 (Rmin 1 (t / dur)).
Lemma part_bounds dur t : 0 <= part dur t <= 1.
Proof. unfold part, Rmax, Rmin. repeat destruct Rle_dec; lra. Qed.

Lemma part_spec dur t : 0 < dur → part dur t = if Rle_dec t 0 then 0 else if Rle_dec dur t then 1 else t / dur.
Proof.
  intros Hd. unfold part. assert (Hs : t / dur * dur = t) by (field; lra). set (q := t / dur) in *.
  unfold Rmin, Rmax. destruct (Rle_dec t 0); [|destruct (Rle_dec dur t)]; repeat destruct Rle_dec; try done; try (exfalso; nra); nra.
Qed.

Lemma ramp_gain_part a dur t : 0 < dur → ramp_gain a dur t = old a + (value a - old a) * part dur t.
Proof.
  intros Hd. rewrite part_spec by done. unfold ramp_gain. rops.
  destruct (Rle_dec t 0); [ring|]. destruct (Rle_dec dur t); [ring|]. unfold Rdiv. ring.
Qed.

Lemma gain_loop_imap a dur dt g t vp :
  0 < dur →
  gain_loop a dur dt g t vp =
    (match length vp with O => g | S n => old a + (value a - old a) * part dur (t + INR n * dt) end,
     t + INR (length vp) * dt,
     imap (λ k v, v * (old a + (value a - old a) * part dur (t + INR k * dt))) vp).
Proof.
  intros Hd. revert g t. induction vp as [|v vp IH]; intros g t; cbn [gain_loop length].
  - change (INR 0) with 0. do 2 f_equal. ring.
  - rewrite IH, ramp_gain_part by done. rops. rewrite imap_cons. change (INR 0) with 0.
    replace (t + 0 * dt) with t by ring. f_equal; [f_equal|f_equal].
    + destruct vp as [|v' vp]; cbn [length]; [change (INR 0) with 0; by replace (t + 0 * dt) with t by ring|].
      rewrite S_INR. do 3 f_equal. ring.
    + rewrite S_INR. ring.
    + apply imap_ext. intros k v' Hk. unfold compose. rewrite S_INR. do 4 f_equal. ring.
Qed.

(** the gain ramp. While a gain ramps, each sample of a page is multiplied by
    the point of the straight line from the old gain to the new one that belongs
    to the time of the sample; the gain never leaves the two, and the one a
    command that interrupts the ramp starts from is that of the last sample. *)
Theorem gain_ramp (tm ep : Z) (a : AWG_Gain R) (vp : list R) (v' : R) (rtime : Z) :
  let a1 := gain_start tm ep a in
  let dur := seconds (gramptime a1) in
  let t k := seconds (epoch_time tm ep - rampstart a1) + INR k * sample_time (Z.of_nat (length vp)) in
  let g k := old a1 + (value a1 - old a1) * part dur (t k) in
  gstate a1 = 2%Z → (0 < gramptime a1)%Z → vp ≠ [] →
  let '(a2, vp2) := calcAWGGain tm ep a vp in
  vp2 = imap (λ k v, v * g k) vp ∧
  (∀ k, Rmin (old a1) (value a1) <= g k <= Rmax (old a1) (value a1)) ∧
  (gstate a2 = 2%Z → old (new_gain v' rtime a2) = g (length vp - 1)%nat) ∧
  (dur <= t (length vp) → gstate a2 = 0%Z).
Proof.
  intros a1 dur t g Hs Hr Hv. unfold calcAWGGain. fold a1. rewrite Hs. cbn [negb Z.eqb Pos.eqb].
  assert (Hd : 0 < dur).
  { unfold dur, seconds, __ONESEC. rops. apply Rdiv_lt_0_compat; by apply IZR_lt. }
  fold dur. rewrite gain_loop_imap by done. split; [done|]. split; [|split].
  - intros k. unfold g. pose proof (part_bounds dur (t k)). unfold Rmin, Rmax. repeat destruct Rle_dec; nra.
  - unfold new_gain. cbn [gstate current old]. destruct (_ >ᶠ _); [done|]. intros _. cbn [Z.eqb Pos.eqb].
    destruct vp as [|v vp]; [done|]. unfold g, t. cbn [length]. by rewrite Nat.sub_succ, Nat.sub_0_r.
  - intros Hend. cbn [gstate]. unfold t in Hend. rops.
    destruct (Rlt_dec _ _) as [|Hn]; [done|]. exfalso. apply Hn.
    pose proof (flit_pos 1 (-9) ltac:(done)) as Hf. rops. lra.
Qed.

(** ** Making components *)
Definition valid_sine (c : Comp) : Prop :=
  wtype c = awgSine ∧ (0 <= start c)%Z ∧ 0 <= par c !!! 0%nat ∧ 0 <= par c !!! 1%nat ∧
  0 <= ramppar c !!! 0%nat ∧ 0 <= ramppar c !!! 1%nat ∧
  (PHASE_IN_TYPE (ramptype c) = AWG_PHASING_STEP ∧
   (PHASE_OUT_TYPE (ramptype c) = AWG_PHASING_LINEAR ∧ SWEEP_OUT_TYPE (ramptype c) = AWG_PHASING_LINEAR ∨
    PHASE_OUT_TYPE (ramptype c) = AWG_PHASING_LOG ∧ SWEEP_OUT_TYPE (ramptype c) = AWG_PHASING_LOG)) ∧
  (0 <= ramptime c !!! 0%nat)%Z ∧ (0 <= ramptime c !!! 1%nat)%Z.

Lemma not_lt (x y : R) : y <= x → (x <ᶠ y) = false.
Proof. intros Hx. rops. destruct (Rlt_dec x y); [lra|done]. Qed.

Lemma valid_sine_valid c : valid_sine c → awgIsValidComponent c = true.
Proof.
  intros (Ew & Hs & H1 & H2 & H3 & H4 & (E1 & E2) & H5 & H6). unfold awgIsValidComponent, par_ok. rewrite Ew, E1.
  cbn [Z.eqb Pos.eqb orb awgSine awgNone]. rewrite !not_lt by done. apply Z.ltb_ge in Hs, H5, H6. rewrite Hs, H5, H6.
  by destruct E2 as [[-> ->]|[-> ->]].
Qed.

Lemma sweep_one_valid t d fa fb a1 a2 flag c :
  sweep_one t d fa fb a1 a2 flag = Some c →
  valid_sine c ∧ start c = t ∧ duration c = d ∧ par c = [Rabs a1; fa; 0; 0] ∧ ramppar c = [Rabs a2; fb; 0; 0].
Proof.
  unfold sweep_one. destruct (_ || _) eqn:Eb; [done|]. intros [= <-]. rewrite !orb_false_iff in Eb.
  destruct Eb as (((((Ht%Z.ltb_ge & Hd%Z.leb_gt) & Hfa) & Hfb) & Ha1) & Ha2). revert Hfa Hfb. rops.
  destruct (Rlt_dec fa 0), (Rlt_dec fb 0); try done. intros _ _.
  split; [|done]. unfold valid_sine. cbn [wtype start par ramppar ramptype ramptime].
  split; [done|]. split; [done|]. split; [apply Rabs_pos|]. split; [cbn; lra|]. split; [apply Rabs_pos|]. split; [cbn; lra|].
  split; [|cbn; lia]. destruct (_ =? 0)%Z; (split; [done|]); [left|right]; done.
Qed.

(** sweeps. Every component of a sweep is valid; the first starts at the time
    asked for, and of a sweep there and back the second starts when the first
    ends, at the frequency and the amplitude the first has come to, and
    returns to those the first started from. *)
Theorem sweep_made (t d : Z) (fa fb a1 a2 : R) (flag : Z) (cs : list Comp) :
  awgSweepComponents t d fa fb a1 a2 flag = Some cs →
  Forall (λ c, awgIsValidComponent c = true) cs ∧
  match cs with
  | [c] => start c = t ∧ duration c = d
  | [c0; c1] => start c0 = t ∧ start c1 = (start c0 + duration c0)%Z ∧ par c1 = ramppar c0 ∧ ramppar c1 = par c0
  | _ => False
  end.
Proof.
  unfold awgSweepComponents. destruct (negb _).
  - destruct (sweep_one t _ _ _ _ _ _) as [c0|] eqn:E0; [|done]. cbn [mbind option_bind].
    destruct (sweep_one (t + _) _ _ _ _ _ _) as [c1|] eqn:E1; [|done]. cbn [mbind option_bind].
    apply sweep_one_valid in E0 as (V0 & S0 & D0 & P0 & R0), E1 as (V1 & S1 & D1 & P1 & R1).
    intros Eq. injection Eq as <-. destruct (_ =? 0)%Z.
    + split; [repeat constructor; by apply valid_sine_valid|]. cbn [start duration par ramppar set_restart].
      rewrite P0, P1, R0, R1, S0, S1, D0. done.
    + split; [repeat constructor; by apply valid_sine_valid|]. rewrite P0, P1, R0, R1, S0, S1, D0. done.
  - destruct (sweep_one t d fa fb a1 a2 flag) as [c|] eqn:E; [|done]. intros [= <-].
    apply sweep_one_valid in E as (V & S0 & D0 & _). split; [|done]. repeat constructor. by apply valid_sine_valid.
Qed.

(** ** Witnesses *)
Lemma periodic_page_witness :
  ∃ phase : nat → R,
    calcAWGPeriodic some_comp 0 [0; 0] =
      Some (some_comp, imap (λ k v, v + awgPeriodicSignal (wtype some_comp) (par some_comp !!! 0%nat) (par some_comp !!! 3%nat) (phase k)) [0; 0]) ∧
    ∀ k, ∃ z : Z, phase k =
      TWO_PI * (par some_comp !!! 1%nat) * (0 + INR k * sample_time 2) - par some_comp !!! 2%nat + TWO_PI * IZR z.
Proof. apply (periodic_page some_comp 0 [0; 0]); [split; [done|reflexivity]|lra]. Defined.

Lemma gain_ramp_witness :
  let a := mkGain 1 2 _ONESEC 0 1 0 : AWG_Gain R in
  let a1 := gain_start 5 0 a in
  let dur := seconds (gramptime a1) in
  let t k := seconds (epoch_time 5 0 - rampstart a1) + INR k * sample_time 1 in
  let g k := old a1 + (value a1 - old a1) * part dur (t k) in
  let '(a2, vp2) := calcAWGGain 5 0 a [3] in
  vp2 = imap (λ k v, v * g k) [3] ∧
  (∀ k, Rmin (old a1) (value a1) <= g k <= Rmax (old a1) (value a1)) ∧
  (gstate a2 = 2%Z → old (new_gain 7 1 a2) = g 0%nat) ∧
  (dur <= t 1%nat → gstate a2 = 0%Z).
Proof. apply (gain_ramp 5 0 (mkGain 1 2 _ONESEC 0 1 0) [3] 7 1); done. Defined.

Lemma sweep_made_witness :
  ∃ cs, awgSweepComponents 0 20 1 2 1 1 AWG_SWEEP_CYCLE = Some cs ∧
  Forall (λ c : Comp, awgIsValidComponent c = true) cs ∧
  match cs with
  | [c] => start c = 0%Z ∧ duration c = 20%Z
  | [c0; c1] => start c0 = 0%Z ∧ start c1 = (start c0 + duration c0)%Z ∧ par c1 = ramppar c0 ∧ ramppar c1 = par c0
  | _ => False
  end.
Proof.
  assert (E : ∃ cs : list Comp, awgSweepComponents 0 20 1 2 1 1 AWG_SWEEP_CYCLE = Some cs).
  { unfold awgSweepComponents, sweep_one. cbn -[Rlt_dec]. rops.
    destruct (Rlt_dec 1 0); [lra|]. destruct (Rlt_dec 2 0); [lra|]. by eexists. }
  destruct E as [cs E]. exists cs. split; [exact E|]. exact (sweep_made 0 20 1 2 1 1 AWG_SWEEP_CYCLE cs E).
Defined.

Close Scope R_scope.
End AwgPage.
