(* ===== verification/AwgStream.v ===== *)
(** * Waveform generators: streams, from the client to the output ([Awg.v], [AwgCalc.v])

    A client sends pages ahead of time into the buffer of sixteen seconds of a
    slot.  Epochs are numbered from time zero; page [e] lies at place
    [e mod 256].  [stream_delivered]: a page that was accepted is still there at
    its epoch, whatever was sent or played in between, and what the slot puts
    out is the page. *)
From Stdlib Require Import Reals Lra.
From S2P Require Import Prelude CFloat Iir GdsRand AwgFunc Awg AwgCalc AwgProps AwgPage.
Import Iir AwgFunc Awg AwgCalc AwgProps AwgPage.

Module AwgStream.

Definition epoch_index (e : Z) : nat := Z.to_nat (e mod 256).

Lemma stream_index_epoch e : 0 <= e → stream_index (e / 16) (e mod 16) = Some (epoch_index e).
Proof.
  intros He. unfold stream_index, epoch_index, MAX_STREAM_BUFFER, NUMBER_OF_EPOCHS.
  rewrite Z.rem_mod_nonneg by (try apply Z.div_pos; lia).
  assert (E : (e / 16) mod 16 * 16 + e mod 16 = e mod 256).
  { apply (Z.mod_unique _ _ (e / 16 / 16)); pose proof (Z.mod_pos_bound e 16 ltac:(done));
      pose proof (Z.mod_pos_bound (e / 16) 16 ltac:(done)); pose proof (Z.div_mod e 16 ltac:(done));
      pose proof (Z.div_mod (e / 16) 16 ltac:(done)); lia. }
  rewrite E. pose proof (Z.mod_pos_bound e 256 ltac:(done)).
  change (16 * 16) with 256. by rewrite (proj2 (Z.leb_le _ _)), (proj2 (Z.ltb_lt _ _)) by lia.
Qed.

Lemma epoch_index_ne e e' : e ≠ e' → Z.abs (e - e') < 256 → epoch_index e ≠ epoch_index e'.
Proof.
  intros Hn Hd E. unfold epoch_index in E.
  pose proof (Z.mod_pos_bound e 256 ltac:(done)). pose proof (Z.mod_pos_bound e' 256 ltac:(done)).
  apply Z2Nat.inj in E; [|lia|lia]. pose proof (Z.div_mod e 256 ltac:(done)). pose proof (Z.div_mod e' 256 ltac:(done)). lia.
Qed.
Lemma epoch_index_lt e : (epoch_index e < 256)%nat.
Proof. unfold epoch_index. pose proof (Z.mod_pos_bound e 256 ltac:(done)). lia. Qed.

Lemma carry_epoch tm ep i :
  0 <= tm < 2 ^ 58 → 0 <= ep < 16 → 0 <= i < 16 →
  carry tm (ep + i) = ((16 * tm + ep + i) / 16, (16 * tm + ep + i) mod 16).
Proof.
  intros Ht He Hi. unfold carry, NUMBER_OF_EPOCHS.
  replace (16 * tm + ep + i) with ((ep + i) + tm * 16) by lia. rewrite Z.div_add, Z.mod_add by done.
  destruct (Z.ltb_spec (ep + i) 16) as [Hl|Hl].
  - rewrite Z.div_small, Z.mod_small by lia. done.
  - f_equal. rewrite (Z.add_comm _ tm). apply wrap_small.
    assert (0 <= (ep + i) / 16 < 2) by (split; [apply Z.div_pos; lia|apply Z.div_lt_upper_bound; lia]). lia.
Qed.

Section stream.
Context {F : Type} `{FloatOps F, Libm F}.
Local Abbreviation Page := (streambufpage_t F).
Implicit Types (st : list Page) (s : Bank F).

(** Page [i] of what a client sends for epoch [e]. *)
Definition page_of (pgsize : Z) (y : list F) (e i : Z) : Page :=
  mkPage 1 (e / 16) (e mod 16) pgsize (take (Z.to_nat pgsize) (drop (Z.to_nat (i * pgsize)) y)).

Lemma send_loop_spec n tm ep i pgsize y st dup :
  0 <= tm < 2 ^ 58 → 0 <= ep < 16 → 0 <= i → i + Z.of_nat n <= 16 → length st = 256%nat →
  ∃ st' dup', send_loop n tm ep i pgsize y st dup = Some (st', dup') ∧ length st' = 256%nat ∧
    (∀ j, i <= j < i + Z.of_nat n → st' !!! epoch_index (16 * tm + ep + j) = page_of pgsize y (16 * tm + ep + j) j) ∧
    (∀ k, (∀ j, i <= j < i + Z.of_nat n → k ≠ epoch_index (16 * tm + ep + j)) → st' !!! k = st !!! k).
Proof.
  intros Ht He. revert i st dup. induction n as [|n IH]; intros i st dup Hi Hn Hl; cbn [send_loop].
  - exists st, dup. split; [done|]. split; [done|]. split; [lia|done].
  - rewrite carry_epoch by lia. cbv iota. rewrite stream_index_epoch by lia. cbn [mbind option_bind].
    set (e := 16 * tm + ep + i). fold (page_of pgsize y e i).
    destruct (IH (i + 1) (<[epoch_index e := page_of pgsize y e i]> st) (dup || holds (e / 16) (e mod 16) (st !!! epoch_index e)))
      as (st' & dup' & E & Hl' & Hin & Hout); [lia|lia|by rewrite length_insert|].
    exists st', dup'. split; [exact E|]. split; [done|]. split.
    + intros j Hj. destruct (decide (j = i)) as [->|Hne]; [|apply Hin; lia].
      rewrite Hout; [|intros j' Hj'; apply epoch_index_ne; lia].
      rewrite list_lookup_total_insert_eq by (rewrite Hl; apply epoch_index_lt). done.
    + intros k Hk. rewrite Hout by (intros j Hj; apply Hk; lia).
      apply list_lookup_total_insert_ne. intros E'. by apply (Hk i ltac:(lia)).
Qed.

(** ** Sending *)
Definition now_epoch (now : Z) : Z := Z.quot now _EPOCH.
Definition in_time (now tm ep : Z) : Prop := 0 <= now < 2 ^ 62 ∧ 0 <= tm < 2 ^ 58 ∧ 0 <= ep < 16.
Definition buffers (s : Bank F) (i : Z) : list Page := awgstream s !!! Z.to_nat i.
Definition streams_ok (s : Bank F) : Prop :=
  length (awgstream s) = MAX_NUM_AWG ∧ Forall (λ st, length st = 256%nat) (awgstream s).

Lemma streams_ok_buffers s i : streams_ok s → in_bank i = true → length (buffers s i) = 256%nat ∧ (Z.to_nat i < length (awgstream s))%nat.
Proof.
  intros [Hl Hs] Hi. apply andb_true_iff in Hi as [H1%Z.leb_le H2%Z.ltb_lt]. unfold MAX_NUM_AWG in *.
  split; [|lia]. apply (proj1 (Forall_lookup_total _ _) Hs). lia.
Qed.

Lemma s64_diff now tm ep : in_time now tm ep →
  s64 (tm * NUMBER_OF_EPOCHS + ep - Z.quot now _EPOCH) = 16 * tm + ep - now_epoch now.
Proof.
  intros (Hn & Ht & He). unfold now_epoch, NUMBER_OF_EPOCHS. change _EPOCH with 62500000.
  rewrite Z.quot_div_nonneg by lia. rewrite swrap_small; [lia|done|].
  assert (0 <= now / 62500000 <= 2 ^ 62) by (split; [apply Z.div_pos; lia|apply Z.div_le_upper_bound; lia]). lia.
Qed.

(** What a command writes that is accepted: [n] pages, at least one second and
    less than fifteen ahead. *)
Definition written (now tm ep : Z) (y : list F) (pgsize n : Z) (st st' : list Page) : Prop :=
  0 < n <= 16 ∧ Z.of_nat (length y) = pgsize * n ∧
  now_epoch now + 16 <= 16 * tm + ep ∧ 16 * tm + ep + n < now_epoch now + 240 ∧ length st' = 256%nat ∧
  (∀ j, 0 <= j < n → st' !!! epoch_index (16 * tm + ep + j) = page_of pgsize y (16 * tm + ep + j) j) ∧
  (∀ k, (∀ j, 0 <= j < n → k ≠ epoch_index (16 * tm + ep + j)) → st' !!! k = st !!! k).

Lemma send_cases now s i tm ep y s' r :
  in_time now tm ep → streams_ok s → 0 < pagesize (slot s i) → sendWaveformAWG now s i tm ep y = Some (s', r) →
  AWG s' = AWG s ∧
  (awgstream s' = awgstream s ∧ (r < 0 ∨ unbreakable (slot s i) = true) ∨
   in_bank i = true ∧ ∃ n st', written now tm ep y (pagesize (slot s i)) n (buffers s i) st' ∧
                               awgstream s' = <[Z.to_nat i := st']> (awgstream s)).
Proof.
  intros Hin Hok Hp. unfold sendWaveformAWG.
  destruct (in_bank i) eqn:Ei; cbn [negb]; [|intros [= <- <-]; split; [done|]; left; split; [done|left; lia]].
  destruct (unbreakable (slot s i)); [intros [= <- <-]; split; [done|]; left; split; [done|by right]|].
  destruct (_ || _); [intros [= <- <-]; split; [done|]; left; split; [done|left; lia]|].
  rewrite (proj2 (Z.eqb_neq (pagesize (slot s i)) 0)) by lia. cbv zeta.
  destruct (_ || _) eqn:En; [intros [= <- <-]; split; [done|]; left; split; [done|left; lia]|].
  rewrite s64_diff by done. set (pg := pagesize (slot s i)) in *. set (n := Z.quot (Z.of_nat (length y)) pg) in *.
  apply orb_false_iff in En as [[Er%negb_false_iff%Z.eqb_eq Hn%Z.leb_gt]%orb_false_iff Hn16%Z.ltb_ge].
  destruct (Z.ltb_spec (16 * tm + ep - now_epoch now) NUMBER_OF_EPOCHS) as [|Hlo]; [intros [= <- <-]; split; [done|]; left; split; [done|left; lia]|].
  destruct (Z.leb_spec ((MAX_STREAM_BUFFER - 1) * NUMBER_OF_EPOCHS) (16 * tm + ep - now_epoch now + n)) as [|Hhi];
    [intros [= <- <-]; split; [done|]; left; split; [done|left; lia]|].
  unfold NUMBER_OF_EPOCHS, MAX_STREAM_BUFFER in *. destruct (streams_ok_buffers s i Hok Ei) as [Hl _].
  destruct Hin as (Hnow & Htm & Hep).
  destruct (send_loop_spec (Z.to_nat n) tm ep 0 pg y (buffers s i) false) as (st' & dup' & E & Hl' & Hput & Hkeep);
    [done|done|done|lia|done|].
  fold (buffers s i). rewrite E. cbn [mbind option_bind]. destruct (borrow tm (ep - 1)) as [bt be].
  destruct (stream_index bt be) as [k|]; [|done]. cbn [mbind option_bind]. intros Eq.
  assert (Es : s' = mkBank (AWG s) (<[Z.to_nat i := st']> (awgstream s)) (awgfilter s)).
  { repeat case_match; injection Eq as <- _; done. }
  subst s'. split; [done|]. right. split; [done|]. exists n, st'. split; [|done].
  split; [lia|]. split; [|split; [lia|split; [lia|split; [done|]]]].
  - pose proof (Z.quot_rem' (Z.of_nat (length y)) pg). subst n. lia.
  - split; intros; [apply Hput|apply Hkeep; intros]; try lia. auto with lia.
Qed.

(** A page for a DS340 channel, whose slot has pages of length zero, traps; and
    an epoch below zero is not refused: counted from a second that is a multiple
    of sixteen it lies before the buffer. *)
Lemma send_undefined now s i tm ep y :
  in_bank i = true → unbreakable (slot s i) = false →
  has AWG_CONFIG (slot s i) = true → has AWG_IN_USE (slot s i) = true →
  pagesize (slot s i) = 0 ∨
  ((0 < pagesize (slot s i) ∧ pagesize (slot s i) = Z.of_nat (length y)) ∧ 0 <= now < 2 ^ 62 ∧ 0 <= tm < 2 ^ 58 ∧ tm mod 16 = 0 ∧ - 2 ^ 31 <= ep < 0 ∧
   now_epoch now + 16 <= 16 * tm + ep < now_epoch now + 239) →
  sendWaveformAWG now s i tm ep y = None.
Proof.
  intros Hi Hu Hc Hin Hcase. unfold sendWaveformAWG. rewrite Hi, Hu, Hc, Hin. cbn [negb orb].
  destruct Hcase as [->|((Hp & Ey) & Hnow & Htm & Hm & Hep & Hlo & Hhi)]; [done|].
  rewrite (proj2 (Z.eqb_neq (pagesize (slot s i)) 0)) by lia. cbv zeta.
  rewrite <- Ey, Z.quot_same, Z.rem_same by lia. cbn [Z.eqb negb orb Z.leb Z.compare]. change (NUMBER_OF_EPOCHS <? 1) with false. cbn [orb].
  change (Z.quot now _EPOCH) with (now_epoch now). change NUMBER_OF_EPOCHS with 16. change ((MAX_STREAM_BUFFER - 1) * 16) with 240.
  assert (0 <= now_epoch now <= 2 ^ 62).
  { unfold now_epoch. change _EPOCH with 62500000. rewrite Z.quot_div_nonneg by lia.
    split; [apply Z.div_pos; lia|apply Z.div_le_upper_bound; lia]. }
  rewrite swrap_small by lia. rewrite (proj2 (Z.ltb_ge _ 16)), (proj2 (Z.leb_gt 240 _)) by lia.
  change (Z.to_nat 1) with 1%nat. cbn [send_loop]. unfold carry. change NUMBER_OF_EPOCHS with 16.
  rewrite Z.add_0_r, (proj2 (Z.ltb_lt ep 16)) by lia. cbn [mbind option_bind].
  unfold stream_index. change MAX_STREAM_BUFFER with 16. rewrite Z.rem_mod_nonneg, Hm by lia.
  change NUMBER_OF_EPOCHS with 16. by rewrite (proj2 (Z.leb_gt 0 (0 * 16 + ep))) by lia.
Qed.

(** ** Between sending and playing

    What may happen to the bank while page [e] of slot [i] waits: pages of other
    epochs are sent, before epoch [e] has come and less than fifteen seconds
    before it, as the page itself was; other epochs are played; and everything
    that leaves the streams alone. *)
Inductive between (i e : Z) (s : Bank F) : Bank F → Prop :=
  | between_send now j tm ep y s' r :
      in_time now tm ep → 0 < pagesize (slot s j) → now_epoch now < e < now_epoch now + 240 →
      (¬ 16 * tm + ep <= e < 16 * tm + ep + Z.quot (Z.of_nat (length y)) (pagesize (slot s j))) →
      sendWaveformAWG now s j tm ep y = Some (s', r) → between i e s s'
  | between_play fuel now j tm ep s' r vp :
      (tm, ep) ≠ (e / 16, e mod 16) → processAWG fuel now s j tm ep = Some (s', r, vp) → between i e s s'
  | between_other s' : awgstream s' = awgstream s → between i e s s'.

Lemma comp_keeps fuel now tm ep dly cp rb st vp v cp' rb' st' vp' k :
  calcAWGComp (F := F) fuel now tm ep dly cp rb st vp = Some (v, cp', rb', st', vp') →
  length st' = length st ∧ ((time (st !!! k), epoch (st !!! k)) ≠ (tm, ep) → st' !!! k = st !!! k).
Proof.
  unfold calcAWGComp. destruct (wtype cp =? awgNone); [by intros [= _ _ _ <- _]|].
  destruct (_ <ᶠ _); [by intros [= _ _ _ <- _]|]. destruct (_ || _).
  { destruct (calcAWGPeriodic _ _ _) as [[c p]|]; [|done]. by intros [= _ _ _ <- _]. }
  destruct (_ =? _). { destruct (calcAWGImpulse _ _ _) as [[c p]|]; [|done]. by intros [= _ _ _ <- _]. }
  destruct (_ || _). { destruct (calcAWGNoise _ _ _ _ _ _) as [[[c b] p]|]; [|done]. by intros [= _ _ _ <- _]. }
  destruct (_ =? _); [by intros [= _ _ _ <- _]|]. destruct (_ =? _); [|by intros [= _ _ _ <- _]].
  destruct (stream_index tm ep) as [k'|]; [|done]. cbn [mbind option_bind].
  destruct (_ && _) eqn:Em; [|by intros [= _ _ _ <- _]]. destruct (calcAWGStream _ _ _ _) as [[[c p] q]|]; [|done].
  cbn [mbind option_bind]. intros [= _ _ _ <- _]. split; [by rewrite length_insert|]. intros Hne.
  apply list_lookup_total_insert_ne. intros ->. apply Hne.
  apply andb_true_iff in Em as [->%Z.eqb_eq ->%Z.eqb_eq]. done.
Qed.

Lemma loop_keeps fuel now tm ep dly inv cs rbs st vp cs' rbs' st' vp' k :
  comp_loop (F := F) fuel now tm ep dly inv cs rbs st vp = Some (cs', rbs', st', vp') →
  length st' = length st ∧ ((time (st !!! k), epoch (st !!! k)) ≠ (tm, ep) → st' !!! k = st !!! k).
Proof.
  revert inv rbs st vp cs' rbs' st' vp'. induction cs as [|cp cs IH]; intros inv [|b rbs] st vp cs' rbs' st' vp' E;
    cbn [comp_loop] in E; try by injection E as _ _ <- _.
  destruct (calcAWGComp _ _ _ _ _ cp b st vp) as [[[[[v cp1] b1] st1] vp1]|] eqn:Ec; [|done]. cbn [mbind option_bind] in E.
  destruct (comp_keeps _ _ _ _ _ _ _ _ _ _ _ _ _ _ k Ec) as [L1 K1].
  destruct (_ <? _); [injection E as _ _ <- _; by split|].
  destruct (comp_loop _ _ _ _ _ _ cs rbs st1 vp1) as [[[[cs2 rbs2] st2] vp2]|] eqn:El; [|done].
  cbn [mbind option_bind] in E. injection E as _ _ <- _. destruct (IH _ _ _ _ _ _ _ _ El) as [L2 K2].
  split; [congruence|]. intros Hne. rewrite K2 by (by rewrite K1). by apply K1.
Qed.

Lemma streams_ok_insert s l i st :
  streams_ok s → length st = 256%nat → l = <[i := st]> (awgstream s) → length l = MAX_NUM_AWG ∧ Forall (λ st, length st = 256%nat) l.
Proof. intros [Hl Hs] Hst ->. split; [by rewrite length_insert|by apply Forall_insert]. Qed.

Lemma process_streams fuel now s j tm ep s' r vp :
  processAWG fuel now s j tm ep = Some (s', r, vp) →
  awgstream s' = awgstream s ∨
  in_bank j = true ∧ ∃ st', awgstream s' = <[Z.to_nat j := st']> (awgstream s) ∧ length st' = length (buffers s j) ∧
    ∀ k, (time (buffers s j !!! k), epoch (buffers s j !!! k)) ≠ (tm, ep) → st' !!! k = buffers s j !!! k.
Proof.
  unfold processAWG. destruct (in_bank j); cbn [negb]; [|intros [= <- _ _]; by left]. destruct (_ || _); [intros [= <- _ _]; by left|].
  destruct (comp_loop _ _ _ _ _ _ _ _ _ _) as [[[[cs rbs] st'] vp1]|] eqn:El; [|done]. cbn [mbind option_bind].
  destruct (calcAWGFilter _ _) as [c vp2], (calcAWGGain _ _ _ _) as [a vp3]. intros [= <- _ _]. right. split; [done|].
  exists st'. split; [done|]. split; [by eapply (proj1 (loop_keeps _ _ _ _ _ _ _ _ _ _ _ _ _ _ 0 El))|].
  intros k. by eapply (proj2 (loop_keeps _ _ _ _ _ _ _ _ _ _ _ _ _ _ k El)).
Qed.

Lemma buffers_insert s l j i st :
  streams_ok s → in_bank i = true → in_bank j = true → l = <[Z.to_nat j := st]> (awgstream s) →
  l !!! Z.to_nat i = if decide (j = i) then st else buffers s i.
Proof.
  intros Hs Hi Hj ->. destruct (streams_ok_buffers s j Hs Hj) as [_ Hl]. unfold buffers. rewrite lookup_total_insert by done.
  apply andb_true_iff in Hi as [Hi%Z.leb_le _], Hj as [Hj%Z.leb_le _].
  destruct (decide (j = i)) as [->|Hn]; [by rewrite decide_True|]. rewrite decide_False; [done|]. intros E. apply Hn. lia.
Qed.

Lemma between_keeps i e s s' :
  streams_ok s → in_bank i = true → 0 <= e →
  (time (buffers s i !!! epoch_index e), epoch (buffers s i !!! epoch_index e)) = (e / 16, e mod 16) →
  between i e s s' → streams_ok s' ∧ buffers s' i !!! epoch_index e = buffers s i !!! epoch_index e.
Proof.
  intros Hs Hi He Hp Hb. destruct Hb as [now j tm ep y s' r Hin Hpg Hnow Hout E|fuel now j tm ep s' r vp Hne E|s' E].
  - destruct (send_cases _ _ _ _ _ _ _ _ Hin Hs Hpg E) as [_ [[E' _]|(Hj & n & st' & W & E')]].
    { unfold streams_ok, buffers. by rewrite E'. }
    destruct W as (Hn & Hy & Hlo & Hhi & Hl & _ & Hkeep). split; [by eapply streams_ok_insert|].
    unfold buffers at 1. rewrite (buffers_insert s _ j i st' Hs Hi Hj E'). destruct (decide (j = i)) as [->|]; [|done].
    apply Hkeep. intros k Hk. apply epoch_index_ne; [|lia]. rewrite Hy, (Z.mul_comm _ n), Z.quot_mul in Hout by lia. lia.
  - destruct (process_streams _ _ _ _ _ _ _ _ _ E) as [E'|(Hj & st' & E' & Hl & Hkeep)].
    { unfold streams_ok, buffers. by rewrite E'. }
    destruct (streams_ok_buffers s j Hs Hj) as [Hlj _]. split; [eapply streams_ok_insert; [done| |done]; congruence|].
    unfold buffers at 1. rewrite (buffers_insert s _ j i st' Hs Hi Hj E'). destruct (decide (j = i)) as [->|]; [|done].
    apply Hkeep. rewrite Hp. congruence.
  - unfold streams_ok, buffers. by rewrite E.
Qed.

Lemma waits i e s s' :
  streams_ok s → in_bank i = true → 0 <= e →
  (time (buffers s i !!! epoch_index e), epoch (buffers s i !!! epoch_index e)) = (e / 16, e mod 16) →
  rtc (between i e) s s' → buffers s' i !!! epoch_index e = buffers s i !!! epoch_index e.
Proof.
  intros Hs Hi He Hp Hb. revert Hs Hp. induction Hb as [|s s1 s2 H1 _ IH]; intros Hs Hp; [done|].
  destruct (between_keeps i e s s1 Hs Hi He Hp H1) as [Hs1 E1]. rewrite IH; [done|done|by rewrite E1].
Qed.

End stream.

(** ** Playing *)
Open Scope R_scope.

Lemma stream_page (cp : AWG_Component R) (s : streambufpage_t R) t vp :
  endless cp → 0 <= t → ready s ≠ 0%Z → pagelen s = Z.of_nat (length vp) →
  calcAWGStream cp s t vp =
    Some (cp, mkPage 0 (time s) (epoch s) (pagelen s) (buf s), imap (λ k v, v + par cp !!! 0%nat * buf s !!! k) vp).
Proof.
  intros He Ht Hr Hl. unfold calcAWGStream. rewrite endless_ramps by done. rewrite (proj2 (Z.eqb_neq _ _) Hr), Hl, Z.eqb_refl.
  cbn [negb andb tEND]. rewrite (sample_loop_steady _ _ _ _ (λ i u (_ : unit) v, add_value v (stream_value cp (mkRamps 0 0 0 (t + 1) (t + 1)) u (buf s !!! i))) (λ _, tt)).
  - cbn [mbind option_bind]. rewrite set_start_id. do 2 f_equal. apply imap_ext. intros k v Hk.
    apply lookup_lt_Some in Hk. pose proof (sample_time_bound _ _ Hk) as Hb.
    unfold add_value, stream_value. cbn [t1 t2 tEND tPI tPO]. rops. by repeat (rcase; try lra).
  - intros k Hk. pose proof (sample_time_bound _ _ Hk). lra.
Qed.

(** C8: a stream from the client to the output. A page a client has sent and that
    was accepted is played at its epoch: whatever pages of other epochs any
    client sends and whatever epochs are played while it waits, an endless
    stream component that has started then adds it, times its scale, to the
    output. *)
Theorem stream_delivered (now tm ep i j r dly nowp : Z) (fuel : nat) (y vp : list R) (s0 s1 s2 : Bank R)
    (cp : AWG_Component R) (b : GdsRand.randBlock R) :
  let pg := pagesize (slot s0 i) in
  let e := (16 * tm + ep + j)%Z in
  in_time now tm ep → streams_ok s0 → (0 < pg)%Z → unbreakable (slot s0 i) = false →
  sendWaveformAWG now s0 i tm ep y = Some (s1, r) → (0 <= r)%Z → (0 <= j < Z.quot (Z.of_nat (length y)) pg)%Z →
  rtc (between i e) s1 s2 →
  endless cp → wtype cp = awgStream → 0 <= comp_time (e / 16) (e mod 16) dly cp → Z.of_nat (length vp) = pg →
  ∃ st, calcAWGComp fuel nowp (e / 16) (e mod 16) dly cp b (buffers s2 i) vp =
    Some (0%Z, cp, b, st, imap (λ k v, v + par cp !!! 0%nat * y !!! (Z.to_nat (j * pg) + k)%nat) vp).
Proof.
  intros pg e Hin Hs Hpg Hu E Hr Hj Hb Hcp Hw Ht Hl.
  destruct (send_cases _ _ _ _ _ _ _ _ Hin Hs Hpg E) as [_ [[_ [Hr'|Hu']]|(Hi & n & st' & W & E1)]]; [lia|congruence|].
  fold pg in W. destruct W as (Hn & Hy & Hlo & Hhi & Hl' & Hput & _).
  rewrite Hy, (Z.mul_comm _ n), Z.quot_mul in Hj by lia.
  assert (He : (0 <= e)%Z) by (destruct Hin as (_ & ? & ?); subst e; lia).
  assert (Hs1 : streams_ok s1) by (by eapply streams_ok_insert).
  assert (Hp : buffers s1 i !!! epoch_index e = page_of pg y e j).
  { unfold buffers. rewrite (buffers_insert s0 _ i i st' Hs Hi Hi E1), decide_True by done. by apply Hput. }
  assert (Hp2 : buffers s2 i !!! epoch_index e = page_of pg y e j) by (rewrite (waits i e s1 s2 Hs1 Hi He); rewrite ?Hp; done).
  unfold calcAWGComp. rewrite Hw. cbn [Z.eqb Pos.eqb awgNone awgSine awgSquare awgRamp awgTriangle awgConst awgImpulse awgNoiseN awgNoiseU awgArb awgStream orb].
  set (t := comp_time _ _ _ _) in *. assert (Hep : 0 <= seconds _EPOCH).
  { unfold seconds, __ONESEC. rops. apply Rlt_le, Rdiv_lt_0_compat; by apply IZR_lt. }
  rops. destruct (Rlt_dec _ _); [lra|]. rewrite stream_index_epoch by done. cbn [mbind option_bind]. rewrite Hp2.
  cbn [time epoch page_of]. rewrite !Z.eqb_refl. cbn [andb].
  rewrite stream_page; [|done|done|done|done]. cbn [mbind option_bind]. eexists. do 2 f_equal.
  apply imap_ext. intros k v Hk. apply lookup_lt_Some in Hk. do 2 f_equal. cbn [buf page_of].
  rewrite !list_lookup_total_alt, lookup_take_lt by lia. by rewrite lookup_drop.
Qed.

(** *** A witness *)
Definition some_stream : AWG_Component R := awgStreamComponentEx 2000000000 5.
Definition sent_bank : Bank R := default some_bank (fst <$> sendWaveformAWG 0 some_bank 3 2 0 [7; 8]).
Lemma stream_delivered_witness :
  ∃ st, calcAWGComp 0 0 2 0 0 some_stream GdsRand.zero_block (buffers sent_bank 3) [0; 0] =
    Some (0%Z, some_stream, GdsRand.zero_block, st, imap (λ k v, v + par some_stream !!! 0%nat * [7; 8] !!! (Z.to_nat (0 * 2) + k)%nat) [0; 0]).
Proof.
  apply (stream_delivered 0 2 0 3 0 3 0 0 0 [7; 8] [0; 0] some_bank sent_bank sent_bank some_stream GdsRand.zero_block);
    try reflexivity; try done.
  - split; [reflexivity|]. apply Forall_replicate. reflexivity.
  - unfold comp_time, seconds, __ONESEC. rops. change (s64 _) with 0%Z. unfold Rdiv. lra.
Defined.

Close Scope R_scope.
End AwgStream.
