(* ===== verification/Rm.v ===== *)
(** * Shared memory of a model, seen from the test point manager ([src/gds/rmapi.c])

    The front end, the EPICS sequencer and the test point manager map one area
    of 64 MB; a second area is for the IPC of all models.  On the front ends these
    areas stand for the reflective memory boards 0 and 2 of earlier systems.

    - [Word], [Rm]: an area is a finite map from byte offsets to words of four
      bytes, which hold an integer or a single;
    - [rmInit], [rmBaseAddress], [rmCheck], [rmRead], [rmWrite];
    - the layout: data blocks, channel addresses, the index of test points
      ([src/gds/map_v3.h], [src/gds/rmorg.h]).

    Every offset of the code is a multiple of four. *)
From stdpp Require Import gmap.
From S2P Require Import Prelude.

Module Rm.

(** ** Layout *)
Definition DAQ_BASE_ADDRESS : Z := 0x2000000.
Definition DAQ_DATA_BASE_ADD : Z := DAQ_BASE_ADDRESS + 0x100000.
Definition DAQ_DCU_SIZE : Z := 0x400000.
Definition DATA_BLOCKS : Z := 16.
Definition DAQ_GDS_BLOCK_ADD : Z := DAQ_BASE_ADDRESS + 0x600000.
Definition DAQ_GDS_MAX_TP_NUM : Z := 0x100.
(** [sizeof(GDS_CNTRL_BLOCK)] *)
Definition GDS_CNTRL_BLOCK_SIZE : Z := 4 * 2 * DAQ_GDS_MAX_TP_NUM * 4.

Definition TP_MAX_NODE : Z := 256.
Definition TP_MAX_INTERFACE : nat := 4.
Definition TP_MAX_INDEX : nat := 64.
Definition TP_DATUM_LEN : Z := 4.
Definition TP_INTERFACE_TO_INDEX_LEN (a : Z) : nat := if (0 <=? a) && (a <? 4) then 64 else 0.
Definition TP_NODE_INTERFACE_TO_INDEX_OFFSET (a : Z) : Z :=
  DAQ_GDS_BLOCK_ADD + a * Z.quot GDS_CNTRL_BLOCK_SIZE (Z.of_nat TP_MAX_INTERFACE).
(** [UNIT_ID_TO_DATA_OFFSET] and [UNIT_ID_TO_DATA_BLOCKSIZE] are the same for all units. *)
Definition UNIT_ID_TO_DATA_OFFSET : Z := DAQ_DATA_BASE_ADD.
Definition UNIT_ID_TO_DATA_BLOCKSIZE : Z := Z.quot DAQ_DCU_SIZE DATA_BLOCKS.
Definition CHN_ADDR (rmOffset rmBlockSize epoch : Z) : Z := rmOffset + Z.rem epoch DATA_BLOCKS * rmBlockSize.

(** ** Memory *)
Inductive Word (F : Type) := WInt (z : Z) | WFloat (x : F).
Arguments WInt {F}. Arguments WFloat {F}.
#[export] Instance word_inhabited F : Inhabited (Word F) := populate (WInt 0).
Abbreviation Area F := (gmap Z (Word F)).

Section rm.
Context {F : Type}.
Implicit Types (m : Area F) (ws : list (Word F)).

Fixpoint store (a : Z) ws m : Area F :=
  match ws with
  | [] => m
  | w :: ws => store (a + 4) ws (<[a := w]> m)
  end.
Definition load (a : Z) (n : nat) m : list (Word F) := (λ i, m !!! (a + 4 * Z.of_nat i)) <$> seq 0 n.

(** The boards: [None] is one that is not mapped. *)
Definition Rm : Type := list (option (Area F)).
Implicit Types s : Rm.

(** [rmInit] of boards 0, 1 and 2 by [initReflectiveMemory]; the areas hold what they held. *)
Definition rmInit (epics ipc : Area F) : Rm := [Some epics; None; Some ipc; None].
Definition rmBaseAddress s (ID : Z) : option (Area F) :=
  if (0 <=? ID) && (ID <? 4) then mjoin (s !! Z.to_nat ID) else None.
Definition rmCheck (ID offset size : Z) : bool := true.
Definition rmRead s (ID offset : Z) (n : nat) : Z * list (Word F) :=
  if negb (rmCheck ID offset (4 * Z.of_nat n)) then (-2, [])
  else match rmBaseAddress s ID with
       | None => (-1, [])
       | Some m => (0, load offset n m)
       end.
Definition rmWrite s (ID : Z) ws (offset : Z) : Rm * Z :=
  if negb (rmCheck ID offset (4 * Z.of_nat (length ws))) then (s, -2)
  else match rmBaseAddress s ID with
       | None => (s, -1)
       | Some m => (<[Z.to_nat ID := Some (store offset ws m)]> s, 0)
       end.

(** ** Lemmas *)
Lemma store_out a ws m x : (∀ i, (i < length ws)%nat → x ≠ a + 4 * Z.of_nat i) → store a ws m !! x = m !! x.
Proof.
  revert a m. induction ws as [|w ws IH]; intros a m Hx; cbn [store]; [done|].
  rewrite IH.
  - apply lookup_insert_ne. intros ->. apply (Hx 0%nat); cbn [length]; lia.
  - intros i Hi. pose proof (Hx (S i)) as Hs. cbn [length] in Hs. specialize (Hs ltac:(lia)). lia.
Qed.
Lemma store_in a ws m i : (i < length ws)%nat → store a ws m !! (a + 4 * Z.of_nat i) = ws !! i.
Proof.
  revert a m i. induction ws as [|w ws IH]; intros a m i Hi; cbn [store length] in *; [lia|].
  destruct i as [|i].
  - rewrite store_out by (intros; lia). replace (a + 4 * Z.of_nat 0) with a by lia. by rewrite lookup_insert_eq.
  - replace (a + 4 * Z.of_nat (S i)) with (a + 4 + 4 * Z.of_nat i) by lia. rewrite IH by lia. done.
Qed.
Lemma store_outside a ws m x : x < a ∨ a + 4 * Z.of_nat (length ws) <= x → store a ws m !! x = m !! x.
Proof. intros Hx. apply store_out. intros i Hi. lia. Qed.
Lemma store_idem a ws m : store a ws (store a ws m) = store a ws m.
Proof.
  apply map_eq. intros x.
  destruct (decide (Exists (λ i, x = a + 4 * Z.of_nat i) (seq 0 (length ws)))) as [He|Hn].
  - apply Exists_exists in He as (i & Hi & ->). apply elem_of_seq in Hi. rewrite !store_in by lia. done.
  - rewrite store_out; [done|]. intros i Hi E. apply Hn, Exists_exists. exists i. split; [apply elem_of_seq; lia|done].
Qed.
Lemma load_store a ws m : load a (length ws) (store a ws m) = ws.
Proof.
  apply list_eq. intros i. unfold load. rewrite list_lookup_fmap. destruct (decide (i < length ws)%nat) as [Hi|Hi].
  - rewrite lookup_seq_lt by done. cbn [fmap option_fmap option_map]. rewrite lookup_total_alt.
    replace (a + 4 * Z.of_nat (0 + i)) with (a + 4 * Z.of_nat i) by lia. rewrite store_in by done.
    destruct (lookup_lt_is_Some_2 ws i Hi) as [w ->]. done.
  - rewrite lookup_seq_ge by lia. cbn. symmetry. apply lookup_ge_None. lia.
Qed.

(** Boards 0 and 2 are mapped. *)
Definition mapped s : Prop := ∃ m m2, s = [Some m; None; Some m2; None].
Lemma rmInit_mapped epics ipc : mapped (rmInit epics ipc).
Proof. by exists epics, ipc. Qed.
Definition area0 s : Area F := default ∅ (rmBaseAddress s 0).
Lemma rmWrite_area0 s ws offset :
  mapped s → let '(s', r) := rmWrite s 0 ws offset in mapped s' ∧ r = 0 ∧ area0 s' = store offset ws (area0 s).
Proof. intros (m & m2 & ->). cbn. split; [by exists (store offset ws m), m2|done]. Qed.
Lemma rmWrite_absent s ws offset : mapped s → rmWrite s 1 ws offset = (s, -1).
Proof. intros (m & m2 & ->). done. Qed.
Lemma rmRead_area0 s offset n : mapped s → rmRead s 0 offset n = (0, load offset n (area0 s)).
Proof. intros (m & m2 & ->). done. Qed.
End rm.
#[global] Arguments Rm : clear implicits.
End Rm.
