(* ===== verification/TpServer.v ===== *)
(** * Test point manager ([src/gds/testpoint_server.c])

    Clients ask for test points and excitations by number.  The server keeps, for
    each of the four interfaces, a table of 64 slots with the number in it and
    who uses it, and once a second writes the numbers to the shared memory, where
    the front end and the waveform generators read them.

    - [tpUsage_t], [tpEntry_t], [tpClient_t] and the state [Server];
    - the calls [requesttp_1_svc], [cleartp_1_svc], [keepalive_1_svc], with
      [setPreselect];
    - the scheduled tasks [cleanupTestpoints] and [updateTestpoints].

    The server's mutex is one of the default kind: a thread that takes it twice
    waits for ever, which is the result [None].  A call is one step; [Env] has
    what it reads besides: the clock, at each entry of a list and at the end, the
    data rate of the front end, and whether [malloc] gets its memory. *)
From stdpp Require Import gmap strings.
From S2P Require Import Prelude Rm Awg.
Import Rm.
Local Open Scope Z_scope.

Module TpServer.

Local Abbreviation s64 := (swrap 64).

Definition _TP_MAX_USER : nat := 1000.
Definition _KEEPALIVE_TIMEOUT : Z := 60.
Definition _KEEP_AROUND : Z := 240.
Definition _CHNNAME_SIZE : nat := 60.
Definition TP_HIGHEST_INDEX : Z := 60000.
Definition TP_MAX_PRESELECT : nat := 20.
Definition _TP_CLEAR_ALL : Z := 65535.
Definition TESTPOINT_UPDATE_EPOCH : Z := 8.
Definition _ONESEC : Z := 1000000000.
Definition _EPOCH : Z := Z.quot _ONESEC 16.

(** ** State *)
Record tpUsage_t := mkUse { reqTime : Z; timeout : Z; clntId : Z }.

(** [users] holds the first [inUse] entries of the array. *)
Record tpEntry_t := mkEntry { id : Z; users : list tpUsage_t; name : string }.
Definition inUse (e : tpEntry_t) : nat := length (users e).
Definition zero_entry : tpEntry_t := mkEntry 0 [] "".
#[export] Instance entry_inhabited : Inhabited tpEntry_t := populate zero_entry.

Record tpClient_t := mkClient { cvalid : Z; lastTime : Z }.

(** [tpNode], [tpclnts] and [tpclntID]; [tplookup] has the channel names of the
    test points of the node. *)
Record Server := mkServer {
  valid : bool;
  node : Z;
  preselect : list Z;
  indx : list (list tpEntry_t);
  tplookup : gmap Z string;
  tpclnts : list tpClient_t;
  tpclntID : Z
}.
Definition set_indx (l : list (list tpEntry_t)) (s : Server) : Server :=
  mkServer (valid s) (node s) (preselect s) l (tplookup s) (tpclnts s) (tpclntID s).
Definition set_clients (c : list tpClient_t) (n : Z) (s : Server) : Server :=
  mkServer (valid s) (node s) (preselect s) (indx s) (tplookup s) c n.
Definition set_entry (iface j : nat) (e : tpEntry_t) (s : Server) : Server :=
  set_indx (alter <[j := e]> iface (indx s)) s.
Definition empty_index : list (list tpEntry_t) := replicate TP_MAX_INTERFACE (replicate TP_MAX_INDEX zero_entry).

(** [initTestpointServer], and [testpoint_server] when the node has been found. *)
Definition initTestpointServer : Server :=
  mkServer false 0 (replicate TP_MAX_PRESELECT 0) empty_index ∅ (replicate _TP_MAX_USER (mkClient 0 0)) (Z.of_nat _TP_MAX_USER + 1).
Definition found_node (n : Z) (presel : list Z) (channels : gmap Z string) (s : Server) : Server :=
  mkServer true n ((λ p, if (0 <? p) && (p <? TP_HIGHEST_INDEX) then p else 0) <$> presel) empty_index channels
    (tpclnts s) (tpclntID s).

(** What a call reads. *)
Record Env := mkEnv {
  clock : nat → Z; after : Z; curDaqBlockSize : Z; sys_freq_mult : Z; memory : bool
}.

(** [resultRequestTP_r], with what it holds before the call. *)
Record resultRequestTP_r := mkRes { status : Z; rtime : Z; repoch : Z }.

(** [MUTEX_GET (servermux)] by a thread that holds the mutex already or not. *)
Definition MUTEX_GET (held : bool) : option unit := if held then None else Some tt.

(** ** Requests *)
Definition bad_call (s : Server) (cid n : Z) : bool :=
  (cid <? 0) || (n <? 0) || (TP_MAX_NODE <=? n) || negb (valid s) || negb (node s =? n).

Definition tp_interface (tp : Z) : Z :=
  let i := Awg.TP_ID_TO_INTERFACE tp in if i =? Awg.TP_DAC_INTERFACE then Awg.TP_LSC_EX_INTERFACE else i.
Definition in_range (i : Z) : bool := (0 <=? i) && (i <? Z.of_nat TP_MAX_INTERFACE).
(** The interface and the name of a test point of the list the loops do not skip. *)
Definition eligible (s : Server) (tp : Z) : option (nat * string) :=
  if (tp <=? 0) || (TP_HIGHEST_INDEX <=? tp) then None
  else
    n ← (tplookup s !! tp);
    if in_range (tp_interface tp) then Some (Z.to_nat (tp_interface tp), n) else None.

(** The search of a table: the first empty slot seen, and how it ended. *)
Inductive Ended := Listed (j : nat) | Crowded | Unlisted.
Fixpoint scan (l : list tpEntry_t) (j : nat) (tp : Z) (k : option nat) : option nat * Ended :=
  match l with
  | [] => (k, Unlisted)
  | e :: l =>
      if id e =? tp then (k, if (inUse e <? _TP_MAX_USER)%nat then Listed j else Crowded)
      else scan l (S j) tp (match k with None => if id e =? 0 then Some j else None | Some _ => k end)
  end.
Definition table (s : Server) (iface : nat) : list tpEntry_t :=
  take (TP_INTERFACE_TO_INDEX_LEN (Z.of_nat iface)) (indx s !!! iface).
Definition search (s : Server) (iface : nat) (tp : Z) : option nat * Ended := scan (table s iface) 0 tp None.

(** The projected number of test points. *)
Fixpoint count_new (s : Server) (tps : list Z) : Z :=
  match tps with
  | [] => 0
  | tp :: tps =>
      match eligible s tp with
      | Some (iface, _) => match (search s iface tp).1 with Some _ => 1 | None => 0 end + count_new s tps
      | None => count_new s tps
      end
  end.
Definition active (l : list tpEntry_t) : list tpEntry_t := filter (λ e, id e ≠ 0) l.
Definition count_active (s : Server) : Z :=
  foldr (λ i n, Z.of_nat (length (active (table s i))) + n) 0 (seq 0 TP_MAX_INTERFACE).
Definition projDaqSize (e : Env) (s : Server) (tps : list Z) : Z :=
  u32 ((count_new s tps + count_active s) * 4 * 16384 * sys_freq_mult e + curDaqBlockSize e).

Definition trunc_name (n : string) : string := String.substring 0 (_CHNNAME_SIZE - 1) n.
Definition add_user (u : tpUsage_t) (e : tpEntry_t) : tpEntry_t := mkEntry (id e) (users e ++ [u]) (name e).
(** One test point: the new state, or [None] when there is no room. *)
Definition request_one (u : tpUsage_t) (s : Server) (tp : Z) : option Server :=
  match eligible s tp with
  | None => Some s
  | Some (iface, n) =>
      match search s iface tp with
      | (_, Listed j) => Some (set_entry iface j (add_user u ((indx s !!! iface) !!! j)) s)
      | (_, Crowded) => None
      | (None, Unlisted) => None
      | (Some k, Unlisted) => Some (set_entry iface k (mkEntry tp [u] (trunc_name n)) s)
      end
  end.
(** The loop; the index of the test point there was no room for. *)
Fixpoint request_loop (use : nat → tpUsage_t) (i : nat) (tps : list Z) (s : Server) : Server * option nat :=
  match tps with
  | [] => (s, None)
  | tp :: tps =>
      match request_one (use i) s tp with
      | Some s => request_loop use (S i) tps s
      | None => (s, Some i)
      end
  end.

Definition activation (now : Z) : Z :=
  u64 (let t := Z.quot now _ONESEC + 1 in
       if TESTPOINT_UPDATE_EPOCH <=? Z.quot (Z.rem now _ONESEC) _EPOCH then t + 1 else t).

(** After a failure the call clears what it was asked for, through
    [cleartp_1_svc], with the mutex in its hands. *)
Definition requesttp_1_svc (e : Env) (s : Server) (cid n : Z) (tps : list Z) (tmo : Z) (r : resultRequestTP_r)
  : option (Server * resultRequestTP_r) :=
  if bad_call s cid n then Some (s, mkRes (-2) (rtime r) (repoch r))
  else
    _ ← (MUTEX_GET false);
    if DAQ_DCU_SIZE <? projDaqSize e s tps then Some (s, mkRes 0 (rtime r) (repoch r))
    else
      let '(s, full) := request_loop (λ i, mkUse (clock e i) tmo cid) 0 tps s in
      let st := match full with None => 0 | Some i => - (Z.of_nat i + 1) end in
      _ ← (if (st <? 0) && memory e then MUTEX_GET true else Some tt);
      Some (s, mkRes st (activation (after e)) 0).

Definition preselected (s : Server) : list Z := filter (λ p, 0 < p) (preselect s).
Definition setPreselect (e : Env) (n : Z) (s : Server) : option Server :=
  if decide (preselected s = []) then Some s
  else fst <$> requesttp_1_svc e s 0x7fffffff n (preselected s) 0 (mkRes 0 0 0).

(** ** Releases *)
(** The user that goes: the first one of the client without a time limit. *)
Definition held_by (cid : Z) (u : tpUsage_t) : bool := (clntId u =? cid) && (timeout u <=? 0).
Fixpoint drop_user (cid : Z) (us : list tpUsage_t) : list tpUsage_t :=
  match us with
  | [] => []
  | u :: us => if held_by cid u then us else u :: drop_user cid us
  end.
Definition with_users (us : list tpUsage_t) (e : tpEntry_t) : tpEntry_t :=
  mkEntry (match us with [] => 0 | _ => id e end) us (name e).
Definition release_user (cid : Z) (e : tpEntry_t) : tpEntry_t :=
  if existsb (held_by cid) (users e) then with_users (drop_user cid (users e)) e else e.
Fixpoint find_id (tp : Z) (l : list tpEntry_t) (j : nat) : option nat :=
  match l with
  | [] => None
  | e :: l => if id e =? tp then Some j else find_id tp l (S j)
  end.
Definition clear_one (cid tp : Z) (s : Server) : Server :=
  if in_range (tp_interface tp) then
    let iface := Z.to_nat (tp_interface tp) in
    match find_id tp (table s iface) 0 with
    | Some j => set_entry iface j (release_user cid ((indx s !!! iface) !!! j)) s
    | None => s
    end
  else s.
(** The loop, and whether all test points were cleared. *)
Fixpoint clear_loop (cid : Z) (tps : list Z) (s : Server) : Server * bool :=
  match tps with
  | [] => (s, false)
  | tp :: tps =>
      if tp =? _TP_CLEAR_ALL then (set_indx empty_index s, true) else clear_loop cid tps (clear_one cid tp s)
  end.
Definition cleartp_1_svc (e : Env) (held : bool) (s : Server) (cid n : Z) (tps : list Z) : option (Server * Z) :=
  if bad_call s cid n then Some (s, -2)
  else
    _ ← (MUTEX_GET held);
    let '(s, all) := clear_loop cid tps s in
    s ← (if (all : bool) then setPreselect e n s else Some s);
    Some (s, 0).

(** ** Clients *)
Fixpoint free_client (l : list tpClient_t) (i : nat) : option nat :=
  match l with
  | [] => None
  | c :: l => if cvalid c =? 0 then Some i else free_client l (S i)
  end.
Definition keepalive_1_svc (now : Z) (s : Server) (cid : Z) : Server * Z :=
  if cid <? -1 then (set_clients (tpclnts s) (s32 (tpclntID s + 1)) s, tpclntID s)
  else if cid <? 0 then
    match free_client (tpclnts s) 0 with
    | Some i => (set_clients (<[i := mkClient 1 now]> (tpclnts s)) (tpclntID s) s, Z.of_nat i)
    | None => (s, -1)
    end
  else
    match tpclnts s !! Z.to_nat cid with
    | Some c =>
        if cvalid c =? 0 then (s, -1)
        else (set_clients (<[Z.to_nat cid := mkClient (cvalid c) now]> (tpclnts s)) (tpclntID s) s, cid)
    | None => (s, -1)
    end.

(** ** Garbage collection *)
Definition over (t : Z) (u : tpUsage_t) : bool := (0 <? timeout u) && (s64 (reqTime u + timeout u) <? t).
(** The loop over the users of a test point; what moves up into the place of a
    user who goes is not looked at. *)
Fixpoint clean_users (t : Z) (us : list tpUsage_t) : list tpUsage_t :=
  match us with
  | [] => []
  | u :: us =>
      if over t u then match us with [] => [] | v :: us => v :: clean_users t us end else u :: clean_users t us
  end.
Definition clean_entry (t : Z) (e : tpEntry_t) : tpEntry_t :=
  if id e =? 0 then e else with_users (clean_users t (users e)) e.
Definition clean_client (t : Z) (c : tpClient_t) : tpClient_t :=
  if negb (cvalid c =? 0) && (s64 (lastTime c + _KEEPALIVE_TIMEOUT * _ONESEC) <? t) then
    mkClient (if _KEEP_AROUND <? cvalid c + 1 then 0 else cvalid c + 1) (lastTime c)
  else c.
Definition cleanupTestpoints (time epoch : Z) (s : Server) : Server :=
  let t := s64 (s64 time * _ONESEC + epoch * _EPOCH) in
  let s := if valid s then set_indx ((λ l : list tpEntry_t, clean_entry t <$> l) <$> indx s) s else s in
  set_clients (clean_client t <$> tpclnts s) (tpclntID s) s.

(** ** Publication *)
Section update.
Context {F : Type}.

(** One interface: its index goes to the shared memory. *)
Definition update_one (s : Server) (j : nat) (rm : Rm F) : Rm F :=
  let tp := (λ e, WInt (if id e =? 0 then 0 else id e)) <$> table s j in
  let addr := TP_NODE_INTERFACE_TO_INDEX_OFFSET (Z.of_nat j) in
  if (length tp =? 0)%nat || (addr <=? 0) then rm else (rmWrite rm 0 tp addr).1.
Definition updateTestpoints (s : Server) (rm : Rm F) : Rm F :=
  if valid s then foldl (λ rm j, update_one s j rm) rm (seq 0 TP_MAX_INTERFACE) else rm.
End update.

End TpServer.
