(* ===== verification/TpProps.v ===== *)
(** * Test point manager: theorems ([TpServer.v])

    The table is a registry: for each number, the list of its users
    ([holders]).  Every call and task acts on the registry as its specification
    says; a number in use does not move to another slot; and what the server
    admits fits the shared memory. *)
From stdpp Require Import gmap strings.
From S2P Require Import Prelude Rm Awg TpServer.
Import Rm TpServer.
Local Open Scope Z_scope.

Module TpProps.

Implicit Types (s : Server) (e : tpEntry_t) (l : list tpEntry_t) (us : list tpUsage_t).

(** ** The tables *)
Definition entry_ok (iface : nat) e : Prop :=
  (id e = 0 ↔ users e = []) ∧ (inUse e <= _TP_MAX_USER)%nat ∧
  (id e ≠ 0 → 0 < id e < TP_HIGHEST_INDEX ∧ tp_interface (id e) = Z.of_nat iface).
Definition distinct l : Prop :=
  ∀ i j, (i < length l)%nat → (j < length l)%nat → id (l !!! i) ≠ 0 → id (l !!! i) = id (l !!! j) → i = j.
Definition table_ok (iface : nat) l : Prop := length l = TP_MAX_INDEX ∧ Forall (entry_ok iface) l ∧ distinct l.
Definition wf s : Prop :=
  length (indx s) = TP_MAX_INTERFACE ∧ (∀ i, (i < TP_MAX_INTERFACE)%nat → table_ok i (indx s !!! i)) ∧
  length (tpclnts s) = _TP_MAX_USER.

(** The users of a test point. *)
Definition iface_of (tp : Z) : nat := Z.to_nat (tp_interface tp).
Definition named (tp : Z) l : list tpUsage_t := mjoin (users <$> filter (λ e, id e = tp) l).
Definition holders s (tp : Z) : list tpUsage_t := named tp (table s (iface_of tp)).

(** ** Lists of entries *)
Lemma named_app tp l l' : named tp (l ++ l') = named tp l ++ named tp l'.
Proof. unfold named. by rewrite filter_app, fmap_app, join_app. Qed.
Lemma named_cons tp e l : named tp (e :: l) = (if decide (id e = tp) then users e else []) ++ named tp l.
Proof. unfold named. rewrite filter_cons. by destruct (decide (id e = tp)). Qed.
Lemma named_none tp l : (∀ e, e ∈ l → id e ≠ tp) → named tp l = [].
Proof.
  intros Hl. induction l as [|e l IH]; [done|]. rewrite named_cons, IH by (intros e' He'; apply Hl; by right).
  destruct (decide (id e = tp)) as [E|]; [|done]. exfalso. by apply (Hl e (list_elem_of_here _ _)).
Qed.
Lemma split_at l j : (j < length l)%nat → l = take j l ++ l !!! j :: drop (S j) l.
Proof.
  intros Hj. rewrite <- (take_drop j l) at 1. f_equal. apply drop_S, list_lookup_lookup_total_lt, Hj.
Qed.
Lemma named_split tp l j :
  (j < length l)%nat →
  named tp l = named tp (take j l) ++ (if decide (id (l !!! j) = tp) then users (l !!! j) else []) ++ named tp (drop (S j) l).
Proof. intros Hj. by rewrite <- named_cons, <- named_app, <- split_at. Qed.
Lemma insert_split l j e : (j < length l)%nat → <[j := e]> l = take j l ++ e :: drop (S j) l.
Proof. intros Hj. by apply insert_take_drop. Qed.

Lemma distinct_elsewhere l j tp :
  distinct l → (j < length l)%nat → id (l !!! j) = tp → tp ≠ 0 →
  (∀ e, e ∈ take j l → id e ≠ tp) ∧ (∀ e, e ∈ drop (S j) l → id e ≠ tp).
Proof.
  intros Hd Hj E Hn. split; intros e He E'; apply list_elem_of_lookup_1 in He as [i Hi].
  - apply lookup_take_Some in Hi as [Hi Hlt]. apply list_lookup_total_correct in Hi as Hi'.
    assert (i = j); [|lia]. apply Hd; [by apply lookup_lt_Some in Hi|done|congruence|congruence].
  - rewrite lookup_drop in Hi. apply list_lookup_total_correct in Hi as Hi'.
    assert ((S j + i)%nat = j); [|lia]. apply Hd; [by apply lookup_lt_Some in Hi|done|congruence|congruence].
Qed.

(** An entry changes: its number stays, or goes, or comes into an empty slot. *)
Inductive Change (l : list tpEntry_t) (j : nat) (e' : tpEntry_t) (x : Z) : Prop :=
  | Update : id (l !!! j) = x → id e' = x ∨ id e' = 0 → Change l j e' x
  | Enter : id (l !!! j) = 0 → id e' = x → (∀ e, e ∈ l → id e ≠ x) → Change l j e' x.
Lemma named_insert l j e' x tp :
  distinct l → (j < length l)%nat → x ≠ 0 → tp ≠ 0 → (id e' = 0 → users e' = []) → Change l j e' x →
  named tp (<[j := e']> l) = if decide (tp = x) then users e' else named tp l.
Proof.
  intros Hd Hj Hx Htp He Hc. rewrite insert_split, named_app, named_cons by done. destruct (decide (tp = x)) as [->|Hne].
  - assert ((∀ e, e ∈ take j l → id e ≠ x) ∧ (∀ e, e ∈ drop (S j) l → id e ≠ x)) as [H1 H2].
    { destruct Hc as [E _|_ _ Hn]; [by apply distinct_elsewhere|].
      split; intros e Hin; apply Hn.
      - rewrite <- (take_drop j l). apply elem_of_app. by left.
      - rewrite <- (take_drop (S j) l). apply elem_of_app. by right. }
    rewrite (named_none x (take j l)), (named_none x (drop (S j) l)) by done. cbn [app]. rewrite app_nil_r.
    destruct (decide (id e' = x)) as [|Hne]; [done|]. destruct Hc as [_ [|E]|_ E _]; [done| |done]. by rewrite He.
  - rewrite (named_split tp l j Hj). f_equal. f_equal. rewrite decide_False by (destruct Hc as [_ [->| ->]| _ -> _]; congruence).
    rewrite decide_False by (destruct Hc as [-> _| -> _ _]; congruence). done.
Qed.

(** ** Searches *)
Lemma find_id_list_find tp l j : find_id tp l j = (λ p, (j + p.1)%nat) <$> list_find (λ e, id e = tp) l.
Proof.
  revert j. induction l as [|e l IH]; intros j; cbn [find_id list_find]; [done|].
  destruct (Z.eqb_spec (id e) tp) as [E|E].
  - rewrite decide_True by done. cbn. by rewrite Nat.add_0_r.
  - rewrite decide_False, IH by done. by destruct (list_find _ l) as [[i e']|]; cbn; [rewrite Nat.add_succ_r|].
Qed.
Lemma find_id_Some tp l i :
  find_id tp l 0 = Some i → (i < length l)%nat ∧ id (l !!! i) = tp ∧ ∀ k, (k < i)%nat → id (l !!! k) ≠ tp.
Proof.
  rewrite find_id_list_find. intros ((i' & e) & Hf & ->)%fmap_Some. cbn [fst Nat.add].
  apply list_find_Some in Hf as (Hi & E & Hb). split; [by apply lookup_lt_Some in Hi|].
  split; [by rewrite (list_lookup_total_correct _ _ _ Hi)|].
  intros k Hk. assert (Hlt : (k < length l)%nat) by (apply lookup_lt_Some in Hi; lia).
  by eapply Hb, Hk; apply list_lookup_lookup_total_lt.
Qed.
Lemma find_id_None tp l j : find_id tp l j = None → ∀ e, e ∈ l → id e ≠ tp.
Proof. rewrite find_id_list_find, fmap_None, list_find_None, Forall_forall. done. Qed.

Lemma scan_ended l j tp k :
  (scan l j tp k).2 = match find_id tp l j with
                      | Some i => if (inUse (l !!! (i - j)%nat) <? _TP_MAX_USER)%nat then Listed i else Crowded
                      | None => Unlisted
                      end.
Proof.
  revert j k. induction l as [|e l IH]; intros j k; cbn [scan find_id]; [done|].
  destruct (Z.eqb_spec (id e) tp) as [E|E]; [by rewrite Nat.sub_diag|]. rewrite IH.
  destruct (find_id tp l (S j)) as [i|] eqn:Hf; [|done].
  rewrite find_id_list_find in Hf. apply fmap_Some in Hf as (p & _ & ->).
  by replace (S j + p.1 - j)%nat with (S (S j + p.1 - S j)) by lia.
Qed.
Lemma scan_slot l j tp k :
  find_id tp l j = None → (scan l j tp k).1 = match k with Some _ => k | None => find_id 0 l j end.
Proof.
  revert j k. induction l as [|e l IH]; intros j k; cbn [scan find_id]; [by destruct k|].
  destruct (Z.eqb_spec (id e) tp) as [E|E]; [done|]. intros Hf. rewrite IH by done.
  destruct k; [done|]. by destruct (id e =? 0).
Qed.

(** ** One entry changes *)
Lemma table_full s i : wf s → (i < TP_MAX_INTERFACE)%nat → table s i = indx s !!! i.
Proof.
  intros (_ & Hw & _) Hi. unfold table. destruct (Hw i Hi) as [Hl _]. apply take_ge. rewrite Hl.
  unfold TP_INTERFACE_TO_INDEX_LEN, TP_MAX_INTERFACE in *. by rewrite (proj2 (Z.leb_le _ _)), (proj2 (Z.ltb_lt _ _)) by lia.
Qed.
Lemma set_entry_same s i j e : wf s → (i < TP_MAX_INTERFACE)%nat → indx (set_entry i j e s) !!! i = <[j := e]> (indx s !!! i).
Proof. intros (Hl & _) Hi. unfold set_entry. cbn [set_indx indx]. apply lookup_total_alter_eq. by rewrite Hl. Qed.
Lemma set_entry_other s i j e i' : i' ≠ i → indx (set_entry i j e s) !!! i' = indx s !!! i'.
Proof. intros Hn. unfold set_entry. cbn [set_indx indx]. by apply lookup_total_alter_ne. Qed.

Lemma in_range_spec i : in_range i = true ↔ 0 <= i < 4.
Proof. unfold in_range, TP_MAX_INTERFACE. rewrite andb_true_iff, Z.leb_le, Z.ltb_lt. lia. Qed.

(** The numbers that are in a table as [x] is: what may come to the place of an entry. *)
Lemma table_ok_change i l j e' x :
  table_ok i l → (j < TP_MAX_INDEX)%nat → x ≠ 0 → entry_ok i e' → Change l j e' x → table_ok i (<[j := e']> l).
Proof.
  intros (Hl & Hf & Hd) Hj Hx He Hc. split; [by rewrite length_insert|]. split; [by apply Forall_insert|].
  assert (Hnew : ∀ k, (k < length l)%nat → k ≠ j → id e' ≠ 0 → id (l !!! k) ≠ id e').
  { intros k Hk Hkj Hn Ek. destruct Hc as [E [E'|E']|E E' Hall]; [|done|].
    - apply Hkj, Hd; [done|by rewrite Hl|congruence|congruence].
    - apply (Hall (l !!! k)); [by apply list_elem_of_lookup_total_2|congruence]. }
  intros a b Ha Hb. rewrite length_insert in Ha, Hb.
  rewrite !lookup_total_insert by lia. intros Hn E.
  destruct (decide (a = j)) as [->|], (decide (b = j)) as [->|]; [done| | |by apply Hd].
  - exfalso. by apply (Hnew b Hb).
  - exfalso. apply (Hnew a Ha); congruence.
Qed.

Lemma wf_table s i : wf s → (i < TP_MAX_INTERFACE)%nat → table_ok i (indx s !!! i).
Proof. intros (_ & Hw & _). apply Hw. Qed.
Lemma wf_set_entry s i j e' x :
  wf s → (i < TP_MAX_INTERFACE)%nat → (j < TP_MAX_INDEX)%nat → x ≠ 0 → entry_ok i e' →
  Change (indx s !!! i) j e' x → wf (set_entry i j e' s).
Proof.
  intros Hwf Hi Hj Hx He Hc. destruct Hwf as (Hl & Hw & Hcl). split; [cbn [set_entry set_indx indx]; by rewrite length_alter|].
  split; [|done]. intros i' Hi'. destruct (decide (i' = i)) as [->|Hn].
  - rewrite set_entry_same by done. apply (table_ok_change i _ j e' x); auto.
  - rewrite set_entry_other by done. auto.
Qed.
Lemma table_set_entry s i j e' i' :
  wf s → (i < TP_MAX_INTERFACE)%nat →
  table (set_entry i j e' s) i' = if decide (i' = i) then <[j := e']> (table s i) else table s i'.
Proof.
  intros Hwf Hi. destruct (decide (i' = i)) as [->|Hn].
  - rewrite (table_full s i) by done. unfold table. rewrite set_entry_same by done. apply take_ge.
    destruct (wf_table s i Hwf Hi) as (Hl & _). rewrite length_insert, Hl. unfold TP_INTERFACE_TO_INDEX_LEN, TP_MAX_INTERFACE in *.
    rewrite (proj2 (Z.leb_le _ _)), (proj2 (Z.ltb_lt _ _)) by lia. done.
  - unfold table. by rewrite set_entry_other.
Qed.
Lemma holders_set_entry s i j e' x tp :
  wf s → (i < TP_MAX_INTERFACE)%nat → (j < TP_MAX_INDEX)%nat → x ≠ 0 → iface_of x = i → entry_ok i e' →
  Change (indx s !!! i) j e' x → tp ≠ 0 →
  holders (set_entry i j e' s) tp = if decide (tp = x) then users e' else holders s tp.
Proof.
  intros Hwf Hi Hj Hx Hix He Hc Htp. unfold holders. rewrite table_set_entry by done.
  destruct (wf_table s i Hwf Hi) as (Hl & _ & Hd).
  destruct (decide (iface_of tp = i)) as [->|Hn].
  - rewrite table_full by done. apply (named_insert _ _ _ x); [done|by rewrite Hl|done|done|by apply He|done].
  - rewrite decide_False by congruence. done.
Qed.

(** ** Requests *)
Lemma eligible_spec s tp i n :
  eligible s tp = Some (i, n) →
  0 < tp < TP_HIGHEST_INDEX ∧ tp_interface tp = Z.of_nat i ∧ iface_of tp = i ∧ (i < TP_MAX_INTERFACE)%nat.
Proof.
  unfold eligible, iface_of. destruct (Z.leb_spec tp 0) as [|H0]; [done|]. destruct (Z.leb_spec TP_HIGHEST_INDEX tp) as [|H1]; [done|].
  cbn [orb]. destruct (tplookup s !! tp); [|done]. cbn [mbind option_bind].
  destruct (in_range _) eqn:E; [|done]. apply in_range_spec in E. intros [= <- _]. unfold TP_MAX_INTERFACE. lia.
Qed.

(** Nothing moves: a slot in use keeps its number, or loses it. *)
Definition number s (i j : nat) : Z := id ((indx s !!! i) !!! j).
Definition kept s s' : Prop :=
  ∀ i j, (i < TP_MAX_INTERFACE)%nat → (j < TP_MAX_INDEX)%nat → number s i j ≠ 0 → number s' i j = number s i j.

Lemma number_set_entry s i j e' i' j' :
  wf s → (i < TP_MAX_INTERFACE)%nat → (j < TP_MAX_INDEX)%nat →
  number (set_entry i j e' s) i' j' = if decide (i' = i ∧ j' = j) then id e' else number s i' j'.
Proof.
  intros Hwf Hi Hj. unfold number. destruct (decide (i' = i)) as [->|Hn].
  - rewrite set_entry_same by done. destruct (wf_table s i Hwf Hi) as [Hl _]. rewrite lookup_total_insert by lia.
    destruct (decide (j' = j)), (decide (i = i ∧ j' = j)); tauto.
  - rewrite set_entry_other by done. by rewrite decide_False by tauto.
Qed.

Lemma search_ended s i tp :
  wf s → (i < TP_MAX_INTERFACE)%nat →
  (search s i tp).2 = match find_id tp (indx s !!! i) 0 with
                      | Some j => if (inUse ((indx s !!! i) !!! j) <? _TP_MAX_USER)%nat then Listed j else Crowded
                      | None => Unlisted
                      end.
Proof.
  intros Hwf Hi. unfold search. rewrite table_full, scan_ended by done.
  destruct (find_id tp _ 0); [|done]. by rewrite Nat.sub_0_r.
Qed.
Lemma search_slot s i tp :
  wf s → (i < TP_MAX_INTERFACE)%nat → find_id tp (indx s !!! i) 0 = None →
  (search s i tp).1 = find_id 0 (indx s !!! i) 0.
Proof. intros Hwf Hi Hf. unfold search. rewrite table_full by done. by apply scan_slot. Qed.

(** What a request for one test point does. *)
Definition absent s (i : nat) (tp : Z) : Prop := ∀ e, e ∈ indx s !!! i → id e ≠ tp.
Inductive Outcome (u : tpUsage_t) s (tp : Z) : option Server → Prop :=
  | Skipped : eligible s tp = None → Outcome u s tp (Some s)
  | Joined i n j :
      eligible s tp = Some (i, n) → (j < TP_MAX_INDEX)%nat → number s i j = tp →
      (inUse ((indx s !!! i) !!! j) < _TP_MAX_USER)%nat →
      Outcome u s tp (Some (set_entry i j (add_user u ((indx s !!! i) !!! j)) s))
  | Entered i n j :
      eligible s tp = Some (i, n) → absent s i tp → (j < TP_MAX_INDEX)%nat → number s i j = 0 →
      (∀ k, (k < j)%nat → number s i k ≠ 0) →
      Outcome u s tp (Some (set_entry i j (mkEntry tp [u] (trunc_name n)) s))
  | TooMany i n j :
      eligible s tp = Some (i, n) → (j < TP_MAX_INDEX)%nat → number s i j = tp →
      (_TP_MAX_USER <= inUse ((indx s !!! i) !!! j))%nat → Outcome u s tp None
  | NoSlot i n : eligible s tp = Some (i, n) → absent s i tp → absent s i 0 → Outcome u s tp None.
Lemma request_one_view u s tp : wf s → Outcome u s tp (request_one u s tp).
Proof.
  intros Hwf. unfold request_one. destruct (eligible s tp) as [[i n]|] eqn:He; [|by apply Skipped].
  destruct (eligible_spec _ _ _ _ He) as (_ & _ & _ & Hi). destruct (wf_table s i Hwf Hi) as (Hl & _ & _).
  rewrite (surjective_pairing (search s i tp)), search_ended by done.
  destruct (find_id tp (indx s !!! i) 0) as [j|] eqn:Hf.
  - apply find_id_Some in Hf as (Hj & E & _). rewrite Hl in Hj.
    destruct (search s i tp).1, (Nat.ltb_spec (inUse ((indx s !!! i) !!! j)) _TP_MAX_USER);
      by eauto using Joined, TooMany.
  - rewrite search_slot by done. pose proof (find_id_None _ _ _ Hf) as Ha.
    destruct (find_id 0 (indx s !!! i) 0) as [k|] eqn:Hk.
    + apply find_id_Some in Hk as (Hk & E & Hb). rewrite Hl in Hk. by eapply Entered.
    + eapply NoSlot; [done|exact Ha|exact (find_id_None _ _ _ Hk)].
Qed.

(** The change of the table in the two cases. *)
Lemma outcome_change u s tp s' :
  wf s → Outcome u s tp (Some s') →
  (eligible s tp = None ∧ s' = s) ∨
  ∃ i j e', (i < TP_MAX_INTERFACE)%nat ∧ (j < TP_MAX_INDEX)%nat ∧ 0 < tp ∧ iface_of tp = i ∧ entry_ok i e' ∧
    Change (indx s !!! i) j e' tp ∧ id e' = tp ∧ users e' = holders s tp ++ [u] ∧ is_Some (eligible s tp) ∧
    s' = set_entry i j e' s.
Proof.
  intros Hwf Ho. inversion Ho as [He|i n j He Hj En Hu|i n j He Ha Hj En Hb| |]; subst; [by left| |]; right;
    destruct (eligible_spec _ _ _ _ He) as (Htp & Hif & Hio & Hi); destruct (wf_table s i Hwf Hi) as (Hl & Hf & Hd).
  - rewrite Forall_forall in Hf. assert (Hin : (indx s !!! i) !!! j ∈ indx s !!! i) by (apply list_elem_of_lookup_total_2; lia).
    destruct (Hf _ Hin) as (H0 & _ & Hr). set (e := (indx s !!! i) !!! j) in *. fold e in Hu.
    assert (Hh : holders s (number s i j) = users e).
    { unfold holders. rewrite Hio, table_full by done. rewrite (named_split _ _ j) by lia. fold e.
      destruct (distinct_elsewhere (indx s !!! i) j (number s i j) Hd ltac:(lia) eq_refl ltac:(lia)) as [H1 H2].
      rewrite decide_True by done. rewrite !named_none by done. by rewrite app_nil_r. }
    exists i, j, (add_user u e). split_and!; try done; try lia.
    + split; [|split]; cbn [add_user id users inUse].
      * split; [|by destruct (users e)]. intros E. fold (number s i j) in Htp. exfalso. unfold number in Htp. fold e in Htp. lia.
      * unfold inUse in *. cbn [add_user users]. rewrite length_app. cbn [length]. lia.
      * apply Hr.
    + apply Update; [done|by left].
    + cbn [add_user users]. by rewrite Hh.
  - exists i, j, (mkEntry tp [u] (trunc_name n)). split_and!; try done; try lia.
    + split; [|split]; cbn [id users inUse length]; [split; [lia|done]|unfold _TP_MAX_USER; lia|done].
    + apply Enter; [done|done|done].
    + unfold holders. rewrite Hio, table_full by done. by rewrite (named_none _ _ Ha).
Qed.

(** Only the tables change. *)
Definition framed s s' : Prop := s' = set_indx (indx s') s.
Lemma framed_refl s : framed s s.
Proof. by destruct s. Qed.
Lemma framed_trans s1 s2 s3 : framed s1 s2 → framed s2 s3 → framed s1 s3.
Proof. unfold framed. intros E1 E2. rewrite E2, E1. done. Qed.
Lemma framed_entry s i j e : framed s (set_entry i j e s).
Proof. done. Qed.
Lemma framed_eligible s s' tp : framed s s' → eligible s' tp = eligible s tp.
Proof. unfold framed. intros ->. done. Qed.
Lemma kept_trans s1 s2 s3 : kept s1 s2 → kept s2 s3 → kept s1 s3.
Proof. intros H1 H2 i j Hi Hj Hn. rewrite (H2 i j), (H1 i j); [done..|]. by rewrite (H1 i j). Qed.

Lemma request_one_spec u s tp s' :
  wf s → request_one u s tp = Some s' →
  wf s' ∧ kept s s' ∧ framed s s' ∧
  ∀ x, x ≠ 0 → holders s' x = holders s x ++ (if decide (x = tp ∧ is_Some (eligible s tp)) then [u] else []).
Proof.
  intros Hwf Hr. pose proof (request_one_view u s tp Hwf) as Ho. rewrite Hr in Ho.
  destruct (outcome_change _ _ _ _ Hwf Ho) as [[He ->]|(i & j & e' & Hi & Hj & Htp & Hio & Hok & Hc & E & Hu & Hel & ->)].
  - split_and!; [done|by intros ?|apply framed_refl|]. intros x _. rewrite He, decide_False by (intros [_ []%is_Some_None]).
    by rewrite app_nil_r.
  - assert (Hz : tp ≠ 0) by lia. split_and!.
    + by apply (wf_set_entry _ _ _ _ tp).
    + intros i' j' Hi' Hj' Hn. rewrite number_set_entry by done. destruct (decide _) as [[-> ->]|]; [|done].
      destruct Hc as [Ei _|Ei _ _]; unfold number in *; congruence.
    + apply framed_entry.
    + intros x Hx. rewrite (holders_set_entry _ _ _ _ tp) by done. destruct (decide (x = tp)) as [->|Hn].
      * by rewrite decide_True.
      * rewrite decide_False by tauto. by rewrite app_nil_r.
Qed.

(** What a list of requests adds to the users of [x]. *)
Fixpoint uses_of (use : nat → tpUsage_t) (i : nat) (tps : list Z) (x : Z) : list tpUsage_t :=
  match tps with
  | [] => []
  | tp :: tps => (if tp =? x then [use i] else []) ++ uses_of use (S i) tps x
  end.
Definition granted use i tps s x : list tpUsage_t := if decide (is_Some (eligible s x)) then uses_of use i tps x else [].

Lemma granted_absent use i tps s x : x ∉ tps → granted use i tps s x = [].
Proof.
  intros Hx. unfold granted. destruct (decide _) as [_|]; [|done]. revert i Hx.
  induction tps as [|tp tps IH]; intros i Hx; [done|]. apply not_elem_of_cons in Hx as [Hn Hx]. cbn [uses_of].
  destruct (Z.eqb_spec tp x) as [E|_]; [by rewrite E in Hn|]. by apply IH.
Qed.

Lemma request_loop_spec use tps s :
  ∀ i, wf s →
  let '(s', full) := request_loop use i tps s in
  wf s' ∧ kept s s' ∧ framed s s' ∧
  (full = None → ∀ x, x ≠ 0 → holders s' x = holders s x ++ granted use i tps s x).
Proof.
  revert s. induction tps as [|tp tps IH]; intros s i Hwf; cbn [request_loop].
  - split_and!; [done|by intros ?|apply framed_refl|]. intros _ x _. unfold granted. cbn [uses_of].
    by destruct (decide _); rewrite app_nil_r.
  - destruct (request_one (use i) s tp) as [s1|] eqn:E.
    + apply request_one_spec in E as (Hwf1 & Hk1 & Hf1 & Hh1); [|done].
      specialize (IH s1 (S i) Hwf1). destruct (request_loop use (S i) tps s1) as [s' full].
      destruct IH as (Hwf' & Hk' & Hf' & Hh'). split_and!; [done|by eapply kept_trans|by eapply framed_trans|].
      intros Hfull x Hx. rewrite Hh', Hh1 by done. rewrite <- app_assoc. f_equal.
      unfold granted. rewrite (framed_eligible s s1) by done. cbn [uses_of].
      destruct (Z.eqb_spec tp x) as [->|Hn].
      * destruct (decide (is_Some (eligible s x))) as [Hs|Hs].
        -- by rewrite decide_True.
        -- rewrite decide_False by tauto. done.
      * rewrite (decide_False (P := x = tp ∧ _)) by (intros [-> _]; done). done.
    + split_and!; [done|by intros ?|apply framed_refl|done].
Qed.

(** ** Releases *)
Lemma drop_user_absent cid us : existsb (held_by cid) us = false → drop_user cid us = us.
Proof. induction us as [|u us IH]; cbn; [done|]. destruct (held_by cid u); [done|]. intros E. by rewrite IH. Qed.
Lemma length_drop_user cid us : (length (drop_user cid us) <= length us)%nat.
Proof. induction us as [|u us IH]; cbn; [done|]. destruct (held_by cid u); cbn; lia. Qed.

(** An entry whose users shrink. *)
Lemma with_users_ok i e us :
  entry_ok i e → (length us <= inUse e)%nat → id e ≠ 0 →
  entry_ok i (with_users us e) ∧ (id (with_users us e) = id e ∨ id (with_users us e) = 0).
Proof.
  intros (H0 & Hl & Hr) Hus Hn. split; [|destruct us; cbn; [by right|by left]].
  split_and!; cbn [with_users id users inUse].
  - destruct us; [done|]. split; [|done]. intros E. congruence.
  - unfold inUse in *. cbn [with_users users]. lia.
  - destruct us; [done|]. exact Hr.
Qed.

(** A slot in use keeps its number or is emptied. *)
Definition left_or_kept s s' : Prop :=
  ∀ i j, (i < TP_MAX_INTERFACE)%nat → (j < TP_MAX_INDEX)%nat → number s' i j = number s i j ∨ number s' i j = 0.

(** The users of one entry become [us]. *)
Lemma shrink_spec s i j us tp :
  wf s → (i < TP_MAX_INTERFACE)%nat → (j < TP_MAX_INDEX)%nat → number s i j = tp → tp ≠ 0 →
  (length us <= inUse ((indx s !!! i) !!! j))%nat →
  let s' := set_entry i j (with_users us ((indx s !!! i) !!! j)) s in
  wf s' ∧ left_or_kept s s' ∧ framed s s' ∧ holders s tp = users ((indx s !!! i) !!! j) ∧
  ∀ x, x ≠ 0 → holders s' x = if decide (x = tp) then us else holders s x.
Proof.
  intros Hwf Hi Hj En Hn Hl s'. destruct (wf_table s i Hwf Hi) as (Hlen & Hf & Hd).
  set (e := (indx s !!! i) !!! j) in *. assert (Hok : entry_ok i e).
  { rewrite Forall_forall in Hf. apply Hf, list_elem_of_lookup_total_2. lia. }
  assert (En' : id e = tp) by exact En. destruct (with_users_ok i e us Hok Hl ltac:(congruence)) as [Hok' Hid].
  assert (Hio : iface_of tp = i).
  { unfold iface_of. rewrite <- En'. rewrite (proj2 (proj2 (proj2 Hok) ltac:(congruence))). apply Nat2Z.id. }
  assert (Hc : Change (indx s !!! i) j (with_users us e) tp) by (apply Update; [done|rewrite En' in Hid; done]).
  subst s'. split_and!.
  - by apply (wf_set_entry _ _ _ _ tp).
  - intros i' j' Hi' Hj'. rewrite number_set_entry by done. destruct (decide _) as [[-> ->]|]; [|by left]. exact Hid.
  - apply framed_entry.
  - unfold holders. rewrite Hio, table_full by done. rewrite (named_split _ _ j) by lia.
    destruct (distinct_elsewhere (indx s !!! i) j tp Hd ltac:(lia) En' Hn) as [H1 H2].
    fold e. rewrite decide_True by done. rewrite !named_none by done. by rewrite app_nil_r.
  - intros x Hx. by rewrite (holders_set_entry _ _ _ _ tp) by done.
Qed.

Lemma entry_at_ok s i e : wf s → (i < TP_MAX_INTERFACE)%nat → e ∈ indx s !!! i → entry_ok i e.
Proof. intros Hwf Hi. destruct (wf_table s i Hwf Hi) as (_ & Hf & _). rewrite Forall_forall in Hf. apply Hf. Qed.
Lemma holders_nowhere s x : wf s → x ≠ 0 → in_range (tp_interface x) = false → holders s x = [].
Proof.
  intros Hwf Hx Hr. unfold holders. destruct (decide (iface_of x < TP_MAX_INTERFACE)%nat) as [Hi|Hi].
  - rewrite table_full by done. apply named_none. intros e He E. destruct (entry_at_ok s _ e Hwf Hi He) as (_ & _ & Hn).
    rewrite E in Hn. destruct (Hn Hx) as [_ Ht]. rewrite Ht in Hr. apply not_true_iff_false in Hr. apply Hr, in_range_spec.
    unfold TP_MAX_INTERFACE in Hi. lia.
  - unfold table, TP_INTERFACE_TO_INDEX_LEN. unfold TP_MAX_INTERFACE in Hi.
    rewrite (proj2 (Z.ltb_ge (Z.of_nat (iface_of x)) 4)) by lia. by rewrite andb_false_r.
Qed.
Lemma holders_unnamed s x : wf s → (iface_of x < TP_MAX_INTERFACE)%nat → absent s (iface_of x) x → holders s x = [].
Proof. intros Hwf Hi Ha. unfold holders. rewrite table_full by done. by apply named_none. Qed.

Lemma left_or_kept_refl s : left_or_kept s s.
Proof. by left. Qed.
Lemma left_or_kept_trans s1 s2 s3 : left_or_kept s1 s2 → left_or_kept s2 s3 → left_or_kept s1 s3.
Proof.
  intros H1 H2 i j Hi Hj. destruct (H2 i j Hi Hj) as [->|E]; [by apply H1|by right].
Qed.

Lemma set_entry_id s i j :
  wf s → (i < TP_MAX_INTERFACE)%nat → (j < TP_MAX_INDEX)%nat → set_entry i j ((indx s !!! i) !!! j) s = s.
Proof.
  intros Hwf Hi Hj. destruct (wf_table s i Hwf Hi) as (Hlen & _). destruct Hwf as [Hl _].
  destruct s as [va no pr ix lk cl ci]. unfold set_entry, set_indx. cbn [indx valid node preselect tplookup tpclnts tpclntID] in *.
  f_equal. apply list_eq. intros k. rewrite list_lookup_alter. destruct (decide (i = k)) as [<-|]; [|done].
  rewrite (list_lookup_lookup_total_lt ix i) by lia. cbn. f_equal. apply list_insert_id', list_lookup_lookup_total_lt.
Qed.
Lemma clear_one_spec cid s tp :
  wf s → tp ≠ 0 →
  let s' := clear_one cid tp s in
  wf s' ∧ left_or_kept s s' ∧ framed s s' ∧
  ∀ x, x ≠ 0 → holders s' x = if decide (x = tp) then drop_user cid (holders s x) else holders s x.
Proof.
  intros Hwf Hn s'. assert (Hsame : drop_user cid (holders s tp) = holders s tp → s' = s →
    wf s' ∧ left_or_kept s s' ∧ framed s s' ∧
    ∀ x, x ≠ 0 → holders s' x = if decide (x = tp) then drop_user cid (holders s x) else holders s x).
  { intros Hd ->. split_and!; [done|apply left_or_kept_refl|apply framed_refl|]. intros x _. by destruct (decide (x = tp)) as [->|]. }
  unfold s', clear_one in *. destruct (in_range (tp_interface tp)) eqn:Hr; [|by apply Hsame; rewrite ?holders_nowhere].
  apply in_range_spec in Hr. fold (iface_of tp) in *. set (i := iface_of tp) in *.
  assert (Hi : (i < TP_MAX_INTERFACE)%nat) by (unfold i, iface_of, TP_MAX_INTERFACE; lia).
  rewrite table_full in * by done. destruct (find_id tp (indx s !!! i) 0) as [j|] eqn:Hf.
  - apply find_id_Some in Hf as (Hj & E & _). destruct (wf_table s i Hwf Hi) as (Hlen & _). rewrite Hlen in Hj.
    set (e := (indx s !!! i) !!! j) in *.
    assert (Hh : holders s tp = users e) by (by apply (shrink_spec s i j []); [..|cbn; lia]).
    unfold release_user in *. destruct (existsb (held_by cid) (users e)) eqn:Ex.
    + destruct (shrink_spec s i j (drop_user cid (users e)) tp Hwf Hi Hj E Hn (length_drop_user _ _)) as (H1 & H2 & H3 & _ & H4).
      split_and!; [done..|]. intros x Hx. rewrite H4 by done. destruct (decide (x = tp)) as [->|]; [|done]. by rewrite Hh.
    + apply Hsame; [by rewrite Hh, drop_user_absent|]. by apply set_entry_id.
  - apply Hsame; [|done]. rewrite (holders_unnamed s tp); [done|done|done|]. exact (find_id_None _ _ _ Hf).
Qed.

Fixpoint dropped (cid : Z) (tps : list Z) (x : Z) us : list tpUsage_t :=
  match tps with
  | [] => us
  | tp :: tps => dropped cid tps x (if tp =? x then drop_user cid us else us)
  end.
Lemma clear_one_zero cid s : clear_one cid 0 s = s.
Proof. done. Qed.
Lemma clear_loop_spec cid tps s :
  wf s → _TP_CLEAR_ALL ∉ tps →
  let s' := (clear_loop cid tps s).1 in
  (clear_loop cid tps s).2 = false ∧ wf s' ∧ left_or_kept s s' ∧ framed s s' ∧
  ∀ x, x ≠ 0 → holders s' x = dropped cid tps x (holders s x).
Proof.
  revert s. induction tps as [|tp tps IH]; intros s Hwf Hn; cbn [clear_loop dropped].
  - split_and!; [done|done|apply left_or_kept_refl|apply framed_refl|done].
  - apply not_elem_of_cons in Hn as [Hn Hns]. rewrite (proj2 (Z.eqb_neq _ _)) by done.
    assert (Hc : wf (clear_one cid tp s) ∧ left_or_kept s (clear_one cid tp s) ∧ framed s (clear_one cid tp s) ∧
      ∀ x, x ≠ 0 → holders (clear_one cid tp s) x = if tp =? x then drop_user cid (holders s x) else holders s x).
    { destruct (decide (tp = 0)) as [->|Hz].
      - rewrite clear_one_zero. split_and!; [done|apply left_or_kept_refl|apply framed_refl|].
        intros x Hx. by rewrite (proj2 (Z.eqb_neq _ _)).
      - destruct (clear_one_spec cid s tp Hwf Hz) as (H1 & H2 & H3 & H4). split_and!; [done..|].
        intros x Hx. rewrite H4 by done. destruct (decide (x = tp)), (Z.eqb_spec tp x); congruence. }
    destruct Hc as (Hw1 & Hk1 & Hf1 & Hh1). destruct (IH _ Hw1 Hns) as (H0 & Hw2 & Hk2 & Hf2 & Hh2).
    split_and!; [done|done|by eapply left_or_kept_trans|by eapply framed_trans|].
    intros x Hx. by rewrite Hh2, Hh1.
Qed.
Lemma clear_loop_all cid tps s :
  wf s → _TP_CLEAR_ALL ∈ tps → ∃ s1, framed s s1 ∧ wf s1 ∧ clear_loop cid tps s = (set_indx empty_index s1, true).
Proof.
  revert s. induction tps as [|tp tps IH]; intros s Hwf Hin; [by apply not_elem_of_nil in Hin|]. cbn [clear_loop].
  destruct (Z.eqb_spec tp _TP_CLEAR_ALL) as [E|Hn]; [exists s; split_and!; [apply framed_refl|done|done]|].
  apply elem_of_cons in Hin as [|Hin]; [congruence|].
  destruct (decide (tp = 0)) as [->|Hz]; [by rewrite clear_one_zero; apply IH|].
  destruct (clear_one_spec cid s tp Hwf Hz) as (Hw & _ & Hf & _).
  destruct (IH _ Hw Hin) as (s1 & Hf1 & Hw1 & ->). exists s1. split_and!; [by eapply framed_trans|done|done].
Qed.

Lemma empty_index_lookup i e : (i < TP_MAX_INTERFACE)%nat → e ∈ empty_index !!! i → e = zero_entry.
Proof.
  intros Hi. unfold empty_index. rewrite lookup_total_replicate_2 by done. intros He. by apply elem_of_replicate in He as [-> _].
Qed.
Lemma empty_index_table_ok i : (i < TP_MAX_INTERFACE)%nat → table_ok i (empty_index !!! i).
Proof.
  intros Hi. assert (E : empty_index !!! i = replicate TP_MAX_INDEX zero_entry) by (unfold empty_index; by rewrite lookup_total_replicate_2).
  rewrite E. split; [by rewrite length_replicate|]. split.
  - apply Forall_replicate. split_and!; cbn; [done|unfold inUse; cbn; lia|done].
  - intros a b Ha Hb Hn. rewrite length_replicate in Ha. exfalso. apply Hn. by rewrite lookup_total_replicate_2.
Qed.
Lemma empty_index_ok s : wf s → wf (set_indx empty_index s).
Proof. intros (_ & _ & Hc). split; [done|]. split; [exact empty_index_table_ok|done]. Qed.
Lemma empty_index_holders s x : wf s → x ≠ 0 → holders (set_indx empty_index s) x = [].
Proof.
  intros Hwf Hx. destruct (in_range (tp_interface x)) eqn:Hr; [|apply holders_nowhere; [by apply empty_index_ok|done|done]].
  apply in_range_spec in Hr. apply holders_unnamed; [by apply empty_index_ok|unfold iface_of, TP_MAX_INTERFACE; lia|].
  intros e He. apply empty_index_lookup in He as ->; [done|]. unfold iface_of, TP_MAX_INTERFACE. lia.
Qed.

(** ** Whole calls *)
Definition refused (env : Env) s (cid n : Z) (tps : list Z) : bool :=
  bad_call s cid n || (DAQ_DCU_SIZE <? projDaqSize env s tps).
Lemma requesttp_spec env s cid n tps tmo r s' r' :
  wf s → requesttp_1_svc env s cid n tps tmo r = Some (s', r') →
  wf s' ∧ kept s s' ∧ framed s s' ∧
  (memory env = true → ∀ x, x ≠ 0 →
   holders s' x = holders s x ++ (if refused env s cid n tps then [] else granted (λ i, mkUse (clock env i) tmo cid) 0 tps s x)).
Proof.
  intros Hwf. unfold requesttp_1_svc, refused.
  assert (Hsame : wf s ∧ kept s s ∧ framed s s ∧ (memory env = true → ∀ x, x ≠ 0 → holders s x = holders s x ++ [])).
  { split_and!; [done|by intros ?|apply framed_refl|]. intros _ x _. by rewrite app_nil_r. }
  destruct (bad_call s cid n); [by intros [= <- _]|]. cbn [orb mbind option_bind MUTEX_GET].
  destruct (DAQ_DCU_SIZE <? projDaqSize env s tps); [by intros [= <- _]|].
  pose proof (request_loop_spec (λ i, mkUse (clock env i) tmo cid) tps s 0 Hwf) as Hl.
  destruct (request_loop _ 0 tps s) as [s1 full]. destruct Hl as (Hw & Hk & Hf & Hh). intros E.
  assert (s1 = s' ∧ (memory env = true → full = None)) as [-> Hfull].
  { destruct full as [i|]; cbn in E; [|by injection E as <- _].
    rewrite (proj2 (Z.ltb_lt _ 0)) in E by lia. destruct (memory env); [done|]. by injection E as <- _. }
  split_and!; [done..|]. intros Hm. by apply Hh, Hfull.
Qed.
Lemma setPreselect_spec env n s s' :
  wf s → setPreselect env n s = Some s' →
  wf s' ∧ kept s s' ∧ framed s s' ∧
  (memory env = true → ∀ x, x ≠ 0 →
   holders s' x = holders s x ++ (if refused env s 0x7fffffff n (preselected s) then []
                                  else granted (λ i, mkUse (clock env i) 0 0x7fffffff) 0 (preselected s) s x)).
Proof.
  intros Hwf. unfold setPreselect. destruct (decide (preselected s = [])) as [E|].
  - intros [= <-]. split_and!; [done|by intros ?|apply framed_refl|]. intros _ x _. rewrite E. unfold granted. cbn [uses_of].
    destruct (refused _ _ _ _ _); [|destruct (decide (is_Some (eligible s x)))]; by rewrite app_nil_r.
  - intros ([s1 r1] & Hr & ->)%fmap_Some. cbn [fst]. by eapply requesttp_spec.
Qed.

(** *** The garbage collector *)
Lemma clean_users_ind (P : list tpUsage_t → Prop) (t : Z) :
  P [] →
  (∀ u us, over t u = false → P us → P (u :: us)) →
  (∀ u, over t u = true → P [u]) →
  (∀ u v us, over t u = true → P us → P (u :: v :: us)) → ∀ us, P us.
Proof.
  intros H0 Hk H1 H2 us. remember (length us) as n eqn:Hn. revert us Hn.
  induction n as [n IH] using lt_wf_ind. intros us ->. destruct us as [|u us]; [done|].
  destruct (over t u) eqn:Ho; [|apply Hk; [done|]; apply (IH (length us)); cbn; lia].
  destruct us as [|v us]; [by apply H1|]. apply H2; [done|]. apply (IH (length us)); cbn; lia.
Qed.
Lemma length_clean_users t us : (length (clean_users t us) <= length us)%nat.
Proof.
  pattern us. apply (clean_users_ind _ t); [done| | |]; intros; cbn [clean_users length];
    match goal with Ho : over t _ = _ |- _ => rewrite Ho end; cbn [length]; lia.
Qed.
Lemma clean_entry_ok t i e :
  entry_ok i e → entry_ok i (clean_entry t e) ∧ (id (clean_entry t e) = id e ∨ id (clean_entry t e) = 0) ∧
    users (clean_entry t e) = clean_users t (users e).
Proof.
  intros Hok. unfold clean_entry. destruct (Z.eqb_spec (id e) 0) as [E|E].
  - destruct (proj1 (proj1 Hok) E). split; [done|]. split; [by left|]. by rewrite (proj1 (proj1 Hok) E).
  - destruct (with_users_ok i e (clean_users t (users e)) Hok (length_clean_users t _) E) as [H1 H2]. done.
Qed.
Lemma clean_table_ok t i l : table_ok i l → table_ok i (clean_entry t <$> l).
Proof.
  intros (Hl & Hf & Hd). assert (Hok : ∀ k, (k < length l)%nat → entry_ok i (l !!! k)).
  { intros k Hk. rewrite Forall_forall in Hf. by apply Hf, list_elem_of_lookup_total_2. }
  split; [by rewrite length_fmap|]. split.
  - apply Forall_fmap. eapply Forall_impl; [done|]. intros e He. by apply clean_entry_ok.
  - intros a b Ha Hb. rewrite length_fmap in Ha, Hb. rewrite !(list_lookup_total_fmap (clean_entry t)) by done.
    destruct (proj1 (proj2 (clean_entry_ok t i _ (Hok a Ha)))) as [->|], (proj1 (proj2 (clean_entry_ok t i _ (Hok b Hb)))) as [->|];
      [by apply Hd|congruence..].
Qed.
Lemma named_clean t i l x : table_ok i l → x ≠ 0 → named x (clean_entry t <$> l) = clean_users t (named x l).
Proof.
  intros Hok Hx. assert (Hother : ∀ e, e ∈ l → id e ≠ x → id (clean_entry t e) ≠ x).
  { intros e He Hn. destruct Hok as (_ & Hf & _). rewrite Forall_forall in Hf.
    destruct (proj1 (proj2 (clean_entry_ok t i e (Hf e He)))) as [->| ->]; congruence. }
  destruct (find_id x l 0) as [j|] eqn:Hj.
  - apply find_id_Some in Hj as (Hj & E & _). destruct Hok as (Hl & Hf & Hd).
    destruct (distinct_elsewhere l j x Hd Hj E Hx) as [H1 H2].
    rewrite (named_split x l j), (named_none x (take j l)), (named_none x (drop (S j) l)) by done.
    rewrite (split_at l j Hj) at 1. rewrite fmap_app, fmap_cons, named_app, named_cons.
    assert (Hin : ∀ l', (∀ e, e ∈ l' → e ∈ l) → (∀ e, e ∈ l' → id e ≠ x) → named x (clean_entry t <$> l') = []).
    { intros l' Hsub Hno. apply named_none. intros e' He'. apply list_elem_of_fmap in He' as (e & -> & He). auto. }
    rewrite (Hin (take j l)), (Hin (drop (S j) l)); [|intros e He|done|intros e He|done].
    2:{ rewrite <- (take_drop (S j) l). apply elem_of_app. by right. }
    2:{ rewrite <- (take_drop j l). apply elem_of_app. by left. }
    rewrite (decide_True (P := id (l !!! j) = x)) by done. cbn [app]. rewrite !app_nil_r.
    rewrite Forall_forall in Hf. destruct (clean_entry_ok t i (l !!! j)) as (He & Hid & Hu).
    { by apply Hf, list_elem_of_lookup_total_2. }
    rewrite <- Hu. destruct (decide _) as [|Hn]; [done|]. symmetry. apply He. by destruct Hid; [congruence|].
  - pose proof (find_id_None _ _ _ Hj) as Hn. rewrite (named_none x l) by done. apply named_none.
    intros e' He'. apply list_elem_of_fmap in He' as (e & -> & He). auto.
Qed.
End TpProps.
