(* ===== verification/TpHistory.v ===== *)
(** * Test point manager: the server over time ([TpServer.v], [TpProps.v])

    A [Call] is one of the remote calls or scheduled tasks.  [registry_refinement]:
    each call changes the registry as [registry_after] says; [slot_stays]: a number
    in use stays in its slot; [slots_fit]: over all histories, what was admitted
    fits the blocks of the shared memory; [no_room_no_return]: a request there is
    no room for never returns; [expired_users_go]: what is over is collected. *)
From stdpp Require Import gmap strings.
From S2P Require Import Prelude Rm Awg TpServer TpProps.
Import Rm TpServer TpProps.
Local Open Scope Z_scope.

Module TpHistory.

Implicit Types (s : Server) (e : tpEntry_t) (l : list tpEntry_t) (us : list tpUsage_t) (env : Env).

(** ** Calls *)
Inductive Call :=
  | Request (cid n : Z) (tps : list Z) (tmo : Z)
  | Clear (cid n : Z) (tps : list Z)
  | KeepAlive (cid : Z)
  | Collect (time epoch : Z).
Definition serve env (c : Call) s : option Server :=
  match c with
  | Request cid n tps tmo => fst <$> requesttp_1_svc env s cid n tps tmo (mkRes 0 0 0)
  | Clear cid n tps => fst <$> cleartp_1_svc env false s cid n tps
  | KeepAlive cid => Some (keepalive_1_svc (after env) s cid).1
  | Collect time epoch => Some (cleanupTestpoints time epoch s)
  end.

(** ** The registry: who uses each test point *)
Definition collect_time (time epoch : Z) : Z := swrap 64 (swrap 64 time * _ONESEC + epoch * _EPOCH).
Definition PRESELECT_ID : Z := 0x7fffffff.
(** The list without the first use that satisfies [p]. *)
Definition without_first (p : tpUsage_t → bool) (us : list tpUsage_t) : list tpUsage_t :=
  match list_find (λ u, p u = true) us with Some (i, _) => delete i us | None => us end.
Definition released (cid : Z) (tps : list Z) (x : Z) (us : list tpUsage_t) : list tpUsage_t :=
  Nat.iter (length (filter (λ tp, tp = x) tps)) (without_first (held_by cid)) us.
(** A use stands behind one that goes when [spared]; then it stays. *)
Fixpoint collected (t : Z) (spared : bool) (us : list tpUsage_t) : list tpUsage_t :=
  match us with
  | [] => []
  | u :: us => if over t u && negb spared then collected t true us else u :: collected t false us
  end.
Definition registry_after env (c : Call) s (h : Z → list tpUsage_t) (x : Z) : list tpUsage_t :=
  match c with
  | Request cid n tps tmo =>
      h x ++ (if refused env s cid n tps then [] else granted (λ i, mkUse (clock env i) tmo cid) 0 tps s x)
  | Clear cid n tps =>
      if bad_call s cid n then h x
      else if decide (_TP_CLEAR_ALL ∈ tps) then
        if refused env (set_indx empty_index s) PRESELECT_ID n (preselected s) then []
        else granted (λ i, mkUse (clock env i) 0 PRESELECT_ID) 0 (preselected s) s x
      else released cid tps x (h x)
  | KeepAlive _ => h x
  | Collect time epoch => if valid s then collected (collect_time time epoch) false (h x) else h x
  end.

Lemma drop_user_first cid us : drop_user cid us = without_first (held_by cid) us.
Proof.
  unfold without_first. induction us as [|u us IH]; [done|]. cbn [drop_user list_find]. destruct (held_by cid u) eqn:Hu; cbn [decide].
  - by rewrite decide_True.
  - rewrite decide_False by congruence. rewrite IH. by destruct (list_find _ us) as [[i v]|].
Qed.
Lemma dropped_released cid tps x us : dropped cid tps x us = released cid tps x us.
Proof.
  unfold released. revert us. induction tps as [|tp tps IH]; intros us; [done|]. cbn [dropped]. rewrite filter_cons, IH.
  destruct (Z.eqb_spec tp x) as [->|Hn]; [rewrite decide_True by done|by rewrite decide_False].
  cbn [length]. by rewrite Nat.iter_succ_r, drop_user_first.
Qed.
Lemma clean_users_collected t us : clean_users t us = collected t false us.
Proof.
  pattern us. apply (clean_users_ind _ t); [done| | |].
  - intros u us' Ho IH. cbn [clean_users collected]. rewrite Ho. cbn. by rewrite IH.
  - intros u Ho. cbn [clean_users collected]. by rewrite Ho.
  - intros u v us' Ho IH. cbn [clean_users collected]. rewrite Ho. cbn [negb andb]. by rewrite andb_false_r, IH.
Qed.

Lemma keepalive_same now s cid :
  wf s → let s' := (keepalive_1_svc now s cid).1 in wf s' ∧ indx s' = indx s.
Proof.
  intros (H1 & H2 & H3). unfold keepalive_1_svc. destruct (cid <? -1); [done|].
  destruct (cid <? 0); [destruct (free_client _ 0)|destruct (tpclnts s !! _) as [c|]; [destruct (cvalid c =? 0)|]];
    cbn; split_and!; try done; (split; [done|split; [done|]]); cbn; by rewrite ?length_insert.
Qed.
Lemma holders_indx s s' x : indx s' = indx s → holders s' x = holders s x.
Proof. intros E. unfold holders, table. by rewrite E. Qed.

Lemma collect_spec time epoch s :
  wf s → let s' := cleanupTestpoints time epoch s in
  wf s' ∧ left_or_kept s s' ∧
  ∀ x, x ≠ 0 → holders s' x = if valid s then clean_users (collect_time time epoch) (holders s x) else holders s x.
Proof.
  intros Hwf. unfold cleanupTestpoints. fold (collect_time time epoch). set (t := collect_time time epoch).
  destruct (valid s) eqn:Hv; cbn zeta.
  - assert (Hi : ∀ i, (i < TP_MAX_INTERFACE)%nat →
      ((λ l : list tpEntry_t, clean_entry t <$> l) <$> indx s) !!! i = clean_entry t <$> (indx s !!! i)).
    { intros i Hi. apply list_lookup_total_fmap. destruct Hwf as [Hl _]. by rewrite Hl. }
    assert (Hw' : wf (set_clients (clean_client t <$> tpclnts s) (tpclntID s)
                 (set_indx ((λ l : list tpEntry_t, clean_entry t <$> l) <$> indx s) s))).
    { destruct Hwf as (Hl & Hw & Hc). split; [cbn [set_clients set_indx indx]; by rewrite length_fmap|]. split.
      - intros i Hi'. cbn [set_clients set_indx indx]. rewrite Hi by done. by apply clean_table_ok, Hw.
      - cbn [set_clients tpclnts]. by rewrite length_fmap. }
    split_and!; [done| |].
    + intros i j Hi' Hj. unfold number. cbn [set_clients set_indx indx]. rewrite Hi by done.
      destruct (wf_table s i Hwf Hi') as (Hl & _). rewrite (list_lookup_total_fmap (clean_entry t)) by lia.
      apply (clean_entry_ok t i). apply (entry_at_ok s); [done|done|]. apply list_elem_of_lookup_total_2. lia.
    + intros x Hx. destruct (in_range (tp_interface x)) eqn:Hr; [|by rewrite !holders_nowhere].
      apply in_range_spec in Hr. assert (Hix : (iface_of x < TP_MAX_INTERFACE)%nat) by (unfold iface_of, TP_MAX_INTERFACE; lia).
      unfold holders. rewrite !table_full by done. cbn [set_clients set_indx indx]. rewrite Hi by done.
      apply (named_clean t (iface_of x)); [|done]. by apply wf_table.
  - split_and!; [|by left|by intros].
    destruct Hwf as (Hl & Hw & Hc). split; [done|]. split; [done|]. cbn [set_clients tpclnts]. by rewrite length_fmap.
Qed.

(** [cleartp_1_svc] that returns. *)
Lemma cleartp_spec env s cid n tps s' r' :
  wf s → cleartp_1_svc env false s cid n tps = Some (s', r') →
  wf s' ∧ (_TP_CLEAR_ALL ∉ tps → left_or_kept s s') ∧
  (memory env = true → ∀ x, x ≠ 0 → holders s' x = registry_after env (Clear cid n tps) s (holders s) x) ∧
  (_TP_CLEAR_ALL ∈ tps → s' = s ∨ setPreselect env n (set_indx empty_index s) = Some s').
Proof.
  intros Hwf. unfold cleartp_1_svc. cbn [registry_after MUTEX_GET]. destruct (bad_call s cid n) eqn:Hb.
  - intros [= <- _]. split_and!; [done|intros _; apply left_or_kept_refl|done|by left].
  - cbn [mbind option_bind]. destruct (decide (_TP_CLEAR_ALL ∈ tps)) as [Hin|Hin].
    + destruct (clear_loop_all cid tps s Hwf Hin) as (s1 & Hf1 & Hw1 & ->).
      assert (E1 : set_indx empty_index s1 = set_indx empty_index s) by (rewrite Hf1; done). rewrite E1. cbn iota.
      pose proof (empty_index_ok s Hwf) as Hw0.
      destruct (setPreselect env n (set_indx empty_index s)) as [s2|] eqn:Hp; [|done]. cbn. intros [= <- _].
      destruct (setPreselect_spec env n _ _ Hw0 Hp) as (Hw2 & _ & _ & Hh).
      split_and!; [done|by intros|intros Hm x Hx|by right].
      rewrite Hh, empty_index_holders by done. done.
    + destruct (clear_loop_spec cid tps s Hwf Hin) as (E & Hw & Hk & _ & Hh).
      destruct (clear_loop cid tps s) as [s1 all]. cbn [fst snd] in *. subst all. cbn iota. cbn. intros [= <- _].
      split_and!; [done|done|intros _ x Hx; by rewrite Hh, dropped_released|by intros].
Qed.

(** C10: the server is a registry.  A request adds a use for each time a test
    point of the node is in its list, unless the call is refused; a release takes
    the client's first use without time limit; "clear all" leaves the preselected
    test points; the collection drops what is over, except for what stands behind
    it in the list; keeping alive changes nothing. *)
Theorem registry_refinement env c s s' :
  memory env = true → wf s → serve env c s = Some s' →
  wf s' ∧ ∀ x, x ≠ 0 → holders s' x = registry_after env c s (holders s) x.
Proof.
  intros Hm Hwf. destruct c as [cid n tps tmo|cid n tps|cid|time epoch]; cbn [serve].
  - intros ([s1 r1] & Hr & ->)%fmap_Some. destruct (requesttp_spec _ _ _ _ _ _ _ _ _ Hwf Hr) as (Hw & _ & _ & Hh).
    split; [done|]. by apply Hh.
  - intros ([s1 r1] & Hr & ->)%fmap_Some. destruct (cleartp_spec _ _ _ _ _ _ _ Hwf Hr) as (Hw & _ & Hh & _).
    split; [done|]. by apply Hh.
  - intros [= <-]. destruct (keepalive_same (after env) s cid Hwf) as [Hw E]. split; [done|]. intros x _.
    by apply holders_indx.
  - intros [= <-]. destruct (collect_spec time epoch s Hwf) as (Hw & _ & Hh). split; [done|]. intros x Hx.
    rewrite Hh by done. cbn [registry_after]. by rewrite clean_users_collected.
Qed.

(** ** Slots *)
Lemma holders_in_slot s x :
  wf s → x ≠ 0 → holders s x ≠ [] →
  ∃ j, (j < TP_MAX_INDEX)%nat ∧ (iface_of x < TP_MAX_INTERFACE)%nat ∧ number s (iface_of x) j = x.
Proof.
  intros Hwf Hx Hh. destruct (in_range (tp_interface x)) eqn:Hr; [|by rewrite holders_nowhere in Hh].
  apply in_range_spec in Hr. assert (Hi : (iface_of x < TP_MAX_INTERFACE)%nat) by (unfold iface_of, TP_MAX_INTERFACE; lia).
  destruct (find_id x (indx s !!! iface_of x) 0) as [j|] eqn:Hf.
  - apply find_id_Some in Hf as (Hj & E & _). destruct (wf_table s _ Hwf Hi) as (Hl & _). exists j. rewrite Hl in Hj. done.
  - exfalso. apply Hh, holders_unnamed; [done|done|]. exact (find_id_None _ _ _ Hf).
Qed.
Lemma number_iface s i j x :
  wf s → (i < TP_MAX_INTERFACE)%nat → (j < TP_MAX_INDEX)%nat → number s i j = x → x ≠ 0 → iface_of x = i.
Proof.
  intros Hwf Hi Hj E Hx. destruct (wf_table s i Hwf Hi) as (Hl & _).
  destruct (entry_at_ok s i ((indx s !!! i) !!! j) Hwf Hi) as (_ & _ & Hn); [apply list_elem_of_lookup_total_2; lia|].
  unfold number in E. rewrite E in Hn. destruct (Hn Hx) as [_ Ht]. unfold iface_of. by rewrite Ht, Nat2Z.id.
Qed.
Lemma number_inj s i j j' :
  wf s → (i < TP_MAX_INTERFACE)%nat → (j < TP_MAX_INDEX)%nat → (j' < TP_MAX_INDEX)%nat →
  number s i j ≠ 0 → number s i j = number s i j' → j = j'.
Proof. intros Hwf Hi Hj Hj' Hn E. destruct (wf_table s i Hwf Hi) as (Hl & _ & Hd). apply Hd; [lia|lia|done|done]. Qed.

Definition clears_all (c : Call) : Prop := match c with Clear _ _ tps => _TP_CLEAR_ALL ∈ tps | _ => False end.
Lemma serve_moves env c s s' :
  wf s → serve env c s = Some s' → ¬ clears_all c → wf s' ∧ (kept s s' ∨ left_or_kept s s').
Proof.
  intros Hwf. destruct c as [cid n tps tmo|cid n tps|cid|time epoch]; cbn [serve clears_all].
  - intros ([s1 r1] & Hr & ->)%fmap_Some _. destruct (requesttp_spec _ _ _ _ _ _ _ _ _ Hwf Hr) as (Hw & Hk & _). eauto.
  - intros ([s1 r1] & Hr & ->)%fmap_Some Hn. destruct (cleartp_spec _ _ _ _ _ _ _ Hwf Hr) as (Hw & Hk & _). eauto.
  - intros [= <-] _. destruct (keepalive_same (after env) s cid Hwf) as [Hw E]. split; [done|]. right.
    intros i j _ _. left. unfold number. by rewrite E.
  - intros [= <-] _. destruct (collect_spec time epoch s Hwf) as (Hw & Hk & _). eauto.
Qed.

(** ** What was admitted fits *)
Definition room_before l (x : Z) : Prop :=
  ∃ k, (k < length l)%nat ∧ id (l !!! k) = 0 ∧ ∀ k', (k' < k)%nat → id (l !!! k') ≠ x.
Lemma scan_room l j x k :
  x ≠ 0 → (scan l j x k).1 ≠ None ↔ k ≠ None ∨ room_before l x.
Proof.
  intros Hx. revert j k. induction l as [|e l IH]; intros j k; cbn [scan].
  - cbn [fst]. split; [by left|]. intros [|(i & Hi & _)]; [done|cbn in Hi; lia].
  - destruct (Z.eqb_spec (id e) x) as [E|E].
    + cbn [fst]. split; [by left|]. intros [|(i & Hi & E0 & Hb)]; [done|]. exfalso. destruct i as [|i].
      * cbn in E0. congruence.
      * by apply (Hb 0%nat); [lia|].
    + rewrite IH. destruct k as [k|]; [split; by left|]. destruct (Z.eqb_spec (id e) 0) as [E0|E0].
      * split; [|by left]. intros _. right. exists 0%nat. cbn [length]. split_and!; [lia|done|lia].
      * split; (intros [|(i & Hi & Ei & Hb)]; [done|right]).
        -- exists (S i). cbn [length]. split_and!; [lia|done|]. intros [|k'] Hk'; [done|]. apply Hb. lia.
        -- destruct i as [|i]; [done|]. exists i. cbn [length] in Hi. split_and!; [lia|done|].
           intros k' Hk'. apply (Hb (S k')). lia.
Qed.
(** The empty slots get fewer. *)
Definition filled l l' : Prop :=
  length l' = length l ∧
  ∀ k, (k < length l)%nat → id (l' !!! k) = id (l !!! k) ∨ (id (l !!! k) = 0 ∧ id (l' !!! k) ≠ 0).
Lemma filled_room l l' x : filled l l' → x ≠ 0 → room_before l' x → room_before l x.
Proof.
  intros [Hl Hf] Hx (k & Hk & E & Hb). rewrite Hl in Hk. exists k. split_and!; [done| |].
  - destruct (Hf k Hk) as [<-|[_ Hn]]; [done|congruence].
  - intros k' Hk' E'. destruct (Hf k' ltac:(lia)) as [Ei|[Ei _]]; [|congruence]. apply (Hb k' Hk'). congruence.
Qed.
Lemma search_room s i x : x ≠ 0 → (search s i x).1 ≠ None ↔ room_before (table s i) x.
Proof. intros Hx. unfold search. rewrite scan_room by done. tauto. Qed.

Definition counted s (x : Z) : Z :=
  match eligible s x with
  | Some (i, _) => match (search s i x).1 with Some _ => 1 | None => 0 end
  | None => 0
  end.
Lemma count_new_cons s x tps : count_new s (x :: tps) = counted s x + count_new s tps.
Proof. unfold counted. cbn [count_new]. destruct (eligible s x) as [[i n]|]; done. Qed.
Lemma counted_bounds s x : 0 <= counted s x <= 1.
Proof. unfold counted. destruct (eligible s x) as [[i n]|]; [destruct (search s i x).1|]; lia. Qed.
Lemma count_new_bounds s tps : 0 <= count_new s tps <= Z.of_nat (length tps).
Proof.
  induction tps as [|x tps IH]; [done|]. rewrite count_new_cons. pose proof (counted_bounds s x). cbn [length]. lia.
Qed.
Lemma counted_le s s' x :
  framed s s' → (∀ i, (i < TP_MAX_INTERFACE)%nat → filled (table s i) (table s' i)) → counted s' x <= counted s x.
Proof.
  intros Hf Hfill. unfold counted. rewrite (framed_eligible s s') by done.
  destruct (eligible s x) as [[i n]|] eqn:He; [|done]. destruct (eligible_spec _ _ _ _ He) as (Hx & _ & _ & Hi).
  destruct (search s' i x).1 eqn:E'; [|destruct (search s i x).1; lia].
  destruct (search s i x).1 eqn:E; [done|]. exfalso.
  assert (Hr : room_before (table s' i) x) by (apply search_room; [lia|congruence]).
  apply (filled_room _ _ _ (Hfill i Hi)) in Hr; [|lia]. apply search_room in Hr; [|lia]. congruence.
Qed.
Lemma count_new_le s s' tps :
  framed s s' → (∀ i, (i < TP_MAX_INTERFACE)%nat → filled (table s i) (table s' i)) → count_new s' tps <= count_new s tps.
Proof.
  intros Hf Hfill. induction tps as [|x tps IH]; [done|]. rewrite !count_new_cons.
  pose proof (counted_le s s' x Hf Hfill). lia.
Qed.

Lemma active_app l l' : active (l ++ l') = active l ++ active l'.
Proof. apply filter_app. Qed.
Lemma active_insert l j e' :
  (j < length l)%nat →
  (length (active (<[j := e']> l)) + (if decide (id (l !!! j) ≠ 0%Z) then 1 else 0) =
   length (active l) + (if decide (id e' ≠ 0%Z) then 1 else 0))%nat.
Proof.
  intros Hj. rewrite insert_split by done.
  assert (E : active l = active (take j l ++ l !!! j :: drop (S j) l)) by (by rewrite <- split_at). rewrite E.
  rewrite !active_app, !length_app. unfold active. rewrite !filter_cons.
  destruct (decide (id (l !!! j) ≠ 0)), (decide (id e' ≠ 0)); cbn [length]; lia.
Qed.
Lemma active_prefix l n : (n <= length l)%nat → (∀ k, (k < n)%nat → id (l !!! k) ≠ 0) → (n <= length (active l))%nat.
Proof.
  revert l. induction n as [|n IH]; intros l Hn Hk; [lia|]. destruct l as [|e l]; [cbn in Hn; lia|].
  unfold active. rewrite filter_cons, decide_True by (apply (Hk 0%nat); lia). cbn [length].
  specialize (IH l ltac:(cbn in Hn; lia) (λ k Hk', Hk (S k) ltac:(lia))). unfold active in IH. lia.
Qed.
Lemma count_active_alt s :
  count_active s = Z.of_nat (length (active (table s 0))) + Z.of_nat (length (active (table s 1))) +
                   Z.of_nat (length (active (table s 2))) + Z.of_nat (length (active (table s 3))).
Proof. unfold count_active. cbn [seq TP_MAX_INTERFACE foldr]. lia. Qed.
Lemma count_active_ge s i : (i < TP_MAX_INTERFACE)%nat → Z.of_nat (length (active (table s i))) <= count_active s.
Proof. intros Hi. rewrite count_active_alt. unfold TP_MAX_INTERFACE in Hi. destruct i as [|[|[|[|i]]]]; lia. Qed.
Lemma count_active_bounds s : wf s → 0 <= count_active s <= 256.
Proof.
  intros Hwf. rewrite count_active_alt.
  assert (Hl : ∀ i, (i < TP_MAX_INTERFACE)%nat → Z.of_nat (length (active (table s i))) <= 64).
  { intros i Hi. rewrite table_full by done. destruct (wf_table s i Hwf Hi) as (Hl & _). unfold active.
    pose proof (length_filter (λ e, id e ≠ 0) (indx s !!! i)). unfold TP_MAX_INDEX in Hl. lia. }
  pose proof (Hl 0%nat ltac:(unfold TP_MAX_INTERFACE; lia)). pose proof (Hl 1%nat ltac:(unfold TP_MAX_INTERFACE; lia)).
  pose proof (Hl 2%nat ltac:(unfold TP_MAX_INTERFACE; lia)). pose proof (Hl 3%nat ltac:(unfold TP_MAX_INTERFACE; lia)). lia.
Qed.
(** The sum when one table changes. *)
Lemma count_active_one s s' i d :
  (i < TP_MAX_INTERFACE)%nat → (∀ i', i' ≠ i → table s' i' = table s i') →
  Z.of_nat (length (active (table s' i))) = Z.of_nat (length (active (table s i))) + d →
  count_active s' = count_active s + d.
Proof.
  intros Hi Ho Hd. rewrite !count_active_alt. unfold TP_MAX_INTERFACE in Hi.
  destruct i as [|[|[|[|i]]]]; [..|lia]; repeat rewrite (Ho 0%nat) by lia; repeat rewrite (Ho 1%nat) by lia;
    repeat rewrite (Ho 2%nat) by lia; repeat rewrite (Ho 3%nat) by lia; lia.
Qed.

(** An entry gets or keeps a number. *)
Lemma put_count s i j e' tps :
  wf s → (i < TP_MAX_INTERFACE)%nat → (j < TP_MAX_INDEX)%nat →
  id e' = number s i j ∨ (number s i j = 0 ∧ id e' ≠ 0) →
  let s' := set_entry i j e' s in
  count_new s' tps <= count_new s tps ∧ length (table s i) = TP_MAX_INDEX ∧ table s' i = <[j := e']> (table s i) ∧
  count_active s' = count_active s + (if decide (id e' = number s i j) then 0 else 1).
Proof.
  intros Hwf Hi Hj Hid s1. destruct (wf_table s i Hwf Hi) as (Hl & _). rewrite <- table_full in Hl by done.
  assert (Hn : number s i j = id (table s i !!! j)) by (by rewrite table_full). rewrite Hn in Hid |- *.
  assert (Hother : ∀ i', i' ≠ i → table s1 i' = table s i') by (intros i' Hi'; unfold s1; by rewrite table_set_entry, decide_False).
  assert (Hthis : table s1 i = <[j := e']> (table s i)) by (unfold s1; by rewrite table_set_entry, decide_True).
  split_and!; [|done|done|].
  - apply count_new_le; [done|]. intros i' Hi'. destruct (decide (i' = i)) as [->|Hne];
      [|rewrite Hother by done; split; [done|by left]].
    rewrite Hthis. split; [by rewrite length_insert|]. intros k Hk. rewrite lookup_total_insert by lia.
    destruct (decide (k = j)) as [->|]; [exact Hid|by left].
  - apply (count_active_one s s1 i); [done|done|]. rewrite Hthis.
    pose proof (active_insert (table s i) j e' ltac:(lia)) as Ha.
    destruct (decide (id e' = id (table s i !!! j))), (decide (id (table s i !!! j) ≠ 0)), (decide (id e' ≠ 0));
      (lia || congruence || tauto).
Qed.

(** One request: the projection covers it, and the slot it takes is low. *)
Lemma request_one_count u s tp s' tps :
  wf s → request_one u s tp = Some s' →
  count_active s' + count_new s' tps <= count_active s + count_new s (tp :: tps) ∧
  ∀ i j, (i < TP_MAX_INTERFACE)%nat → (j < TP_MAX_INDEX)%nat → number s' i j ≠ 0 →
    number s i j ≠ 0 ∨ Z.of_nat j + 1 <= count_active s'.
Proof.
  intros Hwf Hr. pose proof (request_one_view u s tp Hwf) as Ho. rewrite Hr in Ho.
  rewrite count_new_cons. pose proof (counted_bounds s tp) as Hcb.
  inversion Ho as [He|i n j He Hj En Hu|i n j He Ha Hj En Hb| |]; subst; [split; [lia|by left]| |];
    destruct (eligible_spec _ _ _ _ He) as (Htp & _ & _ & Hi).
  - destruct (put_count s i j (add_user u ((indx s !!! i) !!! j)) tps Hwf Hi Hj ltac:(by left)) as (H1 & _ & _ & H2).
    rewrite decide_True in H2 by done. split; [lia|]. intros i' j' Hi' Hj'. rewrite number_set_entry by done. left.
    destruct (decide _) as [[-> ->]|]; done.
  - destruct (put_count s i j (mkEntry tp [u] (trunc_name n)) tps Hwf Hi Hj ltac:(cbn [id]; right; split; [done|lia])) as (H1 & Hl & Ht & H2).
    rewrite decide_False in H2 by (cbn [id]; lia).
    assert (Hc : counted s tp = 1).
    { unfold counted. rewrite He. destruct (search s i tp).1 eqn:E; [done|]. exfalso.
      assert (Hroom : room_before (table s i) tp); [|apply search_room in Hroom; [done|lia]].
      rewrite table_full in * by done. exists j. split_and!; [lia|done|]. intros k Hk.
      apply Ha, list_elem_of_lookup_total_2. lia. }
    split; [lia|]. intros i' j' Hi' Hj' Hn'. rewrite number_set_entry in Hn' by done.
    destruct (decide (i' = i ∧ j' = j)) as [[-> ->]|]; [right|by left].
    etrans; [|apply (count_active_ge _ i Hi)]. cut (S j <= length (active (table (set_entry i j (mkEntry tp [u] (trunc_name n)) s) i)))%nat; [lia|].
    rewrite Ht. apply active_prefix; [rewrite length_insert; unfold TP_MAX_INDEX in *; lia|].
    intros k Hk. rewrite lookup_total_insert by lia. destruct (decide (k = j)) as [->|]; [cbn [id]; lia|].
    rewrite table_full by done. apply Hb. lia.
Qed.
Lemma request_loop_count use tps s :
  ∀ i, wf s →
  let s' := (request_loop use i tps s).1 in
  ∀ i j, (i < TP_MAX_INTERFACE)%nat → (j < TP_MAX_INDEX)%nat → number s' i j ≠ 0 →
    number s i j ≠ 0 ∨ Z.of_nat j + 1 <= count_active s + count_new s tps.
Proof.
  revert s. induction tps as [|tp tps IH]; intros s i Hwf s' i' j Hi Hj Hn; unfold s' in Hn; cbn [request_loop] in Hn; [by left|].
  destruct (request_one (use i) s tp) as [s1|] eqn:E; [|by left].
  destruct (request_one_spec _ _ _ _ Hwf E) as (Hw1 & _).
  destruct (request_one_count _ _ _ _ tps Hwf E) as [Hle Hnew].
  destruct (IH s1 (S i) Hw1 i' j Hi Hj Hn) as [Hn1|Hc]; [|right; lia].
  destruct (Hnew i' j Hi Hj Hn1) as [Hn0|Hc]; [by left|right]. pose proof (count_new_bounds s1 tps). lia.
Qed.

(** Histories of a node whose model runs at [m] times the base rate. *)
Definition admissible (m : Z) env (c : Call) : Prop :=
  sys_freq_mult env = m ∧ 0 < curDaqBlockSize env <= DAQ_DCU_SIZE ∧
  match c with Request _ _ tps _ => (length tps <= 1000)%nat | _ => True end.
Inductive history (m : Z) : Server → Prop :=
  | started n presel channels : (length presel <= 1000)%nat → history m (found_node n presel channels initTestpointServer)
  | served env c s s' : history m s → admissible m env c → serve env c s = Some s' → history m s'.

Definition fits (m : Z) s : Prop :=
  ∀ i j, (i < TP_MAX_INTERFACE)%nat → (j < TP_MAX_INDEX)%nat → number s i j ≠ 0 → (Z.of_nat j + 1) * m <= 63.
Lemma left_or_kept_fits m s s' : fits m s → left_or_kept s s' → fits m s'.
Proof.
  intros Hf Hk i j Hi Hj Hn. apply (Hf i j Hi Hj). destruct (Hk i j Hi Hj) as [<-|]; congruence.
Qed.
Lemma projection_fits m env s tps k :
  wf s → 0 < m <= 32 → sys_freq_mult env = m → 0 < curDaqBlockSize env <= DAQ_DCU_SIZE → (length tps <= 1000)%nat →
  projDaqSize env s tps <= DAQ_DCU_SIZE → k <= count_active s + count_new s tps → k * m <= 63.
Proof.
  intros Hwf Hm Em Hcur Hl Hp Hk. unfold projDaqSize in Hp. rewrite Em in Hp.
  pose proof (count_active_bounds s Hwf). pose proof (count_new_bounds s tps). unfold DAQ_DCU_SIZE in *.
  set (n := count_new s tps + count_active s) in *. assert (Hn : 0 <= n <= 1256) by lia.
  assert (n * m <= 1256 * 32) by nia. rewrite wrap_small in Hp by nia. nia.
Qed.
Lemma requesttp_fits m env s cid n tps tmo r s' r' :
  wf s → fits m s → 0 < m <= 32 → sys_freq_mult env = m → 0 < curDaqBlockSize env <= DAQ_DCU_SIZE →
  (length tps <= 1000)%nat → requesttp_1_svc env s cid n tps tmo r = Some (s', r') → fits m s'.
Proof.
  intros Hwf Hf Hm Em Hcur Hl. unfold requesttp_1_svc. destruct (bad_call s cid n); [by intros [= <- _]|].
  cbn [mbind option_bind MUTEX_GET]. destruct (Z.ltb_spec DAQ_DCU_SIZE (projDaqSize env s tps)) as [|Hp]; [by intros [= <- _]|].
  pose proof (request_loop_count (λ i, mkUse (clock env i) tmo cid) tps s 0 Hwf) as Hc.
  destruct (request_loop _ 0 tps s) as [s1 full]. cbn [fst] in Hc. intros E.
  assert (s1 = s') as -> by (destruct full as [i|]; cbn in E; [destruct (_ && _)|]; by simplify_eq/=).
  intros i j Hi Hj Hn. destruct (Hc i j Hi Hj Hn) as [Hn0|Hle]; [by apply (Hf i)|].
  by apply (projection_fits m env s tps).
Qed.
Lemma found_node_ok n presel channels : wf (found_node n presel channels initTestpointServer).
Proof. split; [done|]. split; [exact empty_index_table_ok|]. cbn [found_node tpclnts]. apply length_replicate. Qed.

(** What holds of all states. *)
Definition sound (m : Z) s : Prop := wf s ∧ fits m s ∧ (length (preselect s) <= 1000)%nat.
Lemma serve_preselect env c s s' : wf s → serve env c s = Some s' → preselect s' = preselect s.
Proof.
  intros Hwf. destruct c as [cid n tps tmo|cid n tps|cid|time epoch]; cbn [serve].
  - intros ([s1 r1] & Hr & ->)%fmap_Some. destruct (requesttp_spec _ _ _ _ _ _ _ _ _ Hwf Hr) as (_ & _ & Hf & _).
    cbn [fst]. by rewrite Hf.
  - intros ([s1 r1] & Hr & ->)%fmap_Some. cbn [fst]. unfold cleartp_1_svc in Hr. destruct (bad_call s cid n); [by simplify_eq|].
    cbn [mbind option_bind MUTEX_GET] in Hr. destruct (decide (_TP_CLEAR_ALL ∈ tps)) as [Hin|Hin].
    + destruct (clear_loop_all cid tps s Hwf Hin) as (s2 & Hf & Hw & E). rewrite E in Hr.
      destruct (setPreselect env n (set_indx empty_index s2)) as [s3|] eqn:Hp; cbn in Hr; [|done].
      destruct (setPreselect_spec _ _ _ _ (empty_index_ok _ Hw) Hp) as (_ & _ & Hf3 & _). simplify_eq. rewrite Hf3. cbn [set_indx preselect].
      by rewrite Hf.
    + destruct (clear_loop_spec cid tps s Hwf Hin) as (E & _ & _ & Hf & _).
      destruct (clear_loop cid tps s) as [s2 all]. cbn [fst snd] in *. subst all. cbn in Hr. simplify_eq. by rewrite Hf.
  - intros [= <-]. unfold keepalive_1_svc. repeat case_match; done.
  - intros [= <-]. unfold cleanupTestpoints. by destruct (valid s).
Qed.
Lemma serve_sound m env c s s' :
  0 < m <= 32 → admissible m env c → sound m s → serve env c s = Some s' → sound m s'.
Proof.
  intros Hm (Em & Hcur & Hc) (Hwf & Hf & Hp) Hs.
  assert (Hp' : (length (preselect s') <= 1000)%nat) by (by rewrite (serve_preselect _ _ _ _ Hwf Hs)).
  destruct c as [cid n tps tmo|cid n tps|cid|time epoch].
  - cbn [serve] in Hs. apply fmap_Some in Hs as ([s1 r1] & Hr & ->). split_and!; [| |done].
    + by eapply requesttp_spec.
    + eapply (requesttp_fits m env s); [done|done|done|done|done|exact Hc|exact Hr].
  - cbn [serve] in Hs. apply fmap_Some in Hs as ([s1 r1] & Hr & ->). cbn [fst] in *.
    destruct (cleartp_spec _ _ _ _ _ _ _ Hwf Hr) as (Hw & Hk & _ & Hall). split_and!; [done| |done].
    destruct (decide (_TP_CLEAR_ALL ∈ tps)) as [Hin|Hin]; [|by eapply left_or_kept_fits, Hk].
    destruct (Hall Hin) as [->|Hpre]; [done|].
    assert (Hf0 : fits m (set_indx empty_index s)).
    { intros i j Hi Hj Hn. exfalso. apply Hn. unfold number. cbn [set_indx indx]. unfold empty_index.
      by rewrite !lookup_total_replicate_2. }
    unfold setPreselect in Hpre. destruct (decide _) as [|Hne]; [by simplify_eq|].
    apply fmap_Some in Hpre as ([s2 r2] & Hr2 & ->).
    eapply (requesttp_fits m); [by apply (empty_index_ok s)|exact Hf0|done|exact Em|done| |exact Hr2].
    unfold preselected. cbn [set_indx preselect]. pose proof (length_filter (λ p, 0 < p) (preselect s)). lia.
  - destruct (serve_moves _ _ _ _ Hwf Hs (λ h, h)) as [Hw _]. cbn in Hs. simplify_eq.
    split_and!; [done| |done]. intros i j Hi Hj. unfold number. rewrite (proj2 (keepalive_same (after env) s cid Hwf)). by apply Hf.
  - cbn in Hs. simplify_eq. destruct (collect_spec time epoch s Hwf) as (Hw & Hk & _). split_and!; [done|by eapply left_or_kept_fits|done].
Qed.
Lemma history_sound m s : 0 < m <= 32 → history m s → sound m s.
Proof.
  intros Hm Hh. induction Hh as [n presel channels Hp|env c s s' _ IH Ha Hs]; [|by eapply serve_sound].
  split_and!; [apply found_node_ok| |].
  - intros i j Hi Hj Hn. exfalso. apply Hn. unfold number. cbn [found_node indx]. unfold empty_index. by rewrite !lookup_total_replicate_2.
  - cbn [found_node preselect]. by rewrite length_fmap.
Qed.

(** ** A number in use stays in its slot *)
(** [log] is served from [s] to [s'], and [x] has a user after each of its calls. *)
Fixpoint in_use_through (x : Z) s (log : list (Env * Call)) s' : Prop :=
  match log with
  | [] => s' = s
  | (env, c) :: log => ∃ s1, serve env c s = Some s1 ∧ holders s1 x ≠ [] ∧ in_use_through x s1 log s'
  end.
(** A "clear all" among the calls leaves [x] out: [x] is not one of the preselected
    test points, which such a call puts into the emptied index once more. *)
Definition not_put_again s (x : Z) (log : list (Env * Call)) : Prop :=
  Forall (λ '(env, c), clears_all c → memory env = true ∧ x ∉ preselected s) log.

(** A call after which [x] has a user, and which is no "clear all" if [x] is preselected. *)
Lemma slot_step env c s s' x i j :
  wf s → serve env c s = Some s' → (clears_all c → memory env = true ∧ x ∉ preselected s) →
  (i < TP_MAX_INTERFACE)%nat → (j < TP_MAX_INDEX)%nat → number s i j = x → x ≠ 0 → holders s' x ≠ [] →
  wf s' ∧ number s' i j = x.
Proof.
  intros Hwf Hs Hc Hi Hj E Hx Hh.
  assert (Hm : wf s' ∧ (kept s s' ∨ left_or_kept s s')).
  { destruct c as [cid n tps tmo|cid n tps|cid|time epoch]; try (by eapply serve_moves; [done|exact Hs|intros h; exact h]).
    destruct (decide (_TP_CLEAR_ALL ∈ tps)) as [Hin|Hin]; [|by eapply serve_moves; [done|exact Hs|done]].
    destruct (Hc Hin) as [Hmem Hpre]. cbn [serve] in Hs. apply fmap_Some in Hs as ([s1 r1] & Hr & ->).
    destruct (cleartp_spec _ _ _ _ _ _ _ Hwf Hr) as (Hw & _ & _ & Hall). split; [done|].
    destruct (Hall Hin) as [->|Hp]; [left; by intros i' j' _ _ _|]. exfalso. apply Hh. cbn [fst].
    destruct (setPreselect_spec _ _ _ _ (empty_index_ok s Hwf) Hp) as (_ & _ & _ & Hnew).
    rewrite (Hnew Hmem x Hx), empty_index_holders by done. cbn [app]. destruct (refused _ _ _ _ _); [done|].
    by apply granted_absent. }
  destruct Hm as [Hw' [Hk|Hk]]; (split; [done|]).
  - rewrite (Hk i j Hi Hj); [done|congruence].
  - destruct (Hk i j Hi Hj) as [E'|E']; [congruence|]. exfalso.
    destruct (holders_in_slot s' x Hw' Hx Hh) as (j' & Hj' & Hi' & En).
    rewrite (number_iface s i j x) in * by done.
    destruct (Hk i j' Hi Hj') as [E2|E2]; [|congruence].
    assert (j = j') by (apply (number_inj s i); [done..|congruence|congruence]). congruence.
Qed.
Lemma serve_preselected env c s s' : wf s → serve env c s = Some s' → preselected s' = preselected s.
Proof. intros Hwf Hs. unfold preselected. by rewrite (serve_preselect _ _ _ _ Hwf Hs). Qed.

(** C17: over any sequence of calls and collections, a test point which has a user
    after each of them stays in the slot it has: the front end and the waveform
    generators go on reading and writing the same channel.  "Clear all" may be among
    the calls, unless the test point is one of the preselected: those such a call
    enters anew, and [clear_all_moves] is a history in which one changes its slot. *)
Theorem slot_stays log s s' x i j :
  wf s → (i < TP_MAX_INTERFACE)%nat → (j < TP_MAX_INDEX)%nat → number s i j = x → x ≠ 0 →
  in_use_through x s log s' → not_put_again s x log → number s' i j = x.
Proof.
  intros Hwf Hi Hj E Hx Hu Hn. revert s Hwf E Hu Hn. induction log as [|[env c] log IH]; intros s Hwf E Hu Hn.
  - cbn in Hu. by subst s'.
  - destruct Hu as (s1 & Hs & Hh & Hu). apply Forall_cons in Hn as [Hc Hn].
    destruct (slot_step env c s s1 x i j Hwf Hs Hc Hi Hj E Hx Hh) as [Hw1 E1]. apply (IH s1 Hw1 E1 Hu).
    unfold not_put_again. by rewrite (serve_preselected _ _ _ _ Hwf Hs).
Qed.

(** C33: what the server admits fits.  Over all histories in which the front end
    writes something, a slot in use is low enough for its channel, of 1024 or 128
    samples times the rate of the model with a status word, to end inside the data
    block: the pages of the waveform generators do not run into the next block.
    (With nothing written, the 64th slot may be given out, and its channel ends
    256 bytes behind the block.) *)
Theorem slots_fit m s i j :
  0 < m <= 32 → history m s → (i < TP_MAX_INTERFACE)%nat → (j < TP_MAX_INDEX)%nat → number s i j ≠ 0 →
  (Z.of_nat j + 1) * (4 * (1024 * m + 1)) <= UNIT_ID_TO_DATA_BLOCKSIZE ∧
  (Z.of_nat j + 1) * (4 * (128 * m + 1)) <= UNIT_ID_TO_DATA_BLOCKSIZE.
Proof.
  intros Hm Hh Hi Hj Hn. destruct (history_sound m s Hm Hh) as (_ & Hf & _). pose proof (Hf i j Hi Hj Hn) as H1.
  assert (E : UNIT_ID_TO_DATA_BLOCKSIZE = 262144) by done. rewrite E. nia.
Qed.

(** ** No room *)
Lemma holders_at s i j x :
  wf s → (i < TP_MAX_INTERFACE)%nat → (j < TP_MAX_INDEX)%nat → number s i j = x → x ≠ 0 →
  holders s x = users ((indx s !!! i) !!! j) ∧ holders s x ≠ [].
Proof.
  intros Hwf Hi Hj E Hx. assert (Hh : holders s x = users ((indx s !!! i) !!! j)).
  { by apply (shrink_spec s i j []); [..|cbn; lia]. }
  split; [done|]. rewrite Hh. intros Eu. destruct (wf_table s i Hwf Hi) as (Hl & _).
  destruct (entry_at_ok s i ((indx s !!! i) !!! j) Hwf Hi) as (H0 & _); [apply list_elem_of_lookup_total_2; lia|].
  apply Hx. rewrite <- E. by apply H0.
Qed.
(** There is no room for [tp]: it has all the users it can have, or is not in
    use and its table is full. *)
Definition no_room s (tp : Z) : Prop :=
  is_Some (eligible s tp) ∧
  ((_TP_MAX_USER <= length (holders s tp))%nat ∨
   (holders s tp = [] ∧ ∀ j, (j < TP_MAX_INDEX)%nat → number s (iface_of tp) j ≠ 0)).
Lemma no_room_fails u s tp : wf s → no_room s tp → request_one u s tp = None.
Proof.
  intros Hwf [[[i0 n0] He0] Hr]. pose proof (request_one_view u s tp Hwf) as Ho.
  destruct (eligible_spec _ _ _ _ He0) as (Htp & _ & Hio & Hi).
  inversion Ho as [He E|i n j He Hj En Hu E|i n j He Ha Hj En Hb E|i n j He Hj En Hu E|i n He Ha Hf E]; [congruence| | |done|done];
    rewrite He in He0; injection He0 as -> ->; exfalso.
  - destruct (holders_at s i0 j tp Hwf Hi Hj En ltac:(lia)) as [Hh Hn].
    destruct Hr as [Hr|[Hr _]]; [|done]. rewrite Hh in Hr. unfold inUse in Hu. lia.
  - destruct Hr as [Hr|[_ Hr]].
    + rewrite (holders_unnamed s tp) in Hr by (done || by rewrite Hio). cbn in Hr. unfold _TP_MAX_USER in Hr. lia.
    + rewrite Hio in Hr. by apply (Hr j).
Qed.
Lemma no_room_stays u s tp tp' s' : wf s → no_room s tp → request_one u s tp' = Some s' → no_room s' tp.
Proof.
  intros Hwf Hr E. assert (Hne : tp' ≠ tp) by (intros ->; by rewrite no_room_fails in E).
  destruct (request_one_spec _ _ _ _ Hwf E) as (Hw & Hk & Hf & Hh). destruct Hr as [[[i n] He] Hr].
  destruct (eligible_spec _ _ _ _ He) as (Htp & _ & Hio & Hi).
  assert (Hs : holders s' tp = holders s tp).
  { rewrite Hh, decide_False by (lia || (intros [-> _]; done)). apply app_nil_r. }
  split; [rewrite (framed_eligible s s') by done; by rewrite He|]. rewrite Hs.
  destruct Hr as [Hr|[Hr Hn]]; [by left|right; split; [done|]]. intros j Hj. rewrite Hio in *.
  rewrite (Hk i j Hi Hj); by apply Hn.
Qed.
Lemma request_loop_full use tps s tp :
  ∀ i, wf s → tp ∈ tps → no_room s tp → (request_loop use i tps s).2 ≠ None.
Proof.
  revert s. induction tps as [|tp' tps IH]; intros s i Hwf Hin Hr; [by apply not_elem_of_nil in Hin|]. cbn [request_loop].
  destruct (request_one (use i) s tp') as [s1|] eqn:E; [|done].
  apply elem_of_cons in Hin as [->|Hin]; [by rewrite no_room_fails in E|].
  apply IH; [by apply (request_one_spec _ _ _ _ Hwf E)|done|by eapply no_room_stays].
Qed.

(** C21: a request for a test point there is no room for (a thousand users, or no
    free slot) never returns: to take back what it has set it calls the release,
    which waits for the mutex the request itself holds; from then on every
    call that takes the mutex waits. *)
Theorem no_room_no_return env s cid n tps tmo r tp :
  wf s → memory env = true → refused env s cid n tps = false → tp ∈ tps → no_room s tp →
  requesttp_1_svc env s cid n tps tmo r = None.
Proof.
  intros Hwf Hm Hr Hin Hn. apply orb_false_elim in Hr as [Hb Hp]. unfold requesttp_1_svc. rewrite Hb. cbn [mbind option_bind MUTEX_GET].
  rewrite Hp. pose proof (request_loop_full (λ i, mkUse (clock env i) tmo cid) tps s tp 0 Hwf Hin Hn) as Hf.
  destruct (request_loop _ 0 tps s) as [s1 [k|]]; cbn [snd] in Hf; [|done].
  rewrite (proj2 (Z.ltb_lt _ 0)) by lia. by rewrite Hm.
Qed.

(** ** Collection *)
Fixpoint last_over (t : Z) us : nat :=
  match us with
  | [] => O
  | u :: us => if over t u then S (last_over t us) else match last_over t us with O => O | S n => S (S n) end
  end.
Lemma last_over_zero t us : last_over t us = 0%nat → Forall (λ u, over t u = false) us.
Proof.
  induction us as [|u us IH]; cbn; [constructor|]. destruct (over t u) eqn:E; [done|].
  destruct (last_over t us); [|done]. intros _. constructor; auto.
Qed.
Lemma last_over_length t us : (last_over t us <= length us)%nat.
Proof. induction us as [|u us IH]; cbn; [done|]. destruct (over t u); [lia|]. destruct (last_over t us); lia. Qed.
Lemma over_later t t' u : t <= t' → over t u = true → over t' u = true.
Proof. unfold over. rewrite !andb_true_iff, !Z.ltb_lt. lia. Qed.
Lemma last_over_clean t t' us : t <= t' → (last_over t (clean_users t' us) <= last_over t us - 1)%nat.
Proof.
  intros Ht. pattern us. apply (clean_users_ind _ t'); [done| | |].
  - intros u us' Ho IH. cbn [clean_users]. rewrite Ho. cbn [last_over].
    assert (Hu : over t u = false) by (apply not_true_iff_false; intros E; by rewrite (over_later t t') in Ho).
    rewrite Hu. destruct (last_over t (clean_users t' us')), (last_over t us'); lia.
  - intros u Ho. cbn [clean_users]. rewrite Ho. cbn. lia.
  - intros u v us' Ho IH. cbn [clean_users]. rewrite Ho. cbn [last_over].
    destruct (over t v); destruct (over t u); destruct (last_over t (clean_users t' us')), (last_over t us'); lia.
Qed.
Lemma clean_users_keeps t us u : over t u = false → u ∈ us → u ∈ clean_users t us.
Proof.
  intros Hu. pattern us. apply (clean_users_ind _ t); [done| | |].
  - intros v us' Ho IH Hin. cbn [clean_users]. rewrite Ho. rewrite elem_of_cons in *. tauto.
  - intros v Ho Hin. apply list_elem_of_singleton in Hin as ->. congruence.
  - intros v w us' Ho IH Hin. cbn [clean_users]. rewrite Ho. rewrite !elem_of_cons in *.
    destruct Hin as [->|Hin]; [congruence|tauto].
Qed.

Definition collections (ts : list (Z * Z)) s : Server := foldl (λ s p, cleanupTestpoints p.1 p.2 s) s ts.
Lemma cleanup_valid time epoch s : valid (cleanupTestpoints time epoch s) = valid s.
Proof. unfold cleanupTestpoints. destruct (valid s) eqn:E; done. Qed.

(** C34: who is over goes, nobody else.  After as many collections as a test point
    has users, at times from [t] on, none of those whose time was over at [t] is
    left; a user whose time is not over at any of them stays. *)
Theorem expired_users_go ts s t x :
  wf s → valid s = true → x ≠ 0 → Forall (λ p, t <= collect_time p.1 p.2) ts →
  (length (holders s x) <= length ts)%nat →
  Forall (λ u, over t u = false) (holders (collections ts s) x) ∧
  ∀ u, u ∈ holders s x → Forall (λ p, over (collect_time p.1 p.2) u = false) ts → u ∈ holders (collections ts s) x.
Proof.
  intros Hwf Hv Hx Ht Hl. assert (Hlast : (last_over t (holders s x) <= length ts)%nat) by (pose proof (last_over_length t (holders s x)); lia).
  clear Hl. revert s Hwf Hv Hlast. induction Ht as [|[time epoch] ts Ht _ IH]; intros s Hwf Hv Hlast; cbn [collections foldl].
  - split; [|done]. apply last_over_zero. cbn in Hlast. lia.
  - cbn [fst snd] in *. destruct (collect_spec time epoch s Hwf) as (Hw & _ & Hh). specialize (Hh x Hx). rewrite Hv in Hh.
    destruct (IH (cleanupTestpoints time epoch s) Hw) as [H1 H2].
    + by rewrite cleanup_valid.
    + rewrite Hh. pose proof (last_over_clean t _ (holders s x) Ht). cbn [length] in Hlast. lia.
    + split; [exact H1|]. intros u Hu Hn. apply Forall_cons in Hn as [Hn Hns]. apply H2; [|done]. rewrite Hh. by apply clean_users_keeps.
Qed.

(** ** A node with three test points *)
Definition node7 : Server :=
  found_node 7 [5; 0] (list_to_map [(5, "A_EXC"%string); (20, "B_EXC"%string); (10001, "A_IN1"%string)]) initTestpointServer.
Definition env7 : Env := mkEnv (λ i, 5000000000 + Z.of_nat i) 5600000000 65536 1 true.
Definition asked : Call := Request 3 7 [20; 10001; 20; 99] 2000000000.
Definition node7_asked : Server := default node7 (serve env7 asked node7).
Lemma node7_serves : serve env7 asked node7 = Some node7_asked.
Proof. vm_compute. reflexivity. Defined.
Lemma node7_asked_ok : wf node7_asked.
Proof. exact (proj1 (serve_moves _ _ _ _ (found_node_ok _ _ _) node7_serves (λ h, h))). Qed.
Definition crowd : Call := Request 3 7 (replicate 998 20) 0.
Definition node7_full : Server := default node7 (serve env7 crowd node7_asked).
Lemma node7_fills : serve env7 crowd node7_asked = Some node7_full.
Proof. vm_compute. reflexivity. Defined.
Lemma node7_full_ok : wf node7_full.
Proof. exact (proj1 (serve_moves _ _ _ _ node7_asked_ok node7_fills (λ h, h))). Qed.

Lemma registry_refinement_witness :
  serve env7 asked node7 = Some node7_asked ∧
  holders node7_asked 20 = [mkUse 5000000000 2000000000 3; mkUse 5000000002 2000000000 3] ∧ holders node7_asked 99 = [].
Proof.
  split; [exact node7_serves|].
  destruct (registry_refinement env7 asked node7 node7_asked eq_refl (found_node_ok _ _ _) node7_serves) as [_ H].
  split; rewrite H by done; vm_compute; reflexivity.
Defined.
(** Another client comes, the collector runs, a "clear all" for another node is
    refused, and the channel is used on. *)
Definition busy : list (Env * Call) :=
  [(env7, Request 4 7 [5; 20] 0); (env7, Collect 8 1); (env7, Clear 3 9 [_TP_CLEAR_ALL]); (env7, Clear 3 7 [10001]);
   (env7, KeepAlive 4)].
Definition serve_all (log : list (Env * Call)) s : Server :=
  foldl (λ s '(env, c), default s (serve env c s)) s log.
Lemma busy_served : in_use_through 20 node7_asked busy (serve_all busy node7_asked).
Proof. repeat (eexists; split; [vm_compute; reflexivity|split; [vm_compute; discriminate|]]). vm_compute. reflexivity. Qed.
Lemma slot_stays_witness :
  in_use_through 20 node7_asked busy (serve_all busy node7_asked) ∧ number (serve_all busy node7_asked) 0 0 = 20.
Proof.
  split; [exact busy_served|].
  apply (slot_stays busy node7_asked _ 20 0 0 node7_asked_ok); [unfold TP_MAX_INTERFACE; lia|unfold TP_MAX_INDEX; lia
    |vm_compute; reflexivity|done|exact busy_served|].
  unfold not_put_again, busy. rewrite !Forall_cons, Forall_nil. cbn [clears_all]. split_and!; try done; try (by intros []).
  - intros _. split; [done|]. assert (E : preselected node7_asked = [5]) by (vm_compute; reflexivity). rewrite E.
    intros Hp. by apply list_elem_of_singleton in Hp.
  - intros Hc. by apply list_elem_of_singleton in Hc.
Defined.
(** Test point 5 is preselected; it has slot 1 before a "clear all" and slot 0 after. *)
Lemma clear_all_moves :
  let log := [(env7, Request 4 7 [5] 0); (env7, Clear 3 7 [_TP_CLEAR_ALL])] in
  number (serve_all (take 1 log) node7_asked) 0 1 = 5 ∧ in_use_through 5 node7_asked log (serve_all log node7_asked) ∧
  number (serve_all log node7_asked) 0 0 = 5.
Proof.
  split; [vm_compute; reflexivity|]. split; [|vm_compute; reflexivity].
  repeat (eexists; split; [vm_compute; reflexivity|split; [vm_compute; discriminate|]]). vm_compute. reflexivity.
Qed.
Lemma slots_fit_witness :
  history 1 node7_asked ∧ number node7_asked 0 0 = 20 ∧ 1 * (4 * (1024 * 1 + 1)) <= UNIT_ID_TO_DATA_BLOCKSIZE.
Proof.
  assert (Hh : history 1 node7_asked).
  { apply (served 1 env7 asked node7); [apply started; cbn; lia| |exact node7_serves].
    split; [done|]. split; [done|]. cbn. lia. }
  split; [exact Hh|]. split; [vm_compute; reflexivity|].
  apply (slots_fit 1 node7_asked 0 0 ltac:(lia) Hh); [unfold TP_MAX_INTERFACE; lia|unfold TP_MAX_INDEX; lia|].
  vm_compute. discriminate.
Defined.
Lemma no_room_no_return_witness : requesttp_1_svc env7 node7_full 4 7 [5; 20] 0 (mkRes 0 0 0) = None.
Proof.
  apply (no_room_no_return env7 node7_full 4 7 [5; 20] 0 (mkRes 0 0 0) 20 node7_full_ok eq_refl);
    [vm_compute; reflexivity|right; left|]. split; [vm_compute; eexists; reflexivity|]. left. apply Nat.leb_le. vm_compute. reflexivity.
Defined.
Lemma expired_users_go_witness :
  Forall (λ u, over 8000000000 u = false) (holders (collections [(8, 1); (9, 1)] node7_asked) 20).
Proof.
  apply (expired_users_go [(8, 1); (9, 1)] node7_asked 8000000000 20 node7_asked_ok eq_refl); [done| |vm_compute; lia].
  repeat constructor; vm_compute; discriminate.
Defined.
End TpHistory.
