(* ===== verification/TpIndex.v ===== *)
(** * Index of test points: publication and reading ([src/gds/testpoint.c])

    Once a second the client side of the test point manager reads the index the
    server has written into a ring of three readings, each valid from the next
    second on; a query for a second gets the newest reading valid by then.

    - [tpIndex_t], [Cache]; [readTestpoints], [tpGetIndexDirect] and the remote
      call [querytp_1_svc] of [testpoint_server.c];
    - [index_log]: the ring is a log of readings of which the last three are kept;
    - [published_index_read]: what the server has in its tables is what is read.

    The build reads the shared memory for all 256 nodes, [_TESTPOINT_DIRECT] being
    all ones; [bits] is the integer with the representation of a single. *)
From stdpp Require Import gmap strings.
From S2P Require Import Prelude Rm Awg TpServer TpProps TpHistory.
Import Rm TpServer TpProps TpHistory.
Local Open Scope Z_scope.

Module TpIndex.

Definition _MAX_INDEX_CACHE : nat := 3.
Definition TESTPOINT_VALID1 : Z := 10.
Definition _TESTPOINT_DIRECT : Z := 0xffffffff.
(** The shift of an [int] takes the last five bits of the count. *)
Definition direct (node : Z) : bool := negb (Z.land _TESTPOINT_DIRECT (u32 (Z.shiftl 1 (node mod 32))) =? 0).

(** [tp] by node, interface and slot. *)
Record tpIndex_t := mkIndex { tp : list (list (list Z)); itime : Z; iepoch : Z }.
Definition zero_reading : tpIndex_t :=
  mkIndex (replicate (Z.to_nat TP_MAX_NODE) (replicate TP_MAX_INTERFACE (replicate TP_MAX_INDEX 0))) 0 0.
#[export] Instance index_inhabited : Inhabited tpIndex_t := populate zero_reading.

(** [tpindexcur] and [tpindexlist]. *)
Record Cache := mkCache { cur : nat; ring : list tpIndex_t }.
Definition initTestpoint : Cache := mkCache 0 (replicate _MAX_INDEX_CACHE zero_reading).

Section index.
Context {F : Type} (bits : F → Z).

Definition as_int (w : Word F) : Z := match w with WInt z => z | WFloat x => bits x end.
(** One interface of one node: what was there stays when the memory is not mapped. *)
Definition read_one (rm : Rm F) (node : Z) (i : nat) (old : list Z) : list Z :=
  let len := TP_INTERFACE_TO_INDEX_LEN (Z.of_nat i) in
  let addr := TP_NODE_INTERFACE_TO_INDEX_OFFSET (Z.of_nat i) in
  if (len =? 0)%nat || (addr <? 0) then old
  else
    let '(r, ws) := rmRead rm 0 addr (2 * ((len + 1) / 2)) in
    if r <? 0 then old else as_int <$> ws.
Definition read_node (rm : Rm F) (node : nat) (old : list (list Z)) : list (list Z) :=
  if direct (Z.of_nat node) then imap (read_one rm (Z.of_nat node)) old else old.
Definition readTestpoints (time : Z) (rm : Rm F) (c : Cache) : Cache :=
  let k := ((cur c + 1) mod _MAX_INDEX_CACHE)%nat in
  mkCache k (alter (λ e, mkIndex (imap (read_node rm) (tp e)) (u64 (time + 1)) 0) k (ring c)).
End index.

(** The search: [n] entries from [k] on, backwards. *)
Fixpoint find_reading (c : Cache) (time : Z) (n : nat) (k : nat) : nat :=
  match n with
  | O => k
  | S n => if itime (ring c !!! k) <=? time then k
           else find_reading c time n ((k + _MAX_INDEX_CACHE - 1) mod _MAX_INDEX_CACHE)%nat
  end.
Definition tpGetIndexDirect (c : Cache) (node tpinterface tplen time : Z) : Z * list Z :=
  if (node <? 0) || (TP_MAX_NODE <=? node) then (-2, [])
  else if negb (in_range tpinterface) then (-2, [])
  else if negb (direct node) then (-1, [])
  else
    let len := Z.min (Z.of_nat (TP_INTERFACE_TO_INDEX_LEN tpinterface)) tplen in
    if len <? 0 then (-3, [])
    else
      let e := ring c !!! find_reading c time _MAX_INDEX_CACHE (cur c) in
      if time <? itime e then (-4, [])
      else (len, take (Z.to_nat len) ((tp e !!! Z.to_nat node) !!! Z.to_nat tpinterface)).

(** [resultQueryTP_r]: the status and the test points; [malloc] gets its memory. *)
Definition querytp_1_svc (now : Z) (s : Server) (c : Cache) (cid n tpinterface tplen time : Z) : Z * list Z :=
  if bad_call s cid n then (-2, [])
  else if tplen <? 0 then (-2, [])
  else tpGetIndexDirect c n tpinterface tplen (if time =? 0 then u64 (Z.quot now _ONESEC) else time).

(** ** The ring is a log *)
Lemma all_direct node : (node < 256)%nat → direct (Z.of_nat node) = true.
Proof.
  intros Hn. assert (Ha : forallb (λ n, direct (Z.of_nat n)) (seq 0 256) = true) by (vm_compute; reflexivity).
  rewrite forallb_forall in Ha. apply Ha, in_seq. lia.
Qed.

Section log.
Context {F : Type} (bits : F → Z).
Implicit Types (rm : Rm F) (c : Cache).

Definition index_addr (i : nat) : Z := TP_NODE_INTERFACE_TO_INDEX_OFFSET (Z.of_nat i).
Definition index_of rm : list (list Z) :=
  (λ i, as_int bits <$> load (index_addr i) TP_MAX_INDEX (area0 rm)) <$> seq 0 TP_MAX_INTERFACE.
Definition reading (p : Z * Rm F) : tpIndex_t :=
  mkIndex (replicate (Z.to_nat TP_MAX_NODE) (index_of p.2)) (u64 (p.1 + 1)) 0.
(** Readings, the newest first. *)
Definition readings (l : list (Z * Rm F)) : Cache := foldr (λ p c, readTestpoints bits p.1 p.2 c) initTestpoint l.
Definition kept_readings (l : list (Z * Rm F)) : list tpIndex_t :=
  take _MAX_INDEX_CACHE ((reading <$> l) ++ replicate _MAX_INDEX_CACHE zero_reading).

Definition shaped (e : tpIndex_t) : Prop :=
  length (tp e) = 256%nat ∧ Forall (λ l, length l = TP_MAX_INTERFACE) (tp e).
Lemma reading_shaped p : shaped (reading p).
Proof. split; [apply length_replicate|]. apply Forall_replicate. unfold index_of. by rewrite length_fmap, length_seq. Qed.

Lemma index_addr_eq i : index_addr i = 39845888 + Z.of_nat i * 2048.
Proof. reflexivity. Qed.
Lemma read_one_fresh rm node i old :
  mapped rm → (i < TP_MAX_INTERFACE)%nat →
  read_one bits rm node i old = as_int bits <$> load (index_addr i) TP_MAX_INDEX (area0 rm).
Proof.
  intros Hm Hi. unfold read_one. fold (index_addr i).
  assert (El : TP_INTERFACE_TO_INDEX_LEN (Z.of_nat i) = 64%nat).
  { unfold TP_INTERFACE_TO_INDEX_LEN, TP_MAX_INTERFACE in *. by rewrite (proj2 (Z.leb_le _ _)), (proj2 (Z.ltb_lt _ _)) by lia. }
  rewrite El. cbn [Nat.eqb orb]. rewrite (proj2 (Z.ltb_ge _ 0)) by (rewrite index_addr_eq; lia).
  by rewrite rmRead_area0.
Qed.
Lemma imap_const {A B} (f : nat → A → B) (g : nat → B) (l : list A) :
  (∀ i x, l !! i = Some x → f i x = g i) → imap f l = g <$> seq 0 (length l).
Proof.
  intros Hf. apply list_eq. intros i. rewrite list_lookup_imap, list_lookup_fmap.
  destruct (l !! i) as [x|] eqn:E; cbn.
  - rewrite lookup_seq_lt by (by eapply lookup_lt_Some). cbn. by rewrite (Hf i x E).
  - rewrite lookup_seq_ge; [done|]. by apply lookup_ge_None.
Qed.
Lemma read_fresh rm e time :
  mapped rm → shaped e → mkIndex (imap (read_node bits rm) (tp e)) (u64 (time + 1)) 0 = reading (time, rm).
Proof.
  intros Hm [Hl Hf]. unfold reading. f_equal. rewrite (imap_const _ (λ _, index_of rm)).
  - rewrite Hl. symmetry. apply replicate_as_Forall. split; [by rewrite length_fmap, length_seq|].
    apply Forall_fmap, Forall_true. done.
  - intros n x Hx. unfold read_node. rewrite all_direct by (apply lookup_lt_Some in Hx; lia).
    rewrite (imap_const _ (λ i, as_int bits <$> load (index_addr i) TP_MAX_INDEX (area0 rm))).
    + rewrite Forall_lookup in Hf. by rewrite (Hf n x Hx).
    + intros i y Hy. apply read_one_fresh; [done|]. rewrite Forall_lookup in Hf. rewrite <- (Hf n x Hx). by eapply lookup_lt_Some.
Qed.

(** The entries, the newest first. *)
Definition backwards c : list tpIndex_t :=
  [ring c !!! cur c; ring c !!! ((cur c + 2) mod 3)%nat; ring c !!! ((cur c + 1) mod 3)%nat].
Definition ring_ok c : Prop := (cur c < 3)%nat ∧ length (ring c) = 3%nat ∧ Forall shaped (ring c).
Lemma ring_ok_init : ring_ok initTestpoint.
Proof.
  split; [cbn; lia|]. split; [done|]. apply Forall_replicate. split; [apply length_replicate|]. apply Forall_replicate.
  cbn [zero_reading]. apply length_replicate.
Qed.
Ltac ring_cases Hc :=
  destruct Hc as (Hcur & Hlen & Hsh);
  match type of Hlen with length (ring ?c) = _ =>
    destruct c as [k r]; cbn [cur ring] in *;
    destruct r as [|x [|y [|z []]]]; try done;
    repeat match goal with H : Forall _ (_ :: _) |- _ => apply Forall_cons in H as [? H] end;
    destruct k as [|[|[|k]]]; [..|lia]
  end.
Lemma readTestpoints_backwards rm time c :
  mapped rm → ring_ok c →
  ring_ok (readTestpoints bits time rm c) ∧
  backwards (readTestpoints bits time rm c) = reading (time, rm) :: take 2 (backwards c).
Proof.
  intros Hm Hc. ring_cases Hc; unfold readTestpoints, backwards, ring_ok; cbn;
    rewrite read_fresh by done; (split; [|done]); (split; [lia|]); (split; [done|]);
    repeat (apply Forall_cons; split; [done || apply reading_shaped|]); apply Forall_nil; done.
Qed.
Lemma readings_log l : Forall (λ p, mapped p.2) l → ring_ok (readings l) ∧ backwards (readings l) = kept_readings l.
Proof.
  induction 1 as [|p l Hm _ [Hok IH]]; [split; [apply ring_ok_init|done]|].
  destruct (readTestpoints_backwards p.2 p.1 (readings l) Hm Hok) as [Hok' E]. split; [exact Hok'|].
  cbn [readings foldr]. fold (readings l). rewrite E, IH. unfold kept_readings. destruct p. cbn [fmap list_fmap app fst snd].
  by rewrite take_take.
Qed.
Lemma find_reading_backwards c time :
  ring_ok c →
  let e := ring c !!! find_reading c time _MAX_INDEX_CACHE (cur c) in
  match find (λ e, itime e <=? time) (backwards c) with Some x => e = x ∧ itime e <= time | None => time < itime e end.
Proof.
  intros Hc. ring_cases Hc; cbn; repeat case_match; cbn in *; simplify_eq;
    repeat match goal with H : (_ <=? _) = _ |- _ => (apply Z.leb_le in H || apply Z.leb_gt in H) end; done || lia.
Qed.

(** The ring is a log of the readings of which the last three are kept: a
    query for a time gets what the newest reading valid by then has read, and is
    refused when there is none; before the first readings there is an empty one. *)
Lemma index_log l node tpinterface tplen time :
  Forall (λ p, mapped p.2) l → 0 <= node < TP_MAX_NODE → 0 <= tpinterface < 4 → 0 <= tplen →
  tpGetIndexDirect (readings l) node tpinterface tplen time =
  match find (λ e, itime e <=? time) (kept_readings l) with
  | Some e => (Z.min 64 tplen, take (Z.to_nat (Z.min 64 tplen)) ((tp e !!! Z.to_nat node) !!! Z.to_nat tpinterface))
  | None => (-4, [])
  end.
Proof.
  intros Hl Hn Hi Ht. destruct (readings_log l Hl) as [Hok Hb]. unfold TP_MAX_NODE in Hn.
  unfold tpGetIndexDirect, TP_MAX_NODE. rewrite (proj2 (Z.ltb_ge node 0)), (proj2 (Z.leb_gt 256 node)) by lia. cbn [orb].
  rewrite (proj2 (in_range_spec _)) by done. cbn [negb].
  pose proof (all_direct (Z.to_nat node) ltac:(lia)) as Hd. rewrite Z2Nat.id in Hd by lia. rewrite Hd. cbn [negb].
  unfold TP_INTERFACE_TO_INDEX_LEN. rewrite (proj2 (Z.leb_le 0 _)), (proj2 (Z.ltb_lt _ 4)) by lia. cbn [andb].
  change (Z.of_nat 64) with 64. rewrite (proj2 (Z.ltb_ge _ 0)) by lia.
  pose proof (find_reading_backwards (readings l) time Hok) as Hf. cbv zeta in Hf. rewrite Hb in Hf.
  destruct (find _ (kept_readings l)) as [x|].
  - destruct Hf as [-> Hle]. by rewrite (proj2 (Z.ltb_ge _ _)).
  - by rewrite (proj2 (Z.ltb_lt _ _)).
Qed.

(** ** From the server to the readers *)
Definition numbers s (i : nat) : list Z := id <$> table s i.
Lemma load_store_other a b n ws (m : Area F) :
  b + 4 * Z.of_nat n <= a ∨ a + 4 * Z.of_nat (length ws) <= b → load b n (store a ws m) = load b n m.
Proof.
  intros Hd. unfold load. apply list_fmap_ext. intros k i Hk. apply lookup_seq in Hk as [-> Hk].
  rewrite !lookup_total_alt. rewrite store_outside; [done|lia].
Qed.
Lemma update_one_area s i rm :
  wf s → (i < TP_MAX_INTERFACE)%nat → mapped rm →
  mapped (update_one s i rm) ∧ area0 (update_one s i rm) = store (index_addr i) (WInt <$> numbers s i) (area0 rm).
Proof.
  intros Hwf Hi Hm. unfold update_one. fold (index_addr i).
  assert (Ew : (λ e : tpEntry_t, WInt (if id e =? 0 then 0 else id e)) <$> table s i = (WInt (F := F)) <$> numbers s i).
  { unfold numbers. rewrite <- list_fmap_compose. apply list_fmap_ext. intros k e _. cbn.
    destruct (Z.eqb_spec (id e) 0) as [->|]; done. }
  rewrite Ew. destruct (wf_table s i Hwf Hi) as (Hl & _).
  assert (Hlen : length ((WInt (F := F)) <$> numbers s i) = 64%nat) by (unfold numbers; by rewrite !length_fmap, table_full).
  rewrite Hlen. cbn [Nat.eqb orb]. rewrite (proj2 (Z.leb_gt _ 0)) by (rewrite index_addr_eq; lia).
  pose proof (rmWrite_area0 rm (WInt <$> numbers s i) (index_addr i) Hm) as Hw.
  destruct (rmWrite rm 0 _ _) as [rm' r]. cbn [fst]. tauto.
Qed.
Lemma updateTestpoints_read s rm i :
  wf s → valid s = true → mapped rm → (i < TP_MAX_INTERFACE)%nat →
  mapped (updateTestpoints s rm) ∧
  load (index_addr i) TP_MAX_INDEX (area0 (updateTestpoints s rm)) = WInt <$> numbers s i.
Proof.
  intros Hwf Hv Hm Hi. unfold updateTestpoints. rewrite Hv.
  assert (Hlen : ∀ k, (k < TP_MAX_INTERFACE)%nat → length ((WInt (F := F)) <$> numbers s k) = TP_MAX_INDEX).
  { intros k Hk. destruct (wf_table s k Hwf Hk) as (Hl & _). unfold numbers. by rewrite !length_fmap, table_full. }
  cut (∀ n, (n <= TP_MAX_INTERFACE)%nat →
    let rm' := foldl (λ rm j, update_one s j rm) rm (seq 0 n) in
    mapped rm' ∧ ∀ k, (k < n)%nat → load (index_addr k) TP_MAX_INDEX (area0 rm') = WInt <$> numbers s k).
  { intros Hc. destruct (Hc TP_MAX_INTERFACE ltac:(lia)) as [H1 H2]. auto. }
  induction n as [|n IH]; intros Hn; [by split; [|lia]|].
  rewrite seq_S, foldl_app. cbn [foldl Nat.add]. destruct (IH ltac:(lia)) as [Hm' Hr].
  destruct (update_one_area s n _ Hwf ltac:(lia) Hm') as [Hm2 Ha]. split; [exact Hm2|]. rewrite Ha. intros k Hk.
  destruct (decide (k = n)) as [->|Hne]; [rewrite <- (Hlen n) by lia; apply load_store|].
  rewrite load_store_other; [by apply Hr; lia|]. rewrite Hlen by lia. rewrite !index_addr_eq. unfold TP_MAX_INDEX. lia.
Qed.

(** What is in the server's tables is what the generators are told.  After
    the server has written its index and the index has been read in second [t], a
    query for any second from [t + 1] on gets the number in each slot of the
    interface, in order, for any node. *)
Lemma published_index_read s rm t l node i time :
  wf s → valid s = true → mapped rm → Forall (λ p, mapped p.2) l →
  0 <= node < TP_MAX_NODE → (i < TP_MAX_INTERFACE)%nat → 0 <= t < 2 ^ 63 → t + 1 <= time →
  tpGetIndexDirect (readings ((t, updateTestpoints s rm) :: l)) node (Z.of_nat i) 64 time = (64, numbers s i).
Proof.
  intros Hwf Hv Hm Hl Hn Hi Ht Htime. destruct (updateTestpoints_read s rm i Hwf Hv Hm Hi) as [Hm' Hr].
  rewrite index_log; [|by constructor|done|unfold TP_MAX_INTERFACE in Hi; lia|done].
  set (p := (t, updateTestpoints s rm)).
  assert (Et : itime (reading p) = t + 1) by (cbn [reading itime fst p]; apply wrap_small; lia).
  unfold kept_readings. cbn [fmap list_fmap app take _MAX_INDEX_CACHE find].
  rewrite Et, (proj2 (Z.leb_le _ _)) by done. f_equal. unfold reading. cbn [tp snd p].
  unfold TP_MAX_NODE in Hn. rewrite lookup_total_replicate_2 by (unfold TP_MAX_NODE; lia).
  rewrite Nat2Z.id. unfold index_of. rewrite (list_lookup_total_fmap (λ i, as_int bits <$> _)) by (by rewrite length_seq).
  rewrite lookup_total_seq_lt by done. cbn [Nat.add]. rewrite Hr, <- list_fmap_compose.
  rewrite (list_fmap_ext _ (λ z, z)) by done. rewrite list_fmap_id.
  apply take_ge. destruct (wf_table s i Hwf Hi) as (Hlen & _). unfold numbers. rewrite length_fmap, table_full, Hlen by done. done.
Qed.
End log.

(** *** A witness *)
Definition no_memory : Rm Z := rmInit ∅ ∅.
Lemma published_index_read_witness :
  tpGetIndexDirect (readings (λ z, z) [(5, updateTestpoints node7_asked no_memory)]) 7 (Z.of_nat 0) 64 6 = (64, numbers node7_asked 0).
Proof.
  apply (published_index_read (λ z, z) node7_asked no_memory 5 [] 7 0 6).
  - apply node7_asked_ok.
  - vm_compute. reflexivity.
  - apply rmInit_mapped.
  - constructor.
  - done.
  - unfold TP_MAX_INTERFACE. lia.
  - done.
  - done.
Defined.
End TpIndex.
