(* ===== verification/AwgOut.v ===== *)
(** * Waveform generators: output ([src/gds/awg.c])

    Sixteen times a second [tAWG] computes the pages of the epoch three epochs
    ahead into one of sixteen buffers and posts a semaphore; [tAWGcopy] takes the
    oldest buffer that is ready and copies its pages to the channels of the shared
    memory the test point manager has given to their numbers.

    - [awgpagebuf_t], [awgbuf_t], [awgtp_t] and the state [Out];
    - [readTPinfo], [getTPslot], [invalidateTPslots], [flushAWG], [copyRMdata];
    - [heartbeat], one round of [tAWG]; [copy_begin] and [copy_end], the two halves
      of a round of [tAWGcopy], between which other heartbeats may come.

    [page] holds the samples that were computed.  Output to files, which no slot
    can be bound to, is left out, and so are the copy of a component into the page
    of a DS340, which nothing reads in this build, messages and statistics. *)
From stdpp Require Import gmap.
From S2P Require Import Prelude CFloat Iir GdsRand AwgFunc Awg AwgCalc Rm TpServer TpIndex.
Import AwgFunc Rm.
Local Open Scope Z_scope.

Module AwgOut.
#[local] Existing Instance Awg.awg_inhabited.

Definition _MAX_BUF : nat := 16.
Definition _AHEAD : Z := 3.
Definition _MAX_BEHIND : Z := 1.
Definition _INVALID_RM_CHANNEL : Z := 0xBAD.
Definition TP_EX_NUM : nat := 64.

Section defs.
Context {F : Type} `{FloatOps F, Libm F}.

(** ** State *)
Record awgpagebuf_t := mkPage { otype : Z; optr : option Z; onum : Z; pagelen : Z; page : list F }.
Definition zero_page : awgpagebuf_t := mkPage awgNone None 0 0 [].
#[export] Instance pagebuf_inhabited : Inhabited awgpagebuf_t := populate zero_page.

Record awgbuf_t := mkBuf { ready : Z; time : Z; epoch : Z; buf : list awgpagebuf_t }.
Definition zero_buf : awgbuf_t := mkBuf 0 0 0 (replicate Awg.MAX_NUM_AWG zero_page).
#[export] Instance buf_inhabited : Inhabited awgbuf_t := populate zero_buf.
Definition set_ready (v : Z) (b : awgbuf_t) : awgbuf_t := mkBuf v (time b) (epoch b) (buf b).

Record awgtp_t := mkTp { ttime : Z; tepoch : Z; lsctp : list Z; asctp : list Z }.
Definition zero_tp : awgtp_t := mkTp 0 0 (replicate TP_EX_NUM 0) (replicate TP_EX_NUM 0).

(** [awgtp], the newest first; [copying] is the buffer [tAWGcopy] is at work on. *)
Record Out := mkOut {
  bank : Awg.Bank F;
  bufs : list awgbuf_t;
  count : Z;
  awgtp : awgtp_t * awgtp_t;
  copying : option nat;
  rmem : Rm F
}.
Definition set_bufs (l : list awgbuf_t) (o : Out) : Out := mkOut (bank o) l (count o) (awgtp o) (copying o) (rmem o).
Definition set_bank (b : Awg.Bank F) (o : Out) : Out := mkOut b (bufs o) (count o) (awgtp o) (copying o) (rmem o).
Definition set_count (n : Z) (o : Out) : Out := mkOut (bank o) (bufs o) n (awgtp o) (copying o) (rmem o).
Definition set_awgtp (t : awgtp_t * awgtp_t) (o : Out) : Out := mkOut (bank o) (bufs o) (count o) t (copying o) (rmem o).
Definition set_copying (c : option nat) (o : Out) : Out := mkOut (bank o) (bufs o) (count o) (awgtp o) c (rmem o).
Definition set_rmem (m : Rm F) (o : Out) : Out := mkOut (bank o) (bufs o) (count o) (awgtp o) (copying o) m.

(** The memory set to zero by [initAWG]. *)
Definition initAWG (b : Awg.Bank F) (m : Rm F) : Out :=
  mkOut b (replicate _MAX_BUF zero_buf) 0 (zero_tp, zero_tp) None m.

(** ** Channels *)
Definition _LSCX_BASE : Z := UNIT_ID_TO_DATA_OFFSET.
Definition _LSCX_SIZE : Z := UNIT_ID_TO_DATA_BLOCKSIZE.
Definition channel_length (lsc : bool) (sys_freq_mult : Z) : Z :=
  if lsc then Awg._LSCTP_PAGE sys_freq_mult else Awg._ASCTP_PAGE sys_freq_mult.
(** The address of the channel of a slot in the block of an epoch. *)
Definition channel_addr (lsc : bool) (sys_freq_mult slot epoch : Z) : Z :=
  CHN_ADDR (_LSCX_BASE + slot * TP_DATUM_LEN * (channel_length lsc sys_freq_mult + 1)) _LSCX_SIZE epoch.

Definition in_force (t : awgtp_t * awgtp_t) (tm ep : Z) : awgtp_t :=
  if (ttime t.1 <=? tm) || ((tm =? ttime t.1) && (tepoch t.1 <=? ep)) then t.1 else t.2.
Fixpoint find_tp (tpID : Z) (l : list Z) (i : Z) : Z :=
  match l with
  | [] => -1
  | x :: l => if x =? tpID then i else find_tp tpID l (i + 1)
  end.
(** The slot, and what is stored through the pointer: nothing, or an address that
    is null when there is no slot. *)
Definition getTPslot (m : Z) (t : awgtp_t * awgtp_t) (type tpID tm ep : Z) : Z * option (option Z) :=
  if negb ((type =? Awg.awgLSCtp) || (type =? Awg.awgASCtp)) || (tpID <=? 0) then (-1, None)
  else
    let tp := in_force t tm ep in
    let lsc := type =? Awg.awgLSCtp in
    let slot := find_tp tpID (take TP_EX_NUM (if lsc then lsctp tp else asctp tp)) 0 in
    (slot, Some (if 0 <=? slot then Some (channel_addr lsc m slot ep) else None)).

(** [tpGetIndexDirect] leaves the list alone when it fails. *)
Definition fetch (c : TpIndex.Cache) (node tpinterface tm : Z) (old : list Z) : Z * list Z :=
  let '(r, l) := TpIndex.tpGetIndexDirect c node tpinterface (Z.of_nat TP_EX_NUM) tm in
  (r, if 0 <=? r then l ++ drop (length l) old else old).
Definition readTPinfo (c : TpIndex.Cache) (node tai : Z) (t : awgtp_t * awgtp_t) : (awgtp_t * awgtp_t) * Z :=
  let '(ret1, lsc) := fetch c node Awg.TP_LSC_EX_INTERFACE tai (lsctp t.1) in
  let '(ret2, asc) := fetch c node Awg.TP_ASC_EX_INTERFACE tai (asctp t.1) in
  ((mkTp tai 0 lsc asc, t.1), if ret1 <? ret2 then ret1 else ret2).

(** One slot of the loops: the status goes to both boards. *)
Definition invalidate_slot (lsc : bool) (m ep : Z) (slot : nat) (rm : Rm F) : Rm F :=
  let a := channel_addr lsc m (Z.of_nat slot) ep in
  let rm := (rmWrite rm 0 [WInt _INVALID_RM_CHANNEL] a).1 in
  (rmWrite rm 1 [WInt _INVALID_RM_CHANNEL] a).1.
Definition invalidateTPslots (m ep : Z) (rm : Rm F) : Rm F :=
  let rm := for_up 0 TP_EX_NUM (invalidate_slot true m ep) rm in
  for_up 0 TP_EX_NUM (invalidate_slot false m ep) rm.

(** ** Pages *)
Definition through (p : option (option Z)) (old : option Z) : option Z := match p with Some a => a | None => old end.
(** [flushAWG] of slot [g]; the memory case aborts. *)
Definition flushAWG (m : Z) (t : awgtp_t * awgtp_t) (g : Awg.AWG_ConfigBlock F) (tm ep : Z) (p : awgpagebuf_t)
  : option awgpagebuf_t :=
  if (Awg.otype g =? Awg.awgLSCtp) || (Awg.otype g =? Awg.awgASCtp) then
    let '(slot, a) := getTPslot m t (Awg.otype g) (Awg.ID g) tm ep in
    let a := through a (optr p) in
    if 0 <=? slot then Some (mkPage (Awg.otype g) a (Awg.ID g) (Awg.pagesize g) (page p))
    else Some (mkPage awgNone a (onum p) (pagelen p) (page p))
  else if Awg.otype g =? Awg.awgDAC then
    let '(slot, a) := getTPslot m t Awg.awgLSCtp (Awg.TP_ID_DAC_OFS + Awg.ID g) tm ep in
    Some (mkPage Awg.awgDAC (if slot <? 0 then None else through a None) (Awg.ID g) (Awg.pagesize g) (page p))
  else if Awg.otype g =? Awg.awgDS340 then
    if 0 <? Awg.ncomp g then Some (mkPage Awg.awgDS340 None (Awg.ID g) 0 (page p))
    else Some (mkPage awgNone (optr p) (onum p) (pagelen p) (page p))
  else if Awg.otype g =? Awg.awgMem then None
  else Some (mkPage awgNone (optr p) (onum p) (pagelen p) (page p)).

(** [processAWG] with its page: a slot that is not configured leaves the page of
    the buffer as it is. *)
Definition process_slot (fuel : nat) (m now : Z) (t : awgtp_t * awgtp_t) (tm ep : Z) (i : nat)
    (st : option (Awg.Bank F * list awgpagebuf_t)) : option (Awg.Bank F * list awgpagebuf_t) :=
  '(b, ps) ← st;
  '(b', _, out) ← AwgCalc.processAWG fuel now b (Z.of_nat i) tm ep;
  match out with
  | None => Some (b', ps)
  | Some vp =>
      let p := ps !!! i in
      p ← flushAWG m t (Awg.AWG b' !!! i) tm ep (mkPage (otype p) (optr p) (onum p) (pagelen p) vp);
      Some (b', <[i := p]> ps)
  end.
Definition processAllAWG (fuel : nat) (m now : Z) (t : awgtp_t * awgtp_t) (tm ep : Z) (b : Awg.Bank F) (ps : list awgpagebuf_t)
  : option (Awg.Bank F * list awgpagebuf_t) :=
  for_up 0 Awg.MAX_NUM_AWG (process_slot fuel m now t tm ep) (Some (b, ps)).

(** ** [tAWG] *)
Definition ahead (tai ep : Z) : Z * Z :=
  let awgepoch := ep + _AHEAD in
  if awgepoch <? NUMBER_OF_EPOCHS then (tai, awgepoch) else (u64 (tai + 1), awgepoch - NUMBER_OF_EPOCHS).
Definition heartbeat (fuel : nat) (m node now : Z) (c : TpIndex.Cache) (tai ep : Z) (o : Out) : option Out :=
  let tnew := s64 (s64 tai * _ONESEC + ep * _EPOCH) in
  let '(awgtime, awgepoch) := ahead tai ep in
  let o := set_rmem (invalidateTPslots m awgepoch (rmem o)) o in
  let k := Z.to_nat (Z.rem awgepoch (Z.of_nat _MAX_BUF)) in
  '(b, ps) ← processAllAWG fuel m now (awgtp o) awgtime awgepoch (bank o) (buf (bufs o !!! k));
  let o := set_bufs (<[k := mkBuf 1 awgtime awgepoch ps]> (bufs o)) (set_bank b o) in
  let o := set_count (count o + 1) o in
  let o := if ep =? TpIndex.TESTPOINT_VALID1 then set_awgtp (readTPinfo c node (u64 (tai + 1)) (awgtp o)).1 o else o in
  Some (set_bank (Awg.retireAWGComp (s64 (tnew + (_AHEAD - 1) * _EPOCH)) (bank o)) o).

(** ** [tAWGcopy] *)
(** The address and the length of what is copied of a page. *)
Definition valid_page (m : Z) (p : awgpagebuf_t) : option Z :=
  if (otype p =? Awg.awgLSCtp) || (otype p =? Awg.awgDAC) then
    if negb (pagelen p =? Awg._LSCTP_PAGE m) then None else optr p
  else if otype p =? Awg.awgASCtp then
    if negb (pagelen p =? Awg._ASCTP_PAGE m) then None else optr p
  else if otype p =? Awg.awgMem then if pagelen p <=? 0 then None else optr p
  else None.
Definition page_words (p : awgpagebuf_t) : list (Word F) := WInt 0 :: (WFloat <$> take (Z.to_nat (pagelen p)) (page p)).
Definition copy_page (m : Z) (rm : Rm F) (p : awgpagebuf_t) : Rm F :=
  match valid_page m p with
  | None => rm
  | Some a => for_up 0 5 (λ _ rm, (rmWrite rm 0 (page_words p) a).1) rm
  end.
Definition copyRMdata (m : Z) (b : awgbuf_t) (rm : Rm F) : Rm F := foldl (copy_page m) rm (buf b).

Definition older (b b' : awgbuf_t) : bool := (time b <? time b') || ((time b =? time b') && (epoch b <? epoch b')).
Fixpoint oldest (l : list awgbuf_t) (i : nat) (best : option (nat * awgbuf_t)) : option (nat * awgbuf_t) :=
  match l with
  | [] => best
  | b :: l =>
      oldest l (S i)
        (if ready b =? 1 then
           match best with
           | None => Some (i, b)
           | Some (_, b') => if older b b' then Some (i, b) else best
           end
         else best)
  end.
Definition buffer_time (b : awgbuf_t) : Z := s64 (s64 (time b) * _ONESEC + epoch b * _EPOCH).
(** From [sem_wait] to the copy: [None] when it has to wait. *)
Definition copy_begin (tstart : Z) (o : Out) : option Out :=
  if count o <=? 0 then None
  else
    let o := set_count (count o - 1) o in
    match oldest (bufs o) 0 None with
    | None => Some o
    | Some (k, b) =>
        if (_MAX_BEHIND <? count o) || (buffer_time b <? tstart) then Some (set_bufs (<[k := set_ready 0 b]> (bufs o)) o)
        else Some (set_copying (Some k) (set_bufs (<[k := set_ready 2 b]> (bufs o)) o))
    end.
Definition reset_page (p : awgpagebuf_t) : awgpagebuf_t := mkPage awgNone None (-1) 0 (page p).
Definition copy_end (m : Z) (o : Out) : Out :=
  match copying o with
  | None => o
  | Some k =>
      let b := bufs o !!! k in
      let o := set_rmem (copyRMdata m b (rmem o)) o in
      set_copying None (set_bufs (<[k := mkBuf 0 (time b) (epoch b) (reset_page <$> buf b)]> (bufs o)) o)
  end.
End defs.
#[global] Arguments awgpagebuf_t : clear implicits.
#[global] Arguments awgbuf_t : clear implicits.
#[global] Arguments Out : clear implicits.
End AwgOut.
