(* ===== verification/AwgSlot.v ===== *)
(** * Waveform generators: one slot at a time ([AwgCalc.v])

    - [process_length]: the page of a slot has the length the slot was bound with,
      whatever its components, filter and gain do;
    - [process_binding], [process_local]: an epoch leaves the channel of the slot
      and all other slots alone, and what comes out depends on this slot only. *)
From S2P Require Import Prelude CFloat Iir GdsRand AwgFunc Awg AwgCalc.
Import Iir AwgFunc Awg AwgCalc.

Module AwgSlot.

Section slot.
Context {F : Type} `{FloatOps F, Libm F}.
Implicit Types (b : Bank F) (vp : list F).

(** ** Length *)
Lemma sample_loop_length {X} tend dt again resync (body : nat → F → X → F → option (F * X)) i st t x vp st' x' vp' :
  sample_loop tend dt again resync body i st t x vp = Some (st', x', vp') → length vp' = length vp.
Proof.
  revert i st t x st' x' vp'. induction vp as [|v vp IH]; intros i st t x st' x' vp'; cbn [sample_loop]; [by intros [= _ _ <-]|].
  destruct (_ && _); [by intros [= _ _ <-]|]. match goal with |- (let '(_, _) := ?q in _) = _ → _ => destruct q as [[st1 t1] x1] end.
  destruct (body i t1 x1 v) as [[v2 x2]|]; [|done]. cbn [mbind option_bind].
  destruct (sample_loop _ _ _ _ _ _ _ _ _ _) as [[[st3 x3] vs]|] eqn:E; [|done]. cbn [mbind option_bind].
  intros [= _ _ <-]. cbn [length]. f_equal. by eapply IH.
Qed.
Ltac by_loop :=
  match goal with |- (?x ≫= _) = _ → _ =>
    let E := fresh in destruct x as [[[? ?] ?]|] eqn:E; [|done]; cbn [mbind option_bind];
    apply sample_loop_length in E; intros ?; simplify_eq; done
  end.
Lemma periodic_length (cp : AWG_Component F) t vp cp' vp' : calcAWGPeriodic cp t vp = Some (cp', vp') → length vp' = length vp.
Proof. unfold calcAWGPeriodic. cbv zeta. by_loop. Qed.
Lemma impulse_length (cp : AWG_Component F) t vp cp' vp' : calcAWGImpulse cp t vp = Some (cp', vp') → length vp' = length vp.
Proof. unfold calcAWGImpulse. cbv zeta. by_loop. Qed.
Lemma noise_length fuel now (cp : AWG_Component F) t vp rb cp' rb' vp' :
  calcAWGNoise fuel now cp t vp rb = Some (cp', rb', vp') → length vp' = length vp.
Proof. unfold calcAWGNoise. cbv zeta. by_loop. Qed.
Lemma stream_length (cp : AWG_Component F) s t vp cp' s' vp' :
  calcAWGStream cp s t vp = Some (cp', s', vp') → length vp' = length vp.
Proof. unfold calcAWGStream. cbv zeta. destruct (_ && _); [by_loop|by intros [= _ _ <-]]. Qed.
Lemma comp_length fuel now tm ep dly cp rb st vp v cp' rb' st' vp' :
  calcAWGComp (F := F) fuel now tm ep dly cp rb st vp = Some (v, cp', rb', st', vp') → length vp' = length vp.
Proof.
  unfold calcAWGComp. destruct (wtype cp =? awgNone); [by intros [= _ _ _ _ <-]|].
  destruct (_ <ᶠ _); [by intros [= _ _ _ _ <-]|]. destruct (_ || _).
  { destruct (calcAWGPeriodic _ _ _) as [[c p]|] eqn:E; [|done]. intros [= _ _ _ _ <-]. by eapply periodic_length. }
  destruct (_ =? _). { destruct (calcAWGImpulse _ _ _) as [[c p]|] eqn:E; [|done]. intros [= _ _ _ _ <-]. by eapply impulse_length. }
  destruct (_ || _). { destruct (calcAWGNoise _ _ _ _ _ _) as [[[c b] p]|] eqn:E; [|done]. intros [= _ _ _ _ <-]. by eapply noise_length. }
  destruct (_ =? _); [by intros [= _ _ _ _ <-]|]. destruct (_ =? _); [|by intros [= _ _ _ _ <-]].
  destruct (stream_index tm ep) as [k|]; [|done]. cbn [mbind option_bind].
  destruct (_ && _); [|by intros [= _ _ _ _ <-]]. destruct (calcAWGStream _ _ _ _) as [[[c p] q]|] eqn:E; [|done].
  cbn [mbind option_bind]. intros [= _ _ _ _ <-]. by eapply stream_length.
Qed.
Lemma comp_loop_page fuel now tm ep dly inv cs rbs st vp cs' rbs' st' vp' :
  comp_loop (F := F) fuel now tm ep dly inv cs rbs st vp = Some (cs', rbs', st', vp') → length vp' = length vp.
Proof.
  revert inv rbs st vp cs' rbs' st' vp'. induction cs as [|cp cs IH]; intros inv [|b rbs] st vp cs' rbs' st' vp' E;
    cbn [comp_loop] in E; try by injection E as _ _ _ <-.
  destruct (calcAWGComp _ _ _ _ _ cp b st vp) as [[[[[v cp1] b1] st1] vp1]|] eqn:Ec; [|done]. cbn [mbind option_bind] in E.
  apply comp_length in Ec as Hc. destruct (_ <? _); [by injection E as _ _ _ <-|].
  destruct (comp_loop _ _ _ _ _ _ cs rbs st1 vp1) as [[[[cs2 rbs2] st2] vp2]|] eqn:El; [|done].
  cbn [mbind option_bind] in E. injection E as _ _ _ <-. rewrite <- Hc. by eapply IH.
Qed.

Lemma sos_length (c0 c1 c2 c3 : F) h vp : length (awgSOS vp c0 c1 c2 c3 h).1 = length vp.
Proof.
  revert h. induction vp as [|v vp IH]; intros h; [done|]. cbn [awgSOS]. destruct (awg_sos_step _ _ _ _ _ _) as [y h'].
  specialize (IH h'). destruct (awgSOS vp _ _ _ _ h'). cbn [fst length] in *. by rewrite IH.
Qed.
Lemma sos_loop_length (ss : list (F * F * F * F)) hs vp : length (sos_loop ss hs vp).2 = length vp.
Proof.
  revert hs vp. induction ss as [|[[[c0 c1] c2] c3] ss IH]; intros [|h hs] vp; try done. cbn [sos_loop].
  pose proof (sos_length c0 c1 c2 c3 h vp) as Hs. destruct (awgSOS vp c0 c1 c2 c3 h) as [vp1 h1].
  specialize (IH hs vp1). destruct (sos_loop ss hs vp1). cbn [fst snd] in *. congruence.
Qed.
Lemma filter_length (c : filter_coeff_t F) vp : length (calcAWGFilter c vp).2 = length vp.
Proof.
  unfold calcAWGFilter. destruct (valid c); [|done]. cbn [negb].
  pose proof (sos_loop_length (sos c) (hist c) ((λ v, fsingle (v ⊗ fgain c)) <$> vp)) as Hs.
  destruct (sos_loop _ _ _). cbn [snd] in *. by rewrite Hs, length_fmap.
Qed.
Lemma gain_loop_length (a : AWG_Gain F) dur dt g t vp : length (gain_loop a dur dt g t vp).2 = length vp.
Proof.
  revert g t. induction vp as [|v vp IH]; intros g t; [done|]. cbn [gain_loop]. cbv zeta.
  specialize (IH (ramp_gain a dur t) (t ⊕ dt)). destruct (gain_loop _ _ _ _ _ vp) as [[g' t'] vp']. cbn [snd length] in *. by rewrite IH.
Qed.
Lemma gain_length tm ep (a : AWG_Gain F) vp : length (calcAWGGain tm ep a vp).2 = length vp.
Proof.
  unfold calcAWGGain. cbv zeta. destruct (negb (_ =? 2)); [destruct (_ ≠ᶠ _); cbn [snd]; by rewrite ?length_fmap|].
  match goal with |- context [gain_loop ?a ?b ?c ?d ?e ?f] => pose proof (gain_loop_length a b c d e f) as Hg; destruct (gain_loop a b c d e f) as [[g t] vp'] end.
  done.
Qed.

(** ** The slot *)
Definition active (g : AWG_ConfigBlock F) : bool := has AWG_CONFIG g && has AWG_ENABLE g.
Lemma process_cases fuel now b i tm ep b' r out :
  processAWG fuel now b (Z.of_nat i) tm ep = Some (b', r, out) → (i < MAX_NUM_AWG)%nat →
  b' = b ∧ out = None ∧ active (AWG b !!! i) = false ∨
  active (AWG b !!! i) = true ∧ ∃ vp cs rbs st c a, out = Some vp ∧ length vp = Z.to_nat (pagesize (AWG b !!! i)) ∧
    b' = mkBank (<[i := set_tproc (epoch_time tm ep) (set_gain a (set_comp cs rbs (AWG b !!! i)))]> (AWG b))
           (<[i := st]> (awgstream b)) (<[i := c]> (awgfilter b)).
Proof.
  intros E Hi. unfold processAWG, in_bank in E. rewrite (proj2 (Z.leb_le _ _)), (proj2 (Z.ltb_lt _ _)) in E by lia.
  cbn [negb andb] in E. rewrite Nat2Z.id in E. unfold active.
  destruct (has AWG_CONFIG _); cbn [negb orb andb] in *; [|injection E as <- _ <-; by left].
  destruct (has AWG_ENABLE _); cbn [negb] in *; [|injection E as <- _ <-; by left]. right. split; [done|].
  destruct (comp_loop _ _ _ _ _ _ _ _ _ _) as [[[[cs rbs] st] vp1]|] eqn:El; [|done]. cbn [mbind option_bind] in E.
  apply comp_loop_page in El. rewrite length_replicate in El.
  pose proof (filter_length (awgfilter b !!! i) vp1) as Hf. destruct (calcAWGFilter _ _) as [c vp2].
  pose proof (gain_length tm ep (gain (AWG b !!! i)) vp2) as Hg. destruct (calcAWGGain _ _ _ _) as [a vp3].
  cbn [snd] in *. injection E as <- _ <-. exists vp3, cs, rbs, st, c, a. split; [done|]. split; [congruence|done].
Qed.

Definition same_slot (i : nat) b b' : Prop :=
  AWG b' !!! i = AWG b !!! i ∧ awgstream b' !!! i = awgstream b !!! i ∧ awgfilter b' !!! i = awgfilter b !!! i.
Lemma process_length fuel now b i tm ep b' r vp :
  processAWG fuel now b (Z.of_nat i) tm ep = Some (b', r, Some vp) → (i < MAX_NUM_AWG)%nat →
  length vp = Z.to_nat (pagesize (AWG b !!! i)).
Proof. intros E Hi. destruct (process_cases _ _ _ _ _ _ _ _ _ E Hi) as [(_ & ? & _)|(_ & ? & ? & ? & ? & ? & ? & [= <-] & ? & _)]; done. Qed.
Lemma process_binding fuel now b i tm ep b' r out :
  processAWG fuel now b (Z.of_nat i) tm ep = Some (b', r, out) → (i < MAX_NUM_AWG)%nat → length (AWG b) = MAX_NUM_AWG →
  length (AWG b') = MAX_NUM_AWG ∧
  (∀ k, k ≠ i → same_slot k b b') ∧
  let g := AWG b !!! i in let g' := AWG b' !!! i in
  otype g' = otype g ∧ ID g' = ID g ∧ pagesize g' = pagesize g ∧ status g' = status g.
Proof.
  intros E Hi Hl. destruct (process_cases _ _ _ _ _ _ _ _ _ E Hi) as [(-> & _)|(_ & vp & cs & rbs & st & c & a & _ & _ & ->)]; [done|].
  cbn [AWG]. rewrite length_insert. split; [done|]. split.
  - intros k Hk. split_and!; cbn [AWG awgstream awgfilter]; by rewrite list_lookup_total_insert_ne.
  - cbv zeta. rewrite list_lookup_total_insert_eq by lia. done.
Qed.
(** What comes out for slots that are the same. *)
Lemma process_local fuel now b b2 i tm ep :
  same_slot i b b2 → length (AWG b) = MAX_NUM_AWG → length (AWG b2) = MAX_NUM_AWG → (i < MAX_NUM_AWG)%nat →
  (λ '(b', _, out), (AWG b' !!! i, out)) <$> processAWG fuel now b2 (Z.of_nat i) tm ep =
  (λ '(b', _, out), (AWG b' !!! i, out)) <$> processAWG fuel now b (Z.of_nat i) tm ep.
Proof.
  intros (E1 & E2 & E3) Hl Hl2 Hi. unfold processAWG, in_bank. rewrite (proj2 (Z.leb_le _ _)), (proj2 (Z.ltb_lt _ _)) by lia.
  cbn [negb andb]. rewrite Nat2Z.id, E1, E2, E3. destruct (_ || _); cbn [fmap option_fmap option_map]; [by rewrite E1|].
  destruct (comp_loop _ _ _ _ _ _ _ _ _ _) as [[[[cs rbs] st] vp1]|]; [|done]. cbn [mbind option_bind].
  destruct (calcAWGFilter _ _) as [c vp2], (calcAWGGain _ _ _ _) as [a vp3]. cbn [fmap option_fmap option_map AWG].
  by rewrite !list_lookup_total_insert_eq by lia.
Qed.
End slot.
End AwgSlot.
