(* ===== verification/AwgOutProps.v ===== *)
(** * Waveform generators: from the samples to the front end ([AwgOut.v])

    Memory is that of the model's area; a channel is what starts at the address of
    a slot in the block of an epoch. *)
From stdpp Require Import gmap.
From S2P Require Import Prelude CFloat Iir GdsRand AwgFunc Awg AwgCalc AwgSlot Rm TpServer TpIndex AwgOut.
Import AwgFunc Rm AwgOut.
Local Open Scope Z_scope.

Module AwgOutProps.
#[local] Existing Instance Awg.awg_inhabited.
Abbreviation active := AwgSlot.active.
Abbreviation same_slot := AwgSlot.same_slot.

Section props.
Context {F : Type} `{FloatOps F, Libm F}.
Implicit Types (rm : Rm F) (mem : Area F) (p : awgpagebuf_t F) (ps : list (awgpagebuf_t F)) (o : Out F) (b : Awg.Bank F).

(** ** Addresses *)
Lemma channel_addr_eq lsc m slot ep : 0 <= ep < 16 →
  channel_addr lsc m slot ep = DAQ_DATA_BASE_ADD + ep * UNIT_ID_TO_DATA_BLOCKSIZE + slot * (4 * (channel_length lsc m + 1)).
Proof.
  intros He. unfold channel_addr, CHN_ADDR, _LSCX_BASE, _LSCX_SIZE, UNIT_ID_TO_DATA_OFFSET, DATA_BLOCKS, TP_DATUM_LEN.
  rewrite Z.rem_small by done. lia.
Qed.
Lemma lsc_length m : channel_length true m = 1024 * m.
Proof. reflexivity. Qed.
Lemma asc_length m : channel_length false m = 128 * m.
Proof. reflexivity. Qed.

(** ** Status words *)
Lemma load_S (a : Z) n mem : load a (S n) mem = mem !!! a :: load (a + 4) n mem.
Proof.
  unfold load. cbn [seq fmap list_fmap]. f_equal; [f_equal; lia|]. rewrite <- fmap_S_seq, <- list_fmap_compose.
  apply list_fmap_ext. intros k i _. cbn. f_equal. lia.
Qed.
Lemma load_same (a : Z) n mem mem' :
  (∀ x, a <= x < a + 4 * Z.of_nat n → mem !! x = mem' !! x) → load a n mem = load a n mem'.
Proof.
  intros Hx. unfold load. apply list_fmap_ext. intros k i Hk. apply lookup_seq in Hk as [-> Hk].
  rewrite !lookup_total_alt. by rewrite Hx by lia.
Qed.

Lemma invalidate_slot_area0 lsc m ep k rm :
  mapped rm →
  mapped (invalidate_slot lsc m ep k rm) ∧
  area0 (invalidate_slot lsc m ep k rm) = <[channel_addr lsc m (Z.of_nat k) ep := WInt _INVALID_RM_CHANNEL]> (area0 rm).
Proof.
  intros Hm. unfold invalidate_slot. pose proof (rmWrite_area0 rm [WInt _INVALID_RM_CHANNEL] (channel_addr lsc m (Z.of_nat k) ep) Hm) as Hw.
  destruct (rmWrite rm 0 _ _) as [rm' r]. destruct Hw as (Hm' & _ & Ha). cbn [fst]. rewrite rmWrite_absent by done. cbn [fst]. by rewrite Ha.
Qed.

(** The word at [x] after [n] slots have been marked. *)
Lemma invalidate_slots lsc m ep n rm :
  mapped rm →
  let rm' := for_up 0 n (invalidate_slot lsc m ep) rm in
  mapped rm' ∧
  (∀ k, (k < n)%nat → area0 rm' !! channel_addr lsc m (Z.of_nat k) ep = Some (WInt _INVALID_RM_CHANNEL)) ∧
  ∀ x, area0 rm' !! x = area0 rm !! x ∨
       area0 rm' !! x = Some (WInt _INVALID_RM_CHANNEL) ∧ ∃ k, (k < n)%nat ∧ x = channel_addr lsc m (Z.of_nat k) ep.
Proof.
  intros Hm. induction n as [|n (IH1 & IH2 & IH3)]; cbv zeta; [split; [done|]; split; [lia|by left]|].
  rewrite for_up_S. cbn [Nat.add]. destruct (invalidate_slot_area0 lsc m ep n _ IH1) as [Hm' ->]. split; [done|]. split.
  - intros k Hk. rewrite lookup_insert. case_decide as E; [done|]. apply IH2. assert (k ≠ n) by congruence. lia.
  - intros x. rewrite lookup_insert. case_decide as E; [right; split; [done|]; exists n; split; [lia|done]|].
    destruct (IH3 x) as [->|(-> & k & Hk & ->)]; [by left|]. right. split; [done|]. exists k. split; [lia|done].
Qed.
Lemma invalidateTPslots_spec m ep rm :
  mapped rm →
  mapped (invalidateTPslots m ep rm) ∧
  (∀ k, (k < TP_EX_NUM)%nat → area0 (invalidateTPslots m ep rm) !! channel_addr true m (Z.of_nat k) ep = Some (WInt _INVALID_RM_CHANNEL)) ∧
  ∀ x, (∀ lsc k, (k < TP_EX_NUM)%nat → x ≠ channel_addr lsc m (Z.of_nat k) ep) →
       area0 (invalidateTPslots m ep rm) !! x = area0 rm !! x.
Proof.
  intros Hm. unfold invalidateTPslots. destruct (invalidate_slots true m ep TP_EX_NUM rm Hm) as (Hm1 & Hl & Hx).
  destruct (invalidate_slots false m ep TP_EX_NUM _ Hm1) as (Hm2 & _ & Hy). split; [done|]. split.
  - intros k Hk. destruct (Hy (channel_addr true m (Z.of_nat k) ep)) as [->|[-> _]]; [by apply Hl|done].
  - intros x Hn. destruct (Hy x) as [->|(_ & k & Hk & E)]; [|by destruct (Hn false k)].
    destruct (Hx x) as [->|(_ & k & Hk & E)]; [done|by destruct (Hn true k)].
Qed.

(** ** Pages *)
Definition page_at m p (x : Z) : Prop :=
  ∃ a, valid_page m p = Some a ∧ a <= x < a + 4 * Z.of_nat (length (page_words p)).

Lemma copy_page_area0 m rm p :
  mapped rm →
  mapped (copy_page m rm p) ∧
  area0 (copy_page m rm p) = match valid_page m p with Some a => store a (page_words p) (area0 rm) | None => area0 rm end.
Proof.
  intros Hm. unfold copy_page. destruct (valid_page m p) as [a|]; [|done].
  cut (∀ n, mapped (for_up 0 (S n) (λ _ rm, (rmWrite rm 0 (page_words p) a).1) rm) ∧
            area0 (for_up 0 (S n) (λ _ rm, (rmWrite rm 0 (page_words p) a).1) rm) = store a (page_words p) (area0 rm)).
  { intros Hc. apply (Hc 4%nat). }
  assert (H1 : ∀ rm', mapped rm' → mapped (rmWrite rm' 0 (page_words p) a).1 ∧
                 area0 (rmWrite rm' 0 (page_words p) a).1 = store a (page_words p) (area0 rm')).
  { intros rm' Hm'. pose proof (rmWrite_area0 rm' (page_words p) a Hm') as Hw. destruct (rmWrite _ _ _ _). tauto. }
  induction n as [|n [IH1 IH2]]; [by apply H1|]. rewrite for_up_S. destruct (H1 _ IH1) as [Hm' ->].
  split; [done|]. rewrite IH2. apply store_idem.
Qed.

Lemma copy_pages_outside m ps rm x :
  mapped rm → Forall (λ p, ¬ page_at m p x) ps →
  mapped (foldl (copy_page m) rm ps) ∧ area0 (foldl (copy_page m) rm ps) !! x = area0 rm !! x.
Proof.
  intros Hm Hp. revert rm Hm. induction Hp as [|p ps Hp _ IH]; intros rm Hm; [done|]. cbn [foldl].
  destruct (copy_page_area0 m rm p Hm) as [Hm' Ha]. destruct (IH _ Hm') as [H1 ->]. split; [done|]. rewrite Ha.
  destruct (valid_page m p) as [a|] eqn:Ea; [|done]. apply store_outside.
  destruct (decide (a <= x < a + 4 * Z.of_nat (length (page_words p)))); [|lia]. destruct Hp. by exists a.
Qed.
Lemma copy_pages_mapped m ps rm : mapped rm → mapped (foldl (copy_page m) rm ps).
Proof.
  revert rm. induction ps as [|p ps IH]; intros rm Hm; [done|]. cbn [foldl]. apply IH. by apply copy_page_area0.
Qed.

(** A page whose place no other page touches arrives. *)
Lemma copy_pages_at m ps rm i p a :
  mapped rm → ps !! i = Some p → valid_page m p = Some a →
  (∀ k p' x, k ≠ i → ps !! k = Some p' → page_at m p x → ¬ page_at m p' x) →
  load a (length (page_words p)) (area0 (foldl (copy_page m) rm ps)) = page_words p.
Proof.
  intros Hm Hi Ha Hd. assert (Hlt := lookup_lt_Some _ _ _ Hi).
  rewrite <- (take_drop_middle ps i p Hi), foldl_app. cbn [foldl].
  pose proof (copy_pages_mapped m (take i ps) rm Hm) as Hm1.
  destruct (copy_page_area0 m _ p Hm1) as [Hm2 E]. rewrite Ha in E.
  rewrite <- (load_store a (page_words p) (area0 (foldl (copy_page m) rm (take i ps)))) at 2. rewrite <- E.
  apply load_same. intros x Hx. apply copy_pages_outside; [done|].
  apply Forall_lookup. intros k p' Hk. rewrite lookup_drop in Hk. apply (Hd (S i + k)%nat); [lia|done|]. by exists a.
Qed.
Lemma copyRMdata_eq m bf rm : copyRMdata m bf rm = foldl (copy_page m) rm (buf bf).
Proof. reflexivity. Qed.
Lemma page_words_length p : (length (page_words p) <= S (Z.to_nat (pagelen p)))%nat.
Proof. unfold page_words. cbn [length]. rewrite length_fmap, length_take. lia. Qed.

(** ** The pages of an epoch *)
Section epoch.
Context (fuel : nat) (m now : Z) (t : awgtp_t * awgtp_t) (tm ep : Z).

Definition with_samples p (out : list F) : awgpagebuf_t F := mkPage (otype p) (optr p) (onum p) (pagelen p) out.
Definition slot_page b (i : nat) p : option (awgpagebuf_t F) :=
  '(g, out) ← (λ '(b', _, out), (Awg.AWG b' !!! i, out)) <$> AwgCalc.processAWG fuel now b (Z.of_nat i) tm ep;
  match out with None => Some p | Some vp => flushAWG m t g tm ep (with_samples p vp) end.
Lemma slot_page_local b b2 i p :
  same_slot i b b2 → length (Awg.AWG b) = Awg.MAX_NUM_AWG → length (Awg.AWG b2) = Awg.MAX_NUM_AWG → (i < Awg.MAX_NUM_AWG)%nat →
  slot_page b2 i p = slot_page b i p.
Proof. intros. unfold slot_page. by rewrite (AwgSlot.process_local fuel now b b2 i tm ep). Qed.

Lemma process_slot_cases i b ps b' ps' :
  process_slot fuel m now t tm ep i (Some (b, ps)) = Some (b', ps') → (i < Awg.MAX_NUM_AWG)%nat →
  length (Awg.AWG b) = Awg.MAX_NUM_AWG → length ps = Awg.MAX_NUM_AWG →
  length (Awg.AWG b') = Awg.MAX_NUM_AWG ∧ (∀ k, k ≠ i → same_slot k b b') ∧
  length ps' = Awg.MAX_NUM_AWG ∧ (∀ k, k ≠ i → ps' !!! k = ps !!! k) ∧ slot_page b i (ps !!! i) = Some (ps' !!! i).
Proof.
  intros E Hi Hl Hp. unfold process_slot in E. cbn [mbind option_bind] in E. unfold slot_page.
  destruct (AwgCalc.processAWG fuel now b (Z.of_nat i) tm ep) as [[[b1 r] out]|] eqn:Ep; [|done].
  cbn [mbind option_bind fmap option_fmap option_map] in *.
  destruct (AwgSlot.process_binding _ _ _ _ _ _ _ _ _ Ep Hi Hl) as (H1 & H2 & _).
  destruct out as [vp|]; [|injection E as <- <-; done]. unfold with_samples. cbv zeta in E.
  destruct (flushAWG _ _ _ _ _ _) as [p'|]; [|done]. injection E as <- <-. split_and!; try done.
  - by rewrite length_insert.
  - intros k Hk. by apply list_lookup_total_insert_ne.
  - rewrite list_lookup_total_insert_eq by lia. done.
Qed.
Lemma processAll_upto n b ps b' ps' :
  (n <= Awg.MAX_NUM_AWG)%nat → length (Awg.AWG b) = Awg.MAX_NUM_AWG → length ps = Awg.MAX_NUM_AWG →
  for_up 0 n (process_slot fuel m now t tm ep) (Some (b, ps)) = Some (b', ps') →
  length (Awg.AWG b') = Awg.MAX_NUM_AWG ∧ length ps' = Awg.MAX_NUM_AWG ∧
  (∀ i, (n <= i)%nat → same_slot i b b' ∧ ps' !!! i = ps !!! i) ∧
  ∀ i, (i < n)%nat → slot_page b i (ps !!! i) = Some (ps' !!! i).
Proof.
  intros Hn Hl Hp. revert b' ps'. induction n as [|n IH]; intros b' ps'; [intros [= <- <-]; split_and!; [done..|lia]|].
  rewrite for_up_S. cbn [Nat.add]. destruct (for_up 0 n _ _) as [[b1 ps1]|]; [|done]. intros E.
  destruct (IH ltac:(lia) b1 ps1 eq_refl) as (L1 & L2 & L3 & L4).
  destruct (process_slot_cases n b1 ps1 b' ps' E ltac:(lia) L1 L2) as (H1 & H2 & H3 & H4 & H5). split_and!; [done..| |].
  - intros i Hi. destruct (L3 i ltac:(lia)) as [[S1 [S2 S3]] S4], (H2 i ltac:(lia)) as (T1 & T2 & T3).
    split; [split_and!; congruence|]. rewrite H4 by lia. done.
  - intros i Hi. destruct (decide (i = n)) as [->|Hne]; [|rewrite H4 by done; apply L4; lia].
    destruct (L3 n ltac:(lia)) as [Hs <-]. rewrite <- H5. symmetry. apply slot_page_local; try done.
Qed.

(** *** The slot of a number *)
Lemma find_tp_spec x l k : find_tp x l k = -1 ∧ x ∉ l ∨ ∃ j : nat, find_tp x l k = k + Z.of_nat j ∧ l !! j = Some x.
Proof.
  revert k. induction l as [|y l IH]; intros k; [left; split; [done|]; by apply not_elem_of_nil|]. cbn [find_tp].
  destruct (Z.eqb_spec y x) as [->|Hn]; [right; exists 0%nat; split; [lia|done]|].
  destruct (IH (k + 1)) as [[-> Hx]|(j & -> & Hj)]; [left; split; [done|]; apply not_elem_of_cons; split; [congruence|done]|].
  right. exists (S j). split; [lia|done].
Qed.
Definition list_in_force : list Z := take TP_EX_NUM (lsctp (in_force t tm ep)).
(** What a generator looks for in the list, and the slot it gets. *)
Definition sought (g : Awg.AWG_ConfigBlock F) : option Z :=
  if Awg.otype g =? Awg.awgLSCtp then Some (Awg.ID g)
  else if Awg.otype g =? Awg.awgDAC then Some (Awg.TP_ID_DAC_OFS + Awg.ID g) else None.
Definition gets (g : Awg.AWG_ConfigBlock F) (j : nat) : Prop :=
  ∃ x, sought g = Some x ∧ 0 < x ∧ find_tp x list_in_force 0 = Z.of_nat j.
Lemma gets_lookup g j : gets g j → ∃ x, sought g = Some x ∧ list_in_force !! j = Some x.
Proof.
  intros (x & Hs & _ & Hf). exists x. split; [done|]. destruct (find_tp_spec x list_in_force 0) as [[E _]|(k & E & Hk)]; [lia|].
  replace j with k by lia. done.
Qed.
Lemma gets_lt g j : gets g j → (j < TP_EX_NUM)%nat.
Proof.
  intros Hg. destruct (gets_lookup g j Hg) as (x & _ & Hx). apply lookup_lt_Some in Hx. unfold list_in_force in Hx.
  rewrite length_take in Hx. lia.
Qed.
Lemma getTPslot_lsc x :
  getTPslot m t Awg.awgLSCtp x tm ep =
  if x <=? 0 then (-1, None)
  else let j := find_tp x list_in_force 0 in (j, Some (if 0 <=? j then Some (channel_addr true m j ep) else None)).
Proof. unfold getTPslot. cbn [Z.eqb Awg.awgLSCtp Pos.eqb orb negb]. by destruct (x <=? 0). Qed.

(** The page of a generator: with a place when the list gives it a slot. *)
Lemma flush_valid g p p' a :
  Awg.otype g ≠ Awg.awgASCtp → flushAWG m t g tm ep p = Some p' → valid_page m p' = Some a →
  page p' = page p ∧ pagelen p' = 1024 * m ∧ ∃ j, gets g j ∧ a = channel_addr true m (Z.of_nat j) ep.
Proof.
  intros Ha Ef Hv. unfold flushAWG in Ef. rewrite (proj2 (Z.eqb_neq _ _) Ha), orb_false_r in Ef. unfold gets, sought.
  destruct (Z.eqb_spec (Awg.otype g) Awg.awgLSCtp) as [El|El].
  - rewrite El, getTPslot_lsc in Ef. destruct (Z.leb_spec (Awg.ID g) 0) as [Hz|Hz].
    { cbn [through] in Ef. injection Ef as <-. done. }
    cbv zeta in Ef. destruct (find_tp_spec (Awg.ID g) list_in_force 0) as [[E _]|(j & E & _)].
    { rewrite E in Ef. injection Ef as <-. done. }
    rewrite E, (proj2 (Z.leb_le 0 _)) in Ef by lia. injection Ef as <-. unfold valid_page in Hv. cbn in Hv.
    destruct (Z.eqb_spec (Awg.pagesize g) (Awg._LSCTP_PAGE m)) as [Es|]; [|done]. cbn in Hv. injection Hv as <-.
    split; [done|]. split; [done|]. exists j. split; [|f_equal; lia]. exists (Awg.ID g). split_and!; [done..|lia].
  - destruct (Z.eqb_spec (Awg.otype g) Awg.awgDAC) as [Ed|Ed].
    + rewrite getTPslot_lsc in Ef. destruct (Z.leb_spec (Awg.TP_ID_DAC_OFS + Awg.ID g) 0) as [Hz|Hz].
      { injection Ef as <-. unfold valid_page in Hv. cbn in Hv. by destruct (negb _). }
      cbv zeta in Ef. destruct (find_tp_spec (Awg.TP_ID_DAC_OFS + Awg.ID g) list_in_force 0) as [[E _]|(j & E & _)].
      { rewrite E in Ef. injection Ef as <-. unfold valid_page in Hv. cbn in Hv. by destruct (negb _). }
      rewrite E, (proj2 (Z.leb_le 0 _)), (proj2 (Z.ltb_ge _ 0)) in Ef by lia. injection Ef as <-. unfold valid_page in Hv. cbn in Hv.
      destruct (Z.eqb_spec (Awg.pagesize g) (Awg._LSCTP_PAGE m)) as [Es|]; [|done]. cbn in Hv. injection Hv as <-.
      split; [done|]. split; [done|]. exists j. split; [|f_equal; lia]. eexists. split_and!; [done..|lia].
    + destruct (Awg.otype g =? Awg.awgDS340); [destruct (0 <? _); by injection Ef as <-|].
      destruct (_ =? Awg.awgMem); [done|]. by injection Ef as <-.
Qed.
Lemma flush_gets g p j :
  Awg.otype g = Awg.awgLSCtp → gets g j →
  flushAWG m t g tm ep p =
    Some (mkPage Awg.awgLSCtp (Some (channel_addr true m (Z.of_nat j) ep)) (Awg.ID g) (Awg.pagesize g) (page p)).
Proof.
  intros El (x & Hs & Hx & Hf). unfold sought in Hs. rewrite El in Hs. injection Hs as <-. unfold flushAWG.
  rewrite El, getTPslot_lsc, (proj2 (Z.leb_gt _ 0)) by lia. cbv zeta. rewrite Hf, (proj2 (Z.leb_le 0 _)) by lia. done.
Qed.
End epoch.
(** ** One round of both tasks *)
Definition settled_buf (bf : awgbuf_t F) : Prop := ready bf = 0 ∧ length (buf bf) = Awg.MAX_NUM_AWG.
Definition blank_buf (bf : awgbuf_t F) : Prop := Forall (λ p, otype p = awgNone) (buf bf).
(** No buffer is waiting; [quiet]: nor is there a page in one.  This is so at the
    start and, as [cycle_spec] shows, again after each round in time. *)
Definition settled o : Prop := length (bufs o) = _MAX_BUF ∧ Forall settled_buf (bufs o) ∧ count o = 0 ∧ copying o = None.
Definition blank o : Prop := Forall blank_buf (bufs o).
Definition quiet o : Prop := settled o ∧ blank o.
Lemma settled_at o k : settled o → 0 <= k < 16 → settled_buf (bufs o !!! Z.to_nat k).
Proof. intros (Hl & Hf & _) Hk. eapply Forall_lookup_total_1; [exact Hf|]. rewrite Hl. unfold _MAX_BUF. lia. Qed.
Lemma quiet_at o k : quiet o → 0 <= k < 16 → blank_buf (bufs o !!! Z.to_nat k).
Proof. intros [(Hl & _) Hf] Hk. eapply Forall_lookup_total_1; [exact Hf|]. rewrite Hl. unfold _MAX_BUF. lia. Qed.
Lemma quiet_init b rm : quiet (initAWG b rm).
Proof. split; [split; [done|]; split; [|done]|]; apply Forall_replicate; [done|]. by apply Forall_replicate. Qed.

Definition cycle (fuel : nat) (m node now : Z) (c : TpIndex.Cache) (tai ep tstart : Z) o : option (Out F) :=
  o ← heartbeat fuel m node now c tai ep o; o ← copy_begin tstart o; Some (copy_end m o).
Definition on_time (tai ep tstart : Z) : Prop :=
  tstart <= s64 (s64 (ahead tai ep).1 * _ONESEC + (ahead tai ep).2 * _EPOCH).

Lemma ahead_epoch tai ep : 0 <= ep < 16 → 0 <= (ahead tai ep).2 < 16.
Proof. intros He. unfold ahead, _AHEAD, NUMBER_OF_EPOCHS. cbv zeta. destruct (Z.ltb_spec (ep + 3) 16); cbn [snd]; lia. Qed.

Lemma oldest_idle (l : list (awgbuf_t F)) i best : Forall (λ bf, ready bf = 0) l → oldest l i best = best.
Proof. intros Hl. revert i. induction Hl as [|bf l Hr _ IH]; intros i; [done|]. cbn [oldest]. rewrite Hr. apply IH. Qed.
Lemma oldest_only (l : list (awgbuf_t F)) k bf :
  Forall (λ bf, ready bf = 0) l → ready bf = 1 → (k < length l)%nat → oldest (<[k := bf]> l) 0 None = Some (k, bf).
Proof.
  intros Hl Hr Hk. rewrite insert_take_drop by done.
  assert (G : ∀ (l1 l2 : list (awgbuf_t F)) i, Forall (λ bf, ready bf = 0) l1 → Forall (λ bf, ready bf = 0) l2 →
                oldest (l1 ++ bf :: l2) i None = Some ((i + length l1)%nat, bf)).
  { intros l1 l2 i H1 H2. revert i. induction H1 as [|b1 l1 E _ IH]; intros i; cbn [app oldest length].
    - rewrite Hr. cbn [Z.eqb Pos.eqb]. rewrite oldest_idle by done. do 2 f_equal. lia.
    - rewrite E. cbn [Z.eqb]. rewrite IH. do 2 f_equal. lia. }
  rewrite G by (by apply Forall_take || by apply Forall_drop). rewrite length_take. do 2 f_equal. lia.
Qed.

Lemma processAll_length fuel m now t tm ep b ps b' ps' :
  processAllAWG fuel m now t tm ep b ps = Some (b', ps') → length ps' = length ps.
Proof.
  unfold processAllAWG. generalize Awg.MAX_NUM_AWG. intros n. revert b' ps'.
  induction n as [|n IH]; intros b' ps' E; [by injection E as _ <-|].
  rewrite for_up_S in E. destruct (for_up 0 n _ _) as [[b1 ps1]|]; [|done]. specialize (IH b1 ps1 eq_refl).
  unfold process_slot in E. cbn [mbind option_bind] in E. destruct (AwgCalc.processAWG _ _ _ _ _ _) as [[[b2 r] out]|]; [|done].
  cbn [mbind option_bind] in E. destruct out as [vp|]; [|by injection E as _ <-]. cbv zeta in E.
  destruct (flushAWG _ _ _ _ _ _) as [p'|]; [|done]. injection E as _ <-. by rewrite length_insert.
Qed.
(** Slots that are off leave the pages as they are. *)
Lemma processAll_off fuel m now t tm ep b ps :
  (∀ i, (i < Awg.MAX_NUM_AWG)%nat → active (Awg.AWG b !!! i) = false) →
  processAllAWG fuel m now t tm ep b ps = Some (b, ps).
Proof.
  intros Hoff. unfold processAllAWG. apply (for_up_inv (λ st, st = Some (b, ps))); [done|]. intros i st Hi ->.
  unfold process_slot. cbn [mbind option_bind]. unfold AwgCalc.processAWG, Awg.in_bank.
  rewrite (proj2 (Z.leb_le _ _)), (proj2 (Z.ltb_lt _ _)) by lia. cbn [andb negb]. cbv zeta. rewrite Nat2Z.id.
  specialize (Hoff i ltac:(lia)). unfold AwgSlot.active in Hoff.
  destruct (Awg.has Awg.AWG_CONFIG _); [|done]. cbn [andb] in Hoff. rewrite Hoff. done.
Qed.

#[local] Strategy opaque [invalidateTPslots processAllAWG].
Lemma retire_in (q : bool) (f : Awg.Bank F → Awg.Bank F) t' o o1 :
  (let o := if q then set_awgtp t' o else o in Some (set_bank (f (bank o)) o)) = Some o1 →
  o1 = mkOut (f (bank o)) (bufs o) (count o) (if q then t' else awgtp o) (copying o) (rmem o).
Proof. destruct q; intros [= <-]; reflexivity. Qed.
Definition next_awgtp (node : Z) (c : TpIndex.Cache) (tai ep : Z) (t : awgtp_t * awgtp_t) : awgtp_t * awgtp_t :=
  if ep =? TpIndex.TESTPOINT_VALID1 then (readTPinfo c node (u64 (tai + 1)) t).1 else t.
Lemma heartbeat_spec fuel m node now c tai ep o o1 :
  heartbeat fuel m node now c tai ep o = Some o1 → 0 <= ep < 16 →
  let '(tm, ae) := ahead tai ep in
  ∃ b' ps',
    processAllAWG fuel m now (awgtp o) tm ae (bank o) (buf (bufs o !!! Z.to_nat ae)) = Some (b', ps') ∧
    o1 = mkOut (Awg.retireAWGComp (s64 (s64 (s64 tai * _ONESEC + ep * _EPOCH) + (_AHEAD - 1) * _EPOCH)) b')
           (<[Z.to_nat ae := mkBuf 1 tm ae ps']> (bufs o)) (count o + 1) (next_awgtp node c tai ep (awgtp o)) (copying o)
           (invalidateTPslots m ae (rmem o)).
Proof.
  intros E He. pose proof (ahead_epoch tai ep He) as Ha. unfold heartbeat in E.
  destruct (ahead tai ep) as [tm ae]. cbn [snd] in Ha. cbn [awgtp set_rmem bank bufs] in E. rewrite Z.rem_small in E by exact Ha.
  destruct (processAllAWG _ _ _ _ _ _ _ _) as [[b' ps']|]; [|done]. cbn [mbind option_bind] in E.
  exists b', ps'. apply retire_in in E. split; [reflexivity|exact E].
Qed.
(** The only buffer that is ready is copied, when it is in time. *)
Lemma copy_spec m tstart o k bf :
  Forall (λ bf, ready bf = 0) (bufs o) → ready bf = 1 → (k < length (bufs o))%nat → count o = 0 → copying o = None →
  tstart <= buffer_time bf →
  copy_end m <$> copy_begin tstart (mkOut (bank o) (<[k := bf]> (bufs o)) (count o + 1) (awgtp o) None (rmem o)) =
  Some (mkOut (bank o) (<[k := mkBuf 0 (time bf) (epoch bf) (reset_page <$> buf bf)]> (bufs o)) 0 (awgtp o) None
          (copyRMdata m bf (rmem o))).
Proof.
  intros Hf Hr Hk Hc Hp Ht. unfold copy_begin, set_count, set_bufs. cbn [bank bufs count awgtp copying rmem]. rewrite Hc.
  rewrite oldest_only by done. rewrite (proj2 (Z.ltb_ge (buffer_time bf) tstart)) by exact Ht.
  change (0 + 1 <=? 0) with false. change (_MAX_BEHIND <? 0 + 1 - 1) with false. change (0 + 1 - 1) with 0.
  cbn [orb fmap option_fmap option_map]. unfold copy_end, set_copying, set_rmem, set_bufs. cbn [bank bufs count awgtp copying rmem].
  rewrite list_lookup_total_insert_eq by (by rewrite length_insert). cbn [set_ready time epoch buf]. by rewrite !list_insert_insert_eq.
Qed.
Lemma cycle_spec fuel m node now c tai ep tstart o o' :
  settled o → 0 <= ep < 16 → on_time tai ep tstart → cycle fuel m node now c tai ep tstart o = Some o' →
  let '(tm, ae) := ahead tai ep in
  ∃ b' ps',
    processAllAWG fuel m now (awgtp o) tm ae (bank o) (buf (bufs o !!! Z.to_nat ae)) = Some (b', ps') ∧
    rmem o' = foldl (copy_page m) (invalidateTPslots m ae (rmem o)) ps' ∧ settled o' ∧ (blank o → blank o').
Proof.
  intros Hset He Ht E. pose proof Hset as (Hl & Hi & Hc & Hp). pose proof (ahead_epoch tai ep He) as Ha. unfold cycle in E.
  destruct (heartbeat _ _ _ _ _ _ _ _) as [o1|] eqn:Eh; [|done]. cbn [mbind option_bind] in E.
  apply heartbeat_spec in Eh; [|done]. unfold on_time in Ht. destruct (ahead tai ep) as [tm ae]. cbn [fst snd] in *.
  destruct Eh as (b' & ps' & Epr & E1). set (t' := next_awgtp node c tai ep (awgtp o)) in *. exists b', ps'. split; [exact Epr|].
  assert (Hk : (Z.to_nat ae < length (bufs o))%nat) by (rewrite Hl; unfold _MAX_BUF; lia).
  assert (Hf : Forall (λ bf, ready bf = 0) (bufs o)) by (eapply Forall_impl; [exact Hi|]; by intros bf [? _]).
  apply processAll_length in Epr.
  destruct (settled_at o ae Hset Ha) as [_ Hlp].
  set (o2 := mkOut (Awg.retireAWGComp (s64 (s64 (s64 tai * _ONESEC + ep * _EPOCH) + (_AHEAD - 1) * _EPOCH)) b')
               (bufs o) 0 t' None (invalidateTPslots m ae (rmem o))).
  pose proof (copy_spec m tstart o2 (Z.to_nat ae) (mkBuf 1 tm ae ps') Hf eq_refl Hk eq_refl eq_refl Ht) as Hcp.
  rewrite E1, Hc, Hp in E. unfold o2 in Hcp. cbn [bank bufs count awgtp copying rmem] in Hcp.
  destruct (copy_begin _ _) as [o3|]; [|done]. cbn [mbind option_bind] in E. cbn [fmap option_fmap option_map] in Hcp.
  injection E as <-. injection Hcp as ->. split; [reflexivity|]. split.
  - split; cbn [bufs count copying]; [by rewrite length_insert|]. split; [|done]. apply Forall_insert; [done|]. split; [done|].
    cbn [buf]. by rewrite length_fmap, Epr.
  - intros Hb. apply Forall_insert; [done|]. by apply Forall_fmap, Forall_true.
Qed.
(** ** What arrives *)
(** Every slot that is on has a channel of its own in the list of the fast
    excitations, or none. *)
Record outputs_ok b : Prop := {
  oo_length : length (Awg.AWG b) = Awg.MAX_NUM_AWG;
  oo_asc i : (i < Awg.MAX_NUM_AWG)%nat → active (Awg.AWG b !!! i) = true → Awg.otype (Awg.AWG b !!! i) ≠ Awg.awgASCtp;
  oo_sought i k : (i < Awg.MAX_NUM_AWG)%nat → (k < Awg.MAX_NUM_AWG)%nat → i ≠ k →
    active (Awg.AWG b !!! i) = true → active (Awg.AWG b !!! k) = true →
    sought (Awg.AWG b !!! i) = sought (Awg.AWG b !!! k) → sought (Awg.AWG b !!! i) = None
}.

Section arrival.
Context (fuel : nat) (m now : Z) (t : awgtp_t * awgtp_t) (tm ep : Z) (b : Awg.Bank F) (ps ps' : list (awgpagebuf_t F)).
Context (Hok : outputs_ok b) (Hblank : Forall (λ p, otype p = awgNone) ps) (Hlen : length ps = Awg.MAX_NUM_AWG).
Context (b' : Awg.Bank F) (Hall : processAllAWG fuel m now t tm ep b ps = Some (b', ps')).

Lemma pages_made i : (i < Awg.MAX_NUM_AWG)%nat → slot_page fuel m now t tm ep b i (ps !!! i) = Some (ps' !!! i).
Proof.
  intros Hi. destruct (processAll_upto fuel m now t tm ep Awg.MAX_NUM_AWG b ps b' ps') as (_ & _ & _ & Hp);
    [done|apply Hok|exact Hlen|exact Hall|]. by apply Hp.
Qed.
Lemma page_made i a :
  (i < Awg.MAX_NUM_AWG)%nat → valid_page m (ps' !!! i) = Some a →
  active (Awg.AWG b !!! i) = true ∧ pagelen (ps' !!! i) = 1024 * m ∧
  ∃ j, gets t tm ep (Awg.AWG b !!! i) j ∧ a = channel_addr true m (Z.of_nat j) ep.
Proof.
  intros Hi Hv. pose proof (pages_made i Hi) as Hp. unfold slot_page in Hp.
  destruct (AwgCalc.processAWG _ _ _ _ _ _) as [[[b1 r] out]|] eqn:Ep; [|done]. cbn [fmap option_fmap option_map mbind option_bind] in Hp.
  destruct (AwgSlot.process_cases _ _ _ _ _ _ _ _ _ Ep Hi) as [(-> & -> & _)|(Hact & vp & cs & rbs & st & c & ga & -> & Hvp & Eb)].
  { injection Hp as Hp. rewrite <- Hp in Hv. unfold valid_page in Hv.
    assert (E : otype (ps !!! i) = awgNone) by (eapply (Forall_lookup_total_1 (λ p, otype p = awgNone)); [exact Hblank|lia]).
    by rewrite E in Hv. }
  destruct (AwgSlot.process_binding _ _ _ _ _ _ _ _ _ Ep Hi (oo_length _ Hok)) as (_ & _ & Eo & Ei & _ & _).
  destruct (flush_valid m t tm ep _ _ _ _ ltac:(rewrite Eo; by apply Hok) Hp Hv) as (_ & El & j & (x & Hs & Hx) & Ha).
  split; [done|]. split; [done|]. exists j. split; [|done]. exists x. split; [|done]. unfold sought in *. by rewrite Eo, Ei in Hs.
Qed.
Lemma page_reach i x :
  0 <= ep < 16 → 0 <= m → (i < Awg.MAX_NUM_AWG)%nat → page_at m (ps' !!! i) x →
  active (Awg.AWG b !!! i) = true ∧
  ∃ j, gets t tm ep (Awg.AWG b !!! i) j ∧
    channel_addr true m (Z.of_nat j) ep <= x < channel_addr true m (Z.of_nat j + 1) ep.
Proof.
  intros He Hm Hi (a & Hv & Hx). destruct (page_made i a Hi Hv) as (Hact & El & j & Hg & ->). split; [done|]. exists j. split; [done|].
  pose proof (page_words_length (ps' !!! i)) as Hw. rewrite El in Hw.
  rewrite !channel_addr_eq, lsc_length in * by done. nia.
Qed.
Lemma pages_apart i k x :
  0 <= ep < 16 → 0 <= m → (i < Awg.MAX_NUM_AWG)%nat → (k < Awg.MAX_NUM_AWG)%nat → k ≠ i →
  page_at m (ps' !!! i) x → ¬ page_at m (ps' !!! k) x.
Proof.
  intros He Hm Hi Hk Hn Hxi Hxk.
  destruct (page_reach i x He Hm Hi Hxi) as (Ai & ji & Gi & Bi), (page_reach k x He Hm Hk Hxk) as (Ak & jk & Gk & Bk).
  rewrite !channel_addr_eq, lsc_length in * by done.
  assert (ji = jk) as -> by (apply Nat2Z.inj; nia).
  destruct (gets_lookup _ _ _ _ _ Gi) as (y & Si & Li), (gets_lookup _ _ _ _ _ Gk) as (y' & Sk & Lk).
  assert (y = y') as <- by congruence.
  pose proof (oo_sought _ Hok i k Hi Hk (not_eq_sym Hn) Ai Ak ltac:(congruence)). congruence.
Qed.
(** The page of a generator with a slot, copied to any memory. *)
Lemma page_copied rm i j b1 r vp :
  mapped rm → 0 <= ep < 16 → 0 <= m → (i < Awg.MAX_NUM_AWG)%nat → Awg.otype (Awg.AWG b !!! i) = Awg.awgLSCtp →
  Awg.pagesize (Awg.AWG b !!! i) = 1024 * m →
  AwgCalc.processAWG fuel now b (Z.of_nat i) tm ep = Some (b1, r, Some vp) → gets t tm ep (Awg.AWG b !!! i) j →
  load (channel_addr true m (Z.of_nat j) ep) (S (Z.to_nat (1024 * m))) (area0 (foldl (copy_page m) rm ps')) =
  WInt 0 :: (WFloat <$> vp).
Proof.
  intros Hm He Hm0 Hi Ho Hs Ep Hg. pose proof (pages_made i Hi) as Hp.
  unfold slot_page in Hp. rewrite Ep in Hp. cbn [fmap option_fmap option_map mbind option_bind] in Hp.
  destruct (AwgSlot.process_binding _ _ _ _ _ _ _ _ _ Ep Hi (oo_length _ Hok)) as (_ & _ & Eo & Ei & Es & _).
  rewrite (flush_gets m t tm ep _ _ j) in Hp; [|by rewrite Eo|unfold gets, sought in *; by rewrite Eo, Ei]. injection Hp as Hp.
  pose proof (AwgSlot.process_length _ _ _ _ _ _ _ _ _ Ep Hi) as Hvp. rewrite Hs in Hvp.
  assert (Hw : page_words (ps' !!! i) = WInt 0 :: (WFloat <$> vp)).
  { rewrite <- Hp. unfold page_words. cbn [pagelen page with_samples]. rewrite take_ge; [done|]. rewrite Hvp, Es, Hs. done. }
  assert (Hv : valid_page m (ps' !!! i) = Some (channel_addr true m (Z.of_nat j) ep)).
  { rewrite <- Hp. unfold valid_page. cbn [otype pagelen optr]. rewrite Es, Hs. unfold Awg._LSCTP_PAGE. by rewrite !Z.eqb_refl. }
  rewrite <- Hw. replace (S (Z.to_nat (1024 * m))) with (length (page_words (ps' !!! i))) by (rewrite Hw; cbn [length]; by rewrite length_fmap, Hvp).
  pose proof (processAll_length _ _ _ _ _ _ _ _ _ _ Hall) as Hl'. rewrite Hlen in Hl'.
  apply (copy_pages_at m ps' _ i); [done| |done|].
  - apply list_lookup_lookup_total_lt. lia.
  - intros k p' x Hk Hkp Hx. pose proof (lookup_lt_Some _ _ _ Hkp). apply list_lookup_total_correct in Hkp as <-.
    apply (pages_apart i k x); (done || lia).
Qed.
End arrival.

(** A page of the epoch in the memory after a round in time. *)
Lemma page_arrives fuel m node now c tai ep tstart o o' i j b1 r vp :
  quiet o → outputs_ok (bank o) → mapped (rmem o) → 0 <= m → 0 <= ep < 16 → on_time tai ep tstart →
  cycle fuel m node now c tai ep tstart o = Some o' →
  let '(tm, ae) := ahead tai ep in
  (i < Awg.MAX_NUM_AWG)%nat → Awg.otype (Awg.AWG (bank o) !!! i) = Awg.awgLSCtp →
  Awg.pagesize (Awg.AWG (bank o) !!! i) = 1024 * m →
  AwgCalc.processAWG fuel now (bank o) (Z.of_nat i) tm ae = Some (b1, r, Some vp) →
  gets (awgtp o) tm ae (Awg.AWG (bank o) !!! i) j →
  load (channel_addr true m (Z.of_nat j) ae) (S (Z.to_nat (1024 * m))) (area0 (rmem o')) = WInt 0 :: (WFloat <$> vp).
Proof.
  intros Hq Hok Hm Hm0 He Ht E. pose proof (ahead_epoch tai ep He) as Ha.
  pose proof (cycle_spec _ _ _ _ _ _ _ _ _ _ (proj1 Hq) He Ht E) as Hc. destruct (ahead tai ep) as [tm ae]. cbn [snd] in Ha.
  intros Hi Ho Hs Ep Hg. destruct Hc as (b' & ps' & Hall & -> & _).
  pose proof (quiet_at o ae Hq Ha) as Hblank. destruct (settled_at o ae (proj1 Hq) Ha) as [_ Hlen]. unfold blank_buf in Hblank.
  apply (page_copied fuel m now (awgtp o) tm ae (bank o) (buf (bufs o !!! Z.to_nat ae)) ps' Hok Hblank Hlen b' Hall _ i j b1 r vp);
    try done. by apply invalidateTPslots_spec.
Qed.
(** A slot nobody gets stays marked. *)
Lemma nothing_arrives fuel m node now c tai ep tstart o o' j :
  quiet o → outputs_ok (bank o) → mapped (rmem o) → 0 <= m → 0 <= ep < 16 → on_time tai ep tstart →
  cycle fuel m node now c tai ep tstart o = Some o' →
  let '(tm, ae) := ahead tai ep in
  (j < TP_EX_NUM)%nat →
  (∀ i, (i < Awg.MAX_NUM_AWG)%nat → active (Awg.AWG (bank o) !!! i) = true → ¬ gets (awgtp o) tm ae (Awg.AWG (bank o) !!! i) j) →
  area0 (rmem o') !! channel_addr true m (Z.of_nat j) ae = Some (WInt _INVALID_RM_CHANNEL).
Proof.
  intros Hq Hok Hm Hm0 He Ht E. pose proof (ahead_epoch tai ep He) as Ha.
  pose proof (cycle_spec _ _ _ _ _ _ _ _ _ _ (proj1 Hq) He Ht E) as Hc. destruct (ahead tai ep) as [tm ae]. cbn [snd] in Ha.
  intros Hj Hn. destruct Hc as (b' & ps' & Hall & -> & _).
  pose proof (quiet_at o ae Hq Ha) as Hblank. destruct (settled_at o ae (proj1 Hq) Ha) as [_ Hlen]. unfold blank_buf in Hblank. destruct (invalidateTPslots_spec m ae (rmem o) Hm) as (Hm' & Hs & _).
  pose proof (processAll_length _ _ _ _ _ _ _ _ _ _ Hall) as Hl'. rewrite Hlen in Hl'.
  destruct (copy_pages_outside m ps' _ (channel_addr true m (Z.of_nat j) ae) Hm') as [_ ->]; [|by apply Hs].
  apply Forall_lookup. intros k p Hk Hp. pose proof (lookup_lt_Some _ _ _ Hk). apply list_lookup_total_correct in Hk as <-.
  destruct (page_reach fuel m now (awgtp o) tm ae (bank o) _ ps' Hok Hblank Hlen b' Hall k _ Ha Hm0 ltac:(lia) Hp) as (Hact & jk & Hg & Hx).
  rewrite !channel_addr_eq, lsc_length in Hx by done. assert (jk = j) as -> by (apply Nat2Z.inj; nia). by apply (Hn k ltac:(lia)).
Qed.
End props.
End AwgOutProps.
