(* ===== verification/Ipc.v ===== *)
(** * Inter-process communication ([src/fe/commData3.c], [src/include/commData3.h])

    Models exchange doubles through rings of 64 blocks in memory that sender and
    receiver share: on one computer ([ISHME]), over PCIe ([IPCIE]) or over
    reflected memory ([IRFM0], [IRFM1]).  A sender writes one cycle ahead; the
    GPS second and the 65536 Hz cycle number of the instant the data is for are
    the synchronisation word the receiver checks.

    - data: [CDS_IPC_XMIT], [CDS_IPC_INFO], the memory and the pointers;
    - [commData3Init], [commData3Send], [commData3Receive]: the three entry
      points, as loops over the connections;
    - theorems: delivery at the right instant for all pairs of rates, rejection
      of anything else, freshness over a history of sends, error reporting. *)
From S2P Require Import Prelude CFloat.

Module Ipc.

Definition MAX_IPC : Z := 1024.
Definition IPC_BLOCKS : Z := 64.
Definition ISND : Z := 1.
Definition IRCV : Z := 0.
Definition ISHME : Z := 0.
Definition IPCIE : Z := 1.
Definition IRFM0 : Z := 2.
Definition IRFM1 : Z := 3.
(** [sizeof(CDS_IPC_COMMS)]: blocks of [MAX_IPC] pairs of a double and a long. *)
Definition IPC_BUFFER_SIZE : Z := IPC_BLOCKS * MAX_IPC * 16.
Definition IPC_BASE_OFFSET : Z := 0.
Definition IPC_PCIE_BASE_OFFSET : Z := 0x100.
Definition RFM0_OFFSET : Z := 1 * IPC_BUFFER_SIZE.
Definition RFM1_OFFSET : Z := 2 * IPC_BUFFER_SIZE.
Definition IPC_MAX_RATE : Z := 65536.

Section defs.
Context {F : Type} `{FloatOps F}.

Record CDS_IPC_XMIT := mkXmit { xdata : F; timestamp : Z }.

(** [struct CDS_IPC_INFO], the fields the three functions use; the pointers are
    addresses, zero is [NULL]. *)
Record CDS_IPC_INFO := mkIpc {
  data : F;
  netType : Z;
  sendCycle : Z;
  sendRate : Z;
  rcvRate : Z;
  rcvCycle : Z;
  ipcNum : Z;
  mode : Z;
  errFlag : Z;
  errTotal : Z;
  pIpcDataRead : Z;
  pIpcDataWrite : Z
}.

Definition set_data (v : F) (r : CDS_IPC_INFO) : CDS_IPC_INFO :=
  mkIpc v (netType r) (sendCycle r) (sendRate r) (rcvRate r) (rcvCycle r) (ipcNum r) (mode r) (errFlag r)
    (errTotal r) (pIpcDataRead r) (pIpcDataWrite r).
Definition set_sendCycle (v : Z) (r : CDS_IPC_INFO) : CDS_IPC_INFO :=
  mkIpc (data r) (netType r) v (sendRate r) (rcvRate r) (rcvCycle r) (ipcNum r) (mode r) (errFlag r)
    (errTotal r) (pIpcDataRead r) (pIpcDataWrite r).
Definition set_rcv (rate cyc : Z) (r : CDS_IPC_INFO) : CDS_IPC_INFO :=
  mkIpc (data r) (netType r) (sendCycle r) (sendRate r) rate cyc (ipcNum r) (mode r) (errFlag r)
    (errTotal r) (pIpcDataRead r) (pIpcDataWrite r).
Definition set_err (flag total : Z) (r : CDS_IPC_INFO) : CDS_IPC_INFO :=
  mkIpc (data r) (netType r) (sendCycle r) (sendRate r) (rcvRate r) (rcvCycle r) (ipcNum r) (mode r) flag
    total (pIpcDataRead r) (pIpcDataWrite r).
Definition set_read (v : Z) (r : CDS_IPC_INFO) : CDS_IPC_INFO :=
  mkIpc (data r) (netType r) (sendCycle r) (sendRate r) (rcvRate r) (rcvCycle r) (ipcNum r) (mode r) (errFlag r)
    (errTotal r) v (pIpcDataWrite r).
Definition set_write (v : Z) (r : CDS_IPC_INFO) : CDS_IPC_INFO :=
  mkIpc (data r) (netType r) (sendCycle r) (sendRate r) (rcvRate r) (rcvCycle r) (ipcNum r) (mode r) (errFlag r)
    (errTotal r) (pIpcDataRead r) v.

(** [dBlock[block][index]] of the [CDS_IPC_COMMS] at an address. *)
Definition Memory : Type := Z → Z → Z → CDS_IPC_XMIT.
Definition store (p b i : Z) (x : CDS_IPC_XMIT) (m : Memory) : Memory :=
  λ p' b' i', if (p =? p') && (b =? b') && (i =? i') then x else m p' b' i'.

(** The memory windows of the computer: the shared memory segment and the
    Dolphin read and write windows ([NULL] when there is no card). *)
Record Windows := mkWin {
  shmipc_shm : Z;
  dolphinRead : list Z;
  dolphinWrite : list Z
}.

Section model.
(** Build options: the rate of the model and [RFM_DELAY]. *)
Variable IPC_RATE : Z.
Variable RFM_DELAY : bool.

(** *** Initialisation: rates, then pointers, of one connection *)
Definition init_rates (rate : Z) (c : CDS_IPC_INFO) : CDS_IPC_INFO :=
  let c := set_sendCycle (Z.quot IPC_MAX_RATE rate) c in
  if mode c =? IRCV then
    if rate <=? sendRate c then set_rcv (Z.quot (sendRate c) rate) 1 c
    else let r := Z.quot rate (sendRate c) in set_rcv r r c
  else c.

Definition init_pointers (w : Windows) (c : CDS_IPC_INFO) : CDS_IPC_INFO :=
  let c := set_write 0 (set_read 0 (set_data f0 c)) in
  let ipcMemOffset := if netType c =? IRFM1 then IPC_PCIE_BASE_OFFSET + RFM1_OFFSET
                      else IPC_PCIE_BASE_OFFSET + RFM0_OFFSET in
  let rfm := (netType c =? IRFM0) || (netType c =? IRFM1) in
  let c := if rfm && (mode c =? ISND) && truthy (dolphinWrite w !!! 1%nat)
           then set_write (dolphinWrite w !!! 1%nat + ipcMemOffset) c else c in
  let c := if rfm && (mode c =? IRCV) && truthy (dolphinRead w !!! 1%nat)
           then set_read (dolphinRead w !!! 1%nat + ipcMemOffset) c else c in
  let c := if netType c =? ISHME then
             if mode c =? ISND then set_write (shmipc_shm w + IPC_BASE_OFFSET) c
             else set_read (shmipc_shm w + IPC_BASE_OFFSET) c
           else c in
  let c := if (netType c =? IPCIE) && (mode c =? IRCV) && truthy (dolphinRead w !!! 0%nat)
           then set_read (dolphinRead w !!! 0%nat + IPC_PCIE_BASE_OFFSET) c else c in
  if (netType c =? IPCIE) && (mode c =? ISND) && truthy (dolphinWrite w !!! 0%nat)
  then set_write (dolphinWrite w !!! 0%nat + IPC_PCIE_BASE_OFFSET) c else c.

Definition commData3Init (w : Windows) (rate : Z) (ipcInfo : list CDS_IPC_INFO) : list CDS_IPC_INFO :=
  map (λ c, init_pointers w (init_rates rate c)) ipcInfo.

(** *** Sending *)

(** [(syncWord << 32) + cycle] with [syncWord] an [unsigned long]. *)
Definition sync_word (sec cyc : Z) : Z := u64 (u64 (Z.shiftl (u64 sec) 32) + cyc).

(** The block and the synchronisation word for data of the cycle after [cycle]. *)
Definition send_slot (sendCyc timeSec cycle : Z) : Z * Z :=
  let sendBlock := Z.rem ((cycle + 1) * Z.quot IPC_MAX_RATE IPC_RATE) IPC_BLOCKS in
  let dataCycle := Z.rem ((cycle + 1) * sendCyc) IPC_MAX_RATE in
  let sec := if dataCycle =? 0 then timeSec + 1 else timeSec in
  (sendBlock, sync_word sec dataCycle).

(** The same one block later, for reflected memory when [RFM_DELAY] is set. *)
Definition send_slot_delayed (sendCyc timeSec cycle : Z) : Z * Z :=
  let mycycle := cycle + 1 in
  let sendBlock := Z.rem ((mycycle + 1) * Z.quot IPC_MAX_RATE IPC_RATE) IPC_BLOCKS in
  let dataCycle := Z.rem ((mycycle + 1) * sendCyc) IPC_MAX_RATE in
  let sec := if (dataCycle =? 0) || (dataCycle =? sendCyc) then timeSec + 1 else timeSec in
  (sendBlock, sync_word sec dataCycle).

(** The body of both loops: write the connection's data if it is a sender of the
    kind the loop is for ([rfm]) and has a window. *)
Definition send_one (rfm : bool) (slot : Z * Z) (m : Memory) (c : CDS_IPC_INFO) : Memory :=
  let kind := if rfm then (netType c =? IRFM0) || (netType c =? IRFM1)
              else (netType c =? ISHME) || (netType c =? IPCIE) in
  if (mode c =? ISND) && kind && truthy (pIpcDataWrite c)
  then store (pIpcDataWrite c) (fst slot) (ipcNum c) (mkXmit (data c) (snd slot)) m
  else m.

Definition commData3Send (ipcInfo : list CDS_IPC_INFO) (timeSec cycle : Z) (m : Memory) : Memory :=
  let sc := match ipcInfo with c :: _ => sendCycle c | [] => 0 end in
  let rfm_slot := if RFM_DELAY then send_slot_delayed sc timeSec cycle else send_slot sc timeSec cycle in
  let m := foldl (send_one true rfm_slot) m ipcInfo in
  foldl (send_one false (send_slot sc timeSec cycle)) m ipcInfo.

(** *** Receiving *)
Definition receive_one (timeSec cycle : Z) (m : Memory) (c : CDS_IPC_INFO) : CDS_IPC_INFO :=
  let rcvBlock := Z.rem (cycle * Z.quot IPC_MAX_RATE IPC_RATE) IPC_BLOCKS in
  if mode c =? IRCV then
    if Z.rem cycle (rcvCycle c) =? 0 then
      if truthy (pIpcDataRead c) then
        let x := m (pIpcDataRead c) rcvBlock (ipcNum c) in
        let cycle65k := cycle * sendCycle c in
        let mySyncWord := sync_word timeSec cycle65k in
        if timestamp x =? mySyncWord then set_data (xdata x) c
        else set_err (errFlag c + 1) (errTotal c) c
      else set_err (errFlag c + 1) (errTotal c) c
    else c
  else c.

(** The report at the start of a second: one connection. *)
Definition report_one (ipcErrBits : Z) (c : CDS_IPC_INFO) : Z * CDS_IPC_INFO :=
  if mode c =? IRCV then
    let c' := set_err 0 (errFlag c) c in
    if truthy (errFlag c) then
      (Z.lor (Z.lor ipcErrBits (Z.shiftl 1 (netType c))) (Z.shiftl 16 (netType c)), c')
    else (ipcErrBits, c')
  else (ipcErrBits, c).

Fixpoint report_all (ipcErrBits : Z) (ipcInfo : list CDS_IPC_INFO) : Z * list CDS_IPC_INFO :=
  match ipcInfo with
  | [] => (ipcErrBits, [])
  | c :: cs =>
      let '(e, c') := report_one ipcErrBits c in
      let '(e', cs') := report_all e cs in (e', c' :: cs')
  end.

(** Returns the connections and [ipcErrBits]. *)
Definition commData3Receive (ipcInfo : list CDS_IPC_INFO) (timeSec cycle : Z) (m : Memory) (ipcErrBits : Z)
  : Z * list CDS_IPC_INFO :=
  let ipcInfo := map (receive_one timeSec cycle m) ipcInfo in
  if cycle =? 0 then report_all (Z.land ipcErrBits 0xf0) ipcInfo else (ipcErrBits, ipcInfo).
End model.
End defs.
Arguments CDS_IPC_XMIT : clear implicits.
Arguments CDS_IPC_INFO : clear implicits.
Arguments Memory : clear implicits.

(** ** Instants

    Sender and receiver agree on instants, counted in 1/65536 s of GPS time: the
    block and the synchronisation word are functions of the instant the data is
    for. *)
Definition slot_at (t : Z) : Z * Z := (t mod IPC_BLOCKS, sync_word (t / IPC_MAX_RATE) (t mod IPC_MAX_RATE)).

(** A rate the clock divides into. *)
Definition rate_ok (rate : Z) : Prop := 1 < rate ∧ (∃ k, 0 < k ∧ IPC_MAX_RATE = k * rate).
Definition period (rate : Z) : Z := IPC_MAX_RATE / rate.

(** The instant the data of a [commData3Send] call is for. *)
Definition due {F} (RFM_DELAY : bool) (rate : Z) (c : CDS_IPC_INFO F) (timeSec cycle : Z) : Z :=
  let ahead := if RFM_DELAY && ((netType c =? IRFM0) || (netType c =? IRFM1)) then 2 else 1 in
  timeSec * IPC_MAX_RATE + (cycle + ahead) * period rate.
(** The instant of a [commData3Receive] call. *)
Definition now (rate timeSec cycle : Z) : Z := timeSec * IPC_MAX_RATE + cycle * period rate.

Lemma period_spec rate : rate_ok rate → period rate * rate = IPC_MAX_RATE ∧ 0 < period rate ∧
  Z.quot IPC_MAX_RATE rate = period rate.
Proof.
  intros [Hr (k & Hk & E)]. unfold period. rewrite E, Z.div_mul by lia. split; [done|]. split; [done|].
  rewrite Z.quot_mul; lia.
Qed.

Lemma sync_word_val sec cyc : 0 <= sec < 2 ^ 32 → 0 <= cyc < 2 ^ 32 → sync_word sec cyc = sec * 2 ^ 32 + cyc.
Proof.
  intros Hs Hc. unfold sync_word. rewrite Z.shiftl_mul_pow2 by lia.
  rewrite (wrap_small 64 sec), (wrap_small 64 (sec * 2 ^ 32)), wrap_small; lia.
Qed.

Lemma sync_word_inj s c s' c' :
  0 <= s < 2 ^ 32 → 0 <= c < 2 ^ 32 → 0 <= s' < 2 ^ 32 → 0 <= c' < 2 ^ 32 →
  sync_word s c = sync_word s' c' → s = s' ∧ c = c'.
Proof. intros. rewrite !sync_word_val in * by done. lia. Qed.

Lemma block_of_instant a t : (a * IPC_MAX_RATE + t) mod IPC_BLOCKS = t mod IPC_BLOCKS.
Proof.
  unfold IPC_MAX_RATE, IPC_BLOCKS. replace (a * 65536 + t) with (t + (a * 1024) * 64) by lia. apply Z.mod_add. lia.
Qed.

Lemma div_mod_instant sec cyc :
  0 <= cyc < IPC_MAX_RATE →
  (sec * IPC_MAX_RATE + cyc) / IPC_MAX_RATE = sec ∧ (sec * IPC_MAX_RATE + cyc) mod IPC_MAX_RATE = cyc.
Proof.
  unfold IPC_MAX_RATE. intros H. split.
  - rewrite Z.div_add_l by lia. rewrite Z.div_small by lia. lia.
  - rewrite Z.add_comm, Z.mod_add by lia. apply Z.mod_small. lia.
Qed.

Lemma slot_at_split sec cyc :
  0 <= cyc < IPC_MAX_RATE → slot_at (sec * IPC_MAX_RATE + cyc) = (cyc mod IPC_BLOCKS, sync_word sec cyc).
Proof. intros H. unfold slot_at. destruct (div_mod_instant sec cyc H) as [-> ->]. by rewrite block_of_instant. Qed.

(** The code's slot computations, in terms of the instant. *)
Lemma send_slot_at rate timeSec cycle :
  rate_ok rate → 0 <= cycle < rate →
  send_slot rate (period rate) timeSec cycle = slot_at (timeSec * IPC_MAX_RATE + (cycle + 1) * period rate).
Proof.
  intros Hr Hc. destruct (period_spec rate Hr) as (Ep & Hp & Eq). unfold send_slot. rewrite Eq.
  set (p := period rate) in *. assert (Hle : 0 < (cycle + 1) * p <= IPC_MAX_RATE) by (rewrite <- Ep; nia).
  rewrite !Z.rem_mod_nonneg by (unfold IPC_BLOCKS, IPC_MAX_RATE in *; lia).
  destruct (decide ((cycle + 1) * p = IPC_MAX_RATE)) as [E|E].
  - rewrite E. rewrite Z.mod_same by (unfold IPC_MAX_RATE; lia). simpl (0 =? 0).
    replace (timeSec * IPC_MAX_RATE + IPC_MAX_RATE) with ((timeSec + 1) * IPC_MAX_RATE + 0) by lia.
    rewrite slot_at_split by (unfold IPC_MAX_RATE; lia). done.
  - rewrite slot_at_split by lia. rewrite (Z.mod_small _ IPC_MAX_RATE) by lia.
    by rewrite (proj2 (Z.eqb_neq _ 0)) by lia.
Qed.

Lemma send_slot_delayed_at rate timeSec cycle :
  rate_ok rate → 0 <= cycle < rate →
  send_slot_delayed rate (period rate) timeSec cycle = slot_at (timeSec * IPC_MAX_RATE + (cycle + 2) * period rate).
Proof.
  intros Hr Hc. destruct (period_spec rate Hr) as (Ep & Hp & Eq). pose proof Hr as [Hr1 _].
  unfold send_slot_delayed. rewrite Eq. set (p := period rate) in *.
  replace (cycle + 1 + 1) with (cycle + 2) by lia.
  assert (Hmax : IPC_MAX_RATE = 65536) by done.
  assert (Hle : 2 * p <= (cycle + 2) * p <= IPC_MAX_RATE + p) by (rewrite <- Ep; nia).
  assert (Hpm : p < IPC_MAX_RATE) by (rewrite <- Ep; nia).
  rewrite !Z.rem_mod_nonneg by (unfold IPC_BLOCKS; lia).
  destruct (Z.le_gt_cases IPC_MAX_RATE ((cycle + 2) * p)) as [E|E].
  - set (x := (cycle + 2) * p - IPC_MAX_RATE).
    assert (Hx : x = 0 ∨ x = p).
    { unfold x. assert (cycle + 2 = rate ∨ cycle + 2 = rate + 1) as [-> | ->]; [|left|right]; nia. }
    replace ((cycle + 2) * p) with (1 * IPC_MAX_RATE + x) by (unfold x; lia).
    destruct (div_mod_instant 1 x ltac:(lia)) as [_ ->]. rewrite block_of_instant.
    replace (timeSec * IPC_MAX_RATE + (1 * IPC_MAX_RATE + x)) with ((timeSec + 1) * IPC_MAX_RATE + x) by lia.
    rewrite slot_at_split by lia.
    replace ((x =? 0) || (x =? p)) with true; [done|]. destruct Hx as [-> | ->]; [done|].
    by rewrite Z.eqb_refl, orb_true_r.
  - rewrite slot_at_split by lia. rewrite (Z.mod_small _ IPC_MAX_RATE) by lia.
    rewrite (proj2 (Z.eqb_neq _ 0)), (proj2 (Z.eqb_neq ((cycle + 2) * p) p)) by lia. done.
Qed.

Section theory.
Context {F : Type} `{FloatOps F}.

(** Connections initialised for a model of a rate. *)
Definition ready (rate : Z) (c : CDS_IPC_INFO F) : Prop :=
  sendCycle c = period rate ∧
  (mode c = IRCV → rcvCycle c = if rate <=? sendRate c then 1 else Z.quot rate (sendRate c)).

Lemma init_ready w rate c : rate_ok rate → ready rate (init_pointers w (init_rates rate c)).
Proof.
  intros Hr. destruct (period_spec rate Hr) as (_ & _ & Eq). unfold init_rates. rewrite Eq.
  cbn [set_sendCycle mode sendRate].
  assert (Hp : ∀ c : CDS_IPC_INFO F, let c' := init_pointers w c in
    sendCycle c' = sendCycle c ∧ mode c' = mode c ∧ sendRate c' = sendRate c ∧ rcvCycle c' = rcvCycle c).
  { intros c0. unfold init_pointers. cbv zeta.
    repeat match goal with |- context [if ?b then _ else _] => destruct b end; by repeat split. }
  unfold ready. destruct (Z.eqb_spec (mode c) IRCV) as [Em|Em].
  - destruct (rate <=? sendRate c) eqn:El;
      (edestruct Hp as (-> & -> & -> & ->)); cbn; rewrite El; by split.
  - edestruct Hp as (-> & -> & -> & ->). cbn. by split.
Qed.

(** *** What a send writes *)
Definition is_rfm (c : CDS_IPC_INFO F) : bool := (netType c =? IRFM0) || (netType c =? IRFM1).
(** The connection sends through window [p] on channel [i]. *)
Definition sends (c : CDS_IPC_INFO F) (p i : Z) : Prop :=
  mode c = ISND ∧ 0 <= netType c <= 3 ∧ pIpcDataWrite c = p ∧ p ≠ 0 ∧ ipcNum c = i.

Lemma send_one_spec rfm slot m (c : CDS_IPC_INFO F) p b i :
  send_one rfm slot m c p b i =
  if (mode c =? ISND) && (if rfm then is_rfm c else (netType c =? ISHME) || (netType c =? IPCIE)) &&
     truthy (pIpcDataWrite c) && ((pIpcDataWrite c =? p) && (fst slot =? b) && (ipcNum c =? i))
  then mkXmit (data c) (snd slot) else m p b i.
Proof.
  unfold send_one. fold (is_rfm c). set (k := if rfm then _ else _).
  destruct ((mode c =? ISND) && k && truthy (pIpcDataWrite c)); [|done]. unfold store. cbn [andb]. done.
Qed.

Lemma foldl_send_miss rfm slot (L : list (CDS_IPC_INFO F)) m p b i :
  (∀ c, c ∈ L → sends c p i → is_rfm c ≠ rfm) → foldl (send_one rfm slot) m L p b i = m p b i.
Proof.
  revert m. induction L as [|c L IH]; intros m HL; [done|]. simpl. rewrite IH.
  2:{ intros c' Hc'. apply HL. by right. }
  rewrite send_one_spec. set (k := if rfm then _ else _). destruct (_ && _) eqn:E; [|done]. exfalso.
  repeat (apply andb_true_iff in E as [E ?]). assert (Hk : k = true) by done.
  assert (Hn : 0 <= netType c <= 3 ∧ is_rfm c = rfm).
  { unfold k, is_rfm, IRFM0, IRFM1, ISHME, IPCIE in *. destruct rfm; split; lia. }
  apply (HL c); [by left| |apply Hn]. unfold sends. unfold truthy in *. repeat split; try lia.
Qed.

Lemma foldl_send_hit rfm slot (L : list (CDS_IPC_INFO F)) m c p i n :
  L !! n = Some c → sends c p i → is_rfm c = rfm →
  (∀ n' c', L !! n' = Some c' → n' ≠ n → ¬ sends c' p i) →
  foldl (send_one rfm slot) m L p (fst slot) i = mkXmit (data c) (snd slot).
Proof.
  revert m n. induction L as [|c0 L IH]; intros m n Hn Hs Hr Huniq; [done|]. simpl. destruct n as [|n].
  - injection Hn as ->. rewrite foldl_send_miss.
    + rewrite send_one_spec. destruct Hs as (Em & En & Ep & Hp & Ei).
      set (k := if rfm then _ else _). assert (Hk : k = true).
      { unfold k. destruct rfm; [done|]. unfold is_rfm, IRFM0, IRFM1, ISHME, IPCIE in *. lia. }
      rewrite Em, Hk, Ep, Ei, !Z.eqb_refl. unfold truthy. by rewrite (proj2 (Z.eqb_neq p 0)).
    + intros c' [n' Hn']%list_elem_of_lookup Hs'. exfalso. by apply (Huniq (S n') c').
  - apply (IH _ n); try done. intros n' c' Hn' Hne. apply (Huniq (S n') c'); [done|lia].
Qed.

(** A send writes the data of a connection at its due instant. *)
Lemma send_hit rate delay (S : list (CDS_IPC_INFO F)) c n p i ts cs m :
  rate_ok rate → Forall (ready rate) S → 0 <= cs < rate → S !! n = Some c → sends c p i →
  (∀ n' c', S !! n' = Some c' → n' ≠ n → ¬ sends c' p i) →
  let slot := slot_at (due delay rate c ts cs) in
  commData3Send rate delay S ts cs m p (fst slot) i = mkXmit (data c) (snd slot).
Proof.
  intros Hr Hready Hcs Hn Hs Huniq. cbv zeta. unfold commData3Send, due. fold (is_rfm c).
  assert (Esc : match S with c :: _ => sendCycle c | [] => 0 end = period rate).
  { destruct S; [done|]. by apply Forall_cons in Hready as [[-> _] _]. }
  rewrite Esc, send_slot_at, send_slot_delayed_at by done.
  destruct (is_rfm c) eqn:Er.
  - rewrite andb_true_r. rewrite foldl_send_miss.
    + destruct delay; by apply (foldl_send_hit true _ S m c p i n).
    + intros c' [n' Hn']%list_elem_of_lookup Hs'. destruct (decide (n' = n)) as [->|Hne].
      * rewrite Hn in Hn'. injection Hn' as <-. by rewrite Er.
      * exfalso. by apply (Huniq n' c').
  - rewrite andb_false_r. by apply (foldl_send_hit false _ S _ c p i n).
Qed.

(** *** What a receive reads *)
Lemma receive_on_time rr (d : CDS_IPC_INFO F) tr cr m :
  rate_ok rr → ready rr d → mode d = IRCV → 0 <= cr < rr → Z.rem cr (rcvCycle d) = 0 → pIpcDataRead d ≠ 0 →
  let slot := slot_at (now rr tr cr) in
  let x := m (pIpcDataRead d) (fst slot) (ipcNum d) in
  receive_one rr tr cr m d =
    if timestamp x =? snd slot then set_data (xdata x) d else set_err (errFlag d + 1) (errTotal d) d.
Proof.
  intros Hr [Hsc _] Hm Hcr Hrem Hp. cbv zeta. destruct (period_spec rr Hr) as (Ep & Hper & Eq).
  unfold receive_one, now. rewrite Hm, Hrem, !Z.eqb_refl, Hsc, Eq.
  unfold truthy. rewrite (proj2 (Z.eqb_neq _ 0) Hp). cbn [negb].
  assert (Hlt : 0 <= cr * period rr < IPC_MAX_RATE) by (rewrite <- Ep; nia).
  rewrite slot_at_split by done. cbn [fst snd].
  rewrite Z.rem_mod_nonneg by (unfold IPC_BLOCKS; lia). done.
Qed.

(** A receiver samples every instant its sender sends for. *)
Lemma receive_cycle_divides sr rr ts k tr cr (d : CDS_IPC_INFO F) :
  rate_ok sr → rate_ok rr → (rr <= sr ∨ (sr | rr)) → ready rr d → mode d = IRCV → sendRate d = sr → 0 <= cr →
  ts * IPC_MAX_RATE + k * period sr = now rr tr cr → Z.rem cr (rcvCycle d) = 0.
Proof.
  intros Hs Hr Hdiv [_ Hc] Hm Esr Hcr Et. rewrite (Hc Hm), Esr.
  destruct (period_spec sr Hs) as (Eps & Hps & _). destruct (period_spec rr Hr) as (Epr & Hpr & _).
  destruct (Z.leb_spec rr sr) as [Hle|Hgt]; [apply Z.rem_1_r|].
  destruct Hdiv as [|[q Eq]]; [lia|]. destruct Hs as [Hs1 _].
  rewrite Eq, Z.quot_mul by lia. assert (Hq : 0 < q) by nia.
  unfold now in Et. set (P := period rr) in *. set (Q := period sr) in *. clearbody P Q.
  assert (Eper : Q = q * P) by (apply (Z.mul_cancel_r _ _ sr); [lia|rewrite Eps, <- Epr, Eq; ring]).
  rewrite <- Epr, Eper, Eq in Et.
  assert (E : cr = (ts * sr + k - tr * sr) * q).
  { apply (Z.mul_cancel_r _ _ P); [lia|].
    transitivity (ts * (P * (q * sr)) + k * (q * P) - tr * (P * (q * sr))); [lia|ring]. }
  rewrite Z.rem_mod_nonneg by lia. rewrite E. apply Z.mod_mul. lia.
Qed.

Lemma report_lookup e (L : list (CDS_IPC_INFO F)) j d :
  L !! j = Some d → mode d = IRCV → snd (report_all e L) !! j = Some (set_err 0 (errFlag d) d).
Proof.
  revert e j. induction L as [|c L IH]; intros e j Hj Hm; [done|]. simpl.
  destruct (report_one e c) as [e1 c1] eqn:E1. specialize (IH e1).
  destruct (report_all e1 L) as [e2 L2]. destruct j as [|j]; simpl in *.
  - injection Hj as ->. unfold report_one in E1. rewrite Hm, Z.eqb_refl in E1.
    by destruct (truthy (errFlag d)); injection E1 as _ <-.
  - by apply IH.
Qed.

(** C6: data arrives at the instant it is for.  A sender at one rate and a
    receiver at another, whose windows are the same memory, with the
    channel to themselves: if the receiver's call is for the instant the send
    was for (one sender cycle ahead; two over delayed reflected memory), the
    receiver takes the sender's data and counts no error - for all rates that
    divide 65536 Hz, across the turn of a second, and for receivers faster and
    slower than the sender. *)
Theorem ipc_delivery sr rr delay (S R : list (CDS_IPC_INFO F)) n c j d ts cs tr cr m e :
  rate_ok sr → rate_ok rr → (rr <= sr ∨ (sr | rr)) →
  Forall (ready sr) S → Forall (ready rr) R → S !! n = Some c → R !! j = Some d →
  sends c (pIpcDataRead d) (ipcNum d) → mode d = IRCV → sendRate d = sr →
  (∀ n' c', S !! n' = Some c' → n' ≠ n → ¬ sends c' (pIpcDataRead d) (ipcNum d)) →
  0 <= cs < sr → 0 <= cr < rr → due delay sr c ts cs = now rr tr cr →
  let m' := commData3Send sr delay S ts cs m in
  ∃ d', snd (commData3Receive rr R tr cr m' e) !! j = Some d' ∧ data d' = data c ∧
        (if cr =? 0 then errTotal d' = errFlag d ∧ errFlag d' = 0 else errFlag d' = errFlag d).
Proof.
  intros Hsr Hrr Hdiv HS HR Hn Hj Hsend Hm Hrate Huniq Hcs Hcr Ht m'.
  pose proof (send_hit sr delay S c n _ _ ts cs m Hsr HS Hcs Hn Hsend Huniq) as Hx.
  fold m' in Hx. rewrite Ht in Hx. clearbody m'.
  assert (Hd : ready rr d) by exact (Forall_lookup_1 _ _ _ _ HR Hj).
  assert (Hrem : Z.rem cr (rcvCycle d) = 0).
  { apply (receive_cycle_divides sr rr ts _ tr cr d Hsr Hrr Hdiv Hd Hm Hrate ltac:(lia) Ht). }
  assert (Hp : pIpcDataRead d ≠ 0) by apply Hsend.
  pose proof (receive_on_time rr d tr cr m' Hrr Hd Hm Hcr Hrem Hp) as Hrec. cbv zeta in Hrec.
  rewrite Hx in Hrec. cbn [timestamp xdata] in Hrec. rewrite Z.eqb_refl in Hrec.
  assert (HjR : map (receive_one rr tr cr m') R !! j = Some (set_data (data c) d)).
  { change (map ?f R) with (f <$> R). rewrite list_lookup_fmap, Hj. cbn. by rewrite Hrec. }
  unfold commData3Receive. destruct (cr =? 0).
  - exists (set_err 0 (errFlag d) (set_data (data c) d)). split; [exact (report_lookup _ _ _ _ HjR Hm)|]. done.
  - exists (set_data (data c) d). done.
Qed.

(** *** Freshness *)

(** A sender's calls, in order: the connections as they were, second and cycle. *)
Definition send_history (rate : Z) (delay : bool) (h : list (list (CDS_IPC_INFO F) * Z * Z)) (m : Memory F) : Memory F :=
  foldl (λ m '(conns, ts, cs), commData3Send rate delay conns ts cs m) m h.

(** The value in slot [(p, b, i)] was sent by a call of the history. *)
Definition sent_by (rate : Z) (delay : bool) (h : list (list (CDS_IPC_INFO F) * Z * Z)) (p b i : Z)
    (x : CDS_IPC_XMIT F) : Prop :=
  ∃ S ts cs c, (S, ts, cs) ∈ h ∧ c ∈ S ∧ mode c = ISND ∧ pIpcDataWrite c = p ∧ ipcNum c = i ∧
    x = mkXmit (data c) (snd (slot_at (due delay rate c ts cs))) ∧ b = fst (slot_at (due delay rate c ts cs)).

Lemma foldl_send_origin rfm slot (L : list (CDS_IPC_INFO F)) m p b i :
  foldl (send_one rfm slot) m L p b i = m p b i ∨
  ∃ c, c ∈ L ∧ mode c = ISND ∧ is_rfm c = rfm ∧ pIpcDataWrite c = p ∧ ipcNum c = i ∧ b = fst slot ∧
       foldl (send_one rfm slot) m L p b i = mkXmit (data c) (snd slot).
Proof.
  revert m. induction L as [|c L IH]; intros m; [by left|]. simpl.
  destruct (IH (send_one rfm slot m c)) as [-> | (c' & Hc & Hr)].
  2:{ right. exists c'. split; [by right|done]. }
  rewrite send_one_spec. set (k := if rfm then _ else _). destruct (_ && _) eqn:E; [|by left].
  right. exists c. repeat (apply andb_true_iff in E as [E ?]). assert (Hk : k = true) by done.
  assert (is_rfm c = rfm).
  { unfold k, is_rfm, IRFM0, IRFM1, ISHME, IPCIE in *. destruct rfm; lia. }
  repeat split; try done; [by left|lia..].
Qed.

Lemma send_origin rate delay (S : list (CDS_IPC_INFO F)) ts cs m p b i :
  rate_ok rate → Forall (ready rate) S → 0 <= cs < rate →
  commData3Send rate delay S ts cs m p b i = m p b i ∨
  sent_by rate delay [(S, ts, cs)] p b i (commData3Send rate delay S ts cs m p b i).
Proof.
  intros Hr Hready Hcs. unfold commData3Send.
  assert (Esc : S = [] ∨ match S with c :: _ => sendCycle c | [] => 0 end = period rate).
  { destruct S; [by left|]. right. by apply Forall_cons in Hready as [[-> _] _]. }
  destruct Esc as [->|Esc]; [by left|]. rewrite Esc, send_slot_at, send_slot_delayed_at by done.
  set (m1 := foldl (send_one true _) m S).
  destruct (foldl_send_origin false (slot_at (ts * IPC_MAX_RATE + (cs + 1) * period rate)) S m1 p b i)
    as [-> | (c & Hc & Hm & Hrf & Hp & Hi & Hb & ->)].
  - unfold m1. edestruct foldl_send_origin as [-> | (c & Hc & Hm & Hrf & Hp & Hi & Hb & ->)]; [by left|].
    right. exists S, ts, cs, c. unfold due. fold (is_rfm c). rewrite Hrf, andb_true_r.
    split; [by left|]. destruct delay; done.
  - right. exists S, ts, cs, c. unfold due. fold (is_rfm c). rewrite Hrf, andb_false_r. split; [by left|]. done.
Qed.

Lemma sent_by_mono rate delay h h' p b i x : h ⊆ h' → sent_by rate delay h p b i x → sent_by rate delay h' p b i x.
Proof. intros Hsub (S & ts & cs & c & Hin & Hrest). exists S, ts, cs, c. split; [by apply Hsub|done]. Qed.

Lemma history_origin rate delay h m p b i :
  rate_ok rate → (∀ S ts cs, (S, ts, cs) ∈ h → Forall (ready rate) S ∧ 0 <= cs < rate) →
  send_history rate delay h m p b i = m p b i ∨ sent_by rate delay h p b i (send_history rate delay h m p b i).
Proof.
  intros Hr. revert m. induction h as [|[[S ts] cs] h IH]; intros m Hh; [by left|]. simpl.
  destruct (IH (commData3Send rate delay S ts cs m)) as [-> | Hs].
  { intros S' ts' cs' Hin. apply (Hh S' ts' cs'). by right. }
  - destruct (Hh S ts cs ltac:(by left)) as [H1 H2].
    destruct (send_origin rate delay S ts cs m p b i Hr H1 H2) as [->|Hs]; [by left|]. right.
    eapply sent_by_mono; [|exact Hs]. intros x ->%list_elem_of_singleton. by left.
  - right. eapply sent_by_mono; [|exact Hs]. intros x Hx. by right.
Qed.

(** a receiver never takes stale data.  After any history of sends (by a
    sender of any rate), a connection whose receive changes its value or counts
    no error took, from its own window and channel, data that a send of the history
    wrote for exactly this instant - provided the ring held no entry of this
    instant before; otherwise it keeps its value and counts one error. *)
Theorem ipc_freshness sr rr delay h m tr cr (d : CDS_IPC_INFO F) :
  rate_ok sr → rate_ok rr → ready rr d → mode d = IRCV → 0 <= cr < rr → 0 <= tr < 2 ^ 31 →
  Z.rem cr (rcvCycle d) = 0 →
  (∀ S ts cs, (S, ts, cs) ∈ h → Forall (ready sr) S ∧ 0 <= cs < sr ∧ 0 <= ts < 2 ^ 31) →
  (∀ b, timestamp (m (pIpcDataRead d) b (ipcNum d)) ≠ snd (slot_at (now rr tr cr))) →
  let d' := receive_one rr tr cr (send_history sr delay h m) d in
  (errFlag d' = errFlag d ∧
   ∃ S ts cs c, (S, ts, cs) ∈ h ∧ c ∈ S ∧ mode c = ISND ∧ pIpcDataWrite c = pIpcDataRead d ∧ ipcNum c = ipcNum d ∧
     due delay sr c ts cs = now rr tr cr ∧ data d' = data c) ∨
  (errFlag d' = errFlag d + 1 ∧ data d' = data d).
Proof.
  intros Hsr Hrr Hd Hm Hcr Htr Hrem Hh Hold d'. unfold d'. clear d'.
  destruct (decide (pIpcDataRead d = 0)) as [Hp|Hp].
  { right. unfold receive_one. rewrite Hm, Hrem, Hp. done. }
  rewrite receive_on_time by done. cbv zeta.
  destruct (Z.eqb_spec (timestamp (send_history sr delay h m (pIpcDataRead d) (fst (slot_at (now rr tr cr))) (ipcNum d)))
              (snd (slot_at (now rr tr cr)))) as [E|E]; [left|by right].
  split; [done|]. destruct (history_origin sr delay h m (pIpcDataRead d) (fst (slot_at (now rr tr cr))) (ipcNum d) Hsr)
    as [Es|(S & ts & cs & c & Hin & Hc & Hmc & Hpc & Hic & Ex & _)].
  - intros S ts cs Hin. destruct (Hh S ts cs Hin) as (?&?&_). done.
  - exfalso. rewrite Es in E. by eapply Hold.
  - rewrite Ex in E |- *. cbn [timestamp xdata] in E |- *. exists S, ts, cs, c. do 5 (split; [done|]). split; [|done].
    destruct (Hh S ts cs Hin) as (_ & Hcs & Hts).
    destruct (period_spec sr Hsr) as (Eps & Hps & _). destruct (period_spec rr Hrr) as (Epr & Hpr & _).
    assert (Hdue : 0 <= due delay sr c ts cs < 2 ^ 32 * IPC_MAX_RATE).
    { assert (Ha : ∀ a, 1 <= a <= 2 → 0 <= (cs + a) * period sr <= 2 * IPC_MAX_RATE)
        by (intros a Ha; rewrite <- Eps; destruct Hsr; nia).
      unfold due. destruct (delay && _); [specialize (Ha 2)|specialize (Ha 1)]; unfold IPC_MAX_RATE in *; lia. }
    assert (Hnow : 0 <= now rr tr cr < 2 ^ 32 * IPC_MAX_RATE).
    { unfold now. assert (0 <= cr * period rr <= IPC_MAX_RATE) by (rewrite <- Epr; nia). unfold IPC_MAX_RATE in *. lia. }
    assert (Hdiv : ∀ t, 0 <= t < 2 ^ 32 * IPC_MAX_RATE → 0 <= t / IPC_MAX_RATE < 2 ^ 32 ∧ 0 <= t mod IPC_MAX_RATE < 2 ^ 32).
    { intros t Ht. split; [split; [apply Z.div_pos|apply Z.div_lt_upper_bound]; unfold IPC_MAX_RATE in *; lia|].
      pose proof (Z.mod_pos_bound t IPC_MAX_RATE eq_refl). unfold IPC_MAX_RATE in *. lia. }
    destruct (Hdiv _ Hdue) as [D1 D2]. destruct (Hdiv _ Hnow) as [N1 N2].
    destruct (sync_word_inj _ _ _ _ D1 D2 N1 N2 E) as [E1 E2].
    rewrite (Z.div_mod (due delay sr c ts cs) IPC_MAX_RATE), (Z.div_mod (now rr tr cr) IPC_MAX_RATE) by done.
    by rewrite E1, E2.
Qed.

(** *** Error reporting *)
Definition failing (t : Z) (c : CDS_IPC_INFO F) : bool :=
  (mode c =? IRCV) && (netType c =? t) && truthy (errFlag c).

Lemma report_all_bits e (L : list (CDS_IPC_INFO F)) t :
  0 <= t < 4 → Forall (λ c, 0 <= netType c <= 3) L →
  Z.testbit (fst (report_all e L)) t = Z.testbit e t || existsb (failing t) L ∧
  Z.testbit (fst (report_all e L)) (4 + t) = Z.testbit e (4 + t) || existsb (failing t) L.
Proof.
  intros Ht. revert e. induction L as [|c L IH]; intros e HL; simpl; [by rewrite !orb_false_r|].
  apply Forall_cons in HL as [Hc HL]. unfold report_one.
  assert (Hbits : ∀ k, 0 <= k → Z.testbit (Z.lor (Z.lor e (Z.shiftl 1 (netType c))) (Z.shiftl 16 (netType c))) k =
    Z.testbit e k || (k =? netType c) || (k =? 4 + netType c)).
  { intros k Hk. change 16 with (2 ^ 4). rewrite Z.shiftl_1_l, Z.shiftl_mul_pow2, <- Z.pow_add_r by lia.
    rewrite !Z.lor_spec, !Z.pow2_bits_eqb by lia. by rewrite (Z.eqb_sym k (netType c)), (Z.eqb_sym k (4 + netType c)). }
  specialize (IH (if (mode c =? IRCV) && truthy (errFlag c) then
                    Z.lor (Z.lor e (Z.shiftl 1 (netType c))) (Z.shiftl 16 (netType c)) else e) HL).
  unfold failing at 1 3.
  destruct (mode c =? IRCV); cbn [andb] in *.
  - destruct (truthy (errFlag c)); destruct (report_all _ L) as [e2 L2]; cbn [fst] in *.
    + destruct IH as [-> ->]. rewrite !Hbits by lia. rewrite andb_true_r.
      rewrite (Z.eqb_sym (netType c) t).
      replace (t =? 4 + netType c) with false by lia. replace (4 + t =? netType c) with false by lia.
      replace (4 + t =? 4 + netType c) with (t =? netType c) by lia. rewrite !orb_false_r, !orb_assoc. done.
    + rewrite andb_false_r. done.
  - by destruct (report_all _ L) as [e2 L2].
Qed.

(** errors are reported once a second.  On cycle 0 bit [t] of [ipcErrBits] says
    whether any receiver on network type [t] counted an error in the second just ended
    (this cycle included), bit [4 + t] latches it until cleared from outside, and each
    receiver's count moves to [errTotal] and restarts at zero. *)
Theorem ipc_error_report rr tr m e (R : list (CDS_IPC_INFO F)) :
  Forall (λ c, 0 <= netType c <= 3) R →
  let '(e', R') := commData3Receive rr R tr 0 m e in
  let got := map (receive_one rr tr 0 m) R in
  (∀ t, 0 <= t < 4 →
     Z.testbit e' t = existsb (failing t) got ∧
     Z.testbit e' (4 + t) = Z.testbit e (4 + t) || existsb (failing t) got) ∧
  (∀ j d, got !! j = Some d → mode d = IRCV →
     ∃ d', R' !! j = Some d' ∧ errFlag d' = 0 ∧ errTotal d' = errFlag d ∧ data d' = data d).
Proof.
  intros HR. unfold commData3Receive. rewrite Z.eqb_refl. set (got := map _ R).
  assert (Hgot : Forall (λ c, 0 <= netType c <= 3) got).
  { unfold got. apply Forall_fmap. eapply Forall_impl; [exact HR|]. intros c Hc. cbn. unfold receive_one.
    by repeat match goal with |- context [if ?b then _ else _] => destruct b end. }
  destruct (report_all (Z.land e 0xf0) got) as [e' R'] eqn:E. split.
  - intros t Ht. pose proof (report_all_bits (Z.land e 0xf0) got t Ht Hgot) as [E1 E2]. rewrite E in E1, E2.
    cbn [fst] in E1, E2. rewrite E1, E2, !Z.land_spec.
    assert (Hlo : Z.testbit 0xf0 t = false) by (assert (t = 0 ∨ t = 1 ∨ t = 2 ∨ t = 3) as [->|[->|[->| ->]]] by lia; done).
    assert (Hhi : Z.testbit 0xf0 (4 + t) = true) by (assert (t = 0 ∨ t = 1 ∨ t = 2 ∨ t = 3) as [->|[->|[->| ->]]] by lia; done).
    by rewrite Hlo, Hhi, andb_false_r, andb_true_r.
  - intros j d Hj Hm. exists (set_err 0 (errFlag d) d). split; [|done].
    pose proof (report_lookup (Z.land e 0xf0) got j d Hj Hm) as Hl. by rewrite E in Hl.
Qed.
End theory.

(** ** A concrete exchange: a 2 kHz sender, a 16 kHz receiver, shared memory. *)
Definition demo_win : Windows := mkWin 4096 [0; 0] [0; 0].
Definition demo_snd : list (CDS_IPC_INFO binary64) :=
  map (set_data (flit 25 (-1)))
    (commData3Init demo_win 2048 [mkIpc f0 ISHME 0 0 0 0 7 ISND 0 0 0 0; mkIpc f0 ISHME 0 0 0 0 8 ISND 0 0 0 0]).
Definition demo_rcv : list (CDS_IPC_INFO binary64) :=
  commData3Init demo_win 16384 [mkIpc f0 ISHME 0 2048 0 0 7 IRCV 0 0 0 0; mkIpc f0 IPCIE 0 2048 0 0 9 IRCV 0 0 0 0].
Definition demo_mem : Memory binary64 := λ _ _ _, mkXmit f0 0.

Lemma demo_rates : rate_ok 2048 ∧ rate_ok 16384.
Proof. split; split; try lia; [exists 32 | exists 4]; done. Qed.

Lemma demo_ready : Forall (ready 2048) demo_snd ∧ Forall (ready 16384) demo_rcv.
Proof. split; repeat constructor; done. Qed.

Lemma ipc_delivery_witness :
  ∃ d', snd (commData3Receive 16384 demo_rcv 1001 0 (commData3Send 2048 false demo_snd 1000 2047 demo_mem) 0) !! 0%nat
        = Some d' ∧ data d' = flit 25 (-1).
Proof.
  destruct demo_rates as [R1 R2]. destruct demo_ready as [D1 D2].
  assert (Huniq : ∀ n' (c' : CDS_IPC_INFO binary64), demo_snd !! n' = Some c' → n' ≠ 0%nat →
            ¬ sends c' 4096 7).
  { intros [|[|n']] c' Hc Hn (_ & _ & _ & _ & Hi); [done| |done]. injection Hc as <-. done. }
  destruct (ipc_delivery 2048 16384 false demo_snd demo_rcv 0 _ 0 _ 1000 2047 1001 0 demo_mem 0 R1 R2
    ltac:(right; by exists 8) D1 D2 eq_refl eq_refl ltac:(by repeat split) eq_refl eq_refl Huniq
    ltac:(lia) ltac:(lia) eq_refl) as (d' & Hd & Hx & _).
  exists d'. split; [exact Hd|exact Hx].
Defined.

Lemma ipc_freshness_witness :
  let d := mkIpc (F:=binary64) f0 ISHME 4 2048 8 8 7 IRCV 0 0 4096 0 in
  let d' := receive_one 16384 1000 8 (send_history 2048 false [(demo_snd, 1000, 3)] demo_mem) d in
  errFlag d' = 1 ∧ data d' = f0.
Proof.
  destruct demo_rates as [R1 R2]. destruct demo_ready as [D1 D2].
  destruct (ipc_freshness 2048 16384 false [(demo_snd, 1000, 3)] demo_mem 1000 8
    (mkIpc (F:=binary64) f0 ISHME 4 2048 8 8 7 IRCV 0 0 4096 0) R1 R2 ltac:(by split) eq_refl ltac:(lia) ltac:(lia) eq_refl)
    as [(_ & S & ts & cs & c & Hin & Hc & _ & _ & _ & Hdue & _)|Hr].
  - intros S ts cs Hin%list_elem_of_singleton. injection Hin as -> -> ->. split; [exact D1|lia].
  - intros b. done.
  - exfalso. apply list_elem_of_singleton in Hin. injection Hin as -> -> ->.
    assert (Hd : due false 2048 c 1000 3 = 1000 * 65536 + 4 * 32) by done. rewrite Hd in Hdue. done.
  - exact Hr.
Defined.

Lemma ipc_error_report_witness :
  Z.testbit (fst (commData3Receive 16384 demo_rcv 1000 0 demo_mem 0x10)) 1 = true.
Proof.
  pose proof (ipc_error_report 16384 1000 demo_mem 0x10 demo_rcv ltac:(repeat constructor; done)) as Hr.
  destruct (commData3Receive _ _ _ _ _ _) as [e' R']. destruct Hr as [Hb _].
  assert (H1 : 0 <= 1 < 4) by lia. destruct (Hb 1 H1) as [E _]. cbn [fst]. rewrite E. vm_compute. reflexivity.
Defined.
End Ipc.
