(* ===== verification/Dac.v ===== *)
(** * Digital to analogue output ([src/include/drv/app_dac_functions.c],
    [iop_dac_functions.c], [dac_info.c])

    Control applications round, clip and publish their outputs in memory shared
    with the I/O processor (IOP) of the computer; the IOP collects them each
    cycle and hands them to the DAC cards.

    - [Cards]: what is known of the DAC cards; [IoData]: the shared blocks;
    - [app_dac_init], [deallocate_dac_channels]: the allocation of channels to
      applications;
    - [app_dac_write], [iop_dac_write]: the two ends of the output path, one
      definition per loop level;
    - [check_dac_buffers], [dac_status_update], [iop_dac_init],
      [iop_dac_preload], [iop_dac_recover]: supervision of the cards. *)
From S2P Require Import Prelude CFloat Iir FilterModule.
Import Iir.

Module Dac.

Definition MAX_DAC_MODULES : nat := 12.
Definition MAX_DAC_CHN_PER_MOD : nat := 16.
Definition GSC_16AO16 : Z := 2.
Definition GSC_20AO8 : Z := 3.
Definition GSC_18AO8 : Z := 8.
Definition IO_MEMORY_SLOTS : Z := 4096.
Definition OVERFLOW_LIMIT_16BIT : Z := 32760.
Definition OVERFLOW_LIMIT_18BIT : Z := 131060.
Definition OVERFLOW_LIMIT_20BIT : Z := 512240.
Definition OVERFLOW_CNTR_LIMIT : Z := 0x1000000.
Definition DAC_START_CYCLE : Z := 4.
Definition DAC_CAL_PASS : Z := 0x100000.
Definition GSAO_16BIT_PRELOAD : nat := 144.
Definition GSAO_18BIT_PRELOAD : nat := 64.
Definition GSAO_20BIT_PRELOAD : nat := 64.
Definition GSAO_16BIT_MASK : Z := 0xffff.
Definition GSAO_18BIT_MASK : Z := 0x3ffff.
Definition GSAO_20BIT_MASK : Z := 0x1fffff.
Definition GSAO_16BIT_CHAN_COUNT : nat := 16.
Definition GSAO_18BIT_CHAN_COUNT : nat := 8.
Definition GSAO_20BIT_CHAN_COUNT : nat := 8.
Definition ODC_DAC_OVF : Z := 0x2.
Definition FE_ERROR_OVERFLOW : Z := 0x200.
Definition DAC_FOUND_BIT : Z := 1.
Definition DAC_TIMING_BIT : Z := 2.
Definition DAC_OVERFLOW_BIT : Z := 4.
Definition DAC_FIFO_BIT : Z := 8.
Definition DAC_FIFO_EMPTY : Z := 32.
Definition DAC_FIFO_HI_QTR : Z := 64.
Definition DAC_FIFO_FULL : Z := 128.
Definition DAC_AUTOCAL_BIT : Z := 256.
Definition DAC_WD_TRIP_SET : Z := 5.
Definition HKP_DAC_FIFO_CHK : Z := 600.
Definition pBits : list Z := [1; 2; 4; 8; 16; 32; 64; 128; 256].

(** The DAC part of [cdsPciModules] and [ioMemData->adcCount]. *)
Record Cards := mkCards {
  dacCount : nat;
  dacConfig : list Z;
  dacType : list Z;
  dacAcr : list Z;
  adcCount : Z
}.

(** [struct MEM_DATA_BLOCK] and [ioMemData->iodata], by module and slot. *)
Record MEM_DATA_BLOCK := mkBlock { timeSec : Z; bcycle : Z; bdata : list Z }.
Definition IoData : Type := Z → Z → MEM_DATA_BLOCK.
Definition upd_block (mm slot : Z) (f : MEM_DATA_BLOCK → MEM_DATA_BLOCK) (d : IoData) : IoData :=
  λ mm' slot', if (mm =? mm') && (slot =? slot') then f (d mm slot) else d mm' slot'.
Definition set_word (i : nat) (x : Z) (b : MEM_DATA_BLOCK) : MEM_DATA_BLOCK :=
  mkBlock (timeSec b) (bcycle b) (<[i := x]> (bdata b)).
Definition set_cycle (c : Z) (b : MEM_DATA_BLOCK) : MEM_DATA_BLOCK := mkBlock (timeSec b) c (bdata b).

(** [a[j][i] = x] and [a[j][i]++]. *)
Definition put2 {A} (j i : nat) (x : A) (a : list (list A)) : list (list A) := alter (λ r, <[i := x]> r) j a.
Definition incr2 (j i : nat) (a : list (list Z)) : list (list Z) := alter (λ r, alter (λ n, n + 1) i r) j a.
(** [p[j] |= b] and [p[j] &= ~b]. *)
Definition or_at (j : nat) (b : Z) (p : list Z) : list Z := alter (λ s, Z.lor s b) j p.
Definition clr_at (j : nat) (b : Z) (p : list Z) : list Z := alter (λ s, Z.land s (Z.lnot b)) j p.

(** Limit, mask and channel count of a card. *)
Definition dac_params (type : Z) : Z * Z * nat :=
  let p := (OVERFLOW_LIMIT_16BIT, GSAO_16BIT_MASK, GSAO_16BIT_CHAN_COUNT) in
  let p := if type =? GSC_18AO8 then (OVERFLOW_LIMIT_18BIT, GSAO_18BIT_MASK, GSAO_18BIT_CHAN_COUNT) else p in
  if type =? GSC_20AO8 then (OVERFLOW_LIMIT_20BIT, GSAO_20BIT_MASK, GSAO_20BIT_CHAN_COUNT) else p.

(** The overflow test and the clipping of both ends. *)
Definition overflows (limit out : Z) : bool := (out >? limit) || (out <? - limit).
Definition clip (limit out : Z) : Z :=
  if overflows limit out then (if out >? limit then limit else - limit) else out.

(** *** Channel allocation *)

(** [used[ii][jj]] of the application, [map] the shared [ioMemData->dacOutUsed]. *)
Definition phys (c : Cards) (ii : nat) : nat := Z.to_nat (dacConfig c !!! ii - adcCount c).
Definition claimed (used : list (list Z)) (ii jj : nat) : bool := truthy ((used !!! ii) !!! jj).

Definition conflict (c : Cards) (used map : list (list Z)) : bool :=
  existsb (λ ii, truthy (dacConfig c !!! ii) &&
    existsb (λ jj, claimed used ii jj && claimed map (phys c ii) jj) (seq 0 16)) (seq 0 (dacCount c)).

Definition claim_card (c : Cards) (used : list (list Z)) (ii : nat) (st : list (list Z) * list Z)
  : list (list Z) * list Z :=
  let '(map, stat) := st in
  if truthy (dacConfig c !!! ii) then
    (for_n MAX_DAC_CHN_PER_MOD (λ jj map, if claimed used ii jj then put2 (phys c ii) jj 1 map else map) map,
     <[ii := DAC_FOUND_BIT]> stat)
  else st.

(** Returns the status, the shared map and [statDac]. *)
Definition app_dac_init (c : Cards) (used map : list (list Z)) (stat : list Z) : Z * (list (list Z) * list Z) :=
  if conflict c used map then (1, (map, stat))
  else (0, for_n (dacCount c) (claim_card c used) (map, stat)).

Definition deallocate_dac_channels (c : Cards) (used map : list (list Z)) : list (list Z) :=
  for_n MAX_DAC_MODULES (λ ii map,
    if truthy (dacConfig c !!! ii) then
      for_n 16 (λ jj map, if claimed used ii jj then put2 (phys c ii) jj 0 map else map) map
    else map) map.

Section defs.
Context {F : Type} `{FloatOps F}.

(** What [app_dac_write] reads and writes. *)
Record AppDac := mkApp {
  dacOut : list (list F);
  dDacHistory : list (list F);
  overflowDac : list (list Z);
  overflowDacAcc : list (list Z);
  overflowAcc : Z;
  dacOF : list Z;
  odcStateWord : Z;
  dacOutEpics : list (list Z);
  floatDacOut : list F;
  iodata : IoData
}.

(** What [iop_dac_write] reads and writes; [dmaStarted] logs the cards whose DMA
    was started, [pci_dac] is the DMA buffer of each card. *)
Record IopDac := mkIop {
  ip_overflowDac : list (list Z);
  ip_overflowDacAcc : list (list Z);
  ip_overflowAcc : Z;
  ip_dacOF : list Z;
  ip_odcStateWord : Z;
  ip_dacOutEpics : list (list Z);
  dac_out_last : list (list Z);
  ip_floatDacOut : list F;
  ip_iodata : IoData;
  pci_dac : list (list Z);
  dacEnable : Z;
  dacChanErr : list Z;
  dmaStarted : list nat;
  ioClockDac : Z;
  ioMemCntrDac : Z;
  dacWriteEnable : Z
}.

Definition set_dacOut (v : list (list F)) (r : AppDac) : AppDac :=
  mkApp v (dDacHistory r) (overflowDac r) (overflowDacAcc r) (overflowAcc r) (dacOF r)
    (odcStateWord r) (dacOutEpics r) (floatDacOut r) (iodata r).
Definition set_dDacHistory (v : list (list F)) (r : AppDac) : AppDac :=
  mkApp (dacOut r) v (overflowDac r) (overflowDacAcc r) (overflowAcc r) (dacOF r)
    (odcStateWord r) (dacOutEpics r) (floatDacOut r) (iodata r).
Definition set_overflowDac (v : list (list Z)) (r : AppDac) : AppDac :=
  mkApp (dacOut r) (dDacHistory r) v (overflowDacAcc r) (overflowAcc r) (dacOF r)
    (odcStateWord r) (dacOutEpics r) (floatDacOut r) (iodata r).
Definition set_overflowDacAcc (v : list (list Z)) (r : AppDac) : AppDac :=
  mkApp (dacOut r) (dDacHistory r) (overflowDac r) v (overflowAcc r) (dacOF r)
    (odcStateWord r) (dacOutEpics r) (floatDacOut r) (iodata r).
Definition set_overflowAcc (v : Z) (r : AppDac) : AppDac :=
  mkApp (dacOut r) (dDacHistory r) (overflowDac r) (overflowDacAcc r) v (dacOF r)
    (odcStateWord r) (dacOutEpics r) (floatDacOut r) (iodata r).
Definition set_dacOF (v : list Z) (r : AppDac) : AppDac :=
  mkApp (dacOut r) (dDacHistory r) (overflowDac r) (overflowDacAcc r) (overflowAcc r) v
    (odcStateWord r) (dacOutEpics r) (floatDacOut r) (iodata r).
Definition set_odcStateWord (v : Z) (r : AppDac) : AppDac :=
  mkApp (dacOut r) (dDacHistory r) (overflowDac r) (overflowDacAcc r) (overflowAcc r)
    (dacOF r) v (dacOutEpics r) (floatDacOut r) (iodata r).
Definition set_dacOutEpics (v : list (list Z)) (r : AppDac) : AppDac :=
  mkApp (dacOut r) (dDacHistory r) (overflowDac r) (overflowDacAcc r) (overflowAcc r)
    (dacOF r) (odcStateWord r) v (floatDacOut r) (iodata r).
Definition set_floatDacOut (v : list F) (r : AppDac) : AppDac :=
  mkApp (dacOut r) (dDacHistory r) (overflowDac r) (overflowDacAcc r) (overflowAcc r)
    (dacOF r) (odcStateWord r) (dacOutEpics r) v (iodata r).
Definition set_iodata (v : IoData) (r : AppDac) : AppDac :=
  mkApp (dacOut r) (dDacHistory r) (overflowDac r) (overflowDacAcc r) (overflowAcc r)
    (dacOF r) (odcStateWord r) (dacOutEpics r) (floatDacOut r) v.

Definition set_ip_overflowDac (v : list (list Z)) (r : IopDac) : IopDac :=
  mkIop v (ip_overflowDacAcc r) (ip_overflowAcc r) (ip_dacOF r) (ip_odcStateWord r)
    (ip_dacOutEpics r) (dac_out_last r) (ip_floatDacOut r) (ip_iodata r) (pci_dac r)
    (dacEnable r) (dacChanErr r) (dmaStarted r) (ioClockDac r) (ioMemCntrDac r)
    (dacWriteEnable r).
Definition set_ip_overflowDacAcc (v : list (list Z)) (r : IopDac) : IopDac :=
  mkIop (ip_overflowDac r) v (ip_overflowAcc r) (ip_dacOF r) (ip_odcStateWord r)
    (ip_dacOutEpics r) (dac_out_last r) (ip_floatDacOut r) (ip_iodata r) (pci_dac r)
    (dacEnable r) (dacChanErr r) (dmaStarted r) (ioClockDac r) (ioMemCntrDac r)
    (dacWriteEnable r).
Definition set_ip_overflowAcc (v : Z) (r : IopDac) : IopDac :=
  mkIop (ip_overflowDac r) (ip_overflowDacAcc r) v (ip_dacOF r) (ip_odcStateWord r)
    (ip_dacOutEpics r) (dac_out_last r) (ip_floatDacOut r) (ip_iodata r) (pci_dac r)
    (dacEnable r) (dacChanErr r) (dmaStarted r) (ioClockDac r) (ioMemCntrDac r)
    (dacWriteEnable r).
Definition set_ip_dacOF (v : list Z) (r : IopDac) : IopDac :=
  mkIop (ip_overflowDac r) (ip_overflowDacAcc r) (ip_overflowAcc r) v (ip_odcStateWord r)
    (ip_dacOutEpics r) (dac_out_last r) (ip_floatDacOut r) (ip_iodata r) (pci_dac r)
    (dacEnable r) (dacChanErr r) (dmaStarted r) (ioClockDac r) (ioMemCntrDac r)
    (dacWriteEnable r).
Definition set_ip_odcStateWord (v : Z) (r : IopDac) : IopDac :=
  mkIop (ip_overflowDac r) (ip_overflowDacAcc r) (ip_overflowAcc r) (ip_dacOF r) v
    (ip_dacOutEpics r) (dac_out_last r) (ip_floatDacOut r) (ip_iodata r) (pci_dac r)
    (dacEnable r) (dacChanErr r) (dmaStarted r) (ioClockDac r) (ioMemCntrDac r)
    (dacWriteEnable r).
Definition set_ip_dacOutEpics (v : list (list Z)) (r : IopDac) : IopDac :=
  mkIop (ip_overflowDac r) (ip_overflowDacAcc r) (ip_overflowAcc r) (ip_dacOF r)
    (ip_odcStateWord r) v (dac_out_last r) (ip_floatDacOut r) (ip_iodata r) (pci_dac r)
    (dacEnable r) (dacChanErr r) (dmaStarted r) (ioClockDac r) (ioMemCntrDac r)
    (dacWriteEnable r).
Definition set_dac_out_last (v : list (list Z)) (r : IopDac) : IopDac :=
  mkIop (ip_overflowDac r) (ip_overflowDacAcc r) (ip_overflowAcc r) (ip_dacOF r)
    (ip_odcStateWord r) (ip_dacOutEpics r) v (ip_floatDacOut r) (ip_iodata r) (pci_dac r)
    (dacEnable r) (dacChanErr r) (dmaStarted r) (ioClockDac r) (ioMemCntrDac r)
    (dacWriteEnable r).
Definition set_ip_floatDacOut (v : list F) (r : IopDac) : IopDac :=
  mkIop (ip_overflowDac r) (ip_overflowDacAcc r) (ip_overflowAcc r) (ip_dacOF r)
    (ip_odcStateWord r) (ip_dacOutEpics r) (dac_out_last r) v (ip_iodata r) (pci_dac r)
    (dacEnable r) (dacChanErr r) (dmaStarted r) (ioClockDac r) (ioMemCntrDac r)
    (dacWriteEnable r).
Definition set_ip_iodata (v : IoData) (r : IopDac) : IopDac :=
  mkIop (ip_overflowDac r) (ip_overflowDacAcc r) (ip_overflowAcc r) (ip_dacOF r)
    (ip_odcStateWord r) (ip_dacOutEpics r) (dac_out_last r) (ip_floatDacOut r) v (pci_dac r)
    (dacEnable r) (dacChanErr r) (dmaStarted r) (ioClockDac r) (ioMemCntrDac r)
    (dacWriteEnable r).
Definition set_pci_dac (v : list (list Z)) (r : IopDac) : IopDac :=
  mkIop (ip_overflowDac r) (ip_overflowDacAcc r) (ip_overflowAcc r) (ip_dacOF r)
    (ip_odcStateWord r) (ip_dacOutEpics r) (dac_out_last r) (ip_floatDacOut r) (ip_iodata r)
    v (dacEnable r) (dacChanErr r) (dmaStarted r) (ioClockDac r) (ioMemCntrDac r)
    (dacWriteEnable r).
Definition set_dacEnable (v : Z) (r : IopDac) : IopDac :=
  mkIop (ip_overflowDac r) (ip_overflowDacAcc r) (ip_overflowAcc r) (ip_dacOF r)
    (ip_odcStateWord r) (ip_dacOutEpics r) (dac_out_last r) (ip_floatDacOut r) (ip_iodata r)
    (pci_dac r) v (dacChanErr r) (dmaStarted r) (ioClockDac r) (ioMemCntrDac r)
    (dacWriteEnable r).
Definition set_dacChanErr (v : list Z) (r : IopDac) : IopDac :=
  mkIop (ip_overflowDac r) (ip_overflowDacAcc r) (ip_overflowAcc r) (ip_dacOF r)
    (ip_odcStateWord r) (ip_dacOutEpics r) (dac_out_last r) (ip_floatDacOut r) (ip_iodata r)
    (pci_dac r) (dacEnable r) v (dmaStarted r) (ioClockDac r) (ioMemCntrDac r)
    (dacWriteEnable r).
Definition set_dmaStarted (v : list nat) (r : IopDac) : IopDac :=
  mkIop (ip_overflowDac r) (ip_overflowDacAcc r) (ip_overflowAcc r) (ip_dacOF r)
    (ip_odcStateWord r) (ip_dacOutEpics r) (dac_out_last r) (ip_floatDacOut r) (ip_iodata r)
    (pci_dac r) (dacEnable r) (dacChanErr r) v (ioClockDac r) (ioMemCntrDac r)
    (dacWriteEnable r).
Definition set_ioClockDac (v : Z) (r : IopDac) : IopDac :=
  mkIop (ip_overflowDac r) (ip_overflowDacAcc r) (ip_overflowAcc r) (ip_dacOF r)
    (ip_odcStateWord r) (ip_dacOutEpics r) (dac_out_last r) (ip_floatDacOut r) (ip_iodata r)
    (pci_dac r) (dacEnable r) (dacChanErr r) (dmaStarted r) v (ioMemCntrDac r)
    (dacWriteEnable r).
Definition set_ioMemCntrDac (v : Z) (r : IopDac) : IopDac :=
  mkIop (ip_overflowDac r) (ip_overflowDacAcc r) (ip_overflowAcc r) (ip_dacOF r)
    (ip_odcStateWord r) (ip_dacOutEpics r) (dac_out_last r) (ip_floatDacOut r) (ip_iodata r)
    (pci_dac r) (dacEnable r) (dacChanErr r) (dmaStarted r) (ioClockDac r) v
    (dacWriteEnable r).
Definition set_dacWriteEnable (v : Z) (r : IopDac) : IopDac :=
  mkIop (ip_overflowDac r) (ip_overflowDacAcc r) (ip_overflowAcc r) (ip_dacOF r)
    (ip_odcStateWord r) (ip_dacOutEpics r) (dac_out_last r) (ip_floatDacOut r) (ip_iodata r)
    (pci_dac r) (dacEnable r) (dacChanErr r) (dmaStarted r) (ioClockDac r) (ioMemCntrDac r)
    v.

(** Build options: the rates, the upsampling filter and how it is fed. *)
Inductive oversample_dac := OVERSAMPLE_OFF | ZERO_PAD | NO_ZERO_PAD.
Record Build := mkBuild {
  OVERSAMPLE_TIMES : nat;
  IOP_IO_RATE : Z;
  FE_OVERSAMPLE_COEFF : list F;
  OVERSAMPLE_DAC : oversample_dac;
  FLIP_SIGNALS : bool
}.

(** *** The application end *)

(** The value of channel [ii] of DAC [jj] on upsampling round [kk], through the
    filter when the build has one. *)
Definition upsample (bd : Build) (jj kk ii : nat) (s : AppDac) : F * AppDac :=
  let h := (ii + jj * MAX_DAC_CHN_PER_MOD)%nat in
  let x := (dacOut s !!! jj) !!! ii in
  match OVERSAMPLE_DAC bd with
  | OVERSAMPLE_OFF => (x, s)
  | NO_ZERO_PAD =>
      let '(y, hist) := iir_filter_biquad x (FE_OVERSAMPLE_COEFF bd) 2 (dDacHistory s !!! h) in
      (y, set_dDacHistory (<[h := hist]> (dDacHistory s)) s)
  | ZERO_PAD =>
      let x := if (kk =? 0)%nat then x else flit 0 0 in
      let '(y, hist) := iir_filter_biquad x (FE_OVERSAMPLE_COEFF bd) 2 (dDacHistory s !!! h) in
      (y ⊗ fofZ (Z.of_nat (OVERSAMPLE_TIMES bd)), set_dDacHistory (<[h := hist]> (dDacHistory s)) s)
  end.

(** Half away from zero, then the conversion to [int]. *)
Definition dac_round (x : F) : Z := f_to_int (if x >ᶠ flit 0 0 then x ⊕ flit 5 (-1) else x ⊖ flit 5 (-1)).

(** One channel: lines 109-192. *)
Definition app_dac_channel (bd : Build) (used : list (list Z)) (enable : bool) (mm memCtr limit : Z) (jj kk ii : nat)
    (s : AppDac) : AppDac :=
  let s := if FLIP_SIGNALS bd
           then set_dacOut (put2 jj ii (((dacOut s !!! jj) !!! ii) ⊗ fofZ (-1)) (dacOut s)) s else s in
  let '(dac_in, s) := if claimed used jj ii then upsample bd jj kk ii s else (flit 0 0, s) in
  let dac_out := dac_round dac_in in
  let s :=
    if overflows limit dac_out then
      set_overflowDac (incr2 jj ii (overflowDac s))
      (set_overflowDacAcc (incr2 jj ii (overflowDacAcc s))
      (set_overflowAcc (overflowAcc s + 1)
      (set_dacOF (<[jj := 1]> (dacOF s))
      (set_odcStateWord (Z.lor (odcStateWord s) ODC_DAC_OVF) s))))
    else s in
  let dac_out := clip limit dac_out in
  let dac_out := if enable then dac_out else 0 in
  let s := set_dacOutEpics (put2 jj ii dac_out (dacOutEpics s)) s in
  let s := set_floatDacOut (<[(16 * jj + ii)%nat := fsingle (fofZ dac_out)]> (floatDacOut s)) s in
  if claimed used jj ii then set_iodata (upd_block mm memCtr (set_word ii dac_out) (iodata s)) s else s.

(** One upsampling round of a card: lines 106-197. *)
Definition app_dac_sample (bd : Build) (used : list (list Z)) (enable : bool) (ioMemCtrDac ioClkDac mm type : Z)
    (jj kk : nat) (s : AppDac) : AppDac :=
  let '(limit, _, num_outs) := dac_params type in
  let memCtr := Z.rem (ioMemCtrDac + Z.of_nat kk) IO_MEMORY_SLOTS in
  let s := for_n num_outs (app_dac_channel bd used enable mm memCtr limit jj kk) s in
  if enable then
    set_iodata (upd_block mm memCtr (set_cycle (Z.rem (ioClkDac + Z.of_nat kk) (IOP_IO_RATE bd))) (iodata s)) s
  else s.

Definition app_dac_card (c : Cards) (bd : Build) (used : list (list Z)) (enable : bool) (ioMemCtrDac ioClkDac : Z)
    (jj : nat) (s : AppDac) : AppDac :=
  let mm := dacConfig c !!! jj in
  if truthy mm then
    for_n (OVERSAMPLE_TIMES bd)
      (λ kk s, app_dac_sample bd used enable ioMemCtrDac ioClkDac mm (dacType c !!! jj) jj kk s) s
  else s.

Definition app_dac_write (c : Cards) (bd : Build) (used : list (list Z)) (enable : bool) (ioMemCtrDac ioClkDac : Z)
    (s : AppDac) : AppDac :=
  for_n (dacCount c) (app_dac_card c bd used enable ioMemCtrDac ioClkDac) s.

(** *** The IOP end *)

(** One channel: lines 171-243; [duotone] is the ADC sample the first card's last
    channel shows when the DAC duotone is enabled.  Returns [status]. *)
Definition iop_dac_channel (in_delay : Z) (enable : bool) (duotone : option Z) (mm type : Z) (card chan : nat)
    (st : Z * IopDac) : Z * IopDac :=
  let '(status, s) := st in
  let '(limit, mask, num_outs) := dac_params type in
  let slot := ioMemCntrDac s in
  let '(dac_out, status, s) :=
    if negb (truthy (dacChanErr s !!! card)) && enable then
      let dac_out := if in_delay =? 0 then bdata (ip_iodata s mm slot) !!! chan else (dac_out_last s !!! card) !!! chan in
      (dac_out, status, set_ip_iodata (upd_block mm slot (set_word chan 0) (ip_iodata s)) s)
    else (0, 1, s) in
  let dac_out := match duotone with
                 | Some d => if ((chan =? num_outs - 1) && (card =? 0))%nat then d else dac_out
                 | None => dac_out
                 end in
  let s :=
    if overflows limit dac_out then
      set_ip_overflowDac (incr2 card chan (ip_overflowDac s))
      (set_ip_overflowDacAcc (incr2 card chan (ip_overflowDacAcc s))
      (set_ip_overflowAcc (ip_overflowAcc s + 1)
      (set_ip_dacOF (<[card := 1]> (ip_dacOF s))
      (set_ip_odcStateWord (Z.lor (ip_odcStateWord s) ODC_DAC_OVF) s))))
    else s in
  let dac_out := clip limit dac_out in
  let dac_out := if enable then dac_out else 0 in
  let s := set_ip_dacOutEpics (put2 card chan dac_out (ip_dacOutEpics s)) s in
  let s := set_dac_out_last (put2 card chan dac_out (dac_out_last s)) s in
  let s := set_ip_floatDacOut (<[(16 * card + chan)%nat := fsingle (fofZ dac_out)]> (ip_floatDacOut s)) s in
  (status, set_pci_dac (put2 card chan (Z.land dac_out mask) (pci_dac s)) s).

(** The cycle check of a card: lines 141-152. *)
Definition iop_check_cycle (in_delay mm : Z) (card : nat) (s : IopDac) : IopDac :=
  if (bcycle (ip_iodata s mm (ioMemCntrDac s)) =? ioClockDac s) || (in_delay =? 1) then
    set_dacEnable (Z.lor (dacEnable s) (pBits !!! card)) s
  else
    set_dacChanErr (alter (λ n, n + 1) card (dacChanErr s))
      (set_dacEnable (Z.land (dacEnable s) (Z.lnot (pBits !!! card))) s).

Definition iop_dac_card (c : Cards) (in_delay : Z) (enable : bool) (duotone : option Z) (card : nat)
    (st : Z * IopDac) : Z * IopDac :=
  let '(status, s) := st in
  let mm := dacConfig c !!! card in
  let type := dacType c !!! card in
  let s := iop_check_cycle in_delay mm card s in
  let '(_, _, num_outs) := dac_params type in
  let '(status, s) := for_n num_outs (iop_dac_channel in_delay enable duotone mm type card) (status, s) in
  let s := set_ip_iodata (upd_block mm (ioMemCntrDac s) (set_cycle (-1)) (ip_iodata s)) s in
  let s := if dacWriteEnable s >? DAC_START_CYCLE then set_dmaStarted (dmaStarted s ++ [card]) s else s in
  (status, s).

Definition iop_dac_write (c : Cards) (bd : Build) (in_delay : Z) (enable : bool) (duotone : option Z) (s : IopDac)
  : Z * IopDac :=
  let '(status, s) :=
    if (dacWriteEnable s >? DAC_START_CYCLE) && (in_delay <? 2)
    then for_n (dacCount c) (iop_dac_card c in_delay enable duotone) (0, s) else (0, s) in
  let s := set_ioClockDac (Z.rem (ioClockDac s + 1) (IOP_IO_RATE bd)) s in
  let s := set_ioMemCntrDac (Z.rem (ioMemCntrDac s + 1) IO_MEMORY_SLOTS) s in
  (status, if dacWriteEnable s <? 10 then set_dacWriteEnable (dacWriteEnable s + 1) s else s).

(** [iop_dac_init]: [dacOut], [dacOutUsed], the shared [dacOutUsed], [dacOutBufSize] and
    [errorPend] zeroed, and the cards' [statDac]; the set-up of their DMA is a
    driver's. *)
Definition iop_dac_init (c : Cards) (stat : list Z)
  : list (list F) * list (list Z) * list (list Z) * list Z * list Z * list Z :=
  (replicate MAX_DAC_MODULES (replicate 16 (flit 0 0)), replicate MAX_DAC_MODULES (replicate 16 0),
   replicate MAX_DAC_MODULES (replicate 16 0), replicate MAX_DAC_MODULES 0, replicate MAX_DAC_MODULES 0,
   for_n (dacCount c) (λ jj p,
     let p := <[jj := DAC_FOUND_BIT]> p in
     if truthy (Z.land (dacAcr c !!! jj) DAC_CAL_PASS) then or_at jj DAC_AUTOCAL_BIT p else p) stat).

(** The values [iop_dac_preload] and [iop_dac_recover] write to a card's data
    register, in order; [dacOutEpics] is read as the flat array it is. *)
Definition preload_words (type : Z) : list Z :=
  replicate (if type =? GSC_18AO8 then GSAO_18BIT_PRELOAD
             else if type =? GSC_20AO8 then GSAO_20BIT_PRELOAD else GSAO_16BIT_PRELOAD) 0.
Definition iop_dac_preload (c : Cards) : list (list Z) :=
  map (λ jj, preload_words (dacType c !!! jj)) (seq 0 (dacCount c)).

Definition recover_words (samples : nat) (type : Z) (card : nat) (outEpics : list (list Z)) : list Z :=
  let n := if type =? GSC_18AO8 then (GSAO_18BIT_CHAN_COUNT * samples)%nat
           else if type =? GSC_20AO8 then (GSAO_20BIT_CHAN_COUNT * samples)%nat
           else (GSAO_16BIT_CHAN_COUNT * samples * 2)%nat in
  map (λ chan, concat outEpics !!! (card * MAX_DAC_CHN_PER_MOD + chan)%nat) (seq 0 n).
Definition iop_dac_recover (c : Cards) (samples : nat) (outEpics : list (list Z)) : list (list Z) :=
  map (λ card, recover_words samples (dacType c !!! card) card outEpics) (seq 0 (dacCount c)).

(** *** Supervision *)
(** What [check_dac_buffers] reads and writes. *)
Record Fifo := mkFifo {
  statDac : list Z;
  buffDac : list Z;
  dacOutBufSize : list Z;
  dacTimingError : Z;
  dacTimingErrorPending : list Z
}.

Definition set_statDac (v : list Z) (r : Fifo) : Fifo :=
  mkFifo v (buffDac r) (dacOutBufSize r) (dacTimingError r) (dacTimingErrorPending r).
Definition set_buffDac (v : list Z) (r : Fifo) : Fifo :=
  mkFifo (statDac r) v (dacOutBufSize r) (dacTimingError r) (dacTimingErrorPending r).
Definition set_dacOutBufSize (v : list Z) (r : Fifo) : Fifo :=
  mkFifo (statDac r) (buffDac r) v (dacTimingError r) (dacTimingErrorPending r).
Definition set_dacTimingError (v : Z) (r : Fifo) : Fifo :=
  mkFifo (statDac r) (buffDac r) (dacOutBufSize r) v (dacTimingErrorPending r).
Definition set_dacTimingErrorPending (v : list Z) (r : Fifo) : Fifo :=
  mkFifo (statDac r) (buffDac r) (dacOutBufSize r) (dacTimingError r) v.

(** 18-bit cards: lines 287-346; [size] is the [OUT_BUF_SIZE] register. *)
Definition check_18bit (jj : nat) (size report : Z) (s : Fifo) : Fifo :=
  if truthy report then
    let s := set_buffDac (<[jj := size]> (buffDac s)) (set_dacOutBufSize (<[jj := size]> (dacOutBufSize s)) s) in
    let s :=
      if negb (truthy (dacTimingError s)) then
        if (size <? 8) || (size >? 24) then
          let s := set_statDac (clr_at jj DAC_FIFO_BIT (statDac s)) s in
          let s := if (dacTimingErrorPending s !!! jj) >? DAC_WD_TRIP_SET then set_dacTimingError 1 s else s in
          set_dacTimingErrorPending (alter (λ n, n + 1) jj (dacTimingErrorPending s)) s
        else
          set_dacTimingErrorPending (<[jj := 0]> (dacTimingErrorPending s))
            (set_statDac (or_at jj DAC_FIFO_BIT (statDac s)) s)
      else s in
    let s := set_statDac ((if size <? 4 then or_at else clr_at) jj DAC_FIFO_EMPTY (statDac s)) s in
    let s := set_statDac ((if size >? 24 then or_at else clr_at) jj DAC_FIFO_HI_QTR (statDac s)) s in
    if size >? 320 then set_dacTimingError 1 (set_statDac (or_at jj DAC_FIFO_FULL (statDac s)) s)
    else set_statDac (clr_at jj DAC_FIFO_FULL (statDac s)) s
  else
    let out_buf_size := 0 in
    let s := set_statDac (clr_at jj DAC_FIFO_EMPTY (statDac s)) s in
    let s := set_statDac (clr_at jj DAC_FIFO_HI_QTR (statDac s)) s in
    if out_buf_size >? 320 then
      set_dacTimingError 1
        (set_statDac (clr_at jj DAC_FIFO_BIT (or_at jj DAC_FIFO_FULL (statDac s))) s)
    else set_statDac (or_at jj DAC_FIFO_BIT (statDac s)) s.

(** 20-bit cards: lines 348-381. *)
Definition check_20bit (jj : nat) (size report : Z) (s : Fifo) : Fifo :=
  let s := set_buffDac (<[jj := size]> (buffDac s)) (set_dacOutBufSize (<[jj := size]> (dacOutBufSize s)) s) in
  let s :=
    if size >? 24 then
      let s := set_statDac (clr_at jj DAC_FIFO_BIT (statDac s)) s in
      if ((dacTimingErrorPending s !!! jj) >? DAC_WD_TRIP_SET) && truthy report then set_dacTimingError 1 s
      else set_dacTimingErrorPending (alter (λ n, n + 1) jj (dacTimingErrorPending s)) s
    else
      set_dacTimingErrorPending (<[jj := 0]> (dacTimingErrorPending s))
        (set_statDac (or_at jj DAC_FIFO_BIT (statDac s)) s) in
  let s := set_statDac ((if size >? 24 then or_at else clr_at) jj DAC_FIFO_HI_QTR (statDac s)) s in
  if size >? 500 then set_dacTimingError 1 (set_statDac (or_at jj DAC_FIFO_FULL (statDac s)) s)
  else set_statDac (clr_at jj DAC_FIFO_FULL (statDac s)) s.

(** 16-bit cards: lines 382-442; [size] is the buffer status of the card. *)
Definition check_16bit (jj : nat) (size report : Z) (s : Fifo) : Fifo :=
  let s := set_dacOutBufSize (<[jj := size]> (dacOutBufSize s)) s in
  if truthy report then
    let s :=
      if negb (truthy (dacTimingError s)) then
        if negb (size =? 2) then
          let s := set_statDac (clr_at jj DAC_FIFO_BIT (statDac s)) s in
          if (dacTimingErrorPending s !!! jj) >? DAC_WD_TRIP_SET then set_dacTimingError 1 s
          else set_dacTimingErrorPending (alter (λ n, n + 1) jj (dacTimingErrorPending s)) s
        else
          set_dacTimingErrorPending (<[jj := 0]> (dacTimingErrorPending s))
            (set_statDac (or_at jj DAC_FIFO_BIT (statDac s)) s)
      else s in
    let s := set_statDac ((if truthy (Z.land size 1) then or_at else clr_at) jj DAC_FIFO_EMPTY (statDac s)) s in
    let s :=
      if truthy (Z.land size 8) then set_dacTimingError 1 (set_statDac (or_at jj DAC_FIFO_FULL (statDac s)) s)
      else set_statDac (clr_at jj DAC_FIFO_FULL (statDac s)) s in
    set_statDac ((if truthy (Z.land size 4) then or_at else clr_at) jj DAC_FIFO_HI_QTR (statDac s)) s
  else
    let s := set_statDac (clr_at jj DAC_FIFO_EMPTY (statDac s)) s in
    let s := set_statDac (clr_at jj DAC_FIFO_HI_QTR (statDac s)) s in
    if truthy (Z.land size 8) then
      set_dacTimingError 1
        (set_statDac (clr_at jj DAC_FIFO_BIT (or_at jj DAC_FIFO_FULL (clr_at jj DAC_FIFO_BIT (statDac s)))) s)
    else set_statDac (clr_at jj DAC_FIFO_FULL (or_at jj DAC_FIFO_BIT (or_at jj DAC_FIFO_BIT (statDac s)))) s.

(** [sizes jj] is what the card's buffer register reads. *)
Definition check_dac_buffers (c : Cards) (cycleNum report : Z) (sizes : nat → Z) (s : Fifo) : Fifo :=
  let jj := Z.to_nat (cycleNum - HKP_DAC_FIFO_CHK) in
  let type := dacType c !!! jj in
  let s := if type =? GSC_18AO8 then check_18bit jj (sizes jj) report s else s in
  let s := if type =? GSC_20AO8 then check_20bit jj (sizes jj) report s else s in
  if type =? GSC_16AO16 then check_16bit jj (sizes jj) report s else s.

(** [dac_status_update]: one card; the state is status, [statDac], [dacOF],
    [dacChanErr], [overflowDacAcc], the EPICS copy and [overflowDac]. *)
Record DacStatus := mkDS {
  ds_status : Z; ds_stat : list Z; ds_dacOF : list Z; ds_chanErr : list Z;
  ds_acc : list (list Z); ds_epics : list (list Z); ds_overflow : list (list Z)
}.

Definition status_channel (jj ii : nat) (s : DacStatus) : DacStatus :=
  let acc := if ((ds_acc s !!! jj) !!! ii) >? OVERFLOW_CNTR_LIMIT then put2 jj ii 0 (ds_acc s) else ds_acc s in
  mkDS (ds_status s) (ds_stat s) (ds_dacOF s) (ds_chanErr s) acc
    (put2 jj ii ((ds_overflow s !!! jj) !!! ii) (ds_epics s)) (put2 jj ii 0 (ds_overflow s)).

Definition status_card (jj : nat) (s : DacStatus) : DacStatus :=
  let ovf := truthy (ds_dacOF s !!! jj) in
  let ce := truthy (ds_chanErr s !!! jj) in
  let stat := (if ovf then clr_at else or_at) jj DAC_OVERFLOW_BIT (ds_stat s) in
  let stat := (if ce then clr_at else or_at) jj DAC_TIMING_BIT stat in
  for_n MAX_DAC_CHN_PER_MOD (status_channel jj)
    (mkDS (if ovf then Z.lor (ds_status s) FE_ERROR_OVERFLOW else ds_status s) stat
       (<[jj := 0]> (ds_dacOF s)) (<[jj := 0]> (ds_chanErr s)) (ds_acc s) (ds_epics s) (ds_overflow s)).

Definition dac_status_update (c : Cards) (s : DacStatus) : DacStatus :=
  for_n (dacCount c) status_card (mkDS 0 (ds_stat s) (ds_dacOF s) (ds_chanErr s) (ds_acc s) (ds_epics s) (ds_overflow s)).

End defs.
Arguments AppDac : clear implicits.
Arguments IopDac : clear implicits.
Arguments Build : clear implicits.
End Dac.
