(* ===== verification/DacProps.v ===== *)
(** * Properties of the DAC path ([Dac.v])

    - channel allocation: applications never share a DAC channel;
    - the IOP end: range, the watchdog on the cycle number, consumption;
    - the application end: rounding, clipping, and where clipping goes wrong;
    - the FIFO supervision. *)
From Stdlib Require Import SpecFloat Reals Lra.
From S2P Require Import Prelude CFloat Iir FilterModule Dac.
Import Iir Dac.

Module DacProps.

Lemma pair4 {A B C D} (a a' : A) (b b' : B) (c c' : C) (d d' : D) :
  a = a' → b = b' → c = c' → d = d' → ((a, b), (c, d)) = ((a', b'), (c', d')).
Proof. congruence. Qed.

(** ** Rows of counters and words *)
Definition dims {A} (n m : nat) (a : list (list A)) : Prop :=
  length a = n ∧ ∀ i, (i < n)%nat → length (a !!! i) = m.

Lemma put2_get {A} `{Inhabited A} n m (a : list (list A)) j i j' i' x :
  dims n m a → (j < n)%nat → (i < m)%nat →
  (put2 j i x a !!! j') !!! i' = if decide (j' = j ∧ i' = i) then x else (a !!! j') !!! i'.
Proof.
  intros [Hl Hr] Hj Hi. unfold put2. destruct (decide (j' = j)) as [->|Hn].
  - rewrite lookup_total_alter_eq by lia. rewrite lookup_total_insert by (by rewrite Hr).
    destruct (decide (i' = i)), (decide (j = j ∧ i' = i)); done || tauto.
  - rewrite lookup_total_alter_ne by done. destruct (decide (j' = j ∧ i' = i)); [tauto|done].
Qed.

Lemma put2_dims {A} n m (a : list (list A)) j i x : dims n m a → dims n m (put2 j i x a).
Proof.
  intros [Hl Hr]. unfold put2. split; [by rewrite length_alter|]. intros k Hk.
  destruct (decide (k = j)) as [->|Hn].
  - rewrite lookup_total_alter_eq by lia. rewrite length_insert. by apply Hr.
  - rewrite lookup_total_alter_ne by done. by apply Hr.
Qed.

Lemma put2_row_ne {A} `{Inhabited A} (a : list (list A)) j j' i x : j' ≠ j → put2 j i x a !!! j' = a !!! j'.
Proof. intros Hj. unfold put2. by rewrite lookup_total_alter_ne. Qed.

(** ** Channel allocation *)

(** An application: its view of the cards and the channels it uses. *)
Definition app : Type := Cards * list (list Z).

(** Physical channel [(p, jj)] is used by the application. *)
Definition claims (a : app) (p jj : nat) : Prop :=
  ∃ ii, (ii < dacCount a.1)%nat ∧ dacConfig a.1 !!! ii ≠ 0 ∧ phys a.1 ii = p ∧ claimed a.2 ii jj = true.

Record app_ok (a : app) : Prop := {
  ao_count : (dacCount a.1 <= MAX_DAC_MODULES)%nat;
  ao_unused : ∀ ii, (dacCount a.1 <= ii < MAX_DAC_MODULES)%nat → dacConfig a.1 !!! ii = 0;
  ao_phys : ∀ ii, (ii < dacCount a.1)%nat → dacConfig a.1 !!! ii ≠ 0 → (phys a.1 ii < MAX_DAC_MODULES)%nat
}.

(** The computer: the running applications and the shared channel map. *)
Inductive reach : list app → list (list Z) → Prop :=
  | reach_boot : reach [] (replicate MAX_DAC_MODULES (replicate 16 0))
  | reach_start a apps map stat st : reach apps map → app_ok a →
      app_dac_init a.1 a.2 map stat = (0, st) → reach (a :: apps) st.1
  | reach_refused a apps map stat st : reach apps map → app_ok a →
      app_dac_init a.1 a.2 map stat = (1, st) → reach apps st.1
  | reach_stop a apps1 apps2 map : reach (apps1 ++ a :: apps2) map →
      reach (apps1 ++ apps2) (deallocate_dac_channels a.1 a.2 map).

(** A pass over some cards and their 16 channels that marks claimed channels [x]. *)
Definition mark_card (a : app) (x : Z) (ii : nat) (map : list (list Z)) : list (list Z) :=
  if truthy (dacConfig a.1 !!! ii) then
    for_n 16 (λ jj map, if claimed a.2 ii jj then put2 (phys a.1 ii) jj x map else map) map
  else map.

Definition claims_below (a : app) (n : nat) (p jj : nat) : Prop :=
  ∃ ii, (ii < n)%nat ∧ dacConfig a.1 !!! ii ≠ 0 ∧ phys a.1 ii = p ∧ claimed a.2 ii jj = true.

Lemma truthy_ne z : truthy z = true ↔ z ≠ 0.
Proof. unfold truthy. destruct (Z.eqb_spec z 0); naive_solver. Qed.

Lemma mark_card_spec a x ii map :
  dims MAX_DAC_MODULES 16 map → (dacConfig a.1 !!! ii ≠ 0 → (phys a.1 ii < MAX_DAC_MODULES)%nat) →
  let map' := mark_card a x ii map in
  dims MAX_DAC_MODULES 16 map' ∧
  ∀ p jj, (jj < 16)%nat →
    (map' !!! p) !!! jj =
    if decide (dacConfig a.1 !!! ii ≠ 0 ∧ phys a.1 ii = p ∧ claimed a.2 ii jj = true) then x else (map !!! p) !!! jj.
Proof.
  intros Hd Hp. cbv zeta. unfold mark_card. destruct (truthy (dacConfig a.1 !!! ii)) eqn:E.
  2:{ split; [done|]. intros p jj Hjj. rewrite decide_False; [done|]. intros (Hc & _). apply truthy_ne in Hc. congruence. }
  apply truthy_ne in E. specialize (Hp E).
  set (f := λ (jj : nat) (map : list (list Z)), if claimed a.2 ii jj then put2 (phys a.1 ii) jj x map else map).
  destruct (for_up_ind (λ k m, dims MAX_DAC_MODULES 16 m ∧ ∀ p jj, (jj < 16)%nat →
     (m !!! p) !!! jj = if decide ((jj < k)%nat ∧ phys a.1 ii = p ∧ claimed a.2 ii jj = true) then x else (map !!! p) !!! jj)
     f 0 16 map) as [H1 H2].
  - split; [done|]. intros p jj _. rewrite decide_False by lia. done.
  - intros k m Hk [Hm Hv]. unfold f. destruct (claimed a.2 ii k) eqn:Ec.
    + split; [by apply put2_dims|]. intros p jj Hjj. rewrite (put2_get MAX_DAC_MODULES 16) by (done || lia).
      rewrite Hv by done. destruct (decide (p = phys a.1 ii ∧ jj = k)) as [[-> ->]|Hn].
      * rewrite decide_True by (repeat split; (done || lia)). done.
      * apply decide_ext. split; intros (Hlt & Hph & Hcl); (split; [|done]); [lia|].
        assert (jj ≠ k) by (intros ->; by apply Hn). lia.
    + split; [done|]. intros p jj Hjj. rewrite Hv by done. apply decide_ext.
      split; intros (Hlt & Hph & Hcl); (split; [|done]); [lia|]. assert (jj ≠ k) by congruence. lia.
  - split; [done|]. intros p jj Hjj. rewrite (H2 p jj Hjj). apply decide_ext.
    split; [intros (_ & Hph & Hcl); done|intros (_ & Hph & Hcl); done].
Qed.

Lemma mark_cards a x n map :
  dims MAX_DAC_MODULES 16 map →
  (∀ ii, (ii < n)%nat → dacConfig a.1 !!! ii ≠ 0 → (phys a.1 ii < MAX_DAC_MODULES)%nat) →
  let map' := for_n n (mark_card a x) map in
  dims MAX_DAC_MODULES 16 map' ∧
  ∀ p jj, (jj < 16)%nat →
    (claims_below a n p jj → (map' !!! p) !!! jj = x) ∧ (¬ claims_below a n p jj → (map' !!! p) !!! jj = (map !!! p) !!! jj).
Proof.
  intros Hd Hp. cbv zeta. induction n as [|n IH].
  { split; [done|]. intros p jj _. split; [|done]. intros (ii & Hii & _). lia. }
  rewrite for_up_S, Nat.add_0_l. destruct IH as [H1 H2]; [intros; apply Hp; [lia|done]|].
  destruct (mark_card_spec a x n (for_n n (mark_card a x) map) H1) as [H3 H4]; [intros; apply Hp; [lia|done]|].
  split; [done|]. intros p jj Hjj. rewrite (H4 p jj Hjj). destruct (H2 p jj Hjj) as [H5 H6].
  destruct (decide _) as [D|D].
  - split; [done|]. intros []. exists n. split; [lia|done].
  - split.
    + intros (ii & Hii & Hr). apply H5. exists ii. split; [|done]. assert (ii ≠ n) by (intros ->; tauto). lia.
    + intros Hn. apply H6. intros (ii & Hii & Hr). apply Hn. exists ii. split; [lia|done].
Qed.

Lemma init_marks a map stat st :
  app_dac_init a.1 a.2 map stat = (0, st) → st.1 = for_n (dacCount a.1) (mark_card a 1) map.
Proof.
  unfold app_dac_init. destruct (conflict _ _ _); [done|]. intros E. injection E as <-.
  assert (Hk : ∀ n, (for_n n (claim_card a.1 a.2) (map, stat)).1 = for_n n (mark_card a 1) map).
  { induction n as [|n IH]; [done|]. rewrite !for_up_S, Nat.add_0_l, <- IH.
    destruct (for_n n (claim_card a.1 a.2) (map, stat)) as [mp st]. unfold claim_card, mark_card.
    by destruct (truthy _). }
  apply Hk.
Qed.

Lemma no_conflict a map stat st p jj :
  app_dac_init a.1 a.2 map stat = (0, st) → (jj < 16)%nat → claims a p jj → claimed map p jj = false.
Proof.
  unfold app_dac_init. destruct (conflict a.1 a.2 map) eqn:E; [done|]. intros _ Hjj (ii & Hii & Hc & <- & Hu).
  destruct (claimed map (phys a.1 ii) jj) eqn:Em; [|done]. exfalso.
  enough (conflict a.1 a.2 map = true) by congruence. unfold conflict. apply existsb_exists. exists ii.
  split; [apply in_seq; lia|]. apply andb_true_iff. split; [by apply truthy_ne|]. apply existsb_exists. exists jj.
  split; [apply in_seq; lia|]. by rewrite Hu, Em.
Qed.

(** What holds of a reachable computer. *)
Definition alloc_inv (apps : list app) (map : list (list Z)) : Prop :=
  dims MAX_DAC_MODULES 16 map ∧ Forall app_ok apps ∧
  (∀ p jj, (jj < 16)%nat → claimed map p jj = true → (p < MAX_DAC_MODULES)%nat → ∃ a, a ∈ apps ∧ claims a p jj) ∧
  (∀ p jj a, (jj < 16)%nat → a ∈ apps → claims a p jj → claimed map p jj = true) ∧
  (∀ i k a b p jj, i ≠ k → apps !! i = Some a → apps !! k = Some b → (jj < 16)%nat → claims a p jj → ¬ claims b p jj).

Lemma alloc_start a apps map stat st :
  alloc_inv apps map → app_ok a → app_dac_init a.1 a.2 map stat = (0, st) → alloc_inv (a :: apps) st.1.
Proof.
  intros (I1 & I2 & I3 & I4 & I5) Hok Hi.
  rewrite (init_marks a map stat st Hi).
  destruct (mark_cards a 1 (dacCount a.1) map I1) as [M1 M2]; [intros; by apply ao_phys|].
  assert (Hfree : ∀ p jj, (jj < 16)%nat → claims a p jj → claimed map p jj = false)
    by (intros p jj; by eapply no_conflict).
  split; [done|]. split; [by constructor|]. split; [|split].
  - intros p jj Hjj Hc Hp. destruct (M2 p jj Hjj) as [Hin Hout].
    destruct (decide (claimed map p jj = true)) as [Hm|Hm].
    + destruct (I3 p jj Hjj Hm Hp) as (b & Hb & Hcb). exists b. split; [by right|done].
    + exists a. split; [by left|].
      assert (Hdec : claims_below a (dacCount a.1) p jj ∨ ¬ claims_below a (dacCount a.1) p jj).
      { unfold claims_below. destruct (existsb (λ ii, bool_decide (dacConfig a.1 !!! ii ≠ 0 ∧ phys a.1 ii = p ∧
          claimed a.2 ii jj = true)) (seq 0 (dacCount a.1))) eqn:Ex.
        * left. apply existsb_exists in Ex as (ii & Hii%in_seq & Hx%bool_decide_eq_true). exists ii. split; [lia|done].
        * right. intros (ii & Hii & Hx). apply not_true_iff_false in Ex. apply Ex, existsb_exists. exists ii.
          split; [apply in_seq; lia|]. by apply bool_decide_eq_true. }
      destruct Hdec as [|Hn]; [done|]. exfalso. apply Hm. unfold claimed in *. by rewrite <- (Hout Hn).
  - intros p jj b Hjj Hb Hcb. destruct (M2 p jj Hjj) as [Hin Hout]. apply elem_of_cons in Hb as [->|Hb].
    + unfold claimed. by rewrite (Hin Hcb).
    + unfold claimed. rewrite Hout; [by eapply I4|]. intros Hca. pose proof (Hfree p jj Hjj Hca) as Hf.
      rewrite (I4 p jj b Hjj Hb Hcb) in Hf. done.
  - intros i k b b' p jj Hne Hb Hb' Hjj Hcb Hcb'.
    assert (Hclash : ∀ i b, apps !! i = Some b → claims b p jj → claims a p jj → False).
    { intros i0 b0 Hb0 Hc0 Hca. pose proof (Hfree p jj Hjj Hca) as Hf.
      rewrite (I4 p jj b0 Hjj) in Hf; [done|by eapply list_elem_of_lookup_2|done]. }
    destruct i as [|i], k as [|k]; simpl in *; [done| | |].
    + injection Hb as ->. by eapply Hclash.
    + injection Hb' as ->. by eapply Hclash.
    + by eapply (I5 i k); eauto.
Qed.

Lemma alloc_stop a apps1 apps2 map :
  alloc_inv (apps1 ++ a :: apps2) map → alloc_inv (apps1 ++ apps2) (deallocate_dac_channels a.1 a.2 map).
Proof.
  intros (I1 & I2 & I3 & I4 & I5).
  assert (Hoka : app_ok a) by (rewrite Forall_app, Forall_cons in I2; apply I2).
  assert (Edealloc : deallocate_dac_channels a.1 a.2 map = for_n MAX_DAC_MODULES (mark_card a 0) map) by done.
  rewrite Edealloc. clear Edealloc.
  destruct (mark_cards a 0 MAX_DAC_MODULES map I1) as [M1 M2].
  { intros ii Hii Hc. apply ao_phys; [done| |done]. destruct (Nat.lt_ge_cases ii (dacCount a.1)) as [|Hge]; [done|].
    exfalso. apply Hc, ao_unused; [done|lia]. }
  assert (Hbelow : ∀ p jj, claims_below a MAX_DAC_MODULES p jj → claims a p jj).
  { intros p jj (ii & Hii & Hc & Hr). exists ii. split; [|done].
    destruct (Nat.lt_ge_cases ii (dacCount a.1)) as [|Hge]; [done|]. exfalso. apply Hc, ao_unused; [done|lia]. }
  assert (Habove : ∀ p jj, claims a p jj → claims_below a MAX_DAC_MODULES p jj).
  { intros p jj (ii & Hii & Hr). exists ii. split; [|done]. pose proof (ao_count a Hoka). lia. }
  assert (Hmid : (apps1 ++ a :: apps2) !! length apps1 = Some a) by (by rewrite list_lookup_middle).
  split; [done|]. split; [rewrite Forall_app, Forall_cons in I2; rewrite Forall_app; tauto|]. split; [|split].
  - intros p jj Hjj Hc Hp. destruct (M2 p jj Hjj) as [Hin Hout].
    assert (Hna : ¬ claims a p jj).
    { intros Hca. unfold claimed in Hc. rewrite (Hin (Habove _ _ Hca)) in Hc. done. }
    unfold claimed in Hc. rewrite Hout in Hc by (intros Hb; by apply Hna, Hbelow).
    destruct (I3 p jj Hjj Hc Hp) as (b & Hb & Hcb). exists b. split; [|done].
    rewrite !elem_of_app, elem_of_cons in *. destruct Hb as [|[->|]]; [by left|done|by right].
  - intros p jj b Hjj Hb Hcb. destruct (M2 p jj Hjj) as [Hin Hout]. unfold claimed. rewrite Hout.
    + eapply I4; [done| |done]. rewrite elem_of_app, elem_of_cons. rewrite elem_of_app in Hb. tauto.
    + intros Hca%Hbelow. apply list_elem_of_lookup in Hb as [i Hi]. apply lookup_app_Some in Hi as [Hi|[Hge Hi]].
      * eapply (I5 (length apps1) i); [|exact Hmid| |exact Hjj|exact Hca|exact Hcb].
         -- apply lookup_lt_Some in Hi. lia.
         -- by apply lookup_app_l_Some.
      * eapply (I5 (length apps1) (S i)); [lia|exact Hmid| |exact Hjj|exact Hca|exact Hcb].
         rewrite lookup_app_r by lia. replace (S i - length apps1)%nat with (S (i - length apps1)) by lia. done.
  - intros i k b b' p jj Hne Hb Hb' Hjj.
    assert (Hshift : ∀ i b, (apps1 ++ apps2) !! i = Some b →
      (apps1 ++ a :: apps2) !! (if (i <? length apps1)%nat then i else S i) = Some b).
    { intros i0 b0 Hi0. apply lookup_app_Some in Hi0 as [Hi0|[Hge Hi0]].
      * pose proof (lookup_lt_Some _ _ _ Hi0). rewrite (proj2 (Nat.ltb_lt _ _)) by lia. by apply lookup_app_l_Some.
      * rewrite (proj2 (Nat.ltb_ge _ _)) by lia. rewrite lookup_app_r by lia.
        replace (S i0 - length apps1)%nat with (S (i0 - length apps1)) by lia. done. }
    refine (I5 _ _ b b' p jj _ (Hshift i b Hb) (Hshift k b' Hb') Hjj).
    destruct (Nat.ltb_spec i (length apps1)), (Nat.ltb_spec k (length apps1)); lia.
Qed.

Lemma alloc_reach apps map : reach apps map → alloc_inv apps map.
Proof.
  induction 1 as [|a apps map stat st _ IH Hok Hi|a apps map stat st _ IH Hok Hi|a apps1 apps2 map _ IH].
  - split; [split; [done|]; intros i Hi; by rewrite lookup_total_replicate_2|]. split; [done|]. split; [|split].
    + intros p jj Hjj Hc Hp. exfalso. unfold claimed in Hc.
      rewrite lookup_total_replicate_2, lookup_total_replicate_2 in Hc by done. done.
    + by intros p jj a _ ?%not_elem_of_nil.
    + intros i k a b p jj _ Ha. by rewrite lookup_nil in Ha.
  - by eapply alloc_start.
  - unfold app_dac_init in Hi. destruct (conflict _ _ _); [|done]. by injection Hi as <-.
  - by apply alloc_stop.
Qed.

(** C24: On every reachable computer, whatever applications were started,
    refused or stopped, two running applications never use the same channel of
    the same DAC card, and the shared map marks exactly the channels in use
    ([app_dac_init], [deallocate_dac_channels]). *)
Theorem dac_channels_exclusive apps map :
  reach apps map →
  (∀ i k a b p jj, i ≠ k → apps !! i = Some a → apps !! k = Some b → (jj < 16)%nat →
     claims a p jj → ¬ claims b p jj) ∧
  (∀ p jj, (p < MAX_DAC_MODULES)%nat → (jj < 16)%nat →
     claimed map p jj = true ↔ ∃ a, a ∈ apps ∧ claims a p jj).
Proof.
  intros (I1 & I2 & I3 & I4 & I5)%alloc_reach. split; [done|]. intros p jj Hp Hjj. split.
  - intros Hc. by apply I3.
  - intros (a & Ha & Hc). by eapply I4.
Qed.

(** Two applications on one card (physical card 0 behind one ADC): channel 3
    and channel 5. *)
Definition wit_cards : Cards := mkCards 1 (1 :: replicate 11 0) (replicate 12 GSC_16AO16) (replicate 12 0) 1.
Definition wit_used (ch : nat) : list (list Z) :=
  put2 0 ch 1 (replicate MAX_DAC_MODULES (replicate 16 0)).
Definition wit_app (ch : nat) : app := (wit_cards, wit_used ch).

Lemma wit_app_ok ch : app_ok (wit_app ch).
Proof.
  split.
  - simpl. unfold MAX_DAC_MODULES. lia.
  - intros ii Hii. simpl in *. unfold MAX_DAC_MODULES in Hii.
    do 12 (destruct ii as [|ii]; [try reflexivity; lia|]). lia.
  - intros ii Hii _. simpl in Hii. assert (ii = 0)%nat as -> by lia. vm_compute. lia.
Qed.

Definition wit_map0 : list (list Z) := replicate MAX_DAC_MODULES (replicate 16 0).
Definition wit_map (ch : nat) (map : list (list Z)) : list (list Z) :=
  (app_dac_init wit_cards (wit_used ch) map []).2.1.

Lemma dac_channels_exclusive_witness :
  let m := wit_map 5 (wit_map 3 wit_map0) in
  reach [wit_app 5; wit_app 3] m ∧ claims (wit_app 5) 0 5 ∧ ¬ claims (wit_app 3) 0 5 ∧
  (app_dac_init wit_cards (wit_used 3) m []).1 = 1.
Proof.
  intros m.
  assert (Hr : reach [wit_app 5; wit_app 3] m).
  { refine (reach_start (wit_app 5) _ _ [] (m, []) (reach_start (wit_app 3) _ wit_map0 [] (wit_map 3 wit_map0, []) reach_boot _ _) _ _);
      try apply wit_app_ok; vm_compute; reflexivity. }
  assert (Hc : claims (wit_app 5) 0 5).
  { exists 0%nat. split; [simpl; lia|]. split; [simpl; lia|]. split; vm_compute; reflexivity. }
  destruct (dac_channels_exclusive [wit_app 5; wit_app 3] m Hr) as [Hx _].
  split; [done|]. split; [done|]. split; [|vm_compute; reflexivity].
  refine (Hx 0%nat 1%nat (wit_app 5) (wit_app 3) 0%nat 5%nat _ eq_refl eq_refl _ Hc); lia.
Defined.

(** ** The application end *)
Section AppEnd.
Context {F : Type} `{FloatOps F}.
Context (bd : Build F).

(** What one upsampling round makes of a channel's value and filter history. *)
Definition upsample_val (kk : nat) (x : F) (h : list F) : F * list F :=
  match OVERSAMPLE_DAC bd with
  | OVERSAMPLE_OFF => (x, h)
  | NO_ZERO_PAD => iir_filter_biquad x (FE_OVERSAMPLE_COEFF bd) 2 h
  | ZERO_PAD =>
      let '(y, h) := iir_filter_biquad (if (kk =? 0)%nat then x else flit 0 0) (FE_OVERSAMPLE_COEFF bd) 2 h in
      (y ⊗ fofZ (Z.of_nat (OVERSAMPLE_TIMES bd)), h)
  end.

(** One round of a channel: the sample it gives, the value and history it leaves. *)
Definition chan_round (kk : nat) (st : F * list F) : F * (F * list F) :=
  let x := if FLIP_SIGNALS bd then st.1 ⊗ fofZ (-1) else st.1 in
  let '(y, h) := upsample_val kk x st.2 in (y, (x, h)).
(** The stream of samples of a channel over the rounds of one cycle. *)
Definition chan_run (n : nat) (st : F * list F) : F * list F := for_n n (λ kk st, (chan_round kk st).2) st.
Definition chan_sample (st : F * list F) (kk : nat) : F := (chan_round kk (chan_run kk st)).1.

(** The word published for a sample. *)
Definition dac_word (enable : bool) (type : Z) (x : F) : Z :=
  if enable then clip (dac_params type).1.1 (dac_round x) else 0.

Record app_wf (s : AppDac F) : Prop := {
  aw_out : dims MAX_DAC_MODULES 16 (dacOut s);
  aw_hist : length (dDacHistory s) = (MAX_DAC_MODULES * 16)%nat;
  aw_data : ∀ m sl, (16 <= length (bdata (iodata s m sl)))%nat
}.

(** What is seen of channel [ii0] of DAC [jj0] at [mm], slot [sl0]. *)
Definition app_view (jj0 ii0 : nat) (mm sl0 : Z) (s : AppDac F) : (F * list F) * (Z * Z) :=
  (((dacOut s !!! jj0) !!! ii0, dDacHistory s !!! (ii0 + jj0 * 16)%nat),
   (bdata (iodata s mm sl0) !!! ii0, bcycle (iodata s mm sl0))).

Lemma upd_block_get mm sl f d mm' sl' :
  upd_block mm sl f d mm' sl' = if (mm =? mm') && (sl =? sl') then f (d mm sl) else d mm' sl'.
Proof. done. Qed.

(** A channel's step in two halves: the value, then everything else. *)
Lemma channel_split used enable mm memCtr limit jj kk ii s :
  app_wf s → (jj < MAX_DAC_MODULES)%nat → (ii < 16)%nat →
  let st := ((dacOut s !!! jj) !!! ii, dDacHistory s !!! (ii + jj * 16)%nat) in
  let s' := app_dac_channel bd used enable mm memCtr limit jj kk ii s in
  let '(y, (x', h')) := chan_round kk st in
  dacOut s' = (if FLIP_SIGNALS bd then put2 jj ii x' (dacOut s) else dacOut s) ∧
  dDacHistory s' = (if claimed used jj ii then
                      match OVERSAMPLE_DAC bd with OVERSAMPLE_OFF => dDacHistory s | _ => <[(ii + jj * 16)%nat := h']> (dDacHistory s) end
                    else dDacHistory s) ∧
  iodata s' = (if claimed used jj ii then
                 upd_block mm memCtr (set_word ii (if enable then clip limit (dac_round y) else 0)) (iodata s)
               else iodata s).
Proof.
  intros [Ho Hh Hd] Hjj Hii. cbv zeta.
  unfold chan_round, upsample_val, app_dac_channel, upsample, MAX_DAC_CHN_PER_MOD. cbn [fst snd].
  assert (Hx : ∀ x, (put2 jj ii x (dacOut s) !!! jj) !!! ii = x).
  { intros x. rewrite (put2_get MAX_DAC_MODULES 16) by done. by rewrite decide_True. }
  destruct (FLIP_SIGNALS bd); destruct (claimed used jj ii) eqn:Ec; destruct (OVERSAMPLE_DAC bd);
    cbn [dacOut dDacHistory set_dacOut]; rewrite ?Hx;
    try (destruct (iir_filter_biquad _ _ _ _) as [y h']; cbn [fst snd]);
    destruct (overflows limit _); cbn -[dac_round clip put2]; done.
Qed.

Lemma hist_index (jj ii jj' ii' : nat) :
  (ii < 16)%nat → (ii' < 16)%nat → (ii + jj * 16 = ii' + jj' * 16)%nat ↔ (jj = jj' ∧ ii = ii').
Proof. lia. Qed.

Lemma channel_wf used enable mm memCtr limit jj kk ii s :
  app_wf s → (jj < MAX_DAC_MODULES)%nat → (ii < 16)%nat →
  app_wf (app_dac_channel bd used enable mm memCtr limit jj kk ii s).
Proof.
  intros Hwf Hjj Hii. pose proof (channel_split used enable mm memCtr limit jj kk ii s Hwf Hjj Hii) as Hs.
  cbv zeta in Hs. destruct (chan_round kk _) as [y [x' h']]. destruct Hs as (Eo & Eh & Ed). destruct Hwf as [Ho Hh Hd].
  split.
  - rewrite Eo. destruct (FLIP_SIGNALS bd); [by apply put2_dims|done].
  - rewrite Eh. destruct (claimed used jj ii), (OVERSAMPLE_DAC bd); rewrite ?length_insert; done.
  - intros m sl. rewrite Ed. destruct (claimed used jj ii); [|done]. rewrite upd_block_get.
    destruct ((mm =? m) && (memCtr =? sl)); [|done]. simpl. rewrite length_insert. done.
Qed.

(** The channel's own step, seen through [app_view]; every other step is invisible. *)
Definition view_round (enable : bool) (memCtr sl0 limit : Z) (kk : nat) (v : (F * list F) * (Z * Z)) : (F * list F) * (Z * Z) :=
  let '(y, st) := chan_round kk v.1 in
  (st, (if memCtr =? sl0 then (if enable then clip limit (dac_round y) else 0) else v.2.1, v.2.2)).

Lemma channel_view used enable mm mm0 memCtr sl0 limit jj jj0 kk ii ii0 s :
  app_wf s → (jj < MAX_DAC_MODULES)%nat → (ii < 16)%nat → (jj0 < MAX_DAC_MODULES)%nat → (ii0 < 16)%nat →
  claimed used jj0 ii0 = true → (jj = jj0 ↔ mm = mm0) →
  app_view jj0 ii0 mm0 sl0 (app_dac_channel bd used enable mm memCtr limit jj kk ii s) =
  if decide (jj = jj0 ∧ ii = ii0) then view_round enable memCtr sl0 limit kk (app_view jj0 ii0 mm0 sl0 s)
  else app_view jj0 ii0 mm0 sl0 s.
Proof.
  intros Hwf Hjj Hii Hjj0 Hii0 Hcl Hmm.
  pose proof (channel_split used enable mm memCtr limit jj kk ii s Hwf Hjj Hii) as Hs. cbv zeta in Hs.
  set (s' := app_dac_channel bd used enable mm memCtr limit jj kk ii s) in *. clearbody s'. destruct Hwf as [Ho Hh Hd].
  destruct (decide (jj = jj0 ∧ ii = ii0)) as [[-> ->]|Hne].
  - unfold view_round. cbn [fst app_view]. unfold app_view in *. cbn [fst snd].
    destruct (chan_round kk _) as [y [x' h']] eqn:Er. destruct Hs as (Eo & Eh & Ed). rewrite Hcl in Eh, Ed.
    assert (mm = mm0) as -> by tauto. apply pair4; rewrite ?Ed, ?upd_block_get, ?Z.eqb_refl; cbn [andb].
    + rewrite Eo. unfold chan_round in Er. destruct (FLIP_SIGNALS bd).
      * rewrite (put2_get MAX_DAC_MODULES 16) by done. by rewrite decide_True.
      * destruct (upsample_val _ _ _). by injection Er.
    + rewrite Eh. unfold chan_round, upsample_val in Er. destruct (OVERSAMPLE_DAC bd).
      1: { by injection Er. }
      all: rewrite lookup_total_insert by (rewrite Hh; unfold MAX_DAC_MODULES in *; lia); by rewrite decide_True.
    + destruct (Z.eqb_spec memCtr sl0) as [->|]; [|done]. simpl.
      rewrite lookup_total_insert by (specialize (Hd mm0 sl0); lia). by rewrite decide_True.
    + by destruct (Z.eqb_spec memCtr sl0) as [->|].
  - destruct (chan_round kk _) as [y [x' h']]. destruct Hs as (Eo & Eh & Ed). unfold app_view. apply pair4.
    + rewrite Eo. destruct (FLIP_SIGNALS bd); [|done]. rewrite (put2_get MAX_DAC_MODULES 16) by done.
      rewrite decide_False by (intros [-> ->]; tauto). done.
    + rewrite Eh. destruct (claimed used jj ii), (OVERSAMPLE_DAC bd); try done.
      all: rewrite lookup_total_insert by (rewrite Hh; unfold MAX_DAC_MODULES in *; lia).
      all: rewrite decide_False by (rewrite hist_index by done; intros [-> ->]; tauto); done.
    + rewrite Ed. destruct (claimed used jj ii); [|done]. rewrite upd_block_get.
      destruct ((mm =? mm0) && (memCtr =? sl0)) eqn:E; [|done]. apply andb_true_iff in E as [->%Z.eqb_eq ->%Z.eqb_eq]. simpl.
      assert (ii0 ≠ ii) by (intros ->; tauto). rewrite list_lookup_total_insert_ne; done.
    + rewrite Ed. destruct (claimed used jj ii); [|done]. rewrite upd_block_get.
      destruct ((mm =? mm0) && (memCtr =? sl0)) eqn:E; [|done]. apply andb_true_iff in E as [->%Z.eqb_eq ->%Z.eqb_eq]. done.
Qed.

Definition chans (type : Z) : nat := (dac_params type).2.
Definition limit (type : Z) : Z := (dac_params type).1.1.

Lemma chans_le type : (chans type <= 16)%nat.
Proof.
  unfold chans, dac_params, GSAO_18BIT_CHAN_COUNT, GSAO_20BIT_CHAN_COUNT, GSAO_16BIT_CHAN_COUNT.
  destruct (type =? GSC_18AO8), (type =? GSC_20AO8); simpl; lia.
Qed.

Definition view_sample (enable : bool) (memCtr sl0 cyc type : Z) (kk : nat) (v : (F * list F) * (Z * Z)) :=
  let v := view_round enable memCtr sl0 (limit type) kk v in
  (v.1, (v.2.1, if enable && (memCtr =? sl0) then cyc else v.2.2)).

Lemma view_cycle jj0 ii0 mm mm0 memCtr sl0 c (b : bool) s :
  app_view jj0 ii0 mm0 sl0 (if b then set_iodata (upd_block mm memCtr (set_cycle c) (iodata s)) s else s) =
  let v := app_view jj0 ii0 mm0 sl0 s in (v.1, (v.2.1, if b && ((mm =? mm0) && (memCtr =? sl0)) then c else v.2.2)).
Proof.
  destruct b; [|done]. unfold app_view. cbn [iodata set_iodata dacOut dDacHistory fst snd andb]. rewrite upd_block_get.
  destruct ((mm =? mm0) && (memCtr =? sl0)) eqn:E; [|done]. by apply andb_true_iff in E as [->%Z.eqb_eq ->%Z.eqb_eq].
Qed.

Lemma sample_view used enable ctr clk mm mm0 sl0 type jj jj0 kk ii0 s :
  app_wf s → (jj < MAX_DAC_MODULES)%nat → (jj0 < MAX_DAC_MODULES)%nat → (ii0 < 16)%nat →
  (jj = jj0 → (ii0 < chans type)%nat) → claimed used jj0 ii0 = true → (jj = jj0 ↔ mm = mm0) →
  let s' := app_dac_sample bd used enable ctr clk mm type jj kk s in
  app_wf s' ∧
  app_view jj0 ii0 mm0 sl0 s' =
  if decide (jj = jj0) then
    view_sample enable (Z.rem (ctr + Z.of_nat kk) IO_MEMORY_SLOTS) sl0 (Z.rem (clk + Z.of_nat kk) (IOP_IO_RATE bd)) type kk
      (app_view jj0 ii0 mm0 sl0 s)
  else app_view jj0 ii0 mm0 sl0 s.
Proof.
  intros Hwf Hjj Hjj0 Hii0 Hch Hcl Hmm. cbv zeta. unfold app_dac_sample.
  pose proof (chans_le type) as Hle. unfold chans, view_sample, limit in *.
  destruct (dac_params type) as [[lim mask] num]. cbn [fst snd] in *.
  set (memCtr := Z.rem (ctr + Z.of_nat kk) IO_MEMORY_SLOTS).
  set (f := app_dac_channel bd used enable mm memCtr lim jj kk).
  assert (Hloop : app_wf (for_n num f s) ∧ app_view jj0 ii0 mm0 sl0 (for_n num f s) =
    if decide (jj = jj0) then view_round enable memCtr sl0 lim kk (app_view jj0 ii0 mm0 sl0 s) else app_view jj0 ii0 mm0 sl0 s).
  { destruct (decide (jj = jj0)) as [->|Hne].
    - apply (for_up_view_single app_wf (app_view jj0 ii0 mm0 sl0) f (view_round enable memCtr sl0 lim kk) ii0);
        [by apply Hch|done|]. intros k s' Hk Hs'.
      split; [apply channel_wf; (done || lia)|]. unfold f.
      rewrite (channel_view used enable mm mm0 memCtr sl0 lim jj0 jj0 kk k ii0 s') by (done || lia).
      destruct (decide (jj0 = jj0 ∧ k = ii0)), (decide (k = ii0)); try done; tauto.
    - apply (for_up_inv (λ s', app_wf s' ∧ app_view jj0 ii0 mm0 sl0 s' = app_view jj0 ii0 mm0 sl0 s)); [done|].
      intros k s' Hk [Hs' Hv]. split; [apply channel_wf; (done || lia)|]. rewrite <- Hv. unfold f.
      rewrite (channel_view used enable mm mm0 memCtr sl0 lim jj jj0 kk k ii0 s') by (done || lia).
      rewrite decide_False by tauto. done. }
  set (s1 := for_n num f s) in *. clearbody s1. destruct Hloop as [Hw1 Hv1]. split.
  - destruct enable; [|done]. destruct Hw1 as [Ho Hh Hd]. split; [done|done|]. intros m sl. cbn [iodata set_iodata].
    rewrite upd_block_get. destruct ((mm =? m) && (memCtr =? sl)); apply Hd.
  - rewrite view_cycle. cbv zeta. rewrite Hv1. destruct (decide (jj = jj0)) as [->|Hne].
    + assert (mm = mm0) as -> by tauto. by rewrite Z.eqb_refl.
    + replace (mm =? mm0) with false by (symmetry; apply Z.eqb_neq; tauto). rewrite andb_false_r.
      by destruct (app_view jj0 ii0 mm0 sl0 s) as [? [? ?]].
Qed.

Lemma card_view c used enable ctr clk sl0 jj jj0 ii0 s :
  app_wf s → (jj < MAX_DAC_MODULES)%nat → (jj0 < MAX_DAC_MODULES)%nat →
  (ii0 < chans (dacType c !!! jj0))%nat → claimed used jj0 ii0 = true → dacConfig c !!! jj0 ≠ 0 →
  (jj = jj0 ↔ dacConfig c !!! jj = dacConfig c !!! jj0) →
  let s' := app_dac_card c bd used enable ctr clk jj s in
  let view := app_view jj0 ii0 (dacConfig c !!! jj0) sl0 in
  app_wf s' ∧
  view s' = if decide (jj = jj0) then
              for_n (OVERSAMPLE_TIMES bd) (λ kk, view_sample enable (Z.rem (ctr + Z.of_nat kk) IO_MEMORY_SLOTS) sl0
                (Z.rem (clk + Z.of_nat kk) (IOP_IO_RATE bd)) (dacType c !!! jj0) kk) (view s)
            else view s.
Proof.
  intros Hwf Hjj Hjj0 Hii0 Hcl Hmm0 Hmm. cbv zeta. unfold app_dac_card.
  pose proof (chans_le (dacType c !!! jj0)).
  destruct (truthy (dacConfig c !!! jj)) eqn:Et.
  2:{ split; [done|]. rewrite decide_False; [done|]. intros ->. apply truthy_ne in Hmm0. congruence. }
  destruct (decide (jj = jj0)) as [->|Hne].
  - apply (for_up_view app_wf); [done|]. intros kk s' _ Hs'.
    destruct (sample_view used enable ctr clk (dacConfig c !!! jj0) (dacConfig c !!! jj0) sl0 (dacType c !!! jj0)
      jj0 jj0 kk ii0 s') as [H1 H2]; [(done || lia)..|]. split; [done|]. rewrite H2. by rewrite decide_True.
  - apply (for_up_inv (λ s', app_wf s' ∧ app_view jj0 ii0 (dacConfig c !!! jj0) sl0 s' =
      app_view jj0 ii0 (dacConfig c !!! jj0) sl0 s)); [done|]. intros kk s' _ [Hs' Hv].
    destruct (sample_view used enable ctr clk (dacConfig c !!! jj) (dacConfig c !!! jj0) sl0 (dacType c !!! jj)
      jj jj0 kk ii0 s') as [H1 H2]; [(done || lia)..|]. split; [done|]. rewrite H2. by rewrite decide_False.
Qed.

Lemma write_view c used enable ctr clk sl0 jj0 ii0 s :
  app_wf s → (dacCount c <= MAX_DAC_MODULES)%nat → (jj0 < dacCount c)%nat →
  (ii0 < chans (dacType c !!! jj0))%nat → claimed used jj0 ii0 = true → dacConfig c !!! jj0 ≠ 0 →
  (∀ jj, (jj < dacCount c)%nat → jj ≠ jj0 → dacConfig c !!! jj ≠ dacConfig c !!! jj0) →
  let view := app_view jj0 ii0 (dacConfig c !!! jj0) sl0 in
  view (app_dac_write c bd used enable ctr clk s) =
  for_n (OVERSAMPLE_TIMES bd) (λ kk, view_sample enable (Z.rem (ctr + Z.of_nat kk) IO_MEMORY_SLOTS) sl0
    (Z.rem (clk + Z.of_nat kk) (IOP_IO_RATE bd)) (dacType c !!! jj0) kk) (view s).
Proof.
  intros Hwf Hn Hjj0 Hii0 Hcl Hmm0 Hmm. cbv zeta. unfold app_dac_write.
  apply (for_up_view_single app_wf _ _ (λ v, for_n (OVERSAMPLE_TIMES bd) (λ kk, view_sample enable _ sl0 _ _ kk) v) jj0);
    [done|done|]. intros k s' Hk Hs'.
  apply card_view; try (done || lia). split; [by intros ->|]. intros E. destruct (decide (k = jj0)); [done|].
  exfalso. by apply (Hmm k).
Qed.

Lemma slot_inj ctr (k k' : nat) :
  0 <= ctr → (k < 4096)%nat → (k' < 4096)%nat →
  Z.rem (ctr + Z.of_nat k) IO_MEMORY_SLOTS = Z.rem (ctr + Z.of_nat k') IO_MEMORY_SLOTS → k = k'.
Proof.
  intros Hc Hk Hk'. unfold IO_MEMORY_SLOTS. rewrite !Z.rem_mod_nonneg by lia. intros E.
  pose proof (Z.div_mod (ctr + Z.of_nat k) 4096). pose proof (Z.div_mod (ctr + Z.of_nat k') 4096). lia.
Qed.

Lemma view_samples enable ctr clk type (n k0 : nat) v :
  0 <= ctr → (k0 < n)%nat → (n <= 4096)%nat →
  for_n n (λ kk, view_sample enable (Z.rem (ctr + Z.of_nat kk) IO_MEMORY_SLOTS) (Z.rem (ctr + Z.of_nat k0) IO_MEMORY_SLOTS)
    (Z.rem (clk + Z.of_nat kk) (IOP_IO_RATE bd)) type kk) v =
  (chan_run n v.1, (dac_word enable type (chan_sample v.1 k0),
                    if enable then Z.rem (clk + Z.of_nat k0) (IOP_IO_RATE bd) else v.2.2)).
Proof.
  intros Hc Hk0 Hn. set (new := (dac_word enable type (chan_sample v.1 k0),
    if enable then Z.rem (clk + Z.of_nat k0) (IOP_IO_RATE bd) else v.2.2)).
  set (f := λ kk : nat, _).
  enough (∀ m, (m <= n)%nat → for_n m f v = (chan_run m v.1, if decide (k0 < m)%nat then new else v.2)) as Hm.
  { rewrite (Hm n) by lia. by rewrite decide_True. }
  induction m as [|m IH]; intros Hm; [by destruct v|]. rewrite for_up_S, Nat.add_0_l, IH by lia.
  unfold f, view_sample, view_round, chan_run. rewrite for_up_S, Nat.add_0_l. fold (chan_run m v.1). cbn [fst snd].
  destruct (chan_round m (chan_run m v.1)) as [y st] eqn:Er. cbn [fst snd]. f_equal.
  destruct (decide (m = k0)) as [->|Hne].
  - rewrite Z.eqb_refl, (decide_False (P := (k0 < k0)%nat)), decide_True by lia. unfold new, chan_sample, dac_word, limit.
    rewrite Er, andb_true_r. done.
  - replace (Z.rem (ctr + Z.of_nat m) IO_MEMORY_SLOTS =? Z.rem (ctr + Z.of_nat k0) IO_MEMORY_SLOTS) with false.
    2:{ symmetry. apply Z.eqb_neq. intros E%slot_inj; lia. }
    rewrite andb_false_r. destruct (decide (k0 < m)%nat), (decide (k0 < S m)%nat); try lia; try done.
    by destruct v as [? [? ?]].
Qed.

Lemma limit_pos type : 0 < limit type.
Proof. unfold limit, dac_params. by destruct (type =? GSC_18AO8), (type =? GSC_20AO8). Qed.

Lemma clip_bounds lim x : 0 < lim → - lim <= clip lim x <= lim.
Proof.
  intros. unfold clip, overflows. rewrite !Z.gtb_ltb.
  destruct (Z.ltb_spec lim x), (Z.ltb_spec x (- lim)); simpl; lia.
Qed.

Lemma clip_id lim x : - lim <= x <= lim → clip lim x = x.
Proof.
  intros. unfold clip, overflows. rewrite !Z.gtb_ltb.
  by rewrite (proj2 (Z.ltb_ge lim x)), (proj2 (Z.ltb_ge x (- lim))) by lia.
Qed.

Lemma dac_word_bounds enable type x : - limit type <= dac_word enable type x <= limit type.
Proof. pose proof (limit_pos type). unfold dac_word. destruct enable; [by apply clip_bounds|lia]. Qed.

Lemma published c used enable ctr clk s (jj ii k0 : nat) :
  app_wf s → (dacCount c <= MAX_DAC_MODULES)%nat → (jj < dacCount c)%nat →
  (ii < chans (dacType c !!! jj))%nat → claimed used jj ii = true → dacConfig c !!! jj ≠ 0 →
  (∀ jj', (jj' < dacCount c)%nat → jj' ≠ jj → dacConfig c !!! jj' ≠ dacConfig c !!! jj) →
  0 <= ctr → (k0 < OVERSAMPLE_TIMES bd)%nat → (OVERSAMPLE_TIMES bd <= 4096)%nat →
  let view := app_view jj ii (dacConfig c !!! jj) (Z.rem (ctr + Z.of_nat k0) IO_MEMORY_SLOTS) in
  view (app_dac_write c bd used enable ctr clk s) =
  (chan_run (OVERSAMPLE_TIMES bd) (view s).1,
   (dac_word enable (dacType c !!! jj) (chan_sample (view s).1 k0),
    if enable then Z.rem (clk + Z.of_nat k0) (IOP_IO_RATE bd) else (view s).2.2)).
Proof.
  intros. cbv zeta.
  transitivity (for_n (OVERSAMPLE_TIMES bd) (λ kk, view_sample enable (Z.rem (ctr + Z.of_nat kk) IO_MEMORY_SLOTS)
    (Z.rem (ctr + Z.of_nat k0) IO_MEMORY_SLOTS) (Z.rem (clk + Z.of_nat kk) (IOP_IO_RATE bd)) (dacType c !!! jj) kk)
    (app_view jj ii (dacConfig c !!! jj) (Z.rem (ctr + Z.of_nat k0) IO_MEMORY_SLOTS) s)).
  - by apply write_view.
  - by apply view_samples.
Qed.

(** What an application publishes: after [app_dac_write], the word of a
    channel it uses, in the block of upsampling round [k0] of this cycle, is
    the [k0]-th sample of the channel's stream (sign flip and upsampling filter
    as built), rounded and clipped to the card, or 0 when outputs are
    disabled; the block carries the clock of that round when they are enabled;
    the filter history goes on from the end of the stream. *)
Theorem app_dac_published c used enable ctr clk s (jj ii k0 : nat) :
  app_wf s → (dacCount c <= MAX_DAC_MODULES)%nat → (jj < dacCount c)%nat →
  (ii < chans (dacType c !!! jj))%nat → claimed used jj ii = true → dacConfig c !!! jj ≠ 0 →
  (∀ jj', (jj' < dacCount c)%nat → jj' ≠ jj → dacConfig c !!! jj' ≠ dacConfig c !!! jj) →
  0 <= ctr → (k0 < OVERSAMPLE_TIMES bd)%nat → (OVERSAMPLE_TIMES bd <= 4096)%nat →
  let s' := app_dac_write c bd used enable ctr clk s in
  let st := ((dacOut s !!! jj) !!! ii, dDacHistory s !!! (ii + jj * 16)%nat) in
  let b := iodata s' (dacConfig c !!! jj) (Z.rem (ctr + Z.of_nat k0) IO_MEMORY_SLOTS) in
  bdata b !!! ii = dac_word enable (dacType c !!! jj) (chan_sample st k0) ∧
  - limit (dacType c !!! jj) <= bdata b !!! ii <= limit (dacType c !!! jj) ∧
  (enable = true → bcycle b = Z.rem (clk + Z.of_nat k0) (IOP_IO_RATE bd)) ∧
  dDacHistory s' !!! (ii + jj * 16)%nat = (chan_run (OVERSAMPLE_TIMES bd) st).2.
Proof.
  intros Hwf Hn Hjj Hii Hcl Hmm Hd Hc Hk0 Ho. cbv zeta.
  pose proof (published c used enable ctr clk s jj ii k0 Hwf Hn Hjj Hii Hcl Hmm Hd Hc Hk0 Ho) as Hv. cbv zeta in Hv.
  set (s' := app_dac_write c bd used enable ctr clk s) in *. clearbody s'. unfold app_view in Hv. cbn [fst] in Hv.
  injection Hv as Hx Hw Hcy. rewrite Hw. split; [done|]. split; [apply dac_word_bounds|]. split.
  - intros ->. done.
  - by rewrite <- Hx.
Qed.

(** A filter driven by a sequence of inputs. *)
Definition filter_run (coef h : list F) (input : nat → F) (n : nat) : list F :=
  for_n n (λ k h, (iir_filter_biquad (input k) coef 2 h).2) h.
Definition filter_stream (coef h : list F) (input : nat → F) (k : nat) : F :=
  (iir_filter_biquad (input k) coef 2 (filter_run coef h input k)).1.

Lemma chan_run_no_zero_pad x h n :
  OVERSAMPLE_DAC bd = NO_ZERO_PAD → FLIP_SIGNALS bd = true →
  chan_run n (x, h) = (Nat.iter n (λ x, x ⊗ fofZ (-1)) x,
    filter_run (FE_OVERSAMPLE_COEFF bd) h (λ k, Nat.iter (S k) (λ x, x ⊗ fofZ (-1)) x) n).
Proof.
  intros Hn Hf. unfold chan_run, filter_run. induction n as [|n IH]; [done|]. rewrite !for_up_S, Nat.add_0_l, IH.
  unfold chan_round, upsample_val. rewrite Hn, Hf. cbn [fst snd]. by destruct (iir_filter_biquad _ _ _ _).
Qed.

(** With the [flip_signals] and [no_zero_pad] build options together, the
    value held for a channel changes sign on every upsampling round, so that the
    upsampling filter is driven with [-x, x, -x, x, ...] instead of the negated
    output repeated: the flip is inside the round loop. *)
Theorem flip_alternates c used enable ctr clk s (jj ii k0 : nat) :
  app_wf s → (dacCount c <= MAX_DAC_MODULES)%nat → (jj < dacCount c)%nat →
  (ii < chans (dacType c !!! jj))%nat → claimed used jj ii = true → dacConfig c !!! jj ≠ 0 →
  (∀ jj', (jj' < dacCount c)%nat → jj' ≠ jj → dacConfig c !!! jj' ≠ dacConfig c !!! jj) →
  0 <= ctr → (k0 < OVERSAMPLE_TIMES bd)%nat → (OVERSAMPLE_TIMES bd <= 4096)%nat →
  OVERSAMPLE_DAC bd = NO_ZERO_PAD → FLIP_SIGNALS bd = true →
  let s' := app_dac_write c bd used enable ctr clk s in
  let x := (dacOut s !!! jj) !!! ii in
  let h := dDacHistory s !!! (ii + jj * 16)%nat in
  bdata (iodata s' (dacConfig c !!! jj) (Z.rem (ctr + Z.of_nat k0) IO_MEMORY_SLOTS)) !!! ii =
  dac_word enable (dacType c !!! jj)
    (filter_stream (FE_OVERSAMPLE_COEFF bd) h (λ k, Nat.iter (S k) (λ x, x ⊗ fofZ (-1)) x) k0).
Proof.
  intros Hwf Hn Hjj Hii Hcl Hmm Hd Hc Hk0 Ho Hz Hf. cbv zeta.
  pose proof (published c used enable ctr clk s jj ii k0 Hwf Hn Hjj Hii Hcl Hmm Hd Hc Hk0 Ho) as Hv. cbv zeta in Hv.
  set (s' := app_dac_write c bd used enable ctr clk s) in *. clearbody s'. unfold app_view in Hv. cbn [fst] in Hv.
  injection Hv as _ Hw _. rewrite Hw. f_equal.
  unfold chan_sample. rewrite (chan_run_no_zero_pad _ _ k0 Hz Hf). unfold chan_round, upsample_val, filter_stream. rewrite Hz, Hf. cbn [fst snd].
  by destruct (iir_filter_biquad _ _ _ _).
Qed.

(** A positive output of [2 ^ 31] counts or more, which the conversion to [int]
    cannot represent, is clipped to the NEGATIVE limit of the card. *)
Theorem dac_overflow_sign_flip type (x : F) z :
  (x >ᶠ flit 0 0) = true → ftrunc (x ⊕ flit 5 (-1)) = Some z → 2 ^ 31 <= z →
  clip (dac_params type).1.1 (dac_round x) = - (dac_params type).1.1.
Proof.
  intros Hx Hz Hbig. unfold dac_round. rewrite Hx. unfold f_to_int, f_to_sint. rewrite Hz.
  rewrite (proj2 (Z.ltb_ge z (2 ^ (32 - 1)))) by lia. rewrite andb_false_r.
  pose proof (limit_pos type) as Hl. unfold limit in Hl. unfold clip, overflows. rewrite !Z.gtb_ltb.
  assert (Hs : (dac_params type).1.1 <= 1000000).
  { unfold dac_params, OVERFLOW_LIMIT_16BIT, OVERFLOW_LIMIT_18BIT, OVERFLOW_LIMIT_20BIT.
    destruct (type =? GSC_18AO8), (type =? GSC_20AO8); simpl; lia. }
  rewrite (proj2 (Z.ltb_ge _ (- 2 ^ (32 - 1)))), (proj2 (Z.ltb_lt (- 2 ^ (32 - 1)) _)) by lia. done.
Qed.
(** The words of the channels an application does not use are left alone. *)
Lemma write_frame c used enable ctr clk s m sl (i : nat) :
  app_wf s → (dacCount c <= MAX_DAC_MODULES)%nat →
  (∀ jj, (jj < dacCount c)%nat → dacConfig c !!! jj ≠ 0 → dacConfig c !!! jj = m → claimed used jj i = false) →
  let s' := app_dac_write c bd used enable ctr clk s in
  app_wf s' ∧ bdata (iodata s' m sl) !!! i = bdata (iodata s m sl) !!! i.
Proof.
  intros Hwf Hn Hfree. cbv zeta.
  set (P := λ s', app_wf s' ∧ bdata (iodata s' m sl) !!! i = bdata (iodata s m sl) !!! i).
  change (P (app_dac_write c bd used enable ctr clk s)).
  unfold app_dac_write. apply (for_up_inv P); [done|]. intros jj s1 Hjj Hs1. unfold app_dac_card.
  destruct (truthy (dacConfig c !!! jj)) eqn:Et; [|done]. apply truthy_ne in Et.
  apply (for_up_inv P); [done|]. intros kk s2 _ Hs2. unfold app_dac_sample.
  pose proof (chans_le (dacType c !!! jj)) as Hle. unfold chans in Hle.
  destruct (dac_params (dacType c !!! jj)) as [[lim mask] num]. cbn [snd] in Hle.
  set (memCtr := Z.rem (ctr + Z.of_nat kk) IO_MEMORY_SLOTS).
  assert (Hl : P (for_n num (app_dac_channel bd used enable (dacConfig c !!! jj) memCtr lim jj kk) s2)).
  { apply (for_up_inv P); [done|]. intros ii s3 Hii [Hw3 Hd3]. split; [apply channel_wf; (done || lia)|].
    pose proof (channel_split used enable (dacConfig c !!! jj) memCtr lim jj kk ii s3 Hw3 ltac:(lia) ltac:(lia)) as Hs.
    cbv zeta in Hs. destruct (chan_round kk _) as [y [x' h']]. destruct Hs as (_ & _ & Ed). rewrite Ed.
    destruct (claimed used jj ii) eqn:Ec; [|done]. rewrite upd_block_get.
    destruct ((dacConfig c !!! jj =? m) && (memCtr =? sl)) eqn:E; [|done].
    apply andb_true_iff in E as [Em%Z.eqb_eq ->%Z.eqb_eq]. rewrite Em. simpl. rewrite list_lookup_total_insert_ne; [done|].
    intros ->. rewrite Hfree in Ec; [done|lia|done|done]. }
  cbv beta iota zeta. fold memCtr. set (s4 := for_n num _ s2) in *. clearbody s4. destruct enable; [|done]. destruct Hl as [[Ho Hh Hd] Hl]. split.
  - split; [done|done|]. intros m' sl'. cbn [iodata set_iodata]. rewrite upd_block_get.
    destruct ((_ =? m') && (memCtr =? sl')); apply Hd.
  - cbn [iodata set_iodata]. rewrite upd_block_get. destruct ((_ =? m) && (memCtr =? sl)) eqn:E; [|done].
    by apply andb_true_iff in E as [->%Z.eqb_eq ->%Z.eqb_eq].
Qed.

(** Applications do not disturb each other's outputs: of two applications
    running together, the cycle of one leaves every word of the shared memory
    that belongs to a channel of the other as it was, in every slot. *)
Theorem dac_words_protected apps map (i k : nat) a b enable ctr clk s (ii chan : nat) sl :
  reach apps map → i ≠ k → apps !! i = Some a → apps !! k = Some b → adcCount a.1 = adcCount b.1 →
  app_wf s → (ii < dacCount b.1)%nat → dacConfig b.1 !!! ii ≠ 0 → (chan < 16)%nat → claimed b.2 ii chan = true →
  let m := dacConfig b.1 !!! ii in
  bdata (iodata (app_dac_write a.1 bd a.2 enable ctr clk s) m sl) !!! chan = bdata (iodata s m sl) !!! chan.
Proof.
  intros (_ & Iok & _ & _ & I5)%alloc_reach Hne Ha Hb Hadc Hwf Hii Hc Hch Hcl m.
  assert (Hok : app_ok a) by (eapply Forall_lookup_1; [exact Iok|exact Ha]).
  apply write_frame; [done|by apply ao_count|]. intros jj Hjj Hcj Hm.
  destruct (claimed a.2 jj chan) eqn:Ec; [|done]. exfalso.
  refine (I5 k i b a (phys b.1 ii) chan _ Hb Ha Hch _ _); [done| |].
  - exists ii. done.
  - exists jj. split; [done|]. split; [done|]. split; [|done]. unfold phys. by rewrite Hm, Hadc.
Qed.
End AppEnd.

Lemma R_trunc_nonneg (x : R) : (0 <= x)%R → (IZR (R_trunc x) <= x < IZR (R_trunc x) + 1)%R.
Proof.
  intros Hx. unfold R_trunc. destruct (Rlt_dec x 0); [lra|]. pose proof (base_Int_part x). lra.
Qed.
Lemma R_trunc_neg (x : R) : (x < 0)%R → (IZR (R_trunc x) - 1 < x <= IZR (R_trunc x))%R.
Proof.
  intros Hx. unfold R_trunc. destruct (Rlt_dec x 0); [|lra]. pose proof (base_Int_part (- x)).
  rewrite opp_IZR. lra.
Qed.

Lemma Rabs_le_both (a b : R) : (Rabs a <= b)%R → (- b <= a <= b)%R.
Proof. destruct (Rabs_cases a) as [[? E]|[? E]]; rewrite E; lra. Qed.

Lemma dac_round_real (x : R) :
  (- 2147483648 <= x <= 2147483646)%R → (Rabs (IZR (dac_round x) - x) <= / 2)%R.
Proof.
  intros Hx. unfold dac_round, f_to_int, f_to_sint. rops. rewrite powerRZ_O, Rmult_0_l, powerRZ_m1.
  set (t := R_trunc _).
  assert (Ht : (- 2147483648 <= t < 2147483648) ∧ (Rabs (IZR t - x) <= / 2)%R).
  { subst t. destruct (Rlt_dec 0 x).
    - pose proof (R_trunc_nonneg (x + 5 * / 10)). set (t := R_trunc _) in *. clearbody t.
      split; [split; [apply le_IZR|apply lt_IZR]; lra|]. apply Rabs_le. lra.
    - pose proof (R_trunc_neg (x - 5 * / 10)). set (t := R_trunc _) in *. clearbody t.
      assert (- 2147483649 < t) by (apply lt_IZR; lra). assert (t < 2147483648) by (apply lt_IZR; lra).
      split; [lia|]. apply Rabs_le. lra. }
  destruct Ht as [[H1 H2] H3].
  rewrite (proj2 (Z.leb_le _ _)), (proj2 (Z.ltb_lt _ _)); simpl; (done || lia).
Qed.

(** Rounding and clipping of an output, in real arithmetic: within the card's
    range the word is the value rounded to a nearest integer; beyond it, as
    long as the value is an [int], it is the limit on the same side. *)
Theorem app_dac_rounding type (x : R) :
  let lim := (dac_params type).1.1 in
  let out := clip lim (dac_round x) in
  ((Rabs x <= IZR lim)%R → (Rabs (IZR out - x) <= / 2)%R) ∧
  ((IZR lim < x <= 2147483646)%R → out = lim) ∧
  ((- 2147483648 <= x < - IZR lim)%R → out = - lim).
Proof.
  cbv zeta. fold (limit type). pose proof (limit_pos type) as Hl.
  assert (Hs : limit type <= 1000000).
  { unfold limit, dac_params, OVERFLOW_LIMIT_16BIT, OVERFLOW_LIMIT_18BIT, OVERFLOW_LIMIT_20BIT.
    destruct (type =? GSC_18AO8), (type =? GSC_20AO8); simpl; lia. }
  set (lim := limit type) in *. clearbody lim. apply IZR_le in Hs. pose proof (IZR_lt _ _ Hl).
  pose proof (dac_round_real x) as Hr. set (r := dac_round x) in *. clearbody r.
  assert (Hz : ∀ b, (IZR b - / 2 < IZR r + / 2)%R → b <= r).
  { intros b Hb. apply Z.lt_succ_r, lt_IZR. rewrite succ_IZR. lra. }
  assert (Hz' : ∀ b, (IZR r - / 2 < IZR b + / 2)%R → r <= b).
  { intros b Hb. apply Z.lt_succ_r, lt_IZR. rewrite succ_IZR. lra. }
  split; [|split].
  - intros Hx. apply Rabs_le_both in Hx. specialize (Hr ltac:(lra)). pose proof Hr as Hr'. apply Rabs_le_both in Hr'.
    assert (- lim <= r <= lim).
    { destruct (Rabs_cases x) as [[? _]|[? _]]; split; try (apply Hz; rewrite ?opp_IZR; lra); try (apply Hz'; lra). }
    by rewrite clip_id.
  - intros Hx. specialize (Hr ltac:(lra)). apply Rabs_le_both in Hr. assert (lim <= r) by (apply Hz; lra).
    unfold clip, overflows. rewrite !Z.gtb_ltb. destruct (Z.ltb_spec lim r), (Z.ltb_spec r (- lim)); simpl; lia.
  - intros Hx. specialize (Hr ltac:(lra)). apply Rabs_le_both in Hr. assert (r <= - lim) by (apply Hz'; rewrite opp_IZR; lra).
    unfold clip, overflows. rewrite !Z.gtb_ltb. destruct (Z.ltb_spec lim r), (Z.ltb_spec r (- lim)); simpl; lia.
Qed.

(** ** The IOP end *)
Section IopEnd.
Context {F : Type} `{FloatOps F}.
Context (in_delay : Z) (enable : bool) (duotone : option Z).

(** What is seen of channel [chan0] of card [card0], whose block is [mm0]. *)
Record IopView := mkIV { v_epics : Z; v_last : Z; v_pci : Z; v_word : Z; v_cycle : Z; v_err : Z }.
Definition iop_view (card0 chan0 : nat) (mm0 slot : Z) (s : IopDac F) : IopView :=
  mkIV ((ip_dacOutEpics s !!! card0) !!! chan0) ((dac_out_last s !!! card0) !!! chan0) ((pci_dac s !!! card0) !!! chan0)
    (bdata (ip_iodata s mm0 slot) !!! chan0) (bcycle (ip_iodata s mm0 slot)) (dacChanErr s !!! card0).

(** The output of a channel: the shared word (or, on a delayed cycle, the last
    output) when the card is trusted and outputs are enabled. *)
Definition iop_output (type : Z) (card0 chan0 : nat) (v : IopView) : Z :=
  let active := negb (truthy (v_err v)) && enable in
  let raw := if active then (if in_delay =? 0 then v_word v else v_last v) else 0 in
  let raw := match duotone with
             | Some d => if ((chan0 =? chans type - 1) && (card0 =? 0))%nat then d else raw
             | None => raw
             end in
  if enable then clip (limit type) raw else 0.

Definition view_chan (type : Z) (card0 chan0 : nat) (v : IopView) : IopView :=
  let o := iop_output type card0 chan0 v in
  mkIV o o (Z.land o (dac_params type).1.2)
    (if negb (truthy (v_err v)) && enable then 0 else v_word v) (v_cycle v) (v_err v).
Definition view_check (clk : Z) (v : IopView) : IopView :=
  mkIV (v_epics v) (v_last v) (v_pci v) (v_word v) (v_cycle v)
    (if (v_cycle v =? clk) || (in_delay =? 1) then v_err v else v_err v + 1).
Definition view_used (v : IopView) : IopView := mkIV (v_epics v) (v_last v) (v_pci v) (v_word v) (-1) (v_err v).
Definition view_card (clk type : Z) (card0 chan0 : nat) (v : IopView) : IopView :=
  view_used (view_chan type card0 chan0 (view_check clk v)).

Record iop_wf (slot clk wr : Z) (s : IopDac F) : Prop := {
  iw_epics : dims MAX_DAC_MODULES 16 (ip_dacOutEpics s);
  iw_last : dims MAX_DAC_MODULES 16 (dac_out_last s);
  iw_pci : dims MAX_DAC_MODULES 16 (pci_dac s);
  iw_err : length (dacChanErr s) = MAX_DAC_MODULES;
  iw_data : ∀ m sl, (16 <= length (bdata (ip_iodata s m sl)))%nat;
  iw_slot : ioMemCntrDac s = slot;
  iw_clk : ioClockDac s = clk;
  iw_wr : dacWriteEnable s = wr
}.

Lemma upd_wf m sl f (d : IoData) :
  (∀ b, length (bdata (f b)) = length (bdata b)) → (∀ m' sl', (16 <= length (bdata (d m' sl')))%nat) →
  ∀ m' sl', (16 <= length (bdata (upd_block m sl f d m' sl')))%nat.
Proof. intros Hf Hd m' sl'. rewrite upd_block_get. destruct (_ && _); [rewrite Hf|]; apply Hd. Qed.

(** One channel's step field by field. *)
Lemma iop_channel_split slot clk wr mm type card chan st s :
  iop_wf slot clk wr s →
  let '(st', s') := iop_dac_channel in_delay enable duotone mm type card chan (st, s) in
  let active := negb (truthy (dacChanErr s !!! card)) && enable in
  let o := iop_output type card chan (iop_view card chan mm slot s) in
  ip_dacOutEpics s' = put2 card chan o (ip_dacOutEpics s) ∧
  dac_out_last s' = put2 card chan o (dac_out_last s) ∧
  pci_dac s' = put2 card chan (Z.land o (dac_params type).1.2) (pci_dac s) ∧
  ip_iodata s' = (if active then upd_block mm slot (set_word chan 0) (ip_iodata s) else ip_iodata s) ∧
  dacChanErr s' = dacChanErr s ∧ ioMemCntrDac s' = slot ∧ ioClockDac s' = clk ∧ dacWriteEnable s' = wr.
Proof.
  intros [_ _ _ _ _ Hs Hc Hw]. unfold iop_dac_channel, iop_output, iop_view, chans, limit. cbn [v_err v_word v_last].
  destruct (dac_params type) as [[lim mask] num]. cbn [fst snd].
  destruct (negb (truthy (dacChanErr s !!! card)) && enable); cbn [fst snd];
    cbn -[put2 upd_block clip overflows set_word Z.land];
    match goal with |- context [overflows ?l ?x] => destruct (overflows l x) end;
    cbn -[put2 upd_block clip overflows set_word Z.land]; rewrite ?Hs; done.
Qed.

Lemma iop_channel_view slot clk wr mm mm0 type card card0 chan chan0 st s :
  iop_wf slot clk wr s → (card < MAX_DAC_MODULES)%nat → (chan < 16)%nat →
  (card0 < MAX_DAC_MODULES)%nat → (chan0 < 16)%nat → (card = card0 ↔ mm = mm0) →
  let s' := (iop_dac_channel in_delay enable duotone mm type card chan (st, s)).2 in
  iop_wf slot clk wr s' ∧
  iop_view card0 chan0 mm0 slot s' =
    if decide (card = card0 ∧ chan = chan0) then view_chan type card0 chan0 (iop_view card0 chan0 mm0 slot s)
    else iop_view card0 chan0 mm0 slot s.
Proof.
  intros Hwf Hcard Hchan Hcard0 Hchan0 Hmm. cbv zeta.
  pose proof (iop_channel_split slot clk wr mm type card chan st s Hwf) as Hs.
  destruct (iop_dac_channel in_delay enable duotone mm type card chan (st, s)) as [st' s']. cbv zeta in Hs.
  destruct Hs as (Ee & El & Ep & Ed & Er & Hs & Hc & Hw). cbn [snd]. destruct Hwf as [We Wl Wp Wr Wd _ _ _]. split.
  - split; rewrite ?Ee, ?El, ?Ep, ?Er; try apply put2_dims; try done. rewrite Ed.
    destruct (_ && enable); [|done]. apply upd_wf; [intros b; apply length_insert|done].
  - assert (Hput : ∀ (a : list (list Z)) x, dims MAX_DAC_MODULES 16 a →
      (put2 card chan x a !!! card0) !!! chan0 = if decide (card = card0 ∧ chan = chan0) then x else (a !!! card0) !!! chan0).
    { intros a x Ha. rewrite (put2_get MAX_DAC_MODULES 16) by done. apply decide_ext. split; intros [-> ->]; done. }
    assert (Hcyc : bcycle (ip_iodata s' mm0 slot) = bcycle (ip_iodata s mm0 slot)).
    { rewrite Ed. destruct (_ && enable); [|done]. rewrite upd_block_get. destruct (_ && _) eqn:E; [|done].
      by apply andb_true_iff in E as [->%Z.eqb_eq _]. }
    unfold iop_view. rewrite Ee, El, Ep, Er, !Hput, Hcyc by done.
    destruct (decide (card = card0 ∧ chan = chan0)) as [[-> ->]|Hne].
    + assert (mm = mm0) as -> by tauto. unfold view_chan, iop_view. cbn [v_err v_word v_cycle]. f_equal. rewrite Ed.
      destruct (_ && enable); [|done]. rewrite upd_block_get, !Z.eqb_refl. simpl.
      rewrite lookup_total_insert by (specialize (Wd mm0 slot); lia). by rewrite decide_True.
    + f_equal. rewrite Ed. destruct (_ && enable); [|done]. rewrite upd_block_get. destruct (_ && _) eqn:E; [|done].
      apply andb_true_iff in E as [->%Z.eqb_eq _]. simpl. rewrite list_lookup_total_insert_ne; [done|]. intros ->. tauto.
Qed.

Lemma iop_check_view slot clk wr mm mm0 card card0 chan0 s :
  iop_wf slot clk wr s → (card < MAX_DAC_MODULES)%nat → (card = card0 ↔ mm = mm0) →
  let s' := iop_check_cycle in_delay mm card s in
  iop_wf slot clk wr s' ∧
  iop_view card0 chan0 mm0 slot s' =
    if decide (card = card0) then view_check clk (iop_view card0 chan0 mm0 slot s) else iop_view card0 chan0 mm0 slot s.
Proof.
  intros [We Wl Wp Wr Wd Ws Wc Ww] Hcard Hmm. cbv zeta. unfold iop_check_cycle. rewrite Ws, Wc.
  assert (Herr : ∀ b : bool, iop_wf slot clk wr (if b then set_dacEnable (Z.lor (dacEnable s) (pBits !!! card)) s
      else set_dacChanErr (alter (λ n, n + 1) card (dacChanErr s)) (set_dacEnable (Z.land (dacEnable s) (Z.lnot (pBits !!! card))) s))).
  { intros []; split; try done. simpl. by rewrite length_alter. }
  split; [apply Herr|]. unfold view_check, iop_view. cbn [v_err v_word v_cycle v_epics v_last v_pci].
  destruct (decide (card = card0)) as [->|Hne].
  - assert (mm = mm0) as -> by tauto. destruct (_ || _); [done|]. simpl. by rewrite lookup_total_alter_eq by lia.
  - destruct (_ || _); [done|]. simpl. by rewrite lookup_total_alter_ne.
Qed.

Lemma iop_card_view c slot clk wr card card0 chan0 st s :
  iop_wf slot clk wr s → (card < MAX_DAC_MODULES)%nat → (card0 < MAX_DAC_MODULES)%nat →
  (chan0 < chans (dacType c !!! card0))%nat → (card = card0 ↔ dacConfig c !!! card = dacConfig c !!! card0) →
  let s' := (iop_dac_card c in_delay enable duotone card (st, s)).2 in
  let view := iop_view card0 chan0 (dacConfig c !!! card0) slot in
  iop_wf slot clk wr s' ∧
  view s' = if decide (card = card0) then view_card clk (dacType c !!! card0) card0 chan0 (view s) else view s.
Proof.
  intros Hwf Hcard Hcard0 Hch Hmm. cbv zeta.
  pose proof (chans_le (dacType c !!! card0)). pose proof (chans_le (dacType c !!! card)) as Hle.
  unfold iop_dac_card. set (mm := dacConfig c !!! card) in *. set (mm0 := dacConfig c !!! card0) in *.
  destruct (iop_check_view slot clk wr mm mm0 card card0 chan0 s Hwf Hcard Hmm) as [Hw1 Hv1].
  set (s1 := iop_check_cycle in_delay mm card s) in *. clearbody s1.
  set (v := iop_view card0 chan0 mm0 slot s) in *. clearbody v.
  assert (Hch' : card = card0 → (chan0 < chans (dacType c !!! card))%nat) by (by intros ->).
  set (type := dacType c !!! card) in *.
  assert (Hty : card = card0 → type = dacType c !!! card0) by (by intros ->). clearbody type.
  unfold chans in Hle, Hch'. destruct (dac_params type) as [[lim mask] num]. cbn [fst snd] in Hle, Hch'.
  set (f := iop_dac_channel in_delay enable duotone mm type card).
  set (P := λ x : Z * IopDac F, iop_wf slot clk wr x.2).
  set (vw := λ x : Z * IopDac F, iop_view card0 chan0 mm0 slot x.2).
  assert (Hloop : P (for_n num f (st, s1)) ∧ vw (for_n num f (st, s1)) =
    if decide (card = card0) then view_chan (dacType c !!! card0) card0 chan0 (view_check clk v) else v).
  { destruct (decide (card = card0)) as [->|Hne].
    - rewrite <- Hv1. apply (for_up_view_single P vw f _ chan0); [by apply Hch'|done|]. intros k [st2 s2] Hk Hs2.
      destruct (iop_channel_view slot clk wr mm mm0 type card0 card0 k chan0 st2 s2) as [H1 H2]; [(done || lia)..|].
      split; [done|]. unfold vw, f. cbn [snd]. rewrite H2, (Hty eq_refl).
      destruct (decide (card0 = card0 ∧ k = chan0)), (decide (k = chan0)); try done; tauto.
    - apply (for_up_inv (λ x, P x ∧ vw x = v)); [done|]. intros k [st2 s2] Hk [Hs2 Hv2].
      destruct (iop_channel_view slot clk wr mm mm0 type card card0 k chan0 st2 s2) as [H1 H2]; [(done || lia)..|].
      split; [done|]. unfold vw, f. rewrite H2, decide_False by tauto. done. }
  cbv beta iota zeta. fold f. destruct (for_n num f (st, s1)) as [st2 s2]. destruct Hloop as [Hw2 Hv2]. cbn [snd] in *.
  unfold P, vw in Hw2, Hv2. cbn [snd] in *. destruct Hw2 as [We Wl Wp Wr Wd Ws Wc Ww].
  rewrite Ws. split.
  - destruct (_ >? _); split; try done; apply upd_wf; done.
  - transitivity (let v2 := iop_view card0 chan0 mm0 slot s2 in if decide (card = card0) then view_used v2 else v2).
    2:{ cbv zeta. rewrite Hv2. by destruct (decide (card = card0)). }
    unfold iop_view, view_used. cbv zeta. cbn [v_err v_word v_cycle v_epics v_last v_pci].
    destruct (_ >? _); cbn [ip_iodata set_ip_iodata set_dmaStarted ip_dacOutEpics dac_out_last pci_dac dacChanErr];
      rewrite !upd_block_get, Z.eqb_refl, andb_true_r;
      (destruct (decide (card = card0)) as [->|Hne];
       [assert (mm = mm0) as -> by tauto; by rewrite Z.eqb_refl|by rewrite (proj2 (Z.eqb_neq mm mm0)) by tauto]).
Qed.

Lemma iop_write_view c bd slot clk wr card0 chan0 s :
  iop_wf slot clk wr s → DAC_START_CYCLE < wr → in_delay < 2 →
  (dacCount c <= MAX_DAC_MODULES)%nat → (card0 < dacCount c)%nat → (chan0 < chans (dacType c !!! card0))%nat →
  (∀ card, (card < dacCount c)%nat → card ≠ card0 → dacConfig c !!! card ≠ dacConfig c !!! card0) →
  let s' := (iop_dac_write c bd in_delay enable duotone s).2 in
  let view := iop_view card0 chan0 (dacConfig c !!! card0) slot in
  view s' = view_card clk (dacType c !!! card0) card0 chan0 (view s) ∧
  ioMemCntrDac s' = Z.rem (slot + 1) IO_MEMORY_SLOTS ∧ ioClockDac s' = Z.rem (clk + 1) (IOP_IO_RATE bd).
Proof.
  intros Hwf Hwr Hdel Hn Hcard0 Hch Hd. cbv zeta. unfold iop_dac_write.
  assert (Hon : (dacWriteEnable s >? DAC_START_CYCLE) && (in_delay <? 2) = true).
  { destruct Hwf. rewrite Z.gtb_ltb, (proj2 (Z.ltb_lt _ _)), (proj2 (Z.ltb_lt in_delay 2)) by lia. done. }
  rewrite Hon. set (f := iop_dac_card c in_delay enable duotone).
  set (vw := λ x : Z * IopDac F, iop_view card0 chan0 (dacConfig c !!! card0) slot x.2).
  destruct (for_up_view_single (λ x : Z * IopDac F, iop_wf slot clk wr x.2) vw f
    (view_card clk (dacType c !!! card0) card0 chan0) card0 (dacCount c) (0, s)) as [Hw Hv]; [done|done| |].
  { intros k [st2 s2] Hk Hs2. apply iop_card_view; try (done || lia). split; [by intros ->|]. intros E.
    destruct (decide (k = card0)); [done|]. exfalso. by apply (Hd k). }
  destruct (for_n (dacCount c) f (0, s)) as [st2 s2]. unfold vw in Hv. cbn [snd] in *. destruct Hw as [_ _ _ _ _ Ws Wc Ww].
  rewrite <- Hv. destruct (_ <? 10); simpl; rewrite Ws, Wc; done.
Qed.
(** The same, field by field. *)
Lemma iop_write_fields c bd slot clk wr card0 chan0 s :
  iop_wf slot clk wr s → DAC_START_CYCLE < wr → in_delay < 2 →
  (dacCount c <= MAX_DAC_MODULES)%nat → (card0 < dacCount c)%nat → (chan0 < chans (dacType c !!! card0))%nat →
  (∀ card, (card < dacCount c)%nat → card ≠ card0 → dacConfig c !!! card ≠ dacConfig c !!! card0) →
  let s' := (iop_dac_write c bd in_delay enable duotone s).2 in
  let mm0 := dacConfig c !!! card0 in
  let v := view_check clk (iop_view card0 chan0 mm0 slot s) in
  let o := iop_output (dacType c !!! card0) card0 chan0 v in
  (ip_dacOutEpics s' !!! card0) !!! chan0 = o ∧
  (dac_out_last s' !!! card0) !!! chan0 = o ∧
  (pci_dac s' !!! card0) !!! chan0 = Z.land o (dac_params (dacType c !!! card0)).1.2 ∧
  bdata (ip_iodata s' mm0 slot) !!! chan0 = (if negb (truthy (v_err v)) && enable then 0 else v_word v) ∧
  bcycle (ip_iodata s' mm0 slot) = -1 ∧
  dacChanErr s' !!! card0 = v_err v.
Proof.
  intros Hwf Hwr Hdel Hn Hcard0 Hch Hd. cbv zeta.
  destruct (iop_write_view c bd slot clk wr card0 chan0 s Hwf Hwr Hdel Hn Hcard0 Hch Hd) as [Hv _].
  repeat split.
  - exact (f_equal v_epics Hv).
  - exact (f_equal v_last Hv).
  - exact (f_equal v_pci Hv).
  - exact (f_equal v_word Hv).
  - exact (f_equal v_cycle Hv).
  - exact (f_equal v_err Hv).
Qed.
End IopEnd.
Arguments iop_wf {F}.
Arguments iop_view {F}.

(** The width of the two's complement word a card takes. *)
Definition word_width (type : Z) : Z := if type =? GSC_20AO8 then 21 else if type =? GSC_18AO8 then 18 else 16.

Lemma dac_params_ranges type :
  (dac_params type).1.2 = Z.ones (word_width type) ∧ 0 < word_width type ∧ limit type < 2 ^ (word_width type - 1).
Proof.
  unfold limit, dac_params, word_width. destruct (Z.eqb_spec type GSC_18AO8), (Z.eqb_spec type GSC_20AO8); subst;
    vm_compute; done.
Qed.

Lemma word_decodes type x :
  - limit type <= x <= limit type → swrap (word_width type) (Z.land x (dac_params type).1.2) = x.
Proof.
  intros Hx. destruct (dac_params_ranges type) as (-> & Hw & Hl). rewrite <- wrap_ones by lia.
  unfold swrap, wrap. rewrite Zplus_mod_idemp_l. apply (swrap_small (word_width type)); lia.
Qed.

Lemma iop_output_bounds in_delay enable duotone type card chan v :
  - limit type <= iop_output in_delay enable duotone type card chan v <= limit type.
Proof. pose proof (limit_pos type). unfold iop_output. destruct enable; [by apply clip_bounds|lia]. Qed.

Section IopTheorems.
Context {F : Type} `{FloatOps F}.
Context (c : Cards) (bd : Build F) (slot clk wr : Z) (card chan : nat).
Context (Hcount : (dacCount c <= MAX_DAC_MODULES)%nat) (Hcard : (card < dacCount c)%nat).
Context (Hchan : (chan < chans (dacType c !!! card))%nat).
Context (Hdistinct : ∀ card', (card' < dacCount c)%nat → card' ≠ card → dacConfig c !!! card' ≠ dacConfig c !!! card).
Context (Hwr : DAC_START_CYCLE < wr).

(** What the IOP sends: when the block of a card carries the IOP's clock, the
    card has had no missed cycle and outputs are enabled, each channel shows
    (and remembers) the published word clipped to the card, the DMA buffer gets
    the two's complement word the card decodes back to that value, and the
    block is consumed: its word is zeroed and its cycle is -1, so that it
    cannot be sent again. *)
Theorem iop_dac_outputs duotone s :
  iop_wf slot clk wr s → dacChanErr s !!! card = 0 →
  bcycle (ip_iodata s (dacConfig c !!! card) slot) = clk →
  let type := dacType c !!! card in
  let s' := (iop_dac_write c bd 0 true duotone s).2 in
  let word := bdata (ip_iodata s (dacConfig c !!! card) slot) !!! chan in
  let shown := match duotone with
               | Some d => if ((chan =? chans type - 1) && (card =? 0))%nat then d else word
               | None => word end in
  let out := (ip_dacOutEpics s' !!! card) !!! chan in
  out = clip (limit type) shown ∧ - limit type <= out <= limit type ∧
  (dac_out_last s' !!! card) !!! chan = out ∧
  swrap (word_width type) ((pci_dac s' !!! card) !!! chan) = out ∧
  bdata (ip_iodata s' (dacConfig c !!! card) slot) !!! chan = 0 ∧
  bcycle (ip_iodata s' (dacConfig c !!! card) slot) = -1 ∧
  dacChanErr s' !!! card = 0.
Proof.
  intros Hwf He Hc. cbv zeta.
  destruct (iop_write_fields 0 true duotone c bd slot clk wr card chan s) as (H1 & H2 & H3 & H4 & H5 & H6); [(done || lia)..|].
  set (s' := (iop_dac_write c bd 0 true duotone s).2) in *. clearbody s'. rewrite H1, H2, H3, H4, H5, H6.
  rewrite word_decodes by apply iop_output_bounds.
  assert (Hfresh : view_check 0 clk (iop_view card chan (dacConfig c !!! card) slot s) =
    iop_view card chan (dacConfig c !!! card) slot s).
  { unfold view_check, iop_view. cbn [v_epics v_last v_pci v_word v_cycle v_err]. by rewrite Hc, Z.eqb_refl. }
  rewrite !Hfresh. split.
  - unfold iop_output, iop_view. cbn [v_err v_word v_last]. rewrite He. done.
  - split; [apply iop_output_bounds|]. repeat split; try done. unfold iop_view. cbn [v_err]. by rewrite He.
Qed.

(** C36: The watchdog of a card: a block that does not carry the IOP's clock (the
    application is late or gone) counts an error, and from then on, until the
    count is cleared, every channel of the card is sent 0 whatever is published;
    the words themselves are left in the block. *)
Theorem iop_dac_watchdog enable s :
  iop_wf slot clk wr s → 0 <= dacChanErr s !!! card →
  bcycle (ip_iodata s (dacConfig c !!! card) slot) ≠ clk ∨ dacChanErr s !!! card ≠ 0 →
  let s' := (iop_dac_write c bd 0 enable None s).2 in
  (ip_dacOutEpics s' !!! card) !!! chan = 0 ∧ (pci_dac s' !!! card) !!! chan = 0 ∧
  0 < dacChanErr s' !!! card ∧
  (bcycle (ip_iodata s (dacConfig c !!! card) slot) ≠ clk → dacChanErr s' !!! card = dacChanErr s !!! card + 1) ∧
  bdata (ip_iodata s' (dacConfig c !!! card) slot) !!! chan = bdata (ip_iodata s (dacConfig c !!! card) slot) !!! chan.
Proof.
  intros Hwf He Hc. cbv zeta.
  destruct (iop_write_fields 0 enable None c bd slot clk wr card chan s) as (H1 & H2 & H3 & H4 & H5 & H6); [(done || lia)..|].
  set (s' := (iop_dac_write c bd 0 enable None s).2) in *. clearbody s'.
  set (v := view_check 0 clk _) in *.
  assert (Hv0 : v_word v = bdata (ip_iodata s (dacConfig c !!! card) slot) !!! chan ∧
    0 < v_err v ∧ (bcycle (ip_iodata s (dacConfig c !!! card) slot) ≠ clk → v_err v = dacChanErr s !!! card + 1)).
  { unfold v, view_check, iop_view. cbn [v_err v_word v_cycle]. split; [done|].
    destruct (Z.eqb_spec (bcycle (ip_iodata s (dacConfig c !!! card) slot)) clk); simpl; [|lia].
    destruct Hc; [done|]. split; [lia|done]. }
  clearbody v. destruct Hv0 as (Ew & Epos & Eerr).
  assert (Ht : truthy (v_err v) = true) by (apply truthy_ne; lia).
  assert (Ho : iop_output 0 enable None (dacType c !!! card) card chan v = 0).
  { unfold iop_output. rewrite Ht. simpl. pose proof (limit_pos (dacType c !!! card)).
    destruct enable; [|done]. apply clip_id. lia. }
  rewrite H1, H3, H4, H6, Ho, Ht. simpl. done.
Qed.
End IopTheorems.

(** C4: The output path end to end: the sample an application computes for a channel
    it uses, published in the block of its round, is what the IOP hands to the
    card when its slot and clock come to that block: rounded and clipped once,
    and encoded in the card's word so that it decodes to the same number. *)
Theorem dac_path {F} `{FloatOps F} (ca ci : Cards) (bd : Build F) used ctr clk s (jj ii k0 card : nat) slot iclk wr t :
  app_wf s → (dacCount ca <= MAX_DAC_MODULES)%nat → (jj < dacCount ca)%nat →
  (ii < chans (dacType ca !!! jj))%nat → claimed used jj ii = true → dacConfig ca !!! jj ≠ 0 →
  (∀ jj', (jj' < dacCount ca)%nat → jj' ≠ jj → dacConfig ca !!! jj' ≠ dacConfig ca !!! jj) →
  0 <= ctr → (k0 < OVERSAMPLE_TIMES bd)%nat → (OVERSAMPLE_TIMES bd <= 4096)%nat →
  (dacCount ci <= MAX_DAC_MODULES)%nat → (card < dacCount ci)%nat →
  (∀ card', (card' < dacCount ci)%nat → card' ≠ card → dacConfig ci !!! card' ≠ dacConfig ci !!! card) →
  dacConfig ci !!! card = dacConfig ca !!! jj → dacType ci !!! card = dacType ca !!! jj →
  DAC_START_CYCLE < wr → iop_wf slot iclk wr t → dacChanErr t !!! card = 0 →
  ip_iodata t = iodata (app_dac_write ca bd used true ctr clk s) →
  slot = Z.rem (ctr + Z.of_nat k0) IO_MEMORY_SLOTS → iclk = Z.rem (clk + Z.of_nat k0) (IOP_IO_RATE bd) →
  let t' := (iop_dac_write ci bd 0 true None t).2 in
  let x := chan_sample bd ((dacOut s !!! jj) !!! ii, dDacHistory s !!! (ii + jj * 16)%nat) k0 in
  let out := clip (limit (dacType ca !!! jj)) (dac_round x) in
  (ip_dacOutEpics t' !!! card) !!! ii = out ∧
  swrap (word_width (dacType ca !!! jj)) ((pci_dac t' !!! card) !!! ii) = out.
Proof.
  intros Hwf Hn Hjj Hii Hcl Hmm Hd Hc Hk0 Ho Hni Hcard Hdi Hcfg Hty Hwr Hiw He Hio -> ->. cbv zeta.
  pose proof (published bd ca used true ctr clk s jj ii k0 Hwf Hn Hjj Hii Hcl Hmm Hd Hc Hk0 Ho) as Hv. cbv zeta in Hv.
  set (sl := Z.rem (ctr + Z.of_nat k0) IO_MEMORY_SLOTS) in *. set (ck := Z.rem (clk + Z.of_nat k0) (IOP_IO_RATE bd)) in *.
  assert (Hw := f_equal (λ v, v.2.1) Hv). assert (Hcy := f_equal (λ v, v.2.2) Hv). cbn [fst snd app_view] in Hw, Hcy.
  rewrite <- Hio in Hw, Hcy. clear Hv Hio.
  destruct (iop_write_fields 0 true None ci bd sl ck wr card ii t) as (H1 & _ & H3 & _);
    [done|done|lia|done|done|by rewrite Hty|done|].
  set (t' := (iop_dac_write ci bd 0 true None t).2) in *. clearbody t'. rewrite H1, H3, <- Hty.
  rewrite word_decodes by apply iop_output_bounds. clear H1 H3.
  assert (Hout : iop_output 0 true None (dacType ci !!! card) card ii
    (view_check 0 ck (iop_view card ii (dacConfig ci !!! card) sl t)) =
    clip (limit (dacType ci !!! card)) (bdata (ip_iodata t (dacConfig ci !!! card) sl) !!! ii)).
  { unfold iop_output, view_check, iop_view. cbn [v_err v_word v_cycle]. by rewrite Hcfg, Hcy, Z.eqb_refl, He. }
  rewrite Hout, Hcfg, Hw, Hty. unfold dac_word, chan_sample. fold (limit (dacType ca !!! jj)).
  by rewrite (clip_id _ (clip _ _)) by (apply clip_bounds, limit_pos).
Qed.

(** ** Supervision of the cards' buffers *)

(** What the routine (not start-up) check sees of a full card buffer: on
    16-bit and 20-bit cards it raises [dacTimingError]; on an 18-bit card it does
    nothing, the register being read only when all faults are reported: the
    error is not raised and the card's buffer is reported good. *)
Theorem fifo_full_detection c cycleNum sizes s :
  let jj := Z.to_nat (cycleNum - HKP_DAC_FIFO_CHK) in
  let s' := check_dac_buffers c cycleNum 0 sizes s in
  (jj < length (Dac.statDac s))%nat →
  (dacType c !!! jj = GSC_16AO16 → Z.testbit (sizes jj) 3 = true → dacTimingError s' = 1) ∧
  (dacType c !!! jj = GSC_20AO8 → 500 < sizes jj → dacTimingError s' = 1) ∧
  (dacType c !!! jj = GSC_18AO8 → dacTimingError s' = dacTimingError s ∧ Z.testbit (Dac.statDac s' !!! jj) 3 = true).
Proof.
  cbv zeta. set (jj := Z.to_nat _). intros Hl. unfold check_dac_buffers. fold jj. split; [|split].
  - intros -> Hb. simpl. unfold check_16bit. simpl.
    assert (Ht : truthy (Z.land (sizes jj) 8) = true).
    { apply truthy_ne. intros E. apply (f_equal (λ z, Z.testbit z 3)) in E. rewrite Z.land_spec, Hb in E. done. }
    by rewrite Ht.
  - intros -> Hb. simpl. unfold check_20bit. rewrite andb_false_r.
    assert (Ht : (sizes jj >? 500) = true) by (rewrite Z.gtb_ltb; by apply Z.ltb_lt).
    rewrite Ht. done.
  - intros ->. split; [done|]. cbn -[Z.testbit or_at clr_at lookup_total]. unfold or_at, clr_at.
    rewrite lookup_total_alter_eq by (by rewrite !length_alter). by rewrite Z.lor_spec, orb_true_r.
Qed.

Definition checks (c : Cards) (cycleNum : Z) (n : nat) (reading : nat → Z) (s : Fifo) : Fifo :=
  for_n n (λ k s, check_dac_buffers c cycleNum 1 (λ _, reading k) s) s.

(** The start-up watchdog of a 16-bit card: a run of readings with the buffer
    off its working level (and not full) raises [dacTimingError] at the seventh,
    and not before; the error stays. *)
Theorem fifo_watchdog_trip c cycleNum reading s n :
  let jj := Z.to_nat (cycleNum - HKP_DAC_FIFO_CHK) in
  dacType c !!! jj = GSC_16AO16 → (jj < length (dacTimingErrorPending s))%nat →
  dacTimingErrorPending s !!! jj = 0 → dacTimingError s = 0 →
  (∀ k, (k < n)%nat → reading k ≠ 2 ∧ Z.testbit (reading k) 3 = false) →
  dacTimingError (checks c cycleNum n reading s) = if (n <=? 6)%nat then 0 else 1.
Proof.
  cbv zeta. set (jj := Z.to_nat _). intros Hty Hl Hp He Hr. unfold checks.
  set (f := λ (k : nat) (s : Fifo), _).
  enough (Hinv : length (dacTimingErrorPending (for_n n f s)) = length (dacTimingErrorPending s) ∧
    dacTimingErrorPending (for_n n f s) !!! jj = Z.of_nat (n `min` 6) ∧
    dacTimingError (for_n n f s) = if (n <=? 6)%nat then 0 else 1) by apply Hinv.
  induction n as [|n IH]; [done|]. rewrite for_up_S, Nat.add_0_l.
  destruct IH as (I1 & I2 & I3); [intros; apply Hr; lia|]. destruct (Hr n ltac:(lia)) as [Hn2 Hn3].
  set (s1 := for_n n f s) in *. clearbody s1. unfold f, check_dac_buffers. fold jj. rewrite Hty. simpl. unfold check_16bit. simpl.
  assert (Ht : truthy (Z.land (reading n) 8) = false).
  { unfold truthy. apply negb_false_iff, Z.eqb_eq. apply Z.bits_inj'. intros i Hi. rewrite Z.land_spec, Z.bits_0.
    destruct (Z.eqb_spec i 3) as [->|]; [by rewrite Hn3|]. change 8 with (2 ^ 3). rewrite Z.pow2_bits_false by lia. apply andb_false_r. }
  rewrite Ht, I3, (proj2 (Z.eqb_neq _ _) Hn2). simpl. rewrite I2.
  destruct (Nat.leb_spec n 6) as [Hle|Hgt].
  - simpl. unfold DAC_WD_TRIP_SET. rewrite Z.gtb_ltb. destruct (Z.ltb_spec 5 (Z.of_nat (n `min` 6))) as [Hlt|Hlt]; simpl.
    + assert (n = 6%nat) as -> by lia. done.
    + rewrite length_alter, lookup_total_alter_eq by lia. rewrite I2, I3. destruct (Nat.leb_spec (S n) 6); [|lia].
      split; [done|]. split; [lia|]. by destruct (Nat.leb_spec n 5); [|lia].
  - simpl. rewrite I3. split; [done|]. split; [lia|]. destruct (Nat.leb_spec n 5); [lia|done].
Qed.

(** Recovery of the cards: with two samples, as the IOP asks, a 16-bit card is
    written 64 words: its own 16 outputs, then those of the NEXT three cards
    ([dacOutEpics[card][chan]] with [chan] running past 16), where an 18-bit or
    20-bit card gets its 16 words. *)
Theorem recover_reads_other_cards type card (out : list (list Z)) (k : nat) :
  dims MAX_DAC_MODULES 16 out → type ≠ GSC_18AO8 → type ≠ GSC_20AO8 → (card + 3 < MAX_DAC_MODULES)%nat → (k < 64)%nat →
  recover_words 2 type card out !!! k = (out !!! (card + k / 16)%nat) !!! (k mod 16)%nat ∧
  length (recover_words 2 type card out) = 64%nat.
Proof.
  intros [Hl Hr] H1 H2 Hc Hk. unfold recover_words.
  rewrite (proj2 (Z.eqb_neq _ _) H1), (proj2 (Z.eqb_neq _ _) H2). split; [|by rewrite length_map, length_seq].
  assert (Hcat : ∀ (l : list (list Z)) i j, (∀ i, (i < length l)%nat → length (l !!! i) = 16%nat) → (i < length l)%nat → (j < 16)%nat →
    concat l !!! (i * 16 + j)%nat = (l !!! i) !!! j).
  { induction l as [|r l IH]; intros i j Hrow Hi Hj; [simpl in Hi; lia|]. simpl.
    pose proof (Hrow 0%nat ltac:(simpl; lia)) as H0. simpl in H0. destruct i as [|i].
    - rewrite !list_lookup_total_alt, lookup_app_l by (simpl; lia). done.
    - rewrite !list_lookup_total_alt, lookup_app_r by lia. replace (S i * 16 + j - length r)%nat with (i * 16 + j)%nat by lia.
      rewrite <- !list_lookup_total_alt. simpl. apply IH; [|simpl in Hi; lia|done]. intros i' Hi'. apply (Hrow (S i')). simpl. lia. }
  assert (Hk' : (k = (k / 16) * 16 + k mod 16)%nat) by (pose proof (Nat.div_mod k 16); lia).
  pose proof (Nat.mod_upper_bound k 16). pose proof (Nat.Div0.div_lt_upper_bound k 16 4).
  rewrite list_lookup_total_alt, list_lookup_fmap, lookup_seq_lt by (vm_compute; lia). cbn [fmap option_fmap option_map default].
  unfold MAX_DAC_CHN_PER_MOD. replace (card * 16 + (0 + k))%nat with ((card + k / 16) * 16 + k mod 16)%nat by lia.
  apply Hcat; [|lia|lia]. intros i Hi. apply Hr. lia.
Qed.

(** ** Concrete runs *)
Definition wit_build (od : oversample_dac) (flip : bool) : Build binary64 :=
  mkBuild 2 65536 (replicate 9 (b64_lit 5 (-1))) od flip.
Definition wit_state (x : binary64) : AppDac binary64 :=
  mkApp (put2 0 3 x (replicate MAX_DAC_MODULES (replicate 16 f0))) (replicate (MAX_DAC_MODULES * 16) (replicate 4 f0))
    (replicate MAX_DAC_MODULES (replicate 16 0)) (replicate MAX_DAC_MODULES (replicate 16 0)) 0 (replicate MAX_DAC_MODULES 0) 0
    (replicate MAX_DAC_MODULES (replicate 16 0)) (replicate (MAX_DAC_MODULES * 16) f0) (λ _ _, mkBlock 0 0 (replicate 32 0)).
Definition wit_iop (io : IoData) (slot clk : Z) : IopDac binary64 :=
  let z := replicate MAX_DAC_MODULES (replicate 16 0) in
  mkIop z z 0 (replicate MAX_DAC_MODULES 0) 0 z z (replicate (MAX_DAC_MODULES * 16) f0) io z 0
    (replicate MAX_DAC_MODULES 0) [] clk slot 10.

Lemma dims_replicate {A} n m (x : A) : dims n m (replicate n (replicate m x)).
Proof.
  split; [by rewrite length_replicate|]. intros i Hi. rewrite lookup_total_replicate_2 by done. by rewrite length_replicate.
Qed.

Lemma wit_state_wf x : app_wf (wit_state x).
Proof.
  split; [apply put2_dims, dims_replicate|by vm_compute|intros; simpl; lia].
Qed.

Lemma wit_iop_wf io slot clk : (∀ m sl, (16 <= length (bdata (io m sl)))%nat) → iop_wf slot clk 10 (wit_iop io slot clk).
Proof. intros Hio. split; try apply dims_replicate; done. Qed.

Lemma wit_distinct (j : nat) : (j < dacCount wit_cards)%nat → j ≠ 0%nat →
  dacConfig wit_cards !!! j ≠ dacConfig wit_cards !!! 0%nat.
Proof. simpl. lia. Qed.

Lemma app_dac_published_witness :
  bdata (iodata (app_dac_write wit_cards (wit_build OVERSAMPLE_OFF false) (wit_used 3) true 4095 65535
    (wit_state (b64_lit 25 (-1)))) 1 0) !!! 3%nat = 3.
Proof.
  pose proof (app_dac_published (wit_build OVERSAMPLE_OFF false) wit_cards (wit_used 3) true 4095 65535
    (wit_state (b64_lit 25 (-1))) 0 3 1 (wit_state_wf _) ltac:(vm_compute; lia) ltac:(simpl; lia) ltac:(vm_compute; lia)
    ltac:(reflexivity) ltac:(simpl; lia) wit_distinct ltac:(lia) ltac:(simpl; lia) ltac:(simpl; lia)) as [H _].
  etransitivity; [exact H|]. vm_compute. reflexivity.
Defined.

Lemma flip_alternates_witness :
  let w k0 := bdata (iodata (app_dac_write wit_cards (wit_build NO_ZERO_PAD true) (wit_used 3) true 0 0
    (wit_state (b64_lit 8 0))) 1 k0) !!! 3%nat in
  w 0 = -4 ∧ w 1 = 0.
Proof.
  assert (Hall : ∀ k0, (k0 < 2)%nat → _) by
    exact (λ k0 Hk, flip_alternates (wit_build NO_ZERO_PAD true) wit_cards (wit_used 3) true 0 0
      (wit_state (b64_lit 8 0)) 0 3 k0 (wit_state_wf _) ltac:(vm_compute; lia) ltac:(simpl; lia) ltac:(vm_compute; lia)
      ltac:(reflexivity) ltac:(simpl; lia) wit_distinct ltac:(lia) Hk ltac:(simpl; lia) eq_refl eq_refl).
  split.
  - etransitivity; [exact (Hall 0%nat ltac:(lia))|]. vm_compute. reflexivity.
  - etransitivity; [exact (Hall 1%nat ltac:(lia))|]. vm_compute. reflexivity.
Defined.

Lemma dac_overflow_sign_flip_witness :
  clip 32760 (dac_round (b64_lit 3 9)) = -32760 ∧ clip 32760 (dac_round (b64_lit 2 9)) = 32760.
Proof.
  split; [|vm_compute; reflexivity].
  apply (dac_overflow_sign_flip GSC_16AO16 (b64_lit 3 9) 3000000000); vm_compute; congruence || reflexivity.
Defined.

Lemma app_dac_rounding_witness : (Rabs (IZR (clip 32760 (dac_round (2.5)%R)) - 2.5) <= / 2)%R.
Proof.
  pose proof (app_dac_rounding GSC_16AO16 2.5%R) as [H _]. apply H.
  rewrite Rabs_right by lra. change (dac_params GSC_16AO16).1.1 with 32760. lra.
Defined.

Lemma wit_reach : reach [wit_app 5; wit_app 3] (wit_map 5 (wit_map 3 wit_map0)).
Proof.
  refine (reach_start (wit_app 5) _ _ [] (_, []) (reach_start (wit_app 3) _ wit_map0 [] (wit_map 3 wit_map0, []) reach_boot _ _) _ _);
    try apply wit_app_ok; vm_compute; reflexivity.
Qed.

Lemma dac_words_protected_witness :
  bdata (iodata (app_dac_write wit_cards (wit_build OVERSAMPLE_OFF false) (wit_used 5) true 0 0
    (wit_state f1)) 1 0) !!! 3%nat = 0.
Proof.
  pose proof (dac_words_protected (wit_build OVERSAMPLE_OFF false) _ _ 0 1 (wit_app 5) (wit_app 3) true 0 0 (wit_state f1)
    0 3 0 wit_reach ltac:(lia) eq_refl eq_refl eq_refl (wit_state_wf _) ltac:(simpl; lia) ltac:(simpl; lia) ltac:(lia)
    eq_refl) as H.
  etransitivity; [exact H|reflexivity].
Defined.

Definition wit_io : IoData := λ _ _, mkBlock 0 7 (replicate 32 (-40000)).

Lemma wit_io_wf slot clk : iop_wf slot clk 10 (wit_iop wit_io slot clk).
Proof. apply wit_iop_wf. intros. simpl. lia. Qed.

Lemma iop_dac_outputs_witness :
  let s' := (iop_dac_write wit_cards (wit_build OVERSAMPLE_OFF false) 0 true None (wit_iop wit_io 5 7)).2 in
  (ip_dacOutEpics s' !!! 0%nat) !!! 3%nat = -32760 ∧ (pci_dac s' !!! 0%nat) !!! 3%nat = 32776.
Proof.
  pose proof (iop_dac_outputs wit_cards (wit_build OVERSAMPLE_OFF false) 5 7 10 0 3 ltac:(vm_compute; lia) ltac:(simpl; lia)
    ltac:(vm_compute; lia) wit_distinct eq_refl None (wit_iop wit_io 5 7) (wit_io_wf 5 7) eq_refl eq_refl)
    as (H1 & _ & _ & H2 & _).
  cbv zeta in *. split; [etransitivity; [exact H1|reflexivity]|]. vm_compute. reflexivity.
Defined.

Lemma iop_dac_watchdog_witness :
  let s' := (iop_dac_write wit_cards (wit_build OVERSAMPLE_OFF false) 0 true None (wit_iop wit_io 5 8)).2 in
  (ip_dacOutEpics s' !!! 0%nat) !!! 3%nat = 0 ∧ dacChanErr s' !!! 0%nat = 1.
Proof.
  pose proof (iop_dac_watchdog wit_cards (wit_build OVERSAMPLE_OFF false) 5 8 10 0 3 ltac:(vm_compute; lia) ltac:(simpl; lia)
    ltac:(vm_compute; lia) wit_distinct eq_refl true (wit_iop wit_io 5 8) (wit_io_wf 5 8) ltac:(simpl; lia)
    ltac:(left; simpl; lia)) as (H1 & _ & _ & H2 & _).
  cbv zeta in *. split; [exact H1|]. etransitivity; [apply H2; simpl; lia|reflexivity].
Defined.

Lemma dac_path_witness :
  let io := iodata (app_dac_write wit_cards (wit_build OVERSAMPLE_OFF false) (wit_used 3) true 4095 65535
    (wit_state (b64_lit (-25) (-1)))) in
  let t' := (iop_dac_write wit_cards (wit_build OVERSAMPLE_OFF false) 0 true None (wit_iop io 0 0)).2 in
  (ip_dacOutEpics t' !!! 0%nat) !!! 3%nat = -3 ∧ swrap 16 ((pci_dac t' !!! 0%nat) !!! 3%nat) = -3.
Proof.
  intros io t'.
  assert (Hw : iop_wf 0 0 10 (wit_iop io 0 0)).
  { apply wit_iop_wf. intros m sl. apply aw_data.
    apply (write_frame (wit_build OVERSAMPLE_OFF false) wit_cards (wit_used 3) true 4095 65535 (wit_state (b64_lit (-25) (-1))) (-1) 0 0);
      [apply wit_state_wf|vm_compute; lia|]. intros jj Hjj _ Hm. simpl in Hjj. assert (jj = 0)%nat as -> by lia. done. }
  pose proof (dac_path wit_cards wit_cards (wit_build OVERSAMPLE_OFF false) (wit_used 3) 4095 65535
    (wit_state (b64_lit (-25) (-1))) 0 3 1 0 0 0 10 (wit_iop io 0 0) (wit_state_wf _) ltac:(vm_compute; lia) ltac:(simpl; lia)
    ltac:(vm_compute; lia) eq_refl ltac:(simpl; lia) wit_distinct ltac:(lia) ltac:(simpl; lia) ltac:(simpl; lia)
    ltac:(vm_compute; lia) ltac:(simpl; lia) wit_distinct eq_refl eq_refl eq_refl Hw eq_refl eq_refl eq_refl
    eq_refl) as [H1 H2].
  cbv zeta in *. split; [etransitivity; [exact H1|]|etransitivity; [exact H2|]]; vm_compute; reflexivity.
Defined.

Definition wit_fifo : Fifo :=
  mkFifo (replicate 12 0) (replicate 12 0) (replicate 12 0) 0 (replicate 12 0).
Definition wit_18 : Cards := mkCards 1 (1 :: replicate 11 0) (GSC_18AO8 :: replicate 11 0) (replicate 12 0) 1.

Lemma fifo_full_detection_witness :
  dacTimingError (check_dac_buffers wit_18 600 0 (λ _, 400) wit_fifo) = 0 ∧
  dacTimingError (check_dac_buffers wit_cards 600 0 (λ _, 8) wit_fifo) = 1.
Proof.
  split.
  - pose proof (fifo_full_detection wit_18 600 (λ _, 400) wit_fifo ltac:(vm_compute; lia)) as (_ & _ & H).
    exact (proj1 (H eq_refl)).
  - pose proof (fifo_full_detection wit_cards 600 (λ _, 8) wit_fifo ltac:(vm_compute; lia)) as (H & _ & _).
    exact (H eq_refl eq_refl).
Defined.

Lemma fifo_watchdog_trip_witness :
  dacTimingError (checks wit_cards 600 6 (λ _, 0) wit_fifo) = 0 ∧
  dacTimingError (checks wit_cards 600 7 (λ _, 0) wit_fifo) = 1.
Proof.
  split; [apply (fifo_watchdog_trip wit_cards 600 (λ _, 0) wit_fifo 6)|apply (fifo_watchdog_trip wit_cards 600 (λ _, 0) wit_fifo 7)];
    try reflexivity; try (vm_compute; lia); intros; done.
Defined.

Lemma recover_reads_other_cards_witness :
  recover_words 2 GSC_16AO16 0 (put2 1 5 42 (replicate MAX_DAC_MODULES (replicate 16 0))) !!! 21%nat = 42.
Proof.
  etransitivity.
  - apply (recover_reads_other_cards GSC_16AO16 0 (put2 1 5 42 (replicate MAX_DAC_MODULES (replicate 16 0))) 21);
      [apply put2_dims, dims_replicate|vm_compute; congruence..|vm_compute; lia|lia].
  - vm_compute. reflexivity.
Defined.
End DacProps.
