(* ===== verification/Adc.v ===== *)
(** * ADC input ([src/include/drv/app_adc_read.c], [iop_adc_functions.c], [adc_info.c])

    Once a cycle the I/O processor waits for each ADC card to finish its DMA, and
    copies the samples of the card to its own variables and to a slot of the
    shared memory, stamped with the second and the cycle.  A control model waits
    for the slot of its next sample to carry the cycle it expects, takes the
    samples, and low pass filters them to its own rate.

    - data: [AdcCards], [AdcInfo], [EpicsOutput], [AppAdc], [IopAdc];
    - [wait_ready]: the polling loop of both ends; [app_adc_read]: the model's end;
    - [iop_adc_init], [iop_adc_read]: the IOP's end;
    - [app_adc_status_update], [adc_status_update]: reports, once a second.

    A poll is an argument: the value of the time stamp counter and what is in
    memory (the shared blocks, or the DMA buffer of a card) when it is read. *)
From S2P Require Import Prelude CFloat Iir FilterModule Dac.
Import Iir.
Import Dac (IO_MEMORY_SLOTS, OVERFLOW_LIMIT_16BIT, OVERFLOW_CNTR_LIMIT, FE_ERROR_OVERFLOW, MEM_DATA_BLOCK, mkBlock, bcycle, bdata,
  IoData, upd_block, set_word, put2, incr2, or_at, clr_at, overflows).

Module Adc.

Definition MAX_ADC_MODULES : nat := 12.
Definition MAX_ADC_CHN_PER_MOD : nat := 32.
Definition GSC_16AI64SSA : Z := 0.
Definition GSC_18AI32SSC1M : Z := 7.
Definition MAX_ADC_WAIT : Z := 1000000.
Definition MAX_ADC_WAIT_CARD_0 : Z := 23.
Definition MAX_ADC_WAIT_CARD_S : Z := 5.
Definition MAX_ADC_WAIT_ERR_SEC : Z := 3.
Definition MAX_ADC_WAIT_CONTROL : Z := 100000.
Definition DUMMY_ADC_VAL : Z := 0xf000000.
Definition ADC_MAPPED : Z := 1.
Definition ADC_CHAN_HOP : Z := 2.
Definition ADC_OVERFLOW : Z := 4.
Definition ADC_CAL_PASS : Z := 8.
Definition ADC_RD_TIME : Z := 16.
Definition GSAI_AUTO_CAL_PASS : Z := 0x4000.
Definition GSAI_DATA_CODE_OFFSET : Z := 0x8000.
Definition GSAI_DATA_MASK : Z := 0xffff.
Definition FE_ERROR_ADC : Z := 0x4.
Definition ODC_ADC_OVF : Z := 0x1.
Definition ADC_TO_ERROR : Z := -7.
Definition ADC_TIMEOUT_ERR : Z := 0x1.

(** The ADC part of [cdsPciModules]. *)
Record AdcCards := mkAdcCards {
  adcCount : nat;
  adcType : list Z;
  adcConfig : list Z;
  adcChannels : list Z
}.

(** [adcInfo_t] and the part of [epicsOutput] about ADCs. *)
Record AdcInfo := mkAdcInfo {
  adcWait : Z;
  chanHop : Z;
  adcRdTime : list Z;
  adcRdTimeMax : list Z;
  adcRdTimeErr : list Z;
  adcChanErr : list Z;
  adcOF : list Z;
  adcData : list (list Z);
  overflowAdc : list (list Z)
}.
Record EpicsOutput := mkEpicsOutput {
  eo_statAdc : list Z;
  eo_overflowAdc : list (list Z);
  eo_overflowAdcAcc : list (list Z);
  eo_stateWord : Z;
  eo_diagWord : Z;
  eo_fe_status : Z;
  eo_startgpstime : Z
}.
Definition set_adcWait (v : Z) (r : AdcInfo) : AdcInfo :=
  mkAdcInfo v (chanHop r) (adcRdTime r) (adcRdTimeMax r) (adcRdTimeErr r) (adcChanErr r) (adcOF r)
    (adcData r) (overflowAdc r).
Definition set_chanHop (v : Z) (r : AdcInfo) : AdcInfo :=
  mkAdcInfo (adcWait r) v (adcRdTime r) (adcRdTimeMax r) (adcRdTimeErr r) (adcChanErr r) (adcOF r)
    (adcData r) (overflowAdc r).
Definition set_adcRdTime (v : list Z) (r : AdcInfo) : AdcInfo :=
  mkAdcInfo (adcWait r) (chanHop r) v (adcRdTimeMax r) (adcRdTimeErr r) (adcChanErr r) (adcOF r)
    (adcData r) (overflowAdc r).
Definition set_adcRdTimeMax (v : list Z) (r : AdcInfo) : AdcInfo :=
  mkAdcInfo (adcWait r) (chanHop r) (adcRdTime r) v (adcRdTimeErr r) (adcChanErr r) (adcOF r)
    (adcData r) (overflowAdc r).
Definition set_adcRdTimeErr (v : list Z) (r : AdcInfo) : AdcInfo :=
  mkAdcInfo (adcWait r) (chanHop r) (adcRdTime r) (adcRdTimeMax r) v (adcChanErr r) (adcOF r)
    (adcData r) (overflowAdc r).
Definition set_adcChanErr (v : list Z) (r : AdcInfo) : AdcInfo :=
  mkAdcInfo (adcWait r) (chanHop r) (adcRdTime r) (adcRdTimeMax r) (adcRdTimeErr r) v (adcOF r)
    (adcData r) (overflowAdc r).
Definition set_adcOF (v : list Z) (r : AdcInfo) : AdcInfo :=
  mkAdcInfo (adcWait r) (chanHop r) (adcRdTime r) (adcRdTimeMax r) (adcRdTimeErr r) (adcChanErr r) v
    (adcData r) (overflowAdc r).
Definition set_adcData (v : list (list Z)) (r : AdcInfo) : AdcInfo :=
  mkAdcInfo (adcWait r) (chanHop r) (adcRdTime r) (adcRdTimeMax r) (adcRdTimeErr r) (adcChanErr r)
    (adcOF r) v (overflowAdc r).
Definition set_overflowAdc (v : list (list Z)) (r : AdcInfo) : AdcInfo :=
  mkAdcInfo (adcWait r) (chanHop r) (adcRdTime r) (adcRdTimeMax r) (adcRdTimeErr r) (adcChanErr r)
    (adcOF r) (adcData r) v.
Definition set_eo_statAdc (v : list Z) (r : EpicsOutput) : EpicsOutput :=
  mkEpicsOutput v (eo_overflowAdc r) (eo_overflowAdcAcc r) (eo_stateWord r) (eo_diagWord r)
    (eo_fe_status r) (eo_startgpstime r).
Definition set_eo_overflowAdc (v : list (list Z)) (r : EpicsOutput) : EpicsOutput :=
  mkEpicsOutput (eo_statAdc r) v (eo_overflowAdcAcc r) (eo_stateWord r) (eo_diagWord r) (eo_fe_status r)
    (eo_startgpstime r).
Definition set_eo_overflowAdcAcc (v : list (list Z)) (r : EpicsOutput) : EpicsOutput :=
  mkEpicsOutput (eo_statAdc r) (eo_overflowAdc r) v (eo_stateWord r) (eo_diagWord r) (eo_fe_status r)
    (eo_startgpstime r).
Definition set_eo_stateWord (v : Z) (r : EpicsOutput) : EpicsOutput :=
  mkEpicsOutput (eo_statAdc r) (eo_overflowAdc r) (eo_overflowAdcAcc r) v (eo_diagWord r)
    (eo_fe_status r) (eo_startgpstime r).
Definition set_eo_diagWord (v : Z) (r : EpicsOutput) : EpicsOutput :=
  mkEpicsOutput (eo_statAdc r) (eo_overflowAdc r) (eo_overflowAdcAcc r) (eo_stateWord r) v
    (eo_fe_status r) (eo_startgpstime r).
Definition set_eo_fe_status (v : Z) (r : EpicsOutput) : EpicsOutput :=
  mkEpicsOutput (eo_statAdc r) (eo_overflowAdc r) (eo_overflowAdcAcc r) (eo_stateWord r) (eo_diagWord r)
    v (eo_startgpstime r).
Definition set_eo_startgpstime (v : Z) (r : EpicsOutput) : EpicsOutput :=
  mkEpicsOutput (eo_statAdc r) (eo_overflowAdc r) (eo_overflowAdcAcc r) (eo_stateWord r) (eo_diagWord r)
    (eo_fe_status r) v.

(** *** Waiting

    [(clk[t] - clk[t0]) / CPURATE]: the counters are truncated to [int], their
    difference is divided as [unsigned int] because [cpu_khz] is one, and the
    quotient is stored in an [int]. *)
Definition elapsed (rate t t0 : Z) : Z := s32 (u32 (s32 t - s32 t0) / rate).

(** [do ... while (not ready && adcWait < limit)] over the polls: the counter and
    the memory of the last poll, [None] while the loop is still running. *)
Fixpoint wait_ready {D} (ready : D → bool) (limit rate t0 : Z) (polls : list (Z * D)) : option (Z * D) :=
  match polls with
  | [] => None
  | (t, d) :: rest =>
      if negb (ready d) && (elapsed rate t t0 <? limit) then wait_ready ready limit rate t0 rest else Some (t, d)
  end.

(** What a read sees of one card: the counter before the loop, then the polls. *)
Record Watch (D : Type) := mkWatch { rdy : Z; polls : list (Z * D) }.
Arguments mkWatch {D}. Arguments rdy {D}. Arguments polls {D}.

(** A call returns, or is still waiting. *)
Inductive Outcome := Waiting | Return (status : Z).

Section defs.
Context {F : Type} `{FloatOps F}.

(** What the model's end changes, and what the IOP's end changes; [pci_adc] is
    the DMA buffer of each card, [cycleStart] is [cpuClk[CPU_TIME_CYCLE_START]],
    [dmaEnabled] logs the cards whose DMA was enabled. *)
Record AppAdc := mkAppAdc {
  adcinfo : AdcInfo;
  epicsOutput : EpicsOutput;
  overflowAcc : Z;
  odcStateWord : Z;
  dWord : list (list F);
  dHistory : list (list F);
  timeSec : Z;
  cycle_gps_time : Z;
  startGpsTime : Z
}.
Record IopAdc := mkIopAdc {
  i_adcinfo : AdcInfo;
  i_epicsOutput : EpicsOutput;
  i_overflowAcc : Z;
  i_odcStateWord : Z;
  i_dWord : list (list (list F));
  i_timeSec : Z;
  iodata : IoData;
  gpsSecond : Z;
  pci_adc : list (list Z);
  cycleStart : Z;
  fe_status_return : Z;
  fe_status_return_subcode : Z;
  stop_working_threads : Z;
  vmeDone : Z;
  dmaEnabled : list nat
}.
Definition set_adcinfo (v : AdcInfo) (r : AppAdc) : AppAdc :=
  mkAppAdc v (epicsOutput r) (overflowAcc r) (odcStateWord r) (dWord r) (dHistory r) (timeSec r)
    (cycle_gps_time r) (startGpsTime r).
Definition set_epicsOutput (v : EpicsOutput) (r : AppAdc) : AppAdc :=
  mkAppAdc (adcinfo r) v (overflowAcc r) (odcStateWord r) (dWord r) (dHistory r) (timeSec r)
    (cycle_gps_time r) (startGpsTime r).
Definition set_overflowAcc (v : Z) (r : AppAdc) : AppAdc :=
  mkAppAdc (adcinfo r) (epicsOutput r) v (odcStateWord r) (dWord r) (dHistory r) (timeSec r)
    (cycle_gps_time r) (startGpsTime r).
Definition set_odcStateWord (v : Z) (r : AppAdc) : AppAdc :=
  mkAppAdc (adcinfo r) (epicsOutput r) (overflowAcc r) v (dWord r) (dHistory r) (timeSec r)
    (cycle_gps_time r) (startGpsTime r).
Definition set_dWord (v : list (list F)) (r : AppAdc) : AppAdc :=
  mkAppAdc (adcinfo r) (epicsOutput r) (overflowAcc r) (odcStateWord r) v (dHistory r) (timeSec r)
    (cycle_gps_time r) (startGpsTime r).
Definition set_dHistory (v : list (list F)) (r : AppAdc) : AppAdc :=
  mkAppAdc (adcinfo r) (epicsOutput r) (overflowAcc r) (odcStateWord r) (dWord r) v (timeSec r)
    (cycle_gps_time r) (startGpsTime r).
Definition set_timeSec (v : Z) (r : AppAdc) : AppAdc :=
  mkAppAdc (adcinfo r) (epicsOutput r) (overflowAcc r) (odcStateWord r) (dWord r) (dHistory r) v
    (cycle_gps_time r) (startGpsTime r).
Definition set_cycle_gps_time (v : Z) (r : AppAdc) : AppAdc :=
  mkAppAdc (adcinfo r) (epicsOutput r) (overflowAcc r) (odcStateWord r) (dWord r) (dHistory r)
    (timeSec r) v (startGpsTime r).
Definition set_startGpsTime (v : Z) (r : AppAdc) : AppAdc :=
  mkAppAdc (adcinfo r) (epicsOutput r) (overflowAcc r) (odcStateWord r) (dWord r) (dHistory r)
    (timeSec r) (cycle_gps_time r) v.
Definition set_i_adcinfo (v : AdcInfo) (r : IopAdc) : IopAdc :=
  mkIopAdc v (i_epicsOutput r) (i_overflowAcc r) (i_odcStateWord r) (i_dWord r) (i_timeSec r) (iodata r)
    (gpsSecond r) (pci_adc r) (cycleStart r) (fe_status_return r) (fe_status_return_subcode r)
    (stop_working_threads r) (vmeDone r) (dmaEnabled r).
Definition set_i_epicsOutput (v : EpicsOutput) (r : IopAdc) : IopAdc :=
  mkIopAdc (i_adcinfo r) v (i_overflowAcc r) (i_odcStateWord r) (i_dWord r) (i_timeSec r) (iodata r)
    (gpsSecond r) (pci_adc r) (cycleStart r) (fe_status_return r) (fe_status_return_subcode r)
    (stop_working_threads r) (vmeDone r) (dmaEnabled r).
Definition set_i_overflowAcc (v : Z) (r : IopAdc) : IopAdc :=
  mkIopAdc (i_adcinfo r) (i_epicsOutput r) v (i_odcStateWord r) (i_dWord r) (i_timeSec r) (iodata r)
    (gpsSecond r) (pci_adc r) (cycleStart r) (fe_status_return r) (fe_status_return_subcode r)
    (stop_working_threads r) (vmeDone r) (dmaEnabled r).
Definition set_i_odcStateWord (v : Z) (r : IopAdc) : IopAdc :=
  mkIopAdc (i_adcinfo r) (i_epicsOutput r) (i_overflowAcc r) v (i_dWord r) (i_timeSec r) (iodata r)
    (gpsSecond r) (pci_adc r) (cycleStart r) (fe_status_return r) (fe_status_return_subcode r)
    (stop_working_threads r) (vmeDone r) (dmaEnabled r).
Definition set_i_dWord (v : list (list (list F))) (r : IopAdc) : IopAdc :=
  mkIopAdc (i_adcinfo r) (i_epicsOutput r) (i_overflowAcc r) (i_odcStateWord r) v (i_timeSec r)
    (iodata r) (gpsSecond r) (pci_adc r) (cycleStart r) (fe_status_return r)
    (fe_status_return_subcode r) (stop_working_threads r) (vmeDone r) (dmaEnabled r).
Definition set_i_timeSec (v : Z) (r : IopAdc) : IopAdc :=
  mkIopAdc (i_adcinfo r) (i_epicsOutput r) (i_overflowAcc r) (i_odcStateWord r) (i_dWord r) v (iodata r)
    (gpsSecond r) (pci_adc r) (cycleStart r) (fe_status_return r) (fe_status_return_subcode r)
    (stop_working_threads r) (vmeDone r) (dmaEnabled r).
Definition set_iodata (v : IoData) (r : IopAdc) : IopAdc :=
  mkIopAdc (i_adcinfo r) (i_epicsOutput r) (i_overflowAcc r) (i_odcStateWord r) (i_dWord r)
    (i_timeSec r) v (gpsSecond r) (pci_adc r) (cycleStart r) (fe_status_return r)
    (fe_status_return_subcode r) (stop_working_threads r) (vmeDone r) (dmaEnabled r).
Definition set_gpsSecond (v : Z) (r : IopAdc) : IopAdc :=
  mkIopAdc (i_adcinfo r) (i_epicsOutput r) (i_overflowAcc r) (i_odcStateWord r) (i_dWord r)
    (i_timeSec r) (iodata r) v (pci_adc r) (cycleStart r) (fe_status_return r)
    (fe_status_return_subcode r) (stop_working_threads r) (vmeDone r) (dmaEnabled r).
Definition set_pci_adc (v : list (list Z)) (r : IopAdc) : IopAdc :=
  mkIopAdc (i_adcinfo r) (i_epicsOutput r) (i_overflowAcc r) (i_odcStateWord r) (i_dWord r)
    (i_timeSec r) (iodata r) (gpsSecond r) v (cycleStart r) (fe_status_return r)
    (fe_status_return_subcode r) (stop_working_threads r) (vmeDone r) (dmaEnabled r).
Definition set_cycleStart (v : Z) (r : IopAdc) : IopAdc :=
  mkIopAdc (i_adcinfo r) (i_epicsOutput r) (i_overflowAcc r) (i_odcStateWord r) (i_dWord r)
    (i_timeSec r) (iodata r) (gpsSecond r) (pci_adc r) v (fe_status_return r)
    (fe_status_return_subcode r) (stop_working_threads r) (vmeDone r) (dmaEnabled r).
Definition set_fe_status_return (v : Z) (r : IopAdc) : IopAdc :=
  mkIopAdc (i_adcinfo r) (i_epicsOutput r) (i_overflowAcc r) (i_odcStateWord r) (i_dWord r)
    (i_timeSec r) (iodata r) (gpsSecond r) (pci_adc r) (cycleStart r) v (fe_status_return_subcode r)
    (stop_working_threads r) (vmeDone r) (dmaEnabled r).
Definition set_fe_status_return_subcode (v : Z) (r : IopAdc) : IopAdc :=
  mkIopAdc (i_adcinfo r) (i_epicsOutput r) (i_overflowAcc r) (i_odcStateWord r) (i_dWord r)
    (i_timeSec r) (iodata r) (gpsSecond r) (pci_adc r) (cycleStart r) (fe_status_return r) v
    (stop_working_threads r) (vmeDone r) (dmaEnabled r).
Definition set_stop_working_threads (v : Z) (r : IopAdc) : IopAdc :=
  mkIopAdc (i_adcinfo r) (i_epicsOutput r) (i_overflowAcc r) (i_odcStateWord r) (i_dWord r)
    (i_timeSec r) (iodata r) (gpsSecond r) (pci_adc r) (cycleStart r) (fe_status_return r)
    (fe_status_return_subcode r) v (vmeDone r) (dmaEnabled r).
Definition set_vmeDone (v : Z) (r : IopAdc) : IopAdc :=
  mkIopAdc (i_adcinfo r) (i_epicsOutput r) (i_overflowAcc r) (i_odcStateWord r) (i_dWord r)
    (i_timeSec r) (iodata r) (gpsSecond r) (pci_adc r) (cycleStart r) (fe_status_return r)
    (fe_status_return_subcode r) (stop_working_threads r) v (dmaEnabled r).
Definition set_dmaEnabled (v : list nat) (r : IopAdc) : IopAdc :=
  mkIopAdc (i_adcinfo r) (i_epicsOutput r) (i_overflowAcc r) (i_odcStateWord r) (i_dWord r)
    (i_timeSec r) (iodata r) (gpsSecond r) (pci_adc r) (cycleStart r) (fe_status_return r)
    (fe_status_return_subcode r) (stop_working_threads r) (vmeDone r) v.

Definition on_info (f : AdcInfo → AdcInfo) (s : AppAdc) : AppAdc := set_adcinfo (f (adcinfo s)) s.
Definition on_out (f : EpicsOutput → EpicsOutput) (s : AppAdc) : AppAdc := set_epicsOutput (f (epicsOutput s)) s.
Definition i_on_info (f : AdcInfo → AdcInfo) (s : IopAdc) : IopAdc := set_i_adcinfo (f (i_adcinfo s)) s.
Definition i_on_out (f : EpicsOutput → EpicsOutput) (s : IopAdc) : IopAdc := set_i_epicsOutput (f (i_epicsOutput s)) s.

(** *** The model's end *)

(** Build options: [FE_OVERSAMPLE_COEFF] is there when [OVERSAMPLE] is defined. *)
Record AppBuild := mkAppBuild {
  ab_FLIP_SIGNALS : bool;
  ab_OVERSAMPLE : option (list F)
}.

Definition card_chans (c : AdcCards) (card : nat) : nat :=
  if adcType c !!! card =? GSC_18AI32SSC1M then 8 else MAX_ADC_CHN_PER_MOD.

(** Lines 46-71: [data] is the block's data. *)
Definition app_adc_channel (bd : AppBuild) (used : list (list Z)) (num_chans : nat) (data : list Z) (card chan : nat)
    (s : AppAdc) : AppAdc :=
  let x := data !!! chan in
  let x := if ab_FLIP_SIGNALS bd then s32 (x * -1) else x in
  let s := on_info (λ i, set_adcData (put2 card chan x (adcData i)) i) s in
  let s := set_dWord (put2 card chan (fofZ x) (dWord s)) s in
  match ab_OVERSAMPLE bd with
  | None => s
  | Some coef =>
      let h := (chan + card * num_chans)%nat in
      let s :=
        if truthy ((used !!! card) !!! chan) then
          let '(y, hist) := iir_filter_biquad ((dWord s !!! card) !!! chan) coef 2 (dHistory s !!! h) in
          set_dHistory (<[h := hist]> (dHistory s)) (set_dWord (put2 card chan y (dWord s)) s)
        else s in
      if overflows OVERFLOW_LIMIT_16BIT x then
        on_info (λ i, set_adcOF (<[card := 1]> (adcOF i)) (set_overflowAdc (incr2 card chan (overflowAdc i)) i))
        (on_out (λ o, set_eo_overflowAdcAcc (incr2 card chan (eo_overflowAdcAcc o)) o)
        (set_overflowAcc (overflowAcc s + 1)
        (set_odcStateWord (Z.lor (odcStateWord s) ODC_ADC_OVF) s)))
      else s
  end.

(** Lines 16-72 for one card; [w] is what the wait loop sees. *)
Definition app_adc_card (c : AdcCards) (bd : AppBuild) (used : list (list Z)) (rate ioMemCtr ioClk : Z)
    (w : nat → Watch IoData) (card : nat) (s : AppAdc) : AppAdc * option Outcome :=
  let mm := adcConfig c !!! card in
  if 0 <=? mm then
    match wait_ready (λ d, bcycle (d mm ioMemCtr) =? ioClk) MAX_ADC_WAIT_CONTROL rate (rdy (w card)) (polls (w card)) with
    | None => (s, Some Waiting)
    | Some (t, d) =>
        let wait := elapsed rate t (rdy (w card)) in
        let s := on_info (set_adcWait wait) s in
        let s := set_timeSec (Dac.timeSec (d mm ioMemCtr)) s in
        let s := if cycle_gps_time s =? 0
                 then on_out (set_eo_startgpstime (s32 (timeSec s))) (set_startGpsTime (s32 (timeSec s)) s) else s in
        let s := set_cycle_gps_time (timeSec s) s in
        if MAX_ADC_WAIT_CONTROL <=? wait then (s, Some (Return 1))
        else (for_n (card_chans c card)
                (app_adc_channel bd used (card_chans c card) (bdata (d mm ioMemCtr)) card) s, None)
    end
  else (s, None).

Definition app_adc_read (c : AdcCards) (bd : AppBuild) (used : list (list Z)) (rate ioMemCtr ioClk : Z)
    (w : nat → Watch IoData) (s : AppAdc) : Outcome * AppAdc :=
  match for_exit 0 (adcCount c) (app_adc_card c bd used rate ioMemCtr ioClk w) s with
  | (s, Some r) => (r, s)
  | (s, None) => (Return 0, s)
  end.

(** *** The IOP's end *)

Definition samples (UNDERSAMPLE : nat) (type : Z) : nat :=
  ((if (type =? GSC_18AI32SSC1M)%Z then 8 else 32) * UNDERSAMPLE)%nat.

(** [GSAF_8_OFFSET], [GSAI_64_OFFSET]: the index of the last word of a DMA. *)
Definition last_word (UNDERSAMPLE : nat) (type : Z) : nat := (samples UNDERSAMPLE type - 1)%nat.

Definition mark_unread (UNDERSAMPLE : nat) (type : Z) (words : list Z) : list Z :=
  <[last_word UNDERSAMPLE type := DUMMY_ADC_VAL]> (<[0%nat := 0]> words).

(** Set-up of the DMA registers is the card drivers'. *)
Definition iop_adc_init_card (c : AdcCards) (UNDERSAMPLE : nat) (jj : nat) (s : IopAdc) : IopAdc :=
  let s := set_pci_adc (alter (mark_unread UNDERSAMPLE (adcType c !!! jj)) jj (pci_adc s)) s in
  let s := i_on_out (λ o, set_eo_statAdc (<[jj := ADC_MAPPED]> (eo_statAdc o)) o) s in
  let s := if truthy (Z.land (adcConfig c !!! jj) GSAI_AUTO_CAL_PASS)
           then i_on_out (λ o, set_eo_statAdc (or_at jj ADC_CAL_PASS (eo_statAdc o)) o) s else s in
  i_on_info (λ i, set_overflowAdc (for_n MAX_ADC_CHN_PER_MOD (λ ii a, put2 jj ii 0 a) (overflowAdc i))
                 (set_adcOF (<[jj := 0]> (adcOF i))
                 (set_adcChanErr (<[jj := 0]> (adcChanErr i))
                 (set_adcRdTimeErr (<[jj := 0]> (adcRdTimeErr i)) i)))) s.

Definition iop_adc_init (c : AdcCards) (UNDERSAMPLE : nat) (s : IopAdc) : IopAdc :=
  i_on_info (λ i, set_chanHop 0 (set_adcWait 0 i)) (for_n (adcCount c) (iop_adc_init_card c UNDERSAMPLE) s).

(** Build and hardware: rates, and whether the GPS receiver is read through [getGpsSecTsync]. *)
Record IopBuild := mkIopBuild {
  UNDERSAMPLE : nat;
  ADC_MEMCPY_RATE : Z;
  IOP_IO_RATE : Z;
  gps_tsync : bool
}.

(** Lines 127-157: the read time of a card and its limits. *)
Definition iop_read_time (bd : IopBuild) (rate clk wait : Z) (card : nat) (s : IopAdc) : IopAdc :=
  let i := i_adcinfo s in
  let t := if (card =? 0)%nat then elapsed rate clk (cycleStart s) else wait in
  let i := set_adcRdTime (<[card := t]> (adcRdTime i)) i in
  let i := if t >? adcRdTimeMax i !!! card then set_adcRdTimeMax (<[card := t]> (adcRdTimeMax i)) i else i in
  let slow := if (card =? 0)%nat then adcRdTimeMax i !!! card >? MAX_ADC_WAIT_CARD_0 * Z.of_nat (UNDERSAMPLE bd)
              else adcRdTimeMax i !!! card >? MAX_ADC_WAIT_CARD_S in
  set_i_adcinfo (if slow then set_adcRdTimeErr (alter (λ n, n + 1) card (adcRdTimeErr i)) i else i) s.

(** Lines 162-174. *)
Definition iop_adc_timeout (card : nat) (s : IopAdc) : IopAdc :=
  let o := i_epicsOutput s in
  let o := set_eo_stateWord FE_ERROR_ADC o in
  let o := set_eo_diagWord (Z.lor (eo_diagWord o) ADC_TIMEOUT_ERR) o in
  let o := set_eo_fe_status ADC_TO_ERROR o in
  let o := set_eo_statAdc (clr_at card ADC_RD_TIME (eo_statAdc o)) o in
  set_vmeDone 1 (set_stop_working_threads 1 (set_fe_status_return_subcode (Z.of_nat card)
    (set_fe_status_return ADC_TO_ERROR (set_i_epicsOutput o s)))).

(** [a[j][i][k] = x] *)
Definition put3 {A} (j i k : nat) (x : A) (a : list (list (list A))) : list (list (list A)) :=
  alter (alter (λ r, <[k := x]> r) i) j a.

(** Lines 224-265: word [word] of the DMA for channel [chan] of round [kk]. *)
Definition iop_adc_channel (bd : IopBuild) (type word slot : Z) (card kk chan : nat) (s : IopAdc) : IopAdc :=
  let x := s32 (Z.land word GSAI_DATA_MASK - GSAI_DATA_CODE_OFFSET) in
  let s := i_on_info (λ i, set_adcData (put2 card chan x (adcData i)) i) s in
  let s := set_i_dWord (put3 card chan kk (fofZ x) (i_dWord s)) s in
  let s := if (type =? GSC_16AI64SSA) && (4 <? UNDERSAMPLE bd)%nat
           then set_i_dWord (for_up 1 (UNDERSAMPLE bd - 1) (λ ii d, put3 card chan ii (fofZ x) d) (i_dWord s)) s else s in
  let s := set_iodata (upd_block (Z.of_nat card) slot (set_word chan x) (iodata s)) s in
  if overflows OVERFLOW_LIMIT_16BIT x then
    i_on_info (λ i, set_adcOF (<[card := 1]> (adcOF i)) (set_overflowAdc (incr2 card chan (overflowAdc i)) i))
    (i_on_out (λ o, set_eo_overflowAdcAcc (incr2 card chan (eo_overflowAdcAcc o)) o)
    (set_i_overflowAcc (i_overflowAcc s + 1)
    (set_i_odcStateWord (Z.lor (i_odcStateWord s) ODC_ADC_OVF) s)))
  else s.

Definition set_stamp (sec cyc : Z) (b : MEM_DATA_BLOCK) : MEM_DATA_BLOCK := mkBlock sec cyc (bdata b).

(** Lines 271-276. *)
Definition stamp (card : nat) (slot cyc : Z) (s : IopAdc) : IopAdc :=
  set_iodata (upd_block (Z.of_nat card) slot (set_stamp (i_timeSec s) cyc) (iodata s)) (set_gpsSecond (s32 (i_timeSec s)) s).

(** Lines 222-281, one round: [words] are the words left in the DMA buffer, the
    slot and the cycle go from round to round. *)
Definition iop_adc_round (bd : IopBuild) (type : Z) (num_outs : nat) (words : list Z) (card kk : nat)
    (st : IopAdc * Z * Z) : IopAdc * Z * Z :=
  let '(s, slot, iocycle) := st in
  let s := for_n num_outs (λ chan s, iop_adc_channel bd type (words !!! (kk * num_outs + chan)%nat) slot card kk chan s) s in
  if (UNDERSAMPLE bd <? 5)%nat
  then (stamp card slot iocycle s, slot + 1, Z.rem (iocycle + 1) (IOP_IO_RATE bd))
  else (s, slot, iocycle).

(** Lines 176-322 of one card whose data [words] has arrived; [clk] and [gps] are
    what [rdtsc_ordered] and [getGpsSecTsync] return. *)
Definition iop_adc_data (c : AdcCards) (bd : IopBuild) (cycleNum clk gps : Z) (words : list Z) (card : nat) (s : IopAdc) : IopAdc :=
  let type := adcType c !!! card in
  let s := if (card =? 0)%nat then
             let s := set_cycleStart (s32 clk) s in
             if (cycleNum =? 0) && gps_tsync bd then set_i_timeSec (u32 gps) s else s
           else s in
  let s := if u32 (words !!! 0%nat) <? 65535
           then set_fe_status_return_subcode (Z.of_nat card)
                  (i_on_info (λ i, set_adcChanErr (<[card := 1]> (adcChanErr i)) (set_chanHop 1 i)) s)
           else s in
  let num_outs := Z.to_nat (adcChannels c !!! card) in
  let loops := if (type =? GSC_16AI64SSA) && (4 <? UNDERSAMPLE bd)%nat then 1%nat else UNDERSAMPLE bd in
  let iocycle := Z.quot cycleNum (ADC_MEMCPY_RATE bd) in
  let '(s, slot, iocycle) :=
    for_n loops (iop_adc_round bd type num_outs words card) (s, Z.rem iocycle IO_MEMORY_SLOTS, iocycle) in
  let s := if (4 <? UNDERSAMPLE bd)%nat then stamp card slot iocycle s else s in
  let s := set_pci_adc (<[card := mark_unread (UNDERSAMPLE bd) type words]> (pci_adc s)) s in
  set_dmaEnabled (dmaEnabled s ++ [card]) s.

(** Lines 126-142: [adcStat] of card 0. *)
Definition delay_status (rdTime adcStat : Z) : Z :=
  let adcStat := if rdTime >? 500 then Z.quot rdTime 14 else adcStat in
  if rdTime <? 10 then -1 else adcStat.

(** One card: the state and [adcStat].  Polls see the DMA buffer of the card. *)
Definition iop_adc_card (c : AdcCards) (bd : IopBuild) (rate cycleNum clk gps : Z) (w : nat → Watch (list Z)) (card : nat)
    (st : IopAdc * Z) : IopAdc * Z * option Outcome :=
  let '(s, adcStat) := st in
  let lastw := last_word (UNDERSAMPLE bd) (adcType c !!! card) in
  match wait_ready (λ d : list Z, negb (d !!! lastw =? DUMMY_ADC_VAL)) MAX_ADC_WAIT rate (rdy (w card)) (polls (w card)) with
  | None => (s, adcStat, Some Waiting)
  | Some (t, words) =>
      let wait := elapsed rate t (rdy (w card)) in
      let s := i_on_info (set_adcWait wait) s in
      let s := iop_read_time bd rate t wait card s in
      let adcStat := if (card =? 0)%nat then delay_status (adcRdTime (i_adcinfo s) !!! 0%nat) adcStat else adcStat in
      (if MAX_ADC_WAIT <=? wait then iop_adc_timeout card s
       else iop_adc_data c bd cycleNum clk gps words card s, adcStat, None)
  end.

Definition iop_adc_read (c : AdcCards) (bd : IopBuild) (rate cycleNum clk gps : Z) (w : nat → Watch (list Z)) (s : IopAdc)
    : Outcome * IopAdc :=
  match for_exit 0 (adcCount c) (iop_adc_card c bd rate cycleNum clk gps w) (s, 0) with
  | (s, _, Some r) => (r, s)
  | (s, adcStat, None) => (Return adcStat, s)
  end.
End defs.

(** *** Reports, once a second *)

(** Set or clear a status bit, and the error bit of the result. *)
Definition report (err : list Z) (bit code : Z) (jj : nat) (st : EpicsOutput * Z) : EpicsOutput * Z :=
  let '(o, status) := st in
  if truthy (err !!! jj) then (set_eo_statAdc (clr_at jj bit (eo_statAdc o)) o, Z.lor status code)
  else (set_eo_statAdc (or_at jj bit (eo_statAdc o)) o, status).

(** Publish and zero the overflow count of a channel, wrap its running count. *)
Definition status_channel (jj ii : nat) (st : AdcInfo * EpicsOutput) : AdcInfo * EpicsOutput :=
  let '(i, o) := st in
  let o := if (eo_overflowAdcAcc o !!! jj) !!! ii >? OVERFLOW_CNTR_LIMIT
           then set_eo_overflowAdcAcc (put2 jj ii 0 (eo_overflowAdcAcc o)) o else o in
  let o := set_eo_overflowAdc (put2 jj ii ((overflowAdc i !!! jj) !!! ii) (eo_overflowAdc o)) o in
  (set_overflowAdc (put2 jj ii 0 (overflowAdc i)) i, o).

Definition app_status_card (c : AdcCards) (jj : nat) (st : AdcInfo * EpicsOutput * Z) : AdcInfo * EpicsOutput * Z :=
  let '(i, o, status) := st in
  let '(o, status) := report (adcChanErr i) ADC_CHAN_HOP FE_ERROR_ADC jj (o, status) in
  let i := set_adcChanErr (<[jj := 0]> (adcChanErr i)) i in
  let '(o, status) := report (adcOF i) ADC_OVERFLOW FE_ERROR_OVERFLOW jj (o, status) in
  let i := set_adcOF (<[jj := 0]> (adcOF i)) i in
  (for_n (card_chans c jj) (status_channel jj) (i, o), status).

Definition app_adc_status_update (c : AdcCards) (i : AdcInfo) (o : EpicsOutput) : AdcInfo * EpicsOutput * Z :=
  for_n (adcCount c) (app_status_card c) (i, o, 0).

Definition iop_status_card (jj : nat) (st : AdcInfo * EpicsOutput * Z) : AdcInfo * EpicsOutput * Z :=
  let '(i, o, status) := st in
  let '(o, status) := report (adcChanErr i) ADC_CHAN_HOP FE_ERROR_ADC jj (o, status) in
  let i := set_adcChanErr (<[jj := 0]> (adcChanErr i)) i in
  let '(o, _) := report (adcRdTimeErr i) ADC_RD_TIME 0 jj (o, status) in
  let o := if adcRdTimeErr i !!! jj >? MAX_ADC_WAIT_ERR_SEC
           then set_eo_stateWord (Z.lor (eo_stateWord o) FE_ERROR_ADC) o else o in
  let i := set_adcRdTimeErr (<[jj := 0]> (adcRdTimeErr i)) i in
  let '(o, status) := report (adcOF i) ADC_OVERFLOW FE_ERROR_OVERFLOW jj (o, status) in
  let i := set_adcOF (<[jj := 0]> (adcOF i)) i in
  (for_n 32 (status_channel jj) (i, o), status).

Definition adc_status_update (c : AdcCards) (i : AdcInfo) (o : EpicsOutput) : AdcInfo * EpicsOutput * Z :=
  for_n (adcCount c) iop_status_card (i, o, 0).
End Adc.
