(* ===== verification/AdcProps.v ===== *)
(** * Properties of ADC input ([Adc.v])

    - waiting: the loop of both ends ends, and when its time limit is void;
    - the model's end: fresh data only, one filter per row of memory, overflow counts,
      and the cards that share a filter history;
    - the IOP's end and the path from the card's words to the model;
    - the supervision of the cards' read times. *)
From S2P Require Import Prelude CFloat Iir FilterModule Dac DacProps Adc.
Import Iir DacProps Adc.
Import Dac (IO_MEMORY_SLOTS, OVERFLOW_LIMIT_16BIT, OVERFLOW_CNTR_LIMIT, FE_ERROR_OVERFLOW, MEM_DATA_BLOCK, mkBlock, bcycle, bdata,
  IoData, upd_block, set_word, put2, incr2, or_at, clr_at, overflows).

Module AdcProps.

Lemma put2_put2 {A} j i (x y : A) a : put2 j i x (put2 j i y a) = put2 j i x a.
Proof.
  unfold put2. rewrite list_alter_alter_eq. apply list_alter_ext; [|done].
  intros r _. simpl. by rewrite list_insert_insert_eq.
Qed.

Lemma incr2_put2 j i (a : list (list Z)) : incr2 j i a = put2 j i ((a !!! j) !!! i + 1) a.
Proof.
  unfold incr2, put2. apply list_alter_ext; [|done]. intros r Hr.
  rewrite (list_lookup_total_correct a j r Hr). clear Hr. revert i. induction r as [|x r IH]; intros [|i]; [done..|].
  simpl. f_equal. apply IH.
Qed.

Lemma incr2_get n m (a : list (list Z)) j i j' i' :
  dims n m a → (j < n)%nat → (i < m)%nat →
  (incr2 j i a !!! j') !!! i' = (a !!! j') !!! i' + (if decide (j' = j ∧ i' = i) then 1 else 0).
Proof.
  intros Hd Hj Hi. rewrite incr2_put2, (put2_get n m) by done.
  destruct (decide (j' = j ∧ i' = i)) as [[-> ->]|]; [done|lia].
Qed.

Lemma incr2_dims n m (a : list (list Z)) j i : dims n m a → dims n m (incr2 j i a).
Proof. intros Hd. rewrite incr2_put2. by apply put2_dims. Qed.

Lemma put2_same {A} `{Inhabited A} j i (a : list (list A)) : put2 j i ((a !!! j) !!! i) a = a.
Proof.
  unfold put2. transitivity (alter id j a); [|by apply list_alter_id]. apply list_alter_ext; [|done]. intros r Hr.
  rewrite (list_lookup_total_correct a j r Hr). simpl. destruct (r !! i) as [x|] eqn:E.
  - rewrite (list_lookup_total_correct r i x E). by apply list_insert_id.
  - apply list_insert_ge. by apply lookup_ge_None.
Qed.

(** ** Waiting *)
Section Waiting.
Context {D : Type} (ready : D → bool) (limit rate t0 : Z).

Lemma wait_ready_Some ps t d :
  wait_ready ready limit rate t0 ps = Some (t, d) → (t, d) ∈ ps ∧ (ready d = true ∨ limit <= elapsed rate t t0).
Proof.
  induction ps as [|[t1 d1] ps IH]; simpl; [done|].
  destruct (ready d1) eqn:Er; simpl.
  - intros [= <- <-]. split; [by left|by left].
  - destruct (Z.ltb_spec (elapsed rate t1 t0) limit) as [Hlt|Hge].
    + intros E. destruct (IH E). split; [by right|done].
    + intros [= <- <-]. split; [by left|by right].
Qed.

Lemma wait_ready_app ps qs :
  wait_ready ready limit rate t0 (ps ++ qs) =
  match wait_ready ready limit rate t0 ps with Some r => Some r | None => wait_ready ready limit rate t0 qs end.
Proof. induction ps as [|[t d] ps IH]; simpl; [done|]. by destruct (negb (ready d) && _). Qed.

Lemma wait_ready_end ps t d :
  limit <= elapsed rate t t0 → (t, d) ∈ ps → wait_ready ready limit rate t0 ps ≠ None.
Proof.
  intros Hl. induction ps as [|[t1 d1] ps IH]; simpl; [by intros ?%not_elem_of_nil|].
  intros [[= <- <-]|Hin]%elem_of_cons.
  - rewrite (proj2 (Z.ltb_ge (elapsed rate t t0) limit)) by done. by rewrite andb_false_r.
  - destruct (negb (ready d1) && _); [by apply IH|done].
Qed.

(** A counter that advances at every poll, by less than [2 ^ 32 - rate * limit]
    ticks, takes a value at which the limit is seen. *)
Lemma clock_meets (t : nat → Z) step n :
  0 <= rate * limit → t0 <= t 0%nat < t0 + step → (∀ n, 0 < t (S n) - t n <= step) →
  (∃ m, rate * limit <= t m - t0 < rate * limit + step) ∨ t n - t0 < rate * limit.
Proof.
  intros Hnn H0 Hs. induction n as [|n [IH|IH]].
  - destruct (Z.lt_ge_cases (t 0%nat - t0) (rate * limit)); [by right|]. left. exists 0%nat. lia.
  - by left.
  - specialize (Hs n). destruct (Z.lt_ge_cases (t (S n) - t0) (rate * limit)); [by right|].
    left. exists (S n). lia.
Qed.

Lemma elapsed_meets t step :
  1 < rate → 0 <= limit → rate * limit + step <= 2 ^ 32 →
  rate * limit <= t - t0 < rate * limit + step → limit <= elapsed rate t t0.
Proof.
  intros Hr Hl Hw Ht. unfold elapsed.
  replace (u32 (s32 t - s32 t0)) with (t - t0).
  - assert (limit <= (t - t0) / rate) by (apply Z.div_le_lower_bound; lia).
    assert ((t - t0) / rate < 2 ^ 31) by (apply Z.div_lt_upper_bound; lia).
    rewrite swrap_small; lia.
  - unfold swrap, wrap. symmetry.
    replace ((t + 2 ^ (32 - 1)) mod 2 ^ 32 - 2 ^ (32 - 1) - ((t0 + 2 ^ (32 - 1)) mod 2 ^ 32 - 2 ^ (32 - 1)))
      with ((t + 2 ^ (32 - 1)) mod 2 ^ 32 - (t0 + 2 ^ (32 - 1)) mod 2 ^ 32) by lia.
    rewrite Zminus_mod_idemp_l, Zminus_mod_idemp_r.
    replace (t + 2 ^ (32 - 1) - (t0 + 2 ^ (32 - 1))) with (t - t0) by lia. apply Z.mod_small. lia.
Qed.

Lemma elapsed_bounded t : 2 ^ 32 <= rate * limit → 0 < rate → 0 <= limit < 2 ^ 31 → elapsed rate t t0 < limit.
Proof.
  intros Hw Hr Hl. unfold elapsed. pose proof (wrap_bounds 32 (s32 t - s32 t0)).
  set (u := u32 (s32 t - s32 t0)) in *. assert (u / rate < limit) by (apply Z.div_lt_upper_bound; lia).
  assert (0 <= u / rate) by (apply Z.div_pos; lia). rewrite swrap_small; lia.
Qed.
End Waiting.

(** C38: Waiting for ADC data ends, and its time limit is real: on a machine whose
    clock runs at [rate] MHz, whatever the memory shows, if the time stamp counter advances at every
    poll, by less than what is left of its 32 bits beyond the limit, then some
    poll is the last, and data that never arrives makes the wait end with the
    limit reached; but from a clock rate on whose limit does not fit in 32 bits of
    ticks (4295 MHz for the IOP's second), data that never arrives is waited for
    forever. *)
Theorem adc_wait_ends {D} (ready : D → bool) (limit rate t0 : Z) (poll : nat → Z * D) :
  1 < rate → 0 <= limit < 2 ^ 31 → 
  (∀ step, rate * limit + step <= 2 ^ 32 → t0 <= (poll 0%nat).1 < t0 + step →
     (∀ n, 0 < (poll (S n)).1 - (poll n).1 <= step) →
     ∃ n t d, wait_ready ready limit rate t0 (map poll (seq 0 n)) = Some (t, d) ∧
       (ready d = true ∨ limit <= elapsed rate t t0)) ∧
  (2 ^ 32 <= rate * limit → (∀ n, ready (poll n).2 = false) →
     ∀ n, wait_ready ready limit rate t0 (map poll (seq 0 n)) = None).
Proof.
  intros Hr Hl. split.
  - intros step Hw H0 Hs. destruct (clock_meets limit rate t0 (λ n, (poll n).1) step (Z.to_nat (rate * limit)) ltac:(lia) H0 Hs) as [[m Hm]|Hlow].
    + destruct (wait_ready ready limit rate t0 (map poll (seq 0 (S m)))) as [[t d]|] eqn:E.
      * exists (S m), t, d. split; [done|]. by apply wait_ready_Some in E as [_ E].
      * exfalso. revert E. apply (wait_ready_end _ _ _ _ _ (poll m).1 (poll m).2); [by apply (elapsed_meets _ _ _ _ step); try lia|].
        apply list_elem_of_fmap. exists m. split; [by destruct (poll m)|]. apply elem_of_seq. lia.
    + exfalso. assert (Hadv : ∀ n, Z.of_nat n <= (poll n).1 - t0) by (induction n as [|n IH]; [lia|specialize (Hs n); lia]).
      specialize (Hadv (Z.to_nat (rate * limit))). lia.
  - intros Hw Hn n. generalize (seq 0 n). intros l. induction l as [|k l IH]; [done|]. simpl. destruct (poll k) as [t d] eqn:E.
    specialize (Hn k). rewrite E in Hn. simpl in Hn. rewrite Hn. simpl.
    rewrite (proj2 (Z.ltb_lt _ _)) by (apply elapsed_bounded; lia). done.
Qed.

(** The IOP's limit at 3000 MHz and at 4295 MHz. *)
Lemma adc_wait_ends_witness :
  let poll (n : nat) := (Z.of_nat n * 500, false) in
  (∃ n t d, wait_ready id MAX_ADC_WAIT 3000 0 (map poll (seq 0 n)) = Some (t, d) ∧
     (d = true ∨ MAX_ADC_WAIT <= elapsed 3000 t 0)) ∧
  (∀ n, wait_ready id MAX_ADC_WAIT 4295 0 (map poll (seq 0 n)) = None).
Proof.
  intros poll. split.
  - apply (adc_wait_ends id MAX_ADC_WAIT 3000 0 poll) with 501; unfold MAX_ADC_WAIT; [lia..| |]; subst poll; simpl; [lia|].
    intros n. lia.
  - apply (adc_wait_ends id MAX_ADC_WAIT 4295 0 poll); unfold MAX_ADC_WAIT; (lia || done).
Defined.

(** ** The model's end *)
Section AppEnd.
Context {F : Type} `{FloatOps F}.
Context (c : AdcCards) (bd : AppBuild (F := F)) (used : list (list Z)).

(** A channel of a model: the last sample as an integer and as the model sees
    it, the memory of its filter, and its two overflow counts. *)
Record Chan := mkChan { c_data : Z; c_word : F; c_hist : list F; c_ovf : Z; c_acc : Z }.

Definition hist_row (jj ii : nat) : nat := (ii + jj * card_chans c jj)%nat.
Definition chan_view (jj ii : nat) (s : AppAdc (F := F)) : Chan :=
  mkChan ((adcData (adcinfo s) !!! jj) !!! ii) ((dWord s !!! jj) !!! ii) (dHistory s !!! hist_row jj ii)
    ((overflowAdc (adcinfo s) !!! jj) !!! ii) ((eo_overflowAdcAcc (epicsOutput s) !!! jj) !!! ii).

(** What one sample [x] makes of a channel. *)
Definition sample_of (x : Z) : Z := if ab_FLIP_SIGNALS bd then s32 (x * -1) else x.
Definition filtered (jj ii : nat) : option (list F) :=
  if truthy ((used !!! jj) !!! ii) then ab_OVERSAMPLE bd else None.
Definition downsample (jj ii : nat) (x : Z) (h : list F) : F * list F :=
  match filtered jj ii with Some coef => iir_filter_biquad (fofZ x) coef 2 h | None => (fofZ x, h) end.
Definition over_count (x : Z) : Z :=
  if ab_OVERSAMPLE bd is Some _ then (if overflows OVERFLOW_LIMIT_16BIT x then 1 else 0) else 0.
Definition chan_take (jj ii : nat) (x : Z) (v : Chan) : Chan :=
  let '(y, h) := downsample jj ii x (c_hist v) in
  mkChan x y h (c_ovf v + over_count x) (c_acc v + over_count x).

Record app_wf (s : AppAdc (F := F)) : Prop := {
  aa_data : dims MAX_ADC_MODULES 32 (adcData (adcinfo s));
  aa_word : dims MAX_ADC_MODULES 32 (dWord s);
  aa_ovf : dims MAX_ADC_MODULES 32 (overflowAdc (adcinfo s));
  aa_acc : dims MAX_ADC_MODULES 32 (eo_overflowAdcAcc (epicsOutput s));
  aa_hist : length (dHistory s) = (MAX_ADC_MODULES * 32)%nat
}.

(** The channels in the order a read takes them. *)
Definition card_channels (jj : nat) : list (nat * nat) :=
  if decide (0 <= adcConfig c !!! jj) then pair jj <$> seq 0 (card_chans c jj) else [].
Definition channels_read : list (nat * nat) := seq 0 (adcCount c) ≫= card_channels.
(** The channels whose filter memory is one row: those that are filtered and have this row number. *)
Definition in_row (row : nat) (ch : nat * nat) : Prop := is_Some (filtered ch.1 ch.2) ∧ hist_row ch.1 ch.2 = row.
#[local] Instance in_row_dec row ch : Decision (in_row row ch) := _.
Definition row_channels (row : nat) : list (nat * nat) := filter (in_row row) channels_read.
(** No other channel keeps its filter memory in the row of this one. *)
Definition own_history (jj0 ii0 : nat) : Prop := ∀ ch, ch ∈ row_channels (hist_row jj0 ii0) → ch = (jj0, ii0).

(** One channel's sample of a read, as the view of channel [(jj0, ii0)] sees it. *)
Definition set_c_hist (h : list F) (v : Chan) : Chan := mkChan (c_data v) (c_word v) h (c_ovf v) (c_acc v).
Definition row_step (row : nat) (h : list F) (e : nat * nat * Z) : list F :=
  if decide (in_row row e.1) then (downsample e.1.1 e.1.2 e.2 h).2 else h.
Definition chan_step (jj0 ii0 : nat) (v : Chan) (e : nat * nat * Z) : Chan :=
  if decide (e.1 = (jj0, ii0)) then chan_take jj0 ii0 e.2 v
  else set_c_hist (row_step (hist_row jj0 ii0) (c_hist v) e) v.

Lemma chans_bound jj : (card_chans c jj <= 32)%nat.
Proof. unfold card_chans, MAX_ADC_CHN_PER_MOD. destruct (_ =? _); lia. Qed.

Lemma hist_row_bound jj ii : (jj < MAX_ADC_MODULES)%nat → (ii < card_chans c jj)%nat → (hist_row jj ii < MAX_ADC_MODULES * 32)%nat.
Proof. unfold hist_row, MAX_ADC_MODULES, card_chans, MAX_ADC_CHN_PER_MOD. destruct (_ =? _); lia. Qed.

(** A channel's step field by field. *)
Lemma adc_channel_split data jj ii (s : AppAdc (F := F)) :
  app_wf s → (jj < MAX_ADC_MODULES)%nat → (ii < 32)%nat →
  let x := sample_of (data !!! ii) in
  let '(y, h) := downsample jj ii x (dHistory s !!! hist_row jj ii) in
  let s' := app_adc_channel bd used (card_chans c jj) data jj ii s in
  adcData (adcinfo s') = put2 jj ii x (adcData (adcinfo s)) ∧
  dWord s' = put2 jj ii y (dWord s) ∧
  dHistory s' = (if filtered jj ii is Some _ then <[hist_row jj ii := h]> (dHistory s) else dHistory s) ∧
  overflowAdc (adcinfo s') = put2 jj ii ((overflowAdc (adcinfo s) !!! jj) !!! ii + over_count x) (overflowAdc (adcinfo s)) ∧
  eo_overflowAdcAcc (epicsOutput s') =
    put2 jj ii ((eo_overflowAdcAcc (epicsOutput s) !!! jj) !!! ii + over_count x) (eo_overflowAdcAcc (epicsOutput s)).
Proof.
  intros [Hd Hw Ho Ha Hh] Hjj Hii. cbv zeta.
  set (x := sample_of (data !!! ii)).
  assert (Hx : ∀ y, (put2 jj ii y (dWord s) !!! jj) !!! ii = y).
  { intros y. rewrite (put2_get MAX_ADC_MODULES 32) by done. by rewrite decide_True. }
  assert (Hid : ∀ a : list (list Z), put2 jj ii ((a !!! jj) !!! ii + 0) a = a).
  { intros a. rewrite Z.add_0_r. apply put2_same. }
  unfold downsample, over_count, app_adc_channel, on_info, on_out. fold (sample_of (data !!! ii)). fold x.
  unfold filtered. fold (hist_row jj ii).
  destruct (ab_OVERSAMPLE bd) as [coef|]; [|by destruct (truthy _); cbn; rewrite ?Hid].
  destruct (truthy ((used !!! jj) !!! ii)).
  - cbn [set_dWord set_adcinfo dWord dHistory]. rewrite Hx.
    destruct (iir_filter_biquad (fofZ x) coef 2 _) as [y h] eqn:Ef.
    destruct (overflows OVERFLOW_LIMIT_16BIT x); cbn -[put2]; rewrite ?put2_put2, ?incr2_put2, ?Hid; done.
  - destruct (overflows OVERFLOW_LIMIT_16BIT x); cbn -[put2]; rewrite ?incr2_put2, ?Hid; done.
Qed.

Lemma adc_channel_wf data jj ii (s : AppAdc (F := F)) :
  app_wf s → (jj < MAX_ADC_MODULES)%nat → (ii < 32)%nat →
  app_wf (app_adc_channel bd used (card_chans c jj) data jj ii s).
Proof.
  intros Hwf Hjj Hii. pose proof (adc_channel_split data jj ii s Hwf Hjj Hii) as Hs. cbv zeta in Hs.
  destruct (downsample _ _ _ _) as [y h]. destruct Hs as (E1 & E2 & E3 & E4 & E5). destruct Hwf as [Hd Hw Ho Ha Hh].
  split; rewrite ?E1, ?E2, ?E4, ?E5; try by apply put2_dims.
  rewrite E3. destruct (filtered jj ii); by rewrite ?length_insert.
Qed.

Lemma adc_channel_view data jj ii jj0 ii0 (s : AppAdc (F := F)) :
  app_wf s → (jj < MAX_ADC_MODULES)%nat → (ii < card_chans c jj)%nat →
  (jj0 < MAX_ADC_MODULES)%nat → (ii0 < card_chans c jj0)%nat →
  chan_view jj0 ii0 (app_adc_channel bd used (card_chans c jj) data jj ii s) =
  chan_step jj0 ii0 (chan_view jj0 ii0 s) (jj, ii, sample_of (data !!! ii)).
Proof.
  intros Hwf Hjj Hii Hjj0 Hii0. pose proof (chans_bound jj). pose proof (chans_bound jj0).
  pose proof (adc_channel_split data jj ii s Hwf Hjj ltac:(lia)) as Hs. cbv zeta in Hs.
  set (s' := app_adc_channel bd used (card_chans c jj) data jj ii s) in *. clearbody s'.
  destruct Hwf as [Hd Hw Ho Ha Hh]. pose proof (hist_row_bound jj ii Hjj Hii). unfold chan_step. cbn [fst snd].
  destruct (decide _) as [[= -> ->]|Hne].
  - unfold chan_take, chan_view. cbn [c_hist c_ovf c_acc].
    destruct (downsample _ _ _ _) as [y h] eqn:Eds. destruct Hs as (-> & -> & -> & -> & ->).
    f_equal; try (rewrite (put2_get MAX_ADC_MODULES 32) by (done || lia); by rewrite decide_True).
    unfold downsample in Eds. destruct (filtered jj0 ii0); [|by injection Eds].
    rewrite lookup_total_insert by lia. by rewrite decide_True.
  - unfold row_step, chan_view, set_c_hist. cbn [fst snd c_data c_word c_hist c_ovf c_acc].
    destruct (downsample _ _ _ _) as [y h] eqn:Eds. destruct Hs as (E1 & E2 & E3 & E4 & E5).
    rewrite E1, E2, E4, E5. f_equal;
      try (rewrite (put2_get MAX_ADC_MODULES 32) by (done || lia); rewrite decide_False by (intros [-> ->]; tauto); done).
    rewrite E3. destruct (decide (in_row _ _)) as [[[coef Ef] E]|Hno]; cbn [fst snd] in *.
    + rewrite Ef, lookup_total_insert by lia. rewrite decide_True by done. rewrite <- E, Eds. done.
    + destruct (filtered jj ii) as [coef|] eqn:Ef; [|done]. rewrite lookup_total_insert by lia.
      rewrite decide_False; [done|]. intros E. apply Hno. split; [by exists coef|done].
Qed.

(** The block a card's wait loop ends with, when it ended in time. *)
Definition arrives (rate ioMemCtr ioClk : Z) (w : Watch IoData) (mm : Z) : option IoData :=
  match wait_ready (λ d : IoData, bcycle (d mm ioMemCtr) =? ioClk) MAX_ADC_WAIT_CONTROL rate (rdy w) (polls w) with
  | Some (t, d) => if MAX_ADC_WAIT_CONTROL <=? elapsed rate t (rdy w) then None else Some d
  | None => None
  end.

Lemma arrives_fresh rate ctr clk w mm d :
  arrives rate ctr clk w mm = Some d → bcycle (d mm ctr) = clk ∧ ∃ t, (t, d) ∈ polls w.
Proof.
  unfold arrives. destruct (wait_ready _ _ _ _ _) as [[t d']|] eqn:E; [|done].
  destruct (Z.leb_spec MAX_ADC_WAIT_CONTROL (elapsed rate t (rdy w))); [done|]. intros [= ->].
  destruct (wait_ready_Some _ _ _ _ _ _ _ E) as [Hin [Hr|Hl]]; [|lia]. split; [by apply Z.eqb_eq|by exists t].
Qed.

(** A card's part, when its data has arrived: the times, then the channels. *)
Definition note_time (t wait sec : Z) (s : AppAdc (F := F)) : AppAdc (F := F) :=
  let s := set_timeSec sec (on_info (set_adcWait wait) s) in
  let s := if cycle_gps_time s =? 0
           then on_out (set_eo_startgpstime (s32 (timeSec s))) (set_startGpsTime (s32 (timeSec s)) s) else s in
  set_cycle_gps_time (timeSec s) s.

Lemma note_time_view t wait sec jj ii s : chan_view jj ii (note_time t wait sec s) = chan_view jj ii s.
Proof. unfold note_time, on_out. by destruct (cycle_gps_time _ =? 0). Qed.
Lemma note_time_wf t wait sec s : app_wf s → app_wf (note_time t wait sec s).
Proof. intros []. unfold note_time, on_out. by destruct (cycle_gps_time _ =? 0); split. Qed.

Lemma adc_card_split rate ctr clk w jj s :
  0 <= adcConfig c !!! jj →
  match arrives rate ctr clk (w jj) (adcConfig c !!! jj) with
  | None => (app_adc_card c bd used rate ctr clk w jj s).2 ≠ None
  | Some d => ∃ t wait, app_adc_card c bd used rate ctr clk w jj s =
      (for_n (card_chans c jj)
         (app_adc_channel bd used (card_chans c jj) (bdata (d (adcConfig c !!! jj) ctr)) jj)
         (note_time t wait (Dac.timeSec (d (adcConfig c !!! jj) ctr)) s), None)
  end.
Proof.
  intros Hmm. unfold arrives, app_adc_card. rewrite (proj2 (Z.leb_le _ _) Hmm).
  destruct (wait_ready _ _ _ _ _) as [[t d]|]; [|done].
  destruct (MAX_ADC_WAIT_CONTROL <=? elapsed rate t (rdy (w jj))); [done|]. by exists t, (elapsed rate t (rdy (w jj))).
Qed.

(** One read: where and for which cycle, and what its wait loops see. *)
Record Call := mkCall { k_ctr : Z; k_clk : Z; k_watch : nat → Watch IoData }.

(** The sample a read takes for channel [ii0] of card [jj0], if its data arrives. *)
Definition taken (rate : Z) (jj0 ii0 : nat) (k : Call) : option Z :=
  (λ d : IoData, sample_of (bdata (d (adcConfig c !!! jj0) (k_ctr k)) !!! ii0)) <$>
    arrives rate (k_ctr k) (k_clk k) (k_watch k jj0) (adcConfig c !!! jj0).

(** The samples of a read, and the channels in their order with them. *)
Definition sample_in (rate : Z) (k : Call) (ch : nat * nat) : Z := default 0 (taken rate ch.1 ch.2 k).
Definition events (x : nat * nat → Z) (chs : list (nat * nat)) : list (nat * nat * Z) := (λ ch, (ch, x ch)) <$> chs.
Definition read_of (rate : Z) (k : Call) (s : AppAdc (F := F)) : Outcome * AppAdc (F := F) :=
  app_adc_read c bd used rate (k_ctr k) (k_clk k) (k_watch k) s.

Lemma events_bind x (f : nat → list (nat * nat)) l : events x (l ≫= f) = l ≫= (λ j, events x (f j)).
Proof. induction l as [|j l IH]; [done|]. rewrite !bind_cons, <- IH. unfold events. apply fmap_app. Qed.
Lemma channels_read_spec jj ii :
  (jj, ii) ∈ channels_read ↔ (jj < adcCount c)%nat ∧ 0 <= adcConfig c !!! jj ∧ (ii < card_chans c jj)%nat.
Proof.
  unfold channels_read. rewrite list_elem_of_bind. unfold card_channels. split.
  - intros (j & Hin & Hj%elem_of_seq). destruct (decide _) as [Hm|]; [|by apply not_elem_of_nil in Hin].
    apply list_elem_of_fmap in Hin as (i & [= -> ->] & Hi%elem_of_seq). lia.
  - intros (Hj & Hm & Hi). exists jj. split; [|apply elem_of_seq; lia]. rewrite decide_True by done.
    apply list_elem_of_fmap. exists ii. split; [done|]. apply elem_of_seq. lia.
Qed.
Lemma channels_read_NoDup : NoDup channels_read.
Proof.
  unfold channels_read. generalize 0%nat as i. induction (adcCount c) as [|n IH]; intros i; cbn [seq]; [apply NoDup_nil; done|].
  rewrite bind_cons. apply NoDup_app. split_and!; [| |apply IH].
  - unfold card_channels. destruct (decide _); [|by apply NoDup_nil]. apply NoDup_fmap_2; [by intros ? ? [= ->]|]. apply NoDup_seq.
  - intros [j ii] Hin Hin'. apply list_elem_of_bind in Hin' as (j' & Hin' & Hj'%elem_of_seq).
    unfold card_channels in Hin, Hin'. do 2 destruct (decide _) in *; try by apply not_elem_of_nil in Hin.
    all: try by apply not_elem_of_nil in Hin'.
    apply list_elem_of_fmap in Hin as (? & [= -> ->] & _). apply list_elem_of_fmap in Hin' as (? & [= -> ->] & _). lia.
Qed.

Lemma adc_card_view rate k jj jj0 ii0 s :
  app_wf s → (adcCount c <= MAX_ADC_MODULES)%nat → (jj < adcCount c)%nat → (jj0, ii0) ∈ channels_read →
  let r := app_adc_card c bd used rate (k_ctr k) (k_clk k) (k_watch k) jj s in
  r.2 = None →
  app_wf r.1 ∧ (∀ ii, (jj, ii) ∈ card_channels jj → is_Some (taken rate jj ii k)) ∧
  chan_view jj0 ii0 r.1 = foldl (chan_step jj0 ii0) (chan_view jj0 ii0 s) (events (sample_in rate k) (card_channels jj)).
Proof.
  intros Hwf Hc Hjj (Hjj0 & Hmm0 & Hii0)%channels_read_spec. cbv zeta. unfold card_channels.
  destruct (decide _) as [Hmm|Hmm].
  2: { unfold app_adc_card. rewrite (proj2 (Z.leb_gt _ _)) by lia. intros _. split_and!; [done| |done].
       by intros ii ?%not_elem_of_nil. }
  pose proof (adc_card_split rate (k_ctr k) (k_clk k) (k_watch k) jj s Hmm) as Hs. intros Hn.
  destruct (arrives rate (k_ctr k) (k_clk k) (k_watch k jj) (adcConfig c !!! jj)) as [d|] eqn:Ea; [|done].
  destruct Hs as (t & wait & ->). cbn [fst]. set (data := bdata _).
  set (s1 := note_time t wait _ s). assert (Hwf1 : app_wf s1) by (by apply note_time_wf).
  rewrite <- (note_time_view t wait (Dac.timeSec (d (adcConfig c !!! jj) (k_ctr k))) jj0 ii0 s). fold s1. clearbody s1.
  destruct (for_up_fold app_wf (chan_view jj0 ii0) (app_adc_channel bd used (card_chans c jj) data jj)
    (chan_step jj0 ii0) (λ ii, (jj, ii, sample_of (data !!! ii))) 0 (card_chans c jj) s1 Hwf1) as [Hp Hv].
  { intros ii s' Hii Hs'. pose proof (chans_bound jj). split; [apply adc_channel_wf; [done|lia..]|].
    apply adc_channel_view; (done || lia). }
  assert (Et : ∀ ii, taken rate jj ii k = Some (sample_of (data !!! ii))) by (intros ii; unfold taken; by rewrite Ea).
  split_and!; [done|intros ii _; by rewrite Et|]. rewrite Hv. f_equal. unfold events. rewrite <- list_fmap_compose.
  apply list_fmap_ext. intros ? ii _. unfold compose, sample_in. cbn [fst snd]. by rewrite Et.
Qed.

Lemma read_done rate ctr clk w s s' :
  app_adc_read c bd used rate ctr clk w s = (Return 0, s') →
  (for_exit 0 (adcCount c) (app_adc_card c bd used rate ctr clk w) s).2 = None ∧
  s' = (for_exit 0 (adcCount c) (app_adc_card c bd used rate ctr clk w) s).1.
Proof.
  unfold app_adc_read.
  destruct (for_exit_both (λ _, True) (λ r, r ≠ Return 0) (app_adc_card c bd used rate ctr clk w) 0 (adcCount c) s) as [_ Hq];
    [done| |].
  - intros k s1 _ _. split; [done|]. intros r. unfold app_adc_card. destruct (0 <=? _); [|done].
    destruct (wait_ready _ _ _ _ _) as [[t d]|]; [|by intros [= <-]]. destruct (_ <=? _); [by intros [= <-]|done].
  - destruct (for_exit _ _ _ _) as [s1 [r|]]; cbn [fst snd] in *; [|by intros [= <-]].
    intros [= E _]. by destruct (Hq r eq_refl).
Qed.

(** A read that returns 0 has taken, for every channel, the sample of a block that carried the awaited cycle. *)
Lemma read_steps rate k jj0 ii0 s s' :
  app_wf s → (adcCount c <= MAX_ADC_MODULES)%nat → (jj0, ii0) ∈ channels_read → read_of rate k s = (Return 0, s') →
  app_wf s' ∧ (∀ ch, ch ∈ channels_read → taken rate ch.1 ch.2 k = Some (sample_in rate k ch)) ∧
  chan_view jj0 ii0 s' = foldl (chan_step jj0 ii0) (chan_view jj0 ii0 s) (events (sample_in rate k) channels_read).
Proof.
  intros Hwf Hc Hin Hr. pose proof (read_done _ _ _ _ _ _ Hr) as [Hn ->].
  destruct (for_exit_fold app_wf (λ jj, ∀ ii, (jj, ii) ∈ card_channels jj → is_Some (taken rate jj ii k)) (chan_view jj0 ii0)
    (app_adc_card c bd used rate (k_ctr k) (k_clk k) (k_watch k)) (chan_step jj0 ii0)
    (λ jj, events (sample_in rate k) (card_channels jj)) 0 (adcCount c) s Hwf) as (H1 & H2 & H3); [|done|].
  - intros jj s1 Hjj Hs1 Hn1. apply adc_card_view; (done || lia).
  - split_and!; [done| |].
    + intros [jj ii] Hch. destruct (H2 jj) with ii as [x Hx].
      * apply channels_read_spec in Hch. lia.
      * apply list_elem_of_bind in Hch as (j & Hj & _). unfold card_channels in Hj |- *.
        destruct (decide (0 <= adcConfig c !!! j)) as [Hm|]; [|by apply not_elem_of_nil in Hj].
        pose proof Hj as Hj2. apply list_elem_of_fmap in Hj2 as (? & [= -> ->] & _). by rewrite decide_True.
      * unfold sample_in. cbn [fst snd]. by rewrite Hx.
    + rewrite H3. unfold channels_read. by rewrite events_bind.
Qed.

(** When the data of every card arrives, the read returns 0. *)
Lemma read_returns rate ctr clk w s :
  (∀ jj, (jj < adcCount c)%nat → 0 <= adcConfig c !!! jj → arrives rate ctr clk (w jj) (adcConfig c !!! jj) ≠ None) →
  (app_adc_read c bd used rate ctr clk w s).1 = Return 0.
Proof.
  intros Ha. unfold app_adc_read.
  destruct (for_exit_inv (λ _ _, True) (app_adc_card c bd used rate ctr clk w) 0 (adcCount c) s) as [Hn _]; [done| |].
  - intros k s1 Hk _. split; [|done]. destruct (Z.lt_ge_cases (adcConfig c !!! k) 0) as [Hneg|Hmm].
    + unfold app_adc_card. by rewrite (proj2 (Z.leb_gt _ _) Hneg).
    + pose proof (adc_card_split rate ctr clk w k s1 Hmm) as Hs. specialize (Ha k ltac:(lia) Hmm).
      destruct (arrives _ _ _ _ _); [|done]. by destruct Hs as (t & wait & ->).
  - destruct (for_exit _ _ _ _) as [s' [r|]]; done.
Qed.

(** *** A run of reads *)

Fixpoint run_reads (rate : Z) (ks : list Call) (s : AppAdc (F := F)) : list (Outcome * AppAdc (F := F)) :=
  match ks with
  | [] => []
  | k :: ks =>
      let '(r, s') := app_adc_read c bd used rate (k_ctr k) (k_clk k) (k_watch k) s in
      (r, s') :: run_reads rate ks s'
  end.

Definition after (rate : Z) (ks : list Call) (s : AppAdc (F := F)) : AppAdc (F := F) :=
  default s (snd <$> last (run_reads rate ks s)).

Lemma after_cons rate k ks s :
  after rate (k :: ks) s = after rate ks (app_adc_read c bd used rate (k_ctr k) (k_clk k) (k_watch k) s).2.
Proof.
  unfold after. cbn [run_reads]. destruct (app_adc_read _ _ _ _ _ _ _ _) as [r s']. cbn [snd].
  destruct ks as [|k' ks]; [done|]. cbn [run_reads]. destruct (app_adc_read _ _ _ _ _ _ _ s') as [r' s''].
  rewrite !last_cons. by destruct (last (run_reads rate ks s'')) as [[]|].
Qed.

(** The words the model is given for the samples [xs] of a channel that is alone in its row. *)
Definition words_of (jj ii : nat) (xs : list Z) (h : list F) : list F :=
  match filtered jj ii with
  | Some coef => (run_filter (λ x, iir_filter_biquad x coef 2) (map fofZ xs) h).1
  | None => map fofZ xs
  end.

(** The words it is given for a channel in general.  All channels of a row pass
    through one filter, in the order in which the reads come to them; the words are what
    comes out for the samples of this channel. *)
Definition row_stream (row : nat) (xs : list (nat * nat → Z)) : list (nat * nat * Z) :=
  xs ≫= λ x, events x (row_channels row).
Definition picked {A} (ch : nat * nat) (l : list (nat * nat * A)) : list A := snd <$> filter (λ p, p.1 = ch) l.
Definition channel_words (jj ii : nat) (xs : list (nat * nat → Z)) (h : list F) : list F :=
  match filtered jj ii with
  | Some coef =>
      let l := row_stream (hist_row jj ii) xs in
      picked (jj, ii) (zip (fst <$> l) (run_filter (λ x, iir_filter_biquad x coef 2) ((λ e, fofZ e.2) <$> l) h).1)
  | None => (λ x, fofZ (x (jj, ii))) <$> xs
  end.

Lemma words_of_cons jj ii x xs h :
  words_of jj ii (x :: xs) h = (downsample jj ii x h).1 :: words_of jj ii xs (downsample jj ii x h).2.
Proof.
  unfold words_of, downsample. destruct (filtered jj ii) as [coef|]; [|done]. cbn [map run_filter].
  destruct (iir_filter_biquad _ _ _ _) as [y h']. cbn [fst snd]. by destruct (run_filter _ _ h').
Qed.

(** How many of the samples are counted as overflows: none in a build without [OVERSAMPLE]. *)
Definition overflow_total (xs : list Z) : Z :=
  if ab_OVERSAMPLE bd is Some _ then Z.of_nat (length (filter (λ x, OVERFLOW_LIMIT_16BIT < Z.abs x) xs)) else 0.

Lemma overflow_total_cons x xs : overflow_total (x :: xs) = over_count x + overflow_total xs.
Proof.
  unfold overflow_total, over_count, overflows. destruct (ab_OVERSAMPLE bd); [|done].
  rewrite filter_cons. destruct (Z.gtb_spec x OVERFLOW_LIMIT_16BIT), (Z.ltb_spec x (- OVERFLOW_LIMIT_16BIT));
    destruct (decide _); unfold OVERFLOW_LIMIT_16BIT in *; simpl; lia.
Qed.

(** *** A read for one channel *)
Definition row_pass (row : nat) (es : list (nat * nat * Z)) (h : list F) : list F := foldl (row_step row) h es.

Lemma set_c_hist_twice h h' v : set_c_hist h (set_c_hist h' v) = set_c_hist h v.
Proof. done. Qed.
Lemma steps_of_others jj ii es v :
  (jj, ii) ∉ fst <$> es →
  foldl (chan_step jj ii) v es = set_c_hist (row_pass (hist_row jj ii) es (c_hist v)) v.
Proof.
  unfold row_pass. revert v. induction es as [|e es IH]; intros v Hn; [by destruct v|].
  rewrite fmap_cons, not_elem_of_cons in Hn. destruct Hn as [Hne Hn]. cbn [foldl]. rewrite IH by done.
  unfold chan_step. rewrite decide_False by congruence. done.
Qed.
(** The channels before this one in a read, and after. *)
Lemma channels_read_split jj ii :
  (jj, ii) ∈ channels_read → ∃ l1 l2, channels_read = l1 ++ (jj, ii) :: l2 ∧ ((jj, ii) ∉ l1) ∧ ((jj, ii) ∉ l2).
Proof.
  intros (l1 & l2 & E)%list_elem_of_split. exists l1, l2. pose proof channels_read_NoDup as Hd. rewrite E in Hd.
  apply NoDup_app in Hd as (_ & H1 & H2). apply NoDup_cons in H2 as [H2 _]. split_and!; [done| |done].
  intros Hin. apply (H1 _ Hin). by left.
Qed.
Lemma fst_events x l : fst <$> events x l = l.
Proof. unfold events. rewrite <- list_fmap_compose. apply list_fmap_id. Qed.
Lemma events_split x l1 ch l2 : events x (l1 ++ ch :: l2) = events x l1 ++ (ch, x ch) :: events x l2.
Proof. unfold events. by rewrite fmap_app, fmap_cons. Qed.
Lemma steps_of_read jj ii x l1 l2 v :
  (jj, ii) ∉ l1 → (jj, ii) ∉ l2 →
  let row := hist_row jj ii in
  let '(y, h) := downsample jj ii (x (jj, ii)) (row_pass row (events x l1) (c_hist v)) in
  foldl (chan_step jj ii) v (events x (l1 ++ (jj, ii) :: l2)) =
  mkChan (x (jj, ii)) y (row_pass row (events x l2) h) (c_ovf v + over_count (x (jj, ii))) (c_acc v + over_count (x (jj, ii))).
Proof.
  intros H1 H2 row. destruct (downsample _ _ _ _) as [y h] eqn:E. rewrite events_split, foldl_app. cbn [foldl].
  rewrite !steps_of_others by (by rewrite fst_events). unfold chan_step. rewrite decide_True by done.
  unfold chan_take. cbn [fst snd set_c_hist c_hist]. fold row. by rewrite E.
Qed.

(** The row's filter runs over the samples of the row's channels. *)
Lemma in_row_coef jj ii row ch coef : filtered jj ii = Some coef → in_row row ch → filtered ch.1 ch.2 = Some coef.
Proof.
  unfold in_row, filtered. intros E [[coef' E'] _]. do 2 destruct (truthy _); try done; congruence.
Qed.
Lemma row_pass_filter jj ii coef row x l h :
  filtered jj ii = Some coef →
  row_pass row (events x l) h =
  (run_filter (λ x, iir_filter_biquad x coef 2) ((λ e, fofZ e.2) <$> events x (filter (in_row row) l)) h).2.
Proof.
  intros Hf. revert h. induction l as [|ch l IH]; intros h; [done|]. cbn [events fmap list_fmap row_pass foldl].
  fold (events x l). fold (row_pass row (events x l) (row_step row h (ch, x ch))). rewrite IH. unfold row_step. cbn [fst snd].
  rewrite filter_cons. destruct (decide (in_row row ch)) as [Hin|]; [|done].
  unfold downsample. rewrite (in_row_coef _ _ _ _ _ Hf Hin). cbn [events fmap list_fmap run_filter snd].
  destruct (iir_filter_biquad _ _ _ _) as [y h']. cbn [snd]. fold (events x (filter (in_row row) l)). by destruct (run_filter _ _ h').
Qed.

Lemma row_channels_split jj ii coef l1 l2 :
  filtered jj ii = Some coef → channels_read = l1 ++ (jj, ii) :: l2 →
  row_channels (hist_row jj ii) = filter (in_row (hist_row jj ii)) l1 ++ (jj, ii) :: filter (in_row (hist_row jj ii)) l2.
Proof.
  intros Hf E. unfold row_channels. rewrite E, filter_app, filter_cons, decide_True; [done|]. split; [by exists coef|done].
Qed.
Lemma picked_others {A} ch (l : list (nat * nat * A)) : ch ∉ fst <$> l → picked ch l = [].
Proof.
  unfold picked. induction l as [|p l IH]; [done|]. rewrite fmap_cons, not_elem_of_cons, filter_cons. intros [Hn Hl].
  rewrite decide_False by congruence. by apply IH.
Qed.
Lemma picked_app {A} ch (l l' : list (nat * nat * A)) : picked ch (l ++ l') = picked ch l ++ picked ch l'.
Proof. unfold picked. by rewrite filter_app, fmap_app. Qed.

Lemma row_stream_cons row x xs : row_stream row (x :: xs) = events x (row_channels row) ++ row_stream row xs.
Proof. done. Qed.

(** A read passes the row's channels before this one, its sample, and those after it. *)
Lemma channel_words_cons jj ii x xs h l1 l2 :
  channels_read = l1 ++ (jj, ii) :: l2 → (jj, ii) ∉ l1 → (jj, ii) ∉ l2 →
  let row := hist_row jj ii in
  let '(y, h') := downsample jj ii (x (jj, ii)) (row_pass row (events x l1) h) in
  channel_words jj ii (x :: xs) h = y :: channel_words jj ii xs (row_pass row (events x l2) h').
Proof.
  intros E H1 H2 row. unfold channel_words, downsample. destruct (filtered jj ii) as [coef|] eqn:Hf; [|done].
  fold row. cbn zeta. rewrite row_stream_cons. generalize (row_stream row xs). intros st.
  set (f := λ x, iir_filter_biquad x coef 2). rewrite !(row_pass_filter _ _ _ _ _ _ _ Hf). fold row f.
  pose proof (row_channels_split _ _ _ _ _ Hf E) as Er. fold row in Er. rewrite Er, events_split. set (e1 := events x (filter (in_row row) l1)).
  set (e2 := events x (filter (in_row row) l2)). rewrite <- app_assoc, <- app_comm_cons. rewrite !fmap_app, !fmap_cons, !fmap_app.
  cbn [fst snd]. set (n1 := (λ e : nat * nat * Z, fofZ e.2) <$> e1). rewrite run_filter_app.
  destruct (run_filter f n1 h) as [ys1 h1] eqn:E1. cbn [fst snd]. fold (f (fofZ (x (jj, ii)))). cbn [run_filter].
  destruct (f (fofZ (x (jj, ii))) h1) as [y h2] eqn:Ey. rewrite run_filter_app.
  set (n2 := (λ e : nat * nat * Z, fofZ e.2) <$> e2).
  destruct (run_filter f n2 h2) as [ys2 h3] eqn:E2.
  assert (Epass : row_pass row (events x l2) h2 = h3) by (rewrite (row_pass_filter _ _ _ _ _ _ _ Hf); fold f e2; subst n2; by rewrite E2).
  rewrite Epass. destruct (run_filter f _ h3) as [ys3 h4]. cbn [fst].
  pose proof (run_filter_length f n1 h) as L1. rewrite E1 in L1. cbn [fst] in L1. subst n1. rewrite length_fmap in L1.
  pose proof (run_filter_length f n2 h2) as L2. rewrite E2 in L2. cbn [fst] in L2. subst n2. rewrite length_fmap in L2.
  rewrite zip_with_app by (by rewrite length_fmap). cbn [zip_with]. rewrite zip_with_app by (by rewrite length_fmap).
  assert (Hno : ∀ l ys, (jj, ii) ∉ l → picked (jj, ii) (zip (fst <$> events x (filter (in_row row) l)) (ys : list F)) = []).
  { intros l ys Hl. apply picked_others. rewrite fst_events. intros (p & Ep & Hp)%list_elem_of_fmap.
    destruct p as [ch y']. apply elem_of_zip_l in Hp. cbn in Ep. subst ch. apply list_elem_of_filter in Hp as [_ Hp]. done. }
  rewrite picked_app, (Hno l1) by done. cbn [app]. unfold picked at 1. rewrite filter_cons, decide_True by done. rewrite fmap_cons.
  fold (picked (jj, ii) (zip (fst <$> e2) ys2 ++ zip (fst <$> st) ys3)). rewrite picked_app, (Hno l2) by done. done.
Qed.

(** What a read that returns 0 makes of a channel. *)
Lemma read_view rate k jj ii s s' xs :
  app_wf s → (adcCount c <= MAX_ADC_MODULES)%nat → (jj, ii) ∈ channels_read → read_of rate k s = (Return 0, s') →
  let x := sample_in rate k in let v := chan_view jj ii s' in
  app_wf s' ∧ (∀ ch, ch ∈ channels_read → taken rate ch.1 ch.2 k = Some (x ch)) ∧
  c_data v = x (jj, ii) ∧ c_ovf v = c_ovf (chan_view jj ii s) + over_count (x (jj, ii)) ∧
  channel_words jj ii (x :: xs) (c_hist (chan_view jj ii s)) = c_word v :: channel_words jj ii xs (c_hist v).
Proof.
  intros Hwf Hc Hin Hr. destruct (read_steps _ _ _ _ _ _ Hwf Hc Hin Hr) as (H1 & H2 & H3). cbv zeta.
  destruct (channels_read_split jj ii Hin) as (l1 & l2 & E & Hn1 & Hn2). rewrite E in H3.
  pose proof (steps_of_read jj ii (sample_in rate k) l1 l2 (chan_view jj ii s) Hn1 Hn2) as Hs. cbv zeta in Hs.
  pose proof (channel_words_cons jj ii (sample_in rate k) xs (c_hist (chan_view jj ii s)) l1 l2 E Hn1 Hn2) as Hw. cbv zeta in Hw.
  destruct (downsample _ _ _ _) as [y h]. rewrite H3, Hs. cbn [c_data c_word c_hist c_ovf]. done.
Qed.

(** *** A run of reads *)
Definition run_samples (rate : Z) (ks : list Call) : list (nat * nat → Z) := map (sample_in rate) ks.
Definition of_channel (jj ii : nat) (xs : list (nat * nat → Z)) : list Z := map (λ x, x (jj, ii)) xs.

Lemma run_view rate jj ii ks s :
  app_wf s → (adcCount c <= MAX_ADC_MODULES)%nat → (jj, ii) ∈ channels_read →
  (∀ rs, rs ∈ run_reads rate ks s → rs.1 = Return 0) →
  let xs := run_samples rate ks in
  (∀ k ch, k ∈ ks → ch ∈ channels_read → taken rate ch.1 ch.2 k = Some (sample_in rate k ch)) ∧
  map (λ rs, c_data (chan_view jj ii rs.2)) (run_reads rate ks s) = of_channel jj ii xs ∧
  map (λ rs, c_word (chan_view jj ii rs.2)) (run_reads rate ks s) = channel_words jj ii xs (c_hist (chan_view jj ii s)) ∧
  c_ovf (chan_view jj ii (after rate ks s)) = c_ovf (chan_view jj ii s) + overflow_total (of_channel jj ii xs).
Proof.
  intros Hwf Hc Hin. revert s Hwf. induction ks as [|k ks IH]; intros s Hwf Hok.
  { split; [by intros k ch ?%not_elem_of_nil|]. unfold channel_words, overflow_total, after.
    destruct (filtered jj ii); destruct (ab_OVERSAMPLE bd); cbn; repeat split; simpl; lia. }
  cbv zeta. rewrite after_cons. cbn [run_reads run_samples map] in *.
  destruct (app_adc_read c bd used rate (k_ctr k) (k_clk k) (k_watch k) s) as [r s1] eqn:Er. cbn [snd].
  assert (r = Return 0) as -> by (apply (Hok (r, s1)); by left).
  destruct (read_view rate k jj ii s s1 (run_samples rate ks) Hwf Hc Hin Er) as (Hwf1 & Ht & Hd & Ho & Hw).
  destruct (IH s1 Hwf1) as (Hts & Hds & Hws & Hos); [intros; apply Hok; by right|].
  split_and!.
  - intros k' ch [->|Hk']%elem_of_cons Hch; [by apply Ht|by apply Hts].
  - cbn [map of_channel snd]. by rewrite Hds, Hd.
  - etransitivity; [|symmetry; exact Hw]. cbn [map snd]. by rewrite Hws.
  - change (of_channel _ _ _) with (sample_in rate k (jj, ii) :: of_channel jj ii (run_samples rate ks)).
    rewrite overflow_total_cons, Hos, Ho. lia.
Qed.

(** A channel alone in its row passes through a filter of its own. *)
Lemma own_history_words jj ii xs h :
  (jj, ii) ∈ channels_read → own_history jj ii → channel_words jj ii xs h = words_of jj ii (of_channel jj ii xs) h.
Proof.
  intros Hin Hown. unfold channel_words, words_of. destruct (filtered jj ii) as [coef|] eqn:Hf; [|unfold of_channel; by rewrite map_map].
  assert (Er : row_channels (hist_row jj ii) = [(jj, ii)]).
  { assert (Hd : NoDup (row_channels (hist_row jj ii))) by (apply NoDup_filter, channels_read_NoDup).
    assert (Hi : (jj, ii) ∈ row_channels (hist_row jj ii)).
    { apply list_elem_of_filter. split; [split; [by exists coef|done]|done]. }
    revert Hown Hd Hi. unfold own_history. destruct (row_channels _) as [|a [|b l]]; intros Hown Hd Hi.
    - by apply not_elem_of_nil in Hi.
    - f_equal. apply Hown. by left.
    - apply NoDup_cons in Hd as [Hn _]. exfalso. apply Hn. rewrite (Hown a), (Hown b); [by left|right; by left|by left]. }
  set (st := row_stream (hist_row jj ii) xs).
  assert (Es : st = (λ x, (jj, ii, x (jj, ii))) <$> xs).
  { unfold st. clear -Er. induction xs as [|x xs IH]; [done|]. rewrite row_stream_cons, IH, Er. done. }
  cbn zeta. fold st. rewrite Es, <- !list_fmap_compose. set (f := λ x, iir_filter_biquad x coef 2).
  assert (En : ((λ e : nat * nat * Z, fofZ e.2) ∘ (λ x : nat * nat → Z, (jj, ii, x (jj, ii)))) <$> xs = map fofZ (of_channel jj ii xs)).
  { unfold of_channel. rewrite map_map. done. }
  rewrite En. clear En. generalize (run_filter_length f (map fofZ (of_channel jj ii xs)) h).
  generalize (run_filter f (map fofZ (of_channel jj ii xs)) h).1. intros ys. unfold of_channel. rewrite !length_map. clear.
  revert ys. induction xs as [|x xs IH]; intros [|y ys] Hl; try done. unfold picked. cbn [fmap list_fmap zip_with].
  rewrite filter_cons, decide_True by done. rewrite fmap_cons. f_equal. apply IH. by injection Hl.
Qed.

(** When all cards have the same number of channels, filter memories are separate. *)
Lemma own_history_same jj0 ii0 :
  (ii0 < card_chans c jj0)%nat → (∀ jj, (jj < adcCount c)%nat → 0 <= adcConfig c !!! jj → card_chans c jj = card_chans c jj0) →
  own_history jj0 ii0.
Proof.
  intros Hii0 Hsame [jj ii] [[_ E] (Hjj & Hmm & Hii)%channels_read_spec]%list_elem_of_filter. cbn [fst snd] in E.
  rewrite (Hsame jj Hjj Hmm) in Hii. unfold hist_row in E. rewrite (Hsame jj Hjj Hmm) in E.
  set (n := card_chans c jj0) in *.
  assert (jj = jj0).
  { rewrite (Nat.div_unique (ii + jj * n) n jj ii), (Nat.div_unique (ii0 + jj0 * n) n jj0 ii0) by lia. by rewrite E. }
  subst jj. f_equal. lia.
Qed.

(** A sample a read may take for a channel: that of a block its wait loop saw, with
    the cycle the read waits for. *)
Definition fresh_sample (k : Call) (ch : nat * nat) (x : Z) : Prop :=
  ∃ t d, (t, d) ∈ polls (k_watch k ch.1) ∧ bcycle (d (adcConfig c !!! ch.1) (k_ctr k)) = k_clk k ∧
    x = sample_of (bdata (d (adcConfig c !!! ch.1) (k_ctr k)) !!! ch.2).
Lemma taken_fresh rate k ch x : taken rate ch.1 ch.2 k = Some x → fresh_sample k ch x.
Proof. unfold taken. intros (d & Ha & ->)%fmap_Some. apply arrives_fresh in Ha as [Hcy [t Hin]]. by exists t, d. Qed.
End AppEnd.

(** What a control model is given for an ADC channel, over any run of reads
    that all return 0: every sample comes from a block seen to carry the cycle the read
    waited for (nothing stale, nothing of another card); the words are the
    outputs of one filter for the samples of this channel (or the samples themselves,
    for a channel not declared as used or a build without [OVERSAMPLE]); and the
    overflow count grows by the number of samples out of range.  The filter is that of
    the channel's row of memory, which the samples of the other channels of the row
    pass through as well; with [own_history] there are none. *)
Theorem adc_channel_stream {F} `{FloatOps F} (c : AdcCards) (bd : AppBuild (F := F)) used rate jj ii ks s :
  app_wf s → (adcCount c <= MAX_ADC_MODULES)%nat → (jj, ii) ∈ channels_read c →
  (∀ rs, rs ∈ run_reads c bd used rate ks s → rs.1 = Return 0) →
  ∃ xs,
    Forall2 (λ k x, ∀ ch, ch ∈ channels_read c → fresh_sample c bd k ch (x ch)) ks xs ∧
    map (λ rs, (adcData (adcinfo rs.2) !!! jj) !!! ii) (run_reads c bd used rate ks s) = of_channel jj ii xs ∧
    map (λ rs, (dWord rs.2 !!! jj) !!! ii) (run_reads c bd used rate ks s) =
      channel_words c bd used jj ii xs (dHistory s !!! hist_row c jj ii) ∧
    (own_history c bd used jj ii → map (λ rs, (dWord rs.2 !!! jj) !!! ii) (run_reads c bd used rate ks s) =
      words_of bd used jj ii (of_channel jj ii xs) (dHistory s !!! hist_row c jj ii)) ∧
    (overflowAdc (adcinfo (after c bd used rate ks s)) !!! jj) !!! ii =
      (overflowAdc (adcinfo s) !!! jj) !!! ii + overflow_total bd (of_channel jj ii xs).
Proof.
  intros Hwf Hc Hin Hok.
  destruct (run_view c bd used rate jj ii ks s Hwf Hc Hin Hok) as (Ht & Hd & Hw & Ho).
  exists (run_samples c bd rate ks). split; [|split; [exact Hd|split; [exact Hw|split; [|exact Ho]]]].
  - apply Forall2_fmap_r, Forall_Forall2_diag, Forall_forall. intros k Hk ch Hch. by apply (taken_fresh _ _ rate), Ht.
  - intros Hown. unfold chan_view in Hw. cbn [c_word c_hist] in Hw. by rewrite Hw, (own_history_words c bd used).
Qed.

(** *** Cards of different sizes

    A memory row is [chan + card * num_chans] with the size of the card at hand,
    so that the rows of an 8 channel card overlap those of 32 channel cards before it. *)
Section Shared.
Context {F : Type} `{FloatOps F} (c : AdcCards) (bd : AppBuild (F := F)) (coef : list F) (used : list (list Z)).
Context (Hn : adcCount c = 5%nat) (Hslow : ∀ j, (j < 4)%nat → card_chans c j = 32%nat) (Hfast : card_chans c 4 = 8%nat).
Context (Hu1 : filtered bd used 1 0 = Some coef) (Hu4 : filtered bd used 4 0 = Some coef).

Definition view32 (s : AppAdc (F := F)) : F * F * list F :=
  ((dWord s !!! 1%nat) !!! 0%nat, (dWord s !!! 4%nat) !!! 0%nat, dHistory s !!! 32%nat).

Definition touch32 (jj : nat) (x : Z) (v : F * F * list F) : F * F * list F :=
  let '(y1, y4, h) := v in
  if decide (jj = 1%nat) then let '(y, h) := iir_filter_biquad (fofZ (sample_of bd x)) coef 2 h in (y, y4, h)
  else if decide (jj = 4%nat) then let '(y, h) := iir_filter_biquad (fofZ (sample_of bd x)) coef 2 h in (y1, y, h)
  else v.

Lemma adc_channel_view32 data jj ii s :
  app_wf s → (jj < 5)%nat → (ii < card_chans c jj)%nat →
  view32 (app_adc_channel bd used (card_chans c jj) data jj ii s) =
  if decide (ii = 0%nat) then touch32 jj (data !!! 0%nat) (view32 s) else view32 s.
Proof.
  intros Hwf Hjj Hii. pose proof (chans_bound c jj).
  pose proof (adc_channel_split c bd used data jj ii s Hwf ltac:(unfold MAX_ADC_MODULES; lia) ltac:(lia)) as Hs. cbv zeta in Hs.
  pose proof (hist_row_bound c jj ii ltac:(unfold MAX_ADC_MODULES; lia) Hii) as Hrow.
  assert (Hr : hist_row c jj ii = 32%nat ↔ ii = 0%nat ∧ (jj = 1%nat ∨ jj = 4%nat)).
  { unfold hist_row. destruct (decide (jj = 4%nat)) as [->|]; [rewrite Hfast in *; lia|].
    rewrite Hslow in * by lia. lia. }
  assert (Hf : ii = 0%nat → jj = 1%nat ∨ jj = 4%nat → filtered bd used jj ii = Some coef) by (intros -> [-> | ->]; done).
  set (s' := app_adc_channel _ _ _ _ _ _ _) in *. clearbody s'. destruct Hwf as [Hd Hw Ho Ha Hh]. unfold view32.
  destruct (downsample _ _ _ _ _ _) as [y h] eqn:Eds. destruct Hs as (_ & -> & -> & _ & _).
  rewrite !(put2_get MAX_ADC_MODULES 32) by (done || unfold MAX_ADC_MODULES; lia). unfold downsample in Eds.
  destruct (decide (ii = 0%nat)) as [->|Hne].
  - unfold touch32. destruct (decide (jj = 1%nat)) as [->|H1]; [|destruct (decide (jj = 4%nat)) as [->|H4]].
    1,2: rewrite Hf in * by auto; rewrite lookup_total_insert by lia; rewrite (proj2 Hr) in * by auto; rewrite Eds; done.
    rewrite !decide_False by lia. destruct (filtered bd used jj 0); [|done].
    rewrite lookup_total_insert by lia. rewrite decide_False; [done|]. intros E. symmetry in E. apply Hr in E. lia.
  - rewrite !decide_False by lia. destruct (filtered bd used jj ii); [|done].
    rewrite lookup_total_insert by lia. rewrite decide_False; [done|]. intros E. symmetry in E. apply Hr in E. lia.
Qed.

Lemma card_view32 rate ctr clk w jj s :
  app_wf s → (jj < 5)%nat →
  let r := app_adc_card c bd used rate ctr clk w jj s in
  r.2 = None → 0 <= adcConfig c !!! jj →
  app_wf r.1 ∧ ∃ d, arrives rate ctr clk (w jj) (adcConfig c !!! jj) = Some d ∧
    view32 r.1 = touch32 jj (bdata (d (adcConfig c !!! jj) ctr) !!! 0%nat) (view32 s).
Proof.
  intros Hwf Hjj. cbv zeta. intros Hnone Hmm. pose proof (adc_card_split c bd used rate ctr clk w jj s Hmm) as Hs.
  destruct (arrives rate ctr clk (w jj) (adcConfig c !!! jj)) as [d|]; [|done].
  destruct Hs as (t & wait & ->). cbn [fst]. set (s1 := note_time _ _ _ s). assert (Hwf1 : app_wf s1) by (by apply note_time_wf).
  assert (E : view32 s1 = view32 s) by (subst s1; unfold note_time, on_out; by destruct (cycle_gps_time _ =? 0)).
  rewrite <- E. clearbody s1. set (data := bdata _). pose proof (chans_bound c jj).
  assert (0 < card_chans c jj)%nat by (destruct (decide (jj = 4%nat)) as [->|]; [lia|rewrite Hslow; lia]).
  destruct (for_up_view_single app_wf view32 (app_adc_channel bd used (card_chans c jj) data jj)
    (touch32 jj (data !!! 0%nat)) 0 (card_chans c jj) s1) as [Hp Hv]; [done|done| |split; [done|by exists d]].
  intros k s' Hk Hs'. split; [apply adc_channel_wf; unfold MAX_ADC_MODULES; (done || lia)|]. by rewrite adc_channel_view32.
Qed.

(** A card that neither row 32 belongs to, read or not. *)
Lemma card_view32_other rate ctr clk w jj s :
  app_wf s → (jj < 5)%nat → jj ≠ 1%nat → jj ≠ 4%nat →
  let r := app_adc_card c bd used rate ctr clk w jj s in
  r.2 = None → app_wf r.1 ∧ view32 r.1 = view32 s.
Proof.
  intros Hwf Hjj H1 H4. cbv zeta. intros Hnone. destruct (Z.lt_ge_cases (adcConfig c !!! jj) 0) as [Hneg|Hmm].
  - unfold app_adc_card in *. by rewrite (proj2 (Z.leb_gt _ _) Hneg).
  - destruct (card_view32 rate ctr clk w jj s Hwf Hjj Hnone Hmm) as (Hp & d & _ & ->). split; [done|].
    unfold touch32. destruct (view32 s) as [[? ?] ?]. by rewrite !decide_False by done.
Qed.

Lemma read_view32 rate ctr clk w s s' :
  app_wf s → 0 <= adcConfig c !!! 1%nat → 0 <= adcConfig c !!! 4%nat →
  app_adc_read c bd used rate ctr clk w s = (Return 0, s') →
  ∃ d1 d4, arrives rate ctr clk (w 1%nat) (adcConfig c !!! 1%nat) = Some d1 ∧
    arrives rate ctr clk (w 4%nat) (adcConfig c !!! 4%nat) = Some d4 ∧
    view32 s' = touch32 4 (bdata (d4 (adcConfig c !!! 4%nat) ctr) !!! 0%nat)
                  (touch32 1 (bdata (d1 (adcConfig c !!! 1%nat) ctr) !!! 0%nat) (view32 s)).
Proof.
  intros Hwf Hm1 Hm4 Hr. pose proof (read_done _ _ _ _ _ _ _ _ _ Hr) as [Hnone ->]. rewrite Hn in *.
  set (step1 v := ∃ d1, arrives rate ctr clk (w 1%nat) (adcConfig c !!! 1%nat) = Some d1 ∧
    v = touch32 1 (bdata (d1 (adcConfig c !!! 1%nat) ctr) !!! 0%nat) (view32 s)).
  destruct (for_exit_done (λ k s', app_wf s' ∧
      if (k <=? 1)%nat then view32 s' = view32 s else if (k <=? 4)%nat then step1 (view32 s') else
      ∃ v d4, step1 v ∧ arrives rate ctr clk (w 4%nat) (adcConfig c !!! 4%nat) = Some d4 ∧
        view32 s' = touch32 4 (bdata (d4 (adcConfig c !!! 4%nat) ctr) !!! 0%nat) v)
    (app_adc_card c bd used rate ctr clk w) 0 5 s) as [_ Hv]; [done| |done|].
  - intros k s1 Hk [Hs1 Hv] Hk1. destruct (decide (k = 1%nat)) as [->|H1]; [|destruct (decide (k = 4%nat)) as [->|H4]].
    + destruct (card_view32 rate ctr clk w 1 s1 Hs1 ltac:(lia) Hk1 Hm1) as (Hp & d & Ha & Hd). split; [done|].
      exists d. simpl in Hv. by rewrite Hd, Hv.
    + destruct (card_view32 rate ctr clk w 4 s1 Hs1 ltac:(lia) Hk1 Hm4) as (Hp & d & Ha & Hd). split; [done|]. by exists (view32 s1), d.
    + destruct (card_view32_other rate ctr clk w k s1 Hs1 ltac:(lia) H1 H4 Hk1) as [Hp Hd]. split; [done|]. rewrite Hd.
      destruct k as [|[|[|[|[|k]]]]]; (done || lia).
  - destruct Hv as (v & d4 & (d1 & Ha1 & ->) & Ha4 & ->). by exists d1, d4.
Qed.
End Shared.

(** With a fast 8 channel card in fifth place after 32 channel cards, channel
    0 of the fast card and channel 0 of the second card filter their samples
    through one and the same memory: in each read the fast channel's word is
    computed from the state the other channel's sample has just left, and its own state
    is what the other channel will find in the next read. *)
Theorem adc_history_shared {F} `{FloatOps F} (c : AdcCards) (bd : AppBuild (F := F)) coef used rate ctr clk w s s' :
  app_wf s → adcCount c = 5%nat → (∀ j, (j < 4)%nat → card_chans c j = 32%nat) → adcType c !!! 4%nat = GSC_18AI32SSC1M →
  filtered bd used 1 0 = Some coef → filtered bd used 4 0 = Some coef →
  0 <= adcConfig c !!! 1%nat → 0 <= adcConfig c !!! 4%nat →
  app_adc_read c bd used rate ctr clk w s = (Return 0, s') →
  ∃ d1 d4,
    let x1 := sample_of bd (bdata (d1 (adcConfig c !!! 1%nat) ctr) !!! 0%nat) in
    let x4 := sample_of bd (bdata (d4 (adcConfig c !!! 4%nat) ctr) !!! 0%nat) in
    let '(y1, h1) := iir_filter_biquad (fofZ x1) coef 2 (dHistory s !!! 32%nat) in
    let '(y4, h4) := iir_filter_biquad (fofZ x4) coef 2 h1 in
    (∃ t, (t, d1) ∈ polls (w 1%nat)) ∧ (∃ t, (t, d4) ∈ polls (w 4%nat)) ∧
    (dWord s' !!! 1%nat) !!! 0%nat = y1 ∧ (dWord s' !!! 4%nat) !!! 0%nat = y4 ∧ dHistory s' !!! 32%nat = h4.
Proof.
  intros Hwf Hn Hslow Hty Hu1 Hu4 Hm1 Hm4 Hr.
  assert (Hfast : card_chans c 4 = 8%nat) by (unfold card_chans; by rewrite Hty).
  destruct (read_view32 c bd coef used Hn Hslow Hfast Hu1 Hu4 rate ctr clk w s s' Hwf Hm1 Hm4 Hr) as (d1 & d4 & Ha1 & Ha4 & Hv).
  exists d1, d4. cbv zeta. unfold view32, touch32 in Hv. cbn [decide decide_rel Nat.eq_dec nat_rec nat_rect sumbool_rec sumbool_rect] in Hv.
  destruct (iir_filter_biquad (fofZ (sample_of bd (bdata (d1 _ _) !!! 0%nat))) coef 2 _) as [y1 h1].
  rewrite decide_True in Hv by done. rewrite (decide_False (P := 4%nat = 1%nat)), (decide_True (P := 4%nat = 4%nat)) in Hv by lia.
  destruct (iir_filter_biquad _ coef 2 h1) as [y4 h4]. injection Hv as -> -> ->.
  split_and!; [by apply arrives_fresh in Ha1 as [_ ?]|by apply arrives_fresh in Ha4 as [_ ?]|done..].
Qed.

(** ** The IOP's end *)
Definition dims3 {A} (n m l : nat) (a : list (list (list A))) : Prop :=
  length a = n ∧ ∀ i, (i < n)%nat → dims m l (a !!! i).

Lemma put3_row {A} j i k (x : A) a : put3 j i k x a = alter (put2 i k x) j a.
Proof. done. Qed.

Lemma put3_get {A} `{Inhabited A} n m l (a : list (list (list A))) j i k j' i' k' x :
  dims3 n m l a → (j < n)%nat → (i < m)%nat → (k < l)%nat →
  ((put3 j i k x a !!! j') !!! i') !!! k' =
  if decide (j' = j ∧ i' = i ∧ k' = k) then x else ((a !!! j') !!! i') !!! k'.
Proof.
  intros [Hl Hr] Hj Hi Hk. rewrite put3_row. destruct (decide (j' = j)) as [->|Hne].
  - rewrite lookup_total_alter_eq by lia. rewrite (put2_get m l) by (by try apply Hr).
    destruct (decide (i' = i ∧ k' = k)), (decide (j = j ∧ i' = i ∧ k' = k)); done || tauto.
  - rewrite lookup_total_alter_ne by done. by rewrite decide_False by tauto.
Qed.

Lemma put3_dims {A} n m l (a : list (list (list A))) j i k x : dims3 n m l a → dims3 n m l (put3 j i k x a).
Proof.
  intros [Hl Hr]. rewrite put3_row. split; [by rewrite length_alter|]. intros j' Hj'.
  destruct (decide (j' = j)) as [->|Hne].
  - rewrite lookup_total_alter_eq by lia. by apply put2_dims, Hr.
  - rewrite lookup_total_alter_ne by done. by apply Hr.
Qed.

Section IopEnd.
Context {F : Type} `{FloatOps F}.
Context (c : AdcCards) (bd : IopBuild).
Context (Hu : (UNDERSAMPLE bd < 5)%nat).

Record iop_wf (s : IopAdc (F := F)) : Prop := {
  ia_word : dims3 MAX_ADC_MODULES 32 16 (i_dWord s);
  ia_data : ∀ m sl, (32 <= length (bdata (iodata s m sl)))%nat
}.

(** What is seen of a channel: the IOP's own value of round [kk], and the word
    and the cycle of its block in slot [sl]. *)
Definition iop_view (card chan kk : nat) (sl : Z) (s : IopAdc (F := F)) : F * Z * Z :=
  (((i_dWord s !!! card) !!! chan) !!! kk, bdata (iodata s (Z.of_nat card) sl) !!! chan, bcycle (iodata s (Z.of_nat card) sl)).

(** The sample in a word of the card. *)
Definition code (word : Z) : Z := Z.land word GSAI_DATA_MASK - GSAI_DATA_CODE_OFFSET.

Lemma code_bounds word : - 2 ^ 15 <= code word < 2 ^ 15.
Proof.
  unfold code, GSAI_DATA_MASK, GSAI_DATA_CODE_OFFSET. change 0xffff with (Z.ones 16). rewrite Z.land_ones by lia.
  pose proof (Z.mod_pos_bound word (2 ^ 16) ltac:(lia)). lia.
Qed.

Lemma adc_iop_channel_split type word slot card kk chan (s : IopAdc (F := F)) :
  let s' := iop_adc_channel bd type word slot card kk chan s in
  i_dWord s' = put3 card chan kk (fofZ (code word)) (i_dWord s) ∧
  iodata s' = upd_block (Z.of_nat card) slot (set_word chan (code word)) (iodata s).
Proof.
  cbv zeta. pose proof (code_bounds word). unfold iop_adc_channel. fold (code word).
  rewrite (swrap_small 32 (code word)) by lia. rewrite (proj2 (Nat.ltb_ge 4 (UNDERSAMPLE bd))) by lia. rewrite andb_false_r.
  by destruct (overflows _ _).
Qed.

Lemma adc_iop_channel_wf type word slot card kk chan s :
  iop_wf s → iop_wf (iop_adc_channel bd type word slot card kk chan s).
Proof.
  intros [Hw Hd]. destruct (adc_iop_channel_split type word slot card kk chan s) as [E1 E2]. split.
  - rewrite E1. by apply put3_dims.
  - intros m sl. rewrite E2. unfold upd_block. destruct (_ && _); [|done]. simpl. by rewrite length_insert.
Qed.

Lemma adc_iop_channel_view type word slot card kk chan card0 chan0 kk0 sl0 s :
  iop_wf s → (card < MAX_ADC_MODULES)%nat → (chan < 32)%nat → (kk < 16)%nat →
  iop_view card0 chan0 kk0 sl0 (iop_adc_channel bd type word slot card kk chan s) =
  let v := iop_view card0 chan0 kk0 sl0 s in
  if decide (card = card0 ∧ chan = chan0) then
    (if decide (kk = kk0) then fofZ (code word) else v.1.1, if decide (slot = sl0) then code word else v.1.2, v.2)
  else v.
Proof.
  intros [Hw Hd] Hc Hch Hk. destruct (adc_iop_channel_split type word slot card kk chan s) as [E1 E2]. unfold iop_view.
  rewrite E1, E2. rewrite (put3_get MAX_ADC_MODULES 32 16) by done. unfold upd_block. cbn [fst snd].
  specialize (Hd (Z.of_nat card0) sl0).
  destruct (decide (card = card0 ∧ chan = chan0)) as [[-> ->]|Hne].
  - rewrite Z.eqb_refl. destruct (decide (slot = sl0)) as [->|Hsl].
    + rewrite Z.eqb_refl. cbn [andb set_word bdata bcycle]. rewrite lookup_total_insert by lia.
      rewrite (decide_True (P := chan0 = chan0)) by done.
      destruct (decide (kk = kk0)) as [->|]; [by rewrite decide_True|by rewrite decide_False by (intros (_ & _ & ?); congruence)].
    + rewrite (proj2 (Z.eqb_neq _ _) Hsl), andb_false_r.
      destruct (decide (kk = kk0)) as [->|]; [by rewrite decide_True|by rewrite decide_False by (intros (_ & _ & ?); congruence)].
  - rewrite decide_False by (intros (-> & -> & _); tauto).
    destruct ((Z.of_nat card =? Z.of_nat card0) && (slot =? sl0)) eqn:E; [|done].
    apply andb_true_iff in E as [?%Z.eqb_eq ->%Z.eqb_eq]. assert (card = card0) as -> by lia.
    cbn [set_word bdata bcycle]. rewrite list_lookup_total_insert_ne; [done|]. intros ->. tauto.
Qed.

(** One round of a card. *)
Lemma round_view type num words card kk card0 chan0 kk0 sl0 s slot cyc :
  iop_wf s → (card < MAX_ADC_MODULES)%nat → (num <= 32)%nat → (kk < 16)%nat → (kk0 < 16)%nat →
  (card = card0 → (chan0 < num)%nat) → (card = card0 → (kk = kk0 ↔ slot = sl0)) →
  let '(s', slot', cyc') := iop_adc_round bd type num words card kk (s, slot, cyc) in
  iop_wf s' ∧ slot' = slot + 1 ∧ cyc' = Z.rem (cyc + 1) (IOP_IO_RATE bd) ∧
  iop_view card0 chan0 kk0 sl0 s' =
  if decide (card = card0 ∧ kk = kk0) then
    (fofZ (code (words !!! (kk * num + chan0)%nat)), code (words !!! (kk * num + chan0)%nat), cyc)
  else iop_view card0 chan0 kk0 sl0 s.
Proof.
  intros Hwf Hc Hnum Hk Hk0 Hch Hsl. unfold iop_adc_round. rewrite (proj2 (Nat.ltb_lt (UNDERSAMPLE bd) 5)) by lia.
  set (word := code (words !!! (kk * num + chan0)%nat)).
  set (f := λ chan s, iop_adc_channel bd type (words !!! (kk * num + chan)%nat) slot card kk chan s).
  assert (Hloop : iop_wf (for_n num f s) ∧ iop_view card0 chan0 kk0 sl0 (for_n num f s) =
    let v := iop_view card0 chan0 kk0 sl0 s in
    if decide (card = card0) then
      (if decide (kk = kk0) then fofZ word else v.1.1, if decide (slot = sl0) then word else v.1.2, v.2) else v).
  { destruct (decide (card = card0)) as [->|Hne].
    - apply (for_up_view_single iop_wf (iop_view card0 chan0 kk0 sl0) f
        (λ v, (if decide (kk = kk0) then fofZ word else v.1.1, if decide (slot = sl0) then word else v.1.2, v.2)) chan0);
        [by apply Hch|done|].
      intros k s' Hk' Hs'. split; [by apply adc_iop_channel_wf|]. unfold f. rewrite adc_iop_channel_view by (done || lia). cbv zeta.
      destruct (decide (k = chan0)) as [->|]; [by rewrite decide_True|by rewrite decide_False by tauto].
    - destruct (for_up_view iop_wf (iop_view card0 chan0 kk0 sl0) f (λ _ v, v) 0 num s) as [Hp Hv]; [done| |].
      + intros k s' Hk' Hs'. split; [by apply adc_iop_channel_wf|]. unfold f. rewrite adc_iop_channel_view by (done || lia). cbv zeta.
        by rewrite decide_False by tauto.
      + by rewrite Hv, for_up_id. }
  destruct Hloop as [[Hw Hd] Hv]. set (s1 := for_n num f s) in *. clearbody s1.
  split_and!; [|done|done|].
  - split; [done|]. intros m sl. cbn [stamp set_iodata iodata]. unfold upd_block. destruct (_ && _); [|done]. apply Hd.
  - unfold stamp, iop_view in *. cbn [i_dWord set_iodata iodata set_gpsSecond i_timeSec] in *. unfold upd_block.
    destruct (decide (card = card0)) as [->|Hne].
    + rewrite Z.eqb_refl. specialize (Hsl eq_refl). destruct (decide (kk = kk0)) as [->|Hkk].
      * assert (slot = sl0) as -> by tauto. rewrite Z.eqb_refl. cbn [andb set_stamp bdata bcycle].
        rewrite decide_True in Hv by done. injection Hv as -> -> _. by rewrite decide_True.
      * assert (slot ≠ sl0) as Hne by tauto. rewrite (proj2 (Z.eqb_neq _ _) Hne). cbn [andb].
        rewrite decide_False in Hv by done. rewrite Hv, decide_False by tauto. done.
    + rewrite (decide_False (P := card = card0 ∧ kk = kk0)) by tauto.
      rewrite (proj2 (Z.eqb_neq (Z.of_nat card) (Z.of_nat card0))) by lia. done.
Qed.

(** The cycle stamped in round [kk]: the first is not reduced modulo [IOP_IO_RATE]. *)
Definition round_cycle (cycleNum : Z) (kk : nat) : Z :=
  let cyc := Z.quot cycleNum (ADC_MEMCPY_RATE bd) in
  if (kk =? 0)%nat then cyc else Z.rem (cyc + Z.of_nat kk) (IOP_IO_RATE bd).
Definition round_slot (cycleNum : Z) (kk : nat) : Z :=
  Z.rem (Z.quot cycleNum (ADC_MEMCPY_RATE bd)) IO_MEMORY_SLOTS + Z.of_nat kk.

Lemma rounds_view type num words card cycleNum card0 chan0 kk0 s n :
  iop_wf s → (card < MAX_ADC_MODULES)%nat → (num <= 32)%nat → (kk0 < 16)%nat → (n <= UNDERSAMPLE bd)%nat →
  (card = card0 → (chan0 < num)%nat) → 0 <= cycleNum → 0 < ADC_MEMCPY_RATE bd → 0 < IOP_IO_RATE bd →
  let word := words !!! (kk0 * num + chan0)%nat in
  let '(s', slot, cyc) := for_n n (iop_adc_round bd type num words card)
    (s, Z.rem (Z.quot cycleNum (ADC_MEMCPY_RATE bd)) IO_MEMORY_SLOTS, Z.quot cycleNum (ADC_MEMCPY_RATE bd)) in
  iop_wf s' ∧ slot = round_slot cycleNum n ∧ cyc = round_cycle cycleNum n ∧
  iop_view card0 chan0 kk0 (round_slot cycleNum kk0) s' =
  if decide (card = card0 ∧ (kk0 < n)%nat) then (fofZ (code word), code word, round_cycle cycleNum kk0)
  else iop_view card0 chan0 kk0 (round_slot cycleNum kk0) s.
Proof.
  intros Hwf Hc Hnum Hk0 Hn Hch Hcn Hr Hio. cbv zeta. induction n as [|n IH].
  - simpl. split_and!; [done|unfold round_slot; lia|done|]. by rewrite decide_False by lia.
  - rewrite for_up_S. specialize (IH ltac:(lia)). destruct (for_up _ n _ _) as [[s1 slot] cyc].
    destruct IH as (Hwf1 & -> & -> & Hv). rewrite Nat.add_0_l.
    pose proof (round_view type num words card n card0 chan0 kk0 (round_slot cycleNum kk0) s1 (round_slot cycleNum n)
      (round_cycle cycleNum n) Hwf1 Hc Hnum ltac:(lia) Hk0 Hch ltac:(unfold round_slot; lia)) as Hs.
    destruct (iop_adc_round _ _ _ _ _ _ _) as [[s2 slot2] cyc2]. destruct Hs as (Hwf2 & -> & -> & Hv2).
    split_and!; [done|unfold round_slot; lia| |].
    + unfold round_cycle. set (q := Z.quot cycleNum (ADC_MEMCPY_RATE bd)).
      assert (0 <= q) by (apply Z.quot_pos; lia). destruct n as [|n]; [done|]. cbn [Nat.eqb].
      rewrite Z.add_rem_idemp_l by lia. f_equal. lia.
    + rewrite Hv2, Hv. destruct (decide (card = card0 ∧ n = kk0)) as [[-> ->]|Hne].
      * by rewrite decide_True by lia.
      * destruct (decide (card = card0 ∧ (kk0 < n)%nat)); [by rewrite decide_True by lia|by rewrite decide_False by lia].
Qed.

Context (Hr : 0 < ADC_MEMCPY_RATE bd) (Hio : 0 < IOP_IO_RATE bd).
Context (Hchans : ∀ card, (card < adcCount c)%nat → 0 <= adcChannels c !!! card <= 32) (Hcount : (adcCount c <= MAX_ADC_MODULES)%nat).

Definition chans_of (card : nat) : nat := Z.to_nat (adcChannels c !!! card).
Definition word_at (card chan kk : nat) (words : list Z) : Z := words !!! (kk * chans_of card + chan)%nat.

Lemma same_view card0 chan0 kk0 sl0 (s s' : IopAdc (F := F)) :
  i_dWord s' = i_dWord s → iodata s' = iodata s →
  (iop_wf s → iop_wf s') ∧ iop_view card0 chan0 kk0 sl0 s' = iop_view card0 chan0 kk0 sl0 s.
Proof. intros E1 E2. unfold iop_view. rewrite E1, E2. split; [|done]. intros []. by split; rewrite ?E1, ?E2. Qed.

Lemma data_view cycleNum clk gps words card card0 chan0 kk0 s :
  iop_wf s → (card < adcCount c)%nat → (kk0 < UNDERSAMPLE bd)%nat → (chan0 < chans_of card0)%nat → 0 <= cycleNum →
  let s' := iop_adc_data c bd cycleNum clk gps words card s in
  iop_wf s' ∧
  iop_view card0 chan0 kk0 (round_slot cycleNum kk0) s' =
  if decide (card = card0) then
    (fofZ (code (word_at card0 chan0 kk0 words)), code (word_at card0 chan0 kk0 words), round_cycle cycleNum kk0)
  else iop_view card0 chan0 kk0 (round_slot cycleNum kk0) s.
Proof.
  intros Hwf Hc Hk Hch Hcn. cbv zeta. unfold iop_adc_data. set (s1 := if (card =? 0)%nat then _ else s).
  set (s2 := if u32 _ <? 65535 then _ else s1).
  assert (E : i_dWord s2 = i_dWord s ∧ iodata s2 = iodata s).
  { subst s2 s1. destruct (u32 _ <? 65535), (card =? 0)%nat; try done; destruct (_ && gps_tsync bd); done. }
  destruct E as [E1 E2]. destruct (same_view card0 chan0 kk0 (round_slot cycleNum kk0) s s2 E1 E2) as [Hwf2 Hv2].
  specialize (Hwf2 Hwf). rewrite <- Hv2. clearbody s2. clear E1 E2 Hv2 s1.
  rewrite (proj2 (Nat.ltb_ge 4 (UNDERSAMPLE bd))) by lia. rewrite andb_false_r. specialize (Hchans card Hc).
  change (Z.to_nat (adcChannels c !!! card)) with (chans_of card).
  pose proof (rounds_view (adcType c !!! card) (chans_of card) words card cycleNum card0 chan0 kk0 s2 (UNDERSAMPLE bd)
    Hwf2 ltac:(lia) ltac:(unfold chans_of; lia) ltac:(lia) ltac:(lia) ltac:(by intros ->) Hcn Hr Hio) as Hv. cbv zeta in Hv.
  destruct (for_up _ _ _ _) as [[s3 slot] cyc]. destruct Hv as (Hwf3 & _ & _ & Hv).
  destruct (same_view card0 chan0 kk0 (round_slot cycleNum kk0) s3
    (set_dmaEnabled (dmaEnabled s3 ++ [card]) (set_pci_adc (<[card := mark_unread (UNDERSAMPLE bd) (adcType c !!! card) words]> (pci_adc s3)) s3))
    eq_refl eq_refl) as [H1 H2]. split; [by apply H1|]. etransitivity; [exact H2|]. rewrite Hv. unfold word_at.
  destruct (decide (card = card0)) as [->|]; [by rewrite decide_True|by rewrite decide_False by tauto].
Qed.

(** The DMA buffer a card's wait loop ends with, when it ended in time. *)
Definition delivers (rate : Z) (w : Watch (list Z)) (card : nat) : option (list Z) :=
  match wait_ready (λ d : list Z, negb (d !!! last_word (UNDERSAMPLE bd) (adcType c !!! card) =? DUMMY_ADC_VAL))
          MAX_ADC_WAIT rate (rdy w) (polls w) with
  | Some (t, words) => if MAX_ADC_WAIT <=? elapsed rate t (rdy w) then None else Some words
  | None => None
  end.

Lemma read_time_same rate clk wait card (s : IopAdc (F := F)) :
  i_dWord (iop_read_time bd rate clk wait card s) = i_dWord s ∧ iodata (iop_read_time bd rate clk wait card s) = iodata s.
Proof. done. Qed.

Lemma adc_iop_card_view rate cycleNum clk gps w card card0 chan0 kk0 st words :
  iop_wf st.1 → (card < adcCount c)%nat → (kk0 < UNDERSAMPLE bd)%nat → (chan0 < chans_of card0)%nat → 0 <= cycleNum →
  delivers rate (w card0) card0 = Some words →
  let r := iop_adc_card c bd rate cycleNum clk gps w card st in
  let view st := iop_view card0 chan0 kk0 (round_slot cycleNum kk0) (fst st) in
  r.2 = None →
  iop_wf r.1.1 ∧
  if decide (card = card0) then
    view r.1 = (fofZ (code (word_at card0 chan0 kk0 words)), code (word_at card0 chan0 kk0 words), round_cycle cycleNum kk0)
  else view r.1 = view st.
Proof.
  intros Hwf Hc Hk Hch Hcn Hd. cbv zeta. destruct st as [s adcStat]. cbn [fst] in *. unfold iop_adc_card.
  unfold delivers in Hd. destruct (wait_ready _ _ _ (rdy (w card)) _) as [[t ws]|] eqn:E; [|done]. intros _. cbn [fst snd].
  set (s1 := iop_read_time _ _ _ _ _ _).
  destruct (same_view card0 chan0 kk0 (round_slot cycleNum kk0) s s1) as [Hwf1 Hv1]; [done..|]. specialize (Hwf1 Hwf).
  rewrite <- Hv1. clearbody s1. destruct (MAX_ADC_WAIT <=? elapsed rate t (rdy (w card))) eqn:El.
  - destruct (same_view card0 chan0 kk0 (round_slot cycleNum kk0) s1 (iop_adc_timeout card s1)) as [H1 H2]; [done..|].
    split; [by apply H1|]. destruct (decide (card = card0)) as [->|]; [|done]. by rewrite E, El in Hd.
  - destruct (data_view cycleNum clk gps ws card card0 chan0 kk0 s1 Hwf1 Hc Hk Hch Hcn) as [H1 H2]. split; [done|]. rewrite H2.
    destruct (decide (card = card0)) as [->|]; [|done]. rewrite E, El in Hd. by injection Hd as ->.
Qed.

Lemma iop_read_view rate cycleNum clk gps w s s' st card chan kk words :
  iop_wf s → (card < adcCount c)%nat → (kk < UNDERSAMPLE bd)%nat → (chan < chans_of card)%nat → 0 <= cycleNum →
  delivers rate (w card) card = Some words →
  iop_adc_read c bd rate cycleNum clk gps w s = (Return st, s') →
  iop_wf s' ∧ iop_view card chan kk (round_slot cycleNum kk) s' =
    (fofZ (code (word_at card chan kk words)), code (word_at card chan kk words), round_cycle cycleNum kk).
Proof.
  intros Hwf Hc Hk Hch Hcn Hd. unfold iop_adc_read.
  destruct (for_exit_both (λ _, True) (λ r, r = Waiting) (iop_adc_card c bd rate cycleNum clk gps w) 0 (adcCount c) (s, 0)) as [_ Hq];
    [done| |].
  { intros k [s1 a] _ _. split; [done|]. intros r. unfold iop_adc_card.
    destruct (wait_ready _ _ _ _ _) as [[t ws]|]; [done|]. by intros [= <-]. }
  pose proof (for_exit_view_single (λ st, iop_wf (fst st))
    (λ _ v, v = (fofZ (code (word_at card chan kk words)), code (word_at card chan kk words), round_cycle cycleNum kk))
    (λ st, iop_view card chan kk (round_slot cycleNum kk) (fst st)) (iop_adc_card c bd rate cycleNum clk gps w) card (adcCount c) (s, 0)
    Hc Hwf) as Hv.
  destruct (for_exit _ _ _ _) as [[s1 a] [r|]] eqn:Ef; cbn [fst snd] in *.
  - intros [= E _]. specialize (Hq r eq_refl). congruence.
  - intros [= _ <-]. apply Hv; [|done]. intros k st1 Hk1 Hst1 Hn1. by apply adc_iop_card_view.
Qed.
End IopEnd.

(** C5: The input path end to end.  The word a card delivers for a channel and a round
    becomes, through the IOP's read and the block it publishes, the sample the
    IOP's own model computes with, and, when a control model comes to the slot and the cycle
    of that round and sees the block within its time limit, the sample that model
    takes: the 16 bits of the word less their offset.  The value the model computes with is
    the output for this sample of the filter of the channel's row of memory, through
    which the samples [x'] of the other channels of the row pass in the same read; for a
    channel alone in its row ([own_history]: always so when the model's cards
    have the same number of channels, [own_history_same]) it is the output of the
    channel's own filter for this sample.  [adc_history_shared] is a case in which
    channels of two cards share a row.  The read succeeds, whatever happens to the other
    cards of the IOP, if the blocks of the model's other cards arrive as well. *)
Theorem adc_path {F} `{FloatOps F} (ci ca : AdcCards) (ib : IopBuild) (ab : AppBuild (F := F)) used rate
    cycleNum clk gps (iw : nat → Watch (list Z)) (s s' : IopAdc (F := F)) st (card chan kk : nat) words
    (aw : nat → Watch IoData) (a : AppAdc (F := F)) (jj : nat) t d rest :
  (UNDERSAMPLE ib < 5)%nat → 0 < ADC_MEMCPY_RATE ib → 0 < IOP_IO_RATE ib →
  (∀ k, (k < adcCount ci)%nat → 0 <= adcChannels ci !!! k <= 32) → (adcCount ci <= MAX_ADC_MODULES)%nat →
  iop_wf s → (card < adcCount ci)%nat → (kk < UNDERSAMPLE ib)%nat → (chan < chans_of ci card)%nat → 0 <= cycleNum →
  delivers ci ib rate (iw card) card = Some words →
  iop_adc_read ci ib rate cycleNum clk gps iw s = (Return st, s') →
  app_wf a → (adcCount ca <= MAX_ADC_MODULES)%nat → (jj < adcCount ca)%nat → adcConfig ca !!! jj = Z.of_nat card →
  (chan < card_chans ca jj)%nat →
  let slot := round_slot ib cycleNum kk in
  let cyc := round_cycle ib cycleNum kk in
  polls (aw jj) = (t, d) :: rest → d (Z.of_nat card) slot = iodata s' (Z.of_nat card) slot →
  elapsed rate t (rdy (aw jj)) < MAX_ADC_WAIT_CONTROL →
  (∀ j, (j < adcCount ca)%nat → j ≠ jj → 0 <= adcConfig ca !!! j →
     arrives rate slot cyc (aw j) (adcConfig ca !!! j) ≠ None) →
  let x := Z.land (words !!! (kk * chans_of ci card + chan)%nat) 0xffff - 0x8000 in
  ((i_dWord s' !!! card) !!! chan) !!! kk = fofZ x ∧
  ∃ a' x', app_adc_read ca ab used rate slot cyc aw a = (Return 0, a') ∧
    (∀ ch, ch ∈ channels_read ca → fresh_sample ca ab (mkCall slot cyc aw) ch (x' ch)) ∧ x' (jj, chan) = sample_of ab x ∧
    (adcData (adcinfo a') !!! jj) !!! chan = sample_of ab x ∧
    [(dWord a' !!! jj) !!! chan] = channel_words ca ab used jj chan [x'] (dHistory a !!! hist_row ca jj chan) ∧
    (own_history ca ab used jj chan →
     (dWord a' !!! jj) !!! chan = (downsample ab used jj chan (sample_of ab x) (dHistory a !!! hist_row ca jj chan)).1).
Proof.
  intros Hu Hr Hio Hch Hcnt Hwf Hcard Hkk Hchan Hcn Hdel Hread Hwfa Hca Hjj Hcfg Hcc slot cyc Hpolls Hd Hel Hoth x.
  destruct (iop_read_view ci ib Hu Hr Hio Hch Hcnt rate cycleNum clk gps iw s s' st card chan kk words Hwf Hcard Hkk Hchan Hcn Hdel Hread)
    as [_ Hv]. unfold iop_view in Hv. fold slot cyc in Hv. injection Hv as Hw Hx Hcy.
  split; [done|].
  assert (Harr : arrives rate slot cyc (aw jj) (adcConfig ca !!! jj) = Some d).
  { unfold arrives. rewrite Hpolls, Hcfg. simpl. rewrite Hd, Hcy, Z.eqb_refl. cbn [negb andb].
    by rewrite (proj2 (Z.leb_gt _ _) Hel). }
  assert (Hret : (app_adc_read ca ab used rate slot cyc aw a).1 = Return 0).
  { apply read_returns. intros j Hj Hm. destruct (decide (j = jj)) as [->|]; [by rewrite Harr|by apply Hoth]. }
  destruct (app_adc_read ca ab used rate slot cyc aw a) as [r a'] eqn:Ea. cbn [fst] in Hret. subst r.
  assert (Hin : (jj, chan) ∈ channels_read ca) by (apply channels_read_spec; lia).
  set (k := mkCall slot cyc aw). set (x' := sample_in ca ab rate k).
  destruct (read_view ca ab used rate k jj chan a a' [] Hwfa Hca Hin Ea) as (_ & Ht & Hdata & _ & Hword). fold x' in Ht, Hdata, Hword.
  assert (Ex : x' (jj, chan) = sample_of ab x).
  { pose proof (Ht _ Hin) as Hj. cbn [fst snd] in Hj. unfold taken in Hj. subst k. cbn [k_ctr k_clk k_watch] in Hj. rewrite Harr in Hj.
    cbn [fmap option_fmap option_map] in Hj. injection Hj as <-. by rewrite Hcfg, Hd, Hx. }
  assert (En : channel_words ca ab used jj chan [] (c_hist (chan_view ca jj chan a')) = []) by (unfold channel_words; by destruct (filtered _ _ _ _)).
  rewrite En in Hword. exists a', x'. split; [done|]. split; [intros ch Hin2; by apply (taken_fresh _ _ rate), Ht|].
  split; [done|]. split; [by rewrite <- Ex|]. split; [by symmetry|]. intros Hown.
  rewrite own_history_words in Hword by done. unfold of_channel in Hword. cbn [map] in Hword. rewrite Ex, words_of_cons in Hword.
  by injection Hword as <- _.
Qed.

(** ** Supervision of the read times *)
Section ReadTimes.
Context {F : Type} `{FloatOps F}.
Context (c : AdcCards) (bd : IopBuild).

(** The largest read time of a card and the count of late reads. *)
Definition rt_view (card : nat) (i : AdcInfo) : Z * Z := (adcRdTimeMax i !!! card, adcRdTimeErr i !!! card).
Definition rt_wf (i : AdcInfo) : Prop := length (adcRdTimeMax i) = MAX_ADC_MODULES ∧ length (adcRdTimeErr i) = MAX_ADC_MODULES.

(** The longest read time that is not late. *)
Definition rt_limit (card : nat) : Z :=
  if (card =? 0)%nat then MAX_ADC_WAIT_CARD_0 * Z.of_nat (UNDERSAMPLE bd) else MAX_ADC_WAIT_CARD_S.

Definition same_rt (s s' : IopAdc (F := F)) : Prop :=
  adcRdTimeMax (i_adcinfo s') = adcRdTimeMax (i_adcinfo s) ∧ adcRdTimeErr (i_adcinfo s') = adcRdTimeErr (i_adcinfo s).

Lemma same_rt_trans s1 s2 s3 : same_rt s1 s2 → same_rt s2 s3 → same_rt s1 s3.
Proof. intros [E1 E2] [E3 E4]. split; congruence. Qed.

Lemma channel_rt type word slot card kk chan s : same_rt s (iop_adc_channel bd type word slot card kk chan s).
Proof. unfold iop_adc_channel. destruct (_ && _), (overflows _ _); done. Qed.

Lemma round_rt type num words card kk s slot cyc : same_rt s (iop_adc_round bd type num words card kk (s, slot, cyc)).1.1.
Proof.
  unfold iop_adc_round. set (s1 := for_up _ _ _ s). assert (same_rt s s1).
  { apply (for_up_inv (same_rt s)); [done|]. intros k s' _ Hs. eapply same_rt_trans; [exact Hs|apply channel_rt]. }
  by destruct (_ <? 5)%nat.
Qed.

Lemma data_rt cycleNum clk gps words card s : same_rt s (iop_adc_data c bd cycleNum clk gps words card s).
Proof.
  unfold iop_adc_data. set (s1 := if (card =? 0)%nat then _ else s). set (s2 := if u32 _ <? 65535 then _ else s1).
  assert (H2 : same_rt s s2).
  { subst s2 s1. destruct (u32 _ <? 65535), (card =? 0)%nat; try done; destruct (_ && gps_tsync bd); done. }
  set (st0 := (s2, Z.rem _ IO_MEMORY_SLOTS, _)). set (loops := if _ && _ then 1%nat else UNDERSAMPLE bd).
  assert (H3 : same_rt s (for_n loops (iop_adc_round bd (adcType c !!! card) (Z.to_nat (adcChannels c !!! card)) words card) st0).1.1).
  { apply (for_up_inv (λ st : IopAdc * Z * Z, same_rt s st.1.1)); [done|]. intros k [[s' sl] cy] _ Hs.
    eapply same_rt_trans; [exact Hs|apply round_rt]. }
  destruct (for_up _ _ _ _) as [[s3 slot] cyc]. by destruct (4 <? UNDERSAMPLE bd)%nat.
Qed.

(** A read of a card that was late before counts it late, whatever the time. *)
Lemma read_time_latched rate clk wait k card (s : IopAdc (F := F)) :
  rt_wf (i_adcinfo s) → (k < MAX_ADC_MODULES)%nat → (card < MAX_ADC_MODULES)%nat → rt_limit card < adcRdTimeMax (i_adcinfo s) !!! card →
  let i := i_adcinfo (iop_read_time bd rate clk wait k s) in
  rt_wf i ∧ rt_limit card < adcRdTimeMax i !!! card ∧
  adcRdTimeErr i !!! card = adcRdTimeErr (i_adcinfo s) !!! card + (if decide (k = card) then 1 else 0).
Proof.
  intros [Hl1 Hl2] Hk Hc Hlate. unfold iop_read_time. cbv zeta. set (t := if (k =? 0)%nat then _ else wait).
  set (i1 := if t >? _ then _ else _).
  assert (H1 : rt_wf i1 ∧ rt_limit card < adcRdTimeMax i1 !!! card ∧ adcRdTimeErr i1 = adcRdTimeErr (i_adcinfo s)).
  { subst i1. cbn [set_adcRdTime adcRdTimeMax]. destruct (Z.gtb_spec t (adcRdTimeMax (i_adcinfo s) !!! k)); [|done].
    split; [split; [by cbn; rewrite length_insert|done]|]. split; [|done]. cbn [set_adcRdTimeMax adcRdTimeMax].
    rewrite lookup_total_insert by lia. destruct (decide (card = k)) as [->|]; lia. }
  clearbody i1. clear t. destruct H1 as ([H1 H2] & H3 & H4). cbn [i_adcinfo set_i_adcinfo].
  destruct (decide (k = card)) as [->|Hne].
  - set (slow := if (card =? 0)%nat then _ >? _ * _ else _ >? _).
    assert (slow = true) as ->.
    { subst slow. unfold rt_limit in H3. destruct (card =? 0)%nat; apply Z.gtb_lt; lia. }
    split; [split; [done|by cbn; rewrite length_alter]|]. split; [done|]. cbn [set_adcRdTimeErr adcRdTimeErr].
    rewrite lookup_total_alter_eq by lia. by rewrite H4.
  - destruct (if (k =? 0)%nat then _ >? _ * _ else _ >? _).
    + split; [split; [done|by cbn; rewrite length_alter]|]. split; [done|]. cbn [set_adcRdTimeErr adcRdTimeErr].
      rewrite lookup_total_alter_ne by done. rewrite H4. lia.
    + split; [done|]. split; [done|]. rewrite H4. lia.
Qed.

Lemma read_latched rate cycleNum clk gps w card s st s' :
  (adcCount c <= MAX_ADC_MODULES)%nat → (card < adcCount c)%nat → rt_wf (i_adcinfo s) →
  rt_limit card < adcRdTimeMax (i_adcinfo s) !!! card →
  iop_adc_read c bd rate cycleNum clk gps w s = (Return st, s') →
  rt_wf (i_adcinfo s') ∧ rt_limit card < adcRdTimeMax (i_adcinfo s') !!! card ∧
  adcRdTimeErr (i_adcinfo s') !!! card = adcRdTimeErr (i_adcinfo s) !!! card + 1.
Proof.
  intros Hcnt Hc Hwf Hlate. unfold iop_adc_read.
  pose proof (for_exit_view_single
    (λ st : IopAdc (F := F) * Z, rt_wf (i_adcinfo st.1) ∧ rt_limit card < adcRdTimeMax (i_adcinfo st.1) !!! card)
    (λ e e', e' = e + 1) (λ st : IopAdc (F := F) * Z, adcRdTimeErr (i_adcinfo st.1) !!! card)
    (iop_adc_card c bd rate cycleNum clk gps w) card (adcCount c) (s, 0) Hc (conj Hwf Hlate)) as Hv.
  destruct (for_exit_both (λ _, True) (λ r, r = Waiting) (iop_adc_card c bd rate cycleNum clk gps w) 0 (adcCount c) (s, 0)) as [_ Hq];
    [done| |].
  { intros k [s1 a] _ _. split; [done|]. intros r. unfold iop_adc_card.
    destruct (wait_ready _ _ _ _ _) as [[t ws]|]; [done|]. by intros [= <-]. }
  destruct (for_exit _ _ _ _) as [[s1 a] [r|]] eqn:Ef; cbn [fst snd] in *; intros [= E].
  { specialize (Hq r eq_refl). congruence. }
  subst s1. destruct Hv as [[H1 H2] H3]; [|done|done].
  intros k [s1 a1] Hk [Hw1 Hl1] Hnone. cbn [fst] in *. unfold iop_adc_card in *.
  destruct (wait_ready _ _ _ _ _) as [[t ws]|]; [|done]. cbn [fst snd].
  set (wait := elapsed _ _ _).
  pose proof (read_time_latched rate t wait k card (i_on_info (set_adcWait wait) s1) Hw1 ltac:(lia) ltac:(lia) Hl1) as Hrt.
  set (s2 := iop_read_time _ _ _ _ _ _) in *. cbv zeta in Hrt.
  set (s3 := if MAX_ADC_WAIT <=? wait then _ else _).
  assert (Hsame : same_rt s2 s3) by (subst s3; destruct (MAX_ADC_WAIT <=? wait); [done|apply data_rt]).
  clearbody s2 s3. destruct Hsame as [E1 E2], Hrt as ([Hx Hy] & Hz & He). unfold rt_wf. rewrite E1, E2.
  split; [done|]. rewrite He. destruct (decide (k = card)); cbn; [done|lia].
Qed.

(** The reads of a second, in order; [None] if one of them is still waiting. *)
Record IopCall := mkIopCall { kc_cycle : Z; kc_clk : Z; kc_gps : Z; kc_watch : nat → Watch (list Z) }.
Fixpoint iop_reads (rate : Z) (ks : list IopCall) (s : IopAdc (F := F)) : option (IopAdc (F := F)) :=
  match ks with
  | [] => Some s
  | k :: ks =>
      match iop_adc_read c bd rate (kc_cycle k) (kc_clk k) (kc_gps k) (kc_watch k) s with
      | (Return _, s) => iop_reads rate ks s
      | (Waiting, _) => None
      end
  end.

Lemma reads_latched rate ks card s s' :
  (adcCount c <= MAX_ADC_MODULES)%nat → (card < adcCount c)%nat → rt_wf (i_adcinfo s) →
  rt_limit card < adcRdTimeMax (i_adcinfo s) !!! card → iop_reads rate ks s = Some s' →
  rt_wf (i_adcinfo s') ∧ rt_limit card < adcRdTimeMax (i_adcinfo s') !!! card ∧
  adcRdTimeErr (i_adcinfo s') !!! card = adcRdTimeErr (i_adcinfo s) !!! card + Z.of_nat (length ks).
Proof.
  intros Hcnt Hc. revert s. induction ks as [|k ks IH]; intros s Hwf Hlate; simpl.
  - intros [= <-]. split; [done|]. split; [done|lia].
  - destruct (iop_adc_read _ _ _ _ _ _ _ _) as [[|st] s1] eqn:Er; [done|]. intros Hrun.
    destruct (read_latched _ _ _ _ _ card _ _ _ Hcnt Hc Hwf Hlate Er) as (Hwf1 & Hlate1 & He1).
    destruct (IH s1 Hwf1 Hlate1 Hrun) as (H1 & H2 & H3). split; [done|]. split; [done|]. rewrite H3, He1. lia.
Qed.

(** *** The report *)
Definition st_view (card : nat) (st : AdcInfo * EpicsOutput * Z) : Z * Z * bool * bool :=
  let '(i, o, _) := st in
  (adcRdTimeMax i !!! card, adcRdTimeErr i !!! card, Z.testbit (eo_statAdc o !!! card) 4, Z.testbit (eo_stateWord o) 2).
Definition st_wf (st : AdcInfo * EpicsOutput * Z) : Prop :=
  rt_wf st.1.1 ∧ length (eo_statAdc st.1.2) = MAX_ADC_MODULES.

Lemma report_effect err bit code jj o status :
  (jj < length (eo_statAdc o))%nat →
  let o' := (report err bit code jj (o, status)).1 in
  length (eo_statAdc o') = length (eo_statAdc o) ∧ eo_stateWord o' = eo_stateWord o ∧
  ∀ k n, 0 <= n → Z.testbit (eo_statAdc o' !!! k) n =
    if decide (k = jj) then
      (if truthy (err !!! jj) then Z.testbit (eo_statAdc o !!! k) n && negb (Z.testbit bit n)
       else Z.testbit (eo_statAdc o !!! k) n || Z.testbit bit n)
    else Z.testbit (eo_statAdc o !!! k) n.
Proof.
  intros Hj. cbv zeta. unfold report, clr_at, or_at. destruct (truthy (err !!! jj)); cbn [fst set_eo_statAdc eo_statAdc eo_stateWord].
  all: rewrite length_alter; split; [done|]; split; [done|]; intros k n Hn; destruct (decide (k = jj)) as [->|].
  - rewrite lookup_total_alter_eq, Z.land_spec, Z.lnot_spec by done. done.
  - by rewrite lookup_total_alter_ne.
  - by rewrite lookup_total_alter_eq, Z.lor_spec by done.
  - by rewrite lookup_total_alter_ne.
Qed.

Lemma channels_keep jj n st :
  let '(i', o') := for_n n (status_channel jj) st in
  adcRdTimeMax i' = adcRdTimeMax st.1 ∧ adcRdTimeErr i' = adcRdTimeErr st.1 ∧ eo_statAdc o' = eo_statAdc st.2 ∧
  eo_stateWord o' = eo_stateWord st.2.
Proof.
  apply (for_up_inv (λ st' : AdcInfo * EpicsOutput, let '(i', o') := st' in
    adcRdTimeMax i' = adcRdTimeMax st.1 ∧ adcRdTimeErr i' = adcRdTimeErr st.1 ∧ eo_statAdc o' = eo_statAdc st.2 ∧
    eo_stateWord o' = eo_stateWord st.2)); [by destruct st|]. intros k [i o] _ (H1 & H2 & H3 & H4). unfold status_channel.
  by destruct (_ >? OVERFLOW_CNTR_LIMIT).
Qed.

Lemma iop_status_card_view jj card st :
  st_wf st → (jj < MAX_ADC_MODULES)%nat → (card < MAX_ADC_MODULES)%nat →
  let '(m, e, b, w) := st_view card st in
  st_wf (iop_status_card jj st) ∧
  st_view card (iop_status_card jj st) =
    (m, if decide (card = jj) then 0 else e, if decide (card = jj) then negb (truthy e) else b,
     w || (adcRdTimeErr st.1.1 !!! jj >? MAX_ADC_WAIT_ERR_SEC)).
Proof.
  destruct st as [[i o] status]. intros [[Hl1 Hl2] Hl3] Hj Hc. cbn [fst snd] in *. unfold iop_status_card, st_view.
  pose proof (report_effect (adcChanErr i) ADC_CHAN_HOP FE_ERROR_ADC jj o status ltac:(lia)) as R1.
  destruct (report (adcChanErr i) _ _ _ _) as [o1 status1]. destruct R1 as (L1 & W1 & B1). cbn [fst] in *.
  cbn [set_adcChanErr adcRdTimeErr adcRdTimeMax adcOF].
  pose proof (report_effect (adcRdTimeErr i) ADC_RD_TIME 0 jj o1 status1 ltac:(lia)) as R2.
  destruct (report (adcRdTimeErr i) _ _ _ _) as [o2 status2]. destruct R2 as (L2 & W2 & B2). cbn [fst] in *.
  set (late := adcRdTimeErr i !!! jj >? MAX_ADC_WAIT_ERR_SEC). set (o3 := if late then _ else o2).
  assert (E3 : eo_statAdc o3 = eo_statAdc o2 ∧ Z.testbit (eo_stateWord o3) 2 = Z.testbit (eo_stateWord o2) 2 || late).
  { subst o3. destruct late; cbn [set_eo_stateWord eo_statAdc eo_stateWord]; (split; [done|]);
      [by rewrite Z.lor_spec|by rewrite orb_false_r]. }
  clearbody o3. destruct E3 as [E3 W3]. cbn [set_adcRdTimeErr set_adcChanErr adcOF].
  pose proof (report_effect (adcOF i) ADC_OVERFLOW FE_ERROR_OVERFLOW jj o3 status1 ltac:(rewrite E3; lia)) as R4.
  destruct (report (adcOF i) _ _ _ _) as [o4 status4]. destruct R4 as (L4 & W4 & B4). cbn [fst] in *.
  match goal with |- context [for_up 0 32 (status_channel jj) (?a, ?b)] =>
    pose proof (channels_keep jj 32 (a, b)) as K; destruct (for_up 0 32 (status_channel jj) (a, b)) as [i5 o5] end.
  cbn [fst snd set_adcOF set_adcRdTimeErr set_adcChanErr adcRdTimeMax adcRdTimeErr] in K. destruct K as (K1 & K2 & K3 & K4).
  split.
  - split; cbn [fst snd]; [split; congruence || (rewrite K2; by rewrite length_insert)|]. rewrite K3. congruence.
  - rewrite K1, K2, K3, K4, W4, W3, W2, W1, B4, E3, B2, B1 by lia.
    rewrite lookup_total_insert by lia. unfold ADC_OVERFLOW, ADC_RD_TIME, ADC_CHAN_HOP.
    destruct (decide (card = jj)) as [->|]; [|done].
    change (Z.testbit 4 4) with false. change (Z.testbit 16 4) with true. change (Z.testbit 2 4) with false.
    f_equal. f_equal. destruct (truthy (adcOF i !!! jj)), (truthy (adcRdTimeErr i !!! jj)), (truthy (adcChanErr i !!! jj));
      simpl; rewrite ?andb_true_r, ?orb_false_r, ?andb_false_r, ?orb_true_r; done.
Qed.

Lemma status_latched card i o :
  (adcCount c <= MAX_ADC_MODULES)%nat → (card < adcCount c)%nat → rt_wf i → length (eo_statAdc o) = MAX_ADC_MODULES →
  MAX_ADC_WAIT_ERR_SEC < adcRdTimeErr i !!! card →
  st_wf (adc_status_update c i o) ∧ st_view card (adc_status_update c i o) = (adcRdTimeMax i !!! card, 0, false, true).
Proof.
  intros Hcnt Hc Hwf Hl He. unfold adc_status_update.
  destruct (for_up_ind (λ k st, st_wf st ∧ adcRdTimeMax st.1.1 !!! card = adcRdTimeMax i !!! card ∧
      if (k <=? card)%nat then adcRdTimeErr st.1.1 !!! card = adcRdTimeErr i !!! card
      else st_view card st = (adcRdTimeMax i !!! card, 0, false, true)) iop_status_card 0 (adcCount c) (i, o, 0)) as (H1 & _ & H3).
  - by split.
  - intros k st Hk (Hst & Hm & Hv). pose proof (iop_status_card_view k card st Hst ltac:(lia) ltac:(lia)) as Hs.
    destruct (st_view card st) as [[[m e] b] w] eqn:Ev. destruct Hs as [Hst' Ev'].
    assert (Hmax : ∀ st', st_wf st' → ∀ m e b w, st_view card st' = (m, e, b, w) → adcRdTimeMax st'.1.1 !!! card = m ∧ adcRdTimeErr st'.1.1 !!! card = e)
      by (intros [[? ?] ?] _ ? ? ? ?; cbn; by intros [= -> -> _ _]).
    destruct (Hmax _ Hst _ _ _ _ Ev) as [M1 M2]. destruct (Hmax _ Hst' _ _ _ _ Ev') as [M1' M2'].
    split; [done|]. split; [congruence|]. destruct (Nat.leb_spec k card), (Nat.leb_spec (k + 1) card); try lia.
    + rewrite M2', decide_False by lia. congruence.
    + assert (card = k) as -> by lia. rewrite Ev', !decide_True by done.
      assert (e = adcRdTimeErr i !!! k) as -> by congruence. assert (m = adcRdTimeMax i !!! k) as -> by congruence.
      rewrite Hv. rewrite (proj2 (Z.gtb_lt _ _)) by lia. rewrite orb_true_r.
      unfold MAX_ADC_WAIT_ERR_SEC in He. unfold truthy. rewrite (proj2 (Z.eqb_neq _ _)) by lia. done.
    + rewrite Ev'. injection Hv as -> -> -> ->. by rewrite orb_true_l, !decide_False by lia.
  - split; [done|]. simpl in H3. rewrite (proj2 (Nat.leb_gt (adcCount c) card)) in H3 by lia. done.
Qed.
End ReadTimes.

(** One late read of a card is reported for ever: the count of late reads
    compares the largest read time since the last diagnostic reset, not the time of
    the read.  Once the largest time of a card is above its limit, any further run of
    more than three reads ends in a report that shows the card late and raises
    the ADC error bit of the state word, however fast those reads were, and
    leaves the card in the same condition for the next second. *)
Theorem late_read_latches {F} `{FloatOps F} (c : AdcCards) (bd : IopBuild) rate ks card (s s' : IopAdc (F := F)) :
  (adcCount c <= MAX_ADC_MODULES)%nat → (card < adcCount c)%nat → rt_wf (i_adcinfo s) →
  rt_limit bd card < adcRdTimeMax (i_adcinfo s) !!! card → adcRdTimeErr (i_adcinfo s) !!! card = 0 →
  (3 < length ks)%nat → iop_reads c bd rate ks s = Some s' → length (eo_statAdc (i_epicsOutput s')) = MAX_ADC_MODULES →
  let '(i, o, _) := adc_status_update c (i_adcinfo s') (i_epicsOutput s') in
  Z.testbit (eo_statAdc o !!! card) 4 = false ∧ Z.testbit (eo_stateWord o) 2 = true ∧
  rt_wf i ∧ rt_limit bd card < adcRdTimeMax i !!! card ∧ adcRdTimeErr i !!! card = 0.
Proof.
  intros Hcnt Hc Hwf Hlate H0 Hks Hrun Hl.
  destruct (reads_latched c bd rate ks card s s' Hcnt Hc Hwf Hlate Hrun) as (Hwf' & Hlate' & He').
  destruct (status_latched c card (i_adcinfo s') (i_epicsOutput s') Hcnt Hc Hwf' Hl) as [Hst Hv].
  { unfold MAX_ADC_WAIT_ERR_SEC. lia. }
  destruct (adc_status_update _ _ _) as [[i o] status]. destruct Hst as [Hi _]. unfold st_view in Hv. apply pair_eq in Hv as [[[-> ->]%pair_eq ->]%pair_eq ->]. done.
Qed.

(** ** Concrete runs *)
Definition demo_info : AdcInfo :=
  mkAdcInfo 0 0 (replicate 12 0) (replicate 12 0) (replicate 12 0) (replicate 12 0) (replicate 12 0)
    (replicate 12 (replicate 32 0)) (replicate 12 (replicate 32 0)).
Definition demo_out : EpicsOutput :=
  mkEpicsOutput (replicate 12 0) (replicate 12 (replicate 32 0)) (replicate 12 (replicate 32 0)) 0 0 0 0.
Definition demo_app : AppAdc (F := binary64) :=
  mkAppAdc demo_info demo_out 0 0 (replicate 12 (replicate 32 (fofZ 0))) (replicate 384 (replicate 4 (fofZ 0))) 0 0 0.
Definition demo_iop : IopAdc (F := binary64) :=
  mkIopAdc demo_info demo_out 0 0 (replicate 12 (replicate 32 (replicate 16 (fofZ 0)))) 1000
    (λ _ _, mkBlock 0 0 (replicate 32 0)) 0 (replicate 12 (replicate 32 0)) 0 0 0 0 0 [].

Lemma demo_app_wf : app_wf demo_app.
Proof. by split; try apply dims_replicate. Qed.
Lemma demo_iop_wf : iop_wf demo_iop.
Proof.
  split.
  - split; [done|]. intros i Hi. unfold demo_iop. cbn [i_dWord]. rewrite lookup_total_replicate_2 by done. apply dims_replicate.
  - intros m sl. simpl. lia.
Qed.

Definition demo_cards : AdcCards := mkAdcCards 5 [0; 0; 0; 0; 7] [0; 1; 2; 3; 4] [32; 32; 32; 32; 8].
Definition demo_coef : list binary64 := [flit 5 (-1); flit 5 (-1); flit (-25) (-2); flit 1 0; flit 1 0; flit 25 (-2); flit (-1) (-1); flit 1 0; flit 2 0].
Definition demo_build : AppBuild := mkAppBuild false (Some demo_coef).
Definition demo_used : list (list Z) := replicate 12 (replicate 32 1).

(** Card 1 shows 1000, the others their number; in the second poll the block is there. *)
Definition demo_mem (sl : Z) : IoData :=
  λ m sl', mkBlock 1000 (if sl' =? sl then sl else -1) (replicate 32 (if m =? 1 then 1000 + sl' else m)).
Definition demo_call (sl : Z) : Call :=
  mkCall sl sl (λ _, mkWatch 0 [(100, λ _ _, mkBlock 0 (-1) []); (200, demo_mem sl)]).

Lemma all_return {A} (l : list (Outcome * A)) n : map fst l = replicate n (Return 0) → ∀ rs, rs ∈ l → rs.1 = Return 0.
Proof.
  intros E rs Hin. assert (rs.1 ∈ map fst l) as Hin' by (apply list_elem_of_fmap; by exists rs).
  rewrite E in Hin'. by apply elem_of_replicate_inv in Hin'.
Qed.

(** Two reads of four 32 channel cards: channel 3 of card 1. *)
Lemma adc_channel_stream_witness :
  let c := mkAdcCards 4 [0; 0; 0; 0] [0; 1; 2; 3] [32; 32; 32; 32] in
  let run := run_reads c demo_build demo_used 3000 [demo_call 7; demo_call 8] demo_app in
  map (λ rs, (adcData (adcinfo rs.2) !!! 1%nat) !!! 3%nat) run = [1007; 1008] ∧
  map (λ rs, (dWord rs.2 !!! 1%nat) !!! 3%nat) run =
    (run_filter (λ x, iir_filter_biquad x demo_coef 2) (map fofZ [1007; 1008]) (replicate 4 (fofZ 0))).1.
Proof.
  intros c run.
  destruct (adc_channel_stream c demo_build demo_used 3000 1 3 [demo_call 7; demo_call 8] demo_app) as (xs & _ & Hd & _ & Hw & _).
  - exact demo_app_wf.
  - apply Nat.leb_le. by vm_compute.
  - apply channels_read_spec. split; [apply Nat.ltb_lt; by vm_compute|]. split; [by vm_compute|apply Nat.ltb_lt; by vm_compute].
  - apply (all_return _ 2). by vm_compute.
  - assert (E : map (λ rs, (adcData (adcinfo rs.2) !!! 1%nat) !!! 3%nat) run = [1007; 1008]) by by vm_compute.
    split; [exact E|]. fold run in Hd, Hw. rewrite E in Hd. rewrite <- Hd in Hw. apply Hw.
    apply own_history_same; [apply Nat.ltb_lt; by vm_compute|]. intros [|[|[|[|jj]]]] Hj _; [done..|simpl in Hj; lia].
Defined.

(** One read with the fast card: its channel 0 reads 4, but its word has the other channel's 1007 in it. *)
Lemma adc_history_shared_witness :
  let read := app_adc_read demo_cards demo_build demo_used 3000 7 7 (k_watch (demo_call 7)) demo_app in
  read.1 = Return 0 ∧
  ((adcData (adcinfo read.2) !!! 4%nat) !!! 0%nat = 4 ∧
   (dWord read.2 !!! 4%nat) !!! 0%nat ≠ (iir_filter_biquad (fofZ 4) demo_coef 2 (replicate 4 (fofZ 0))).1) ∧
  (∃ d1 d4 : IoData,
    let '(y1, h1) := iir_filter_biquad (fofZ (bdata (d1 1 7) !!! 0%nat)) demo_coef 2 (replicate 4 (fofZ 0)) in
    (dWord read.2 !!! 4%nat) !!! 0%nat = (iir_filter_biquad (fofZ (bdata (d4 4 7) !!! 0%nat)) demo_coef 2 h1).1).
Proof.
  intros read. assert (Hr : read.1 = Return 0) by by vm_compute. split; [exact Hr|]. split; [vm_compute; split; congruence|].
  destruct (adc_history_shared demo_cards demo_build demo_coef demo_used 3000 7 7 (k_watch (demo_call 7)) demo_app read.2) as (d1 & d4 & Hv).
  - exact demo_app_wf.
  - done.
  - intros [|[|[|[|j]]]] Hj; [done..|lia].
  - done.
  - done.
  - done.
  - by vm_compute.
  - by vm_compute.
  - fold read. rewrite <- Hr. by destruct read.
  - exists d1, d4. cbv zeta in Hv. change (dHistory demo_app !!! 32%nat) with (replicate 4 (fofZ (F := binary64) 0)) in Hv.
    change (sample_of demo_build (bdata (d1 (adcConfig demo_cards !!! 1%nat) 7) !!! 0%nat)) with (bdata (d1 1 7) !!! 0%nat) in Hv.
    change (sample_of demo_build (bdata (d4 (adcConfig demo_cards !!! 4%nat) 7) !!! 0%nat)) with (bdata (d4 4 7) !!! 0%nat) in Hv.
    destruct (iir_filter_biquad (fofZ (bdata (d1 1 7) !!! 0%nat)) demo_coef 2 _) as [y1 h1].
    destruct (iir_filter_biquad (fofZ (bdata (d4 4 7) !!! 0%nat)) demo_coef 2 h1) as [y4 h4].
    destruct Hv as (_ & _ & _ & H4 & _). exact H4.
Defined.

(** The IOP with two 32 channel cards: the words of card 1 after its DMA. *)
Definition demo_words : list Z := (0x10000 + 0x9000) :: replicate 31 0x8123.
Definition demo_unread : list Z := 0 :: replicate 30 5 ++ [DUMMY_ADC_VAL].
Definition demo_iwatch (k : nat) : Watch (list Z) := mkWatch 0 [(100, demo_unread); (3000 * 10, demo_words)].
Definition iop_cards : AdcCards := mkAdcCards 2 [0; 0] [0; 0] [32; 32].
Definition iop_build : IopBuild := mkIopBuild 1 1 65536 false.

(** Channel 3 of card 1, at cycle 4103, which is slot 7. *)
Lemma adc_path_witness :
  let iop := iop_adc_read iop_cards iop_build 3000 4103 30000 0 demo_iwatch demo_iop in
  let ca := mkAdcCards 1 [0] [1] [32] in
  let aw (_ : nat) := mkWatch 0 [(200, iodata iop.2)] in
  let app := app_adc_read ca demo_build demo_used 3000 7 4103 aw demo_app in
  ((i_dWord iop.2 !!! 1%nat) !!! 3%nat) !!! 0%nat = fofZ 0x123 ∧
  app.1 = Return 0 ∧ (adcData (adcinfo app.2) !!! 0%nat) !!! 3%nat = 0x123 ∧
  (dWord app.2 !!! 0%nat) !!! 3%nat = (iir_filter_biquad (fofZ 0x123) demo_coef 2 (replicate 4 (fofZ 0))).1.
Proof.
  intros iop ca aw app.
  destruct (adc_path iop_cards ca iop_build demo_build demo_used 3000 4103 30000 0 demo_iwatch demo_iop iop.2 0 1 3 0 demo_words
    aw demo_app 0 200 (iodata iop.2) []) as (H1 & a' & x' & H2 & _ & _ & H3 & _ & H4).
  - simpl. lia.
  - done.
  - done.
  - intros [|[|k]] Hk; [done..|simpl in Hk; lia].
  - apply Nat.leb_le. by vm_compute.
  - exact demo_iop_wf.
  - simpl. lia.
  - simpl. lia.
  - apply Nat.ltb_lt. by vm_compute.
  - done.
  - by vm_compute.
  - assert (E : iop.1 = Return 0) by by vm_compute. fold iop. rewrite <- E. by destruct iop.
  - exact demo_app_wf.
  - apply Nat.leb_le. by vm_compute.
  - simpl. lia.
  - done.
  - apply Nat.ltb_lt. by vm_compute.
  - done.
  - done.
  - by vm_compute.
  - intros j Hj Hne. simpl in Hj. lia.
  - change (round_slot iop_build 4103 0) with 7 in H2. change (round_cycle iop_build 4103 0) with 4103 in H2.
    change (app = (Return 0, a')) in H2. rewrite H2. split; [exact H1|]. split; [done|]. split; [exact H3|]. apply H4.
    apply own_history_same; [apply Nat.ltb_lt; by vm_compute|]. intros [|jj] Hj _; [done|simpl in Hj; lia].
Defined.

(** Card 0 was late once (30 us), and the next four reads take 10 us. *)
Lemma late_read_latches_witness :
  let s := set_i_adcinfo (set_adcRdTimeMax (<[0%nat := 30]> (replicate 12 0)) demo_info) demo_iop in
  let k := mkIopCall 0 0 0 demo_iwatch in
  ∃ s', iop_reads iop_cards iop_build 3000 [k; k; k; k] s = Some s' ∧ (adcRdTime (i_adcinfo s') !!! 0%nat) = 10 ∧
    let '(_, o, _) := adc_status_update iop_cards (i_adcinfo s') (i_epicsOutput s') in
    Z.testbit (eo_statAdc o !!! 0%nat) 4 = false ∧ Z.testbit (eo_stateWord o) 2 = true.
Proof.
  intros s k. destruct (iop_reads iop_cards iop_build 3000 [k; k; k; k] s) as [s'|] eqn:E; [|by vm_compute in E].
  exists s'. split; [done|].
  assert (Hs : option_map (λ s', (adcRdTime (i_adcinfo s') !!! 0%nat, length (eo_statAdc (i_epicsOutput s'))))
    (iop_reads iop_cards iop_build 3000 [k; k; k; k] s) = Some (10, 12%nat)) by by vm_compute.
  rewrite E in Hs. injection Hs as Ht Hl. split; [done|].
  pose proof (late_read_latches iop_cards iop_build 3000 [k; k; k; k] 0 s s') as T.
  destruct (adc_status_update _ _ _) as [[i o] st]. destruct T as (H1 & H2 & _); [| | | | | |done|done|done].
  - apply Nat.leb_le. by vm_compute.
  - simpl. lia.
  - done.
  - by vm_compute.
  - done.
  - simpl. lia.
Defined.
End AdcProps.
