(* ===== verification/Cycle.v ===== *)
(** * The cycle of a front end ([src/fe/controllerApp.c], [src/fe/controllerIop.c])

    Models and the IOP run the same endless loop.  What decides who does what
    when is a handful of counters: the cycle within the second, the cycle within
    the block of data acquisition, the number of that block, and, in a control
    model, the clocks and the memory slots of the ADC samples to take and of the DAC
    samples to give.

    - [servo], [Rates]: the constants of a build;
    - [Counters]: the counters; [app_read_samples], [app_dac_advance],
      [end_of_cycle]: the blocks of the loop that move them;
    - [filter_checks]: the filter modules checked for coefficient reloads in a cycle;
    - theorems: where the counters are after any number of cycles, every module
      is checked once per block, the samples a model takes are those of
      consecutive cycles of the IOP, and the rates at which blocks lose step with the second. *)
From S2P Require Import Prelude CFloat Iir FilterModule Dac DacProps Adc AdcProps.
Import Iir Adc AdcProps.
Import Dac (IO_MEMORY_SLOTS, IoData, MEM_DATA_BLOCK, mkBlock, bcycle, bdata).

Module Cycle.

(** The rate a build is for. *)
Inductive servo := SERVO1024K | SERVO512K | SERVO256K | SERVO128K | SERVO64K | SERVO32K | SERVO16K | SERVO4K | SERVO2K.

Definition CYCLE_PER_SECOND (r : servo) : Z :=
  match r with
  | SERVO1024K => 1024 * 1024 | SERVO512K => 512 * 1024 | SERVO256K => 256 * 1024 | SERVO128K => 128 * 1024
  | SERVO64K => 64 * 1024 | SERVO32K => 32 * 1024 | SERVO16K => 16 * 1024 | SERVO4K => 4 * 1024 | SERVO2K => 2 * 1024
  end.

Definition CYCLE_PER_MINUTE (r : servo) : Z :=
  match r with
  | SERVO1024K => 8 * 7864320 | SERVO512K => 4 * 7864320 | SERVO256K => 2 * 7864320 | SERVO128K => 7864320
  | SERVO64K => 2 * 1966080 | SERVO32K => 1966080 | SERVO16K => 983040 | SERVO4K => 2 * 122880 | SERVO2K => 122880
  end.

Definition DAQ_CYCLE_CHANGE (r : servo) : Z :=
  match r with
  | SERVO1024K => 32 * 8000 | SERVO512K => 32 * 8000 | SERVO256K => 2 * 8000 | SERVO128K => 8000
  | SERVO64K => 2 * 1540 | SERVO32K => 1540 | SERVO16K => 770 | SERVO4K => 240 | SERVO2K => 120
  end.

Definition END_OF_DAQ_BLOCK (r : servo) : Z :=
  match r with
  | SERVO1024K => 524287 | SERVO512K => 524287 | SERVO256K => 2 * 8191 | SERVO128K => 8191
  | SERVO64K => 4095 | SERVO32K => 2047 | SERVO16K => 1023 | SERVO4K => 255 | SERVO2K => 127
  end.

(** In a control model. *)
Definition DAC_PRELOAD_CNT (r : servo) : Z :=
  match r with
  | SERVO1024K => 0 | SERVO512K => 0 | SERVO256K => 0 | SERVO128K => 0
  | SERVO64K => 1 | SERVO32K => 2 | SERVO16K => 4 | SERVO4K => 16 | SERVO2K => 8
  end.

Definition DAQ_NUM_DATA_BLOCKS_PER_SECOND : Z := 16.

Record Counters := mkCounters {
  cycleNum : Z;
  clock1Min : Z;
  subcycle : Z;
  daqCycle : Z;
  epicsSync : Z;
  sampleCount : nat;
  ioClock : Z;
  ioMemCntr : Z;
  ioClockDac : Z;
  ioMemCntrDac : Z;
  dacWriteEnable : Z
}.
Definition set_cycleNum (v : Z) (r : Counters) : Counters :=
  mkCounters v (clock1Min r) (subcycle r) (daqCycle r) (epicsSync r) (sampleCount r) (ioClock r)
    (ioMemCntr r) (ioClockDac r) (ioMemCntrDac r) (dacWriteEnable r).
Definition set_clock1Min (v : Z) (r : Counters) : Counters :=
  mkCounters (cycleNum r) v (subcycle r) (daqCycle r) (epicsSync r) (sampleCount r) (ioClock r)
    (ioMemCntr r) (ioClockDac r) (ioMemCntrDac r) (dacWriteEnable r).
Definition set_subcycle (v : Z) (r : Counters) : Counters :=
  mkCounters (cycleNum r) (clock1Min r) v (daqCycle r) (epicsSync r) (sampleCount r) (ioClock r)
    (ioMemCntr r) (ioClockDac r) (ioMemCntrDac r) (dacWriteEnable r).
Definition set_daqCycle (v : Z) (r : Counters) : Counters :=
  mkCounters (cycleNum r) (clock1Min r) (subcycle r) v (epicsSync r) (sampleCount r) (ioClock r)
    (ioMemCntr r) (ioClockDac r) (ioMemCntrDac r) (dacWriteEnable r).
Definition set_epicsSync (v : Z) (r : Counters) : Counters :=
  mkCounters (cycleNum r) (clock1Min r) (subcycle r) (daqCycle r) v (sampleCount r) (ioClock r)
    (ioMemCntr r) (ioClockDac r) (ioMemCntrDac r) (dacWriteEnable r).
Definition set_sampleCount (v : nat) (r : Counters) : Counters :=
  mkCounters (cycleNum r) (clock1Min r) (subcycle r) (daqCycle r) (epicsSync r) v (ioClock r)
    (ioMemCntr r) (ioClockDac r) (ioMemCntrDac r) (dacWriteEnable r).
Definition set_ioClock (v : Z) (r : Counters) : Counters :=
  mkCounters (cycleNum r) (clock1Min r) (subcycle r) (daqCycle r) (epicsSync r) (sampleCount r) v
    (ioMemCntr r) (ioClockDac r) (ioMemCntrDac r) (dacWriteEnable r).
Definition set_ioMemCntr (v : Z) (r : Counters) : Counters :=
  mkCounters (cycleNum r) (clock1Min r) (subcycle r) (daqCycle r) (epicsSync r) (sampleCount r)
    (ioClock r) v (ioClockDac r) (ioMemCntrDac r) (dacWriteEnable r).
Definition set_ioClockDac (v : Z) (r : Counters) : Counters :=
  mkCounters (cycleNum r) (clock1Min r) (subcycle r) (daqCycle r) (epicsSync r) (sampleCount r)
    (ioClock r) (ioMemCntr r) v (ioMemCntrDac r) (dacWriteEnable r).
Definition set_ioMemCntrDac (v : Z) (r : Counters) : Counters :=
  mkCounters (cycleNum r) (clock1Min r) (subcycle r) (daqCycle r) (epicsSync r) (sampleCount r)
    (ioClock r) (ioMemCntr r) (ioClockDac r) v (dacWriteEnable r).
Definition set_dacWriteEnable (v : Z) (r : Counters) : Counters :=
  mkCounters (cycleNum r) (clock1Min r) (subcycle r) (daqCycle r) (epicsSync r) (sampleCount r)
    (ioClock r) (ioMemCntr r) (ioClockDac r) (ioMemCntrDac r) v.

(** The initial values: of the statics and of the locals of [fe_start_controller]. *)
Definition start (r : servo) : Counters := mkCounters 0 0 0 0 0 1 0 0 (DAC_PRELOAD_CNT r) (DAC_PRELOAD_CNT r) 0.

(** Lines 641-667: the counters at the end of a cycle. *)
Definition end_of_cycle (r : servo) (k : Counters) : Counters :=
  let k := set_cycleNum (Z.rem (cycleNum k + 1) (CYCLE_PER_SECOND r)) k in
  let k := set_clock1Min (Z.rem (clock1Min k + 1) (CYCLE_PER_MINUTE r)) k in
  let k := if subcycle k =? DAQ_CYCLE_CHANGE r then
             let k := set_daqCycle (u32 (daqCycle k + 1) mod DAQ_NUM_DATA_BLOCKS_PER_SECOND) k in
             if daqCycle k mod 2 =? 0 then set_epicsSync (s32 (daqCycle k)) k else k
           else k in
  if subcycle k =? END_OF_DAQ_BLOCK r then set_subcycle 0 k else set_subcycle (subcycle k + 1) k.

(** Lines 477-488: the modules whose coefficients are checked in a cycle.
    [i] runs from [smpc] below [MAX_MODULES] and [empc], all [unsigned int]. *)
Definition modules_per_cycle (MAX_MODULES FE_RATE : Z) : Z :=
  Z.quot (MAX_MODULES + Z.quot FE_RATE 16 - 1) (Z.quot FE_RATE 16).
Definition filter_checks (MAX_MODULES FE_RATE sub : Z) : list Z :=
  let mpc := u32 (modules_per_cycle MAX_MODULES FE_RATE) in
  let smpc := u32 (mpc * u32 sub) in
  let empc := u32 (smpc + mpc) in
  seqZ smpc (Z.min MAX_MODULES empc - smpc).

(** Lines 413-418: after [app_dac_write] has given [OVERSAMPLE_TIMES] samples. *)
Definition app_dac_advance (OVERSAMPLE_TIMES IOP_IO_RATE : Z) (k : Counters) : Counters :=
  let k := set_ioClockDac (Z.rem (ioClockDac k + OVERSAMPLE_TIMES) IOP_IO_RATE) k in
  let k := set_ioMemCntrDac (Z.rem (ioMemCntrDac k + OVERSAMPLE_TIMES) IO_MEMORY_SLOTS) k in
  if dacWriteEnable k <? 10 then set_dacWriteEnable (dacWriteEnable k + 1) k else k.

Section reads.
Context {F : Type} `{FloatOps F}.
Context (c : AdcCards) (bd : AppBuild (F := F)) (used : list (list Z)) (rate IOP_IO_RATE : Z).

(** Lines 370-388: the reads of a cycle; [w] is what each of them sees.  The cycle
    is left (the DAC channels given back, the model stopped) if one does not return 0. *)
Definition app_read_sample (w : nat → nat → Watch IoData) (ll : nat) (st : AppAdc (F := F) * Counters)
    : AppAdc (F := F) * Counters * option Outcome :=
  let '(s, k) := st in
  match app_adc_read c bd used rate (ioMemCntr k) (ioClock k) (w ll) s with
  | (Return 0, s) =>
      (s, set_ioMemCntr (Z.rem (ioMemCntr k + 1) IO_MEMORY_SLOTS) (set_ioClock (Z.rem (ioClock k + 1) IOP_IO_RATE) k), None)
  | (r, s) => (s, k, Some r)
  end.

(** Lines 370-392; after the first cycle [OVERSAMPLE_TIMES] samples are taken. *)
Definition app_read_samples (OVERSAMPLE_TIMES : nat) (w : nat → nat → Watch IoData) (st : AppAdc (F := F) * Counters)
    : AppAdc (F := F) * Counters * option Outcome :=
  match for_exit 0 (sampleCount st.2) (app_read_sample w) st with
  | (s, k, None) => (s, set_sampleCount OVERSAMPLE_TIMES k, None)
  | r => r
  end.

(** Whole cycles, as far as samples and counters go: what the model computes with in
    each of them, and the state after them; a read that fails ends the run. *)
Fixpoint model_cycles (r : servo) (OVERSAMPLE_TIMES : nat) (ws : list (nat → nat → Watch IoData)) (st : AppAdc (F := F) * Counters)
    : list (AppAdc (F := F)) * (AppAdc (F := F) * Counters) :=
  match ws with
  | [] => ([], st)
  | w :: ws =>
      match app_read_samples OVERSAMPLE_TIMES w st with
      | (s, k, None) =>
          let k := end_of_cycle r (app_dac_advance (Z.of_nat OVERSAMPLE_TIMES) IOP_IO_RATE k) in
          let '(l, st) := model_cycles r OVERSAMPLE_TIMES ws (s, k) in (s :: l, st)
      | (s, k, Some _) => ([], (s, k))
      end
  end.
End reads.

(** ** Where the counters are *)
Definition cycles (r : servo) (n : nat) (k : Counters) : Counters := Nat.iter n (end_of_cycle r) k.

(** Cycles of a block of data acquisition. *)
Definition block_cycles (r : servo) : Z := END_OF_DAQ_BLOCK r + 1.

Lemma rate_pos r : 0 < CYCLE_PER_SECOND r ∧ 0 < CYCLE_PER_MINUTE r ∧ 0 < block_cycles r ∧ 0 <= DAQ_CYCLE_CHANGE r < block_cycles r.
Proof. by destruct r. Qed.

Lemma mod_step (n : nat) m : 0 < m → Z.rem (Z.of_nat n mod m + 1) m = Z.of_nat (S n) mod m.
Proof.
  intros Hm. pose proof (Z.mod_pos_bound (Z.of_nat n) m Hm). rewrite Z.rem_mod_nonneg by lia.
  rewrite Zplus_mod_idemp_l. f_equal. lia.
Qed.

(** A counter that goes back to 0 from [m - 1]. *)
Lemma wrap_step (n : nat) m :
  0 < m → (if Z.of_nat n mod m =? m - 1 then 0 else Z.of_nat n mod m + 1) = Z.of_nat (S n) mod m.
Proof.
  intros Hm. pose proof (Z.mod_pos_bound (Z.of_nat n) m Hm). pose proof (Z.div_mod (Z.of_nat n) m ltac:(lia)).
  destruct (Z.eqb_spec (Z.of_nat n mod m) (m - 1)).
  - symmetry. apply Z.mod_divide; [lia|]. exists (Z.of_nat n / m + 1). lia.
  - apply (Z.mod_unique_pos _ _ (Z.of_nat n / m)); lia.
Qed.

(** How often a counter of period [m] has left the value [a]. *)
Lemma passes_step (n : nat) m a :
  0 <= a < m →
  (Z.of_nat (S n) + m - 1 - a) / m = (Z.of_nat n + m - 1 - a) / m + (if Z.of_nat n mod m =? a then 1 else 0).
Proof.
  intros Ha. pose proof (Z.div_mod (Z.of_nat n) m ltac:(lia)). pose proof (Z.mod_pos_bound (Z.of_nat n) m ltac:(lia)).
  set (q := Z.of_nat n / m) in *. set (x := Z.of_nat n mod m) in *.
  assert (E1 : (Z.of_nat (S n) + m - 1 - a) / m = q + (if a <? x + 1 then 1 else 0)).
  { symmetry. destruct (Z.ltb_spec a (x + 1)).
    - apply (Z.div_unique_pos _ _ _ (x - a)); lia.
    - apply (Z.div_unique_pos _ _ _ (x + m - a)); lia. }
  assert (E2 : (Z.of_nat n + m - 1 - a) / m = q + (if a <? x then 1 else 0)).
  { symmetry. destruct (Z.ltb_spec a x).
    - apply (Z.div_unique_pos _ _ _ (x - a - 1)); lia.
    - apply (Z.div_unique_pos _ _ _ (x + m - a - 1)); lia. }
  rewrite E1, E2. destruct (Z.ltb_spec a (x + 1)), (Z.ltb_spec a x), (Z.eqb_spec x a); lia.
Qed.

Lemma counters_after r n k0 :
  cycleNum k0 = 0 → clock1Min k0 = 0 → subcycle k0 = 0 → daqCycle k0 = 0 →
  let k := cycles r n k0 in
  cycleNum k = Z.of_nat n mod CYCLE_PER_SECOND r ∧ clock1Min k = Z.of_nat n mod CYCLE_PER_MINUTE r ∧
  subcycle k = Z.of_nat n mod block_cycles r ∧
  daqCycle k = ((Z.of_nat n + block_cycles r - 1 - DAQ_CYCLE_CHANGE r) / block_cycles r) mod 16.
Proof.
  intros E1 E2 E3 E4. cbv zeta. destruct (rate_pos r) as (Hs & Hm & Hb & Hc).
  induction n as [|n IH].
  - cbn [cycles Nat.iter nat_rect]. rewrite E1, E2, E3, E4. destruct r; vm_compute; split_and!; reflexivity.
  - change (cycles r (S n) k0) with (end_of_cycle r (cycles r n k0)).
    set (k := cycles r n k0) in *. clearbody k. destruct IH as (I1 & I2 & I3 & I4).
    pose proof (mod_step n _ Hs) as M1. pose proof (mod_step n _ Hm) as M2. pose proof (wrap_step n _ Hb) as M3.
    pose proof (passes_step n _ _ Hc) as M4. rewrite <- I1 in M1. rewrite <- I2 in M2. rewrite <- I3 in M3, M4.
    replace (block_cycles r - 1) with (END_OF_DAQ_BLOCK r) in M3 by (unfold block_cycles; lia).
    rewrite <- M1, <- M2, <- M3, M4. unfold end_of_cycle.
    cbn [subcycle set_clock1Min set_cycleNum daqCycle set_daqCycle epicsSync clock1Min].
    set (p := (Z.of_nat n + block_cycles r - 1 - DAQ_CYCLE_CHANGE r) / block_cycles r) in *.
    assert (Hd : u32 (daqCycle k + 1) mod 16 = (p + 1) mod 16).
    { rewrite I4. pose proof (Z.mod_pos_bound p 16 ltac:(lia)). rewrite wrap_small by lia. by rewrite Zplus_mod_idemp_l. }
    unfold DAQ_NUM_DATA_BLOCKS_PER_SECOND. rewrite Hd.
    destruct (subcycle k =? DAQ_CYCLE_CHANGE r); [|rewrite Z.add_0_r];
      [destruct ((p + 1) mod 16 mod 2 =? 0)|]; cbn [subcycle set_daqCycle set_epicsSync set_clock1Min set_cycleNum];
      destruct (subcycle k =? END_OF_DAQ_BLOCK r); done.
Qed.

Lemma mod_of_mod n a b : 0 < a → 0 < b → (n mod (a * b)) mod b = n mod b.
Proof.
  intros Ha Hb. rewrite Z.mul_comm, Z.rem_mul_r by lia. rewrite Z.mul_comm, Z_mod_plus_full. by rewrite Zmod_mod.
Qed.

(** C35: In a build whose block of data acquisition is a sixteenth of a second (every
    rate from 2048 to 131072 Hz), the blocks never lose step with the second: at any
    time the cycle within the block and the number of the block are functions of the cycle
    within the second, sixteen blocks to the second. *)
Theorem daq_blocks_in_step r n k0 :
  block_cycles r * 16 = CYCLE_PER_SECOND r →
  cycleNum k0 = 0 → clock1Min k0 = 0 → subcycle k0 = 0 → daqCycle k0 = 0 →
  let k := cycles r n k0 in
  subcycle k = cycleNum k mod block_cycles r ∧
  daqCycle k = ((cycleNum k + block_cycles r - 1 - DAQ_CYCLE_CHANGE r) / block_cycles r) mod 16 ∧
  0 <= cycleNum k < CYCLE_PER_SECOND r.
Proof.
  intros Hb E1 E2 E3 E4. cbv zeta. destruct (rate_pos r) as (Hs & _ & Hbl & _).
  destruct (counters_after r n k0 E1 E2 E3 E4) as (-> & _ & -> & ->). rewrite <- Hb, (Z.mul_comm _ 16).
  split; [by rewrite mod_of_mod by lia|]. split; [|apply Z.mod_pos_bound; lia].
  set (b := block_cycles r) in *. set (a := b - 1 - DAQ_CYCLE_CHANGE r). set (x := Z.of_nat n).
  replace (x mod (16 * b) + b - 1 - DAQ_CYCLE_CHANGE r) with (x mod (16 * b) + a) by lia.
  replace (x + b - 1 - DAQ_CYCLE_CHANGE r) with (x + a) by lia.
  pose proof (Z.div_mod x (16 * b) ltac:(lia)) as Hx.
  replace (x + a) with (x mod (16 * b) + a + (16 * (x / (16 * b))) * b) by lia.
  rewrite Z.div_add by lia. by rewrite (Z.mul_comm 16 (x / _)), Z_mod_plus_full.
Qed.

Lemma daq_blocks_in_step_witness :
  block_cycles SERVO16K * 16 = CYCLE_PER_SECOND SERVO16K ∧
  let k := cycles SERVO16K 3000 (start SERVO16K) in
  subcycle k = 3000 mod 1024 ∧ daqCycle k = 3.
Proof.
  split; [done|]. cbv zeta.
  destruct (daq_blocks_in_step SERVO16K 3000 (start SERVO16K)) as (H1 & H2 & _); [done..|].
  assert (E : cycleNum (cycles SERVO16K 3000 (start SERVO16K)) = 3000) by by vm_compute.
  rewrite E in H1, H2. split; [exact H1|]. etransitivity; [exact H2|]. vm_compute. reflexivity.
Defined.

(** At 262144 Hz a block is one cycle short of a sixteenth of a second, so that the
    start of the blocks moves by sixteen cycles in every second; at 524288 and 1048576
    Hz a block is half a million cycles, and only one, or two, of the sixteen blocks of a
    second are ever started in it. *)
Theorem daq_blocks_out_of_step (seconds : nat) :
  let at_second r := cycles r (seconds * Z.to_nat (CYCLE_PER_SECOND r)) (start r) in
  (∀ r, cycleNum (at_second r) = 0) ∧
  subcycle (at_second SERVO256K) = (16 * Z.of_nat seconds) mod 16383 ∧
  daqCycle (at_second SERVO512K) = Z.of_nat seconds mod 16 ∧
  daqCycle (at_second SERVO1024K) = (2 * Z.of_nat seconds) mod 16.
Proof.
  intros at_second.
  assert (Ha : ∀ r, Z.of_nat (seconds * Z.to_nat (CYCLE_PER_SECOND r)) = Z.of_nat seconds * CYCLE_PER_SECOND r).
  { intros r. rewrite Nat2Z.inj_mul, Z2Nat.id; [done|]. destruct (rate_pos r). lia. }
  assert (Hk : ∀ r, let k := at_second r in _) by (intros r; exact (counters_after r _ (start r) eq_refl eq_refl eq_refl eq_refl)).
  cbv zeta in Hk. split_and!.
  - intros r. destruct (Hk r) as [-> _]. rewrite Ha. apply Z_mod_mult.
  - destruct (Hk SERVO256K) as (_ & _ & -> & _). rewrite Ha. unfold block_cycles, END_OF_DAQ_BLOCK, CYCLE_PER_SECOND.
    replace (Z.of_nat seconds * (256 * 1024)) with (16 * Z.of_nat seconds + 16 * Z.of_nat seconds * (2 * 8191 + 1)) by lia.
    by rewrite Z_mod_plus_full.
  - destruct (Hk SERVO512K) as (_ & _ & _ & ->). rewrite Ha. unfold block_cycles, END_OF_DAQ_BLOCK, CYCLE_PER_SECOND, DAQ_CYCLE_CHANGE.
    replace (Z.of_nat seconds * (512 * 1024) + (524287 + 1) - 1 - 32 * 8000)
      with (524287 - 32 * 8000 + Z.of_nat seconds * (524287 + 1)) by lia.
    by rewrite Z.div_add by lia.
  - destruct (Hk SERVO1024K) as (_ & _ & _ & ->). rewrite Ha. unfold block_cycles, END_OF_DAQ_BLOCK, CYCLE_PER_SECOND, DAQ_CYCLE_CHANGE.
    replace (Z.of_nat seconds * (1024 * 1024) + (524287 + 1) - 1 - 32 * 8000)
      with (524287 - 32 * 8000 + (2 * Z.of_nat seconds) * (524287 + 1)) by lia.
    by rewrite Z.div_add by lia.
Qed.

(** ** Reload checks *)
Lemma checks_of_cycle M R sub :
  let mpc := modules_per_cycle M R in
  0 <= M < 2 ^ 31 → 0 <= mpc → 0 <= sub → mpc * (sub + 1) < 2 ^ 32 →
  filter_checks M R sub = seqZ (mpc * sub) (Z.min M (mpc * (sub + 1)) - mpc * sub).
Proof.
  intros mpc HM Hm Hs Hb. unfold filter_checks. fold mpc.
  assert (mpc <= mpc * (sub + 1)) by nia. assert (sub < 2 ^ 32 ∨ mpc = 0) as [Hsub| ->] by nia.
  - rewrite (wrap_small 32 mpc), (wrap_small 32 sub) by lia. rewrite (wrap_small 32 (mpc * sub)) by nia.
    rewrite wrap_small by nia. by replace (mpc * sub + mpc) with (mpc * (sub + 1)) by lia.
  - change (u32 0) with 0. rewrite !Z.mul_0_l. change (u32 (u32 0 + 0)) with 0. change (u32 0) with 0. done.
Qed.

Lemma checks_of_cycles M R (n : nat) :
  let mpc := modules_per_cycle M R in
  0 <= M < 2 ^ 31 → 0 <= mpc → mpc * Z.of_nat n < 2 ^ 32 →
  concat (map (filter_checks M R) (seqZ 0 (Z.of_nat n))) = seqZ 0 (Z.min M (mpc * Z.of_nat n)).
Proof.
  intros mpc HM Hm. induction n as [|n IH]; intros Hb.
  - rewrite seqZ_nil by lia. rewrite Z.mul_0_r, Z.min_r by lia. by rewrite seqZ_nil by lia.
  - replace (Z.of_nat (S n)) with (Z.of_nat n + 1) in * by lia.
    rewrite seqZ_app, map_app, concat_app, IH by nia. rewrite (seqZ_cons _ 1) by lia. rewrite (seqZ_nil _ (Z.pred 1)) by lia.
    cbn [map concat]. rewrite app_nil_r, Z.add_0_l. rewrite checks_of_cycle by (fold mpc; lia). fold mpc.
    destruct (Z.le_gt_cases M (mpc * Z.of_nat n)).
    + rewrite (Z.min_l M (mpc * Z.of_nat n)), (Z.min_l M (mpc * (Z.of_nat n + 1))) by nia.
      rewrite (seqZ_nil (mpc * Z.of_nat n)) by lia. by rewrite app_nil_r.
    + rewrite (Z.min_r M (mpc * Z.of_nat n)) by lia.
      replace (Z.min M (mpc * (Z.of_nat n + 1))) with (mpc * Z.of_nat n + (Z.min M (mpc * (Z.of_nat n + 1)) - mpc * Z.of_nat n)) at 2 by lia.
      rewrite seqZ_app by nia. by rewrite Z.add_0_l.
Qed.

(** In every block of data acquisition each filter module is checked for a
    reload exactly once, in order, and no other number is, at every rate and for any
    number of modules that the cycles of a block can take. *)
Theorem module_checks_once r MAX_MODULES FE_RATE :
  0 <= MAX_MODULES < 2 ^ 31 → 16 <= FE_RATE →
  let mpc := modules_per_cycle MAX_MODULES FE_RATE in
  MAX_MODULES <= mpc * block_cycles r < 2 ^ 32 →
  concat (map (filter_checks MAX_MODULES FE_RATE) (seqZ 0 (block_cycles r))) = seqZ 0 MAX_MODULES.
Proof.
  intros HM HR mpc Hb. destruct (rate_pos r) as (_ & _ & Hbl & _).
  assert (0 < Z.quot FE_RATE 16) by (rewrite Z.quot_div_nonneg by lia; apply Z.div_str_pos; lia).
  assert (0 <= mpc) by (subst mpc; unfold modules_per_cycle; apply Z.quot_pos; lia).
  rewrite <- (Z2Nat.id (block_cycles r)) by lia. rewrite checks_of_cycles; fold mpc; rewrite ?Z2Nat.id by lia; [|lia..].
  by rewrite Z.min_l by lia.
Qed.

Lemma module_checks_once_witness :
  modules_per_cycle 300 2048 = 3 ∧
  concat (map (filter_checks 300 2048) (seqZ 0 128)) = seqZ 0 300 ∧ filter_checks 300 2048 99 = [297; 298; 299].
Proof.
  split; [done|]. split; [|done]. apply (module_checks_once SERVO2K 300 2048); vm_compute; intuition congruence.
Defined.

(** ** The samples a model takes *)
Section Samples.
Context {F : Type} `{FloatOps F}.
Context (c : AdcCards) (bd : AppBuild (F := F)) (used : list (list Z)) (rate IOP_IO_RATE : Z) (OS : nat).
Context (Hio : 0 < IOP_IO_RATE).

(** Sample number [i] since the start comes from this slot and carries this cycle of the IOP. *)
Definition nth_call (i : nat) (w : nat → Watch IoData) : Call :=
  mkCall (Z.of_nat i mod IO_MEMORY_SLOTS) (Z.of_nat i mod IOP_IO_RATE) w.
Definition cycle_calls (i n : nat) (w : nat → nat → Watch IoData) : list Call :=
  map (λ l, nth_call (i + l) (w l)) (seq 0 n).
Fixpoint all_calls (i n : nat) (ws : list (nat → nat → Watch IoData)) : list Call :=
  match ws with
  | [] => []
  | w :: ws => cycle_calls i n w ++ all_calls (i + n) OS ws
  end.

Definition at_sample (i : nat) (k : Counters) : Prop :=
  ioClock k = Z.of_nat i mod IOP_IO_RATE ∧ ioMemCntr k = Z.of_nat i mod IO_MEMORY_SLOTS.

Lemma run_reads_app ks1 ks2 s :
  run_reads c bd used rate (ks1 ++ ks2) s =
  run_reads c bd used rate ks1 s ++ run_reads c bd used rate ks2 (after c bd used rate ks1 s).
Proof.
  revert s. induction ks1 as [|k ks1 IH]; intros s; [done|]. rewrite after_cons. cbn [app run_reads].
  destruct (app_adc_read _ _ _ _ _ _ _ s) as [r s']. cbn [app snd]. by rewrite IH.
Qed.

Lemma after_app ks1 ks2 s : after c bd used rate (ks1 ++ ks2) s = after c bd used rate ks2 (after c bd used rate ks1 s).
Proof. revert s. induction ks1 as [|k ks1 IH]; intros s; [done|]. cbn [app]. by rewrite !after_cons, IH. Qed.

Lemma cycle_calls_S i n w : cycle_calls i (S n) w = cycle_calls i n w ++ [nth_call (i + n) (w n)].
Proof. unfold cycle_calls. by rewrite seq_S, map_app. Qed.

(** A cycle's reads, when none fails. *)
Lemma reads_of_cycle w i n (s : AppAdc (F := F)) k :
  at_sample i k →
  let r := for_exit 0 n (app_read_sample c bd used rate IOP_IO_RATE w) (s, k) in
  r.2 = None →
  r.1.1 = after c bd used rate (cycle_calls i n w) s ∧ at_sample (i + n) r.1.2 ∧ sampleCount r.1.2 = sampleCount k ∧
  ∀ rs, rs ∈ run_reads c bd used rate (cycle_calls i n w) s → rs.1 = Return 0.
Proof.
  intros Hk. cbv zeta. intros Hn.
  destruct (for_exit_done (λ l st, st.1 = after c bd used rate (cycle_calls i l w) s ∧ at_sample (i + l) st.2 ∧
      sampleCount st.2 = sampleCount k ∧ ∀ rs, rs ∈ run_reads c bd used rate (cycle_calls i l w) s → rs.1 = Return 0)
    (app_read_sample c bd used rate IOP_IO_RATE w) 0 n (s, k)) as (H1 & H2 & H3 & H4); [| |exact Hn|done].
  - cbn. rewrite Nat.add_0_r. split_and!; [done..|]. by intros rs ?%not_elem_of_nil.
  - intros l [s1 k1] _ (E & [Hc Hm] & Hs & Hall) Hok. cbn [fst snd] in *. subst s1. unfold app_read_sample in *.
    set (s1 := after c bd used rate (cycle_calls i l w) s) in *.
    rewrite cycle_calls_S, after_app, after_cons, run_reads_app. fold s1. cbn [after run_reads last fmap option_fmap option_map default].
    unfold nth_call. cbn [k_ctr k_clk k_watch]. rewrite Hm, Hc in *.
    destruct (app_adc_read c bd used rate _ _ (w l) s1) as [[|[| |]] s2] eqn:Er; try done. cbn [fst snd].
    split; [done|]. split; [|split; [done|]].
    + unfold at_sample. cbn [ioClock ioMemCntr set_ioMemCntr set_ioClock]. rewrite !mod_step by (done || lia).
      by rewrite Nat.add_succ_r.
    + intros rs [Hin|Hin]%elem_of_app; [by apply Hall|]. by apply list_elem_of_singleton in Hin as ->.
Qed.

Lemma model_cycles_calls r ws i (s : AppAdc (F := F)) k :
  at_sample i k → length (model_cycles c bd used rate IOP_IO_RATE r OS ws (s, k)).1 = length ws →
  let ks := all_calls i (sampleCount k) ws in
  (∀ rs, rs ∈ run_reads c bd used rate ks s → rs.1 = Return 0) ∧
  ∀ j s', (model_cycles c bd used rate IOP_IO_RATE r OS ws (s, k)).1 !! j = Some s' →
    s' = after c bd used rate (take (sampleCount k + j * OS) ks) s.
Proof.
  revert i s k. induction ws as [|w ws IH]; intros i s k Hk Hlen; cbv zeta.
  { split; [by intros rs ?%not_elem_of_nil|]. by intros [|j] s'. }
  cbn [model_cycles all_calls length] in *. unfold app_read_samples in *. cbn [fst snd] in *.
  pose proof (reads_of_cycle w i (sampleCount k) s k Hk) as Hr. cbv zeta in Hr.
  destruct (for_exit 0 (sampleCount k) _ (s, k)) as [[s1 k1] [o|]]; cbn [fst snd] in *; [done|].
  destruct Hr as (-> & Hk1 & _ & Hall); [done|]. set (s1 := after c bd used rate (cycle_calls i (sampleCount k) w) s) in *.
  set (k2 := end_of_cycle r _) in *.
  assert (Hk2 : at_sample (i + sampleCount k) k2 ∧ sampleCount k2 = OS).
  { subst k2. unfold end_of_cycle, app_dac_advance. cbn [dacWriteEnable set_ioMemCntrDac set_ioClockDac set_sampleCount].
    destruct (dacWriteEnable k1 <? 10); cbn [set_dacWriteEnable set_clock1Min set_cycleNum subcycle daqCycle set_daqCycle set_ioMemCntrDac set_ioClockDac set_sampleCount];
      destruct (subcycle k1 =? DAQ_CYCLE_CHANGE r); try destruct (_ mod 2 =? 0);
      cbn [subcycle set_epicsSync set_daqCycle set_clock1Min set_cycleNum]; destruct (_ =? END_OF_DAQ_BLOCK r); done. }
  destruct Hk2 as [Hk2 Hos]. clearbody k2.
  specialize (IH (i + sampleCount k)%nat s1 k2 Hk2). cbv zeta in IH. rewrite Hos in IH.
  destruct (model_cycles c bd used rate IOP_IO_RATE r OS ws (s1, k2)) as [l st]. cbn [fst length] in *.
  destruct IH as [IH1 IH2]; [by injection Hlen|]. 
  assert (Hcl : length (cycle_calls i (sampleCount k) w) = sampleCount k) by (unfold cycle_calls; by rewrite length_map, length_seq).
  split.
  - intros rs. rewrite run_reads_app. intros [Hin|Hin]%elem_of_app; [by apply Hall|by apply IH1].
  - intros [|j] s'; cbn [lookup list_lookup].
    + intros [= <-]. rewrite Nat.mul_0_l, Nat.add_0_r. by rewrite take_app_length'.
    + intros Hj. rewrite (IH2 j s' Hj). replace (sampleCount k + S j * OS)%nat with (sampleCount k + (OS + j * OS))%nat by lia.
      rewrite take_app_ge by lia. rewrite Hcl, after_app.
      by replace (sampleCount k + (OS + j * OS) - sampleCount k)%nat with (OS + j * OS)%nat by lia.
Qed.

Lemma all_calls_length i n ws : length (all_calls i n ws) = match ws with [] => 0%nat | _ :: ws => (n + length ws * OS)%nat end.
Proof.
  revert i n. induction ws as [|w ws IH]; intros i n; [done|]. cbn [all_calls]. rewrite length_app, IH.
  unfold cycle_calls. rewrite length_map, length_seq. destruct ws; simpl; lia.
Qed.

Lemma all_calls_lookup i n ws j k :
  all_calls i n ws !! j = Some k → ∃ w ll, w ∈ ws ∧ k = nth_call (i + j) (w ll).
Proof.
  revert i n j. induction ws as [|w ws IH]; intros i n j; [by destruct j|]. cbn [all_calls].
  intros [Hl|[Hge Hl]]%lookup_app_Some.
  - unfold cycle_calls in Hl. apply list_lookup_fmap_Some in Hl as (ll & -> & Hll). apply lookup_seq in Hll as [-> _].
    exists w, j. split; [by left|done].
  - unfold cycle_calls in *. rewrite length_map, length_seq in *. apply IH in Hl as (w' & ll & Hw & ->). exists w', ll.
    split; [by right|]. f_equal. lia.
Qed.

Lemma after_take ks s m rs :
  run_reads c bd used rate ks s !! m = Some rs → after c bd used rate (take (S m) ks) s = rs.2.
Proof.
  revert s m. induction ks as [|k ks IH]; intros s m; [by destruct m|]. rewrite firstn_cons, after_cons. cbn [run_reads].
  destruct (app_adc_read _ _ _ _ _ _ _ s) as [r s1]. cbn [snd]. destruct m as [|m].
  - intros [= <-]. done.
  - intros Hm. by apply IH.
Qed.
Lemma run_reads_length ks s : length (run_reads c bd used rate ks s) = length ks.
Proof.
  revert s. induction ks as [|k ks IH]; intros s; [done|]. cbn [run_reads].
  destruct (app_adc_read _ _ _ _ _ _ _ s). cbn [length]. by rewrite IH.
Qed.
End Samples.

(** C7: A control model misses no sample and takes none twice.  However many
    cycles it runs, as long as no read fails, number [i] of the samples [xs] it takes comes,
    for each of its channels, from a block that carries cycle [i] (modulo the rate) of the
    IOP; in its cycle [j] it computes, for a channel, with what the filter of the
    channel's row of memory gives for sample number [j * OVERSAMPLE_TIMES] of the
    channel: the filter runs from the start on over all samples, the channels that have the
    row in common one after the other ([channel_words]).  A channel alone in its row
    ([own_history], as in every model whose cards have the same number of channels)
    gets every [OVERSAMPLE_TIMES]th output of one filter over its own samples. *)
Theorem model_takes_every_sample {F} `{FloatOps F} r (c : AdcCards) (bd : AppBuild (F := F)) used rate IOP_IO_RATE OS ws s :
  0 < IOP_IO_RATE → app_wf s → (adcCount c <= MAX_ADC_MODULES)%nat →
  let l := (model_cycles c bd used rate IOP_IO_RATE r OS ws (s, start r)).1 in
  length l = length ws →
  ∃ xs : list (nat * nat → Z),
    (∀ i x jj ii, xs !! i = Some x → (jj, ii) ∈ channels_read c → ∃ w ll t d, w ∈ ws ∧ (t, d) ∈ polls (w ll jj) ∧
       let b := d (adcConfig c !!! jj) (Z.of_nat i mod IO_MEMORY_SLOTS) in
       bcycle b = Z.of_nat i mod IOP_IO_RATE ∧ x (jj, ii) = sample_of bd (bdata b !!! ii)) ∧
    ∀ j s', l !! j = Some s' → (j * OS < length xs)%nat ∧
      ∀ jj ii, (jj, ii) ∈ channels_read c →
        let h := dHistory s !!! hist_row c jj ii in
        (dWord s' !!! jj) !!! ii = channel_words c bd used jj ii xs h !!! (j * OS)%nat ∧
        (own_history c bd used jj ii →
         (dWord s' !!! jj) !!! ii = words_of bd used jj ii (of_channel jj ii xs) h !!! (j * OS)%nat).
Proof.
  intros Hio Hwf Hc l Hl.
  destruct (model_cycles_calls c bd used rate IOP_IO_RATE OS Hio r ws 0 s (start r)) as [Hall Hst]; [done|exact Hl|].
  change (sampleCount (start r)) with 1%nat in *. set (ks := all_calls IOP_IO_RATE OS 0 1 ws) in *.
  pose proof (λ jj ii Hin, run_view c bd used rate jj ii ks s Hwf Hc Hin Hall) as Hv.
  exists (run_samples c bd rate ks). split.
  - intros i x jj ii Hx Hin. apply list_lookup_fmap_Some in Hx as (k & -> & Hk).
    destruct (Hv jj ii Hin) as (Ht & _). pose proof (Ht k (jj, ii) (list_elem_of_lookup_2 _ _ _ Hk) Hin) as Ek.
    apply taken_fresh in Ek as (t & d & Hp & Hcy & Ex). cbn [fst snd] in *.
    apply all_calls_lookup in Hk as (w & ll & Hws & ->). exists w, ll, t, d. done.
  - intros j s' Hj. pose proof (Hst j s' Hj) as ->. apply lookup_lt_Some in Hj. rewrite Hl in Hj.
    assert (Hlt : (j * OS < length ks)%nat).
    { unfold ks. rewrite all_calls_length. destruct ws as [|w ws]; simpl in Hj; [lia|]. nia. }
    split; [unfold run_samples; by rewrite length_map|]. intros jj ii Hin h. destruct (Hv jj ii Hin) as (_ & _ & Hw & _).
    destruct (lookup_lt_is_Some_2 (run_reads c bd used rate ks s) (j * OS)) as [rs Hrs]; [by rewrite run_reads_length|].
    change (1 + j * OS)%nat with (S (j * OS)). rewrite (after_take c bd used rate ks s (j * OS) rs Hrs).
    assert (E : (dWord rs.2 !!! jj) !!! ii = channel_words c bd used jj ii (run_samples c bd rate ks) h !!! (j * OS)%nat).
    { change h with (c_hist (chan_view c jj ii s)). rewrite <- Hw.
      symmetry. apply list_lookup_total_correct. by rewrite list_lookup_fmap, Hrs. }
    split; [exact E|]. intros Hown. by rewrite E, (own_history_words c bd used).
Qed.

(** Three cycles of a 16384 Hz model: it computes after samples 0, 4 and 8. *)
Lemma model_takes_every_sample_witness :
  let c := mkAdcCards 2 [0; 0] [0; 1] [32; 32] in
  let mem : IoData := λ m sl, mkBlock 1000 sl (replicate 32 (1000 * m + sl)) in
  let w (ll card : nat) := mkWatch 0 [(100, mem)] in
  let l := (model_cycles c demo_build demo_used 3000 65536 SERVO16K 4 [w; w; w] (demo_app, start SERVO16K)).1 in
  map (λ s', (adcData (adcinfo s') !!! 1%nat) !!! 3%nat) l = [1000; 1004; 1008] ∧
  ∃ xs, (8 < length xs)%nat ∧ ∀ s', l !! 2%nat = Some s' →
    (dWord s' !!! 1%nat) !!! 3%nat = words_of demo_build demo_used 1 3 xs (replicate 4 (fofZ 0)) !!! 8%nat.
Proof.
  intros c mem w l. assert (E : map (λ s', (adcData (adcinfo s') !!! 1%nat) !!! 3%nat) l = [1000; 1004; 1008]) by by vm_compute.
  split; [exact E|].
  destruct (model_takes_every_sample SERVO16K c demo_build demo_used 3000 65536 4 [w; w; w] demo_app) as (xs & _ & Hv).
  - done.
  - exact demo_app_wf.
  - apply Nat.leb_le. by vm_compute.
  - change (length l = 3%nat). apply (f_equal length) in E. by rewrite length_map in E.
  - fold l in Hv. apply (f_equal length) in E. rewrite length_map in E.
    destruct (lookup_lt_is_Some_2 l 2) as [s2 Hs2]; [rewrite E; simpl; lia|].
    exists (of_channel 1 3 xs). split; [unfold of_channel; rewrite length_map; exact (proj1 (Hv 2%nat s2 Hs2))|]. intros s' Hs'.
    apply (proj2 (Hv 2%nat s' Hs') 1%nat 3%nat).
    + apply channels_read_spec. split; [simpl; lia|]. split; [done|apply Nat.ltb_lt; by vm_compute].
    + apply own_history_same; [apply Nat.ltb_lt; by vm_compute|]. intros [|[|j]] Hj _; [done..|simpl in Hj; lia].
Defined.
End Cycle.
