(* ===== verification/Timing.v ===== *)
(** * Timing diagnostics ([src/fe/timing.c])

    At the end of every cycle a front end measures the time the cycle took and the
    time since the previous ADC read; once a second it reports the extremes and the mean.
    The IOP also fits a line to twelve samples of the duotone signal to find the time
    of its zero crossing.

    - [timing_diag_t], [AdcHold], [TimingOut]: the data;
    - [captureEocTiming], [end_of_cycle_times], [sendTimingDiags2Epics];
    - [duotime];
    - theorems: what a report shows of the cycles before it, and what the fit computes. *)
From Stdlib Require Import SpecFloat Reals Lra.
From S2P Require Import Prelude CFloat Iir FilterModule Dac Adc.

Module Timing.

(** [timing_diag_t], the hold times of [adcInfo_t], and what is published. *)
Record timing_diag_t := mkTiming {
  cpuTimeEverMax : Z;
  cpuTimeEverMaxWhen : Z;
  ti_startGpsTime : Z;
  usrTime : Z;
  usrHoldTime : Z;
  cycleTime : Z;
  timeHold : Z;
  timeHoldHold : Z;
  timeHoldWhen : Z;
  timeHoldWhenHold : Z;
  timeHoldMax : Z
}.
Record AdcHold := mkHold {
  adcTime : Z;
  adcHoldTime : Z;
  adcHoldTimeMax : Z;
  adcHoldTimeEverMax : Z;
  adcHoldTimeEverMaxWhen : Z;
  adcHoldTimeMin : Z;
  adcHoldTimeAvg : Z;
  adcHoldTimeAvgPerSec : Z
}.
Record TimingOut := mkTimingOut {
  cpuMeter : Z;
  cpuMeterMax : Z;
  userTime : Z;
  adcWaitTime : Z;
  adcWaitMin : Z;
  adcWaitMax : Z
}.
Definition set_cpuTimeEverMax (v : Z) (r : timing_diag_t) : timing_diag_t :=
  mkTiming v (cpuTimeEverMaxWhen r) (ti_startGpsTime r) (usrTime r) (usrHoldTime r) (cycleTime r)
    (timeHold r) (timeHoldHold r) (timeHoldWhen r) (timeHoldWhenHold r) (timeHoldMax r).
Definition set_cpuTimeEverMaxWhen (v : Z) (r : timing_diag_t) : timing_diag_t :=
  mkTiming (cpuTimeEverMax r) v (ti_startGpsTime r) (usrTime r) (usrHoldTime r) (cycleTime r)
    (timeHold r) (timeHoldHold r) (timeHoldWhen r) (timeHoldWhenHold r) (timeHoldMax r).
Definition set_ti_startGpsTime (v : Z) (r : timing_diag_t) : timing_diag_t :=
  mkTiming (cpuTimeEverMax r) (cpuTimeEverMaxWhen r) v (usrTime r) (usrHoldTime r) (cycleTime r)
    (timeHold r) (timeHoldHold r) (timeHoldWhen r) (timeHoldWhenHold r) (timeHoldMax r).
Definition set_usrTime (v : Z) (r : timing_diag_t) : timing_diag_t :=
  mkTiming (cpuTimeEverMax r) (cpuTimeEverMaxWhen r) (ti_startGpsTime r) v (usrHoldTime r) (cycleTime r)
    (timeHold r) (timeHoldHold r) (timeHoldWhen r) (timeHoldWhenHold r) (timeHoldMax r).
Definition set_usrHoldTime (v : Z) (r : timing_diag_t) : timing_diag_t :=
  mkTiming (cpuTimeEverMax r) (cpuTimeEverMaxWhen r) (ti_startGpsTime r) (usrTime r) v (cycleTime r)
    (timeHold r) (timeHoldHold r) (timeHoldWhen r) (timeHoldWhenHold r) (timeHoldMax r).
Definition set_cycleTime (v : Z) (r : timing_diag_t) : timing_diag_t :=
  mkTiming (cpuTimeEverMax r) (cpuTimeEverMaxWhen r) (ti_startGpsTime r) (usrTime r) (usrHoldTime r) v
    (timeHold r) (timeHoldHold r) (timeHoldWhen r) (timeHoldWhenHold r) (timeHoldMax r).
Definition set_timeHold (v : Z) (r : timing_diag_t) : timing_diag_t :=
  mkTiming (cpuTimeEverMax r) (cpuTimeEverMaxWhen r) (ti_startGpsTime r) (usrTime r) (usrHoldTime r)
    (cycleTime r) v (timeHoldHold r) (timeHoldWhen r) (timeHoldWhenHold r) (timeHoldMax r).
Definition set_timeHoldHold (v : Z) (r : timing_diag_t) : timing_diag_t :=
  mkTiming (cpuTimeEverMax r) (cpuTimeEverMaxWhen r) (ti_startGpsTime r) (usrTime r) (usrHoldTime r)
    (cycleTime r) (timeHold r) v (timeHoldWhen r) (timeHoldWhenHold r) (timeHoldMax r).
Definition set_timeHoldWhen (v : Z) (r : timing_diag_t) : timing_diag_t :=
  mkTiming (cpuTimeEverMax r) (cpuTimeEverMaxWhen r) (ti_startGpsTime r) (usrTime r) (usrHoldTime r)
    (cycleTime r) (timeHold r) (timeHoldHold r) v (timeHoldWhenHold r) (timeHoldMax r).
Definition set_timeHoldWhenHold (v : Z) (r : timing_diag_t) : timing_diag_t :=
  mkTiming (cpuTimeEverMax r) (cpuTimeEverMaxWhen r) (ti_startGpsTime r) (usrTime r) (usrHoldTime r)
    (cycleTime r) (timeHold r) (timeHoldHold r) (timeHoldWhen r) v (timeHoldMax r).
Definition set_timeHoldMax (v : Z) (r : timing_diag_t) : timing_diag_t :=
  mkTiming (cpuTimeEverMax r) (cpuTimeEverMaxWhen r) (ti_startGpsTime r) (usrTime r) (usrHoldTime r)
    (cycleTime r) (timeHold r) (timeHoldHold r) (timeHoldWhen r) (timeHoldWhenHold r) v.
Definition set_adcTime (v : Z) (r : AdcHold) : AdcHold :=
  mkHold v (adcHoldTime r) (adcHoldTimeMax r) (adcHoldTimeEverMax r) (adcHoldTimeEverMaxWhen r)
    (adcHoldTimeMin r) (adcHoldTimeAvg r) (adcHoldTimeAvgPerSec r).
Definition set_adcHoldTime (v : Z) (r : AdcHold) : AdcHold :=
  mkHold (adcTime r) v (adcHoldTimeMax r) (adcHoldTimeEverMax r) (adcHoldTimeEverMaxWhen r)
    (adcHoldTimeMin r) (adcHoldTimeAvg r) (adcHoldTimeAvgPerSec r).
Definition set_adcHoldTimeMax (v : Z) (r : AdcHold) : AdcHold :=
  mkHold (adcTime r) (adcHoldTime r) v (adcHoldTimeEverMax r) (adcHoldTimeEverMaxWhen r)
    (adcHoldTimeMin r) (adcHoldTimeAvg r) (adcHoldTimeAvgPerSec r).
Definition set_adcHoldTimeEverMax (v : Z) (r : AdcHold) : AdcHold :=
  mkHold (adcTime r) (adcHoldTime r) (adcHoldTimeMax r) v (adcHoldTimeEverMaxWhen r) (adcHoldTimeMin r)
    (adcHoldTimeAvg r) (adcHoldTimeAvgPerSec r).
Definition set_adcHoldTimeEverMaxWhen (v : Z) (r : AdcHold) : AdcHold :=
  mkHold (adcTime r) (adcHoldTime r) (adcHoldTimeMax r) (adcHoldTimeEverMax r) v (adcHoldTimeMin r)
    (adcHoldTimeAvg r) (adcHoldTimeAvgPerSec r).
Definition set_adcHoldTimeMin (v : Z) (r : AdcHold) : AdcHold :=
  mkHold (adcTime r) (adcHoldTime r) (adcHoldTimeMax r) (adcHoldTimeEverMax r)
    (adcHoldTimeEverMaxWhen r) v (adcHoldTimeAvg r) (adcHoldTimeAvgPerSec r).
Definition set_adcHoldTimeAvg (v : Z) (r : AdcHold) : AdcHold :=
  mkHold (adcTime r) (adcHoldTime r) (adcHoldTimeMax r) (adcHoldTimeEverMax r)
    (adcHoldTimeEverMaxWhen r) (adcHoldTimeMin r) v (adcHoldTimeAvgPerSec r).
Definition set_adcHoldTimeAvgPerSec (v : Z) (r : AdcHold) : AdcHold :=
  mkHold (adcTime r) (adcHoldTime r) (adcHoldTimeMax r) (adcHoldTimeEverMax r)
    (adcHoldTimeEverMaxWhen r) (adcHoldTimeMin r) (adcHoldTimeAvg r) v.

Definition initializeTimingDiags (t : timing_diag_t) : timing_diag_t :=
  mkTiming 0 0 0 0 0 0 0 0 0 0 (timeHoldMax t).

Definition sendTimingDiags2Epics (CYCLE_PER_SECOND UNDERSAMPLE : Z) (t : timing_diag_t) (a : AdcHold)
    : timing_diag_t * AdcHold * TimingOut :=
  (set_usrHoldTime 0 (set_timeHoldWhenHold (timeHoldWhen t) (set_timeHold 0 (set_timeHoldHold (timeHold t) t))),
   set_adcHoldTimeAvg 0 (set_adcHoldTimeMin 0xffff (set_adcHoldTimeMax 0
     (set_adcHoldTimeAvgPerSec (Z.quot (adcHoldTimeAvg a) CYCLE_PER_SECOND) a))),
   mkTimingOut (timeHold t) (timeHoldMax t) (usrHoldTime t)
     (Z.quot (adcHoldTimeAvg a) (Z.quot CYCLE_PER_SECOND UNDERSAMPLE)) (adcHoldTimeMin a) (adcHoldTimeMax a)).

(** [startGpsTime + 3 < cycle_gps] compares as [unsigned int]. *)
Definition settled (t : timing_diag_t) (cycle_gps : Z) : bool := u32 (s32 (ti_startGpsTime t + 3)) <? cycle_gps.

Definition captureEocTiming (cycle cycle_gps : Z) (t : timing_diag_t) (a : AdcHold) : timing_diag_t * AdcHold :=
  let t := if cycleTime t >? timeHold t then set_timeHoldWhen cycle (set_timeHold (cycleTime t) t) else t in
  let t := if cycleTime t >? timeHoldMax t then set_timeHoldMax (cycleTime t) t else t in
  if settled t cycle_gps then
    let a := if adcHoldTime a >? adcHoldTimeMax a then set_adcHoldTimeMax (adcHoldTime a) a else a in
    let a := if adcHoldTime a <? adcHoldTimeMin a then set_adcHoldTimeMin (adcHoldTime a) a else a in
    let a := set_adcHoldTimeAvg (s32 (adcHoldTimeAvg a + adcHoldTime a)) a in
    let a := if adcHoldTimeMax a >? adcHoldTimeEverMax a
             then set_adcHoldTimeEverMaxWhen (s32 cycle_gps) (set_adcHoldTimeEverMax (adcHoldTimeMax a) a) else a in
    let t := if timeHoldMax t >? cpuTimeEverMax t
             then set_cpuTimeEverMaxWhen (s32 cycle_gps) (set_cpuTimeEverMax (timeHoldMax t) t) else t in
    (t, a)
  else (t, a).

(** The counters taken in a cycle: at its start and end, and around [feCode]. *)
Record Clocks := mkClocks { CYCLE_START : Z; CYCLE_END : Z; USR_START : Z; USR_END : Z }.

(** The end of a cycle of a control model: the extremes are captured first, the times
    of this cycle are computed after that. *)
Definition end_of_cycle_times (rate cycle cycle_gps : Z) (k : Clocks) (t : timing_diag_t) (a : AdcHold) : timing_diag_t * AdcHold :=
  let '(t, a) := captureEocTiming cycle cycle_gps t a in
  let t := set_cycleTime (Adc.elapsed rate (CYCLE_END k) (CYCLE_START k)) t in
  let a := set_adcHoldTime (Adc.elapsed rate (CYCLE_START k) (adcTime a)) a in
  let a := set_adcTime (s32 (CYCLE_START k)) a in
  let t := set_usrTime (Adc.elapsed rate (USR_END k) (USR_START k)) t in
  (if usrTime t >? usrHoldTime t then set_usrHoldTime (usrTime t) t else t, a).

(** *** The duotone fit

    Everything is [float]; every operation rounds to it. *)
Section duotone.
Context {F : Type} `{FloatOps F}.

Record Sums := mkSums { s_x : F; sumX : F; sumY : F; sumXX : F; sumXY : F }.

Definition duotime_sample (xInc : F) (data : list F) (ii : nat) (s : Sums) : Sums :=
  let y := data !!! ii in
  let x := s_x s in
  mkSums (fsingle (x ⊕ xInc)) (fsingle (sumX s ⊕ x)) (fsingle (sumY s ⊕ y))
    (fsingle (sumXX s ⊕ fsingle (x ⊗ x))) (fsingle (sumXY s ⊕ fsingle (x ⊗ y))).

Definition duotime_sums (xInc : F) (data : list F) (count : nat) : Sums :=
  for_n count (duotime_sample xInc data) (mkSums f0 f0 f0 f0 f0).

(** [xInc = 1000000 / IOP_IO_RATE] divides integers. *)
Definition duotime (IOP_IO_RATE : Z) (count : nat) (meanVal : F) (data : list F) : F :=
  let xInc := fsingle (fofZ (Z.quot 1000000 IOP_IO_RATE)) in
  let s := duotime_sums xInc data count in
  let n := fsingle (fofZ (Z.of_nat count)) in
  let msumX := fsingle (sumX s ⊗ fofZ (-1)) in
  let den := fsingle (fsingle (n ⊗ sumXX s) ⊖ fsingle (sumX s ⊗ sumX s)) in
  if den =ᶠ flit 0 0 then fofZ (-1000)
  else
    let offset := fsingle (fsingle (fsingle (msumX ⊗ sumXY s) ⊕ fsingle (sumXX s ⊗ sumY s)) ⊘ den) in
    let slope := fsingle (fsingle (fsingle (msumX ⊗ sumY s) ⊕ fsingle (n ⊗ sumXY s)) ⊘ den) in
    if slope =ᶠ flit 0 0 then fofZ (-1000)
    else
      let meanVal := fsingle (meanVal ⊖ offset) in
      fsingle (fsingle (meanVal ⊘ slope) ⊖ flit 91552 (-3)).
End duotone.

(** ** What a report shows *)

(** A cycle: its number, the second, and the counters taken in it. *)
Record Cycle := mkCycle { cy_num : Z; cy_gps : Z; cy_clocks : Clocks }.

Definition run_cycles (rate : Z) (cs : list Cycle) (t : timing_diag_t) (a : AdcHold) : timing_diag_t * AdcHold :=
  fold_left (λ st c, end_of_cycle_times rate (cy_num c) (cy_gps c) (cy_clocks c) st.1 st.2) cs (t, a).

(** The times of the cycles, and the times between their reads, [prev] being the read before. *)
Definition times (rate : Z) (cs : list Cycle) : list Z :=
  map (λ c, Adc.elapsed rate (CYCLE_END (cy_clocks c)) (CYCLE_START (cy_clocks c))) cs.
Fixpoint holds (rate prev : Z) (cs : list Cycle) : list Z :=
  match cs with
  | [] => []
  | c :: cs => Adc.elapsed rate (CYCLE_START (cy_clocks c)) prev :: holds rate (s32 (CYCLE_START (cy_clocks c))) cs
  end.

Definition max_of (m : Z) (l : list Z) : Z := fold_left Z.max l m.
Definition min_of (m : Z) (l : list Z) : Z := fold_left Z.min l m.
Definition sum_of (m : Z) (l : list Z) : Z := fold_left Z.add l m.

(** The times captured while [cs] run: those left by the cycle before, and of all but the last. *)
Definition captured (first : Z) (l : list Z) : list Z := removelast (first :: l).

Lemma captured_cons first x l : captured first (x :: l) = first :: captured x l.
Proof. done. Qed.

Lemma sum_of_mono m l : Forall (λ x, 0 <= x) l → m <= sum_of m l.
Proof.
  revert m. induction l as [|x l IH]; intros m Hl; [done|]. apply Forall_cons in Hl as [Hx Hl].
  specialize (IH (m + x) Hl). cbn [sum_of fold_left] in *. unfold sum_of in IH. lia.
Qed.

Lemma capture_fields cycle gps t a :
  let '(t', a') := captureEocTiming cycle gps t a in
  timeHold t' = Z.max (timeHold t) (cycleTime t) ∧ timeHoldMax t' = Z.max (timeHoldMax t) (cycleTime t) ∧
  timeHoldWhen t' = (if cycleTime t >? timeHold t then cycle else timeHoldWhen t) ∧
  ti_startGpsTime t' = ti_startGpsTime t ∧ usrHoldTime t' = usrHoldTime t ∧ adcTime a' = adcTime a ∧
  (settled t gps = true → adcHoldTimeMax a' = Z.max (adcHoldTimeMax a) (adcHoldTime a) ∧
     adcHoldTimeMin a' = Z.min (adcHoldTimeMin a) (adcHoldTime a) ∧
     adcHoldTimeAvg a' = s32 (adcHoldTimeAvg a + adcHoldTime a)).
Proof.
  unfold captureEocTiming. set (t1 := if cycleTime t >? timeHold t then _ else t).
  assert (E1 : timeHold t1 = Z.max (timeHold t) (cycleTime t) ∧ cycleTime t1 = cycleTime t ∧ timeHoldMax t1 = timeHoldMax t ∧
    timeHoldWhen t1 = (if cycleTime t >? timeHold t then cycle else timeHoldWhen t) ∧
    ti_startGpsTime t1 = ti_startGpsTime t ∧ usrHoldTime t1 = usrHoldTime t).
  { subst t1. destruct (Z.gtb_spec (cycleTime t) (timeHold t)); cbn; split_and!; (done || lia). }
  clearbody t1. destruct E1 as (E1 & E2 & E3 & E4 & E5 & E6). rewrite E2, E3.
  set (t2 := if cycleTime t >? timeHoldMax t then _ else t1).
  assert (E' : timeHold t2 = timeHold t1 ∧ timeHoldMax t2 = Z.max (timeHoldMax t) (cycleTime t) ∧ timeHoldWhen t2 = timeHoldWhen t1 ∧
    ti_startGpsTime t2 = ti_startGpsTime t1 ∧ usrHoldTime t2 = usrHoldTime t1).
  { subst t2. destruct (Z.gtb_spec (cycleTime t) (timeHoldMax t)); cbn; split_and!; (done || lia). }
  clearbody t2. destruct E' as (F1 & F2 & F3 & F4 & F5). unfold settled. rewrite F4, E5. fold (settled t gps).
  destruct (settled t gps).
  2:{ rewrite F1, F2, F3, F4, F5. by split_and!. }
  set (a1 := if adcHoldTime a >? adcHoldTimeMax a then _ else a).
  assert (A1 : adcHoldTimeMax a1 = Z.max (adcHoldTimeMax a) (adcHoldTime a) ∧ adcHoldTimeMin a1 = adcHoldTimeMin a ∧
    adcHoldTimeAvg a1 = adcHoldTimeAvg a ∧ adcHoldTime a1 = adcHoldTime a ∧ adcTime a1 = adcTime a).
  { subst a1. destruct (Z.gtb_spec (adcHoldTime a) (adcHoldTimeMax a)); cbn; split_and!; (done || lia). }
  clearbody a1. destruct A1 as (A1 & A2 & A3 & A4 & A5). rewrite A2, A4.
  set (a2 := if adcHoldTime a <? adcHoldTimeMin a then _ else a1).
  assert (B1 : adcHoldTimeMax a2 = adcHoldTimeMax a1 ∧ adcHoldTimeMin a2 = Z.min (adcHoldTimeMin a) (adcHoldTime a) ∧
    adcHoldTimeAvg a2 = adcHoldTimeAvg a1 ∧ adcHoldTime a2 = adcHoldTime a1 ∧ adcTime a2 = adcTime a1).
  { subst a2. destruct (Z.ltb_spec (adcHoldTime a) (adcHoldTimeMin a)); cbn; split_and!; (done || lia). }
  clearbody a2. destruct B1 as (B1 & B2 & B3 & B4 & B5).
  destruct (timeHoldMax t2 >? cpuTimeEverMax t2);
    (destruct (adcHoldTimeMax (set_adcHoldTimeAvg _ a2) >? _); cbn; rewrite ?F1, ?F2, ?F3, ?F4, ?F5, ?B1, ?B2, ?B3, ?B4, ?B5, ?A1, ?A3, ?A4, ?A5; by split_and!).
Qed.

Lemma cycle_fields rate cycle gps k t a :
  let '(t', a') := end_of_cycle_times rate cycle gps k t a in
  timeHold t' = Z.max (timeHold t) (cycleTime t) ∧
  timeHoldWhen t' = (if cycleTime t >? timeHold t then cycle else timeHoldWhen t) ∧
  cycleTime t' = Adc.elapsed rate (CYCLE_END k) (CYCLE_START k) ∧ ti_startGpsTime t' = ti_startGpsTime t ∧
  adcHoldTime a' = Adc.elapsed rate (CYCLE_START k) (adcTime a) ∧ adcTime a' = s32 (CYCLE_START k) ∧
  (settled t gps = true → adcHoldTimeMax a' = Z.max (adcHoldTimeMax a) (adcHoldTime a) ∧
     adcHoldTimeMin a' = Z.min (adcHoldTimeMin a) (adcHoldTime a) ∧
     adcHoldTimeAvg a' = s32 (adcHoldTimeAvg a + adcHoldTime a)).
Proof.
  unfold end_of_cycle_times. pose proof (capture_fields cycle gps t a) as Hc.
  destruct (captureEocTiming cycle gps t a) as [t1 a1]. destruct Hc as (H1 & _ & H3 & H4 & _ & H6 & H7).
  rewrite H6. destruct (usrTime _ >? usrHoldTime _); by split_and!.
Qed.

Lemma max_of_ge m l : m <= max_of m l.
Proof. revert m. induction l as [|x l IH]; intros m; [done|]. specialize (IH (Z.max m x)). unfold max_of in *. cbn [fold_left]. lia. Qed.

Lemma run_spec rate cs t a :
  Forall (λ c, settled t (cy_gps c) = true) cs →
  let ts := captured (cycleTime t) (times rate cs) in
  let hs := captured (adcHoldTime a) (holds rate (adcTime a) cs) in
  Forall (λ h, 0 <= h) hs → 0 <= adcHoldTimeAvg a → sum_of (adcHoldTimeAvg a) hs < 2 ^ 31 →
  let '(t', a') := run_cycles rate cs t a in
  timeHold t' = max_of (timeHold t) ts ∧ adcHoldTimeMax a' = max_of (adcHoldTimeMax a) hs ∧
  adcHoldTimeMin a' = min_of (adcHoldTimeMin a) hs ∧ adcHoldTimeAvg a' = sum_of (adcHoldTimeAvg a) hs ∧
  if decide (timeHold t < max_of (timeHold t) ts)
  then ∃ n c, cs !! n = Some c ∧ ts !! n = Some (max_of (timeHold t) ts) ∧ timeHoldWhen t' = cy_num c
  else timeHoldWhen t' = timeHoldWhen t.
Proof.
  revert t a. induction cs as [|c cs IH]; intros t a Hset ts hs Hh Ha Hs.
  { cbn in *. split_and!; try done. by rewrite decide_False by lia. }
  apply Forall_cons in Hset as [Hset Hsets]. subst ts hs. cbn [times map holds] in *. rewrite !captured_cons in *.
  pose proof (cycle_fields rate (cy_num c) (cy_gps c) (cy_clocks c) t a) as Hc.
  unfold run_cycles in *. cbn [fold_left fst snd].
  destruct (end_of_cycle_times rate (cy_num c) (cy_gps c) (cy_clocks c) t a) as [t1 a1].
  destruct Hc as (C1 & C2 & C3 & C4 & C5 & C6 & C7). destruct (C7 Hset) as (D1 & D2 & D3). clear C7.
  apply Forall_cons in Hh as [Hh0 Hh]. pose proof (sum_of_mono (adcHoldTimeAvg a + adcHoldTime a) _ Hh) as Hmono.
  unfold sum_of in Hs at 1. cbn [fold_left] in Hs. fold (sum_of (adcHoldTimeAvg a + adcHoldTime a)
    (captured (Adc.elapsed rate (CYCLE_START (cy_clocks c)) (adcTime a)) (holds rate (s32 (CYCLE_START (cy_clocks c))) cs))) in Hs.
  rewrite swrap_small in D3 by lia.
  specialize (IH t1 a1). cbv zeta in IH. rewrite C3, C5, C6, D3 in IH.
  specialize (IH ltac:(eapply Forall_impl; [exact Hsets|]; intros c'; unfold settled; by rewrite C4) Hh ltac:(lia) Hs).
  destruct (fold_left _ cs (t1, a1)) as [t' a']. destruct IH as (I1 & I2 & I3 & I4 & I5).
  rewrite C1, D1, D2 in *. split; [exact I1|]. split; [exact I2|]. split; [exact I3|]. split; [exact I4|].
  fold (times rate cs) in *. set (ts := captured (Adc.elapsed rate _ _) (times rate cs)) in *.
  set (m1 := Z.max (timeHold t) (cycleTime t)) in *. pose proof (max_of_ge m1 ts) as Hge.
  change (max_of (timeHold t) (cycleTime t :: ts)) with (max_of m1 ts). set (M := max_of m1 ts) in *. clearbody M.
  destruct (decide (m1 < M)) as [Hlt|Hge'].
  - rewrite decide_True by lia. destruct I5 as (n & c' & H1 & H2 & H3). exists (S n), c'. done.
  - assert (E : M = m1) by lia. rewrite I5, C2, E. subst m1.
    destruct (Z.gtb_spec (cycleTime t) (timeHold t)).
    + rewrite decide_True by lia. exists 0%nat, c. split; [done|]. split; [|done]. simpl. f_equal. lia.
    + by rewrite decide_False by lia.
Qed.

(** What is reported once a second.  Counted from the last report, the meter
    shows the largest cycle time, and the wait times shown are the largest, the
    smallest and the mean of the times between reads, of the cycles up to the one
    before the last: each cycle captures the times its predecessor left, so that
    the cycle number recorded with the largest time is that of the cycle after it. *)
Theorem timing_report rate CPS UNDERSAMPLE (cs : list Cycle) (t : timing_diag_t) (a : AdcHold) :
  timeHold t = 0 → adcHoldTimeMax a = 0 → adcHoldTimeMin a = 0xffff → adcHoldTimeAvg a = 0 →
  Forall (λ c, settled t (cy_gps c) = true) cs →
  let ts := captured (cycleTime t) (times rate cs) in
  let hs := captured (adcHoldTime a) (holds rate (adcTime a) cs) in
  Forall (λ h, 0 <= h) hs → sum_of 0 hs < 2 ^ 31 →
  let '(t', a') := run_cycles rate cs t a in
  let '(_, _, out) := sendTimingDiags2Epics CPS UNDERSAMPLE t' a' in
  cpuMeter out = max_of 0 ts ∧ adcWaitMax out = max_of 0 hs ∧ adcWaitMin out = min_of 0xffff hs ∧
  adcWaitTime out = Z.quot (sum_of 0 hs) (Z.quot CPS UNDERSAMPLE) ∧
  (0 < max_of 0 ts → ∃ n c, cs !! n = Some c ∧ ts !! n = Some (max_of 0 ts) ∧ timeHoldWhen t' = cy_num c).
Proof.
  intros H0 Hmax Hmin Havg Hset ts hs Hh Hs. pose proof (run_spec rate cs t a Hset Hh) as Hr.
  rewrite H0, Hmax, Hmin, Havg in Hr. specialize (Hr ltac:(lia) Hs). destruct (run_cycles rate cs t a) as [t' a'].
  destruct Hr as (R1 & R2 & R3 & R4 & R5). cbn. rewrite R1, R2, R3, R4. split_and!; [done..|].
  intros Hpos. by rewrite decide_True in R5.
Qed.

(** Three cycles with times 20, 40 and 10 us: the last report had left 30 us. *)
Lemma timing_report_witness :
  let t := mkTiming 0 0 0 0 0 30 0 0 0 0 0 in
  let a := mkHold 0 16 0 0 0 0xffff 0 0 in
  let c n s d := mkCycle n 1000 (mkClocks (1000 * s) (1000 * (s + d)) 0 0) in
  let '(t', a') := run_cycles 1000 [c 5 15 20; c 6 31 40; c 7 46 10] t a in
  let '(_, _, out) := sendTimingDiags2Epics 2 1 t' a' in
  cpuMeter out = 40 ∧ adcWaitMax out = 16 ∧ adcWaitMin out = 15 ∧ adcWaitTime out = 23 ∧ timeHoldWhen t' = 7.
Proof.
  intros t a c.
  pose proof (timing_report 1000 2 1 [c 5 15 20; c 6 31 40; c 7 46 10] t a eq_refl eq_refl eq_refl eq_refl) as T.
  cbv zeta in T. specialize (T ltac:(by repeat constructor) ltac:(vm_compute; repeat constructor; discriminate) ltac:(by vm_compute)).
  assert (E : timeHoldWhen (run_cycles 1000 [c 5 15 20; c 6 31 40; c 7 46 10] t a).1 = 7) by by vm_compute.
  destruct (run_cycles 1000 _ t a) as [t' a']. destruct (sendTimingDiags2Epics 2 1 t' a') as [[? ?] out].
  destruct T as (T1 & T2 & T3 & T4 & _). split; [rewrite T1; by vm_compute|]. split; [rewrite T2; by vm_compute|].
  split; [rewrite T3; by vm_compute|]. split; [rewrite T4; by vm_compute|exact E].
Defined.

(** ** What the fit computes *)
Section Fit.
Open Scope R_scope.

Lemma sums_closed (X a m : R) data count :
  (∀ ii, (ii < count)%nat → data !!! ii = a + m * (X * INR ii)) →
  let s := duotime_sums X data count in
  let n := INR count in
  s_x s = n * X ∧ 2 * sumX s = X * (n * (n - 1)) ∧ 6 * sumXX s = X * X * (n * (n - 1) * (2 * n - 1)) ∧
  sumY s = n * a + m * sumX s ∧ sumXY s = a * sumX s + m * sumXX s.
Proof.
  intros Hd. cbv zeta. unfold duotime_sums. induction count as [|count IH].
  - cbn. split_and!; ring.
  - rewrite for_up_S, Nat.add_0_l. specialize (IH ltac:(intros; apply Hd; lia)). set (s := for_up _ count _ _) in *. clearbody s.
    destruct IH as (H1 & H2 & H3 & H4 & H5). unfold duotime_sample. cbn [s_x sumX sumY sumXX sumXY]. rops.
    rewrite (Hd count) by lia. rewrite S_INR. set (n := INR count) in *. rewrite H1. split_and!; nra.
Qed.

(** The duotone fit recovers a line exactly, but not its time axis: for samples of
    [y = a + b t] taken every [10 ^ 6 / IOP_IO_RATE] microseconds, the result is the
    time at which the line passes the mean value, less 91.552, with that time
    scaled by the quotient of the spacing the code assumes, which is truncated to whole microseconds, and
    the true one (15 for 15.2587890625 at 65536 Hz). *)
Theorem duotime_line (IOP_IO_RATE : Z) (count : nat) (mean a b : R) (data : list R) :
  (0 < IOP_IO_RATE <= 1000000)%Z → (2 <= count)%nat → b <> 0 →
  let T := 1000000 / IZR IOP_IO_RATE in
  (∀ ii, (ii < count)%nat → data !!! ii = a + b * (T * INR ii)) →
  duotime IOP_IO_RATE count mean data = (mean - a) / b * (IZR (1000000 / IOP_IO_RATE) / T) - 91.552.
Proof.
  intros HR Hn Hb T Hd.
  assert (HT : 0 < T). { apply Rdiv_lt_0_compat; [lra|]. apply IZR_lt. lia. }
  set (X := IZR (1000000 / IOP_IO_RATE)).
  assert (HX : 0 < X). { apply IZR_lt. apply Z.div_str_pos. lia. }
  set (m := b * T / X).
  assert (Hm : m <> 0). { unfold m. apply Rmult_integral_contrapositive_currified; [|apply Rinv_neq_0_compat; lra]. nra. }
  destruct (sums_closed X a m data count) as (_ & H2 & H3 & H4 & H5).
  { intros ii Hii. rewrite Hd by done. unfold m. field. lra. }
  unfold duotime. rops. rewrite Z.quot_div_nonneg by lia. fold X. set (s := duotime_sums X data count) in *. clearbody s.
  rewrite <- INR_IZR_INZ. set (n := INR count) in *. assert (2 <= n) by (apply (le_INR 2) in Hn; simpl in Hn; exact Hn).
  assert (Hden : 0 < n * sumXX s - sumX s * sumX s).
  { replace (sumXX s) with (X * X * (n * (n - 1) * (2 * n - 1)) / 6) by lra. replace (sumX s) with (X * (n * (n - 1)) / 2) by lra.
    replace (n * _ - _) with (X * X * (n * n * ((n - 1) * (n + 1)) / 12)) by field.
    assert (0 < X * X) by nra. assert (0 < n * n) by nra. assert (0 < (n - 1) * (n + 1)) by nra.
    apply Rmult_lt_0_compat; [done|]. apply Rdiv_lt_0_compat; [|lra]. by apply Rmult_lt_0_compat. }
  rewrite H4, H5. set (den := n * sumXX s - sumX s * sumX s) in *.
  assert (Hoff : (sumX s * -1 * (a * sumX s + m * sumXX s) + sumXX s * (n * a + m * sumX s)) / den = a).
  { unfold den. field. fold den. lra. }
  assert (Hslope : (sumX s * -1 * (n * a + m * sumX s) + n * (a * sumX s + m * sumXX s)) / den = m).
  { unfold den. field. fold den. lra. }
  rewrite Hoff, Hslope. replace (0 * powerRZ 10 0) with 0 by ring.
  destruct (Req_EM_T den 0) as [E|_]; [lra|]. destruct (Req_EM_T m 0) as [E|_]; [done|].
  replace (91552 * powerRZ 10 (-3)) with 91.552 by (simpl; lra).
  unfold m. field. repeat split; lra.
Qed.

(** At 65536 Hz: a line of slope 1 through 0, whose true crossing of 100 is at 100 us. *)
Lemma duotime_line_witness :
  let data := map (λ ii, 1000000 / 65536 * INR ii) (seq 0 12) in
  duotime 65536 12 100 data = 100 * (15 / (1000000 / 65536)) - 91.552.
Proof.
  intros data. rewrite (duotime_line 65536 12 100 0 1 data).
  - replace (1000000 / 65536)%Z with 15%Z by done. field.
  - lia.
  - lia.
  - lra.
  - intros ii Hii. unfold data. apply list_lookup_total_correct. rewrite list_lookup_fmap, lookup_seq_lt by done. simpl. f_equal. ring.
Defined.
End Fit.
End Timing.
