(* ===== verification/DaqConfig.v ===== *)
(** * Data acquisition: configuration ([src/include/drv/daqLib.c], [src/include/daqmap.h])

    What the front end streams to the data acquisition system is set up once at
    start and again on request: [daqConfig] copies the channel list that the
    EPICS process left in shared memory, [loadLocalTable] turns it into the
    lookup table that says, for each channel, where its signal is found, by how
    much it is decimated and where in the 1/16 s block its samples go.

    - data: [DAQ_LKUP_TABLE], [DAQ_INFO_BLOCK], [DAQ_XFER_INFO], [DAQ_RANGE];
    - the decimation filters, [biquad_tables] (built with [CORE_BIQUAD]) and
      [sos_tables];
    - [daqConfig], [loadLocalTable].

    [MAX_MODULES] and the size of the standard EPICS structure are constants of
    the build, arguments here; [sysRate] is the number of cycles in 1/16 s. *)
From S2P Require Import Prelude CFloat Iir.
Import Iir.

Module DaqConfig.

Definition DAQ_SRC_FM_TP : Z := 0.
Definition DAQ_SRC_NFM_TP : Z := 1.
Definition DAQ_SRC_FM_EXC : Z := 2.
Definition DAQ_SRC_NFM_EXC : Z := 3.
Definition DAQ_NUM_FM_TP : Z := 3.
Definition DTAPS : nat := 3.
Definition DAQ_DCU_BLOCK_SIZE : Z := 0x400000 / 16.
Definition DAQ_NUM_DATA_BLOCKS : Z := 16.
Definition DAQ_NUM_DATA_BLOCKS_PER_SECOND : Z := 16.
Definition DAQ_DATATYPE_16BIT_INT : Z := 1.
Definition DAQ_DATATYPE_32BIT_INT : Z := 2.
Definition DAQ_DATATYPE_FLOAT : Z := 4.
Definition DAQ_DATATYPE_DOUBLE : Z := 5.
Definition DAQ_DATATYPE_32BIT_UINT : Z := 7.
Definition daqSizeByType : list Z := [0; 2; 4; 8; 4; 8; 16; 4].
Definition DAQ_DATA_TYPE_SIZE (a : Z) : Z := daqSizeByType !!! Z.to_nat a.
Definition DAQ_GDS_MAX_TP_ALLOWED : nat := 64.
Definition DCU_MAX_CHANNELS : Z := 512.
Definition DAQ_XFER_CYCLE_INT : Z := 0.
Definition DAQ_XFER_CYCLE_DBL : Z := 1.
Definition DAQ_XFER_CYCLE_FMD : Z := 2.
Definition DAQ_XFER_FMD_PER_CYCLE : Z := 100.

(** [struct DAQ_LKUP_TABLE], the fields [daqLib.c] uses. *)
Record DAQ_LKUP_TABLE := mkLkup {
  lt_type : Z;
  sysNum : Z;
  fmNum : Z;
  sigNum : Z;
  decFactor : Z;
  lt_offset : Z
}.
#[export] Instance lkup_inhabited : Inhabited DAQ_LKUP_TABLE := populate (mkLkup 0 0 0 0 0 0).

(** An entry of [DAQ_INFO_BLOCK.tp]. *)
Record TpEntry := mkTp {
  tpnum : Z;
  dataType : Z;
  dataRate : Z
}.
#[export] Instance tp_inhabited : Inhabited TpEntry := populate (mkTp 0 0 0).

(** [struct DAQ_INFO_BLOCK]. *)
Record DAQ_INFO_BLOCK := mkInfo {
  reconfig : Z;
  numChans : Z;
  numEpicsInts : Z;
  numEpicsFloats : Z;
  numEpicsFilts : Z;
  numEpicsTotal : Z;
  epicsdblDataOffset : Z;
  cpyepics2times : Z;
  cpyIntSize : list Z;
  numEpicsFiltXfers : Z;
  numEpicsFiltsLast : Z;
  configFileCRC : Z;
  tp : list TpEntry
}.

(** [struct DAQ_XFER_INFO]. *)
Record DAQ_XFER_INFO := mkXfer {
  crcLength : Z;
  xferSize1 : Z;
  totalSize : Z;
  totalSizeNet : Z;
  offsetAccum : Z;
  fileCrc : Z
}.

(** [struct DAQ_RANGE]: the test point numbers of the model, by kind. *)
Record DAQ_RANGE := mkRange {
  filtTpMin : Z;
  filtTpMax : Z;
  filtTpSize : Z;
  xTpMin : Z;
  xTpMax : Z;
  filtExMin : Z;
  filtExMax : Z;
  filtExSize : Z;
  xExMin : Z;
  xExMax : Z
}.

Definition set_lt_type (v : Z) (r : DAQ_LKUP_TABLE) : DAQ_LKUP_TABLE :=
  mkLkup v (sysNum r) (fmNum r) (sigNum r) (decFactor r) (lt_offset r).
Definition set_sysNum (v : Z) (r : DAQ_LKUP_TABLE) : DAQ_LKUP_TABLE :=
  mkLkup (lt_type r) v (fmNum r) (sigNum r) (decFactor r) (lt_offset r).
Definition set_fmNum (v : Z) (r : DAQ_LKUP_TABLE) : DAQ_LKUP_TABLE :=
  mkLkup (lt_type r) (sysNum r) v (sigNum r) (decFactor r) (lt_offset r).
Definition set_sigNum (v : Z) (r : DAQ_LKUP_TABLE) : DAQ_LKUP_TABLE :=
  mkLkup (lt_type r) (sysNum r) (fmNum r) v (decFactor r) (lt_offset r).
Definition set_decFactor (v : Z) (r : DAQ_LKUP_TABLE) : DAQ_LKUP_TABLE :=
  mkLkup (lt_type r) (sysNum r) (fmNum r) (sigNum r) v (lt_offset r).
Definition set_lt_offset (v : Z) (r : DAQ_LKUP_TABLE) : DAQ_LKUP_TABLE :=
  mkLkup (lt_type r) (sysNum r) (fmNum r) (sigNum r) (decFactor r) v.
Definition set_dataType (v : Z) (r : TpEntry) : TpEntry :=
  mkTp (tpnum r) v (dataRate r).
Definition set_reconfig (v : Z) (r : DAQ_INFO_BLOCK) : DAQ_INFO_BLOCK :=
  mkInfo v (numChans r) (numEpicsInts r) (numEpicsFloats r) (numEpicsFilts r)
    (numEpicsTotal r) (epicsdblDataOffset r) (cpyepics2times r) (cpyIntSize r)
    (numEpicsFiltXfers r) (numEpicsFiltsLast r) (configFileCRC r) (tp r).
Definition set_tp (v : list TpEntry) (r : DAQ_INFO_BLOCK) : DAQ_INFO_BLOCK :=
  mkInfo (reconfig r) (numChans r) (numEpicsInts r) (numEpicsFloats r) (numEpicsFilts r)
    (numEpicsTotal r) (epicsdblDataOffset r) (cpyepics2times r) (cpyIntSize r)
    (numEpicsFiltXfers r) (numEpicsFiltsLast r) (configFileCRC r) v.
Definition set_crcLength (v : Z) (r : DAQ_XFER_INFO) : DAQ_XFER_INFO :=
  mkXfer v (xferSize1 r) (totalSize r) (totalSizeNet r) (offsetAccum r) (fileCrc r).
Definition set_totalSize (v : Z) (r : DAQ_XFER_INFO) : DAQ_XFER_INFO :=
  mkXfer (crcLength r) (xferSize1 r) v (totalSizeNet r) (offsetAccum r) (fileCrc r).
Definition set_totalSizeNet (v : Z) (r : DAQ_XFER_INFO) : DAQ_XFER_INFO :=
  mkXfer (crcLength r) (xferSize1 r) (totalSize r) v (offsetAccum r) (fileCrc r).
Definition set_offsetAccum (v : Z) (r : DAQ_XFER_INFO) : DAQ_XFER_INFO :=
  mkXfer (crcLength r) (xferSize1 r) (totalSize r) (totalSizeNet r) v (fileCrc r).

(** ** Decimation filters (lines 140-349), as decimal literals [m * 10 ^ e] *)
Definition biquad_tables (dec : Z) : list (Z * Z) :=
  if dec =? 2 then
   [(2717257186578, -14); (-1159055409088, -13); (-40753832312918, -14); (266236735378793, -14);
    (337073457156755, -14); (-49505157452475, -14); (-110461941102831, -14); (140184470311617, -14);
    (179227686661261, -14); (-74143396593712, -14); (-162740819248313, -14); (72188475979666, -14);
    (83591053325065, -14)]
  else if dec =? 4 then
   [(426219526013, -14); (46640482430571, -14); (-10620935923005, -14); (250932081620118, -14);
    (293670663266542, -14); (43602772908265, -14); (-31016854747127, -14); (75143527373544, -14);
    (100523899718152, -14); (44571894955428, -14); (-47692045639835, -14); (36664098129003, -14);
    (4440015753374, -13)]
  else if dec =? 8 then
   [(162185538923, -14); (73342532779703, -14); (-2862365091314, -14); (144110125961504, -14);
    (167905228090487, -14); (77657563380963, -14); (-8304311675394, -14); (18851328163424, -14);
    (32889453107067, -14); (83213081484618, -14); (-12573495191273, -14); (940911979108501, -16);
    (13622543115194, -14)]
  else if dec =? 16 then
   [(112590539483, -14); (86616831686611, -14); (-753654634986012, -17); (48586805026482, -14);
    (61216318704885, -14); (90508101474565, -14); (-215349711544799, -16); (149886842581499, -16);
    (8837269835802, -14); (94631370100442, -14); (-320417955561, -13); (141281606027401, -16);
    (357726640422202, -16)]
  else if dec =? 32 then
   [(102945292275, -14); (93288074072411, -14); (-194092797014001, -17); (10751900551591, -14);
    (17269733682166, -14); (9570539169953, -13); (-548573773340011, -17); (-149997987966302, -16);
    (224605464746699, -16); (98100244642901, -14); (-807148639261013, -17); (-189235941040011, -17);
    (903370776797985, -17)]
  else if dec =? 64 then
   [(101894798776, -14); (96638168022541, -14); (-492974627960052, -18); (1147570619135, -14);
    (4460105133798, -14); (97969775930388, -14); (-138449271550001, -17); (-132857101503898, -16);
    (563203783023014, -17); (99249184543014, -14); (-20244997813601, -16); (-322227927422025, -17);
    (226137551427974, -17)]
  else if dec =? 128 then
   [(102359688929, -14); (98317523053482, -14); (-124254191099959, -18); (-545789721985002, -17);
    (1124261805423, -14); (9901470788001, -13); (-347773996469902, -18); (-809690612593994, -17);
    (140824107749005, -17); (9967468102523, -13); (-506888877139899, -18); (-218112074794985, -17);
    (565180122610309, -18)]
  else if dec =? 256 then
   [(102849104272, -14); (99158359864769, -14); (-311926170200039, -19); (-556878740432998, -17);
    (281642133096005, -17); (99514878857652, -14); (-87150981279982, -18); (-441208984599983, -17);
    (351970596200069, -18); (99849900371282, -14); (-126813612729926, -18); (-123294150072994, -17);
    (141241173720053, -18)]
  else [].

Definition sos_tables (dec : Z) : list (Z * Z) :=
  if dec =? 2 then
   [(2717257186578, -14); (-8840944590912, -13); (29163278222038, -14); (177827289469673, -14); (1, 0);
    (-50494842547525, -14); (60956783650356, -14); (89689627764092, -14); (1, 0); (-25856603406288, -14);
    (88597422654601, -14); (46331872573378, -14); (1, 0)]
  else if dec =? 4 then
   [(426219526013, -14); (-146640482430571, -14); (57261418353576, -14); (104291599189547, -14); (1, 0);
    (-143602772908265, -14); (74619627655392, -14); (-68459245534721, -14); (1, 0); (-144571894955428, -14);
    (92263940595263, -14); (-107907796826425, -14); (1, 0)]
  else if dec =? 8 then
   [(162185538923, -14); (-173342532779703, -14); (76204897871017, -14); (-29232406818199, -14); (1, 0);
    (-177657563380963, -14); (85961875056357, -14); (-158806235217539, -14); (1, 0); (-183213081484618, -14);
    (95786576675891, -14); (-173803961693533, -14); (1, 0)]
  else if dec =? 16 then
   [(112590539483, -14); (-186616831686611, -14); (87370486321597, -14); (-138030026660129, -14); (1, 0);
    (-190508101474565, -14); (92661598590013, -14); (-18900923304875, -13); (1, 0); (-194631370100442, -14);
    (97835549656052, -14); (-193218554040168, -14); (1, 0)]
  else if dec =? 32 then
   [(102945292275, -14); (-193288074072411, -14); (93482166869425, -14); (-18253617352082, -13); (1, 0);
    (-19570539169953, -13); (9625396547287, -13); (-197205371579193, -14); (1, 0); (-198100244642901, -14);
    (98907393282162, -14); (-198289480583941, -14); (1, 0)]
  else if dec =? 64 then
   [(101894798776, -14); (-196638168022541, -14); (96687465485337, -14); (-195490597403406, -14); (1, 0);
    (-197969775930388, -14); (98108225201938, -14); (-199298346945427, -14); (1, 0); (-199249184543014, -14);
    (9945163452115, -13); (-199571412470436, -14); (1, 0)]
  else if dec =? 128 then
   [(102359688929, -14); (-198317523053482, -14); (98329948472592, -14); (-198863312775467, -14); (1, 0);
    (-19901470788001, -13); (99049485279657, -14); (-199824398492604, -14); (1, 0); (-19967468102523, -13);
    (99725369912944, -14); (-199892793100025, -14); (1, 0)]
  else if dec =? 256 then
   [(102849104272, -14); (-199158359864769, -14); (99161479126471, -14); (-199715238605202, -14); (1, 0);
    (-199514878857652, -14); (9952359395578, -13); (-199956087842252, -14); (1, 0); (-199849900371282, -14);
    (99862581732555, -14); (-199973194521355, -14); (1, 0)]
  else [].

Definition dCoeff {F : Type} `{FloatOps F} (core_biquad : bool) (dec : Z) : list F :=
  map (λ l, flit l.1 l.2) (if core_biquad then biquad_tables dec else sos_tables dec).

(** *** [daqConfig] *)

(** One fast channel: its entry is copied and its bytes per block added. *)
Definition config_channel (pInfo : DAQ_INFO_BLOCK) (ii : nat) (st : Z * list TpEntry) : Z * list TpEntry :=
  let '(dataLength, entries) := st in
  let e := tp pInfo !!! ii in
  (s32 (dataLength + u32 (DAQ_DATA_TYPE_SIZE (dataType e) * dataRate e) / DAQ_NUM_DATA_BLOCKS),
   <[ii := mkTp (tpnum e) (dataType e) (dataRate e)]> entries).

(** Returns the bytes per block, or -1 for a bad channel count. *)
Definition daqConfig (max_modules sizeof_epics_out : Z) (dataInfo pInfo : DAQ_INFO_BLOCK) : Z * DAQ_INFO_BLOCK :=
  if numChans pInfo >? DCU_MAX_CHANNELS then (-1, dataInfo)
  else
    let partial := truthy (Z.rem max_modules DAQ_XFER_FMD_PER_CYCLE) in
    let xfers := Z.quot max_modules DAQ_XFER_FMD_PER_CYCLE in
    let xfers := (if partial then xfers + 1 else xfers) + DAQ_XFER_CYCLE_FMD in
    let last := if partial then Z.rem max_modules DAQ_XFER_FMD_PER_CYCLE else DAQ_XFER_FMD_PER_CYCLE in
    let ii := Z.quot sizeof_epics_out 4 * 4 in
    let jj := (numEpicsInts pInfo - Z.quot sizeof_epics_out 4) * 4 in
    let hole1 := truthy (Z.rem ii 8) in
    let hole2 := truthy (Z.rem jj 8) in
    let dbl := (if hole1 then 4 else 0) + (if hole2 then 4 else 0) in
    let twice := hole1 && (jj >? 0) in
    let sizes := if twice then [ii; jj] else [numEpicsInts pInfo * 4; 0] in
    let '(dataLength, entries) :=
      for_n (Z.to_nat (numChans pInfo)) (config_channel pInfo) (4 * numEpicsTotal pInfo, tp dataInfo) in
    (dataLength,
     mkInfo (reconfig dataInfo) (numChans pInfo) (numEpicsInts pInfo) (numEpicsFloats pInfo) (numEpicsFilts pInfo)
       (numEpicsTotal pInfo) dbl (if twice then 1 else 0) sizes xfers last (configFileCRC dataInfo) entries).

(** *** [loadLocalTable] *)

(** How a channel's test point number is resolved; [None] for a number in no range. *)
Definition classify (r : DAQ_RANGE) (num : Z) (e : DAQ_LKUP_TABLE) : option DAQ_LKUP_TABLE :=
  if (filtTpMin r <=? num) && (num <? filtTpMax r) then
    let jj := num - filtTpMin r in
    let sys := Z.quot jj (filtTpSize r) in
    let jj := jj - sys * filtTpSize r in
    Some (set_sigNum (Z.rem jj DAQ_NUM_FM_TP) (set_fmNum (Z.quot jj DAQ_NUM_FM_TP)
      (set_sysNum sys (set_lt_type DAQ_SRC_FM_TP e))))
  else if (filtExMin r <=? num) && (num <? filtExMax r) then
    Some (set_fmNum (num - filtExMin r) (set_lt_type DAQ_SRC_FM_EXC e))
  else if (xTpMin r <=? num) && (num <? xTpMax r) then
    Some (set_sigNum (num - xTpMin r) (set_lt_type DAQ_SRC_NFM_TP e))
  else if (xExMin r <=? num) && (num <? xExMax r) then
    Some (set_sigNum (num - xExMin r) (set_fmNum (num - xExMin r) (set_lt_type DAQ_SRC_NFM_EXC e)))
  else None.

(** How a routine that can divide by zero ends. *)
Inductive exit := Return (status : Z) | Trap.

Definition load_channel (sysRate : Z) (info : DAQ_INFO_BLOCK) (r : DAQ_RANGE) (ii : nat)
    (st : DAQ_XFER_INFO * list DAQ_LKUP_TABLE) : (DAQ_XFER_INFO * list DAQ_LKUP_TABLE) * option exit :=
  let '(x, table) := st in
  let e := tp info !!! ii in
  let perBlock := dataRate e / DAQ_NUM_DATA_BLOCKS in
  if perBlock >? sysRate then (st, Some (Return (-1)))
  else if perBlock =? 0 then (st, Some Trap)
  else
    let dec := sysRate / perBlock in
    let table := alter (set_decFactor dec) ii table in
    let x := set_offsetAccum (offsetAccum x + Z.quot sysRate dec * DAQ_DATA_TYPE_SIZE (dataType e)) x in
    let table := alter (set_lt_offset (offsetAccum x)) (S ii) table in
    match classify r (tpnum e) (table !!! ii) with
    | Some entry => ((x, <[ii := entry]> table), None)
    | None => ((x, table), Some (Return (-1)))
    end.

Definition loadLocalTable (sysRate : Z) (info : DAQ_INFO_BLOCK) (r : DAQ_RANGE) (crc : Z)
    (x : DAQ_XFER_INFO) (table : list DAQ_LKUP_TABLE) : (DAQ_XFER_INFO * list DAQ_LKUP_TABLE) * exit :=
  let len := crcLength x in
  let start := 4 * numEpicsTotal info in
  let x := mkXfer len (Z.quot len sysRate) len len start (s32 crc) in
  let table := alter (set_lt_offset start) 0%nat table in
  match for_exit 0 (Z.to_nat (numChans info)) (load_channel sysRate info r) (x, table) with
  | (st, Some e) => (st, e)
  | (st, None) => (st, Return 0)
  end.
End DaqConfig.
