(* ===== verification/DaqWrite.v ===== *)
(** * Data acquisition: acquisition ([src/include/drv/daqLib.c], [daqWrite])

    [daqWrite] is called at start and then once per cycle.  Each cycle it writes
    the samples due in the current 1/16 s block of the shared memory read by the
    network driver, and loads the excitations; at the end of a block it
    publishes the block, and once a second it brings the list of test points up
    to date.

    - [DaqState]: the static variables of [daqWrite] and what it writes; the
      stores into the data blocks are kept as the list [blocks] of writes, with
      their byte address (from [daqShmPtr]), size and value, in the order made;
    - [acquire]: the samples of a cycle; [write_epics]: the slow data;
      [read_excitations]; [publish_block]; [reconfigure]; [select_testpoints];
    - [daq_connect] and [daq_write]: the two modes of [daqWrite].

    A cycle that divides by zero has no next state. *)
From S2P Require Import Prelude CFloat Iir FilterModule DaqConfig.
Import Iir FilterModule DaqConfig.

Module DaqWrite.

Definition FE_ERROR_EXC_SET : Z := 0x100.
Definition DAQ_16K_SAMPLE_SIZE : Z := 1024.
Definition buf_size : Z := DAQ_DCU_BLOCK_SIZE * 2.

(** A store into the data blocks; [CCopy src] is a [memcpy] from byte [src] of
    the EPICS integer data. *)
Inductive Cell (F : Type) :=
  | CShort (z : Z) | CInt (z : Z) | CUint (z : Z) | CFloat (x : F) | CDouble (x : F) | CCopy (src : Z).
Arguments CShort {F}. Arguments CInt {F}. Arguments CUint {F}. Arguments CFloat {F}.
Arguments CDouble {F}. Arguments CCopy {F}.

(** Counters. *)
Record Clock := mkClk {
  daqSlot : Z;
  excSlot : Z;
  daqBlockNum : Z;
  daqXmitBlockNum : Z;
  excBlockNum : Z
}.

(** [rmIpcStr.bp] entries and what the network driver is told. *)
Record BlockProp := mkBp { bp_cycle : Z; bp_crc : Z; bp_timeSec : Z; bp_timeNSec : Z }.

Record Net := mkNet {
  dcuId : Z;
  dipc_crc : Z;
  dataBlockSize : Z;
  bp : list BlockProp;
  dipc_cycle : Z;
  tp_count : Z;
  tp_list : list Z
}.

(** Test point selection; [gdsNum] and [gdsStat] are [gdsPtr->tp[k][0]] and [gdsPtr->tp[k][1]]. *)
Record Select := mkSel {
  tpNum : list Z;
  tpNumNet : list Z;
  validTp : nat;
  validTpNet : nat;
  validEx : Z;
  excTable : list DAQ_LKUP_TABLE;
  gdsNum : list (list Z);
  gdsStat : list (list Z);
  gdsMonitor : list Z
}.

Definition set_daqSlot (v : Z) (r : Clock) : Clock :=
  mkClk v (excSlot r) (daqBlockNum r) (daqXmitBlockNum r) (excBlockNum r).
Definition set_excSlot (v : Z) (r : Clock) : Clock :=
  mkClk (daqSlot r) v (daqBlockNum r) (daqXmitBlockNum r) (excBlockNum r).
Definition set_excBlockNum (v : Z) (r : Clock) : Clock :=
  mkClk (daqSlot r) (excSlot r) (daqBlockNum r) (daqXmitBlockNum r) v.
Definition set_tpNum (v : list Z) (r : Select) : Select :=
  mkSel v (tpNumNet r) (validTp r) (validTpNet r) (validEx r) (excTable r) (gdsNum r)
    (gdsStat r) (gdsMonitor r).
Definition set_validTp (v : nat) (r : Select) : Select :=
  mkSel (tpNum r) (tpNumNet r) v (validTpNet r) (validEx r) (excTable r) (gdsNum r)
    (gdsStat r) (gdsMonitor r).
Definition set_validEx (v : Z) (r : Select) : Select :=
  mkSel (tpNum r) (tpNumNet r) (validTp r) (validTpNet r) v (excTable r) (gdsNum r)
    (gdsStat r) (gdsMonitor r).
Definition set_excTable (v : list DAQ_LKUP_TABLE) (r : Select) : Select :=
  mkSel (tpNum r) (tpNumNet r) (validTp r) (validTpNet r) (validEx r) v (gdsNum r)
    (gdsStat r) (gdsMonitor r).
Definition set_gdsNum (v : list (list Z)) (r : Select) : Select :=
  mkSel (tpNum r) (tpNumNet r) (validTp r) (validTpNet r) (validEx r) (excTable r) v
    (gdsStat r) (gdsMonitor r).
Definition set_gdsStat (v : list (list Z)) (r : Select) : Select :=
  mkSel (tpNum r) (tpNumNet r) (validTp r) (validTpNet r) (validEx r) (excTable r)
    (gdsNum r) v (gdsMonitor r).
Definition set_gdsMonitor (v : list Z) (r : Select) : Select :=
  mkSel (tpNum r) (tpNumNet r) (validTp r) (validTpNet r) (validEx r) (excTable r)
    (gdsNum r) (gdsStat r) v.

(** [l[i] = 0] for all slots; [gdsPtr->tp[k][0][i] = 0] for all slots; [gdsPtr->tp[k][1][slot] = 0]. *)
Definition zero_slots (l : list Z) : list Z := for_n DAQ_GDS_MAX_TP_ALLOWED (λ i l, <[i := 0]> l) l.
Definition clear_row (k : nat) (g : list (list Z)) : list (list Z) := alter zero_slots k g.
Definition clear_status (k slot : nat) (g : list (list Z)) : list (list Z) := alter (λ row, <[slot := 0]> row) k g.

Section defs.
Context {F : Type} `{FloatOps F}.

(** What the code of the model is built with. *)
Record DaqBuild := mkBuild { sysRate : Z; max_modules : Z; sizeof_epics_out : Z; core_biquad : bool }.

Record Write := mkWr { wr_addr : Z; wr_size : Z; wr_val : Cell F }.

Record DaqState := mkDaq {
  clk : Clock;
  xferInfo : DAQ_XFER_INFO;
  localTable : list DAQ_LKUP_TABLE;
  dataInfo : DAQ_INFO_BLOCK;
  tpStart : Z;
  totalChans : nat;
  sel : Select;
  dHistory : list (list F);
  uHistory : list Z;
  dsp : FILT_MOD F;
  excSignal : list F;
  pWriteBuffer : Z;
  pEpicsFloat : Z;
  blocks : list Write;
  net : Net;
  pInfo : DAQ_INFO_BLOCK
}.

(** What a cycle reads: test point values, EPICS doubles, the excitation memory
    (status words and samples, by byte offset), the GPS time. *)
Record DaqIn := mkDin {
  pFloatData : list F;
  pEpicsDblData : nat → F;
  excStatus : Z → Z;
  excFloat : Z → F;
  cycle_gps_time : Z
}.

Definition set_clk (v : Clock) (r : DaqState) : DaqState :=
  mkDaq v (xferInfo r) (localTable r) (dataInfo r) (tpStart r) (totalChans r) (sel r)
    (dHistory r) (uHistory r) (dsp r) (excSignal r) (pWriteBuffer r) (pEpicsFloat r)
    (blocks r) (net r) (pInfo r).
Definition set_xferInfo (v : DAQ_XFER_INFO) (r : DaqState) : DaqState :=
  mkDaq (clk r) v (localTable r) (dataInfo r) (tpStart r) (totalChans r) (sel r)
    (dHistory r) (uHistory r) (dsp r) (excSignal r) (pWriteBuffer r) (pEpicsFloat r)
    (blocks r) (net r) (pInfo r).
Definition set_localTable (v : list DAQ_LKUP_TABLE) (r : DaqState) : DaqState :=
  mkDaq (clk r) (xferInfo r) v (dataInfo r) (tpStart r) (totalChans r) (sel r) (dHistory r)
    (uHistory r) (dsp r) (excSignal r) (pWriteBuffer r) (pEpicsFloat r) (blocks r) (net r)
    (pInfo r).
Definition set_dataInfo (v : DAQ_INFO_BLOCK) (r : DaqState) : DaqState :=
  mkDaq (clk r) (xferInfo r) (localTable r) v (tpStart r) (totalChans r) (sel r)
    (dHistory r) (uHistory r) (dsp r) (excSignal r) (pWriteBuffer r) (pEpicsFloat r)
    (blocks r) (net r) (pInfo r).
Definition set_tpStart (v : Z) (r : DaqState) : DaqState :=
  mkDaq (clk r) (xferInfo r) (localTable r) (dataInfo r) v (totalChans r) (sel r)
    (dHistory r) (uHistory r) (dsp r) (excSignal r) (pWriteBuffer r) (pEpicsFloat r)
    (blocks r) (net r) (pInfo r).
Definition set_totalChans (v : nat) (r : DaqState) : DaqState :=
  mkDaq (clk r) (xferInfo r) (localTable r) (dataInfo r) (tpStart r) v (sel r) (dHistory r)
    (uHistory r) (dsp r) (excSignal r) (pWriteBuffer r) (pEpicsFloat r) (blocks r) (net r)
    (pInfo r).
Definition set_sel (v : Select) (r : DaqState) : DaqState :=
  mkDaq (clk r) (xferInfo r) (localTable r) (dataInfo r) (tpStart r) (totalChans r) v
    (dHistory r) (uHistory r) (dsp r) (excSignal r) (pWriteBuffer r) (pEpicsFloat r)
    (blocks r) (net r) (pInfo r).
Definition set_dHistory (v : list (list F)) (r : DaqState) : DaqState :=
  mkDaq (clk r) (xferInfo r) (localTable r) (dataInfo r) (tpStart r) (totalChans r) (sel r)
    v (uHistory r) (dsp r) (excSignal r) (pWriteBuffer r) (pEpicsFloat r) (blocks r) (net r)
    (pInfo r).
Definition set_uHistory (v : list Z) (r : DaqState) : DaqState :=
  mkDaq (clk r) (xferInfo r) (localTable r) (dataInfo r) (tpStart r) (totalChans r) (sel r)
    (dHistory r) v (dsp r) (excSignal r) (pWriteBuffer r) (pEpicsFloat r) (blocks r) (net r)
    (pInfo r).
Definition set_dsp (v : FILT_MOD F) (r : DaqState) : DaqState :=
  mkDaq (clk r) (xferInfo r) (localTable r) (dataInfo r) (tpStart r) (totalChans r) (sel r)
    (dHistory r) (uHistory r) v (excSignal r) (pWriteBuffer r) (pEpicsFloat r) (blocks r)
    (net r) (pInfo r).
Definition set_excSignal (v : list F) (r : DaqState) : DaqState :=
  mkDaq (clk r) (xferInfo r) (localTable r) (dataInfo r) (tpStart r) (totalChans r) (sel r)
    (dHistory r) (uHistory r) (dsp r) v (pWriteBuffer r) (pEpicsFloat r) (blocks r) (net r)
    (pInfo r).
Definition set_pWriteBuffer (v : Z) (r : DaqState) : DaqState :=
  mkDaq (clk r) (xferInfo r) (localTable r) (dataInfo r) (tpStart r) (totalChans r) (sel r)
    (dHistory r) (uHistory r) (dsp r) (excSignal r) v (pEpicsFloat r) (blocks r) (net r)
    (pInfo r).
Definition set_pEpicsFloat (v : Z) (r : DaqState) : DaqState :=
  mkDaq (clk r) (xferInfo r) (localTable r) (dataInfo r) (tpStart r) (totalChans r) (sel r)
    (dHistory r) (uHistory r) (dsp r) (excSignal r) (pWriteBuffer r) v (blocks r) (net r)
    (pInfo r).
Definition set_blocks (v : list Write) (r : DaqState) : DaqState :=
  mkDaq (clk r) (xferInfo r) (localTable r) (dataInfo r) (tpStart r) (totalChans r) (sel r)
    (dHistory r) (uHistory r) (dsp r) (excSignal r) (pWriteBuffer r) (pEpicsFloat r) v
    (net r) (pInfo r).
Definition set_net (v : Net) (r : DaqState) : DaqState :=
  mkDaq (clk r) (xferInfo r) (localTable r) (dataInfo r) (tpStart r) (totalChans r) (sel r)
    (dHistory r) (uHistory r) (dsp r) (excSignal r) (pWriteBuffer r) (pEpicsFloat r)
    (blocks r) v (pInfo r).
Definition set_pInfo (v : DAQ_INFO_BLOCK) (r : DaqState) : DaqState :=
  mkDaq (clk r) (xferInfo r) (localTable r) (dataInfo r) (tpStart r) (totalChans r) (sel r)
    (dHistory r) (uHistory r) (dsp r) (excSignal r) (pWriteBuffer r) (pEpicsFloat r)
    (blocks r) (net r) v.

Definition store (addr size : Z) (v : Cell F) (s : DaqState) : DaqState :=
  set_blocks (blocks s ++ [mkWr addr size v]) s.

(** *** Samples (lines 472-600) *)

(** The signal of a channel. *)
Definition daq_source (s : DaqState) (inp : DaqIn) (e : DAQ_LKUP_TABLE) : F :=
  if lt_type e =? DAQ_SRC_FM_TP then
    let d := data (dsp s) !!! Z.to_nat (fmNum e) in
    if sigNum e =? 0 then filterInput d
    else if sigNum e =? 1 then inputTestpoint d
    else if sigNum e =? 2 then testpoint d else flit 0 0
  else if lt_type e =? DAQ_SRC_NFM_TP then pFloatData inp !!! Z.to_nat (sigNum e)
  else if lt_type e =? DAQ_SRC_FM_EXC then exciteInput (data (dsp s) !!! Z.to_nat (fmNum e))
  else if lt_type e =? DAQ_SRC_NFM_EXC then excSignal s !!! Z.to_nat (fmNum e)
  else flit 0 0.

Definition dec_factors : list Z := [2; 4; 8; 16; 32; 64; 128; 256].

(** The decimation filter of a channel that is not [32BIT_UINT]. *)
Definition decimate (bd : DaqBuild) (dec : Z) (x : F) (hist : list F) : F * list F :=
  if existsb (Z.eqb dec) dec_factors then
    (if core_biquad bd then iir_filter_biquad else iir_filter) x (dCoeff (core_biquad bd) dec) DTAPS hist
  else (x, hist).

(** The write of channel [ii] on a cycle that is a multiple of its decimation. *)
Definition write_sample (ii : nat) (type : Z) (e : DAQ_LKUP_TABLE) (dWord : F) (s : DaqState) : DaqState :=
  let slot := daqSlot (clk s) in
  let k := Z.quot slot (decFactor e) in
  let base := pWriteBuffer s + lt_offset e in
  if type =? DAQ_DATATYPE_16BIT_INT then store (base + 2 * Z.lxor k 1) 2 (CShort (f_to_short dWord)) s
  else if type =? DAQ_DATATYPE_DOUBLE then store (base + 8 * k) 8 (CDouble dWord) s
  else if type =? DAQ_DATATYPE_32BIT_UINT then
    let w := if decFactor e =? 1 then f_to_uint dWord else Z.land (f_to_uint dWord) (uHistory s !!! ii) in
    store (base + 4 * k) 4 (CUint w) s
  else if type =? DAQ_DATATYPE_32BIT_INT then store (base + 4 * slot) 4 (CInt (f_to_int dWord)) s
  else store (base + 4 * k) 4 (CFloat (fsingle dWord)) s.

(** The bits of a [32BIT_UINT] channel between two writes. *)
Definition hold_bits (ii : nat) (e : DAQ_LKUP_TABLE) (dWord : F) (s : DaqState) : DaqState :=
  let w := f_to_uint dWord in
  let w := if Z.rem (daqSlot (clk s)) (decFactor e) =? 1 then w else Z.land (uHistory s !!! ii) w in
  set_uHistory (<[ii := w]> (uHistory s)) s.

Definition daq_channel (bd : DaqBuild) (inp : DaqIn) (ii : nat) (s : DaqState) : DaqState * option unit :=
  let e := localTable s !!! ii in
  let type := dataType (tp (dataInfo s) !!! ii) in
  let dWord := daq_source s inp e in
  let '(dWord, s) :=
    if type =? DAQ_DATATYPE_32BIT_UINT then (dWord, s)
    else let '(y, h) := decimate bd (decFactor e) dWord (dHistory s !!! ii) in
         (y, set_dHistory (<[ii := h]> (dHistory s)) s) in
  if decFactor e =? 0 then (s, Some tt)
  else if Z.rem (daqSlot (clk s)) (decFactor e) =? 0 then (write_sample ii type e dWord s, None)
  else if type =? DAQ_DATATYPE_32BIT_UINT then (hold_bits ii e dWord s, None)
  else (s, None).

Definition acquire (bd : DaqBuild) (inp : DaqIn) (s : DaqState) : option DaqState :=
  match for_exit 0 (totalChans s) (daq_channel bd inp) s with
  | (s, None) => Some s
  | (_, Some _) => None
  end.

(** *** EPICS data (lines 602-682) *)
Definition copy_ints (s : DaqState) : DaqState :=
  let i := dataInfo s in
  let n0 := cpyIntSize i !!! 0%nat in
  let s' := store (pWriteBuffer s) n0 (CCopy 0) s in
  if truthy (cpyepics2times i)
  then store (pWriteBuffer s + n0) (cpyIntSize i !!! 1%nat) (CCopy (n0 + 4)) s' else s'.

(** [*pEpicsFloat = (float)x; pEpicsFloat++]. *)
Definition put_float (x : F) (s : DaqState) : DaqState :=
  set_pEpicsFloat (pEpicsFloat s + 4) (store (pEpicsFloat s) 4 (CFloat (fsingle x)) s).

Definition copy_doubles (inp : DaqIn) (s : DaqState) : DaqState :=
  let s := set_pEpicsFloat (pWriteBuffer s + 4 * numEpicsInts (dataInfo s)) s in
  for_n (Z.to_nat (numEpicsFloats (dataInfo s))) (λ ii s, put_float (pEpicsDblData inp ii) s) s.

Definition copy_filter (ii : nat) (s : DaqState) : DaqState :=
  let i := inputs (dsp s) !!! ii in
  let d := data (dsp s) !!! ii in
  foldl (λ s x, put_float x s) s
    [offset i; outgain i; limiter i; gain_ramp_time i; fofZ (swReq i); fofZ (swMask i);
     filterInput d; exciteInput d; output16Hz d; output d; fofZ (swStatus d)].

Definition copy_filters (s : DaqState) : DaqState :=
  let slot := daqSlot (clk s) in
  let i := dataInfo s in
  let jj := DAQ_XFER_FMD_PER_CYCLE * (slot - DAQ_XFER_CYCLE_FMD) in
  let n := if slot =? numEpicsFiltXfers i - 1 then numEpicsFiltsLast i else DAQ_XFER_FMD_PER_CYCLE in
  for_up (Z.to_nat jj) (Z.to_nat n) copy_filter s.

Definition write_epics (inp : DaqIn) (s : DaqState) : DaqState :=
  let slot := daqSlot (clk s) in
  let s := if slot =? DAQ_XFER_CYCLE_INT then copy_ints s else s in
  let s := if slot =? DAQ_XFER_CYCLE_DBL then copy_doubles inp s else s in
  if (DAQ_XFER_CYCLE_FMD <=? slot) && (slot <? numEpicsFiltXfers (dataInfo s)) then copy_filters s else s.

(** *** Excitations (lines 684-739) *)
Definition set_excite (fm : Z) (x : F) (s : DaqState) : DaqState :=
  set_dsp (set_data (alter (λ d, mkData (filterInput d) x (inputTestpoint d) (testpoint d) (output d) (output16Hz d)
    (swStatus d)) (Z.to_nat fm) (data (dsp s))) (dsp s)) s.
Definition put_excitation (e : DAQ_LKUP_TABLE) (x : F) (s : DaqState) : DaqState :=
  if lt_type e =? DAQ_SRC_FM_EXC then set_excite (fmNum e) x s
  else if lt_type e =? DAQ_SRC_NFM_EXC then set_excSignal (<[Z.to_nat (fmNum e) := x]> (excSignal s)) s
  else s.

Definition read_excitation (bd : DaqBuild) (inp : DaqIn) (ii : nat) (s : DaqState) : DaqState :=
  let e := localTable s !!! ii in
  if lt_type e <? DAQ_SRC_FM_EXC then s
  else
    let at_ := excBlockNum (clk s) * DAQ_DCU_BLOCK_SIZE + sigNum e * (4 + 4 * sysRate bd) in
    if excStatus inp at_ =? 0
    then put_excitation e (excFloat inp (at_ + excSlot (clk s) * 4 + 4)) (set_sel (set_validEx FE_ERROR_EXC_SET (sel s)) s)
    else put_excitation e (flit 0 0) s.

Definition read_excitations (bd : DaqBuild) (inp : DaqIn) (s : DaqState) : DaqState :=
  let s := set_clk (set_excSlot (Z.rem (excSlot (clk s) + 1) (sysRate bd)) (clk s)) s in
  let s := set_sel (set_validEx 0 (sel s)) s in
  let first := Z.to_nat (numChans (dataInfo s)) in
  let s := for_up first (totalChans s - first) (read_excitation bd inp) s in
  if excSlot (clk s) =? sysRate bd - 1
  then set_clk (set_excBlockNum (Z.rem (excBlockNum (clk s) + 1) DAQ_NUM_DATA_BLOCKS) (clk s)) s else s.

(** *** End of a block (lines 742-803) *)
Definition publish_block (dcu : Z) (inp : DaqIn) (s : DaqState) : DaqState :=
  let n := net s in
  let k := daqXmitBlockNum (clk s) in
  let x := xferInfo s in
  let t := sel s in
  let entry := mkBp k (crcLength x) (cycle_gps_time inp) k in
  let list := for_n (validTp t) (λ i l, <[i := tpNumNet t !!! i]> l) (tp_list n) in
  let s := set_net (mkNet dcu (fileCrc x) (u32 (totalSizeNet x)) (<[Z.to_nat k := entry]> (bp n)) k
                      (Z.lor (Z.of_nat (validTpNet t)) (validEx t)) list) s in
  let c := clk s in
  let next := Z.rem (daqXmitBlockNum c + 1) DAQ_NUM_DATA_BLOCKS_PER_SECOND in
  set_pWriteBuffer (buf_size * next)
    (set_clk (mkClk (daqSlot c) (excSlot c) (Z.rem (daqBlockNum c + 1) DAQ_NUM_DATA_BLOCKS_PER_SECOND) next (excBlockNum c)) s).

Definition reconfigure (bd : DaqBuild) (r : DAQ_RANGE) (s : DaqState) : option DaqState :=
  if (reconfig (pInfo s) =? 1) && (daqBlockNum (clk s) =? 0) then
    let s := set_pInfo (set_reconfig 0 (pInfo s)) s in
    let '(len, info) := daqConfig (max_modules bd) (sizeof_epics_out bd) (dataInfo s) (pInfo s) in
    let s := set_dataInfo info (set_xferInfo (set_crcLength len (xferInfo s)) s) in
    if truthy len then
      match loadLocalTable (sysRate bd) info r (configFileCRC (pInfo s)) (xferInfo s) (localTable s) with
      | (_, Trap) => None
      | ((x, table), Return _) =>
          let s := set_localTable table (set_xferInfo x s) in
          let n := Z.to_nat (numChans info) in
          let s := set_dHistory (for_n n (λ ii h, <[ii := replicate MAX_HISTRY (flit 0 0)]> h) (dHistory s)) s in
          let s := set_uHistory (for_n n (λ ii h, <[ii := 0]> h) (uHistory s)) s in
          Some (set_totalChans n (set_tpStart (offsetAccum x) s))
      end
    else Some s
  else Some s.

(** *** Test points (lines 804-1043) *)

(** [in_the_lists]: looks a number up in the requested lists and clears it there. *)
Definition in_the_lists (excTable : list DAQ_LKUP_TABLE) (num : Z) (slot : nat) (st : list Z * list Z)
  : (list Z * list Z) * bool :=
  match for_exit 0 DAQ_GDS_MAX_TP_ALLOWED (λ i '(tpnum, excnum),
          if tpnum !!! i =? num then ((<[i := 0]> tpnum, excnum), Some true)
          else if excnum !!! i =? num then
            if Z.of_nat i =? lt_offset (excTable !!! slot) then ((tpnum, <[i := 0]> excnum), Some true)
            else ((tpnum, excnum), Some false)
          else ((tpnum, excnum), None)) st with
  | (st, Some b) => (st, b)
  | (st, None) => (st, false)
  end.

(** [empty_slot]: the first slot with no test point. *)
Definition empty_slot (tpNum : list Z) : option nat :=
  (for_exit 0 DAQ_GDS_MAX_TP_ALLOWED (λ i u, if tpNum !!! i =? 0 then (u, Some i) else (u, None)) tt).2.

Definition clear_deselected (i : nat) (st : (list Z * list Z) * DaqState) : (list Z * list Z) * DaqState :=
  let '(lists, s) := st in
  let t := sel s in
  let num := tpNum t !!! i in
  if num =? 0 then st
  else
    match in_the_lists (excTable t) num i lists with
    | (lists, true) => (lists, s)
    | (lists, false) =>
        let s := set_sel (set_tpNum (<[i := 0]> (tpNum t)) t) s in
        let ltSlot := (Z.to_nat (numChans (dataInfo s)) + i)%nat in
        let exc := excTable t !!! i in
        let e := localTable s !!! ltSlot in
        let forget := λ s, set_sel (set_excTable (alter (set_sigNum 0) i (excTable (sel s))) (sel s)) s in
        let s := if lt_type e =? DAQ_SRC_FM_EXC then forget (set_excite (fmNum exc) (flit 0 0) s)
                 else if lt_type e =? DAQ_SRC_NFM_EXC
                      then forget (set_excSignal (<[Z.to_nat (fmNum exc) := flit 0 0]> (excSignal s)) s)
                 else s in
        let s := set_localTable (alter (λ e, mkLkup 0 0 0 0 1 (lt_offset e)) ltSlot (localTable s)) s in
        (lists, set_dataInfo (set_tp (alter (set_dataType DAQ_DATATYPE_FLOAT) ltSlot (tp (dataInfo s))) (dataInfo s)) s)
    end.

(** The entry of the lookup table for a selected test point or excitation; [ii] is
    the excitation's index in the request table. *)
Definition tp_entry (r : DAQ_RANGE) (num : Z) (e : DAQ_LKUP_TABLE) : option DAQ_LKUP_TABLE :=
  if (filtTpMin r <=? num) && (num <? filtTpMax r) then
    let jj := num - filtTpMin r in
    let sys := Z.quot jj (filtTpSize r) in
    let jj := jj - sys * filtTpSize r in
    Some (mkLkup DAQ_SRC_FM_TP sys (Z.quot jj DAQ_NUM_FM_TP) (Z.rem jj DAQ_NUM_FM_TP) 1 (lt_offset e))
  else if (xTpMin r <=? num) && (num <? xTpMax r) then
    Some (mkLkup DAQ_SRC_NFM_TP (sysNum e) (fmNum e) (num - xTpMin r) 1 (lt_offset e))
  else None.
Definition exc_entry (r : DAQ_RANGE) (num ii : Z) (e : DAQ_LKUP_TABLE) : option DAQ_LKUP_TABLE :=
  if (filtExMin r <=? num) && (num <? filtExMax r) then
    let jj := num - filtExMin r in
    Some (mkLkup DAQ_SRC_FM_EXC (Z.quot jj (filtExSize r)) (Z.rem jj (filtExSize r)) ii 1 (lt_offset e))
  else if (xExMin r <=? num) && (num <? xExMax r) then
    Some (mkLkup DAQ_SRC_NFM_EXC 0 (num - xExMin r) ii 1 (lt_offset e))
  else None.

(** Fills a slot: the lookup table, the data type, the request's status, [tpNum]. *)
Definition fill_slot (row slot : nat) (num : Z) (entry : DAQ_LKUP_TABLE) (s : DaqState) : DaqState :=
  let ltSlot := (Z.to_nat (numChans (dataInfo s)) + slot)%nat in
  let s := set_localTable (<[ltSlot := entry]> (localTable s)) s in
  let s := set_dataInfo (set_tp (alter (set_dataType DAQ_DATATYPE_FLOAT) ltSlot (tp (dataInfo s))) (dataInfo s)) s in
  let t := sel s in
  set_sel (set_tpNum (<[slot := num]> (tpNum t)) (set_gdsStat (clear_status row slot (gdsStat t)) t)) s.

Definition insert_tp (r : DAQ_RANGE) (offs : nat) (lists : list Z * list Z) (i : nat) (s : DaqState)
  : DaqState * option unit :=
  let exc := (DAQ_GDS_MAX_TP_ALLOWED <=? i)%nat in
  let ii := (i - DAQ_GDS_MAX_TP_ALLOWED)%nat in
  let num := if exc then lists.2 !!! ii else lists.1 !!! i in
  if num =? 0 then (s, None)
  else
    match empty_slot (tpNum (sel s)) with
    | None => (s, Some tt)
    | Some slot =>
        let e := localTable s !!! (Z.to_nat (numChans (dataInfo s)) + slot)%nat in
        if exc then
          match exc_entry r num (Z.of_nat ii) e with
          | Some entry =>
              let x := excTable (sel s) in
              let s := set_sel (set_excTable (alter (λ x, mkLkup (lt_type x) (sysNum entry) (fmNum entry) num (decFactor x)
                         (Z.of_nat ii)) slot x) (sel s)) s in
              (fill_slot offs slot num entry s, None)
          | None => (s, None)
          end
        else
          match tp_entry r num e with
          | Some entry => (fill_slot (2 + offs) slot num entry s, None)
          | None => (s, None)
          end
    end.

(** The number of slots up to the last one used. *)
Definition num_tps (tpNum : list Z) : nat :=
  for_n DAQ_GDS_MAX_TP_ALLOWED (λ i n, if truthy (tpNum !!! i) then S i else n) 0%nat.

(** Totals, offsets and the monitor (lines 1008-1041). *)
Definition assign_offsets (bd : DaqBuild) (s : DaqState) : DaqState :=
  let t := sel s in
  let n := num_tps (tpNum t) in
  let chans := Z.to_nat (numChans (dataInfo s)) in
  let x := xferInfo s in
  let step := λ i '(table, acc), (alter (set_lt_offset acc) (chans + i)%nat table, acc + sysRate bd * 4) in
  let '(table, acc) := for_n n step (localTable s, tpStart s) in
  let mon := for_n 32 (λ i m, <[i := if (i <? n)%nat then tpNum t !!! i else 0]> m) (gdsMonitor t) in
  set_sel (set_validTp n (set_gdsMonitor mon t))
    (set_totalChans (chans + n)%nat
      (set_localTable table
        (set_xferInfo (set_offsetAccum acc (set_totalSize (crcLength x + Z.of_nat n * sysRate bd * 4) x)) s))).

Definition select_testpoints (bd : DaqBuild) (r : DAQ_RANGE) (s : DaqState) : DaqState :=
  let offs := if sysRate bd <? DAQ_16K_SAMPLE_SIZE then 1%nat else 0%nat in
  let g := gdsNum (sel s) in
  let lists := (take DAQ_GDS_MAX_TP_ALLOWED (g !!! (2 + offs)%nat), take DAQ_GDS_MAX_TP_ALLOWED (g !!! offs)) in
  let '(lists, s) := for_n DAQ_GDS_MAX_TP_ALLOWED clear_deselected (lists, s) in
  let s := (for_exit 0 (2 * DAQ_GDS_MAX_TP_ALLOWED) (insert_tp r offs lists) s).1 in
  assign_offsets bd s.

(** The list sent with the data follows one second behind (lines 1045-1053). *)
Definition update_net (s : DaqState) : DaqState :=
  let t := sel s in
  let x := xferInfo s in
  let list := for_n (validTp t) (λ i l, <[i := tpNum t !!! i]> l) (tpNumNet t) in
  set_xferInfo (set_totalSizeNet (totalSize x) x)
    (set_sel (mkSel (tpNum t) list (validTp t) (validTp t) (validEx t) (excTable t) (gdsNum t) (gdsStat t) (gdsMonitor t)) s).

(** *** [daqWrite] *)

(** Return value: kB/s. *)
Definition daq_rate (s : DaqState) : Z := Z.quot (totalSize (xferInfo s) * DAQ_NUM_DATA_BLOCKS_PER_SECOND) 1000.

Definition end_block (bd : DaqBuild) (dcu : Z) (r : DAQ_RANGE) (inp : DaqIn) (s : DaqState) : option DaqState :=
  match reconfigure bd r (publish_block dcu inp s) with
  | None => None
  | Some s =>
      let s := if daqBlockNum (clk s) =? 15 then select_testpoints bd r s else s in
      Some (if daqBlockNum (clk s) =? 0 then update_net s else s)
  end.

(** [flag == DAQ_WRITE]. *)
Definition daq_write (bd : DaqBuild) (dcu : Z) (r : DAQ_RANGE) (inp : DaqIn) (s : DaqState) : option DaqState :=
  let s := set_clk (set_daqSlot (Z.rem (daqSlot (clk s) + 1) (sysRate bd)) (clk s)) s in
  match acquire bd inp s with
  | None => None
  | Some s =>
      let s := read_excitations bd inp (write_epics inp s) in
      if daqSlot (clk s) =? sysRate bd - 1 then end_block bd dcu r inp s else Some s
  end.

(** [flag == DAQ_CONNECT]; the status is -1 or the data rate. *)
Definition daq_connect (bd : DaqBuild) (r : DAQ_RANGE) (s : DaqState) : option (Z * DaqState) :=
  let s := set_clk (mkClk (-1) 0 (DAQ_NUM_DATA_BLOCKS - 1) 0 0) s in
  let s := set_dHistory (replicate (Z.to_nat DCU_MAX_CHANNELS) (replicate MAX_HISTRY (flit 0 0))) s in
  let s := set_uHistory (replicate (Z.to_nat DCU_MAX_CHANNELS) 0) s in
  let s := set_pWriteBuffer (buf_size * 15) s in
  let s := set_pInfo (set_reconfig 0 (pInfo s)) s in
  let '(len, info) := daqConfig (max_modules bd) (sizeof_epics_out bd) (dataInfo s) (pInfo s) in
  let s := set_dataInfo info (set_xferInfo (set_crcLength len (xferInfo s)) s) in
  if len =? -1 then Some (-1, s)
  else
    match loadLocalTable (sysRate bd) info r (configFileCRC (pInfo s)) (xferInfo s) (localTable s) with
    | (_, Trap) => None
    | ((x, table), Return status) =>
        let s := set_localTable table (set_xferInfo x s) in
        if status =? -1 then Some (-1, s)
        else
          let offs := if sysRate bd <? DAQ_16K_SAMPLE_SIZE then 1%nat else 0%nat in
          let t := sel s in
          let t := mkSel (zero_slots (tpNum t)) (zero_slots (tpNumNet t)) 0 0 (validEx t) (excTable t)
                     (clear_row offs (clear_row (2 + offs) (gdsNum t))) (gdsStat t) (gdsMonitor t) in
          let s := set_sel t (set_totalChans (Z.to_nat (numChans info)) (set_tpStart (offsetAccum x) s)) in
          Some (daq_rate s, s)
    end.
End defs.
Arguments Write : clear implicits.
Arguments DaqState : clear implicits.
Arguments DaqIn : clear implicits.
End DaqWrite.
