(* ===== verification/DaqProps.v ===== *)
(** * Properties of data acquisition ([DaqConfig.v], [DaqWrite.v])

    - the layout of a block: [loadLocalTable] against [daqConfig];
    - the samples of a cycle stay in their channels' parts of the block, and the
      data type for which they do not;
    - packing of bit words by the 32-bit unsigned channels;
    - what a change of configuration does to active test points and to a bad
      channel count. *)
From S2P Require Import Prelude CFloat Iir FilterModule DaqConfig DaqWrite.
Import Iir FilterModule DaqConfig DaqWrite.

Module DaqProps.

(** ** The layout of a block *)

(** Samples per block, bytes per sample. *)
Definition per_block (e : TpEntry) : Z := dataRate e / DAQ_NUM_DATA_BLOCKS.
Definition chan_bytes (e : TpEntry) : Z := per_block e * DAQ_DATA_TYPE_SIZE (dataType e).

(** Where the part of channel [ii] starts: after the EPICS data and the channels before. *)
Definition chan_start (info : DAQ_INFO_BLOCK) (ii : nat) : Z :=
  4 * numEpicsTotal info + foldr Z.add 0 (map (λ k, chan_bytes (tp info !!! k)) (seq 0 ii)).

(** A channel that can be acquired by a model of [rate] cycles per block. *)
Record chan_valid (rate : Z) (r : DAQ_RANGE) (e : TpEntry) : Prop := {
  cv_rate : dataRate e = DAQ_NUM_DATA_BLOCKS * per_block e;
  cv_pos : 0 < per_block e;
  cv_div : rate = rate / per_block e * per_block e;
  cv_type : 1 <= dataType e <= 7;
  cv_num : ∀ old, classify r (tpnum e) old ≠ None
}.

Lemma chan_start_S info ii : chan_start info (S ii) = chan_start info ii + chan_bytes (tp info !!! ii).
Proof.
  unfold chan_start. rewrite seq_S, map_app, foldr_app. cbn [map foldr plus].
  assert (Hf : ∀ l x, foldr Z.add x l = foldr Z.add 0 l + x) by (induction l as [|y l IH]; intros x; simpl; [|rewrite IH]; lia).
  rewrite (Hf _ (_ + 0)). lia.
Qed.

Lemma classify_keeps r num old e : classify r num old = Some e → decFactor e = decFactor old ∧ lt_offset e = lt_offset old.
Proof.
  unfold classify. repeat case_match; intros E; simplify_eq; done.
Qed.

Lemma type_size_pos t : 1 <= t <= 7 → 2 <= DAQ_DATA_TYPE_SIZE t <= 16.
Proof.
  intros Ht. assert (t = 1 ∨ t = 2 ∨ t = 3 ∨ t = 4 ∨ t = 5 ∨ t = 6 ∨ t = 7) as Hc by lia.
  destruct Hc as [->|[->|[->|[->|[->|[->| ->]]]]]]; vm_compute; split; discriminate.
Qed.

Lemma chan_start_0 info : chan_start info 0 = 4 * numEpicsTotal info.
Proof. unfold chan_start. cbn [seq map foldr]. lia. Qed.

Section Layout.
Context (rate : Z) (r : DAQ_RANGE) (pInfo : DAQ_INFO_BLOCK).
Context (Hrate : 0 < rate) (Hcount : 0 <= numChans pInfo <= DCU_MAX_CHANNELS) (Hepics : 0 <= numEpicsTotal pInfo).
Let n := Z.to_nat (numChans pInfo).
Context (Hvalid : ∀ ii, (ii < n)%nat → chan_valid rate r (tp pInfo !!! ii)).
Context (Hfits : chan_start pInfo n <= buf_size).

Lemma chan_bytes_pos ii : (ii < n)%nat → 0 < chan_bytes (tp pInfo !!! ii).
Proof.
  intros Hi. destruct (Hvalid ii Hi) as [_ Hp _ Ht _]. pose proof (type_size_pos _ Ht). unfold chan_bytes. nia.
Qed.

Lemma chan_start_mono i j : (i <= j <= n)%nat → 0 <= chan_start pInfo i <= chan_start pInfo j.
Proof.
  intros [Hij Hj]. split.
  - assert (Hi : (i <= n)%nat) by lia. clear Hij Hj. induction i as [|i IH]; [unfold chan_start; simpl; lia|].
    rewrite chan_start_S. pose proof (chan_bytes_pos i ltac:(lia)). specialize (IH ltac:(lia)). lia.
  - induction j as [|j IH]; [by replace i with 0%nat by lia|]. destruct (decide (i = S j)) as [->|]; [lia|].
    rewrite chan_start_S. pose proof (chan_bytes_pos j ltac:(lia)). specialize (IH ltac:(lia) ltac:(lia)). lia.
Qed.

Lemma config_length entries :
  length entries = Z.to_nat DCU_MAX_CHANNELS →
  let '(len, entries') := for_n n (config_channel pInfo) (4 * numEpicsTotal pInfo, entries) in
  len = chan_start pInfo n ∧ ∀ ii, (ii < n)%nat → entries' !!! ii = tp pInfo !!! ii.
Proof.
  intros Hl. assert (Hn : (n <= Z.to_nat DCU_MAX_CHANNELS)%nat) by (unfold n; lia).
  assert (Hinv : ∀ k, (k <= n)%nat → let '(len, entries') := for_n k (config_channel pInfo) (4 * numEpicsTotal pInfo, entries) in
    len = chan_start pInfo k ∧ length entries' = length entries ∧ ∀ ii, (ii < k)%nat → entries' !!! ii = tp pInfo !!! ii).
  { induction k as [|k IH]; intros Hk.
    - simpl. split; [unfold chan_start; simpl; lia|]. split; [done|lia].
    - specialize (IH ltac:(lia)). rewrite for_up_S, Nat.add_0_l.
      destruct (for_n k (config_channel pInfo) (4 * numEpicsTotal pInfo, entries)) as [len es].
      destruct IH as (-> & Hes & Hii). unfold config_channel.
      destruct (Hvalid k ltac:(lia)) as [Hr Hp _ Ht _]. pose proof (type_size_pos _ Ht) as Hsz.
      pose proof (chan_start_mono (S k) n ltac:(lia)) as Hm. pose proof (chan_start_mono k n ltac:(lia)) as Hm'.
      rewrite chan_start_S in Hm. split; [|split].
      + rewrite chan_start_S.
        assert (Hb : DAQ_DATA_TYPE_SIZE (dataType (tp pInfo !!! k)) * dataRate (tp pInfo !!! k) =
          chan_bytes (tp pInfo !!! k) * 16) by (rewrite Hr; unfold chan_bytes, DAQ_NUM_DATA_BLOCKS; ring).
        assert (Hbuf : buf_size < 2 ^ 20) by done. pose proof (chan_bytes_pos k ltac:(lia)).
        rewrite Hb, (wrap_small 32) by lia. unfold DAQ_NUM_DATA_BLOCKS. rewrite Z.div_mul by lia.
        apply swrap_small; lia.
      + by rewrite length_insert.
      + intros ii Hi. rewrite lookup_total_insert by lia. destruct (decide (ii = k)) as [->|]; [by destruct (tp pInfo !!! k)|].
        apply Hii. lia. }
  specialize (Hinv n (le_n n)). destruct (for_n n (config_channel pInfo) _) as [len es]. tauto.
Qed.

(** One channel of [loadLocalTable]. *)
Lemma load_channel_step info ii x table :
  tp info !!! ii = tp pInfo !!! ii → (ii < n)%nat → (n < length table)%nat → offsetAccum x = chan_start pInfo ii →
  lt_offset (table !!! ii) = chan_start pInfo ii →
  let '((x', table'), e) := load_channel rate info r ii (x, table) in
  e = None ∧ x' = set_offsetAccum (chan_start pInfo (S ii)) x ∧ length table' = length table ∧
  decFactor (table' !!! ii) = rate / per_block (tp pInfo !!! ii) ∧ lt_offset (table' !!! ii) = chan_start pInfo ii ∧
  lt_offset (table' !!! S ii) = chan_start pInfo (S ii) ∧
  ∀ k, (k < ii)%nat → table' !!! k = table !!! k.
Proof.
  intros He Hi Hlen Hx Ht. unfold load_channel. rewrite He. fold (per_block (tp pInfo !!! ii)).
  destruct (Hvalid ii Hi) as [Hr Hp Hd Hty Hn]. set (e := tp pInfo !!! ii) in *. set (p := per_block e) in *.
  assert (Hd1 : 1 <= rate / p) by nia.
  rewrite Z.gtb_ltb, (proj2 (Z.ltb_ge rate p)), (proj2 (Z.eqb_neq p 0)) by nia.
  assert (Hq : Z.quot rate (rate / p) = p).
  { rewrite Z.quot_div_nonneg by lia. rewrite Hd at 1. rewrite Z.mul_comm. apply Z.div_mul. lia. }
  rewrite Hq, Hx. cbn [offsetAccum set_offsetAccum].
  replace (chan_start pInfo ii + p * DAQ_DATA_TYPE_SIZE (dataType e)) with (chan_start pInfo (S ii))
    by (rewrite chan_start_S; done).
  set (t1 := alter (set_decFactor (rate / p)) ii table). set (t2 := alter (set_lt_offset _) (S ii) t1).
  assert (Hl1 : length t1 = length table) by (apply length_alter). assert (Hl2 : length t2 = length table) by (unfold t2; by rewrite length_alter).
  assert (Ht2 : t2 !!! ii = set_decFactor (rate / p) (table !!! ii)).
  { unfold t2, t1. rewrite lookup_total_alter_ne by lia. by rewrite lookup_total_alter_eq by lia. }
  destruct (classify r (tpnum e) (t2 !!! ii)) as [entry|] eqn:Ec; [|by apply Hn in Ec].
  apply classify_keeps in Ec as [Ec1 Ec2]. rewrite Ht2 in Ec1, Ec2.
  split; [done|]. split; [done|]. split; [by rewrite length_insert|].
  rewrite !lookup_total_insert by lia. rewrite decide_True, decide_False by lia. split; [by rewrite Ec1|]. split; [by rewrite Ec2|].
  split; [unfold t2; by rewrite lookup_total_alter_eq by lia|].
  intros k Hk. rewrite lookup_total_insert, decide_False by lia. unfold t2, t1. by rewrite !lookup_total_alter_ne by lia.
Qed.

Lemma load_table info crc x table :
  numChans info = numChans pInfo → numEpicsTotal info = numEpicsTotal pInfo →
  (∀ ii, (ii < n)%nat → tp info !!! ii = tp pInfo !!! ii) → (n < length table)%nat →
  let '((x', table'), e) := loadLocalTable rate info r crc x table in
  e = Return 0 ∧ offsetAccum x' = chan_start pInfo n ∧ totalSize x' = crcLength x ∧ totalSizeNet x' = crcLength x ∧
  ∀ ii, (ii < n)%nat →
    decFactor (table' !!! ii) = rate / per_block (tp pInfo !!! ii) ∧ lt_offset (table' !!! ii) = chan_start pInfo ii.
Proof.
  intros Hn Ht Htp Hlen. unfold loadLocalTable. rewrite Hn, Ht. fold n.
  set (x0 := mkXfer _ _ _ _ _ _). set (t0 := alter _ 0%nat table).
  destruct (for_exit_inv (λ k (st : DAQ_XFER_INFO * list DAQ_LKUP_TABLE),
    st.1 = set_offsetAccum (chan_start pInfo k) x0 ∧ length st.2 = length table ∧ lt_offset (st.2 !!! k) = chan_start pInfo k ∧
    ∀ ii, (ii < k)%nat → decFactor (st.2 !!! ii) = rate / per_block (tp pInfo !!! ii) ∧ lt_offset (st.2 !!! ii) = chan_start pInfo ii)
    (load_channel rate info r) 0 n (x0, t0)) as [H1 H2].
  - cbn [fst snd]. split; [by rewrite chan_start_0|]. unfold t0. rewrite length_alter. split; [done|].
    rewrite lookup_total_alter_eq by lia. split; [by rewrite chan_start_0|lia].
  - intros k [x1 t1] Hk (Hx & Hl & Ho & Hii). cbn [fst snd] in *.
    pose proof (load_channel_step info k x1 t1 (Htp k ltac:(lia)) ltac:(lia) ltac:(lia) ltac:(by rewrite Hx) Ho) as Hs.
    destruct (load_channel rate info r k (x1, t1)) as [[x2 t2] e]. cbn [fst snd]. destruct Hs as (-> & -> & Hl2 & Hd2 & Ho2 & Hs2 & Hold).
    split; [done|]. split; [by rewrite Hx|]. split; [by rewrite Hl2|]. split; [done|]. intros ii Hi.
    destruct (decide (ii = k)) as [->|]; [done|]. rewrite Hold by lia. apply Hii. lia.
  - destruct (for_exit 0 n (load_channel rate info r) (x0, t0)) as [[x1 t1] o]. cbn [fst snd] in *. rewrite H1.
    destruct H2 as (-> & _ & _ & H2). split; [done|]. split; [done|]. split; [done|]. split; [done|]. apply H2.
Qed.

(** C31: The two routines that compute a block's layout agree: for a configuration
    whose channels can all be acquired and fit in a block, [daqConfig] returns
    the size of the block and [loadLocalTable] succeeds, placing the channels
    one after the other from the end of the EPICS data to exactly that size,
    each with room for its samples of one block and the decimation that gives
    that number of samples. *)
Theorem daq_layout mm sz dataInfo crc x table :
  length (tp dataInfo) = Z.to_nat DCU_MAX_CHANNELS → (n < length table)%nat →
  let '(len, info) := daqConfig mm sz dataInfo pInfo in
  let '((x', table'), e) := loadLocalTable rate info r crc (set_crcLength len x) table in
  e = Return 0 ∧ numChans info = numChans pInfo ∧ len = chan_start pInfo n ∧ offsetAccum x' = len ∧ totalSize x' = len ∧
  ∀ ii, (ii < n)%nat →
    lt_offset (table' !!! ii) = chan_start pInfo ii ∧
    chan_start pInfo (S ii) = lt_offset (table' !!! ii) + per_block (tp info !!! ii) * DAQ_DATA_TYPE_SIZE (dataType (tp info !!! ii)) ∧
    0 < decFactor (table' !!! ii) ∧ decFactor (table' !!! ii) * per_block (tp info !!! ii) = rate.
Proof.
  intros Hl Ht. unfold daqConfig. rewrite Z.gtb_ltb, (proj2 (Z.ltb_ge _ _)) by lia. cbv zeta.
  pose proof (config_length (tp dataInfo) Hl) as Hc. fold n.
  destruct (for_n n (config_channel pInfo) (4 * numEpicsTotal pInfo, tp dataInfo)) as [len es]. destruct Hc as [-> Hes].
  set (info := mkInfo _ _ _ _ _ _ _ _ _ _ _ _ _).
  pose proof (load_table info crc (set_crcLength (chan_start pInfo n) x) table eq_refl eq_refl Hes Ht) as Hload.
  destruct (loadLocalTable rate info r crc _ table) as [[x' t'] e]. destruct Hload as (-> & Ho & Hts & _ & Hii).
  split; [done|]. split; [done|]. split; [done|]. split; [done|]. split; [done|]. intros ii Hi.
  destruct (Hii ii Hi) as [Hd Hoff]. change (tp info) with es. rewrite Hes, Hd, Hoff by done.
  destruct (Hvalid ii Hi) as [_ Hp Hdiv _ _]. split; [done|]. split; [by rewrite chan_start_S|]. split; [nia|lia].
Qed.
End Layout.

(** ** The samples of a cycle *)
Section Acquire.
Context {F : Type} `{FloatOps F}.

(** What a cycle's acquisition leaves alone. *)
Definition same_config (s s' : DaqState F) : Prop :=
  localTable s' = localTable s ∧ dataInfo s' = dataInfo s ∧ clk s' = clk s ∧ pWriteBuffer s' = pWriteBuffer s ∧
  dsp s' = dsp s ∧ excSignal s' = excSignal s ∧ totalChans s' = totalChans s.

(** The write a channel makes when its sample is due. *)
Definition sample_addr (s : DaqState F) (ii : nat) : Z * Z :=
  let e := localTable s !!! ii in
  let type := dataType (tp (dataInfo s) !!! ii) in
  let slot := daqSlot (clk s) in
  let k := Z.quot slot (decFactor e) in
  let base := pWriteBuffer s + lt_offset e in
  if type =? DAQ_DATATYPE_16BIT_INT then (base + 2 * Z.lxor k 1, 2)
  else if type =? DAQ_DATATYPE_DOUBLE then (base + 8 * k, 8)
  else if type =? DAQ_DATATYPE_32BIT_UINT then (base + 4 * k, 4)
  else if type =? DAQ_DATATYPE_32BIT_INT then (base + 4 * slot, 4)
  else (base + 4 * k, 4).

Definition due (s : DaqState F) (ii : nat) : bool := Z.rem (daqSlot (clk s)) (decFactor (localTable s !!! ii)) =? 0.

Lemma write_sample_spec ii type e x s :
  type = dataType (tp (dataInfo s) !!! ii) → e = localTable s !!! ii →
  let s' := write_sample ii type e x s in
  same_config s s' ∧ ∃ v, blocks s' = blocks s ++ [mkWr (sample_addr s ii).1 (sample_addr s ii).2 v].
Proof.
  intros -> ->. unfold write_sample, sample_addr, store. repeat case_match; (split; [done|]); eexists; done.
Qed.

Lemma daq_channel_spec bd inp ii s :
  decFactor (localTable s !!! ii) ≠ 0 →
  let s' := (daq_channel bd inp ii s).1 in
  (daq_channel bd inp ii s).2 = None ∧ same_config s s' ∧
  if due s ii then ∃ v, blocks s' = blocks s ++ [mkWr (sample_addr s ii).1 (sample_addr s ii).2 v] else blocks s' = blocks s.
Proof.
  intros Hd. cbv zeta. unfold daq_channel. rewrite (proj2 (Z.eqb_neq _ _) Hd).
  set (e := localTable s !!! ii). set (type := dataType (tp (dataInfo s) !!! ii)).
  assert (Hgen : ∀ x s1, same_config s s1 → blocks s1 = blocks s →
    let res := if Z.rem (daqSlot (clk s1)) (decFactor e) =? 0 then (write_sample ii type e x s1, None)
               else if type =? DAQ_DATATYPE_32BIT_UINT then (hold_bits ii e x s1, None) else (s1, @None unit) in
    res.2 = None ∧ same_config s res.1 ∧
    if due s ii then ∃ v, blocks res.1 = blocks s ++ [mkWr (sample_addr s ii).1 (sample_addr s ii).2 v] else blocks res.1 = blocks s).
  { intros x s1 (E1 & E2 & E3 & E4 & E5 & E6 & E7) Hb. cbv zeta. unfold due. fold e. rewrite E3. destruct (Z.rem _ _ =? 0) eqn:Er.
    - pose proof (write_sample_spec ii type e x s1 ltac:(unfold type; by rewrite E2) ltac:(unfold e; by rewrite E1)) as [Hs [v Hv]].
      cbn [fst snd]. split; [done|]. split; [unfold same_config in *; intuition congruence|]. exists v. rewrite Hv, Hb.
      unfold sample_addr. by rewrite E1, E2, E3, E4.
    - destruct (type =? DAQ_DATATYPE_32BIT_UINT); cbn [fst snd]; unfold same_config; simpl; intuition congruence. }
  destruct (type =? DAQ_DATATYPE_32BIT_UINT).
  - apply Hgen; done.
  - destruct (decimate bd (decFactor e) (daq_source s inp e) (dHistory s !!! ii)) as [y h].
    destruct (Hgen y (set_dHistory (<[ii:=h]> (dHistory s)) s)) as (G1 & G2 & G3); [done|done|]. tauto.
Qed.

(** The part of the block that belongs to channel [ii], and a channel whose samples fit in it. *)
Definition in_part (rate : Z) (s : DaqState F) (ii : nat) (w : Write F) : Prop :=
  let e := localTable s !!! ii in
  let start := pWriteBuffer s + lt_offset e in
  start <= wr_addr w ∧ wr_addr w + wr_size w <= start + rate / decFactor e * DAQ_DATA_TYPE_SIZE (dataType (tp (dataInfo s) !!! ii)).

Record chan_ok (rate : Z) (s : DaqState F) (ii : nat) : Prop := {
  ck_dec : 0 < decFactor (localTable s !!! ii);
  ck_div : decFactor (localTable s !!! ii) * (rate / decFactor (localTable s !!! ii)) = rate;
  ck_type : 1 <= dataType (tp (dataInfo s) !!! ii) <= 7;
  ck_int : dataType (tp (dataInfo s) !!! ii) = DAQ_DATATYPE_32BIT_INT → decFactor (localTable s !!! ii) = 1;
  ck_short : dataType (tp (dataInfo s) !!! ii) = DAQ_DATATYPE_16BIT_INT → Z.even (rate / decFactor (localTable s !!! ii)) = true
}.

Lemma lxor1_bound k p : 0 <= k < p → Z.even p = true → 0 <= Z.lxor k 1 < p.
Proof.
  intros Hk He. apply Z.even_spec in He as [q Hq].
  destruct k as [|[k|k|]|k]; [change (Z.lxor 0 1) with 1|change (Z.lxor (Z.pos k~1) 1) with (Z.pos k~0)
    |change (Z.lxor (Z.pos k~0) 1) with (Z.pos k~1)|change (Z.lxor 1 1) with 0|]; lia.
Qed.

Lemma due_write_in_part rate s ii v :
  chan_ok rate s ii → 0 <= daqSlot (clk s) < rate → due s ii = true →
  in_part rate s ii (mkWr (sample_addr s ii).1 (sample_addr s ii).2 v).
Proof.
  intros [Hd Hdiv Ht Hint Hsh] Hslot Hdue. unfold due in Hdue. apply Z.eqb_eq in Hdue. unfold in_part, sample_addr. cbv zeta.
  set (e := localTable s !!! ii) in *. set (type := dataType (tp (dataInfo s) !!! ii)) in *. set (slot := daqSlot (clk s)) in *.
  set (d := decFactor e) in *. set (p := rate / d) in *.
  assert (Hk : 0 <= Z.quot slot d < p).
  { rewrite Z.rem_mod_nonneg in Hdue by lia. rewrite Z.quot_div_nonneg by lia.
    split; [apply Z.div_pos; lia|]. apply Z.div_lt_upper_bound; lia. }
  set (k := Z.quot slot d) in *. pose proof (type_size_pos type Ht) as Hsz.
  destruct (Z.eqb_spec type DAQ_DATATYPE_16BIT_INT) as [E|E1].
  { pose proof (lxor1_bound k p Hk (Hsh E)). rewrite E. change (DAQ_DATA_TYPE_SIZE DAQ_DATATYPE_16BIT_INT) with 2. simpl; lia. }
  destruct (Z.eqb_spec type DAQ_DATATYPE_DOUBLE) as [E|E2].
  { rewrite E. change (DAQ_DATA_TYPE_SIZE DAQ_DATATYPE_DOUBLE) with 8. simpl; lia. }
  destruct (Z.eqb_spec type DAQ_DATATYPE_32BIT_UINT) as [E|E3].
  { rewrite E. change (DAQ_DATA_TYPE_SIZE DAQ_DATATYPE_32BIT_UINT) with 4. simpl; lia. }
  destruct (Z.eqb_spec type DAQ_DATATYPE_32BIT_INT) as [E|E4].
  { rewrite E. change (DAQ_DATA_TYPE_SIZE DAQ_DATATYPE_32BIT_INT) with 4.
    assert (d = 1) as Hd1 by (by apply Hint). assert (p = rate) by lia. simpl; lia. }
  assert (Hbig : 4 <= DAQ_DATA_TYPE_SIZE type).
  { unfold DAQ_DATATYPE_16BIT_INT, DAQ_DATATYPE_DOUBLE, DAQ_DATATYPE_32BIT_UINT, DAQ_DATATYPE_32BIT_INT in *.
    assert (type = 3 ∨ type = 4 ∨ type = 6) as [->|[->| ->]] by lia; vm_compute; discriminate. }
  cbn [wr_addr wr_size fst snd]. nia.
Qed.

(** C16: Acquisition stays in bounds: when every entry of the lookup table divides
    the rate, is not a decimated 32-bit signed channel nor a 16-bit channel with
    an odd number of samples per block, a cycle completes, makes one write for
    each channel whose sample is due, in order and in that channel's part of
    the block, and no other. *)
Theorem acquire_in_parts bd inp (s : DaqState F) :
  0 <= daqSlot (clk s) < sysRate bd → (∀ ii, (ii < totalChans s)%nat → chan_ok (sysRate bd) s ii) →
  ∃ s' ws, acquire bd inp s = Some s' ∧ same_config s s' ∧ blocks s' = blocks s ++ ws ∧
    Forall2 (in_part (sysRate bd) s) (filter (λ ii, due s ii = true) (seq 0 (totalChans s))) ws.
Proof.
  intros Hslot Hok. unfold acquire.
  destruct (for_exit_inv (λ k s', same_config s s' ∧ ∃ ws, blocks s' = blocks s ++ ws ∧
    Forall2 (in_part (sysRate bd) s) (filter (λ ii, due s ii = true) (seq 0 k)) ws) (daq_channel bd inp) 0 (totalChans s) s)
    as [Hn (Hs & ws & Hb & Hf)].
  - split; [done|]. exists []. split; [by rewrite app_nil_r|constructor].
  - intros k s1 Hk (Hs & ws & Hb & Hf). pose proof (Hok k ltac:(lia)) as Hck. pose proof Hs as (E1 & E2 & E3 & E4 & E5 & E6 & E7).
    destruct (daq_channel_spec bd inp k s1) as (D1 & D2 & D3); [rewrite E1; destruct Hck; lia|].
    split; [done|]. split; [unfold same_config in *; intuition congruence|].
    assert (Hdue : due s1 k = due s k) by (unfold due; by rewrite E1, E3).
    assert (Hadr : sample_addr s1 k = sample_addr s k) by (unfold sample_addr; by rewrite E1, E2, E3, E4).
    rewrite Hdue, Hadr in D3. rewrite seq_S, filter_app, Nat.add_0_l. simpl. destruct (due s k) eqn:Ed.
    + destruct D3 as [v Hv]. exists (ws ++ [mkWr (sample_addr s k).1 (sample_addr s k).2 v]).
      split; [by rewrite Hv, Hb, app_assoc|]. rewrite filter_cons_True by done. apply Forall2_app; [done|].
      constructor; [by apply due_write_in_part|constructor].
    + exists ws. rewrite filter_cons_False by (rewrite Ed; done). rewrite app_nil_r. split; [congruence|done].
  - destruct (for_exit 0 (totalChans s) (daq_channel bd inp) s) as [s' o]. simpl in *. subst o. eauto 10.
Qed.

(** A 32-bit signed channel that is decimated by [d] is written at the cycle
    number instead of the sample number: with at least two samples per block,
    its last sample lands past the end of its part, in the next channel's (or
    past the data). *)
Theorem int32_overrun bd inp (s : DaqState F) ii p :
  let e := localTable s !!! ii in
  dataType (tp (dataInfo s) !!! ii) = DAQ_DATATYPE_32BIT_INT → 2 <= decFactor e → 2 <= p → sysRate bd = decFactor e * p →
  daqSlot (clk s) = sysRate bd - decFactor e →
  ∃ v, blocks (daq_channel bd inp ii s).1 = blocks s ++ [v] ∧ wr_size v = 4 ∧
    pWriteBuffer s + lt_offset e + p * DAQ_DATA_TYPE_SIZE DAQ_DATATYPE_32BIT_INT <= wr_addr v.
Proof.
  cbv zeta. intros Ht Hd Hp Hr Hs. destruct (daq_channel_spec bd inp ii s ltac:(lia)) as (_ & _ & D).
  assert (Hdue : due s ii = true).
  { unfold due. rewrite Hs, Hr. apply Z.eqb_eq. rewrite Z.rem_mod_nonneg by nia.
    replace (decFactor (localTable s !!! ii) * p - decFactor (localTable s !!! ii)) with ((p - 1) * decFactor (localTable s !!! ii)) by ring.
    apply Z.mod_mul. lia. }
  rewrite Hdue in D. destruct D as [v Hv]. eexists. split; [exact Hv|]. unfold sample_addr. rewrite Ht. simpl. split; [done|].
  rewrite Hs, Hr. change (DAQ_DATA_TYPE_SIZE DAQ_DATATYPE_32BIT_INT) with 4. nia.
Qed.

(** An entry with no decimation factor stops the cycle. *)
Lemma acquire_traps bd inp (s : DaqState F) j :
  (j < totalChans s)%nat → decFactor (localTable s !!! j) = 0 → acquire bd inp s = None.
Proof.
  intros Hj Hd. unfold acquire.
  pose proof (for_exit_stops (λ s', localTable s' = localTable s) (daq_channel bd inp) 0 (totalChans s) j s) as Hx.
  destruct (for_exit 0 (totalChans s) (daq_channel bd inp) s) as [s' [u|]]; [done|]. exfalso. apply Hx; [done| | |lia|done].
  - intros k s1 E. rewrite <- E. unfold daq_channel. repeat case_match; simplify_eq; simpl; unfold write_sample, hold_bits, store;
      repeat case_match; done.
  - intros s1 E. unfold daq_channel. rewrite E, Hd. repeat case_match; done.
Qed.

(** ** Test points across a change of configuration *)

(** Looking a number up clears only that number. *)
Lemma in_lists_keeps ex other slot tpn exn num k :
  num ≠ other → num ≠ 0 → tpn !!! k = num → (∀ j, (j < DAQ_GDS_MAX_TP_ALLOWED)%nat → exn !!! j ≠ num) →
  let st := (in_the_lists ex other slot (tpn, exn)).1 in st.1 !!! k = num ∧ (∀ j, (j < DAQ_GDS_MAX_TP_ALLOWED)%nat → st.2 !!! j ≠ num).
Proof.
  intros Hne H0 Hk Hex. unfold in_the_lists. set (f := λ (i : nat) '(tpnum, excnum), _).
  assert (Hinv : ∀ i n st, st.1 !!! k = num ∧ (∀ j, (j < DAQ_GDS_MAX_TP_ALLOWED)%nat → st.2 !!! j ≠ num) →
    (for_exit i n f st).1.1 !!! k = num ∧ (∀ j, (j < DAQ_GDS_MAX_TP_ALLOWED)%nat → (for_exit i n f st).1.2 !!! j ≠ num)).
  { intros i n. revert i. induction n as [|n IH]; intros i [a b] [Ha Hb]; [done|]. simpl in Ha, Hb. simpl.
    destruct (Z.eqb_spec (a !!! i) other) as [E|E].
    - split; [|done]. simpl. rewrite list_lookup_total_insert_ne; [done|]. intros ->. congruence.
    - destruct (Z.eqb_spec (b !!! i) other) as [E2|E2]; [|by apply IH].
      destruct (_ =? _); [|done]. simpl. split; [done|]. intros j Hj. destruct (decide (i = j)) as [->|].
      + destruct (decide (j < length b)%nat).
        * rewrite list_lookup_total_insert_eq by done. done.
        * rewrite list_insert_ge by lia. by apply Hb.
      + rewrite list_lookup_total_insert_ne by done. by apply Hb. }
  specialize (Hinv 0%nat DAQ_GDS_MAX_TP_ALLOWED (tpn, exn) (conj Hk Hex)).
  destruct (for_exit 0 DAQ_GDS_MAX_TP_ALLOWED f (tpn, exn)) as [st [b|]]; exact Hinv.
Qed.

(** A requested test point is found. *)
Lemma in_lists_found ex slot tpn exn num k :
  tpn !!! k = num → (k < DAQ_GDS_MAX_TP_ALLOWED)%nat → (∀ j, (j < DAQ_GDS_MAX_TP_ALLOWED)%nat → exn !!! j ≠ num) →
  (in_the_lists ex num slot (tpn, exn)).2 = true.
Proof.
  intros Hk Hlt Hex. unfold in_the_lists. set (f := λ (i : nat) '(tpnum, excnum), _).
  assert (Hind : ∀ n i, (i <= k < i + n)%nat → (for_exit i n f (tpn, exn)).2 = Some true).
  { induction n as [|n IH]; intros i Hi; [lia|]. simpl. destruct (Z.eqb_spec (tpn !!! i) num) as [E|E]; [done|].
    rewrite (proj2 (Z.eqb_neq _ _) (Hex i ltac:(lia))). apply IH. assert (i ≠ k) by congruence. lia. }
  specialize (Hind DAQ_GDS_MAX_TP_ALLOWED 0%nat ltac:(lia)).
  destruct (for_exit 0 DAQ_GDS_MAX_TP_ALLOWED f (tpn, exn)) as [st o]. simpl in Hind. by subst o.
Qed.

Lemma empty_slot_empty l k : empty_slot l = Some k → l !!! k = 0.
Proof.
  unfold empty_slot. generalize 0%nat as i, DAQ_GDS_MAX_TP_ALLOWED as n. intros i n. revert i.
  induction n as [|n IH]; intros i; simpl; [done|].
  destruct (Z.eqb_spec (l !!! i) 0); simpl; [intros E; by simplify_eq|apply IH].
Qed.

Lemma num_tps_above l i : (i < DAQ_GDS_MAX_TP_ALLOWED)%nat → l !!! i ≠ 0 → (i < num_tps l)%nat.
Proof.
  intros Hi Hl. unfold num_tps. set (f := λ (i n : nat), if truthy (l !!! i) then S i else n).
  pose proof (for_up_ind (λ k n, (i < k)%nat → (i < n)%nat) f 0 DAQ_GDS_MAX_TP_ALLOWED 0%nat) as Hx.
  apply Hx; [lia| |lia]. intros k n Hk Hn Hik. unfold f. destruct (truthy (l !!! k)) eqn:E; [lia|].
  apply Hn. assert (i ≠ k); [|lia]. intros ->. unfold truthy in E. apply negb_false_iff, Z.eqb_eq in E. done.
Qed.

(** Slot [i] holds [num], and the decimation its entry (for the present channel
    count [c]) has is [d]. *)
Definition holds (i : nat) (num : Z) (c : Z) (d : Z) (s : DaqState F) : Prop :=
  tpNum (sel s) !!! i = num ∧ numChans (dataInfo s) = c ∧ decFactor (localTable s !!! (Z.to_nat c + i)%nat) = d.

Lemma clear_other i num c d j tpn exn s k :
  j ≠ i → tpNum (sel s) !!! j ≠ num → num ≠ 0 → tpn !!! k = num → (∀ j, (j < DAQ_GDS_MAX_TP_ALLOWED)%nat → exn !!! j ≠ num) → holds i num c d s →
  let st := clear_deselected j ((tpn, exn), s) in
  holds i num c d st.2 ∧ st.1.1 !!! k = num ∧ (∀ j, (j < DAQ_GDS_MAX_TP_ALLOWED)%nat → st.1.2 !!! j ≠ num) ∧
  (∀ j', j' ≠ j → tpNum (sel st.2) !!! j' = tpNum (sel s) !!! j').
Proof.
  intros Hji Hj H0 Hk Hex (H1 & H2 & H3). cbv zeta. unfold clear_deselected.
  destruct (Z.eqb_spec (tpNum (sel s) !!! j) 0) as [E|E]; [done|].
  pose proof (in_lists_keeps (excTable (sel s)) (tpNum (sel s) !!! j) j tpn exn num k (not_eq_sym Hj) H0 Hk Hex) as Hin.
  cbv zeta in Hin. destruct Hin as [Hin1 Hin2].
  destruct (in_the_lists _ _ _ _) as [lists [|]]; cbn [fst snd] in *; [done|].
  split; [|split; [done|split; [done|]]].
  - unfold holds. repeat case_match; simpl; rewrite list_lookup_total_insert_ne by done;
      rewrite H2, lookup_total_alter_ne by lia; done.
  - intros j' Hj'. repeat case_match; simpl; by rewrite list_lookup_total_insert_ne by done.
Qed.

Lemma insert_other r offs lists i num c d k s :
  num ≠ 0 → holds i num c d s → holds i num c d (insert_tp r offs lists k s).1.
Proof.
  intros H0 (H1 & H2 & H3). unfold insert_tp. destruct (_ =? 0); [done|].
  destruct (empty_slot (tpNum (sel s))) as [slot|] eqn:Es; [|done]. apply empty_slot_empty in Es.
  assert (slot ≠ i) by (intros ->; congruence).
  unfold fill_slot, holds. repeat case_match; simpl; try done;
    rewrite list_lookup_total_insert_ne by done; rewrite H2, list_lookup_total_insert_ne by lia; done.
Qed.

Lemma insert_all r offs lists i num c d n k s :
  num ≠ 0 → holds i num c d s → holds i num c d (for_exit k n (insert_tp r offs lists) s).1.
Proof.
  intros H0. revert k s. induction n as [|n IH]; intros k s Hs; [done|]. simpl.
  pose proof (insert_other r offs lists i num c d k s H0 Hs) as Hi.
  destruct (insert_tp r offs lists k s) as [s' [u|]]; [done|]. by apply IH.
Qed.

Lemma assign_keeps bd i num c d s :
  (i < DAQ_GDS_MAX_TP_ALLOWED)%nat → num ≠ 0 → holds i num c d s →
  let s' := assign_offsets bd s in
  decFactor (localTable s' !!! (Z.to_nat c + i)%nat) = d ∧ (Z.to_nat c + i < totalChans s')%nat.
Proof.
  intros Hi H0 (H1 & H2 & H3). cbv zeta. unfold assign_offsets. rewrite H2.
  set (step := λ (i0 : nat) '(table, acc), _).
  assert (Hdec : ∀ n st, decFactor ((for_n n step st).1 !!! (Z.to_nat c + i)%nat) = decFactor (st.1 !!! (Z.to_nat c + i)%nat)).
  { intros n st. apply (for_up_inv (λ st', decFactor (st'.1 !!! (Z.to_nat c + i)%nat) = decFactor (st.1 !!! (Z.to_nat c + i)%nat)));
      [done|]. intros k [t a] _ E. rewrite <- E. simpl. destruct (decide (k = i)) as [->|].
    - destruct (decide (Z.to_nat c + i < length t)%nat).
      + by rewrite lookup_total_alter_eq by done.
      + rewrite !list_lookup_total_alt, !lookup_ge_None_2; [done|lia|]. rewrite length_alter. lia.
    - by rewrite lookup_total_alter_ne by lia. }
  specialize (Hdec (num_tps (tpNum (sel s))) (localTable s, tpStart s)).
  destruct (for_n (num_tps (tpNum (sel s))) step (localTable s, tpStart s)) as [t a]. cbn [fst] in Hdec.
  split; [simpl; congruence|]. simpl. pose proof (num_tps_above (tpNum (sel s)) i Hi ltac:(congruence)). lia.
Qed.

(** The request tables, for a model of this rate. *)
Definition tp_requests (bd : DaqBuild) (s : DaqState F) : list Z * list Z :=
  let offs := if sysRate bd <? DAQ_16K_SAMPLE_SIZE then 1%nat else 0%nat in
  (take DAQ_GDS_MAX_TP_ALLOWED (gdsNum (sel s) !!! (2 + offs)%nat), take DAQ_GDS_MAX_TP_ALLOWED (gdsNum (sel s) !!! offs)).

Lemma select_keeps bd r s i num c d k :
  (i < DAQ_GDS_MAX_TP_ALLOWED)%nat → num ≠ 0 → holds i num c d s → (∀ j, (j < DAQ_GDS_MAX_TP_ALLOWED)%nat → j ≠ i → tpNum (sel s) !!! j ≠ num) →
  (k < DAQ_GDS_MAX_TP_ALLOWED)%nat → (tp_requests bd s).1 !!! k = num →
  (∀ j, (j < DAQ_GDS_MAX_TP_ALLOWED)%nat → (tp_requests bd s).2 !!! j ≠ num) →
  let s' := select_testpoints bd r s in
  decFactor (localTable s' !!! (Z.to_nat c + i)%nat) = d ∧ (Z.to_nat c + i < totalChans s')%nat.
Proof.
  intros Hi H0 Hh Huniq Hk Hreq Hex. cbv zeta. unfold select_testpoints. unfold tp_requests in *. cbn [fst snd] in *.
  set (offs := if sysRate bd <? DAQ_16K_SAMPLE_SIZE then 1%nat else 0%nat) in *.
  set (tpn := take _ (_ !!! (2 + offs)%nat)) in *. set (exn := take _ (_ !!! offs)) in *.
  destruct (for_up_ind (λ m (st : (list Z * list Z) * DaqState F), holds i num c d st.2 ∧
      (∀ j, (m <= j)%nat → tpNum (sel st.2) !!! j = tpNum (sel s) !!! j) ∧
      ((m <= i)%nat → st.1.1 !!! k = num ∧ ∀ j, (j < DAQ_GDS_MAX_TP_ALLOWED)%nat → st.1.2 !!! j ≠ num))
    clear_deselected 0 DAQ_GDS_MAX_TP_ALLOWED ((tpn, exn), s)) as (Hfin & _).
  - done.
  - intros m [[a b] s1] Hm (Hh1 & Hsame & Hl). cbn [fst snd] in *. destruct (decide (m = i)) as [->|Hne].
    + destruct (Hl ltac:(lia)) as [Hl1 Hl2]. unfold clear_deselected. pose proof Hh1 as (Ht & _ & _). rewrite Ht.
      rewrite (proj2 (Z.eqb_neq _ _) H0). pose proof (in_lists_found (excTable (sel s1)) i a b num k Hl1 Hk Hl2) as Hf.
      destruct (in_the_lists (excTable (sel s1)) num i (a, b)) as [ls fnd]. cbn [snd] in Hf. subst fnd. cbn [fst snd].
      split; [done|]. split; [intros j Hj; apply Hsame; lia|lia].
    + destruct (decide (m < i)%nat) as [Hlt|Hgt].
      * destruct (Hl ltac:(lia)) as [Hl1 Hl2].
        destruct (clear_other i num c d m a b s1 k) as (C1 & C2 & C3 & C4);
          [done|rewrite Hsame by lia; apply Huniq; (done || lia)|done|done|done|done|].
        split; [done|]. split; [|done]. intros j Hj. rewrite C4 by lia. apply Hsame. lia.
      * assert (Hclear : holds i num c d (clear_deselected m ((a, b), s1)).2 ∧
          ∀ j', j' ≠ m → tpNum (sel (clear_deselected m ((a, b), s1)).2) !!! j' = tpNum (sel s1) !!! j').
        { unfold clear_deselected. destruct (_ =? 0); [done|]. destruct (in_the_lists _ _ _ _) as [ls [|]]; [done|].
          destruct Hh1 as (T1 & T2 & T3). unfold holds. repeat case_match; simpl;
            rewrite list_lookup_total_insert_ne by done; rewrite T2, lookup_total_alter_ne by lia;
            (split; [done|]; intros j' Hj'; by rewrite list_lookup_total_insert_ne by done). }
        destruct Hclear as [C1 C2]. split; [done|]. split; [|lia]. intros j Hj. rewrite C2 by lia. apply Hsame. lia.
  - destruct (for_n DAQ_GDS_MAX_TP_ALLOWED clear_deselected ((tpn, exn), s)) as [lists s1]. cbn [fst snd] in Hfin.
    apply assign_keeps with (num := num); [done|done|]. by apply insert_all.
Qed.

(** A change of configuration breaks active test points: a test point that
    stays selected keeps its slot, but not its entry, when the channel count
    has changed, for the slot's entry is now another one of the table and is not
    filled again; if that entry was never used, the next cycle divides by its
    zero decimation factor. *)
Theorem reconfig_testpoint_trap bd r inp (s : DaqState F) (i k : nat) num :
  (i < DAQ_GDS_MAX_TP_ALLOWED)%nat → (k < DAQ_GDS_MAX_TP_ALLOWED)%nat → num ≠ 0 →
  tpNum (sel s) !!! i = num → (∀ j, (j < DAQ_GDS_MAX_TP_ALLOWED)%nat → j ≠ i → tpNum (sel s) !!! j ≠ num) →
  (tp_requests bd s).1 !!! k = num → (∀ j, (j < DAQ_GDS_MAX_TP_ALLOWED)%nat → (tp_requests bd s).2 !!! j ≠ num) →
  decFactor (localTable s !!! (Z.to_nat (numChans (dataInfo s)) + i)%nat) = 0 →
  acquire bd inp (select_testpoints bd r s) = None.
Proof.
  intros Hi Hk H0 Ht Huniq Hreq Hex Hd.
  destruct (select_keeps bd r s i num (numChans (dataInfo s)) 0 k Hi H0 (conj Ht (conj eq_refl Hd)) Huniq Hk Hreq Hex) as [H1 H2].
  by apply (acquire_traps bd inp _ _ H2).
Qed.

(** ** A bad channel count *)
(** Loading a table never changes the sizes it starts from, and only divides by a
    rate below 16. *)
Lemma load_sizes rate info r crc x table :
  (∀ ii, (ii < Z.to_nat (numChans info))%nat → 16 <= dataRate (tp info !!! ii)) →
  let res := loadLocalTable rate info r crc x table in
  res.2 ≠ Trap ∧ totalSize res.1.1 = crcLength x ∧ totalSizeNet res.1.1 = crcLength x ∧ crcLength res.1.1 = crcLength x.
Proof.
  intros Hr. unfold loadLocalTable. set (x0 := mkXfer _ _ _ _ _ _). set (t0 := alter _ 0%nat table).
  destruct (for_exit_both (λ st : DAQ_XFER_INFO * list DAQ_LKUP_TABLE, totalSize st.1 = crcLength x ∧
      totalSizeNet st.1 = crcLength x ∧ crcLength st.1 = crcLength x) (λ e, e ≠ Trap)
    (load_channel rate info r) 0 (Z.to_nat (numChans info)) (x0, t0)) as [Hp Hq]; [done| |].
  - intros k [x1 t1] Hk Hx. cbn [fst] in Hx. unfold load_channel. specialize (Hr k ltac:(lia)).
    assert (Hpos : (dataRate (tp info !!! k) / DAQ_NUM_DATA_BLOCKS =? 0) = false).
    { apply Z.eqb_neq. pose proof (Z.div_le_mono 16 (dataRate (tp info !!! k)) 16 ltac:(lia) Hr) as Hm.
      change (16 / 16) with 1 in Hm. unfold DAQ_NUM_DATA_BLOCKS. lia. }
    rewrite Hpos. destruct (_ >? rate); [|destruct (classify _ _ _)]; (split; [exact Hx|]); cbn [snd]; intros e E;
      [injection E as <-|..]; [discriminate|discriminate E|injection E as <-; discriminate].
  - destruct (for_exit 0 (Z.to_nat (numChans info)) (load_channel rate info r) (x0, t0)) as [st [e|]]; simpl in *.
    + split; [by apply Hq|done].
    + done.
Qed.

(** A request for more channels than there can be is taken as a success: the
    -1 that [daqConfig] returns is kept as the size of a block, the old channel
    list is loaded again with it, and the size announced with the data becomes
    4294967295 bytes. *)
Theorem reconfig_bad_count bd r dcu inp (s : DaqState F) :
  reconfig (pInfo s) = 1 → daqBlockNum (clk s) = 0 → DCU_MAX_CHANNELS < numChans (pInfo s) →
  (∀ ii, (ii < Z.to_nat (numChans (dataInfo s)))%nat → 16 <= dataRate (tp (dataInfo s) !!! ii)) →
  ∃ s', reconfigure bd r s = Some s' ∧ dataInfo s' = dataInfo s ∧ totalSize (xferInfo s') = -1 ∧ reconfig (pInfo s') = 0 ∧
    dataBlockSize (net (publish_block dcu inp s')) = 4294967295.
Proof.
  intros Hr Hb Hc Hok. unfold reconfigure. rewrite Hr, Hb. cbn [Z.eqb Pos.eqb andb]. unfold daqConfig.
  rewrite Z.gtb_ltb. cbn [numChans set_reconfig pInfo set_pInfo]. rewrite (proj2 (Z.ltb_lt _ _) Hc).
  change (truthy (-1)) with true. cbn [dataInfo set_pInfo xferInfo set_dataInfo set_xferInfo localTable pInfo].
  pose proof (load_sizes (sysRate bd) (dataInfo s) r (configFileCRC (set_reconfig 0 (pInfo s)))
    (set_crcLength (-1) (xferInfo s)) (localTable s) Hok) as Hl. cbv zeta in Hl.
  destruct (loadLocalTable _ _ _ _ _ _) as [[x t] [st|]]; cbn [fst snd] in Hl; [|tauto].
  destruct Hl as (_ & L1 & L2 & _). eexists. split; [done|]. split; [done|]. split; [exact L1|]. split; [done|].
  simpl. rewrite L2. done.
Qed.

(** ** Bit words *)

(** One cycle of a channel at slot [slot]. *)
Definition channel_at (bd : DaqBuild) (ii : nat) (slot : Z) (inp : DaqIn F) (s : DaqState F) : DaqState F :=
  (daq_channel bd inp ii (set_clk (set_daqSlot slot (clk s)) s)).1.

(** The word a channel reads: its signal as an [unsigned int]. *)
Definition bit_word (ii : nat) (s : DaqState F) (inp : DaqIn F) : Z := f_to_uint (daq_source s inp (localTable s !!! ii)).

(** The AND of the words [0..m]. *)
Fixpoint and_words (w : nat → Z) (m : nat) : Z :=
  match m with
  | O => w 0%nat
  | S m => Z.land (and_words w m) (w (S m))
  end.

Lemma hold_run bd ii (s : DaqState F) (k d : Z) (inp : nat → DaqIn F) (m : nat) :
  let e := localTable s !!! ii in
  dataType (tp (dataInfo s) !!! ii) = DAQ_DATATYPE_32BIT_UINT → decFactor e = d → 0 <= k → (ii < length (uHistory s))%nat →
  Z.of_nat m < d - 1 →
  let s' := for_n (S m) (λ j s, channel_at bd ii (k * d + 1 + Z.of_nat j) (inp j) s) s in
  uHistory s' !!! ii = and_words (λ j, bit_word ii s (inp j)) m ∧ length (uHistory s') = length (uHistory s) ∧ blocks s' = blocks s ∧
  localTable s' = localTable s ∧ dataInfo s' = dataInfo s ∧ pWriteBuffer s' = pWriteBuffer s ∧ dsp s' = dsp s ∧ excSignal s' = excSignal s.
Proof.
  cbv zeta. intros Ht Hd Hk Hl Hm.
  assert (Hmod : ∀ j, (j <= m)%nat → Z.rem (k * d + 1 + Z.of_nat j) d = 1 + Z.of_nat j).
  { intros j Hj. rewrite Z.rem_mod_nonneg by nia. replace (k * d + 1 + Z.of_nat j) with ((1 + Z.of_nat j) + k * d) by ring.
    rewrite Z.mod_add, Z.mod_small by lia. done. }
  assert (Hstep : ∀ j (s1 : DaqState F), (j <= m)%nat → localTable s1 = localTable s → dataInfo s1 = dataInfo s →
    channel_at bd ii (k * d + 1 + Z.of_nat j) (inp j) s1 =
    hold_bits ii (localTable s !!! ii) (daq_source s1 (inp j) (localTable s !!! ii))
      (set_clk (set_daqSlot (k * d + 1 + Z.of_nat j) (clk s1)) s1)).
  { intros j s1 Hj E1 E2. unfold channel_at, daq_channel. cbn [localTable dataInfo set_clk clk daqSlot set_daqSlot]. rewrite E1, E2, Ht, Hd, Z.eqb_refl.
    cbn [clk set_clk daqSlot set_daqSlot]. rewrite (proj2 (Z.eqb_neq d 0)) by lia. rewrite Hmod by done.
    rewrite (proj2 (Z.eqb_neq (1 + Z.of_nat j) 0)) by lia. done. }
  induction m as [|m IH].
  - simpl. rewrite Hstep by (done || lia). unfold hold_bits. cbn [clk set_clk daqSlot set_daqSlot]. rewrite Hd, (Hmod 0%nat) by lia.
    simpl. rewrite lookup_total_insert, decide_True, length_insert by (done || lia). done.
  - destruct IH as (I1 & I2 & I3 & I4 & I5 & I6 & I7 & I8); [lia|intros; apply Hmod; lia|intros; apply Hstep; (done || lia)|].
    rewrite for_up_S, Nat.add_0_l. set (s1 := for_n (S m) _ s) in *. clearbody s1. rewrite Hstep by (done || lia).
    assert (Hsrc : daq_source s1 (inp (S m)) (localTable s !!! ii) = daq_source s (inp (S m)) (localTable s !!! ii))
      by (unfold daq_source; by rewrite I7, I8).
    unfold hold_bits. cbn [clk set_clk daqSlot set_daqSlot uHistory set_uHistory blocks localTable dataInfo pWriteBuffer dsp excSignal].
    rewrite Hd, Hmod by lia. rewrite (proj2 (Z.eqb_neq (1 + Z.of_nat (S m)) 1)) by lia.
    rewrite lookup_total_insert, decide_True, length_insert by (done || lia). cbn [and_words]. rewrite <- I1, Hsrc. done.
Qed.

(** A 32-bit unsigned channel decimated by [d] is not filtered: the word
    written when its sample is due is the bitwise AND of the words of the [d]
    cycles since the last one, so that a bit is seen set only if it was set
    throughout. *)
Theorem uint32_anding bd ii (s : DaqState F) (k d : Z) (inp : nat → DaqIn F) (m : nat) :
  let e := localTable s !!! ii in
  dataType (tp (dataInfo s) !!! ii) = DAQ_DATATYPE_32BIT_UINT → decFactor e = d → 0 <= k → (ii < length (uHistory s))%nat →
  d = Z.of_nat m + 2 →
  let s' := for_n (S m) (λ j s, channel_at bd ii (k * d + 1 + Z.of_nat j) (inp j) s) s in
  let s'' := channel_at bd ii ((k + 1) * d) (inp (S m)) s' in
  blocks s'' = blocks s ++ [mkWr (pWriteBuffer s + lt_offset e + 4 * (k + 1)) 4 (CUint (and_words (λ j, bit_word ii s (inp j)) (S m)))].
Proof.
  cbv zeta. intros Ht Hd Hk Hl Hm.
  destruct (hold_run bd ii s k d inp m Ht Hd Hk Hl ltac:(lia)) as (I1 & I2 & I3 & I4 & I5 & I6 & I7 & I8).
  set (s1 := for_n (S m) _ s) in *. clearbody s1. unfold channel_at, daq_channel.
  cbn [localTable dataInfo set_clk clk daqSlot set_daqSlot]. rewrite I4, I5, Ht, Hd, Z.eqb_refl.
  cbn [clk set_clk daqSlot set_daqSlot]. rewrite (proj2 (Z.eqb_neq d 0)) by lia. rewrite Z.rem_mod_nonneg, Z.mod_mul by nia.
  unfold write_sample. simpl. rewrite Hd, I3, I6. rewrite Z.quot_div_nonneg, Z.div_mul by nia.
  rewrite (proj2 (Z.eqb_neq d 1)) by lia. rewrite I1, Z.land_comm.
  assert (Hw : f_to_uint (daq_source (set_clk (set_daqSlot ((k + 1) * d) (clk s1)) s1) (inp (S m)) (localTable s !!! ii)) =
    bit_word ii s (inp (S m))) by (unfold bit_word, daq_source; simpl; by rewrite I7, I8).
  rewrite Hw. done.
Qed.
End Acquire.

(** ** Concrete runs: a 2 kHz model (128 cycles per block) *)
Definition demo_bd : DaqBuild := mkBuild 128 1 8 true.
Definition demo_range : DAQ_RANGE := mkRange 1 4 3 10 12 20 21 1 30 31.
Definition demo_info (n : Z) (e : TpEntry) : DAQ_INFO_BLOCK :=
  mkInfo 0 n 2 1 11 14 0 0 [8; 0] 3 1 77 (replicate 512 e).
Definition float_chan : TpEntry := mkTp 1 DAQ_DATATYPE_FLOAT 256.

Definition demo_mod : FILT_MOD binary64 := mkMod [] [mkData f1 f0 f1 f1 f1 f1 0] 0 0.
Definition demo_blank (n : Z) (e : TpEntry) : DaqState binary64 :=
  mkDaq (mkClk 0 0 0 0 0) (mkXfer 0 0 0 0 0 0) (replicate 600 (mkLkup 0 0 0 0 0 0)) (demo_info 0 (mkTp 0 0 0)) 0 0
    (mkSel (replicate 64 0) (replicate 64 0) 0 0 0 (replicate 64 (mkLkup 0 0 0 0 0 0)) (replicate 4 (replicate 256 0))
       (replicate 4 (replicate 256 0)) (replicate 32 0))
    [] [] demo_mod [f0] 0 0 [] (mkNet 0 0 0 (replicate 16 (mkBp 0 0 0 0)) 0 0 (replicate 256 0)) (demo_info n e).
Definition demo_in : DaqIn binary64 := mkDin [f1; f1] (λ _, f0) (λ _, -1) (λ _, f0) 1000000000.

Definition or_blank (o : option (Z * DaqState binary64)) : DaqState binary64 :=
  match o with Some (_, s) => s | None => demo_blank 0 (mkTp 0 0 0) end.
(** Connected with [n] channels like [e]; then at slot [k]. *)
Definition demo_connected (n : Z) (e : TpEntry) : DaqState binary64 := or_blank (daq_connect demo_bd demo_range (demo_blank n e)).
Definition at_slot (k : Z) (s : DaqState binary64) : DaqState binary64 := set_clk (set_daqSlot k (clk s)) s.

Lemma below_forallb (P : nat → bool) n : forallb P (seq 0 n) = true → ∀ i, (i < n)%nat → P i = true.
Proof. intros Hf i Hi. rewrite forallb_forall in Hf. apply Hf, in_seq. lia. Qed.

(** [num] is nowhere in the first [n] places of a list but at [i]. *)
Lemma only_at (l : list Z) n (i : nat) num :
  forallb (λ j, (j =? i)%nat || negb (l !!! j =? num)) (seq 0 n) = true →
  ∀ j, (j < n)%nat → j ≠ i → l !!! j ≠ num.
Proof.
  intros Hf j Hj Hne E. pose proof (below_forallb _ n Hf j Hj) as Hb. cbn beta in Hb.
  rewrite (proj2 (Nat.eqb_neq _ _) Hne), E, Z.eqb_refl in Hb. done.
Qed.

Lemma float_chan_valid : chan_valid 128 demo_range float_chan.
Proof.
  split; [reflexivity|vm_compute; reflexivity|vm_compute; reflexivity|vm_compute; split; discriminate|].
  intros old. discriminate.
Qed.

Lemma daq_layout_witness :
  let '(len, info) := daqConfig 1 8 (demo_info 0 (mkTp 0 0 0)) (demo_info 2 float_chan) in
  let '((x', table'), e) := loadLocalTable 128 info demo_range 77 (set_crcLength len (mkXfer 0 0 0 0 0 0))
                              (replicate 600 (mkLkup 0 0 0 0 0 0)) in
  e = Return 0 ∧ len = 184 ∧ offsetAccum x' = 184.
Proof.
  pose proof (daq_layout 128 demo_range (demo_info 2 float_chan) eq_refl ltac:(vm_compute; split; discriminate) ltac:(vm_compute; discriminate)) as H.
  specialize (H ltac:(intros ii Hii; change (tp (demo_info 2 float_chan)) with (replicate 512 float_chan); assert (ii < 2)%nat by (revert Hii; vm_compute; lia); rewrite lookup_total_replicate_2 by lia; apply float_chan_valid)
    ltac:(vm_compute; discriminate) 1 8 (demo_info 0 (mkTp 0 0 0)) 77 (mkXfer 0 0 0 0 0 0) (replicate 600 (mkLkup 0 0 0 0 0 0))
    eq_refl ltac:(vm_compute; lia)).
  destruct (daqConfig 1 8 _ _) as [len info]. destruct (loadLocalTable _ _ _ _ _ _) as [[x' t'] e].
  destruct H as (H1 & _ & H2 & H3 & _). split; [exact H1|]. assert (E : len = 184) by (rewrite H2; vm_compute; reflexivity).
  split; [exact E|congruence].
Defined.

Lemma demo_chan_ok (n : Z) e k ii :
  (decFactor (localTable (at_slot k (demo_connected n e)) !!! ii) = 8) →
  dataType (tp (dataInfo (at_slot k (demo_connected n e))) !!! ii) = DAQ_DATATYPE_FLOAT →
  chan_ok 128 (at_slot k (demo_connected n e)) ii.
Proof.
  intros Hd Ht. split; rewrite ?Hd, ?Ht; vm_compute; (discriminate || (split; discriminate) || reflexivity).
Qed.

Lemma acquire_in_parts_witness :
  ∃ s' ws, acquire demo_bd demo_in (at_slot 8 (demo_connected 2 float_chan)) = Some s' ∧ blocks s' = ws ∧ length ws = 2%nat.
Proof.
  destruct (acquire_in_parts demo_bd demo_in (at_slot 8 (demo_connected 2 float_chan))) as (s' & ws & H1 & _ & H2 & H3).
  - vm_compute. split; [discriminate|reflexivity].
  - intros ii Hii. assert (Hii2 : (ii < 2)%nat) by (revert Hii; vm_compute; lia).
    apply demo_chan_ok; (destruct ii as [|[|ii]]; [vm_compute; reflexivity|vm_compute; reflexivity|lia]).
  - exists s', ws. split; [exact H1|]. split; [rewrite H2; vm_compute; reflexivity|].
    apply Forall2_length in H3. rewrite <- H3. vm_compute. reflexivity.
Defined.

Lemma int32_overrun_witness :
  let s := at_slot 120 (demo_connected 2 (mkTp 1 DAQ_DATATYPE_32BIT_INT 256)) in
  ∃ v, blocks (daq_channel demo_bd demo_in 1 s).1 = blocks s ++ [v] ∧ wr_size v = 4 ∧ buf_size * 15 + 184 <= wr_addr v.
Proof.
  intros s. destruct (int32_overrun demo_bd demo_in s 1 16) as (v & H1 & H2 & H3);
    [vm_compute; reflexivity|vm_compute; discriminate|lia|vm_compute; reflexivity|vm_compute; reflexivity|].
  exists v. split; [exact H1|]. split; [exact H2|]. etransitivity; [|exact H3]. vm_compute. discriminate.
Defined.

Lemma uint32_anding_witness :
  let s := demo_connected 1 (mkTp 10 DAQ_DATATYPE_32BIT_UINT 1024) in
  let inp := λ j : nat, mkDin [fofZ (if (j =? 0)%nat then 7 else 12)] (λ _, f0) (λ _, -1) (λ _, f0) 0 in
  let s' := for_n 1 (λ j s, channel_at demo_bd 0 (1 * 2 + 1 + Z.of_nat j) (inp j) s) s in
  blocks (channel_at demo_bd 0 ((1 + 1) * 2) (inp 1%nat) s') =
    [mkWr (buf_size * 15 + 56 + 8) 4 (CUint 4)].
Proof.
  intros s inp s'.
  pose proof (uint32_anding demo_bd 0 s 1 2 inp 0 ltac:(vm_compute; reflexivity) ltac:(vm_compute; reflexivity) ltac:(lia)
    ltac:(vm_compute; lia) ltac:(lia)) as H.
  etransitivity; [exact H|]. vm_compute. reflexivity.
Defined.

Lemma reconfig_bad_count_witness :
  let s := demo_connected 2 float_chan in
  let s := set_clk (mkClk 127 0 0 0 0) (set_pInfo (mkInfo 1 600 2 1 11 14 0 0 [8; 0] 3 1 77 []) s) in
  ∃ s', reconfigure demo_bd demo_range s = Some s' ∧ dataBlockSize (net (publish_block 5 demo_in s')) = 4294967295.
Proof.
  intros s0 s. destruct (reconfig_bad_count demo_bd demo_range 5 demo_in s) as (s' & H1 & _ & _ & _ & H2);
    [vm_compute; reflexivity|vm_compute; reflexivity|vm_compute; reflexivity| |exists s'; split; [exact H1|exact H2]].
  intros ii Hii. assert (Hii2 : (ii < 2)%nat) by (revert Hii; vm_compute; lia).
  destruct ii as [|[|ii]]; [vm_compute; discriminate|vm_compute; discriminate|lia].
Defined.

(** One channel; test point 10 is selected; then the channel list grows to three. *)
Definition demo_selected : DaqState binary64 :=
  let s := demo_connected 1 float_chan in
  let t := sel s in
  select_testpoints demo_bd demo_range
    (set_sel (set_gdsNum (alter (λ row, <[0%nat := 10]> row) 3%nat (gdsNum t)) t) s).
Definition demo_grown : DaqState binary64 :=
  match reconfigure demo_bd demo_range (set_clk (mkClk 127 0 0 0 0) (set_pInfo (set_reconfig 1 (demo_info 3 float_chan)) demo_selected)) with
  | Some s => s
  | None => demo_selected
  end.

Lemma reconfig_testpoint_trap_witness :
  (∃ s', acquire demo_bd demo_in (at_slot 0 demo_selected) = Some s') ∧
  acquire demo_bd demo_in (select_testpoints demo_bd demo_range demo_grown) = None.
Proof.
  split; [eexists; vm_compute; reflexivity|].
  apply (reconfig_testpoint_trap demo_bd demo_range demo_in demo_grown 0 0 10);
    [vm_compute; lia|vm_compute; lia|lia|vm_compute; reflexivity| |vm_compute; reflexivity| |vm_compute; reflexivity].
  - apply (only_at _ DAQ_GDS_MAX_TP_ALLOWED 0 10). vm_compute. reflexivity.
  - intros j Hj. apply (only_at _ DAQ_GDS_MAX_TP_ALLOWED 64 10); [vm_compute; reflexivity|done|].
    unfold DAQ_GDS_MAX_TP_ALLOWED in Hj. lia.
Defined.
End DaqProps.
