(* ===== verification/DaqSelect.v ===== *)
(** * Test point selection in the front end ([DaqWrite.v])

    [excitation_selected]: from a state with nothing selected and requests that fit
    the 64 slots, each excitation in the request table of the model's rate gets
    an entry of the lookup table with its filter module and its place in the
    request table, from which [read_excitation] takes the address. *)
From S2P Require Import Prelude CFloat Iir FilterModule DaqConfig DaqWrite DaqProps.
Import FilterModule DaqConfig DaqWrite.

Module DaqSelect.
Section select.
Context {F : Type} `{FloatOps F}.
Implicit Types (s : DaqState F) (e : DAQ_LKUP_TABLE).
Local Abbreviation MAX := DAQ_GDS_MAX_TP_ALLOWED.

(** ** Requests *)
Definition requests (bd : DaqBuild) s : list Z * list Z :=
  let offs := if sysRate bd <? DAQ_16K_SAMPLE_SIZE then 1%nat else 0%nat in
  (take MAX (gdsNum (sel s) !!! (2 + offs)%nat), take MAX (gdsNum (sel s) !!! offs)).
(** The [q]-th of all: test points first. *)
Definition request (lists : list Z * list Z) (q : nat) : Z :=
  if (MAX <=? q)%nat then lists.2 !!! (q - MAX)%nat else lists.1 !!! q.
Definition number_requested (lists : list Z * list Z) (n : nat) : nat :=
  length (filter (λ q, request lists q ≠ 0) (seq 0 n)).
Definition in_use s : nat := length (filter (λ x, x ≠ 0) (tpNum (sel s))).

Lemma requested_S lists n :
  number_requested lists (S n) = (number_requested lists n + (if decide (request lists n = 0%Z) then 0 else 1))%nat.
Proof.
  unfold number_requested. rewrite seq_S, filter_app, length_app, filter_cons. cbn [Nat.add].
  case_decide as E; case_decide; cbn [length filter list_filter]; try done; lia.
Qed.
Lemma requested_mono lists n k : (number_requested lists n <= number_requested lists (n + k))%nat.
Proof. unfold number_requested. rewrite seq_app, filter_app, length_app. lia. Qed.

(** ** Empty slots *)
Lemma empty_slot_spec l : length l = MAX →
  match empty_slot l with Some j => (j < MAX)%nat ∧ l !!! j = 0 | None => Forall (λ x, x ≠ 0) l end.
Proof.
  intros Hl. unfold empty_slot.
  set (f := λ (i : nat) (u : unit), if l !!! i =? 0 then (u, Some i) else (u, None)).
  assert (G : ∀ n i, match (for_exit i n f tt).2 with
                     | Some j => (i <= j < i + n)%nat ∧ l !!! j = 0
                     | None => ∀ j, (i <= j < i + n)%nat → l !!! j ≠ 0 end).
  { induction n as [|n IH]; intros i; cbn [for_exit]; [intros j Hj; lia|]. unfold f at 1.
    destruct (Z.eqb_spec (l !!! i) 0) as [E|E]; cbn [snd]; [split; [lia|done]|]. specialize (IH (S i)).
    destruct (snd (for_exit (S i) n f tt)) as [j|].
    - destruct IH. split; [lia|done].
    - intros j Hj. destruct (decide (j = i)) as [->|]; [done|]. apply IH. lia. }
  specialize (G MAX 0%nat). destruct (snd (for_exit 0 MAX f tt)) as [j|]; [split; [lia|apply G]|].
  apply (proj2 (Forall_lookup_total _ _)). intros j Hj. apply G. lia.
Qed.
Lemma in_use_full s : length (tpNum (sel s)) = MAX → Forall (λ x, x ≠ 0) (tpNum (sel s)) → in_use s = MAX.
Proof.
  intros Hl Hf. unfold in_use. rewrite <- Hl. clear Hl. induction Hf as [|x l Hx _ IH]; [done|].
  rewrite filter_cons_True by done. cbn [length]. by rewrite IH.
Qed.
Lemma filter_insert_zero (l : list Z) j x :
  (j < length l)%nat → l !!! j = 0 → x ≠ 0 →
  length (filter (λ x, x ≠ 0) (<[j := x]> l)) = S (length (filter (λ x, x ≠ 0) l)).
Proof.
  revert j. induction l as [|y l IH]; intros j Hj H0 Hx; cbn [length] in *; [lia|]. destruct j as [|j].
  - cbn in H0. subst y. cbn [insert list_insert]. rewrite !filter_cons. rewrite decide_True by done. rewrite decide_False by (intros h; by apply h). done.
  - cbn [insert list_insert]. rewrite !filter_cons. case_decide; cbn [length]; rewrite IH; (done || lia).
Qed.

(** ** Filling *)
Definition same_route e e' : Prop := lt_type e = lt_type e' ∧ fmNum e = fmNum e' ∧ sigNum e = sigNum e' ∧ sysNum e = sysNum e'.
(** Slot [j] holds the excitation of number [num], the [k]-th request. *)
Definition routes (r : DAQ_RANGE) (c : nat) (k : nat) (num : Z) (j : nat) s : Prop :=
  (j < MAX)%nat ∧ tpNum (sel s) !!! j = num ∧
  ∃ e0 e, exc_entry r num (Z.of_nat k) e0 = Some e ∧ same_route (localTable s !!! (c + j)%nat) e.
Definition shape (c : Z) s : Prop :=
  length (tpNum (sel s)) = MAX ∧ numChans (dataInfo s) = c ∧ (Z.to_nat c + MAX <= length (localTable s))%nat.

Lemma fill_slot_shape c row j num entry s :
  shape c s → (j < MAX)%nat → tpNum (sel s) !!! j = 0 → num ≠ 0 →
  let s' := fill_slot row j num entry s in
  shape c s' ∧ in_use s' = S (in_use s) ∧
  tpNum (sel s') !!! j = num ∧ localTable s' !!! (Z.to_nat c + j)%nat = entry ∧
  ∀ i, i ≠ j → tpNum (sel s') !!! i = tpNum (sel s) !!! i ∧ localTable s' !!! (Z.to_nat c + i)%nat = localTable s !!! (Z.to_nat c + i)%nat.
Proof.
  intros (Hl & Hc & Ht) Hj He Hn. cbv zeta. unfold shape, in_use. cbn. rewrite Hc. rewrite !length_insert.
  split; [done|]. split; [apply filter_insert_zero; (done || lia)|].
  split; [by rewrite list_lookup_total_insert_eq by lia|]. split; [by rewrite list_lookup_total_insert_eq by lia|].
  intros i Hi. by rewrite !list_lookup_total_insert_ne by lia.
Qed.
Lemma shape_exc c f s : shape c s → shape c (set_sel (set_excTable f (sel s)) s).
Proof. done. Qed.

Lemma insert_step r offs lists c q s :
  shape c s → (in_use s < MAX)%nat → (q < 2 * MAX)%nat →
  let st := insert_tp r offs lists q s in
  st.2 = None ∧ shape c st.1 ∧ (in_use st.1 <= in_use s + (if decide (request lists q = 0%Z) then 0 else 1))%nat ∧
  (∀ k num j, num ≠ 0 → routes r (Z.to_nat c) k num j s → routes r (Z.to_nat c) k num j st.1) ∧
  (∀ k e0, q = (MAX + k)%nat → request lists q ≠ 0 → is_Some (exc_entry r (request lists q) (Z.of_nat k) e0) →
    ∃ j, routes r (Z.to_nat c) k (request lists q) j st.1).
Proof.
  intros Hs Hu Hq. cbv zeta. unfold insert_tp. fold (request lists q). cbv zeta.
  destruct (Z.eqb_spec (request lists q) 0) as [E|E]; cbn [fst snd].
  { split; [done|]. split; [done|]. split; [lia|]. split; [done|]. intros; done. }
  rewrite decide_False by done. pose proof (empty_slot_spec (tpNum (sel s)) ltac:(apply Hs)) as He.
  destruct (empty_slot (tpNum (sel s))) as [j|].
  2:{ pose proof (in_use_full s ltac:(apply Hs) He). lia. }
  destruct He as [Hj H0].
  assert (Hkeep : ∀ row entry s1, shape c s1 → in_use s1 = in_use s → tpNum (sel s1) = tpNum (sel s) → localTable s1 = localTable s →
    let s2 := fill_slot row j (request lists q) entry s1 in
    shape c s2 ∧ in_use s2 = S (in_use s) ∧ tpNum (sel s2) !!! j = request lists q ∧ localTable s2 !!! (Z.to_nat c + j)%nat = entry ∧
    ∀ k num i, num ≠ 0 → routes r (Z.to_nat c) k num i s → routes r (Z.to_nat c) k num i s2).
  { intros row entry s1 Hs1 Hu1 Et El. destruct (fill_slot_shape c row j (request lists q) entry s1 Hs1 Hj ltac:(by rewrite Et) E) as (G1 & G2 & G3 & G4 & G5).
    cbv zeta. rewrite <- Hu1. split_and!; try done. intros k num i Hn (Hi & Hti & Hx).
    assert (i ≠ j) as Hij by (intros ->; congruence). destruct (G5 i Hij) as [G6 G7]. split; [done|]. by rewrite G6, G7, Et, El. }
  destruct (MAX <=? q)%nat eqn:Hq'.
  - apply Nat.leb_le in Hq'. destruct (exc_entry r (request lists q) (Z.of_nat (q - MAX)) _) as [entry|] eqn:Ee.
    + cbn [fst snd]. set (s1 := set_sel _ s). destruct (Hkeep offs entry s1 Hs eq_refl eq_refl eq_refl) as (G1 & G2 & G3 & G4 & G5).
      split; [done|]. split; [exact G1|]. split; [rewrite G2; lia|]. split; [exact G5|]. intros k e0 -> _ _. exists j. split; [done|]. split; [done|].
      replace (MAX + k - MAX)%nat with k in Ee by lia. eexists _, entry. split; [exact Ee|]. by rewrite G4.
    + cbn [fst snd]. split; [done|]. split; [done|]. split; [lia|]. split; [done|]. intros k e0 -> _ Hse.
      replace (MAX + k - MAX)%nat with k in Ee by lia. unfold exc_entry in *. destruct (_ && _); [done|]. destruct (_ && _); [done|]. by destruct Hse.
  - apply Nat.leb_gt in Hq'. destruct (tp_entry r (request lists q) _) as [entry|]; cbn [fst snd].
    + destruct (Hkeep (2 + offs)%nat entry s Hs eq_refl eq_refl eq_refl) as (G1 & G2 & _ & _ & G5).
      split; [done|]. split; [exact G1|]. split; [rewrite G2; lia|]. split; [exact G5|]. intros; lia.
    + split; [done|]. split; [done|]. split; [lia|]. split; [done|]. intros; lia.
Qed.
(** ** The loop *)
Lemma insert_loop r offs lists c k num e0 s :
  shape c s → in_use s = 0%nat → (number_requested lists (2 * MAX) <= MAX)%nat → (k < MAX)%nat →
  request lists (MAX + k) = num → num ≠ 0 → is_Some (exc_entry r num (Z.of_nat k) e0) →
  let s' := (for_exit 0 (2 * MAX) (insert_tp r offs lists) s).1 in shape c s' ∧ ∃ j, routes r (Z.to_nat c) k num j s'.
Proof.
  intros Hs Hu Hroom Hk Hnum Hn He. cbv zeta.
  destruct (for_exit_inv (λ q s1, shape c s1 ∧ (in_use s1 <= number_requested lists q)%nat ∧
      ((MAX + k < q)%nat → ∃ j, routes r (Z.to_nat c) k num j s1)) (insert_tp r offs lists) 0 (2 * MAX) s) as (_ & H1 & _ & H3).
  - split; [done|]. split; [lia|]. intros; lia.
  - intros q s1 Hq (Hs1 & Hu1 & Hr1). pose proof (requested_S lists q) as HS.
    assert (Hle : (number_requested lists (S q) <= number_requested lists (2 * MAX))%nat).
    { replace (2 * MAX)%nat with (S q + (2 * MAX - S q))%nat by lia. apply requested_mono. }
    destruct (decide (request lists q = 0)) as [Ez|Ez].
    + unfold insert_tp. fold (request lists q). cbv zeta. rewrite Ez. cbn [Z.eqb fst snd]. split; [done|]. split; [done|]. split; [lia|].
      intros Hlt. apply Hr1. assert (q ≠ (MAX + k)%nat) by (intros ->; congruence). lia.
    + destruct (insert_step r offs lists c q s1 Hs1 ltac:(lia) ltac:(lia)) as (G1 & G2 & G3 & G4 & G5).
      rewrite decide_False in G3 by done. split; [exact G1|]. split; [exact G2|]. split; [lia|]. intros Hlt.
      destruct (decide (q = (MAX + k)%nat)) as [Eq|Eq].
      * subst q. rewrite Hnum in G5. exact (G5 k e0 eq_refl Hn He).
      * destruct (Hr1 ltac:(lia)) as [j Hj]. exists j. by apply G4.
  - split; [exact H1|]. apply H3. lia.
Qed.
Lemma nothing_deselected lists s :
  (∀ j, (j < MAX)%nat → tpNum (sel s) !!! j = 0) → for_n MAX clear_deselected (lists, s) = (lists, s).
Proof.
  intros Hz. apply (for_up_inv (λ st, st = (lists, s))); [done|]. intros j st Hj ->. unfold clear_deselected.
  by rewrite Hz by lia.
Qed.

Lemma offsets_route bd c s :
  shape c s →
  let s' := assign_offsets bd s in
  tpNum (sel s') = tpNum (sel s) ∧ numChans (dataInfo s') = c ∧
  (∀ i, same_route (localTable s' !!! i) (localTable s !!! i)) ∧
  (∀ j, (j < MAX)%nat → tpNum (sel s) !!! j ≠ 0 → (Z.to_nat c + j < totalChans s')%nat).
Proof.
  intros (Hl & Hc & Ht). cbv zeta. unfold assign_offsets. rewrite Hc. set (step := λ (i : nat) '(table, acc), _).
  assert (Hr : ∀ n (st : list DAQ_LKUP_TABLE * Z) i, same_route ((for_n n step st).1 !!! i) (st.1 !!! i)).
  { intros n st i. apply (for_up_inv (λ st', same_route (st'.1 !!! i) (st.1 !!! i))); [done|].
    intros k [t a] _ E. cbn [step fst] in *. destruct (decide (i = (Z.to_nat c + k)%nat)) as [->|Hne]; [|by rewrite lookup_total_alter_ne].
    destruct (decide (Z.to_nat c + k < length t)%nat).
    - by rewrite lookup_total_alter_eq.
    - rewrite list_lookup_total_alt, lookup_ge_None_2 by (rewrite length_alter; lia).
      by rewrite list_lookup_total_alt, lookup_ge_None_2 in E by lia. }
  pose proof (DaqProps.num_tps_above (tpNum (sel s))) as Ha. remember (num_tps (tpNum (sel s))) as n eqn:En. clear En.
  specialize (Hr n (localTable s, tpStart s)). destruct (for_n n step (localTable s, tpStart s)) as [t a]. cbn [fst] in Hr.
  split; [done|]. split; [done|]. split; [exact Hr|]. intros j Hj Hn. cbn. specialize (Ha j Hj Hn). lia.
Qed.

(** What the front end looks at for an excitation. *)
Lemma excitation_selected bd r s c k num e0 :
  shape c s → (∀ j, (j < MAX)%nat → tpNum (sel s) !!! j = 0) → (number_requested (requests bd s) (2 * MAX) <= MAX)%nat →
  (k < MAX)%nat → (requests bd s).2 !!! k = num → num ≠ 0 → is_Some (exc_entry r num (Z.of_nat k) e0) →
  let s' := select_testpoints bd r s in
  numChans (dataInfo s') = c ∧ ∃ j, routes r (Z.to_nat c) k num j s' ∧ (Z.to_nat c + j < totalChans s')%nat.
Proof.
  intros Hs Hz Hroom Hk Hnum Hn He. cbv zeta. unfold select_testpoints. fold (requests bd s). cbv zeta.
  rewrite nothing_deselected by done.
  assert (Hu : in_use s = 0%nat).
  { unfold in_use. assert (Hf : Forall (λ x, x = 0) (tpNum (sel s))).
    { apply (proj2 (Forall_lookup_total _ _)). intros j Hj. apply Hz. destruct Hs as (Hl & _). lia. }
    clear - Hf. induction Hf as [|x l -> _ IH]; [done|]. by rewrite filter_cons_False by (intros h; by apply h). }
  set (offs := if sysRate bd <? DAQ_16K_SAMPLE_SIZE then 1%nat else 0%nat).
  destruct (insert_loop r offs (requests bd s) c k num e0 s Hs Hu Hroom Hk) as (Hs1 & j & Hj & Ht & e1 & e & Ee & Hr); try done.
  { unfold request. rewrite (proj2 (Nat.leb_le _ _)) by lia. by replace (MAX + k - MAX)%nat with k by lia. }
  set (s1 := (for_exit 0 (2 * MAX) (insert_tp r offs (requests bd s)) s).1) in *.
  destruct (offsets_route bd c s1 Hs1) as (G1 & G2 & G3 & G4). split; [exact G2|]. exists j. split.
  - split; [done|]. split; [by rewrite G1|]. exists e1, e. split; [done|]. destruct (G3 (Z.to_nat c + j)%nat) as (? & ? & ? & ?), Hr as (? & ? & ? & ?).
    split_and!; congruence.
  - apply G4; [done|]. by rewrite Ht.
Qed.
End select.
End DaqSelect.
