(* ===== verification/AwgDeliver.v ===== *)
(** * Waveform generators: the memory over time, and the front end

    Both tasks of [AwgOut.v] and the clients take turns in any order, one [task]
    at a time.

    - [pages_in_place]: whatever happens, a page that would be copied from the
      buffer of an epoch goes to a channel in the block of this epoch;
    - [list_of_the_second]: the numbers a second is played with are those the test
      point manager had published before;
    - [excitation_delivered], [no_excitation]: what a front end adds in an epoch to a
      module is the page the generator of its test point has computed three epochs
      earlier, and nothing when no generator is bound to it;
    - [late_page_returns]: a page that was too late is kept, and copied when its
      buffer is used again and the generator is off. *)
From stdpp Require Import gmap.
From S2P Require Import Prelude CFloat Iir FilterModule GdsRand AwgFunc Awg AwgCalc AwgSlot Rm TpServer TpProps TpHistory TpIndex AwgOut AwgOutProps.
From S2P Require Import DaqConfig DaqWrite DaqProps DaqSelect.
Import TpServer TpProps FilterModule AwgFunc DaqConfig DaqWrite Rm AwgOut AwgOutProps.
Local Open Scope Z_scope.

Module AwgDeliver.
#[local] Existing Instance Awg.awg_inhabited.

Section deliver.
Context {F : Type} `{FloatOps F, Libm F}.
Implicit Types (rm : Rm F) (mem : Area F) (p : awgpagebuf_t F) (ps : list (awgpagebuf_t F)) (o : Out F) (b : Awg.Bank F).

(** ** Steps *)
Inductive task :=
  | Beat (fuel : nat) (now node : Z) (c : TpIndex.Cache) (tai ep : Z)
  | Begin (tstart : Z)
  | Finish
  | Client (b : Awg.Bank F).
Definition step (m : Z) (e : task) o : option (Out F) :=
  match e with
  | Beat fuel now node c tai ep => heartbeat fuel m node now c tai ep o
  | Begin tstart => copy_begin tstart o
  | Finish => Some (copy_end m o)
  | Client b => Some (set_bank b o)
  end.
(** The block of the memory a step writes to. *)
Definition writes (e : task) o : option Z :=
  match e with
  | Beat _ _ _ _ tai ep => Some (ahead tai ep).2
  | Finish => Z.of_nat <$> copying o
  | _ => None
  end.
Definition beat_ok (e : task) : Prop := match e with Beat _ _ _ _ _ ep => 0 <= ep < 16 | _ => True end.
Inductive one_step (m : Z) o : Out F → Prop :=
  | a_step e o' : beat_ok e → step m e o = Some o' → one_step m o o'.

(** ** Pages in their places *)
Definition well_placed (m : Z) (k : nat) p : Prop :=
  ∀ a, valid_page m p = Some a →
  ∃ lsc (j : nat), (j < TP_EX_NUM)%nat ∧ a = channel_addr lsc m (Z.of_nat j) (Z.of_nat k) ∧ pagelen p = channel_length lsc m.
Definition placed (m : Z) o : Prop :=
  length (bufs o) = _MAX_BUF ∧ (∀ k, (k < _MAX_BUF)%nat → Forall (well_placed m k) (buf (bufs o !!! k))) ∧
  ∀ k, copying o = Some k → (k < _MAX_BUF)%nat.
Lemma none_placed m k p : otype p = awgNone → well_placed m k p.
Proof. intros E a Hv. unfold valid_page in Hv. by rewrite E in Hv. Qed.

Lemma getTPslot_place m t type x tm ep j q :
  getTPslot m t type x tm ep = (j, q) → 0 <= j →
  ∃ n : nat, j = Z.of_nat n ∧ (n < TP_EX_NUM)%nat ∧
    q = Some (Some (channel_addr (type =? Awg.awgLSCtp) m (Z.of_nat n) ep)).
Proof.
  unfold getTPslot. destruct (_ || _); [intros [= <- <-]; lia|]. cbv zeta. intros [= Ej <-] Hj. rewrite Ej.
  match type of Ej with find_tp x ?l 0 = _ => destruct (find_tp_spec x l 0) as [[E _]|(n & E & Hn)] end; [lia|].
  exists n. split; [lia|]. split; [apply lookup_lt_Some in Hn; rewrite length_take in Hn; lia|].
  rewrite (proj2 (Z.leb_le 0 _)) by done. do 3 f_equal. lia.
Qed.
Lemma flush_placed m t g tm ep p p' :
  0 <= ep → flushAWG m t g tm ep p = Some p' → well_placed m (Z.to_nat ep) p'.
Proof.
  intros He. unfold flushAWG. destruct (_ || _) eqn:Et.
  { destruct (getTPslot _ _ _ _ _ _) as [j q] eqn:Eg. destruct (Z.leb_spec 0 j) as [Hj|Hj]; intros [= <-]; [|by apply none_placed].
    destruct (getTPslot_place _ _ _ _ _ _ _ _ Eg Hj) as (n & -> & Hn & ->). intros a Hv. unfold valid_page in Hv. cbn [through otype pagelen optr] in Hv.
    destruct (Z.eqb_spec (Awg.otype g) Awg.awgLSCtp) as [->|Hne]; cbn [orb] in *.
    - cbn [orb Z.eqb Awg.awgLSCtp Pos.eqb] in Hv. destruct (Z.eqb_spec (Awg.pagesize g) (Awg._LSCTP_PAGE m)) as [Es|]; [|done].
      injection Hv as <-. exists true, n. rewrite Z2Nat.id by done. done.
    - apply Z.eqb_eq in Et. rewrite Et in *. cbn [orb Z.eqb Awg.awgLSCtp Awg.awgDAC Awg.awgASCtp Pos.eqb] in Hv.
      destruct (Z.eqb_spec (Awg.pagesize g) (Awg._ASCTP_PAGE m)) as [Es|]; [|done].
      injection Hv as <-. exists false, n. rewrite Z2Nat.id by done. done. }
  destruct (_ =? Awg.awgDAC).
  { destruct (getTPslot _ _ _ _ _ _) as [j q] eqn:Eg. intros [= <-] a Hv. unfold valid_page in Hv. cbn [otype pagelen optr] in Hv.
    cbn [orb Z.eqb Awg.awgLSCtp Awg.awgDAC Pos.eqb] in Hv. destruct (Z.eqb_spec (Awg.pagesize g) (Awg._LSCTP_PAGE m)) as [Es|]; [|done].
    cbn [negb] in Hv. destruct (Z.ltb_spec j 0) as [Hj|Hj]; [done|].
    destruct (getTPslot_place _ _ _ _ _ _ _ _ Eg Hj) as (n & -> & Hn & ->). injection Hv as <-. exists true, n.
    rewrite Z2Nat.id by done. done. }
  destruct (_ =? Awg.awgDS340); [destruct (0 <? _); intros [= <-]; [|by apply none_placed]|].
  - intros a Hv. by unfold valid_page in Hv.
  - destruct (_ =? Awg.awgMem); [done|]. intros [= <-]. by apply none_placed.
Qed.
Lemma processAll_placed fuel m now t tm ep b ps b' ps' :
  0 <= ep → Forall (well_placed m (Z.to_nat ep)) ps →
  processAllAWG fuel m now t tm ep b ps = Some (b', ps') → Forall (well_placed m (Z.to_nat ep)) ps'.
Proof.
  intros He Hp. unfold processAllAWG. generalize Awg.MAX_NUM_AWG. intros n. revert b' ps'.
  induction n as [|n IH]; intros b' ps' E; [by injection E as _ <-|].
  rewrite for_up_S in E. destruct (for_up 0 n _ _) as [[b1 ps1]|]; [|done]. specialize (IH b1 ps1 eq_refl).
  unfold process_slot in E. cbn [mbind option_bind] in E. destruct (AwgCalc.processAWG _ _ _ _ _ _) as [[[b2 r] out]|]; [|done].
  cbn [mbind option_bind] in E. destruct out as [vp|]; [|by injection E as _ <-]. cbv zeta in E.
  destruct (flushAWG _ _ _ _ _ _) as [p'|] eqn:Ef; [|done]. injection E as _ <-. apply Forall_insert; [done|]. by eapply flush_placed.
Qed.

Lemma oldest_in (l : list (awgbuf_t F)) i best k bf :
  oldest l i best = Some (k, bf) → best = Some (k, bf) ∨ ∃ n : nat, k = (i + n)%nat ∧ l !! n = Some bf.
Proof.
  revert i best. induction l as [|x l IH]; intros i best; cbn [oldest]; [by left|]. intros E. apply IH in E as [E|(n & -> & Hn)].
  - destruct (ready x =? 1); [|by left].
    destruct best as [[j b0]|]; [destruct (older x b0)|]; [|by left|];
      (injection E as <- <-; right; exists 0%nat; split; [lia|done]).
  - right. exists (S n). split; [lia|done].
Qed.
Lemma set_bufs_placed m k v bf o :
  placed m o → bufs o !! k = Some bf → placed m (set_bufs (<[k := set_ready v bf]> (bufs o)) o).
Proof.
  intros (Hl & Hp & Hc) Hk. split; [cbn [bufs set_bufs]; by rewrite length_insert|]. split; [|done].
  intros i Hi. cbn [bufs set_bufs]. destruct (decide (i = k)) as [->|Hne].
  - rewrite list_lookup_total_insert_eq by lia. specialize (Hp k Hi). by rewrite (list_lookup_total_correct _ _ _ Hk) in Hp.
  - rewrite list_lookup_total_insert_ne by done. by apply Hp.
Qed.
Lemma step_placed m o o' : placed m o → one_step m o o' → placed m o'.
Proof.
  intros Hp [e o1 He E]. destruct e as [fuel now node c tai ep|tstart| |b]; cbn [step beat_ok] in *.
  - pose proof (ahead_epoch tai ep He) as Ha. apply heartbeat_spec in E; [|done]. destruct (ahead tai ep) as [tm ae]. cbn [snd] in Ha.
    destruct E as (b' & ps' & Hall & ->). destruct Hp as (Hl & Hp & Hc).
    assert (Hk : (Z.to_nat ae < _MAX_BUF)%nat) by (unfold _MAX_BUF; lia).
    split; [cbn [bufs]; by rewrite length_insert|]. split; [|done]. intros k Hk'. cbn [bufs].
    destruct (decide (k = Z.to_nat ae)) as [->|Hne]; [|rewrite list_lookup_total_insert_ne by done; by apply Hp].
    rewrite list_lookup_total_insert_eq by lia. cbn [buf]. eapply processAll_placed; [lia| |exact Hall]. by apply Hp.
  - unfold copy_begin in E. destruct (count o <=? 0); [done|]. cbv zeta in E. cbn [bufs set_count] in E.
    destruct (oldest (bufs o) 0 None) as [[k bf]|] eqn:Eo; [|by injection E as <-].
    apply oldest_in in Eo as [?|(n & -> & Hn)]; [done|]. cbn [Nat.add] in *. pose proof (lookup_lt_Some _ _ _ Hn) as Hlt.
    destruct (_ || _); injection E as <-.
    + exact (set_bufs_placed m n 0 bf o Hp Hn).
    + destruct (set_bufs_placed m n 2 bf o Hp Hn) as (Hl & Hp' & _). split; [exact Hl|]. split; [exact Hp'|].
      intros k [= <-]. by rewrite <- (proj1 Hp).
  - injection E as <-. unfold copy_end. destruct (copying o) as [k|] eqn:Ec; [|done]. destruct Hp as (Hl & Hp & Hc).
    split; [cbn [bufs set_bufs set_copying set_rmem]; by rewrite length_insert|]. split; [|done]. intros i Hi.
    cbn [bufs set_bufs set_copying set_rmem]. destruct (decide (i = k)) as [->|Hne].
    + rewrite list_lookup_total_insert_eq by lia. cbn [buf]. apply Forall_fmap, Forall_true. intros p. by apply none_placed.
    + rewrite list_lookup_total_insert_ne by done. by apply Hp.
  - by injection E as <-.
Qed.

(** C26: pages stay in their blocks.  From the start on, whatever the two tasks, the
    clients and the index of test points do and in whatever order, a page that
    would be copied from the [k]-th buffer goes to one of the 64 channels of the
    [k]-th block of one of the two sizes, and is as long as this channel. *)
Theorem pages_in_place m b rm o (k i : nat) p a :
  rtc (one_step m) (initAWG b rm) o → (k < _MAX_BUF)%nat → buf (bufs o !!! k) !! i = Some p → valid_page m p = Some a →
  ∃ lsc (j : nat), (j < TP_EX_NUM)%nat ∧ a = channel_addr lsc m (Z.of_nat j) (Z.of_nat k) ∧ pagelen p = channel_length lsc m.
Proof.
  intros Hr Hk Hi Hv. assert (Hp : placed m o).
  { apply (rtc_ind_r (placed m) (initAWG b rm)) in Hr; [done| |by intros; eapply step_placed].
    split; [done|]. split; [|done]. intros n Hn. cbn [bufs initAWG]. rewrite lookup_total_replicate_2 by done.
    apply Forall_replicate. by apply none_placed. }
  destruct Hp as (_ & Hp & _). specialize (Hp k Hk). rewrite Forall_lookup in Hp. by apply (Hp i p).
Qed.
(** ** What a step leaves alone *)
(** The channels of block [a] do not reach into block [e]. *)
Definition clear_of (m a e : Z) : Prop :=
  e < a ∨ a * UNIT_ID_TO_DATA_BLOCKSIZE + Z.of_nat TP_EX_NUM * (4 * (1024 * m + 1)) <= e * UNIT_ID_TO_DATA_BLOCKSIZE.
Inductive clear_step (m e : Z) o : Out F → Prop :=
  | a_clear_step k o' : beat_ok k → (∀ a, writes k o = Some a → clear_of m a e) → step m k o = Some o' → clear_step m e o o'.
Definition in_block (e x : Z) : Prop :=
  DAQ_DATA_BASE_ADD + e * UNIT_ID_TO_DATA_BLOCKSIZE <= x < DAQ_DATA_BASE_ADD + (e + 1) * UNIT_ID_TO_DATA_BLOCKSIZE.

Lemma channel_clear m a e lsc (j : nat) x :
  clear_of m a e → 0 <= a < 16 → 0 <= m → in_block e x → (j < TP_EX_NUM)%nat →
  ¬ channel_addr lsc m (Z.of_nat j) a <= x < channel_addr lsc m (Z.of_nat j + 1) a.
Proof.
  intros Hc Ha Hm Hx Hj. rewrite !channel_addr_eq by done. unfold in_block, clear_of in *.
  assert (Hb : UNIT_ID_TO_DATA_BLOCKSIZE = 262144) by done. rewrite Hb in *. unfold TP_EX_NUM in *.
  destruct lsc; [rewrite lsc_length|rewrite asc_length]; nia.
Qed.
Lemma invalidate_clear m a e rm x :
  mapped rm → clear_of m a e → 0 <= a < 16 → 0 <= m → in_block e x →
  area0 (invalidateTPslots m a rm) !! x = area0 rm !! x.
Proof.
  intros Hm Hc Ha Hm0 Hx. apply invalidateTPslots_spec; [done|]. intros lsc j Hj ->.
  apply (channel_clear m a e lsc j _ Hc Ha Hm0 Hx Hj). rewrite !channel_addr_eq by done.
  destruct lsc; [rewrite lsc_length|rewrite asc_length]; nia.
Qed.
Lemma pages_clear m (a : nat) e rm ps x :
  mapped rm → clear_of m (Z.of_nat a) e → (a < 16)%nat → 0 <= m → in_block e x → Forall (well_placed m a) ps →
  area0 (foldl (copy_page m) rm ps) !! x = area0 rm !! x.
Proof.
  intros Hm Hc Ha Hm0 Hx Hp. apply copy_pages_outside; [done|]. eapply Forall_impl; [exact Hp|]. intros p Hw (ad & Hv & Hr).
  destruct (Hw ad Hv) as (lsc & j & Hj & -> & Hlen). apply (channel_clear m (Z.of_nat a) e lsc j x Hc ltac:(lia) Hm0 Hx Hj).
  pose proof (page_words_length p) as Hl. rewrite Hlen in Hl. rewrite !channel_addr_eq in * by lia.
  assert (0 <= channel_length lsc m) by (destruct lsc; [rewrite lsc_length|rewrite asc_length]; lia). nia.
Qed.

Lemma begin_keeps tstart o o' : copy_begin tstart o = Some o' → rmem o' = rmem o ∧ awgtp o' = awgtp o.
Proof.
  unfold copy_begin. destruct (count o <=? 0); [done|]. cbv zeta.
  destruct (oldest _ 0 None) as [[k bf]|]; [destruct (_ || _)|]; by intros [= <-].
Qed.
Lemma heartbeat_mapped fuel m node now c tai ep o o' :
  heartbeat fuel m node now c tai ep o = Some o' → 0 <= ep < 16 → mapped (rmem o) → mapped (rmem o').
Proof.
  intros E He Hm. apply heartbeat_spec in E; [|done]. destruct (ahead tai ep) as [tm ae].
  destruct E as (b' & ps' & _ & ->). by apply invalidateTPslots_spec.
Qed.
Lemma client_mapped b o : mapped (rmem o) → mapped (rmem (set_bank b o)).
Proof. done. Qed.
Lemma clear_step_area m e o o' :
  0 <= m → placed m o → mapped (rmem o) → clear_step m e o o' →
  placed m o' ∧ mapped (rmem o') ∧ ∀ x, in_block e x → area0 (rmem o') !! x = area0 (rmem o) !! x.
Proof.
  intros Hm0 Hp Hm [k o1 Hb Hw E].
  split; [eapply step_placed; [done|by econstructor]|]. destruct k as [fuel now node c tai ep|tstart| |b]; cbn [step beat_ok writes] in *.
  - pose proof (ahead_epoch tai ep Hb) as Ha. specialize (Hw _ eq_refl). apply heartbeat_spec in E; [|done].
    destruct (ahead tai ep) as [tm ae]. cbn [snd] in *. destruct E as (b' & ps' & _ & ->). cbn [rmem].
    split; [by apply invalidateTPslots_spec|]. intros x Hx. by apply (invalidate_clear m ae e).
  - by destruct (begin_keeps _ _ _ E) as [-> _].
  - injection E as <-. unfold copy_end. destruct (copying o) as [k|] eqn:Ec; [|done]. cbn [rmem set_bufs set_copying set_rmem bufs].
    destruct Hp as (Hl & Hp & Hc). specialize (Hc k Ec). cbn in Hw. specialize (Hw (Z.of_nat k) eq_refl).
    rewrite copyRMdata_eq. split; [by apply copy_pages_mapped|]. intros x Hx.
    apply (pages_clear m k e); [done|done|exact Hc|done|done|]. by apply Hp.
  - by injection E as <-.
Qed.
Lemma clear_run_area m e o o' :
  0 <= m → placed m o → mapped (rmem o) → rtc (clear_step m e) o o' →
  mapped (rmem o') ∧ ∀ x, in_block e x → area0 (rmem o') !! x = area0 (rmem o) !! x.
Proof.
  intros Hm0 Hp Hm Hr. revert Hp Hm. induction Hr as [o|o o1 o2 Hs _ IH]; intros Hp Hm; [done|].
  destruct (clear_step_area m e o o1 Hm0 Hp Hm Hs) as (Hp1 & Hm1 & Hx). destruct (IH Hp1 Hm1) as [Hm2 Hx2].
  split; [done|]. intros x Hi. by rewrite Hx2, Hx.
Qed.

(** ** The front end

    What the front end finds at byte offsets from the start of the data blocks. *)
Definition sees rm (inp : DaqIn F) : Prop :=
  ∀ x, match area0 rm !!! (DAQ_DATA_BASE_ADD + x) with
       | WInt z => excStatus inp x = z
       | WFloat v => excFloat inp x = v
       end.
Section front_end.
Context (bd : DaqBuild) (inp : DaqIn F) (ii : nat) (s : DaqState F) (m : Z) (j : nat) (rm : Rm F).
Context (Hr : sysRate bd = 1024 * m) (Hq : 0 <= excSlot (clk s) < sysRate bd) (He : 0 <= excBlockNum (clk s) < 16).
Context (Hty : DAQ_SRC_FM_EXC <= lt_type (localTable s !!! ii)) (Hsig : sigNum (localTable s !!! ii) = Z.of_nat j).
Context (Hsees : sees rm inp).

Definition exc_at : Z := excBlockNum (clk s) * DAQ_DCU_BLOCK_SIZE + Z.of_nat j * (4 + 4 * (1024 * m)).
Lemma exc_channel : channel_addr true m (Z.of_nat j) (excBlockNum (clk s)) = DAQ_DATA_BASE_ADD + exc_at.
Proof. unfold exc_at. rewrite channel_addr_eq, lsc_length by done. change UNIT_ID_TO_DATA_BLOCKSIZE with DAQ_DCU_BLOCK_SIZE. lia. Qed.
Lemma read_page vp :
  length vp = Z.to_nat (1024 * m) →
  load (channel_addr true m (Z.of_nat j) (excBlockNum (clk s))) (S (Z.to_nat (1024 * m))) (area0 rm) = WInt 0 :: (WFloat <$> vp) →
  ∃ x, vp !! Z.to_nat (excSlot (clk s)) = Some x ∧
    read_excitation bd inp ii s = put_excitation (localTable s !!! ii) x (set_sel (set_validEx FE_ERROR_EXC_SET (sel s)) s).
Proof.
  intros Hl Hload. rewrite exc_channel, load_S in Hload. injection Hload as Hst Hdata.
  unfold read_excitation. rewrite Hsig, Hr, (proj2 (Z.ltb_ge _ _)) by done. fold exc_at.
  pose proof (Hsees exc_at) as Hs0. rewrite Hst in Hs0. rewrite Hs0. cbn [Z.eqb].
  destruct (lookup_lt_is_Some_2 vp (Z.to_nat (excSlot (clk s))) ltac:(lia)) as [x Hx]. exists x. split; [exact Hx|].
  pose proof (Hsees (exc_at + excSlot (clk s) * 4 + 4)) as Hs1.
  apply (f_equal (λ l, l !! Z.to_nat (excSlot (clk s)))) in Hdata. unfold load in Hdata. rewrite !list_lookup_fmap, Hx in Hdata.
  rewrite lookup_seq_lt in Hdata by lia. cbn [fmap option_fmap option_map Nat.add] in Hdata. injection Hdata as Hdata.
  replace (DAQ_DATA_BASE_ADD + exc_at + 4 + 4 * Z.of_nat (Z.to_nat (excSlot (clk s))))
    with (DAQ_DATA_BASE_ADD + (exc_at + excSlot (clk s) * 4 + 4)) in Hdata by lia.
  rewrite Hdata in Hs1. by rewrite Hs1.
Qed.
Lemma read_marked z :
  z ≠ 0 → area0 rm !! channel_addr true m (Z.of_nat j) (excBlockNum (clk s)) = Some (WInt z) →
  read_excitation bd inp ii s = put_excitation (localTable s !!! ii) (flit 0 0) s.
Proof.
  intros Hz Hst. rewrite exc_channel in Hst. unfold read_excitation. rewrite Hsig, Hr, (proj2 (Z.ltb_ge _ _)) by done. fold exc_at.
  pose proof (Hsees exc_at) as Hs0. rewrite lookup_total_alt, Hst in Hs0. cbn [default] in Hs0. rewrite Hs0. by rewrite (proj2 (Z.eqb_neq _ _)).
Qed.
End front_end.
(** ** From the generators to the front end *)
(** A round in time of the second [tai] and its epoch [ep], from a quiet state. *)
Record round (fuel : nat) (m node now : Z) (c : TpIndex.Cache) (tai ep tstart : Z) o o' : Prop := {
  rd_quiet : quiet o;
  rd_outputs : outputs_ok (bank o);
  rd_mapped : mapped (rmem o);
  rd_rate : 0 <= m;
  rd_epoch : 0 <= ep < 16;
  rd_time : on_time tai ep tstart;
  rd_cycle : cycle fuel m node now c tai ep tstart o = Some o'
}.
(** The front end of a model of the rate is in epoch [e] and at the excitation of
    entry [ii], in slot [j], of the memory. *)
Record looks_at (m e : Z) (j : nat) rm (bd : DaqBuild) (inp : DaqIn F) (ii : nat) (s : DaqState F) : Prop := {
  la_rate : sysRate bd = 1024 * m;
  la_cycle : 0 <= excSlot (clk s) < sysRate bd;
  la_epoch : excBlockNum (clk s) = e;
  la_type : DAQ_SRC_FM_EXC <= lt_type (localTable s !!! ii);
  la_slot : sigNum (localTable s !!! ii) = Z.of_nat j;
  la_sees : sees rm inp
}.
(** The channel of a slot ends in its block. *)
Definition fits (m : Z) (j : nat) : Prop := (Z.of_nat j + 1) * (4 * (1024 * m + 1)) <= UNIT_ID_TO_DATA_BLOCKSIZE.

Lemma quiet_placed m o : quiet o → placed m o.
Proof.
  intros Hq. pose proof Hq as [(Hl & Hf & _ & Hc) _]. split; [done|]. split; [|by rewrite Hc]. intros k Hk.
  pose proof (quiet_at o (Z.of_nat k) Hq ltac:(unfold _MAX_BUF in Hk; lia)) as Hb. rewrite Nat2Z.id in Hb.
  eapply Forall_impl; [exact Hb|]. intros p. apply none_placed.
Qed.
Lemma cycle_steps fuel m node now c tai ep tstart o o' :
  0 <= ep < 16 → cycle fuel m node now c tai ep tstart o = Some o' → rtc (one_step m) o o'.
Proof.
  intros He E. unfold cycle in E. destruct (heartbeat _ _ _ _ _ _ _ _) as [o1|] eqn:E1; [|done]. cbn [mbind option_bind] in E.
  destruct (copy_begin tstart o1) as [o2|] eqn:E2; [|done]. cbn [mbind option_bind] in E. injection E as <-.
  eapply rtc_l; [by apply (a_step m o (Beat fuel now node c tai ep))|].
  eapply rtc_l; [by apply (a_step m o1 (Begin tstart))|]. apply rtc_once. by apply (a_step m o2 Finish).
Qed.
Lemma round_placed fuel m node now c tai ep tstart o o' :
  round fuel m node now c tai ep tstart o o' → placed m o' ∧ mapped (rmem o').
Proof.
  intros [Hq _ Hm _ He Ht Hc]. split.
  - pose proof (cycle_steps _ _ _ _ _ _ _ _ _ _ He Hc) as Hr. apply (rtc_ind_r (placed m) o) in Hr; [done|by apply quiet_placed|].
    intros; by eapply step_placed.
  - pose proof (cycle_spec _ _ _ _ _ _ _ _ _ _ (proj1 Hq) He Ht Hc) as Hs. destruct (ahead tai ep) as [tm ae].
    destruct Hs as (b' & ps' & _ & -> & _). apply copy_pages_mapped. by apply invalidateTPslots_spec.
Qed.
Lemma channel_in_block m (j : nat) e k :
  0 <= e < 16 → 0 <= m → fits m j → (k < S (Z.to_nat (1024 * m)))%nat →
  in_block e (channel_addr true m (Z.of_nat j) e + 4 * Z.of_nat k).
Proof.
  intros He Hm Hf Hk. unfold in_block, fits in *. rewrite channel_addr_eq, lsc_length by done.
  assert (Hb : UNIT_ID_TO_DATA_BLOCKSIZE = 262144) by done. rewrite Hb in *. nia.
Qed.

(** From the page to the front end: the sample of each cycle of the epoch, as long as
    the blocks written to meanwhile do not reach into this one. *)
Lemma sample_read fuel m node now c tai ep tstart o o1 o2 (i j : nat) b1 r vp bd inp ii (s : DaqState F) :
  let '(tm, ae) := ahead tai ep in let g := Awg.AWG (bank o) !!! i in
  round fuel m node now c tai ep tstart o o1 → rtc (clear_step m ae) o1 o2 →
  (i < Awg.MAX_NUM_AWG)%nat → Awg.otype g = Awg.awgLSCtp → Awg.pagesize g = 1024 * m →
  AwgCalc.processAWG fuel now (bank o) (Z.of_nat i) tm ae = Some (b1, r, Some vp) →
  gets (awgtp o) tm ae g j → fits m j → looks_at m ae j (rmem o2) bd inp ii s →
  ∃ x, vp !! Z.to_nat (excSlot (clk s)) = Some x ∧
    read_excitation bd inp ii s = put_excitation (localTable s !!! ii) x (set_sel (set_validEx FE_ERROR_EXC_SET (sel s)) s).
Proof.
  pose proof (ahead_epoch tai ep) as Ha.
  pose proof (λ Hq Ho Hm H0 He Ht E, page_arrives fuel m node now c tai ep tstart o o1 i j b1 r vp Hq Ho Hm H0 He Ht E) as Hpage.
  destruct (ahead tai ep) as [tm ae]. cbn [snd] in Ha. intros g Hrd Hrun Hi Ho Hs Ep Hg Hf [La1 La2 La3 La4 La5 La6].
  destruct (round_placed _ _ _ _ _ _ _ _ _ _ Hrd) as [Hp1 Hm1]. destruct Hrd as [Hq Hok Hm Hm0 He Ht Hc]. specialize (Ha He).
  destruct (clear_run_area m ae o1 o2 Hm0 Hp1 Hm1 Hrun) as [_ Hsame].
  apply (read_page bd inp ii s m j (rmem o2)); try done; [by rewrite La3| |].
  - rewrite <- Hs. by apply (AwgSlot.process_length _ _ _ _ _ _ _ _ _ Ep).
  - rewrite La3. rewrite <- (Hpage Hq Hok Hm Hm0 He Ht Hc Hi Ho Hs Ep Hg). apply load_same. intros x Hx. apply Hsame.
    rewrite Nat2Z.inj_succ in Hx. unfold in_block, fits in *. rewrite channel_addr_eq, lsc_length in Hx by done.
    assert (Hb : UNIT_ID_TO_DATA_BLOCKSIZE = 262144) by done. rewrite Hb in *. nia.
Qed.

(** *** From the table of the test point manager *)
Lemma numbers_lookup srv (j : nat) x :
  wf srv → TpIndex.numbers srv 0 !! j = Some x → (j < TP_MAX_INDEX)%nat ∧ number srv 0 j = x.
Proof.
  intros Hwf Hx. assert (Hif : (0 < TP_MAX_INTERFACE)%nat) by (unfold TP_MAX_INTERFACE; lia).
  unfold TpIndex.numbers in Hx. rewrite (table_full srv 0 Hwf Hif) in Hx. rewrite list_lookup_fmap in Hx.
  destruct (wf_table srv 0 Hwf Hif) as (Hl & _). destruct ((indx srv !!! 0%nat) !! j) as [e|] eqn:Ee; [|done].
  cbn in Hx. injection Hx as <-. pose proof (lookup_lt_Some _ _ _ Ee). split; [unfold TP_MAX_INDEX in *; lia|].
  unfold number. by rewrite (list_lookup_total_correct _ _ _ Ee).
Qed.
Lemma registered_gets srv t tm ep (g : Awg.AWG_ConfigBlock F) (j : nat) x :
  wf srv → (j < TP_MAX_INDEX)%nat → number srv 0 j = x → 0 < x → list_in_force t tm ep = TpIndex.numbers srv 0 →
  Awg.otype g = Awg.awgLSCtp → Awg.ID g = x → gets t tm ep g j.
Proof.
  intros Hwf Hj Hn Hx Hlist Ho Hi. exists x. split; [unfold sought; by rewrite Ho, <- Hi|]. split; [done|]. rewrite Hlist.
  destruct (find_tp_spec x (TpIndex.numbers srv 0) 0) as [[_ Hno]|(k & -> & Hk)].
  - exfalso. apply Hno. assert (Hif : (0 < TP_MAX_INTERFACE)%nat) by (unfold TP_MAX_INTERFACE; lia).
    unfold TpIndex.numbers. rewrite (table_full srv 0 Hwf Hif). destruct (wf_table srv 0 Hwf Hif) as (Hl & _).
    apply list_elem_of_fmap. exists ((indx srv !!! 0%nat) !!! j). split; [by rewrite <- Hn|]. apply list_elem_of_lookup_total_2.
    rewrite Hl. done.
  - destruct (numbers_lookup srv k x Hwf Hk) as [Hk' Ek]. rewrite Z.add_0_l. f_equal.
    apply (TpHistory.number_inj srv 0 k j Hwf); [unfold TP_MAX_INTERFACE; lia|done|done|lia|congruence].
Qed.

(** C9: from the test point manager and the generator to the control loop.  A
    number the manager has in a slot that fits, and a generator bound to it: when
    the generators' list of that second and the front end's request table both
    are the manager's table, and the front end has selected what is requested, an
    entry of its table is for the filter module of this number; and in each
    cycle of the epoch this module gets as excitation the sample of the cycle of
    the page the generator has computed three epochs ahead and copied in time,
    whatever the generators, the clients and later rounds do in between, as long
    as the blocks written to do not reach into this one. *)
Theorem excitation_delivered fuel m node now c tai ep tstart o o1 o2 (i j : nat) b1 r vp srv x bd inp rg n (s1 s2 : DaqState F) :
  let '(tm, ae) := ahead tai ep in let g := Awg.AWG (bank o) !!! i in let sel1 := select_testpoints bd rg s1 in
  wf srv → (j < TP_MAX_INDEX)%nat → number srv 0 j = x → 0 < x → fits m j →
  list_in_force (awgtp o) tm ae = TpIndex.numbers srv 0 → (DaqSelect.requests bd s1).2 = TpIndex.numbers srv 0 →
  round fuel m node now c tai ep tstart o o1 → rtc (clear_step m ae) o1 o2 →
  (i < Awg.MAX_NUM_AWG)%nat → Awg.otype g = Awg.awgLSCtp → Awg.ID g = x → Awg.pagesize g = 1024 * m →
  AwgCalc.processAWG fuel now (bank o) (Z.of_nat i) tm ae = Some (b1, r, Some vp) →
  DaqSelect.shape n s1 → (∀ k, (k < DAQ_GDS_MAX_TP_ALLOWED)%nat → tpNum (sel s1) !!! k = 0) →
  (DaqSelect.number_requested (DaqSelect.requests bd s1) (2 * DAQ_GDS_MAX_TP_ALLOWED) <= DAQ_GDS_MAX_TP_ALLOWED)%nat →
  filtExMin rg <= x < filtExMax rg → localTable s2 = localTable sel1 →
  sysRate bd = 1024 * m → 0 <= excSlot (clk s2) < sysRate bd → excBlockNum (clk s2) = ae → sees (rmem o2) inp →
  ∃ ii v, (Z.to_nat n <= ii < totalChans sel1)%nat ∧ vp !! Z.to_nat (excSlot (clk s2)) = Some v ∧
    read_excitation bd inp ii s2 =
      set_excite (Z.rem (x - filtExMin rg) (filtExSize rg)) v (set_sel (set_validEx FE_ERROR_EXC_SET (sel s2)) s2).
Proof.
  pose proof (λ ii, sample_read fuel m node now c tai ep tstart o o1 o2 i j b1 r vp bd inp ii s2) as Hread.
  destruct (ahead tai ep) as [tm ae]. cbv zeta in *.
  intros Hwf Hj Hn Hx Hf Hlist Hreq Hrd Hrun Hi Ho Hid Hs Ep Hsh Hz Hroom Hr Htab Hrate Hq Hae Hsees.
  assert (Hgets : gets (awgtp o) tm ae (Awg.AWG (bank o) !!! i) j) by (by eapply registered_gets).
  assert (Hk : (DaqSelect.requests bd s1).2 !!! j = x).
  { rewrite Hreq. unfold TpIndex.numbers. assert (Hif : (0 < TP_MAX_INTERFACE)%nat) by (unfold TP_MAX_INTERFACE; lia).
    rewrite (table_full srv 0 Hwf Hif). destruct (wf_table srv 0 Hwf Hif) as (Hl & _). rewrite (list_lookup_total_fmap id) by (by rewrite Hl). done. }
  destruct (DaqSelect.excitation_selected bd rg s1 n j x inhabitant Hsh Hz Hroom Hj Hk ltac:(lia)) as (_ & sl & (Hsl & _ & e0 & e & Ee & Hroute) & Htot).
  { unfold exc_entry. rewrite (proj2 (Z.leb_le _ _)), (proj2 (Z.ltb_lt _ _)) by lia. by eexists. }
  unfold exc_entry in Ee. rewrite (proj2 (Z.leb_le _ _)), (proj2 (Z.ltb_lt _ _)) in Ee by lia. injection Ee as <-.
  destruct Hroute as (R1 & R2 & R3 & _). cbn [lt_type fmNum sigNum] in R1, R2, R3. rewrite <- Htab in R1, R2, R3.
  destruct (Hread (Z.to_nat n + sl)%nat Hrd Hrun Hi Ho Hs Ep Hgets Hf) as (v & Hv & E).
  { split; [done|done|done|by rewrite R1|done|done]. }
  exists (Z.to_nat n + sl)%nat, v. split; [split; [lia|exact Htot]|]. split; [exact Hv|]. rewrite E. unfold put_excitation. by rewrite R1, R2.
Qed.

(** C18: no generator, no excitation.  A slot that no generator which is on gets
    gives 0 in every cycle of the epoch, whatever was in the memory before, and
    does not count as an excitation. *)
Theorem no_excitation fuel m node now c tai ep tstart o o1 o2 (j : nat) bd inp ii (s : DaqState F) :
  let '(tm, ae) := ahead tai ep in
  round fuel m node now c tai ep tstart o o1 → rtc (clear_step m ae) o1 o2 →
  (∀ i, (i < Awg.MAX_NUM_AWG)%nat → active (Awg.AWG (bank o) !!! i) = true → ¬ gets (awgtp o) tm ae (Awg.AWG (bank o) !!! i) j) →
  (j < TP_EX_NUM)%nat → fits m j → looks_at m ae j (rmem o2) bd inp ii s →
  read_excitation bd inp ii s = put_excitation (localTable s !!! ii) (flit 0 0) s.
Proof.
  pose proof (ahead_epoch tai ep) as Ha.
  pose proof (λ Hq Ho Hm H0 He Ht E, nothing_arrives fuel m node now c tai ep tstart o o1 j Hq Ho Hm H0 He Ht E) as Hno.
  destruct (ahead tai ep) as [tm ae]. cbn [snd] in Ha. intros Hrd Hrun Hn Hj Hf [La1 La2 La3 La4 La5 La6].
  destruct (round_placed _ _ _ _ _ _ _ _ _ _ Hrd) as [Hp1 Hm1]. destruct Hrd as [Hq Hok Hm Hm0 He Ht Hc]. specialize (Ha He).
  destruct (clear_run_area m ae o1 o2 Hm0 Hp1 Hm1 Hrun) as [_ Hsame].
  apply (read_marked bd inp ii s m j (rmem o2) La1 ltac:(by rewrite La3) La4 La5 La6 _INVALID_RM_CHANNEL ltac:(done)).
  rewrite La3, Hsame; [by apply Hno|]. pose proof (channel_in_block m j ae 0 Ha Hm0 Hf ltac:(lia)) as Hb. by rewrite Z.add_0_r in Hb.
Qed.
(** ** The list of a second *)
(** Steps between two readings of the index. *)
Inductive same_list_step (m : Z) o : Out F → Prop :=
  | a_same_list_step e o' :
      beat_ok e → match e with Beat _ _ _ _ _ ep => ep ≠ TpIndex.TESTPOINT_VALID1 | _ => True end →
      step m e o = Some o' → same_list_step m o o'.
Lemma same_list m o o' : rtc (same_list_step m) o o' → awgtp o' = awgtp o.
Proof.
  induction 1 as [|o o1 o2 [e o1' Hb Hn E] _ IH]; [done|]. rewrite IH. destruct e as [fuel now node c tai ep|tstart| |b]; cbn [step] in E.
  - apply heartbeat_spec in E; [|done]. destruct (ahead tai ep). destruct E as (b' & ps' & _ & ->). cbn [awgtp].
    unfold next_awgtp. by rewrite (proj2 (Z.eqb_neq _ _) Hn).
  - by destruct (begin_keeps _ _ _ E) as [_ ->].
  - injection E as <-. unfold copy_end. by destruct (copying o).
  - by injection E as <-.
Qed.
Lemma heartbeat_list fuel m node now c tai o o1 :
  heartbeat fuel m node now c tai TpIndex.TESTPOINT_VALID1 o = Some o1 →
  awgtp o1 = (readTPinfo c node (u64 (tai + 1)) (awgtp o)).1.
Proof.
  intros E. apply heartbeat_spec in E; [|by split]. destruct (ahead tai _). by destruct E as (b' & ps' & _ & ->).
Qed.
Lemma fetch_published (bits : F → Z) s rm t l node old tai :
  wf s → valid s = true → mapped rm → Forall (λ q, mapped q.2) l → 0 <= node < TP_MAX_NODE → 0 <= t < 2 ^ 63 → t + 1 <= tai →
  take TP_EX_NUM (fetch (TpIndex.readings bits ((t, updateTestpoints s rm) :: l)) node Awg.TP_LSC_EX_INTERFACE tai old).2 =
  TpIndex.numbers s 0.
Proof.
  intros Hwf Hv Hm Hl Hn Ht Htai. unfold fetch. change (Z.of_nat TP_EX_NUM) with 64. change Awg.TP_LSC_EX_INTERFACE with (Z.of_nat 0).
  rewrite (TpIndex.published_index_read bits s rm t l node 0 tai) by (done || (unfold TP_MAX_INTERFACE; lia)). cbn [snd Z.leb Z.compare].
  assert (Hlen : length (TpIndex.numbers s 0) = TP_EX_NUM).
  { destruct (wf_table s 0 Hwf ltac:(unfold TP_MAX_INTERFACE; lia)) as (Hlen & _). unfold TpIndex.numbers. rewrite length_fmap.
    rewrite (table_full s 0 Hwf ltac:(unfold TP_MAX_INTERFACE; lia)), Hlen. done. }
  by rewrite <- Hlen, take_app_length.
Qed.

Lemma readTPinfo_eq c node tai t :
  ∃ asc, (readTPinfo c node tai t).1 = (mkTp tai 0 (fetch c node Awg.TP_LSC_EX_INTERFACE tai (lsctp t.1)).2 asc, t.1).
Proof. unfold readTPinfo. destruct (fetch _ _ _ _ (lsctp _)), (fetch _ _ _ _ (asctp _)). eexists. reflexivity. Qed.

(** C13: a second is played with one list.  When the server's index was published
    and read in or before second [tai], the generators take the numbers of the
    next second's fast excitations from the server's table, slot by slot: from
    the heartbeat that fetches the list to the next one, and from there to the
    one after, for every epoch of that second. *)
Theorem list_of_the_second (bits : F → Z) fuel m node now s rm t l tai o o1 o2 fuel' now' c' o3 o4 ep :
  wf s → valid s = true → mapped rm → Forall (λ q, mapped q.2) l → 0 <= node < TP_MAX_NODE →
  0 <= t <= tai → tai + 2 < 2 ^ 63 →
  heartbeat fuel m node now (TpIndex.readings bits ((t, updateTestpoints s rm) :: l)) tai TpIndex.TESTPOINT_VALID1 o = Some o1 →
  rtc (same_list_step m) o1 o2 →
  heartbeat fuel' m node now' c' (tai + 1) TpIndex.TESTPOINT_VALID1 o2 = Some o3 → rtc (same_list_step m) o3 o4 →
  list_in_force (awgtp o2) (tai + 1) ep = TpIndex.numbers s 0 ∧ list_in_force (awgtp o4) (tai + 1) ep = TpIndex.numbers s 0.
Proof.
  intros Hwf Hv Hm Hl Hn Ht Htai E1 R1 E2 R2. rewrite (same_list _ _ _ R1), (same_list _ _ _ R2).
  rewrite (heartbeat_list _ _ _ _ _ _ _ _ E2), (same_list _ _ _ R1), (heartbeat_list _ _ _ _ _ _ _ _ E1).
  rewrite !wrap_small by lia. pose proof (λ old, fetch_published bits s rm t l node old (tai + 1) Hwf Hv Hm Hl Hn ltac:(lia) ltac:(lia)) as Hf.
  destruct (readTPinfo_eq (TpIndex.readings bits ((t, updateTestpoints s rm) :: l)) node (tai + 1) (awgtp o)) as [asc ->].
  destruct (readTPinfo_eq c' node (tai + 1 + 1) (mkTp (tai + 1) 0 (fetch (TpIndex.readings bits ((t, updateTestpoints s rm) :: l))
    node Awg.TP_LSC_EX_INTERFACE (tai + 1) (lsctp (awgtp o).1)).2 asc, (awgtp o).1)) as [asc' ->].
  unfold list_in_force, in_force. cbn [fst snd ttime tepoch lsctp].
  rewrite (proj2 (Z.leb_le (tai + 1) (tai + 1))), (proj2 (Z.leb_gt (tai + 1 + 1) (tai + 1))), (proj2 (Z.eqb_neq (tai + 1) (tai + 1 + 1))) by lia.
  cbn [orb andb lsctp]. by rewrite !Hf.
Qed.
#[local] Strategy opaque [invalidateTPslots processAllAWG].

(** ** Too late *)
(** C22: late pages.  A buffer that comes too late is given up as a whole: nothing of
    it is copied, and its channels stay marked.  But its pages are kept: when the
    same buffer is used again, sixteen epochs later, and by then every generator
    is off, the old page is copied to the old slot as if it were of that epoch. *)
Theorem late_page_returns fuel m node now c tai ep tstart o o1 o2 (i j : nat) b1 r vp
    fuel' node' now' c' tai' tstart' o3 o4 :
  let '(tm, ae) := ahead tai ep in let g := Awg.AWG (bank o) !!! i in
  quiet o → outputs_ok (bank o) → 0 <= m → 0 <= ep < 16 → ¬ on_time tai ep tstart →
  (i < Awg.MAX_NUM_AWG)%nat → Awg.otype g = Awg.awgLSCtp → Awg.pagesize g = 1024 * m →
  AwgCalc.processAWG fuel now (bank o) (Z.of_nat i) tm ae = Some (b1, r, Some vp) → gets (awgtp o) tm ae g j →
  heartbeat fuel m node now c tai ep o = Some o1 → copy_begin tstart o1 = Some o2 →
  settled o3 → mapped (rmem o3) → bufs o3 !!! Z.to_nat ae = bufs o2 !!! Z.to_nat ae →
  (∀ k, (k < Awg.MAX_NUM_AWG)%nat → active (Awg.AWG (bank o3) !!! k) = false) →
  on_time tai' ep tstart' → cycle fuel' m node' now' c' tai' ep tstart' o3 = Some o4 →
  rmem o2 = invalidateTPslots m ae (rmem o) ∧ copying o2 = None ∧
  load (channel_addr true m (Z.of_nat j) ae) (S (Z.to_nat (1024 * m))) (area0 (rmem o4)) = WInt 0 :: (WFloat <$> vp).
Proof.
  pose proof (ahead_epoch tai ep) as Ha. pose proof (heartbeat_spec fuel m node now c tai ep o o1) as Hbeat.
  assert (Hep : (ahead tai' ep).2 = (ahead tai ep).2) by (unfold ahead; cbv zeta; by destruct (_ <? _)).
  pose proof (cycle_spec fuel' m node' now' c' tai' ep tstart' o3 o4) as Hcyc. unfold on_time at 1.
  destruct (ahead tai ep) as [tm ae] eqn:Eah. cbn [fst snd] in *. destruct (ahead tai' ep) as [tm' ae']. cbn [snd] in Hep. subst ae'.
  intros Hq Hok Hm0 He Hlate Hi Ho Hs Ep Hg Eh Eb Hset Hm Hsame Hoff Ht' Ec. specialize (Ha He).
  destruct (Hbeat Eh He) as (b' & ps' & Hall & ->). pose proof Hq as [Hq' _].
  destruct Hq' as (Hl & Hf & Hc & Hcp). assert (Hk : (Z.to_nat ae < length (bufs o))%nat) by (rewrite Hl; unfold _MAX_BUF; lia).
  assert (Hr : Forall (λ bf, ready bf = 0) (bufs o)) by (eapply Forall_impl; [exact Hf|]; by intros bf [? _]).
  unfold copy_begin, set_count in Eb. cbn [bank bufs count awgtp copying rmem] in Eb. rewrite Hc in Eb.
  rewrite oldest_only in Eb by done. change (0 + 1 <=? 0) with false in Eb. cbv zeta in Eb. cbn [set_bufs bank bufs count awgtp copying rmem] in Eb.
  unfold buffer_time in Eb. cbn [time epoch] in Eb.
  rewrite (proj2 (Z.ltb_lt (s64 (s64 tm * _ONESEC + ae * _EPOCH)) tstart)) in Eb by lia. rewrite orb_true_r in Eb. injection Eb as <-.
  cbn [rmem copying]. split; [done|]. split; [done|].
  cbn [bufs set_bufs] in Hsame. rewrite list_lookup_total_insert_eq in Hsame by (by rewrite length_insert).
  destruct (Hcyc Hset He Ht' Ec) as (b2 & ps2 & Hall2 & -> & _). rewrite processAll_off in Hall2 by done. injection Hall2 as _ <-.
  rewrite Hsame. cbn [set_ready buf]. destruct (settled_at o ae (proj1 Hq) Ha) as [_ Hlen].
  eapply (page_copied fuel m now (awgtp o) tm ae (bank o) _ ps' Hok (quiet_at o ae Hq Ha) Hlen b' Hall _ i j b1 r vp); try done.
  by apply invalidateTPslots_spec.
Qed.
End deliver.
(** ** Witnesses

    A generator of 5.0 at the number of the first slot.  The mathematical library
    is of no importance to it. *)
Section witnesses.
#[local] Instance any_libm : Libm binary64 :=
  {| lfloor x := x; lfmod x _ := x; lsin x := x; ltan x := x; lexp x := x; llog x := x; lsqrt x := x |}.
Definition five : Awg.AWG_ConfigBlock binary64 :=
  Awg.mkAwg 7 Awg.awgLSCtp 0 20 1024 [GdsRand.zero_block] [awgConstantComponentEx 0 (fofZ 5)] Awg.unit_gain None 0 false.
Definition five_bank : Awg.Bank binary64 :=
  Awg.mkBank (five :: replicate 8 Awg.free_slot) (replicate 9 (replicate 256 (Awg.mkPage 0 0 0 0 []))) (replicate 9 (Awg.mkFilter false f0 [] [])).
Definition off_bank : Awg.Bank binary64 := Awg.mkBank (replicate 9 Awg.free_slot) [] [].
Definition five_out : Out binary64 :=
  set_awgtp (mkTp 0 0 (20 :: replicate 63 0) (replicate 64 0), zero_tp) (initAWG five_bank (rmInit ∅ ∅)).
Definition five_page : list binary64 :=
  default [] (AwgCalc.processAWG 0 0 five_bank 0 100 3 ≫= λ x, x.2).
Definition five_after : Out binary64 := default five_out (cycle 0 1 7 0 TpIndex.initTestpoint 100 0 0 five_out).
Example five_page_is : take 2 five_page = [fofZ 5; fofZ 5] ∧ length five_page = 1024%nat.
Proof. split; vm_compute; reflexivity. Qed.
Lemma five_cycle : cycle 0 1 7 0 TpIndex.initTestpoint 100 0 0 five_out = Some five_after.
Proof.
  assert (E : (match cycle 0 1 7 0 TpIndex.initTestpoint 100 0 0 five_out with Some _ => true | None => false end) = true)
    by (vm_compute; reflexivity).
  unfold five_after. by destruct (cycle 0 1 7 0 TpIndex.initTestpoint 100 0 0 five_out).
Qed.
Lemma five_quiet : quiet five_out.
Proof. exact (quiet_init five_bank (rmInit ∅ ∅)). Qed.
Lemma five_outputs : outputs_ok five_bank.
Proof.
  assert (E : ∀ i, (0 < i)%nat → (i < Awg.MAX_NUM_AWG)%nat → active (Awg.AWG five_bank !!! i) = false).
  { intros i Hp Hi. unfold Awg.MAX_NUM_AWG in Hi. do 9 (destruct i as [|i]; [first [lia|reflexivity]|]). lia. }
  split; [reflexivity| |].
  - intros i Hi Ha. destruct i as [|i]; [done|]. rewrite E in Ha by (done || lia). done.
  - intros i k Hi Hk Hn Ha Hb. destruct i as [|i]; [|rewrite E in Ha by (done || lia); done].
    destruct k as [|k]; [done|]. rewrite E in Hb by (done || lia). done.
Qed.
Lemma five_round : round 0 1 7 0 TpIndex.initTestpoint 100 0 0 five_out five_after.
Proof.
  split; [exact five_quiet|exact five_outputs|apply rmInit_mapped|done|done|unfold on_time; vm_compute; discriminate|exact five_cycle].
Qed.
Lemma five_processed : ∃ b1, AwgCalc.processAWG 0 0 five_bank (Z.of_nat 0) 100 3 = Some (b1, 0, Some five_page).
Proof.
  assert (E : match AwgCalc.processAWG 0 0 five_bank (Z.of_nat 0) 100 3 with Some (_, 0, Some _) => true | _ => false end = true)
    by (vm_compute; reflexivity).
  unfold five_page. change (Z.of_nat 0) with 0 in *. destruct (AwgCalc.processAWG 0 0 five_bank 0 100 3) as [[[b1 r] [vp|]]|]; try done; [|by destruct r].
  exists b1. destruct r; done.
Qed.
Lemma five_gets : gets (awgtp five_out) 100 3 (Awg.AWG five_bank !!! 0%nat) 0.
Proof. exists 20. split; [reflexivity|]. split; [done|]. vm_compute. reflexivity. Qed.

(** The front end of a 16384 Hz model in the fourth epoch, with an excitation of the
    second filter module in entry 0; it sees the memory. *)
Definition five_input (rm : Rm binary64) : DaqIn binary64 :=
  mkDin [] (λ _, f0)
    (λ x, match area0 rm !!! (DAQ_DATA_BASE_ADD + x) with WInt z => z | WFloat _ => 0 end)
    (λ x, match area0 rm !!! (DAQ_DATA_BASE_ADD + x) with WFloat v => v | WInt _ => f0 end) 0.
Definition five_front : DaqState binary64 :=
  set_localTable [mkLkup DAQ_SRC_FM_EXC 0 1 0 1 0] (set_clk (mkClk 0 7 0 0 3) (DaqProps.demo_blank 0 (DaqConfig.mkTp 0 0 0))).
Definition five_build : DaqBuild := mkBuild 1024 1 0 false.
Lemma five_sees rm : sees rm (five_input rm).
Proof. intros x. cbn [excStatus excFloat five_input]. by destruct (area0 rm !!! (DAQ_DATA_BASE_ADD + x)). Qed.
Lemma five_looks j rm : looks_at 1 3 j rm five_build (five_input rm) 0 (set_localTable [mkLkup DAQ_SRC_FM_EXC 0 1 (Z.of_nat j) 1 0] five_front).
Proof. split; [done|by split|done|done|done|apply five_sees]. Qed.
(** A client and a later round come between. *)
Definition five_later : Out binary64 :=
  default five_after (heartbeat 0 1 7 0 TpIndex.initTestpoint 100 1 (set_bank off_bank five_after)).
Lemma five_run : rtc (clear_step 1 3) five_after five_later.
Proof.
  eapply rtc_l; [by apply (a_clear_step 1 3 five_after (Client off_bank))|].
  assert (E : (match heartbeat 0 1 7 0 TpIndex.initTestpoint 100 1 (set_bank off_bank five_after) with Some _ => true | None => false end) = true)
    by (vm_compute; reflexivity).
  apply rtc_once. apply (a_clear_step 1 3 _ (Beat 0 0 7 TpIndex.initTestpoint 100 1)); [done| |].
  - intros a [= <-]. left. done.
  - cbn [step]. unfold five_later. by destruct (heartbeat 0 1 7 0 TpIndex.initTestpoint 100 1 (set_bank off_bank five_after)).
Qed.

(** The test point manager has given the first slot to number 20. *)
Definition told : TpIndex.Cache :=
  TpIndex.readings (λ _ : binary64, 0) [(100, updateTestpoints TpHistory.node7_asked (rmInit ∅ ∅))].
Definition five_start : Out binary64 := initAWG five_bank (rmInit ∅ ∅).
Definition beat (c : TpIndex.Cache) (tai ep : Z) (o : Out binary64) : Out binary64 := default o (heartbeat 0 1 7 0 c tai ep o).
Definition is_some {A} (x : option A) : bool := match x with Some _ => true | None => false end.
Lemma beat_eq c tai ep o : is_some (heartbeat 0 1 7 0 c tai ep o) = true → heartbeat 0 1 7 0 c tai ep o = Some (beat c tai ep o).
Proof. unfold beat. by destruct (heartbeat 0 1 7 0 c tai ep o). Qed.
Definition five_told : Out binary64 := beat told 100 10 five_start.
Definition five_made : Out binary64 := beat TpIndex.initTestpoint 100 13 five_told.
Lemma told_beat : heartbeat 0 1 7 0 told 100 10 five_start = Some five_told.
Proof. apply (beat_eq told 100 10 five_start). vm_compute. reflexivity. Qed.
Lemma made_beat : heartbeat 0 1 7 0 TpIndex.initTestpoint 100 13 five_told = Some five_made.
Proof. apply (beat_eq TpIndex.initTestpoint 100 13 five_told). vm_compute. reflexivity. Qed.
Lemma told_steps : rtc (one_step 1) five_start five_made.
Proof.
  apply (rtc_l _ _ five_told); [apply (a_step 1 five_start (Beat 0 0 7 told 100 10)); [by split|exact told_beat]|].
  apply rtc_once. apply (a_step 1 five_told (Beat 0 0 7 TpIndex.initTestpoint 100 13)); [by split|exact made_beat].
Qed.
Definition made_page : awgpagebuf_t binary64 := buf (bufs five_made !!! 0%nat) !!! 0%nat.
Lemma pages_in_place_witness :
  ∃ lsc (j : nat), (j < TP_EX_NUM)%nat ∧ channel_addr true 1 0 0 = channel_addr lsc 1 (Z.of_nat j) (Z.of_nat 0) ∧
    pagelen made_page = channel_length lsc 1.
Proof.
  apply (pages_in_place 1 five_bank (rmInit ∅ ∅) five_made 0 0 made_page (channel_addr true 1 0 0)).
  - exact told_steps.
  - unfold _MAX_BUF. lia.
  - vm_compute. reflexivity.
  - vm_compute. reflexivity.
Defined.
Definition five_told2 : Out binary64 := beat TpIndex.initTestpoint 101 10 five_made.
Lemma list_of_the_second_witness :
  list_in_force (awgtp five_made) (100 + 1) 0 = TpIndex.numbers TpHistory.node7_asked 0 ∧
  list_in_force (awgtp five_told2) (100 + 1) 0 = TpIndex.numbers TpHistory.node7_asked 0.
Proof.
  apply (list_of_the_second (λ _, 0) 0 1 7 0 TpHistory.node7_asked (rmInit ∅ ∅) 100 [] 100 five_start five_told five_made
           0 0 TpIndex.initTestpoint five_told2 five_told2 0).
  - apply TpHistory.node7_asked_ok.
  - vm_compute. reflexivity.
  - apply rmInit_mapped.
  - constructor.
  - done.
  - done.
  - done.
  - exact told_beat.
  - apply rtc_once. apply (a_same_list_step 1 five_told (Beat 0 0 7 TpIndex.initTestpoint 100 13)); [by split|by vm_compute|exact made_beat].
  - apply (beat_eq TpIndex.initTestpoint 101 10 five_made). vm_compute. reflexivity.
  - constructor.
Defined.
(** The front end before and after it selects what the manager's table has. *)
Definition five_range : DAQ_RANGE := mkRange 100 110 10 200 210 10 40 30 300 310.
Definition five_idle : DaqState binary64 :=
  let s := DaqProps.demo_blank 0 (DaqConfig.mkTp 0 0 0) in
  set_sel (set_gdsNum (<[0%nat := TpIndex.numbers TpHistory.node7_asked 0 ++ replicate 192 0]> (gdsNum (sel s))) (sel s)) s.
Definition five_ready : DaqState binary64 := set_clk (mkClk 0 7 0 0 3) (select_testpoints five_build five_range five_idle).
Lemma five_list : list_in_force (awgtp five_out) 100 3 = TpIndex.numbers TpHistory.node7_asked 0.
Proof. vm_compute. reflexivity. Qed.
Lemma five_requests : (DaqSelect.requests five_build five_idle).2 = TpIndex.numbers TpHistory.node7_asked 0.
Proof. vm_compute. reflexivity. Qed.
Lemma five_shape : DaqSelect.shape 0 five_idle.
Proof. split; [reflexivity|]. split; [reflexivity|]. apply Nat.leb_le. vm_compute. reflexivity. Qed.
Lemma five_unselected k : (k < DAQ_GDS_MAX_TP_ALLOWED)%nat → tpNum (sel five_idle) !!! k = 0.
Proof. intros Hk. change (tpNum (sel five_idle)) with (replicate 64 0). by apply lookup_total_replicate_2. Qed.
Lemma excitation_delivered_witness :
  ∃ ii v, (Z.to_nat 0 <= ii < totalChans (select_testpoints five_build five_range five_idle))%nat ∧ five_page !! 7%nat = Some v ∧
    read_excitation five_build (five_input (rmem five_later)) ii five_ready =
    set_excite (Z.rem (20 - 10) 30) v (set_sel (set_validEx FE_ERROR_EXC_SET (sel five_ready)) five_ready).
Proof.
  destruct five_processed as [b1 Ep].
  apply (excitation_delivered 0 1 7 0 TpIndex.initTestpoint 100 0 0 five_out five_after five_later 0 0 b1 0 five_page
           TpHistory.node7_asked 20 five_build (five_input (rmem five_later)) five_range 0 five_idle five_ready).
  - apply TpHistory.node7_asked_ok.
  - unfold TP_MAX_INDEX. lia.
  - vm_compute. reflexivity.
  - lia.
  - unfold fits. vm_compute. discriminate.
  - exact five_list.
  - exact five_requests.
  - exact five_round.
  - exact five_run.
  - unfold Awg.MAX_NUM_AWG. lia.
  - reflexivity.
  - reflexivity.
  - reflexivity.
  - exact Ep.
  - exact five_shape.
  - exact five_unselected.
  - apply Nat.leb_le. vm_compute. reflexivity.
  - cbn. lia.
  - reflexivity.
  - reflexivity.
  - split; [vm_compute; discriminate|reflexivity].
  - reflexivity.
  - apply five_sees.
Defined.
Lemma no_excitation_witness :
  read_excitation five_build (five_input (rmem five_later)) 0 (set_localTable [mkLkup DAQ_SRC_FM_EXC 0 1 (Z.of_nat 1) 1 0] five_front) =
  put_excitation (mkLkup DAQ_SRC_FM_EXC 0 1 (Z.of_nat 1) 1 0) (flit 0 0) (set_localTable [mkLkup DAQ_SRC_FM_EXC 0 1 (Z.of_nat 1) 1 0] five_front).
Proof.
  apply (no_excitation 0 1 7 0 TpIndex.initTestpoint 100 0 0 five_out five_after five_later 1 five_build
           (five_input (rmem five_later)) 0 (set_localTable [mkLkup DAQ_SRC_FM_EXC 0 1 (Z.of_nat 1) 1 0] five_front) five_round five_run);
    [|unfold TP_EX_NUM; lia|unfold fits; done|apply five_looks].
  intros i Hi Ha (x & Hs & _ & Hf). destruct i as [|i]; [injection Hs as <-; by vm_compute in Hf|].
  assert (E : active (Awg.AWG five_bank !!! S i) = false).
  { unfold Awg.MAX_NUM_AWG in Hi. do 8 (destruct i as [|i]; [reflexivity|]). lia. }
  change (bank five_out) with five_bank in Ha. congruence.
Defined.
(** Late, and off when the epoch comes again. *)
Lemma bufs_of_client (b : Awg.Bank binary64) (o : Out binary64) : bufs (set_bank b o) = bufs o.
Proof. reflexivity. Qed.
Definition five_beaten : Out binary64 := beat TpIndex.initTestpoint 100 0 five_out.
Definition given_up : Out binary64 := default five_out (copy_begin (2 ^ 62) five_beaten).
Definition off_later : Out binary64 := set_bank off_bank given_up.
Definition off_after : Out binary64 := default five_out (cycle 0 1 7 0 TpIndex.initTestpoint 101 0 0 off_later).
Lemma off_settled : settled off_later.
Proof.
  split; [vm_compute; reflexivity|]. split; [|vm_compute; done]. apply Forall_forall. intros bf Hb.
  assert (E : forallb (λ bf, (ready bf =? 0) && (length (buf bf) =? Awg.MAX_NUM_AWG)%nat) (bufs off_later) = true) by (vm_compute; reflexivity).
  rewrite forallb_forall in E. apply list_elem_of_In in Hb. apply E in Hb. apply andb_true_iff in Hb as [H1%Z.eqb_eq H2%Nat.eqb_eq]. done.
Qed.
Lemma five_beat : heartbeat 0 1 7 0 TpIndex.initTestpoint 100 0 five_out = Some five_beaten.
Proof. apply (beat_eq TpIndex.initTestpoint 100 0 five_out). vm_compute. reflexivity. Qed.
Lemma five_late : copy_begin (2 ^ 62) five_beaten = Some given_up.
Proof.
  assert (E : is_some (copy_begin (2 ^ 62) five_beaten) = true) by (vm_compute; reflexivity).
  unfold given_up. by destruct (copy_begin (2 ^ 62) five_beaten).
Qed.
Lemma off_mapped : mapped (rmem off_later).
Proof.
  apply (client_mapped off_bank given_up). rewrite (proj1 (begin_keeps _ _ _ five_late)).
  apply (heartbeat_mapped _ _ _ _ _ _ _ _ _ five_beat); [by split|apply rmInit_mapped].
Qed.
Lemma off_cycle : cycle 0 1 7 0 TpIndex.initTestpoint 101 0 0 off_later = Some off_after.
Proof.
  assert (E : is_some (cycle 0 1 7 0 TpIndex.initTestpoint 101 0 0 off_later) = true) by (vm_compute; reflexivity).
  unfold off_after. by destruct (cycle 0 1 7 0 TpIndex.initTestpoint 101 0 0 off_later).
Qed.
Lemma late_page_returns_witness :
  rmem given_up = invalidateTPslots 1 3 (rmInit ∅ ∅) ∧ copying given_up = None ∧
  load (channel_addr true 1 (Z.of_nat 0) 3) (S (Z.to_nat (1024 * 1))) (area0 (rmem off_after)) = WInt 0 :: (WFloat <$> five_page).
Proof.
  destruct five_processed as [b1 Ep].
  apply (late_page_returns 0 1 7 0 TpIndex.initTestpoint 100 0 (2 ^ 62) five_out five_beaten given_up 0 0 b1 0 five_page
           0 7 0 TpIndex.initTestpoint 101 0 off_later off_after).
  - exact five_quiet.
  - exact five_outputs.
  - lia.
  - lia.
  - unfold on_time. vm_compute. intros h. by apply h.
  - unfold Awg.MAX_NUM_AWG. lia.
  - reflexivity.
  - reflexivity.
  - exact Ep.
  - exact five_gets.
  - exact five_beat.
  - exact five_late.
  - exact off_settled.
  - exact off_mapped.
  - by rewrite (bufs_of_client off_bank given_up : bufs off_later = bufs given_up).
  - intros k Hk. unfold Awg.MAX_NUM_AWG in Hk. do 9 (destruct k as [|k]; [reflexivity|]). lia.
  - unfold on_time. vm_compute. discriminate.
  - exact off_cycle.
Defined.
End witnesses.
End AwgDeliver.
