(* ===== verification/Param.v ===== *)
(** * Channel configuration files ([src/drv/param.c])

    The EPICS process of a model reads, at start and on request, the file that
    lists the channels to acquire, and leaves the list in shared memory for
    [daqConfig] of the front end ([DaqConfig.v]).

    - [read_assignment]: a line [key=value]; [set_param]: what a key sets;
    - [parseConfigFile]: the sections of a file, with defaults, its checksum and
      its archive copy, over any callback;
    - [infoCallback], [loadDaqConfigFile]: the list of channels;
    - [parseGdstpFile]: the list of test points.

    Failing writes of the archive are left out, and so is the log.  A store
    behind a buffer of the stack has no result ([None]). *)
From Stdlib Require Import String Ascii SpecFloat.
From stdpp Require Import strings.
From S2P Require Import Prelude CFloat CText Crc CFile DaqConfig.
Import CText CFile DaqConfig.

Module Param.

(** [struct CHAN_PARAM] *)
Record CHAN_PARAM := mkParam {
  dcuid : Z; datarate : Z; acquire : Z; ifoid : Z; rmid : Z; datatype : Z; chnnum : Z; testpoint : Z;
  gain : binary64; slope : binary64; offset : binary64;
  units : string; system : string
}.
Definition set_dcuid (v : Z) (c : CHAN_PARAM) : CHAN_PARAM :=
  mkParam v (datarate c) (acquire c) (ifoid c) (rmid c) (datatype c) (chnnum c) (testpoint c) (gain c) (slope c) (offset c) (units c) (system c).
Definition set_datarate (v : Z) (c : CHAN_PARAM) : CHAN_PARAM :=
  mkParam (dcuid c) v (acquire c) (ifoid c) (rmid c) (datatype c) (chnnum c) (testpoint c) (gain c) (slope c) (offset c) (units c) (system c).
Definition set_acquire (v : Z) (c : CHAN_PARAM) : CHAN_PARAM :=
  mkParam (dcuid c) (datarate c) v (ifoid c) (rmid c) (datatype c) (chnnum c) (testpoint c) (gain c) (slope c) (offset c) (units c) (system c).
Definition set_ifoid (v : Z) (c : CHAN_PARAM) : CHAN_PARAM :=
  mkParam (dcuid c) (datarate c) (acquire c) v (rmid c) (datatype c) (chnnum c) (testpoint c) (gain c) (slope c) (offset c) (units c) (system c).
Definition set_rmid (v : Z) (c : CHAN_PARAM) : CHAN_PARAM :=
  mkParam (dcuid c) (datarate c) (acquire c) (ifoid c) v (datatype c) (chnnum c) (testpoint c) (gain c) (slope c) (offset c) (units c) (system c).
Definition set_datatype (v : Z) (c : CHAN_PARAM) : CHAN_PARAM :=
  mkParam (dcuid c) (datarate c) (acquire c) (ifoid c) (rmid c) v (chnnum c) (testpoint c) (gain c) (slope c) (offset c) (units c) (system c).
Definition set_chnnum (v : Z) (c : CHAN_PARAM) : CHAN_PARAM :=
  mkParam (dcuid c) (datarate c) (acquire c) (ifoid c) (rmid c) (datatype c) v (testpoint c) (gain c) (slope c) (offset c) (units c) (system c).
Definition set_testpoint (v : Z) (c : CHAN_PARAM) : CHAN_PARAM :=
  mkParam (dcuid c) (datarate c) (acquire c) (ifoid c) (rmid c) (datatype c) (chnnum c) v (gain c) (slope c) (offset c) (units c) (system c).
Definition set_gain (v : binary64) (c : CHAN_PARAM) : CHAN_PARAM :=
  mkParam (dcuid c) (datarate c) (acquire c) (ifoid c) (rmid c) (datatype c) (chnnum c) (testpoint c) v (slope c) (offset c) (units c) (system c).
Definition set_slope (v : binary64) (c : CHAN_PARAM) : CHAN_PARAM :=
  mkParam (dcuid c) (datarate c) (acquire c) (ifoid c) (rmid c) (datatype c) (chnnum c) (testpoint c) (gain c) v (offset c) (units c) (system c).
Definition set_offset (v : binary64) (c : CHAN_PARAM) : CHAN_PARAM :=
  mkParam (dcuid c) (datarate c) (acquire c) (ifoid c) (rmid c) (datatype c) (chnnum c) (testpoint c) (gain c) (slope c) v (units c) (system c).
Definition set_units (v : string) (c : CHAN_PARAM) : CHAN_PARAM :=
  mkParam (dcuid c) (datarate c) (acquire c) (ifoid c) (rmid c) (datatype c) (chnnum c) (testpoint c) (gain c) (slope c) (offset c) v (system c).
Definition set_system (v : string) (c : CHAN_PARAM) : CHAN_PARAM :=
  mkParam (dcuid c) (datarate c) (acquire c) (ifoid c) (rmid c) (datatype c) (chnnum c) (testpoint c) (gain c) (slope c) (offset c) (units c) v.

Definition uninit : CHAN_PARAM :=
  mkParam (-1) (-1) (-1) (-1) (-1) (-1) 0 0 (b64_ofZ (-99999000)) (b64_single (b64_ofZ (-99999999))) (b64_ofZ (-9999999))
    "none" "none".
Definition DCU_ID_EX_16K : Z := 13.

(** ** A line *)

(** The copy of a name or a value without its white space, and where it stops:
    at [stop], after 64 characters kept, or at the end of the line. *)
Fixpoint scan_word (stop : ascii → bool) (s : string) (cr : nat) : string * string * nat :=
  match s with
  | String c s' =>
      if negb (stop c) && (cr <? 64)%nat then
        if is_space c then scan_word stop s' cr
        else let '(w, r, n) := scan_word stop s' (S cr) in (String c w, r, n)
      else (""%string, s, cr)
  | EmptyString => (""%string, s, cr)
  end.

(** A line of a section.  [Overrun]: the terminating NUL is stored behind the 64
    characters of [id] or [val]. *)
Inductive Assignment := Other | Overrun | Assign (id val : string).
Definition EQUALS : ascii := chr 61.
Definition read_assignment (line : string) : Assignment :=
  let '(id, r, cr) := scan_word (λ c, bool_decide (c = EQUALS)) line 0 in
  match r with
  | String c r =>
      if bool_decide (c = EQUALS) then
        if (cr =? 64)%nat then Overrun
        else let '(val, _, cr) := scan_word (λ _, false) r 0 in
             if (cr =? 64)%nat then Overrun else Assign id val
      else Other
  | EmptyString => Other
  end.

(** ** A parameter *)
Definition int_value (val : string) : option Z :=
  let '(v, rest) := strtol 0 val in if bool_decide (rest = ""%string) then Some (s32 v) else None.
Definition float_value (val : string) : option binary64 :=
  if bool_decide (strtod_end val = ""%string) then Some (b64_single (atof val)) else None.

(** [do { if (value % 2) return 0; value /= 2; } while (value > 1)], for 32 bits. *)
Fixpoint halves (fuel : nat) (value : Z) : bool :=
  if value mod 2 =? 0 then
    if 1 <? value / 2 then match fuel with O => false | S n => halves n (value / 2) end else true
  else false.
Definition rate_ok (rate : Z) : bool := (16 <=? rate) && (rate <=? 512 * 1024) && halves 32 rate.

(** The chain of comparisons of [id].  [None] is [return 0]. *)
Definition set_param (tp : Z) (id val : string) (c : CHAN_PARAM) : option CHAN_PARAM :=
  if same_nocase id "dcuid" then (λ v, set_dcuid v c) <$> int_value val
  else if same_nocase id "datarate" then
    v ← int_value val; if rate_ok v then Some (set_datarate v c) else None
  else if same_nocase id "acquire" then (λ v, set_acquire v c) <$> int_value val
  else if same_nocase id "ifoid" then (λ v, set_ifoid v c) <$> int_value val
  else if same_nocase id "rmid" then (λ v, set_rmid v c) <$> int_value val
  else if same_nocase id "datatype" then (λ v, set_datatype v c) <$> int_value val
  else if same_nocase id "chnnum" then (λ v, set_chnnum v c) <$> int_value val
  else if same_nocase id "gain" then (λ v, set_gain v c) <$> float_value val
  else if same_nocase id "slope" then (λ v, set_slope v c) <$> float_value val
  else if same_nocase id "offset" then (λ v, set_offset v c) <$> float_value val
  else if same_nocase id "units" || ((tp =? 2) && same_nocase id "hostname") then
    Some (set_units (String.substring 0 32 val) c)
  else if same_nocase id "system" then Some (set_system (String.substring 0 32 val) c)
  else Some c.

(** ** Defaults *)
Definition if_unset {A} (same : A → A → bool) (get : CHAN_PARAM → A) (set : A → CHAN_PARAM → CHAN_PARAM)
    (v : A) (c : CHAN_PARAM) : CHAN_PARAM :=
  if same (get c) (get uninit) then set v c else c.
Definition str_same (s t : string) : bool := bool_decide (s = t).

(** What test point files may leave out. *)
Definition testpoint_defaults (c : CHAN_PARAM) : CHAN_PARAM :=
  if_unset Z.eqb dcuid set_dcuid DCU_ID_EX_16K (if_unset SFeqb offset set_offset (b64_ofZ 0)
    (if_unset SFeqb slope set_slope (b64_ofZ 1) (if_unset SFeqb gain set_gain (b64_ofZ 1) c))).

Definition fill_defaults (tp : Z) (deflt c : CHAN_PARAM) : CHAN_PARAM :=
  let c :=
    if_unset str_same system set_system (system deflt) (if_unset str_same units set_units (units deflt)
      (if_unset SFeqb offset set_offset (offset deflt) (if_unset SFeqb slope set_slope (slope deflt)
        (if_unset SFeqb gain set_gain (gain deflt) (if_unset Z.eqb chnnum set_chnnum (chnnum deflt)
          (if_unset Z.eqb datatype set_datatype (datatype deflt) (if_unset Z.eqb ifoid set_ifoid (ifoid deflt)
            (if_unset Z.eqb acquire set_acquire (acquire deflt) (if_unset Z.eqb datarate set_datarate (datarate deflt)
              (if_unset Z.eqb dcuid set_dcuid (dcuid deflt) c)))))))))) in
  let c := set_testpoint tp c in
  if truthy tp then testpoint_defaults c else c.

(** ** A file *)

(** The name between the brackets of a section line, cut to its buffer. *)
Fixpoint upto (stop : ascii) (s : string) : string :=
  match s with
  | String c s' => if bool_decide (c = stop) then EmptyString else String c (upto stop s')
  | EmptyString => EmptyString
  end.
Definition section_name (line : string) : string := String.substring 0 59 (upto (chr 93) (tail line)).
Definition is_section (line : string) : bool := head_is (λ c, bool_decide (c = chr 91)) line.

(** [feof] after [fgets] gave [piece]: the text ended before the piece was full
    or complete. *)
Fixpoint last_char (s : string) : option ascii :=
  match s with String c s' => match s' with EmptyString => Some c | _ => last_char s' end | EmptyString => None end.
Definition hits_eof (piece : string) : bool :=
  negb (bool_decide (last_char piece = Some NL)) && (String.length piece <? 127)%nat.

Section parse.
Context {User : Type} (callback : string → CHAN_PARAM → User → User * bool) (tp : Z).

(** The variables of [parseConfigFile] and what its pointers lead to: the
    checksum so far, the archive copy, the defaults, the global default rate. *)
Record ParseState := mkParse {
  flen : Z; crc : Z; archive : string; deflt : CHAN_PARAM; default_dcu_rate : Z; user : User
}.

(** Count, checksum and copy a line. *)
Definition note_line (line : string) (s : ParseState) : ParseState :=
  let l := String.length (c_str line) in
  mkParse (u32 (flen s + Z.of_nat l)) (Crc.crc_ptr (bytes_of line) l (crc s)) (archive s +:+ c_str line)%string
    (deflt s) (default_dcu_rate s) (user s).

(** What ends a run: [return 0] or [return 1]. *)
Inductive Ended := Failed (s : ParseState) | Finished (s : ParseState).

(** The end of a section: new defaults, or a channel for the callback. *)
Definition end_section (name : string) (cur : CHAN_PARAM) (s : ParseState) : ParseState * bool :=
  if same_nocase name "default" then
    (mkParse (flen s) (crc s) (archive s) cur (datarate cur) (user s), true)
  else
    let '(u, ok) := callback name (fill_defaults tp (deflt s) cur) (user s) in
    (mkParse (flen s) (crc s) (archive s) (deflt s) (default_dcu_rate s) u, ok).

(** The loops over the lines of a section and over the sections, in one
    recursion on the pieces of the file that are left. *)
Fixpoint read_sections (lines : list string) (name : string) (cur : CHAN_PARAM) (s : ParseState) : option Ended :=
  match lines with
  | [] => let '(s, ok) := end_section name cur s in Some (if ok then Finished s else Failed s)
  | line :: lines =>
      if is_section line then
        let s := if hits_eof line then s else note_line line s in
        let '(s, ok) := end_section name cur s in
        if ok then
          if hits_eof line then Some (Finished s) else read_sections lines (section_name (c_str line)) uninit s
        else Some (Failed s)
      else
        let s := note_line line s in
        match read_assignment (c_str line) with
        | Overrun => None
        | Other => read_sections lines name cur s
        | Assign id val =>
            match set_param tp id val cur with
            | Some cur => read_sections lines name cur s
            | None => Some (Failed s)
            end
        end
  end.

(** The lines before the first section.  An empty file has the code look at an
    uninitialised buffer. *)
Fixpoint read_preamble (lines : list string) (last : option string) (s : ParseState) : option Ended :=
  match lines with
  | [] => (λ line, Failed (note_line line s)) <$> last
  | line :: lines =>
      if is_section line then
        let s := note_line line s in
        if hits_eof line then Some (Failed s) else read_sections lines (section_name (c_str line)) uninit s
      else read_preamble lines (Some line) (note_line line s)
  end.

(** The returned number, the checksum and the user's data; the archive when it
    is left behind. *)
Definition parseConfigFile (file : option string) (dcu_rate : Z) (u : User) : option (Z * Z * ParseState) :=
  let s := mkParse 0 0 "" uninit dcu_rate u in
  match file with
  | None => Some (0, 0, s)
  | Some text =>
      e ← read_preamble (fgets_all 127 127 "" text) None s;
      match e with
      | Failed s => Some (0, crc s, s)
      | Finished s => crc ← Crc.crc_len (flen s) (crc s); Some (1, crc, s)
      end
  end.
End parse.
Arguments ParseState : clear implicits.
Arguments Ended : clear implicits.

(** ** The list of channels *)

(** The block the front end reads, with the two fields of its entries that only
    others read: the names and the gains. *)
Record InfoBlock := mkInfoBlock { info : DAQ_INFO_BLOCK; channel_name : list string; dataGain : list binary64 }.

Definition set_counts (chans ints floats filts total : Z) (i : DAQ_INFO_BLOCK) : DAQ_INFO_BLOCK :=
  mkInfo (reconfig i) chans ints floats filts total (epicsdblDataOffset i) (cpyepics2times i) (cpyIntSize i)
    (numEpicsFiltXfers i) (numEpicsFiltsLast i) (configFileCRC i) (tp i).

Definition infoCallback (name : string) (p : CHAN_PARAM) (b : InfoBlock) : InfoBlock * bool :=
  let i := info b in
  let with_info i := mkInfoBlock i (channel_name b) (dataGain b) in
  let n := numChans i in
  if DCU_MAX_CHANNELS <=? n then (b, false)
  else if (40000 <=? chnnum p) && (chnnum p <? 50000) && ((datatype p =? 2) || (datatype p =? 7)) then
    (with_info (set_counts n (s32 (numEpicsInts i + 1)) (numEpicsFloats i) (numEpicsFilts i) (s32 (numEpicsTotal i + 1)) i), true)
  else if (40000 <=? chnnum p) && (chnnum p <? 50000) && (datatype p =? 4) then
    (with_info (set_counts n (numEpicsInts i) (s32 (numEpicsFloats i + 1)) (numEpicsFilts i) (s32 (numEpicsTotal i + 1)) i), true)
  else if 50000 <=? chnnum p then
    (with_info (set_counts n (numEpicsInts i) (numEpicsFloats i) (s32 (numEpicsFilts i + 1)) (s32 (numEpicsTotal i + 1)) i), true)
  else
    let k := Z.to_nat n in
    let i' := mkInfo (reconfig i) (n + 1) (numEpicsInts i) (numEpicsFloats i) (numEpicsFilts i) (numEpicsTotal i)
                (epicsdblDataOffset i) (cpyepics2times i) (cpyIntSize i) (numEpicsFiltXfers i) (numEpicsFiltsLast i)
                (configFileCRC i) (<[k := mkTp (u32 (chnnum p)) (u32 (datatype p)) (u32 (datarate p))]> (tp i)) in
    (mkInfoBlock i' (<[k := name]> (channel_name b)) (<[k := b64_single (b64_ofZ (f_to_int (gain p)))]> (dataGain b)), true).

(** ** The list of test points *)
Record GDS_INFO := mkGds { tpname : string; tpnumber : Z }.
#[export] Instance gds_info_eq_dec : EqDecision GDS_INFO.
Proof. solve_decision. Defined.

(** [struct GDS_INFO_BLOCK]: room for 50000 entries. *)
Record GDS_INFO_BLOCK := mkGdsBlock { totalchans : Z; tpinfo : list GDS_INFO }.

(** The loop over the lines, and over the test points: the entries found. *)
Fixpoint read_gdstp (lines : list string) (name : string) (found : list GDS_INFO) : option (list GDS_INFO) :=
  match lines with
  | [] => Some found
  | line :: lines =>
      if is_section line then
        if hits_eof line then Some found else read_gdstp lines (section_name (c_str line)) found
      else
        match read_assignment (c_str line) with
        | Overrun => None
        | Other => read_gdstp lines name found
        | Assign id val =>
            read_gdstp lines name
              (if same_nocase id "chnnum" then found ++ [mkGds name (u32 (s32 (strtol 0 val).1))] else found)
        end
  end.

Fixpoint skip_to_section (lines : list string) : list string :=
  match lines with
  | [] => []
  | line :: lines' => if is_section line then lines else skip_to_section lines'
  end.

(** The entries written, in their order. *)
Definition parseGdstpFile (file : option string) : option (list GDS_INFO) :=
  match file with
  | None => Some []
  | Some text =>
      read_gdstp (skip_to_section (fgets_all 127 127 "" text)) "" []
  end.

(** What the entries found leave in the block; none is stored past its end. *)
Definition store_gds (found : list GDS_INFO) (g : GDS_INFO_BLOCK) : option GDS_INFO_BLOCK :=
  if 50000 <? Z.of_nat (length found) then None
  else Some (mkGdsBlock (if decide (found = []) then totalchans g else Z.of_nat (length found))
               (found ++ drop (length found) (tpinfo g))).

(** ** Loading *)
Definition site_dir (site ifo : string) : string := ("/opt/rtcds/" +:+ site +:+ "/" +:+ str_map to_lower ifo)%string.
Definition chan_file (site ifo sys : string) : string := (site_dir site ifo +:+ "/chans/daq/" +:+ sys +:+ ".ini")%string.
Definition tp_file (site ifo sys : string) : string :=
  (site_dir site ifo +:+ "/target/gds/param/tpchn_" +:+ str_map to_lower sys +:+ ".par")%string.

(** [files] is the file system, [iniChk] the status of the checking program on
    the file. *)
Definition loadDaqConfigFile (files : string → option string) (iniChk : string → Z) (site ifo sys : string)
    (dcu_rate : Z) (b : InfoBlock) (ginfo : GDS_INFO_BLOCK) : option (Z * InfoBlock * GDS_INFO_BLOCK) :=
  let fname := chan_file site ifo sys in
  if negb (iniChk fname =? 0) then Some (0, b, ginfo)
  else
    found ← parseGdstpFile (files (tp_file site ifo sys));
    ginfo ← store_gds found ginfo;
    let b := mkInfoBlock (set_counts 0 0 0 0 0 (info b)) (channel_name b) (dataGain b) in
    '(ret, crc, s) ← parseConfigFile infoCallback 0 (files fname) dcu_rate b;
    if ret =? 0 then Some (0, user s, ginfo)
    else
      let i := info (user s) in
      let i := mkInfo (reconfig i) (numChans i) (numEpicsInts i) (numEpicsFloats i) (numEpicsFilts i) (numEpicsTotal i)
                 (epicsdblDataOffset i) (cpyepics2times i) (cpyIntSize i) (numEpicsFiltXfers i) (numEpicsFiltsLast i)
                 crc (tp i) in
      Some (1, mkInfoBlock i (channel_name (user s)) (dataGain (user s)), ginfo).

End Param.
