(* ===== verification/ParamProps.v ===== *)
(** * Channel configuration files: theorems ([Param.v])

    What a channel file must be for the acquisition to be well formed, what a
    file says, section by section, that the archive copy and the checksum are
    those of the file, and the stores behind the buffers of the parser. *)
From Stdlib Require Import List String Ascii SpecFloat.
From stdpp Require Import strings.
From S2P Require Import Prelude CFloat CText Crc CFile DaqConfig DaqWrite DaqProps Param.
Import CText CFile DaqConfig DaqProps Param.

Module ParamProps.

(** ** The test of the rate *)
Lemma halves_pow2 fuel v : 0 < v → halves fuel v = true → ∃ k, 1 <= k ∧ v = 2 ^ k.
Proof.
  revert v. induction fuel as [|n IH]; intros v Hv; simpl; destruct (Z.eqb_spec (v mod 2) 0) as [E|]; try done;
    pose proof (Z.div_mod v 2 ltac:(done)); destruct (Z.ltb_spec 1 (v / 2)); try done.
  - intros _. exists 1. change (2 ^ 1) with 2. lia.
  - intros Hh. destruct (IH (v / 2) ltac:(lia) Hh) as (k & Hk & Ek). exists (k + 1). split; [lia|]. rewrite Z.pow_add_r; lia.
  - intros _. exists 1. change (2 ^ 1) with 2. lia.
Qed.

Lemma rate_ok_iff r : rate_ok r = true ↔ ∃ k, 4 <= k <= 19 ∧ r = 2 ^ k.
Proof.
  unfold rate_ok. split.
  - intros [[H1%Z.leb_le H2%Z.leb_le]%andb_true_iff Hh]%andb_true_iff.
    destruct (halves_pow2 32 r ltac:(lia) Hh) as (k & Hk & ->). exists k. split; [|done]. split.
    + apply (Z.pow_le_mono_r_iff 2 4 k); [lia|lia|exact H1].
    + apply (Z.pow_le_mono_r_iff 2 k 19); [lia|lia|exact H2].
  - intros (k & Hk & ->). assert (∃ i, k = Z.of_nat i + 4 ∧ (i < 16)%nat) as (i & -> & Hi) by (exists (Z.to_nat (k - 4)); lia).
    do 16 (destruct i as [|i]; [by vm_compute|]). lia.
Qed.

(** ** What every parameter set satisfies *)
Section inv.
Context {User : Type} (callback : string → CHAN_PARAM → User → User * bool) (tp : Z).
Context (P : CHAN_PARAM → Prop) (Q : User → Prop).
Context (Huninit : P uninit).
Context (Hset : ∀ id val c c', P c → set_param tp id val c = Some c' → P c').
Context (Hfill : ∀ d c, P d → P c → P (fill_defaults tp d c)).
Context (Hcall : ∀ name p u, P p → Q u → Q (callback name p u).1).

Definition state_inv (s : ParseState User) : Prop := P (deflt s) ∧ Q (user s).
Definition ended_inv (e : Ended User) : Prop := match e with Failed s | Finished s => state_inv s end.

Lemma end_section_inv name cur s : P cur → state_inv s → state_inv (end_section callback tp name cur s).1.
Proof.
  intros Hc [Hd Hu]. unfold end_section. destruct (same_nocase name "default"); [done|].
  pose proof (Hcall name (fill_defaults tp (deflt s) cur) (user s) ltac:(by apply Hfill) Hu) as H.
  by destruct (callback _ _ _) as [u ok].
Qed.

Lemma read_sections_inv lines name cur s e :
  P cur → state_inv s → read_sections callback tp lines name cur s = Some e → ended_inv e.
Proof.
  revert name cur s. induction lines as [|line lines IH]; intros name cur s Hc Hs; simpl.
  - pose proof (end_section_inv name cur s Hc Hs) as H. destruct (end_section _ _ _ _ _) as [s' ok].
    intros [= <-]. by destruct ok.
  - assert (Hn : state_inv (note_line line s)) by done. destruct (is_section line).
    + set (s1 := if hits_eof line then s else note_line line s).
      assert (Hs1 : state_inv s1) by (subst s1; by destruct (hits_eof line)).
      pose proof (end_section_inv name cur s1 Hc Hs1) as H. destruct (end_section _ _ _ _ _) as [s' ok].
      destruct ok; [|by intros [= <-]]. destruct (hits_eof line); [by intros [= <-]|]. by apply IH.
    + destruct (read_assignment (c_str line)) as [| |id val]; [by apply IH|done|].
      destruct (set_param tp id val cur) as [cur'|] eqn:E; [|by intros [= <-]].
      apply IH; [by eapply Hset|done].
Qed.

Lemma read_preamble_inv lines last s e :
  state_inv s → read_preamble callback tp lines last s = Some e → ended_inv e.
Proof.
  revert last s. induction lines as [|line lines IH]; intros last s Hs; simpl.
  - destruct last; [|done]. by intros [= <-].
  - destruct (is_section line); [|by apply IH]. destruct (hits_eof line); [by intros [= <-]|].
    by apply read_sections_inv.
Qed.

Lemma parseConfigFile_inv file dr u ret crc s :
  Q u → parseConfigFile callback tp file dr u = Some (ret, crc, s) → Q (user s).
Proof.
  intros Hu. unfold parseConfigFile. destruct file as [text|]; [|by intros [= _ _ <-]].
  destruct (read_preamble _ _ _ _ _) as [e|] eqn:E; [|done]. apply read_preamble_inv in E; [|done]. simpl.
  destruct e as [s'|s']; [intros [= _ _ <-]; apply E|].
  destruct (Crc.crc_len _ _); [|done]. intros [= _ _ <-]. apply E.
Qed.
End inv.

(** ** The list of channels of a file *)

(** A rate the file may give; one that it gives nowhere is -1. *)
Definition rate_given (r : Z) : Prop := r = -1 ∨ ∃ k, 4 <= k <= 19 ∧ r = 2 ^ k.

Record list_ok (b : InfoBlock) : Prop := {
  lo_count : 0 <= numChans (info b) <= DCU_MAX_CHANNELS;
  lo_room : length (DaqConfig.tp (info b)) = Z.to_nat DCU_MAX_CHANNELS;
  lo_total : u32 (numEpicsTotal (info b)) =
             u32 (numEpicsInts (info b) + numEpicsFloats (info b) + numEpicsFilts (info b));
  lo_rates : ∀ i, (i < Z.to_nat (numChans (info b)))%nat →
             ∃ r, rate_given r ∧ dataRate (DaqConfig.tp (info b) !!! i) = u32 r
}.

Lemma s32_shift x : ∃ k, s32 x = x + k * 2 ^ 32.
Proof.
  exists (- ((x + 2 ^ 31) / 2 ^ 32)). unfold swrap. change (2 ^ (32 - 1)) with (2 ^ 31).
  pose proof (Z.div_mod (x + 2 ^ 31) (2 ^ 32) ltac:(done)). lia.
Qed.

Lemma u32_shift x y k : x = y + k * 2 ^ 32 → u32 x = u32 y.
Proof. intros ->. unfold wrap. by rewrite Z.mod_add. Qed.

Lemma count_up t i f g :
  u32 t = u32 (i + f + g) →
  u32 (s32 (t + 1)) = u32 (s32 (i + 1) + f + g) ∧ u32 (s32 (t + 1)) = u32 (i + s32 (f + 1) + g) ∧
  u32 (s32 (t + 1)) = u32 (i + f + s32 (g + 1)).
Proof.
  intros H. assert (E : u32 (s32 (t + 1)) = u32 (i + f + g + 1)).
  { destruct (s32_shift (t + 1)) as [k Ek]. rewrite (u32_shift _ (t + 1) k Ek). unfold wrap in *. by rewrite Zplus_mod, H, <- Zplus_mod. }
  rewrite E. clear E H. destruct (s32_shift (i + 1)) as [k1 E1], (s32_shift (f + 1)) as [k2 E2], (s32_shift (g + 1)) as [k3 E3].
  split_and!; symmetry; [apply (u32_shift _ _ k1)|apply (u32_shift _ _ k2)|apply (u32_shift _ _ k3)]; lia.
Qed.

Lemma infoCallback_ok name p b : rate_given (datarate p) → list_ok b → list_ok (infoCallback name p b).1.
Proof.
  intros Hp Hb. pose proof Hb as [Hc Hr Ht Hi]. unfold infoCallback. cbv zeta.
  destruct (Z.leb_spec DCU_MAX_CHANNELS (numChans (info b))); [done|].
  destruct (count_up _ _ _ _ Ht) as (T1 & T2 & T3).
  destruct (_ && (_ || _)); [by split|]. destruct (_ && _); [by split|]. destruct (50000 <=? chnnum p); [by split|].
  split; simpl; [lia|by rewrite length_insert|done|].
  intros i Hi'. destruct (decide (i = Z.to_nat (numChans (info b)))) as [->|Hne].
  - exists (datarate p). split; [done|]. rewrite list_lookup_total_insert_eq by (rewrite Hr; lia). done.
  - rewrite list_lookup_total_insert_ne by done. apply Hi. lia.
Qed.

Lemma rate_given_set tp id val c c' :
  rate_given (datarate c) → set_param tp id val c = Some c' → rate_given (datarate c').
Proof.
  intros Hc. unfold set_param.
  destruct (same_nocase id "dcuid"); [intros (v & _ & ->)%fmap_Some; exact Hc|].
  destruct (same_nocase id "datarate").
  { intros (v & _ & Hv)%bind_Some. destruct (rate_ok v) eqn:E; [|done]. injection Hv as <-. right. by apply rate_ok_iff. }
  destruct (same_nocase id "acquire"); [intros (v & _ & ->)%fmap_Some; exact Hc|].
  destruct (same_nocase id "ifoid"); [intros (v & _ & ->)%fmap_Some; exact Hc|].
  destruct (same_nocase id "rmid"); [intros (v & _ & ->)%fmap_Some; exact Hc|].
  destruct (same_nocase id "datatype"); [intros (v & _ & ->)%fmap_Some; exact Hc|].
  destruct (same_nocase id "chnnum"); [intros (v & _ & ->)%fmap_Some; exact Hc|].
  destruct (same_nocase id "gain"); [intros (v & _ & ->)%fmap_Some; exact Hc|].
  destruct (same_nocase id "slope"); [intros (v & _ & ->)%fmap_Some; exact Hc|].
  destruct (same_nocase id "offset"); [intros (v & _ & ->)%fmap_Some; exact Hc|].
  destruct (_ || _); [intros <-%(inj Some); exact Hc|].
  destruct (same_nocase id "system"); intros <-%(inj Some); exact Hc.
Qed.

Lemma if_unset_other {A} same get set (v : A) c :
  (∀ v c, datarate (set v c) = datarate c) → datarate (if_unset same get set v c) = datarate c.
Proof. intros H. unfold if_unset. by destruct (same _ _). Qed.

Lemma rate_given_fill tp d c : rate_given (datarate d) → rate_given (datarate c) → rate_given (datarate (fill_defaults tp d c)).
Proof.
  intros Hd Hc.
  assert (H : datarate (fill_defaults tp d c) = if datarate c =? -1 then datarate d else datarate c).
  { assert (Ht : ∀ c, datarate (if truthy tp then testpoint_defaults c else c) = datarate c).
    { intros x. destruct (truthy tp); [|done]. unfold testpoint_defaults. by rewrite !if_unset_other by done. }
    unfold fill_defaults. rewrite Ht. cbn [datarate set_testpoint]. do 9 (rewrite if_unset_other by done).
    unfold if_unset at 1. rewrite if_unset_other by done. change (datarate uninit) with (-1).
    destruct (datarate c =? -1); [done|]. by apply if_unset_other. }
  rewrite H. by destruct (_ =? _).
Qed.

Definition empty_list (b : InfoBlock) : Prop :=
  numChans (info b) = 0 ∧ numEpicsTotal (info b) = 0 ∧ numEpicsInts (info b) = 0 ∧ numEpicsFloats (info b) = 0 ∧
  numEpicsFilts (info b) = 0 ∧ length (DaqConfig.tp (info b)) = Z.to_nat DCU_MAX_CHANNELS.

Lemma loaded_list_ok file dr b ret crc s :
  empty_list b → parseConfigFile infoCallback 0 file dr b = Some (ret, crc, s) → list_ok (user s).
Proof.
  intros (H1 & H2 & H3 & H4 & H5 & H6).
  apply (parseConfigFile_inv infoCallback 0 (λ c, rate_given (datarate c)) list_ok).
  - by left.
  - intros id val c c'. apply rate_given_set.
  - intros d c. apply rate_given_fill.
  - intros name p u. apply infoCallback_ok.
  - split; [by rewrite H1|done|by rewrite H2, H3, H4, H5|]. rewrite H1. intros i Hi. simpl in Hi. lia.
Qed.

(** C40: Whatever a channel file says, the list it leaves, when it is loaded from
    none, is well formed: no more than 512 channels, every one with a rate that
    is a power of two from 16 to 524288 (or with none at all, when neither it nor
    a default section before it gives one), and the total of the EPICS channels
    is that of the three kinds. *)
Theorem channel_list_wf file dr b ret crc s :
  empty_list b → parseConfigFile infoCallback 0 file dr b = Some (ret, crc, s) → list_ok (user s).
Proof. apply loaded_list_ok. Qed.

(** ** The archive copy and the checksum *)
Lemma last_char_app s c : last_char (s +:+ String c "")%string = Some c.
Proof. induction s as [|a s IH]; [done|]. rewrite str_app_cons. simpl. rewrite IH. by destruct s. Qed.

(** Only the last piece of a file can end at the end of the file. *)
Lemma pieces_complete n piece rest pre p q post :
  (1 <= n)%nat → (String.length piece + n = 127)%nat →
  fgets_all 127 n piece rest = pre ++ p :: q :: post → hits_eof p = false.
Proof.
  revert n piece pre. induction rest as [|c rest IH]; intros n piece pre Hn Hl.
  - simpl. case_bool_decide; [by destruct pre|]. destruct pre as [|? [|]]; done.
  - assert (Hnew : ∀ pc, hits_eof pc = false → pc :: fgets_all 127 127 "" rest = pre ++ p :: q :: post → hits_eof p = false).
    { intros pc Hpc E. destruct pre as [|x pre].
      - by injection E as -> _.
      - injection E as _ E. apply (IH 127%nat ""%string pre); [lia|done|done]. }
    cbn [fgets_all]. destruct n as [|[|n]]; [lia| |].
    + apply Hnew. unfold hits_eof. rewrite str_length_app. simpl String.length.
      rewrite (proj2 (Nat.ltb_ge _ _)) by lia. apply andb_false_r.
    + case_bool_decide as E.
      * apply Hnew. unfold hits_eof. rewrite last_char_app, E. by rewrite bool_decide_true.
      * apply IH; [lia|]. rewrite str_length_app. simpl. lia.
Qed.

Section archive.
Context {User : Type} (callback : string → CHAN_PARAM → User → User * bool) (tp : Z).

(** The count and the checksum are those of the copy so far. *)
Definition copied (s : ParseState User) : Prop :=
  flen s = u32 (Z.of_nat (String.length (archive s))) ∧
  crc s = Crc.crc_ptr (bytes_of (archive s)) (String.length (archive s)) 0.

Lemma note_line_copied line s :
  no_nul line → copied s → copied (note_line line s) ∧ archive (note_line line s) = (archive s +:+ line)%string.
Proof.
  intros Hn [Hf Hc]. unfold note_line. cbn [archive]. rewrite c_str_all by done. split; [|done].
  split; cbn [flen crc archive].
  - rewrite Hf, str_length_app, Nat2Z.inj_add. unfold wrap. by rewrite Zplus_mod_idemp_l.
  - rewrite Hc, str_length_app, bytes_app. rewrite <- !bytes_length. symmetry. apply crc_ptr_app.
Qed.

Lemma end_section_copied name cur s :
  copied s → copied (end_section callback tp name cur s).1 ∧ archive (end_section callback tp name cur s).1 = archive s.
Proof. intros H. unfold end_section. destruct (same_nocase _ _); [done|]. by destruct (callback _ _ _). Qed.

(** What is left out: nothing, or the pieces from a section line that ends at
    the end of the file. *)
Definition left_out (lines cut : list string) : Prop :=
  (∃ pre, lines = pre ++ cut) ∧ (cut = [] ∨ ∃ line rest, cut = line :: rest ∧ is_section line = true ∧ hits_eof line = true).

Lemma left_out_cons line lines cut : left_out lines cut → left_out (line :: lines) cut.
Proof. intros [[pre ->] H]. split; [by exists (line :: pre)|done]. Qed.

Lemma read_sections_copied lines name cur s s' :
  Forall no_nul lines → copied s → read_sections callback tp lines name cur s = Some (Finished s') →
  copied s' ∧ ∃ cut, left_out lines cut ∧ (archive s +:+ concat lines = archive s' +:+ concat cut)%string.
Proof.
  revert name cur s. induction lines as [|line lines IH]; intros name cur s Hn Hs; simpl.
  - destruct (end_section_copied name cur s Hs) as [Hs1 Ha]. destruct (end_section _ _ _ _ _) as [s1 ok]. cbn [fst] in *.
    destruct ok; [|done]. intros [= <-]. split; [done|]. exists []. split; [|by rewrite Ha].
    split; [by exists []|by left].
  - apply Forall_cons in Hn as [Hl Hn]. destruct (note_line_copied line s Hl Hs) as [Hs1 Ha1].
    destruct (is_section line) eqn:Es.
    + destruct (hits_eof line) eqn:Ee.
      * destruct (end_section_copied name cur s Hs) as [Hs2 Ha2]. destruct (end_section _ _ _ _ _) as [s2 ok]. cbn [fst] in *.
        destruct ok; [|done]. intros [= <-]. split; [done|]. exists (line :: lines). split; [|by rewrite Ha2].
        split; [by exists []|]. right. by exists line, lines.
      * destruct (end_section_copied name cur (note_line line s) Hs1) as [Hs2 Ha2].
        destruct (end_section _ _ _ _ _) as [s2 ok]. cbn [fst] in *. destruct ok; [|done]. intros Hr.
        destruct (IH _ _ _ Hn Hs2 Hr) as (Hs' & cut & Hcut & Hc). split; [done|]. exists cut.
        split; [by apply left_out_cons|]. by rewrite <- Hc, Ha2, Ha1, str_app_assoc.
    + assert (Hrest : ∀ cur', read_sections callback tp lines name cur' (note_line line s) = Some (Finished s') →
        copied s' ∧ ∃ cut, left_out (line :: lines) cut ∧
        (archive s +:+ (line +:+ concat lines) = archive s' +:+ concat cut)%string).
      { intros cur' Hr. destruct (IH _ _ _ Hn Hs1 Hr) as (Hs' & cut & Hcut & Hc). split; [done|]. exists cut.
        split; [by apply left_out_cons|]. by rewrite <- Hc, Ha1, str_app_assoc. }
      destruct (read_assignment (c_str line)) as [| |id val]; [apply Hrest|done|].
      destruct (set_param tp id val cur); [apply Hrest|done].
Qed.

Lemma read_preamble_copied lines last s s' :
  Forall no_nul lines → copied s → read_preamble callback tp lines last s = Some (Finished s') →
  copied s' ∧ ∃ cut, left_out lines cut ∧ (archive s +:+ concat lines = archive s' +:+ concat cut)%string.
Proof.
  revert last s. induction lines as [|line lines IH]; intros last s Hn Hs; simpl; [by destruct last|].
  apply Forall_cons in Hn as [Hl Hn]. destruct (note_line_copied line s Hl Hs) as [Hs1 Ha1].
  destruct (is_section line); [destruct (hits_eof line); [done|]|]; intros Hr;
    [apply read_sections_copied in Hr as (Hs' & cut & Hcut & Hc); [|done..]
    |apply IH in Hr as (Hs' & cut & Hcut & Hc); [|done..]];
    (split; [done|]; exists cut; split; [by apply left_out_cons|]; by rewrite <- Hc, Ha1, str_app_assoc).
Qed.

End archive.

(** A file that is read to its end is copied to the archive, and the checksum
    returned is that of the copy and its length, however the text falls in lines
    and pieces; all of the file is in the copy, except a section line at its very
    end that no newline closes. *)
Theorem archive_is_file {User} (callback : string → CHAN_PARAM → User → User * bool) tp text dr u c s :
  no_nul text → Z.of_nat (String.length text) < 2 ^ 32 →
  parseConfigFile callback tp (Some text) dr u = Some (1, c, s) →
  Crc.crc_len (Z.of_nat (String.length (archive s))) (Crc.crc_ptr (bytes_of (archive s)) (String.length (archive s)) 0) = Some c ∧
  ∃ cut, text = (archive s +:+ cut)%string ∧ (cut = ""%string ∨ is_section cut = true ∧ hits_eof cut = true).
Proof.
  intros Hn Hlen. unfold parseConfigFile. set (lines := fgets_all 127 127 "" text).
  destruct (read_preamble _ _ _ _ _) as [[s'|s']|] eqn:E; [done| |done]. cbn [mbind option_bind].
  destruct (Crc.crc_len _ _) as [c'|] eqn:Ec; [|done]. intros [= <- <-].
  apply read_preamble_copied in E as ([Hf Hc] & cut & [[pre Hpre] Hcut] & Ha); [|by apply pieces_no_nul|done].
  assert (Et : concat lines = text) by apply (fgets_pieces 127 127 "").
  change (archive (mkParse 0 0 "" uninit dr u) +:+ concat lines)%string with (concat lines) in Ha. rewrite Et in Ha.
  split.
  - rewrite <- Hc, <- Ec, Hf. f_equal. symmetry. apply wrap_small.
    rewrite Ha, str_length_app in Hlen. lia.
  - exists (concat cut). split; [done|]. destruct Hcut as [->|(line & rest & -> & H1 & H2)]; [by left|right].
    destruct rest as [|q rest]; [by rewrite concat_cons, str_app_nil|].
    rewrite (pieces_complete 127 "" text pre line q rest) in H2 by (done || lia). done.
Qed.

(** ** What a file says *)

(** A file as its sections: names with their assignments. *)
Abbreviation section := (string * list (string * string))%type.
Definition assignment_line (kv : string * string) : string := (kv.1 +:+ String EQUALS kv.2)%string.
Definition header_line (n : string) : string := String (chr 91) (n +:+ String (chr 93) "")%string.
Definition section_lines (sec : section) : list string := header_line sec.1 :: map assignment_line sec.2.
Definition render (secs : list section) : string := text_of (flat_map section_lines secs).

Definition word_char (c : ascii) : bool := negb (is_space c || bool_decide (c = chr 0)).
Definition key_char (c : ascii) : bool := word_char c && negb (bool_decide (c = EQUALS)).
Record assignment_ok (kv : string * string) : Prop := {
  ao_key : all_chars key_char kv.1;
  ao_val : all_chars word_char kv.2;
  ao_start : head_is (λ c, bool_decide (c = chr 91)) kv.1 = false;
  ao_key_fits : (String.length kv.1 <= 63)%nat;
  ao_val_fits : (String.length kv.2 <= 62)%nat
}.
Definition name_char (c : ascii) : bool :=
  negb (bool_decide (c = chr 93) || bool_decide (c = NL) || bool_decide (c = chr 0)).
Definition name_ok (n : string) : Prop := all_chars name_char n ∧ (String.length n <= 59)%nat.
Definition section_ok (sec : section) : Prop := name_ok sec.1 ∧ Forall assignment_ok sec.2.

Section meaning.
Context {User : Type} (callback : string → CHAN_PARAM → User → User * bool) (tp : Z).

(** What a section means for the defaults, the default rate and the user. *)
Definition params_of (kvs : list (string * string)) (c : CHAN_PARAM) : option CHAN_PARAM :=
  foldl (λ c kv, c ← c; set_param tp kv.1 kv.2 c) (Some c) kvs.
Definition end_meaning (name : string) (cur : CHAN_PARAM) (st : CHAN_PARAM * Z * User) : option (CHAN_PARAM * Z * User) :=
  let '(d, r, u) := st in
  if same_nocase name "default" then Some (cur, datarate cur, u)
  else let '(u, ok) := callback name (fill_defaults tp d cur) u in if ok then Some (d, r, u) else None.
Definition section_meaning (sec : section) (st : CHAN_PARAM * Z * User) : option (CHAN_PARAM * Z * User) :=
  cur ← params_of sec.2 uninit; end_meaning sec.1 cur st.
Definition file_meaning (secs : list section) (st : CHAN_PARAM * Z * User) : option (CHAN_PARAM * Z * User) :=
  foldl (λ st sec, st ← st; section_meaning sec st) (Some st) secs.

Definition view (s : ParseState User) : CHAN_PARAM * Z * User := (deflt s, default_dcu_rate s, user s).
Definition means (e : option (Ended User)) (m : option (CHAN_PARAM * Z * User)) : Prop :=
  match m with
  | Some st => ∃ s, e = Some (Finished s) ∧ view s = st
  | None => ∃ s, e = Some (Failed s)
  end.

Lemma params_of_none kvs : foldl (λ c kv, c ← c; set_param tp kv.1 kv.2 c) None kvs = None.
Proof. by induction kvs. Qed.
Lemma params_of_cons kv kvs c :
  params_of (kv :: kvs) c = match set_param tp kv.1 kv.2 c with Some c => params_of kvs c | None => None end.
Proof. unfold params_of. simpl. destruct (set_param tp kv.1 kv.2 c); [done|apply params_of_none]. Qed.
Lemma file_meaning_none secs : foldl (λ st sec, st ← st; section_meaning sec st) None secs = None.
Proof. by induction secs. Qed.
End meaning.

(** *** Lines *)
Lemma scan_word_plain stop w r cr :
  all_chars (λ c, negb (is_space c) && negb (stop c)) w → (cr + String.length w <= 63)%nat →
  scan_word stop (w +:+ r)%string cr =
  let '(w', r', n) := scan_word stop r (cr + String.length w) in ((w +:+ w')%string, r', n).
Proof.
  revert cr. induction w as [|c w IH]; intros cr Hw Hl; cbn [String.length] in *.
  - change (String.append "" r) with r. rewrite Nat.add_0_r. by destruct (scan_word stop r cr) as [[??]?].
  - rewrite all_chars_cons in Hw. apply andb_prop_elim in Hw as [[Hc Hs]%andb_prop_elim Hw].
    rewrite str_app_cons. cbn [scan_word]. destruct (stop c); [done|]. rewrite (proj2 (Nat.ltb_lt cr 64)) by lia. cbn [negb andb].
    destruct (is_space c); [done|]. rewrite IH by (done || lia). replace (S cr + String.length w)%nat with (cr + S (String.length w))%nat by lia.
    destruct (scan_word stop r _) as [[??]?]. done.
Qed.

Lemma key_char_plain c : key_char c → negb (is_space c) && negb (bool_decide (c = EQUALS)).
Proof. unfold key_char, word_char. by destruct (is_space c), (bool_decide (c = chr 0)), (bool_decide (c = EQUALS)). Qed.
Lemma word_char_plain c : word_char c → negb (is_space c) && negb false.
Proof. unfold word_char. by destruct (is_space c). Qed.

Lemma read_assignment_line kv :
  assignment_ok kv → read_assignment (assignment_line kv +:+ newline)%string = Assign kv.1 kv.2.
Proof.
  destruct kv as [k v]. intros [Hk Hv _ Hkl Hvl]. simpl in *. unfold read_assignment, assignment_line. simpl.
  rewrite str_app_assoc, str_app_cons.
  rewrite scan_word_plain by (try (eapply all_chars_weaken; [|exact Hk]; apply key_char_plain); lia). simpl.
  rewrite str_app_nil. rewrite (proj2 (Nat.eqb_neq _ _)) by lia.
  rewrite scan_word_plain by (try (eapply all_chars_weaken; [|exact Hv]; apply word_char_plain); lia). simpl.
  rewrite (proj2 (Nat.ltb_lt _ 64)) by lia. simpl. rewrite (proj2 (Nat.eqb_neq _ _)) by lia. by rewrite str_app_nil.
Qed.

Lemma section_name_line n : name_ok n → section_name (header_line n +:+ newline)%string = n.
Proof.
  intros [Hn Hl]. unfold section_name, header_line. rewrite str_app_cons. cbn [tail].
  assert (E : ∀ r, upto (chr 93) (n +:+ String (chr 93) r)%string = n).
  { intros r. clear Hl. induction n as [|c n IH]; [done|]. rewrite all_chars_cons in Hn. apply andb_prop_elim in Hn as [Hc Hn].
    rewrite str_app_cons. simpl. unfold name_char in Hc. destruct (bool_decide (c = chr 93)); [done|]. by rewrite IH. }
  rewrite str_app_assoc. rewrite str_app_cons, E. by apply substring_all.
Qed.

Lemma hits_eof_newline l : hits_eof (l +:+ newline)%string = false.
Proof. unfold hits_eof, newline. rewrite last_char_app. by rewrite bool_decide_true. Qed.

Lemma no_nul_line (p : ascii → bool) w : (∀ c, p c → negb (bool_decide (c = chr 0))) → all_chars p w → no_nul w.
Proof. intros H. by apply all_chars_weaken. Qed.

Lemma word_char_not c : word_char c → negb (bool_decide (c = chr 0)) ∧ negb (bool_decide (c = NL)).
Proof.
  unfold word_char. intros H. split; [by destruct (is_space c), (bool_decide (c = chr 0))|].
  destruct (bool_decide_reflect (c = NL)) as [->|]; done.
Qed.
Lemma key_char_word c : key_char c → word_char c.
Proof. unfold key_char. by intros [H _]%andb_prop_elim. Qed.

Lemma assignment_plain k v :
  all_chars key_char k → all_chars word_char v →
  no_nul (assignment_line (k, v) +:+ newline)%string ∧ one_line (assignment_line (k, v)).
Proof.
  intros Hk Hv. apply (all_chars_weaken _ _ _ key_char_word) in Hk.
  unfold assignment_line, no_nul, one_line. cbn [fst snd]. rewrite !all_chars_app, !all_chars_cons.
  split; repeat (apply andb_prop_intro; split); try done;
    (eapply all_chars_weaken; [|first [exact Hk|exact Hv]]); intros c Hc; by apply word_char_not.
Qed.

Lemma assignment_no_nul kv : assignment_ok kv → no_nul (assignment_line kv +:+ newline)%string.
Proof. destruct kv as [k v]. intros [Hk Hv _ _ _]. by apply assignment_plain. Qed.

Lemma section_no_nul n : name_ok n → no_nul (header_line n +:+ newline)%string.
Proof.
  intros [Hn _]. unfold no_nul, header_line. rewrite !all_chars_app, all_chars_cons, all_chars_app.
  repeat (apply andb_prop_intro; split); try done.
  eapply all_chars_weaken; [|exact Hn]. intros c. unfold name_char. by destruct (bool_decide (c = chr 0)), (bool_decide (c = chr 93)), (bool_decide (c = NL)).
Qed.

Section rendered.
Context {User : Type} (callback : string → CHAN_PARAM → User → User * bool) (tp : Z).
Local Abbreviation closed l := (l +:+ newline)%string.

Lemma end_section_view name cur s :
  match end_meaning callback tp name cur (view s) with
  | Some st => ∃ s', end_section callback tp name cur s = (s', true) ∧ view s' = st
  | None => ∃ s', end_section callback tp name cur s = (s', false)
  end.
Proof.
  unfold end_meaning, end_section, view. destruct (same_nocase name "default"); [by eexists; split|].
  destruct (callback _ _ _) as [u [|]]; [by eexists; split|by eexists].
Qed.

Lemma not_section_line kv : assignment_ok kv → is_section (closed (assignment_line kv)) = false.
Proof. intros H. destruct kv as [k v]. pose proof (ao_start _ H) as Hs. destruct k as [|c k]; [done|]. unfold assignment_line. cbn [fst snd]. by rewrite !str_app_cons. Qed.

Lemma read_assignments kvs rest name cur s :
  Forall assignment_ok kvs →
  ∃ s', view s' = view s ∧
    read_sections callback tp (map (λ kv, closed (assignment_line kv)) kvs ++ rest) name cur s =
    match params_of tp kvs cur with Some cur' => read_sections callback tp rest name cur' s' | None => Some (Failed s') end.
Proof.
  revert cur s. induction kvs as [|kv kvs IH]; intros cur s Hk; [by exists s|].
  apply Forall_cons in Hk as [H Hk]. rewrite params_of_cons. cbn [map app read_sections].
  rewrite not_section_line by done. rewrite c_str_all by by apply assignment_no_nul. rewrite read_assignment_line by done.
  destruct (set_param tp kv.1 kv.2 cur) as [cur'|]; [|by exists (note_line (closed (assignment_line kv)) s)].
  destruct (IH cur' (note_line (closed (assignment_line kv)) s) Hk) as (s' & Hv & ->). by exists s'.
Qed.

Lemma read_section_header n rest name cur s :
  name_ok n →
  read_sections callback tp (closed (header_line n) :: rest) name cur s =
  let '(s, ok) := end_section callback tp name cur (note_line (closed (header_line n)) s) in
  if ok then read_sections callback tp rest n uninit s else Some (Failed s).
Proof.
  intros Hn. cbn [read_sections]. change (is_section (closed (header_line n))) with true. cbn iota.
  rewrite hits_eof_newline, c_str_all, section_name_line by (done || by apply section_no_nul). done.
Qed.

Lemma read_sections_meaning secs name cur s :
  Forall section_ok secs →
  means (read_sections callback tp (map (λ l, closed l) (flat_map section_lines secs)) name cur s)
    (foldl (λ st sec, st ← st; section_meaning callback tp sec st) (end_meaning callback tp name cur (view s)) secs).
Proof.
  revert name cur s. induction secs as [|[n kvs] secs IH]; intros name cur s Hs.
  - pose proof (end_section_view name cur s) as H. cbn [flat_map map foldl read_sections]. revert H.
    destruct (end_meaning _ _ _ _ _); intros (s' & H); [destruct H as [H Hv]|]; rewrite H; by exists s'.
  - apply Forall_cons in Hs as [[Hn Hk] Hs]. cbn [flat_map section_lines fst snd app map]. rewrite read_section_header by done.
    pose proof (end_section_view name cur (note_line (closed (header_line n)) s)) as H.
    change (view (note_line (closed (header_line n)) s)) with (view s) in H. cbn [foldl]. revert H.
    destruct (end_meaning _ _ _ _ _) as [st|]; intros (s' & H).
    + destruct H as [-> Hv]. rewrite map_app, map_map.
      destruct (read_assignments kvs (map (λ l, closed l) (flat_map section_lines secs)) n uninit s' Hk) as (s2 & Hv2 & ->).
      cbn [mbind option_bind]. unfold section_meaning at 2. cbn [fst snd].
      destruct (params_of tp kvs uninit) as [cur'|]; cbn [mbind option_bind].
      * rewrite <- Hv, <- Hv2. by apply IH.
      * rewrite file_meaning_none. by exists s2.
    + rewrite H. cbn [mbind option_bind]. rewrite file_meaning_none. by exists s'.
Qed.

Lemma section_lines_fit sec : section_ok sec → Forall (line_fits 127) (section_lines sec).
Proof.
  destruct sec as [n kvs]. intros [[Hn Hl] Hk]. simpl in *. constructor.
  - split.
    + unfold one_line, header_line. rewrite all_chars_cons, all_chars_app. repeat (apply andb_prop_intro; split); try done.
      eapply all_chars_weaken; [|exact Hn]. intros c. unfold name_char.
      by destruct (bool_decide (c = chr 93)), (bool_decide (c = NL)), (bool_decide (c = chr 0)).
    + simpl. rewrite str_length_app. simpl. lia.
  - apply Forall_map. eapply Forall_impl; [exact Hk|]. intros [k v] [Hck Hcv _ Hlk Hlv]. simpl in *. split.
    + by apply assignment_plain.
    + unfold assignment_line. rewrite str_length_app. simpl. lia.
Qed.

Lemma section_lines_no_nul sec : section_ok sec → Forall no_nul (map (λ l, closed l) (section_lines sec)).
Proof.
  destruct sec as [n kvs]. intros [Hn Hk]. simpl in *. constructor; [by apply section_no_nul|].
  rewrite map_map. apply Forall_map. eapply Forall_impl; [exact Hk|]. intros kv H. by apply assignment_no_nul.
Qed.

Lemma rendered_pieces secs :
  Forall section_ok secs →
  fgets_all 127 127 "" (render secs) = map (λ l, closed l) (flat_map section_lines secs) ∧
  Forall no_nul (map (λ l, closed l) (flat_map section_lines secs)).
Proof.
  intros Hs. split.
  - apply pieces_text. induction Hs as [|sec l H _ IH]; [by constructor|]. cbn [flat_map]. apply Forall_app. split; [|done].
    by apply section_lines_fit.
  - induction Hs as [|sec l H _ IH]; [by constructor|]. cbn [flat_map]. rewrite map_app. apply Forall_app. split; [|done].
    by apply section_lines_no_nul.
Qed.

Lemma read_rendered secs s :
  secs ≠ [] → Forall section_ok secs →
  means (read_preamble callback tp (map (λ l, closed l) (flat_map section_lines secs)) None s)
    (file_meaning callback tp secs (view s)).
Proof.
  intros Hne Hs. destruct secs as [|[n kvs] secs]; [done|]. clear Hne.
  apply Forall_cons in Hs as [[Hn Hk] Hs]. cbn [flat_map section_lines fst snd app map read_preamble].
  change (is_section (closed (header_line n))) with true. cbn iota.
  rewrite hits_eof_newline, c_str_all, section_name_line by (done || by apply section_no_nul).
  set (s0 := note_line _ _). rewrite map_app, map_map.
  destruct (read_assignments kvs (map (λ l, closed l) (flat_map section_lines secs)) n uninit s0 Hk) as (s2 & Hv2 & ->).
  unfold file_meaning. cbn [foldl mbind option_bind]. unfold section_meaning at 2. cbn [fst snd].
  change (view s) with (view s0). rewrite <- Hv2.
  destruct (params_of tp kvs uninit) as [cur|]; cbn [mbind option_bind].
  - by apply read_sections_meaning.
  - rewrite file_meaning_none. by exists s2.
Qed.
End rendered.

(** C19: A file made of sections of assignments [key=value] means what its sections
    mean one after the other: a [default] section sets the defaults of the
    sections after it, every other section calls back with its own parameters
    completed by the defaults, and the first value that is not acceptable, or the
    first call that refuses, ends the run with 0. *)
Theorem parse_rendered {User} (callback : string → CHAN_PARAM → User → User * bool) tp secs dr u :
  secs ≠ [] → Forall section_ok secs →
  ∃ c s, parseConfigFile callback tp (Some (render secs)) dr u =
           Some (match file_meaning callback tp secs (uninit, dr, u) with Some _ => 1 | None => 0 end, c, s) ∧
         ∀ st, file_meaning callback tp secs (uninit, dr, u) = Some st → view s = st.
Proof.
  intros Hne Hs. unfold parseConfigFile. destruct (rendered_pieces secs Hs) as [-> Hnn].
  set (s0 := mkParse 0 0 "" uninit dr u). pose proof (read_rendered callback tp secs s0 Hne Hs) as Hm.
  change (uninit, dr, u) with (view s0). destruct (file_meaning _ _ _ _) as [st|].
  - destruct Hm as (s & E & Hv). rewrite E. cbn [mbind option_bind].
    apply read_preamble_copied in E as ([Hf _] & _); [|done..].
    destruct (Crc.crc_len_loop_done 4 (flen s) (crc s)) as [c Ec]; [rewrite Hf; apply wrap_bounds; lia|].
    unfold Crc.crc_len. rewrite Ec. do 2 eexists. split; [done|]. by intros ? [= <-].
  - destruct Hm as (s & ->). do 2 eexists. by split.
Qed.

(** *** Values that do not fit *)

(** A value of 64 characters or more makes the parser store its end behind
    the buffer, on whichever key, although the line fits in the line buffer. *)
Theorem long_value_overruns {User} (callback : string → CHAN_PARAM → User → User * bool) tp n k v dr u :
  name_ok n → all_chars key_char k → all_chars word_char v → head_is (λ c, bool_decide (c = chr 91)) k = false →
  (String.length k <= 62)%nat → (64 <= String.length v)%nat → (String.length k + String.length v <= 125)%nat →
  parseConfigFile callback tp (Some (text_of [header_line n; assignment_line (k, v)])) dr u = None.
Proof.
  intros Hn Hk Hv Hs Hkl Hvl Hl. unfold parseConfigFile. rewrite pieces_text.
  2:{ constructor; [|constructor; [|constructor]].
      - pose proof (section_lines_fit (n, []) ltac:(by split)) as H. by apply Forall_cons in H as [H _].
      - split; [by apply assignment_plain|unfold assignment_line; rewrite str_length_app; simpl; lia]. }
  cbn [map read_preamble]. change (is_section (header_line n +:+ newline)%string) with true. cbn iota.
  rewrite hits_eof_newline. cbn [read_sections].
  assert (is_section (assignment_line (k, v) +:+ newline)%string = false) as ->.
  { unfold assignment_line. cbn [fst snd]. destruct k as [|c k]; [done|]. by rewrite !str_app_cons. }
  rewrite (c_str_all (assignment_line (k, v) +:+ newline)%string) by by apply assignment_plain.
  assert (read_assignment (assignment_line (k, v) +:+ newline)%string = Overrun) as ->; [|done].
  unfold read_assignment, assignment_line. cbn [fst snd]. rewrite str_app_assoc, str_app_cons.
  rewrite scan_word_plain by (try (eapply all_chars_weaken; [|exact Hk]; apply key_char_plain); lia). simpl.
  rewrite (proj2 (Nat.eqb_neq _ _)) by lia.
  assert (E : ∀ w cr r, all_chars word_char w → (64 <= cr + String.length w)%nat → (cr <= 64)%nat →
    (scan_word (λ _, false) (w +:+ r)%string cr).2 = 64%nat).
  { induction w as [|c w IH]; intros cr r Hw Hlw Hcr; cbn [String.length] in *.
    - change (String.append "" r) with r. assert (cr = 64%nat) as -> by lia. by destruct r.
    - rewrite all_chars_cons in Hw. apply andb_prop_elim in Hw as [Hc Hw]. rewrite str_app_cons. cbn [scan_word].
      unfold word_char in Hc. destruct (is_space c); [done|]. destruct (Nat.ltb_spec cr 64); cbn [negb andb].
      + specialize (IH (S cr) r Hw ltac:(lia) ltac:(lia)). by destruct (scan_word _ _ _) as [[??]?].
      + simpl. lia. }
  specialize (E v 0%nat newline Hv ltac:(lia) ltac:(lia)). destruct (scan_word _ _ _) as [[??] m]. simpl in E. by rewrite E.
Qed.

Definition long_value : string := "0123456789012345678901234567890123456789012345678901234567890123".
Lemma long_value_overruns_witness :
  parseConfigFile (λ _ _ (u : unit), (u, true)) 0 (Some (text_of [header_line "X1:A"; assignment_line ("units", long_value)]))%string 0 ()
  = None.
Proof.
  apply (long_value_overruns _ 0 "X1:A" "units" long_value); try (by vm_compute); try (apply Nat.leb_le; by vm_compute).
  split; [by vm_compute|apply Nat.leb_le; by vm_compute].
Defined.

(** *** From the file to the acquisition *)

(** A channel of a loaded list that was given a rate, no more than the model's,
    a known type and a known number can be acquired by the front end. *)
Theorem loaded_channel_valid file dr b ret crc s rate r i m :
  empty_list b → parseConfigFile infoCallback 0 file dr b = Some (ret, crc, s) →
  (i < Z.to_nat (numChans (info (user s))))%nat →
  let e := DaqConfig.tp (info (user s)) !!! i in
  0 <= m → rate = 2 ^ m → dataRate e ≠ u32 (-1) → dataRate e <= 16 * rate → 1 <= dataType e <= 7 →
  (∀ old, classify r (tpnum e) old ≠ None) →
  chan_valid rate r e.
Proof.
  intros Hb Hp Hi e Hm Hr Hne Hle Ht Hcl. destruct (loaded_list_ok _ _ _ _ _ _ Hb Hp) as [_ _ _ Hrates].
  destruct (Hrates i Hi) as (x & [->|(k & Hk & ->)] & Ex); [done|]. fold e in Ex.
  assert (Hpow : dataRate e = 2 ^ k).
  { rewrite Ex. apply wrap_small. split; [by apply Z.pow_nonneg|]. apply Z.pow_lt_mono_r; lia. }
  assert (Hpb : per_block e = 2 ^ (k - 4)).
  { unfold per_block. rewrite Hpow. change DAQ_NUM_DATA_BLOCKS with (2 ^ 4). by rewrite <- Z.pow_sub_r by lia. }
  assert (k - 4 <= m).
  { rewrite Hpow, Hr in Hle. change (16 * 2 ^ m) with (2 ^ 4 * 2 ^ m) in Hle. rewrite <- Z.pow_add_r in Hle by lia.
    apply (Z.pow_le_mono_r_iff 2) in Hle; lia. }
  split; [| |rewrite Hpb, Hr| |done].
  - rewrite Hpb, Hpow. change DAQ_NUM_DATA_BLOCKS with (2 ^ 4). rewrite <- Z.pow_add_r by lia. f_equal. lia.
  - rewrite Hpb. by apply Z.pow_pos_nonneg; lia.
  - rewrite <- Z.pow_sub_r, <- Z.pow_add_r by lia. f_equal. lia.
  - done.
Qed.

Definition demo_file : list section :=
  [("default", [("gain", "1.0"); ("datatype", "4"); ("datarate", "2048"); ("units", "ct"); ("ifoid", "0")]);
   ("X1:A_IN1", [("chnnum", "10001")]);
   ("X1:A_OUT", [("datarate", "0x100"); ("chnnum", "10003"); ("UNITS", "m")])]%string.
Definition no_channels : InfoBlock :=
  mkInfoBlock (mkInfo 0 0 0 0 0 0 0 0 [0; 0] 0 0 0 (replicate 512 (mkTp 0 0 0))) (replicate 512 ""%string) (replicate 512 (b64_ofZ 0)).
Definition demo_range : DAQ_RANGE := mkRange 1 10000 10000 10001 20000 1 1 1 1 1.

Lemma no_channels_empty : empty_list no_channels.
Proof. by repeat split. Qed.

Definition demo_state : ParseState InfoBlock :=
  match parseConfigFile infoCallback 0 (Some (render demo_file)) 0 no_channels with
  | Some (_, _, s) => s
  | None => mkParse 0 0 "" uninit 0 no_channels
  end.
Definition demo_crc : Z :=
  match parseConfigFile infoCallback 0 (Some (render demo_file)) 0 no_channels with Some (_, c, _) => c | None => 0 end.

Lemma demo_loaded : parseConfigFile infoCallback 0 (Some (render demo_file)) 0 no_channels = Some (1, demo_crc, demo_state).
Proof. vm_compute. reflexivity. Qed.

Lemma channel_list_wf_witness :
  numChans (info (user demo_state)) = 2 ∧ take 2 (DaqConfig.tp (info (user demo_state))) = [mkTp 10001 4 2048; mkTp 10003 4 256] ∧
  list_ok (user demo_state).
Proof.
  split; [by vm_compute|]. split; [by vm_compute|].
  exact (channel_list_wf (Some (render demo_file)) 0 no_channels 1 demo_crc demo_state no_channels_empty demo_loaded).
Defined.

Lemma loaded_channel_valid_witness :
  DaqConfig.tp (info (user demo_state)) !!! 0%nat = mkTp 10001 4 2048 ∧
  chan_valid 128 demo_range (DaqConfig.tp (info (user demo_state)) !!! 0%nat).
Proof.
  assert (E : DaqConfig.tp (info (user demo_state)) !!! 0%nat = mkTp 10001 4 2048) by by vm_compute.
  split; [exact E|].
  apply (loaded_channel_valid (Some (render demo_file)) 0 no_channels 1 demo_crc demo_state 128 demo_range 0 7
           no_channels_empty demo_loaded); [| | |rewrite E; cbn [dataRate dataType tpnum]..].
  - apply Nat.ltb_lt. by vm_compute.
  - done.
  - done.
  - done.
  - lia.
  - lia.
  - done.
Defined.

Lemma demo_file_ok : demo_file ≠ [] ∧ Forall section_ok demo_file.
Proof.
  split; [done|]. repeat constructor; try (by vm_compute); apply Nat.leb_le; by vm_compute.
Qed.

Lemma parse_rendered_witness :
  ∃ c s, parseConfigFile infoCallback 0 (Some (render demo_file)) 0 no_channels =
           Some (match file_meaning infoCallback 0 demo_file (uninit, 0, no_channels) with Some _ => 1 | None => 0 end, c, s) ∧
         ∀ st, file_meaning infoCallback 0 demo_file (uninit, 0, no_channels) = Some st → view s = st.
Proof. exact (parse_rendered infoCallback 0 demo_file 0 no_channels (proj1 demo_file_ok) (proj2 demo_file_ok)). Defined.

Lemma archive_is_file_witness :
  Crc.crc_len (Z.of_nat (String.length (archive demo_state)))
    (Crc.crc_ptr (bytes_of (archive demo_state)) (String.length (archive demo_state)) 0) = Some demo_crc ∧
  ∃ cut, render demo_file = (archive demo_state +:+ cut)%string ∧ (cut = ""%string ∨ is_section cut = true ∧ hits_eof cut = true).
Proof.
  apply (archive_is_file infoCallback 0 (render demo_file) 0 no_channels demo_crc demo_state);
    [by vm_compute|by vm_compute|exact demo_loaded].
Defined.

End ParamProps.
