(* ===== verification/Mbuf.v ===== *)
(** * Shared memory areas ([src/drv/mbuf/mbuf.c], [src/drv/mbuf/kvmem.c])

    The kernel module through which models, EPICS processes and servers share
    memory.  An area has a name of up to 32 characters; asking for a name that
    exists attaches to the area, and the area is freed with its last reference.

    - [Mbuf]: the tables of the 64 areas, the [private_data] of open files (the
      address of a name in the table, here its index) and the blocks of kernel
      memory obtained;
    - [mbuf_allocate_area], [mbuf_allocate_area_safe], [mbuf_release_area]: the
      calls of kernel modules;
    - [mbuf_ioctl], [mbuf_release], [mbuf_mmap]: the calls of processes;
    - theorems: the tables stay consistent, the calls implement a reference
      counted map from names, a mapping stays inside its area, and three ways
      in which references and addresses go wrong.

    [vmalloc]'s result is an argument of the calls that allocate.  Every call
    runs under the driver's lock, so that it is one step. *)
From stdpp Require Import gmap strings.
From S2P Require Import Prelude CText.

Module Mbuf.

Definition MAX_AREAS : nat := 64.
Definition MBUF_NAME_LEN : nat := 32.
Definition PAGE_SIZE : Z := 4096.
Definition EINVAL : Z := 22.
Definition EFAULT : Z := 14.

(** [private_data] maps an open file with a non-null [private_data] to the index
    of the name it points to; [heap] maps the address of a block to its size. *)
Record Mbuf := mkMbuf {
  kmalloc_area : list Z;
  mtag : list string;
  usage_cnt : list Z;
  kmalloc_area_size : list Z;
  private_data : gmap nat nat;
  heap : gmap Z Z;
  verbosity : Z
}.

Definition set_usage (i : nat) (n : Z) (s : Mbuf) : Mbuf :=
  mkMbuf (kmalloc_area s) (mtag s) (<[i := n]> (usage_cnt s)) (kmalloc_area_size s)
    (private_data s) (heap s) (verbosity s).
Definition set_private_data (p : gmap nat nat) (s : Mbuf) : Mbuf :=
  mkMbuf (kmalloc_area s) (mtag s) (usage_cnt s) (kmalloc_area_size s) p (heap s) (verbosity s).
Definition set_heap (h : gmap Z Z) (s : Mbuf) : Mbuf :=
  mkMbuf (kmalloc_area s) (mtag s) (usage_cnt s) (kmalloc_area_size s) (private_data s) h (verbosity s).
Definition set_area (i : nat) (p : Z) (s : Mbuf) : Mbuf :=
  mkMbuf (<[i := p]> (kmalloc_area s)) (mtag s) (usage_cnt s) (kmalloc_area_size s)
    (private_data s) (heap s) (verbosity s).
Definition set_size (i : nat) (n : Z) (s : Mbuf) : Mbuf :=
  mkMbuf (kmalloc_area s) (mtag s) (usage_cnt s) (<[i := n]> (kmalloc_area_size s))
    (private_data s) (heap s) (verbosity s).
Definition set_tag (i : nat) (t : string) (s : Mbuf) : Mbuf :=
  mkMbuf (kmalloc_area s) (<[i := t]> (mtag s)) (usage_cnt s) (kmalloc_area_size s)
    (private_data s) (heap s) (verbosity s).
Definition set_verbosity (v : Z) (s : Mbuf) : Mbuf :=
  mkMbuf (kmalloc_area s) (mtag s) (usage_cnt s) (kmalloc_area_size s) (private_data s) (heap s) v.

(** [rvmalloc] and [rvfree]: [p] is what [vmalloc] returns. *)
Definition rvmalloc (size p : Z) (s : Mbuf) : Mbuf :=
  if p =? 0 then s else set_heap (<[p := size]> (heap s)) s.
Definition rvfree (p : Z) (s : Mbuf) : Mbuf :=
  if p =? 0 then s else set_heap (delete p (heap s)) s.

(** [for (i = 0; i < MAX_AREAS; i++) if (P) ...return / break], with the [i] the
    loop stops at. *)
Definition first_area (P : nat → bool) : option nat :=
  snd (for_exit 0 MAX_AREAS (λ i s, (s, if P i then Some i else None)) tt).
Definition find_tag (name : string) (s : Mbuf) : option nat :=
  first_area (λ i, bool_decide (mtag s !!! i = name)).
Definition find_free (s : Mbuf) : option nat := first_area (λ i, kmalloc_area s !!! i =? 0).

Definition set_file (file : option nat) (p : option nat) (s : Mbuf) : Mbuf :=
  match file with
  | Some f => set_private_data (partial_alter (λ _, p) f (private_data s)) s
  | None => s
  end.

(** [file] is the [struct file], [None] for a null pointer. *)
Definition mbuf_release_area (name : string) (file : option nat) (s : Mbuf) : Mbuf * Z :=
  match find_tag name s with
  | Some i =>
      let s := set_usage i (u32 (usage_cnt s !!! i - 1)) s in
      if usage_cnt s !!! i <=? 0 then
        let s := set_usage i 0 (set_tag i "" s) in
        let s := set_file file None s in
        let s := rvfree (kmalloc_area s !!! i) s in
        (set_size i 0 (set_area i 0 s), 0)
      else (s, 0)
  | None => (s, -1)
  end.

(** [strncpy(mtag[i], name, 32); mtag[i][32] = 0]. *)
Definition copy_name (name : string) : string := String.substring 0 MBUF_NAME_LEN name.

Definition fill_slot (i : nat) (name : string) (size : Z) (s : Mbuf) : Mbuf :=
  set_usage i 1 (set_tag i (copy_name name) (set_size i (u32 size) s)).

(** The two allocators; [size] is an [int].  No result is a page fault in the
    kernel: the unsafe one fills the memory before it tests the pointer. *)
Definition mbuf_allocate_area (one_fill : bool) (name : string) (size : Z) (file : option nat)
    (p : Z) (s : Mbuf) : option (Mbuf * Z) :=
  match find_tag name s with
  | Some i =>
      let s := set_usage i (u32 (usage_cnt s !!! i + 1)) s in
      Some (set_file file (Some i) s, Z.of_nat i)
  | None =>
      match find_free s with
      | None => Some (s, -1)
      | Some i =>
          let s := set_area i p (rvmalloc (u64 size) p (set_area i 0 s)) in
          if one_fill && (p =? 0) && negb (size =? 0) then None
          else if kmalloc_area s !!! i =? 0 then Some (s, -1)
          else Some (set_file file (Some i) (fill_slot i name size s), Z.of_nat i)
      end
  end.

Definition allocate_area_safe (name : string) (size : Z) (p : Z) (s : Mbuf) : Mbuf * Z :=
  match find_tag name s with
  | Some i =>
      if kmalloc_area_size s !!! i <? u32 size then (s, -1)
      else (set_usage i (u32 (usage_cnt s !!! i + 1)) s, Z.of_nat i)
  | None =>
      match find_free s with
      | None => (s, -1)
      | Some i =>
          let s := set_area i p (rvmalloc (u64 size) p (set_area i 0 s)) in
          if kmalloc_area s !!! i =? 0 then (s, -1)
          else (fill_slot i name size s, Z.of_nat i)
      end
  end.

(** [name] is [None] for a null pointer. *)
Definition mbuf_allocate_area_safe (name : option string) (size : Z) (file : option nat) (p : Z) (s : Mbuf)
    : Mbuf * Z :=
  match name with
  | Some name =>
      if size <=? 0 then (s, -1)
      else
        let '(s, result) := allocate_area_safe name size p s in
        (if 0 <=? result then set_file file (Some (Z.to_nat result)) s else s, result)
  | None => (s, -1)
  end.

(** The last close of a file: [name] is read through [private_data]. *)
Definition mbuf_release (filp : nat) (s : Mbuf) : Mbuf * Z :=
  match private_data s !! filp with
  | None => (s, 0)
  | Some i => (fst (mbuf_release_area (mtag s !!! i) (Some filp) s), 0)
  end.

(** *** Mapping

    A mapping request: [vm_end - vm_start], [vm_pgoff] and [vm_start].  The
    result of a mapping is an error or the kernel addresses mapped, as start
    and length. *)
Inductive Mapping := MapErr (e : Z) | Mapped (pos len : Z).

Definition rvmmap (mem memsize start size pgoff : Z) : Mapping :=
  if (2 ^ 64 - 1) / PAGE_SIZE <? pgoff then MapErr (- EFAULT)
  else
    let offset := u64 (pgoff * PAGE_SIZE) in
    if memsize <? u64 (size + offset) then MapErr (- EFAULT)
    else
      let pos := u64 (mem + offset) in
      if truthy (pos mod PAGE_SIZE) || truthy (start mod PAGE_SIZE) || truthy (size mod PAGE_SIZE)
      then MapErr (- EFAULT)
      else Mapped pos size.

Definition mmap_kmem (i : nat) (start length pgoff : Z) (s : Mbuf) : Mapping :=
  if kmalloc_area_size s !!! i <? length then MapErr (- EINVAL)
  else rvmmap (kmalloc_area s !!! i) length start length pgoff.

Definition mbuf_mmap (file : nat) (start length pgoff : Z) (s : Mbuf) : Mapping :=
  match private_data s !! file with
  | None => MapErr (- EINVAL)
  | Some j =>
      match find_tag (mtag s !!! j) s with
      | Some i => mmap_kmem i start length pgoff s
      | None => MapErr (- EINVAL)
      end
  end.

(** *** Control calls

    [req] is what [copy_from_user] brings, [None] when it fails. *)
Inductive Ioctl := IOCTL_MBUF_ALLOCATE | IOCTL_MBUF_DEALLOCATE | IOCTL_MBUF_INFO | IOCTL_OTHER.

Definition round_size (size : Z) : Z :=
  let mod_ := s32 (size mod PAGE_SIZE) in
  if negb (mod_ =? 0) then u64 (size + (PAGE_SIZE - mod_)) else size.

Definition mbuf_ioctl (one_fill : bool) (file : nat) (cmd : Ioctl) (req : option (Z * string)) (p : Z) (s : Mbuf)
    : option (Mbuf * Z) :=
  match cmd, req with
  | IOCTL_MBUF_ALLOCATE, Some (size, name) =>
      match mbuf_allocate_area one_fill name (s32 (round_size size)) (Some file) p s with
      | Some (s, res) =>
          if 0 <=? res then Some (s, kmalloc_area_size s !!! Z.to_nat res) else Some (s, - EINVAL)
      | None => None
      end
  | IOCTL_MBUF_DEALLOCATE, Some (_, name) =>
      let '(s, res) := mbuf_release_area name (Some file) s in
      Some (s, if 0 <=? res then 0 else - EINVAL)
  | IOCTL_MBUF_INFO, _ => Some (s, 1)
  | IOCTL_OTHER, _ => Some (s, - EINVAL)
  | _, None => Some (s, - EFAULT)
  end.

(** [conv] is what [kstrtoint] makes of the text: a value or an error. *)
Definition mbuf_sysfs_verbosity_store (count : Z) (conv : option Z) (s : Mbuf) : Mbuf * Z :=
  if 10 <=? count then (s, - EFAULT)
  else match conv with
       | Some v => (set_verbosity v s, count)
       | None => (s, - EFAULT)
       end.

Definition mbuf_init : Mbuf :=
  mkMbuf (replicate MAX_AREAS 0) (replicate MAX_AREAS ""%string) (replicate MAX_AREAS 0)
    (replicate MAX_AREAS 0) ∅ ∅ 0.

(** ** Consistency *)

(** What the driver relies on from [vmalloc]: null, or the page-aligned address
    of a new block below the end of memory; never a block larger than memory. *)
Definition vmalloc_ok (size p : Z) (s : Mbuf) : Prop :=
  p = 0 ∨ (0 < p ∧ p mod PAGE_SIZE = 0 ∧ 0 < u64 size < 2 ^ 47 ∧ p + u64 size <= 2 ^ 64 ∧ heap s !! p = None).

Record wf (s : Mbuf) : Prop := {
  wf_areas : length (kmalloc_area s) = MAX_AREAS;
  wf_tags : length (mtag s) = MAX_AREAS;
  wf_cnts : length (usage_cnt s) = MAX_AREAS;
  wf_sizes : length (kmalloc_area_size s) = MAX_AREAS;
  wf_free i : (i < MAX_AREAS)%nat → mtag s !!! i = ""%string ↔ kmalloc_area s !!! i = 0;
  wf_names i j : (i < MAX_AREAS)%nat → (j < MAX_AREAS)%nat → mtag s !!! i = mtag s !!! j →
    mtag s !!! i ≠ ""%string → i = j;
  wf_addrs i j : (i < MAX_AREAS)%nat → (j < MAX_AREAS)%nat → kmalloc_area s !!! i = kmalloc_area s !!! j →
    kmalloc_area s !!! i ≠ 0 → i = j;
  wf_refs i : (i < MAX_AREAS)%nat → mtag s !!! i ≠ ""%string → 1 <= usage_cnt s !!! i < 2 ^ 32;
  wf_nosize i : (i < MAX_AREAS)%nat → mtag s !!! i = ""%string → kmalloc_area_size s !!! i = 0;
  wf_heap p n : heap s !! p = Some n ↔
    ∃ i, (i < MAX_AREAS)%nat ∧ p ≠ 0 ∧ kmalloc_area s !!! i = p ∧ kmalloc_area_size s !!! i = n;
  wf_block p n : heap s !! p = Some n → p mod PAGE_SIZE = 0 ∧ 0 < p ∧ 0 < n ∧ p + n <= 2 ^ 64
}.

(** Discharge the conditions of [wf] that a step leaves alone. *)
Ltac keep W :=
  solve [ exact (wf_areas _ W) | exact (wf_tags _ W) | exact (wf_cnts _ W) | exact (wf_sizes _ W)
        | exact (wf_free _ W) | exact (wf_names _ W) | exact (wf_addrs _ W) | exact (wf_heap _ W)
        | exact (wf_refs _ W) | exact (wf_nosize _ W) | exact (wf_block _ W) ].

Definition legal (name : string) : Prop := (String.length name <= MBUF_NAME_LEN)%nat.

Lemma first_area_spec (P : nat → bool) :
  match first_area P with
  | Some i => (i < MAX_AREAS)%nat ∧ P i = true ∧ ∀ j, (j < i)%nat → P j = false
  | None => ∀ j, (j < MAX_AREAS)%nat → P j = false
  end.
Proof.
  unfold first_area. set (g := λ (i : nat) (s : unit), (s, if P i then Some i else None)).
  assert (Hg : ∀ n k, match snd (for_exit k n g tt) with
    | Some i => (k <= i < k + n)%nat ∧ P i = true ∧ ∀ j, (k <= j < i)%nat → P j = false
    | None => ∀ j, (k <= j < k + n)%nat → P j = false
    end).
  { induction n as [|n IH]; intros k; simpl; [intros; lia|].
    destruct (P k) eqn:E; simpl; [split_and!; [lia | lia | done | intros; lia]|].
    specialize (IH (S k)). destruct (snd (for_exit (S k) n g tt)) as [i|].
    - destruct IH as (Hi & HP & Hj). split_and!; [lia | lia | done|].
      intros j Hj'. destruct (decide (j = k)) as [->|]; [done | apply Hj; lia].
    - intros j Hj. destruct (decide (j = k)) as [->|]; [done | apply IH; lia]. }
  specialize (Hg MAX_AREAS 0%nat). destruct (snd (for_exit 0 MAX_AREAS g tt)).
  - destruct Hg as (? & ? & Hj). split_and!; [lia | done | intros; apply Hj; lia].
  - intros; apply Hg; lia.
Qed.

Lemma find_tag_Some name s i : find_tag name s = Some i → (i < MAX_AREAS)%nat ∧ mtag s !!! i = name.
Proof.
  intros E. pose proof (first_area_spec (λ i, bool_decide (mtag s !!! i = name))) as Hs.
  fold (find_tag name s) in Hs. rewrite E in Hs. destruct Hs as (? & Hb & _).
  split; [done | by apply bool_decide_eq_true in Hb].
Qed.

Lemma find_tag_None name s i : find_tag name s = None → (i < MAX_AREAS)%nat → mtag s !!! i ≠ name.
Proof.
  intros E Hi. pose proof (first_area_spec (λ i, bool_decide (mtag s !!! i = name))) as Hs.
  fold (find_tag name s) in Hs. rewrite E in Hs. by apply Hs, bool_decide_eq_false in Hi.
Qed.

Lemma find_tag_at s i : wf s → (i < MAX_AREAS)%nat → mtag s !!! i ≠ ""%string → find_tag (mtag s !!! i) s = Some i.
Proof.
  intros W Hi Hne. destruct (find_tag (mtag s !!! i) s) as [j|] eqn:E.
  - apply find_tag_Some in E as [Hj Ht]. f_equal. symmetry. apply (wf_names s W); auto.
  - by destruct (find_tag_None _ _ i E Hi).
Qed.

Lemma find_free_Some s i : find_free s = Some i → (i < MAX_AREAS)%nat ∧ kmalloc_area s !!! i = 0.
Proof.
  intros E. pose proof (first_area_spec (λ i, kmalloc_area s !!! i =? 0)) as Hs.
  fold (find_free s) in Hs. rewrite E in Hs. destruct Hs as (? & Hb & _). split; [done | lia].
Qed.

Lemma find_free_None s i : find_free s = None → (i < MAX_AREAS)%nat → kmalloc_area s !!! i ≠ 0.
Proof.
  intros E Hi. pose proof (first_area_spec (λ i, kmalloc_area s !!! i =? 0)) as Hs.
  fold (find_free s) in Hs. rewrite E in Hs. apply Hs in Hi. lia.
Qed.

(** *** The effect of the calls on one slot *)

(** The freeing branch of [mbuf_release_area] and the filling of a free slot. *)
Definition drop_slot (i : nat) (file : option nat) (s : Mbuf) : Mbuf :=
  let s' := rvfree (kmalloc_area s !!! i) (set_file file None (set_usage i 0 (set_tag i "" s))) in
  set_size i 0 (set_area i 0 s').
Definition new_slot (i : nat) (name : string) (size p : Z) (s : Mbuf) : Mbuf :=
  fill_slot i name size (set_area i p (rvmalloc (u64 size) p s)).

Lemma set_file_tables file p s :
  kmalloc_area (set_file file p s) = kmalloc_area s ∧ mtag (set_file file p s) = mtag s ∧
  usage_cnt (set_file file p s) = usage_cnt s ∧ kmalloc_area_size (set_file file p s) = kmalloc_area_size s ∧
  heap (set_file file p s) = heap s.
Proof. by destruct file. Qed.

Lemma wf_set_file file p s : wf s → wf (set_file file p s).
Proof. destruct file; [|done]. intros W. split; keep W. Qed.

Lemma wf_set_usage i n s :
  wf s → (i < MAX_AREAS)%nat → (mtag s !!! i ≠ ""%string → 1 <= n < 2 ^ 32) → wf (set_usage i n s).
Proof.
  intros W Hi Hn. split; simpl; rewrite ?length_insert; try keep W.
  intros j Hj Ht. rewrite lookup_total_insert by (rewrite (wf_cnts s W); done).
  destruct (decide _) as [->|]; [by apply Hn | by apply (wf_refs s W)].
Qed.

Lemma wf_drop_slot i file s : wf s → (i < MAX_AREAS)%nat → kmalloc_area s !!! i ≠ 0 → wf (drop_slot i file s).
Proof.
  intros W Hi Hne. unfold drop_slot, rvfree.
  assert (E : (kmalloc_area s !!! i =? 0) = false) by lia. rewrite E.
  assert (Hl : (i < length (kmalloc_area s))%nat) by (rewrite (wf_areas s W); done).
  assert (Hlt : (i < length (mtag s))%nat) by (rewrite (wf_tags s W); done).
  assert (Hls : (i < length (kmalloc_area_size s))%nat) by (rewrite (wf_sizes s W); done).
  assert (Hlc : (i < length (usage_cnt s))%nat) by (rewrite (wf_cnts s W); done).
  destruct (set_file_tables file None (set_usage i 0 (set_tag i "" s))) as (E1 & E2 & E3 & E4 & E5).
  split; simpl; rewrite ?E1, ?E2, ?E3, ?E4, ?E5; simpl; rewrite ?length_insert; try keep W.
  - intros j Hj. rewrite !lookup_total_insert by done. destruct (decide _); [done|]. by apply (wf_free s W).
  - intros j k Hj Hk. rewrite !lookup_total_insert by done.
    destruct (decide _) as [->|]; [done|]. destruct (decide _) as [->|]; [by intros ->|].
    by apply (wf_names s W).
  - intros j k Hj Hk. rewrite !lookup_total_insert by done.
    destruct (decide _) as [->|]; [done|]. destruct (decide _) as [->|]; [by intros ->|].
    by apply (wf_addrs s W).
  - intros j Hj. rewrite !lookup_total_insert by done.
    destruct (decide _) as [->|]; [done | by apply (wf_refs s W)].
  - intros j Hj. rewrite !lookup_total_insert by done.
    destruct (decide _) as [->|]; [done | by apply (wf_nosize s W)].
  - intros p n. rewrite lookup_delete_Some, (wf_heap s W). split.
    + intros (Hp & j & Hj & Hp0 & Ha & Hn). exists j. rewrite !lookup_total_insert by done.
      destruct (decide _) as [->|]; [congruence | done].
    + intros (j & Hj & Hp0 & Ha & Hn). rewrite !lookup_total_insert in Ha, Hn by done.
      destruct (decide _) as [->|]; [congruence|].
      split; [|by exists j]. intros <-. assert (i = j) as -> by (apply (wf_addrs s W); congruence).
      naive_solver.
  - intros p n [_ Hp]%lookup_delete_Some. by apply (wf_block s W).
Qed.

Lemma wf_new_slot i name size p s :
  wf s → (i < MAX_AREAS)%nat → kmalloc_area s !!! i = 0 → p ≠ 0 → vmalloc_ok size p s →
  name ≠ ""%string → copy_name name = name → (∀ j, (j < MAX_AREAS)%nat → mtag s !!! j ≠ name) →
  u64 size = u32 size → wf (new_slot i name size p s).
Proof.
  intros W Hi Ha0 Hp Hv Hname Hcopy Hnew Hsz. destruct Hv as [|(Hpos & Hpg & Hsize & Htop & Hfresh)]; [done|].
  unfold new_slot, fill_slot, rvmalloc. rewrite Hcopy. assert (E : (p =? 0) = false) by lia. rewrite E.
  assert (Hl : (i < length (kmalloc_area s))%nat) by (rewrite (wf_areas s W); done).
  assert (Hlt : (i < length (mtag s))%nat) by (rewrite (wf_tags s W); done).
  assert (Hls : (i < length (kmalloc_area_size s))%nat) by (rewrite (wf_sizes s W); done).
  assert (Hlc : (i < length (usage_cnt s))%nat) by (rewrite (wf_cnts s W); done).
  assert (Hout : ∀ j, (j < MAX_AREAS)%nat → kmalloc_area s !!! j ≠ p).
  { intros j Hj Hja. assert (heap s !! p = Some (kmalloc_area_size s !!! j)) by (apply (wf_heap s W); by exists j).
    congruence. }
  split; simpl; rewrite ?length_insert; try keep W.
  - intros j Hj. rewrite !lookup_total_insert by done. destruct (decide _); [done | by apply (wf_free s W)].
  - intros j k Hj Hk. rewrite !lookup_total_insert by done.
    destruct (decide (j = i)) as [->|]; destruct (decide (k = i)) as [->|]; try done.
    + intros E1. by destruct (Hnew k Hk).
    + intros E1. by destruct (Hnew j Hj).
    + by apply (wf_names s W).
  - intros j k Hj Hk. rewrite !lookup_total_insert by done.
    destruct (decide (j = i)) as [->|]; destruct (decide (k = i)) as [->|]; try done.
    + intros E1. by destruct (Hout k Hk).
    + intros E1. by destruct (Hout j Hj).
    + by apply (wf_addrs s W).
  - intros j Hj. rewrite !lookup_total_insert by done.
    destruct (decide _) as [->|]; [lia | by apply (wf_refs s W)].
  - intros j Hj. rewrite !lookup_total_insert by done.
    destruct (decide _) as [->|]; [done | by apply (wf_nosize s W)].
  - intros q n. rewrite lookup_insert_Some, (wf_heap s W). split.
    + intros [[<- <-]|(Hq & j & Hj & Hq0 & Hja & Hn)].
      * exists i. rewrite !list_lookup_total_insert_eq by done. done.
      * exists j. rewrite !list_lookup_total_insert_ne by (intros ->; congruence). done.
    + intros (j & Hj & Hq0 & Hja & Hn). rewrite !lookup_total_insert in Hja, Hn by done.
      destruct (decide _) as [->|].
      * left. by rewrite Hsz.
      * right. split; [|by exists j].
        intros <-. by apply (Hout j).
  - intros q n [[<- <-]|[_ Hq]]%lookup_insert_Some; [lia | by apply (wf_block s W)].
Qed.

Lemma release_found name file s i :
  find_tag name s = Some i → wf s → name ≠ ""%string →
  mbuf_release_area name file s =
  if usage_cnt s !!! i =? 1 then (drop_slot i file s, 0) else (set_usage i (usage_cnt s !!! i - 1) s, 0).
Proof.
  intros E W Hne. destruct (find_tag_Some _ _ _ E) as [Hi Ht]. unfold mbuf_release_area. rewrite E.
  pose proof (wf_refs s W i Hi) as Hc. rewrite Ht in Hc. specialize (Hc Hne).
  rewrite wrap_small by lia. cbn [usage_cnt set_usage].
  rewrite list_lookup_total_insert_eq by (rewrite (wf_cnts s W); done).
  destruct (Z.leb_spec (usage_cnt s !!! i - 1) 0), (Z.eqb_spec (usage_cnt s !!! i) 1); try lia; [|done].
  unfold drop_slot. destruct file; simpl; unfold set_usage, set_tag, set_private_data; simpl;
    by rewrite list_insert_insert_eq.
Qed.

Lemma alloc_found fill name size file p s i :
  find_tag name s = Some i →
  mbuf_allocate_area fill name size file p s =
  Some (set_file file (Some i) (set_usage i (u32 (usage_cnt s !!! i + 1)) s), Z.of_nat i).
Proof. intros E. unfold mbuf_allocate_area. by rewrite E. Qed.

Lemma insert_same {A} `{Inhabited A} (l : list A) i x : l !!! i = x → <[i := x]> l = l.
Proof.
  intros E. destruct (decide (i < length l)%nat).
  - apply list_insert_id. rewrite <- E. by apply list_lookup_lookup_total_lt.
  - apply list_insert_ge. lia.
Qed.

Lemma clear_free_slot i s : kmalloc_area s !!! i = 0 → set_area i 0 s = s.
Proof. intros E. destruct s. unfold set_area. simpl in *. by rewrite insert_same. Qed.

Lemma alloc_new fill name size file p s :
  find_tag name s = None → wf s →
  mbuf_allocate_area fill name size file p s =
  match find_free s with
  | Some i =>
      if p =? 0 then (if fill && negb (size =? 0) then None else Some (s, -1))
      else Some (set_file file (Some i) (new_slot i name size p s), Z.of_nat i)
  | None => Some (s, -1)
  end.
Proof.
  intros E W. unfold mbuf_allocate_area. rewrite E. destruct (find_free s) as [i|] eqn:Ef; [|done].
  destruct (find_free_Some _ _ Ef) as [Hi Ha]. rewrite clear_free_slot by done.
  unfold new_slot. cbn [kmalloc_area set_area].
  assert (Hl : length (kmalloc_area (rvmalloc (u64 size) p s)) = MAX_AREAS).
  { unfold rvmalloc. destruct (p =? 0); apply (wf_areas s W). }
  rewrite list_lookup_total_insert_eq by (by rewrite Hl).
  destruct (Z.eqb_spec p 0) as [->|]; [|by rewrite andb_false_r].
  rewrite andb_true_r. unfold rvmalloc. simpl. by rewrite clear_free_slot.
Qed.

(** ** The contract: a reference counted map from names

    [abs] reads the map off the tables.  An area of the map keeps the index the
    kernel modules use to reach it. *)
Record Area := mkArea { slot : nat; addr : Z; asize : Z; refs : Z }.

Definition area_at (s : Mbuf) (i : nat) : Area :=
  mkArea i (kmalloc_area s !!! i) (kmalloc_area_size s !!! i) (usage_cnt s !!! i).
Definition entries (s : Mbuf) : list (string * Area) :=
  (λ i, (mtag s !!! i, area_at s i)) <$> filter (λ i, mtag s !!! i ≠ ""%string) (seq 0 MAX_AREAS).
Definition abs (s : Mbuf) : gmap string Area := list_to_map (entries s).

(** The state of the contract: the areas by name and, by open file, the index
    of the area it is attached to. *)
Record Spec := mkSpec { areas : gmap string Area; files : gmap nat nat }.
Definition view (s : Mbuf) : Spec := mkSpec (abs s) (private_data s).

Definition add_refs (n : Z) (a : Area) : Area := mkArea (slot a) (addr a) (asize a) (refs a + n).

(** The first index no area has. *)
Definition slots (m : gmap string Area) : list nat := (λ x, slot x.2) <$> map_to_list m.
Definition free_slot (m : gmap string Area) : option nat :=
  fst <$> list_find (λ i, i ∉ slots m) (seq 0 MAX_AREAS).

Definition attach (file : option nat) (i : nat) (fs : gmap nat nat) : gmap nat nat :=
  match file with Some f => <[f := i]> fs | None => fs end.
Definition detach (file : option nat) (fs : gmap nat nat) : gmap nat nat :=
  match file with Some f => delete f fs | None => fs end.

(** The result is the index of the area, or [-1]; no result is a fault. *)
Definition spec_alloc (fill : bool) (name : string) (bytes : Z) (file : option nat) (p : Z) (m : Spec)
    : option (Spec * Z) :=
  match areas m !! name with
  | Some a => Some (mkSpec (<[name := add_refs 1 a]> (areas m)) (attach file (slot a) (files m)), Z.of_nat (slot a))
  | None =>
      match free_slot (areas m) with
      | None => Some (m, -1)
      | Some i =>
          if p =? 0 then (if fill && negb (bytes =? 0) then None else Some (m, -1))
          else Some (mkSpec (<[name := mkArea i p bytes 1]> (areas m)) (attach file i (files m)), Z.of_nat i)
      end
  end.

(** The safe allocator refuses null names, sizes that are not positive and areas
    that are too small, and never faults. *)
Definition spec_alloc_safe (name : option string) (bytes : Z) (file : option nat) (p : Z) (m : Spec)
    : option (Spec * Z) :=
  match name with
  | None => Some (m, -1)
  | Some name =>
      if (bytes <=? 0) || from_option (λ a, asize a <? bytes) false (areas m !! name) then Some (m, -1)
      else spec_alloc false name bytes file p m
  end.

Definition spec_release (name : string) (file : option nat) (m : Spec) : Spec * Z :=
  match areas m !! name with
  | Some a => (if refs a =? 1 then mkSpec (delete name (areas m)) (detach file (files m))
               else mkSpec (<[name := add_refs (-1) a]> (areas m)) (files m), 0)
  | None => (m, -1)
  end.

Lemma entries_nodup s : wf s → NoDup (entries s).*1.
Proof.
  intros W. unfold entries. rewrite <- list_fmap_compose. apply NoDup_fmap_2_strong.
  - intros i j Hi Hj E. apply list_elem_of_filter in Hi as [Hne Hi%elem_of_seq].
    apply list_elem_of_filter in Hj as [_ Hj%elem_of_seq]. apply (wf_names s W); [lia | lia | done | done].
  - apply NoDup_filter, NoDup_seq.
Qed.

Lemma abs_lookup s name :
  wf s → name ≠ ""%string → abs s !! name = area_at s <$> find_tag name s.
Proof.
  intros W Hne. destruct (find_tag name s) as [i|] eqn:E; simpl.
  - destruct (find_tag_Some _ _ _ E) as [Hi Ht]. apply elem_of_list_to_map_1; [by apply entries_nodup|].
    apply list_elem_of_fmap. exists i. split; [by rewrite Ht|].
    apply list_elem_of_filter. split; [congruence | apply elem_of_seq; lia].
  - apply not_elem_of_list_to_map_1. unfold entries. rewrite <- list_fmap_compose.
    intros (i & Hn & [_ Hi%elem_of_seq]%list_elem_of_filter)%list_elem_of_fmap.
    by apply (find_tag_None _ _ i E); [lia|].
Qed.

Lemma abs_lookup_empty s : abs s !! ""%string = None.
Proof.
  apply not_elem_of_list_to_map_1. unfold entries. rewrite <- list_fmap_compose.
  by intros (i & Hn & [? _]%list_elem_of_filter)%list_elem_of_fmap.
Qed.

Lemma elem_of_slots s i : wf s → i ∈ slots (abs s) ↔ (i < MAX_AREAS)%nat ∧ mtag s !!! i ≠ ""%string.
Proof.
  intros W. unfold slots. rewrite list_elem_of_fmap. split.
  - intros ([nm a] & -> & Ha%elem_of_map_to_list). destruct (decide (nm = ""%string)) as [->|Hne].
    { by rewrite abs_lookup_empty in Ha. }
    rewrite abs_lookup in Ha by done. destruct (find_tag nm s) as [j|] eqn:E; [|done].
    injection Ha as <-. apply find_tag_Some in E as [Hj <-]. done.
  - intros [Hi Hne]. exists (mtag s !!! i, area_at s i). split; [done|].
    apply elem_of_map_to_list. by rewrite abs_lookup, find_tag_at.
Qed.

Lemma free_slot_abs s : wf s → free_slot (abs s) = find_free s.
Proof.
  intros W. assert (Hsl : ∀ i, (i < MAX_AREAS)%nat → i ∉ slots (abs s) ↔ kmalloc_area s !!! i = 0).
  { intros i Hi. rewrite elem_of_slots, <- (wf_free s W) by done.
    destruct (decide (mtag s !!! i = ""%string)); tauto. }
  unfold free_slot. pose proof (first_area_spec (λ i, kmalloc_area s !!! i =? 0)) as Hs.
  fold (find_free s) in Hs. destruct (find_free s) as [i|].
  - destruct Hs as (Hi & Hz & Hb).
    assert (E : list_find (λ i, i ∉ slots (abs s)) (seq 0 MAX_AREAS) = Some (i, i)); [|by rewrite E].
    apply list_find_Some. split_and!; [by apply lookup_seq | apply Hsl; [done | lia]|].
    intros j y [-> Hy]%lookup_seq Hj Hn. specialize (Hb j Hj). apply Hsl in Hn; simpl in *; lia.
  - assert (E : list_find (λ i, i ∉ slots (abs s)) (seq 0 MAX_AREAS) = None); [|by rewrite E].
    apply list_find_None, Forall_forall. intros i Hi%elem_of_seq Hn.
    specialize (Hs i). apply Hsl in Hn; [|lia]. assert ((kmalloc_area s !!! i =? 0) = false) by (apply Hs; lia). lia.
Qed.

(** The calls of kernel modules and of processes, on the tables and in the
    contract. *)
Inductive Call :=
  | Allocate (name : string) (size : Z) (file : option nat) (p : Z)
  | AllocateSafe (name : option string) (size : Z) (file : option nat) (p : Z)
  | Release (name : string) (file : option nat)
  | Control (file : nat) (cmd : Ioctl) (req : option (Z * string)) (p : Z)
  | Close (file : nat).

Definition call (fill : bool) (c : Call) (s : Mbuf) : option (Mbuf * Z) :=
  match c with
  | Allocate name size file p => mbuf_allocate_area fill name size file p s
  | AllocateSafe name size file p => Some (mbuf_allocate_area_safe name size file p s)
  | Release name file => Some (mbuf_release_area name file s)
  | Control file cmd req p => mbuf_ioctl fill file cmd req p s
  | Close file => Some (mbuf_release file s)
  end.

(** Whole pages. *)
Definition pages (size : Z) : Z := (size + (PAGE_SIZE - 1)) / PAGE_SIZE * PAGE_SIZE.

(** The name of the area at an index. *)
Definition name_at (i : nat) (m : gmap string Area) : option string :=
  (λ x, fst (snd x)) <$> list_find (λ x, slot x.2 = i) (map_to_list m).

Definition spec_ioctl (fill : bool) (file : nat) (cmd : Ioctl) (req : option (Z * string)) (p : Z) (m : Spec)
    : option (Spec * Z) :=
  match cmd, req with
  | IOCTL_MBUF_ALLOCATE, Some (size, name) =>
      '(m', r) ← spec_alloc fill name (pages size) (Some file) p m;
      Some (m', from_option asize (- EINVAL) (if 0 <=? r then areas m' !! name else None))
  | IOCTL_MBUF_DEALLOCATE, Some (_, name) =>
      let '(m', r) := spec_release name (Some file) m in Some (m', if r =? 0 then 0 else - EINVAL)
  | IOCTL_MBUF_INFO, _ => Some (m, 1)
  | IOCTL_OTHER, _ => Some (m, - EINVAL)
  | _, None => Some (m, - EFAULT)
  end.

Definition spec_close (file : nat) (m : Spec) : Spec :=
  match files m !! file ≫= λ i, name_at i (areas m) with
  | Some name => fst (spec_release name (Some file) m)
  | None => m
  end.

Definition spec_call (fill : bool) (c : Call) (m : Spec) : option (Spec * Z) :=
  match c with
  | Allocate name size file p => spec_alloc fill name size file p m
  | AllocateSafe name size file p => spec_alloc_safe name size file p m
  | Release name file => Some (spec_release name file m)
  | Control file cmd req p => spec_ioctl fill file cmd req p m
  | Close file => Some (spec_close file m, 0)
  end.

(** What is asked of a call: a proper name, a size that is an [int], memory as
    [vmalloc] gives it, and a count that does not wrap around. *)
Definition alloc_ok (name : string) (size p : Z) (s : Mbuf) : Prop :=
  legal name ∧ name ≠ ""%string ∧ - 2 ^ 31 <= size < 2 ^ 31 ∧ vmalloc_ok size p s ∧
  (∀ a, abs s !! name = Some a → refs a < 2 ^ 32 - 1).
Definition call_ok (c : Call) (s : Mbuf) : Prop :=
  match c with
  | Allocate name size _ p => alloc_ok name size p s
  | AllocateSafe name size _ p => match name with Some name => alloc_ok name size p s | None => True end
  | Release name _ => name ≠ ""%string
  | Control _ cmd req p =>
      match cmd, req with
      | IOCTL_MBUF_ALLOCATE, Some (size, name) =>
          0 <= size < 2 ^ 31 - PAGE_SIZE ∧ alloc_ok name (pages size) p s
      | IOCTL_MBUF_DEALLOCATE, Some (_, name) => name ≠ ""%string
      | _, _ => True
      end
  | Close _ => True
  end.

(** A close of a file whose area is gone: [private_data] points to the name of a
    free slot. *)
Definition stale (c : Call) (s : Mbuf) : bool :=
  match c with
  | Close f => match private_data s !! f with
               | Some i => bool_decide (mtag s !!! i = ""%string ∨ (MAX_AREAS <= i)%nat)
               | None => false
               end
  | _ => false
  end.

Lemma copy_name_legal name : legal name → copy_name name = name.
Proof. apply CText.substring_all. Qed.

Lemma u64_u32_size size : - 2 ^ 31 <= size < 2 ^ 31 → u64 size < 2 ^ 47 → u64 size = u32 size ∧ u64 size = size.
Proof.
  intros Hs Hb. assert (0 <= size).
  { destruct (Z.leb_spec 0 size); [done|]. exfalso.
    assert (E : u64 size = size + 2 ^ 64) by (unfold wrap; rewrite <- (Z.mod_add size 1 (2 ^ 64)), Z.mod_small; lia).
    lia. }
  rewrite !wrap_small by lia. done.
Qed.

(** Two tables with the same map after an update at one name. *)
Lemma abs_insert s s' name i :
  wf s → wf s' → name ≠ ""%string → find_tag name s' = Some i →
  (∀ nm, nm ≠ name → nm ≠ ""%string → find_tag nm s' = find_tag nm s) →
  (∀ j, j ≠ i → area_at s' j = area_at s j) →
  (∀ nm, nm ≠ name → nm ≠ ""%string → find_tag nm s ≠ Some i) →
  abs s' = <[name := area_at s' i]> (abs s).
Proof.
  intros W W' Hne Hf Hothers Hat Hi. apply map_eq. intros nm. destruct (decide (nm = name)) as [->|Hnm].
  - by rewrite lookup_insert_eq, abs_lookup, Hf.
  - rewrite lookup_insert_ne by done. destruct (decide (nm = ""%string)) as [->|Hne'].
    + by rewrite !abs_lookup_empty.
    + rewrite !abs_lookup, Hothers by done. destruct (find_tag nm s) as [j|] eqn:E; [|done].
      simpl. rewrite Hat; [done|]. intros ->. by apply (Hi nm).
Qed.

Lemma find_tag_spec s name i :
  wf s → name ≠ ""%string → find_tag name s = Some i ↔ (i < MAX_AREAS)%nat ∧ mtag s !!! i = name.
Proof.
  intros W Hne. split; [apply find_tag_Some|]. intros [Hi <-]. by apply find_tag_at.
Qed.

Lemma find_tag_ext s s' name :
  wf s → wf s' → name ≠ ""%string →
  (∀ j, (j < MAX_AREAS)%nat → mtag s' !!! j = name ↔ mtag s !!! j = name) → find_tag name s' = find_tag name s.
Proof.
  intros W W' Hne H. apply option_eq. intros i. rewrite !find_tag_spec by done.
  split; intros [Hi Ht]; (split; [done | by apply H]).
Qed.

Lemma abs_set_file file p s : abs (set_file file p s) = abs s.
Proof. by destruct file. Qed.

Lemma abs_set_usage s name i n :
  wf s → wf (set_usage i n s) → name ≠ ""%string → find_tag name s = Some i →
  abs (set_usage i n s) = <[name := mkArea i (kmalloc_area s !!! i) (kmalloc_area_size s !!! i) n]> (abs s).
Proof.
  intros W W' Hne Hf. destruct (find_tag_Some _ _ _ Hf) as [Hi Ht].
  assert (Hc : (i < length (usage_cnt s))%nat) by (rewrite (wf_cnts s W); done).
  rewrite (abs_insert s (set_usage i n s) name i); try done.
  - f_equal. unfold area_at. simpl. by rewrite list_lookup_total_insert_eq.
  - intros j Hj. unfold area_at. simpl. by rewrite list_lookup_total_insert_ne.
  - intros nm Hn Hn' [_ ?]%find_tag_Some. congruence.
Qed.

Lemma drop_slot_tags i file s j :
  wf s → (i < MAX_AREAS)%nat → mtag (drop_slot i file s) !!! j = if decide (j = i) then ""%string else mtag s !!! j.
Proof.
  intros W Hi. rewrite <- lookup_total_insert by (rewrite (wf_tags s W); done).
  unfold drop_slot, rvfree. by destruct (_ =? 0), file.
Qed.

Lemma drop_slot_area i file s j : j ≠ i → area_at (drop_slot i file s) j = area_at s j.
Proof.
  intros Hj. unfold area_at, drop_slot, rvfree.
  destruct (_ =? 0), file; simpl; by rewrite !list_lookup_total_insert_ne.
Qed.

Lemma abs_drop_slot s name i file :
  wf s → name ≠ ""%string → find_tag name s = Some i → abs (drop_slot i file s) = delete name (abs s).
Proof.
  intros W Hne Hf. destruct (find_tag_Some _ _ _ Hf) as [Hi Ht].
  assert (W' : wf (drop_slot i file s)).
  { apply wf_drop_slot; [done..|]. intros Ha. apply (wf_free s W) in Ha; [congruence | done]. }
  apply map_eq. intros nm. destruct (decide (nm = ""%string)) as [->|Hnm].
  { rewrite lookup_delete_ne by done. by rewrite !abs_lookup_empty. }
  rewrite abs_lookup by done. destruct (decide (nm = name)) as [->|Hn].
  - rewrite lookup_delete_eq. destruct (find_tag name (drop_slot i file s)) as [j|] eqn:E; [|done].
    apply find_tag_Some in E as [Hj Hjt]. rewrite drop_slot_tags in Hjt by done.
    destruct (decide (j = i)); [congruence|]. exfalso.
    assert (j = i) by (apply (wf_names s W); congruence). done.
  - rewrite lookup_delete_ne, abs_lookup by done. rewrite (find_tag_ext s) by
      (try done; intros j Hj; rewrite drop_slot_tags by done; destruct (decide (j = i)); naive_solver).
    destruct (find_tag nm s) as [j|] eqn:E; [|done]. simpl. rewrite drop_slot_area; [done|].
    intros ->. apply find_tag_Some in E as [_ ?]. congruence.
Qed.

Lemma abs_new_slot s name i size p :
  wf s → wf (new_slot i name size p s) → name ≠ ""%string → legal name → (i < MAX_AREAS)%nat →
  kmalloc_area s !!! i = 0 → find_tag name s = None →
  abs (new_slot i name size p s) = <[name := mkArea i p (u32 size) 1]> (abs s).
Proof.
  intros W W' Hne Hlen Hi Ha Hf.
  assert (Htag : ∀ j, mtag (new_slot i name size p s) !!! j = if decide (j = i) then name else mtag s !!! j).
  { intros j. rewrite <- lookup_total_insert by (rewrite (wf_tags s W); done).
    unfold new_slot, fill_slot, rvmalloc. rewrite copy_name_legal by done. by destruct (p =? 0). }
  assert (Hti : mtag s !!! i = ""%string) by (by apply (wf_free s W)).
  rewrite (abs_insert s (new_slot i name size p s) name i); try done.
  - f_equal. unfold area_at, new_slot, rvmalloc.
    destruct (p =? 0); simpl; rewrite !list_lookup_total_insert_eq; try done;
      rewrite ?(wf_areas s W), ?(wf_sizes s W), ?(wf_cnts s W); done.
  - apply find_tag_spec; [done..|]. split; [done|]. rewrite Htag. by rewrite decide_True.
  - intros nm Hn Hn'. apply find_tag_ext; [done..|]. intros j Hj. rewrite Htag.
    destruct (decide (j = i)); naive_solver.
  - intros j Hj. unfold area_at, new_slot, rvmalloc.
    destruct (p =? 0); simpl; by rewrite !list_lookup_total_insert_ne.
  - intros nm Hn Hn' [_ ?]%find_tag_Some. congruence.
Qed.

(** What a call does, against the contract. *)
Definition refined (res : option (Mbuf * Z)) (spec : option (Spec * Z)) : Prop :=
  match spec with
  | Some (m', r) => ∃ s', res = Some (s', r) ∧ wf s' ∧ view s' = m'
  | None => res = None
  end.

Lemma alloc_refines fill name size file p s :
  wf s → alloc_ok name size p s →
  refined (mbuf_allocate_area fill name size file p s) (spec_alloc fill name size file p (view s)).
Proof.
  intros W (Hleg & Hne & Hsz & Hv & Hwrap). unfold spec_alloc. cbn [view areas files].
  destruct (find_tag name s) as [i|] eqn:E.
  - destruct (find_tag_Some _ _ _ E) as [Hi Ht]. rewrite (alloc_found _ _ _ _ _ _ _ E).
    rewrite abs_lookup, E in * by done. simpl in Hwrap. specialize (Hwrap _ eq_refl). simpl in Hwrap.
    assert (Hc : 1 <= usage_cnt s !!! i < 2 ^ 32) by (apply (wf_refs s W); [done | congruence]).
    rewrite wrap_small by lia.
    assert (W' : wf (set_usage i (usage_cnt s !!! i + 1) s)) by (apply wf_set_usage; [done..|lia]).
    eexists. split_and!; [done | by apply wf_set_file|]. unfold view.
    rewrite abs_set_file, (abs_set_usage _ name) by done. by destruct file.
  - rewrite alloc_new, abs_lookup, E, free_slot_abs by done. simpl.
    destruct (find_free s) as [i|] eqn:Ef; [|by eexists].
    destruct (find_free_Some _ _ Ef) as [Hi Ha].
    destruct (Z.eqb_spec p 0) as [Hp|Hp]; [destruct (_ && _); [done | by eexists]|].
    assert (Hb : u64 size = u32 size ∧ u64 size = size).
    { destruct Hv as [|(_ & _ & ? & _)]; [done|]. apply u64_u32_size; [done | lia]. }
    assert (W' : wf (new_slot i name size p s)).
    { apply wf_new_slot; try done; [by apply copy_name_legal | intros j; by apply find_tag_None | lia]. }
    eexists. split_and!; [done | by apply wf_set_file|]. unfold view.
    rewrite abs_set_file, abs_new_slot by done. replace (u32 size) with size by lia.
    f_equal. unfold new_slot, fill_slot, rvmalloc. by destruct file, (p =? 0).
Qed.

(** On a positive size that the area, if there is one, has room for, the safe
    allocator is the other without filling. *)
Lemma alloc_safe_eq name size file p s :
  0 < size → (∀ i, find_tag name s = Some i → u32 size <= kmalloc_area_size s !!! i) →
  Some (mbuf_allocate_area_safe (Some name) size file p s) = mbuf_allocate_area false name size file p s.
Proof.
  intros Hsz Hroom. unfold mbuf_allocate_area_safe, allocate_area_safe, mbuf_allocate_area.
  destruct (Z.leb_spec size 0); [lia|]. destruct (find_tag name s) as [i|].
  - specialize (Hroom i eq_refl). destruct (Z.ltb_spec (kmalloc_area_size s !!! i) (u32 size)); [lia|].
    by rewrite (proj2 (Z.leb_le 0 (Z.of_nat i))), Nat2Z.id by lia.
  - destruct (find_free s) as [i|]; [|done]. cbn [andb]. destruct (_ =? 0); [done|].
    by rewrite (proj2 (Z.leb_le 0 (Z.of_nat i))), Nat2Z.id by lia.
Qed.

Lemma alloc_safe_refines name size file p s :
  wf s → (∀ nm, name = Some nm → alloc_ok nm size p s) →
  refined (Some (mbuf_allocate_area_safe name size file p s)) (spec_alloc_safe name size file p (view s)).
Proof.
  intros W Hok. destruct name as [name|]; [|by eexists]. specialize (Hok name eq_refl).
  pose proof Hok as (_ & Hne & Hsz & _). unfold spec_alloc_safe. cbn [view areas].
  rewrite abs_lookup by done. destruct (Z.leb_spec size 0) as [Hz|Hz].
  { unfold mbuf_allocate_area_safe. rewrite (proj2 (Z.leb_le _ _) Hz). by eexists. }
  assert (Hu : u32 size = size) by (apply wrap_small; lia). cbn [orb].
  destruct (find_tag name s) as [i|] eqn:E; cbn [fmap option_fmap option_map from_option area_at asize].
  - destruct (Z.ltb_spec (kmalloc_area_size s !!! i) size) as [Hlt|Hge].
    + unfold mbuf_allocate_area_safe, allocate_area_safe. rewrite E, Hu.
      destruct (Z.leb_spec size 0); [lia|]. rewrite (proj2 (Z.ltb_lt _ _) Hlt). by eexists.
    + rewrite alloc_safe_eq; [by apply alloc_refines | done|]. intros j [= <-]%(eq_trans (eq_sym E)). by rewrite Hu.
  - rewrite alloc_safe_eq; [by apply alloc_refines | done|]. congruence.
Qed.

Lemma release_refines name file s :
  wf s → name ≠ ""%string →
  ∃ s', mbuf_release_area name file s = (s', snd (spec_release name file (view s))) ∧ wf s' ∧
    view s' = fst (spec_release name file (view s)).
Proof.
  intros W Hne. unfold spec_release. cbn [view areas files]. rewrite abs_lookup by done.
  destruct (find_tag name s) as [i|] eqn:E; simpl; [|unfold mbuf_release_area; rewrite E; by eexists].
  destruct (find_tag_Some _ _ _ E) as [Hi Ht]. rewrite (release_found _ _ _ _ E) by done.
  pose proof (wf_refs s W i Hi) as Hc. rewrite Ht in Hc. specialize (Hc Hne).
  destruct (Z.eqb_spec (usage_cnt s !!! i) 1) as [H1|H1]; eexists; (split_and!; [done | |]).
  - apply wf_drop_slot; [done..|]. intros Ha. apply (wf_free s W) in Ha; [congruence | done].
  - unfold view. rewrite (abs_drop_slot _ name) by done. f_equal. unfold drop_slot, rvfree. by destruct file, (_ =? 0).
  - apply wf_set_usage; [done..|lia].
  - unfold view. rewrite (abs_set_usage _ name); [done | done | | done..]. apply wf_set_usage; [done..|lia].
Qed.

Lemma round_size_pages size : 0 <= size < 2 ^ 31 - PAGE_SIZE → s32 (round_size size) = pages size.
Proof.
  intros Hs. unfold round_size, pages, PAGE_SIZE in *.
  assert (Hm : 0 <= size mod 4096 < 4096) by (apply Z.mod_pos_bound; lia).
  assert (Hd : size = 4096 * (size / 4096) + size mod 4096) by (apply Z.div_mod; lia).
  rewrite (swrap_small 32 (size mod 4096)) by lia.
  destruct (Z.eqb_spec (size mod 4096) 0) as [E|E]; cbn [negb].
  - rewrite swrap_small by lia. replace ((size + (4096 - 1)) / 4096) with (size / 4096); [lia|].
    symmetry. rewrite (Z.div_unique (size + (4096 - 1)) 4096 (size / 4096) 4095); lia.
  - rewrite wrap_small by lia. rewrite swrap_small by lia.
    rewrite <- (Z.div_unique (size + (4096 - 1)) 4096 (size / 4096 + 1) (size mod 4096 - 1)); lia.
Qed.

Lemma ioctl_refines fill file cmd req p s :
  wf s → call_ok (Control file cmd req p) s →
  refined (mbuf_ioctl fill file cmd req p s) (spec_ioctl fill file cmd req p (view s)).
Proof.
  intros W Hok. destruct cmd, req as [[size name]|]; try by eexists.
  - destruct Hok as [Hsz Hok]. cbn [mbuf_ioctl spec_ioctl]. rewrite round_size_pages by done.
    pose proof (alloc_refines fill name (pages size) (Some file) p s W Hok) as Hr.
    pose proof Hok as (_ & Hne & _).
    assert (Hslot : ∀ m' r, spec_alloc fill name (pages size) (Some file) p (view s) = Some (m', r) → 0 <= r →
      ∃ a, areas m' !! name = Some a ∧ slot a = Z.to_nat r).
    { unfold spec_alloc. intros m' r. destruct (areas _ !! name) as [a|].
      - intros [= <- <-] _. eexists. cbn [areas]. rewrite lookup_insert_eq. split; [done|]. simpl. lia.
      - destruct (free_slot _) as [i|]; [|intros [= <- <-]; lia]. destruct (p =? 0).
        + destruct (_ && _); [done|]. intros [= <- <-]; lia.
        + intros [= <- <-] _. eexists. cbn [areas]. rewrite lookup_insert_eq. split; [done|]. simpl. lia. }
    destruct (spec_alloc _ _ _ _ _ _) as [[m' r]|] eqn:E; cbn [refined mbind option_bind] in *; [|by rewrite Hr].
    destruct Hr as (s' & -> & W' & <-). exists s'. destruct (Z.leb_spec 0 r) as [H0|H0]; [|done].
    destruct (Hslot _ _ eq_refl H0) as (a & Ha & Hsl). rewrite Ha. split_and!; [|done..].
    cbn [view areas] in Ha. rewrite abs_lookup in Ha by done.
    destruct (find_tag name s') as [i|]; [|done]. injection Ha as <-. simpl in *. by subst i.
  - cbn [mbuf_ioctl spec_ioctl]. destruct (release_refines name (Some file) s W Hok) as (s' & -> & W' & Hv).
    destruct (spec_release _ _ _) as [m' r] eqn:Es. cbn [refined fst snd] in *.
    exists s'. split_and!; [|done..].
    unfold spec_release in Es. destruct (_ !! _); by injection Es as <- <-.
Qed.

Lemma name_at_abs s i : wf s → (i < MAX_AREAS)%nat → mtag s !!! i ≠ ""%string → name_at i (abs s) = Some (mtag s !!! i).
Proof.
  intros W Hi Hne. unfold name_at.
  assert (Hin : ∀ nm a, (nm, a) ∈ map_to_list (abs s) → slot a = i → nm = mtag s !!! i).
  { intros nm a Ha%elem_of_map_to_list <-. destruct (decide (nm = ""%string)) as [->|Hn].
    { by rewrite abs_lookup_empty in Ha. }
    rewrite abs_lookup in Ha by done. destruct (find_tag nm s) as [j|] eqn:E; [|done].
    injection Ha as <-. by apply find_tag_Some in E as [_ <-]. }
  destruct (list_find _ _) as [[k [nm a]]|] eqn:E; simpl.
  - apply list_find_Some in E as (Hk & Hs & _). f_equal. apply (Hin nm a); [|done]. by eapply list_elem_of_lookup_2.
  - exfalso. apply list_find_None, Forall_forall with (x := (mtag s !!! i, area_at s i)) in E; [by apply E|].
    apply elem_of_map_to_list. by rewrite abs_lookup, find_tag_at.
Qed.

Lemma close_refines file s :
  wf s → stale (Close file) s = false → refined (Some (mbuf_release file s)) (Some (spec_close file (view s), 0)).
Proof.
  intros W Hst. unfold mbuf_release, spec_close. simpl in Hst. cbn [view areas files].
  destruct (private_data s !! file) as [i|]; cbn [mbind option_bind]; [|by eexists].
  case_bool_decide as Hi; [done|]. assert (Hne : mtag s !!! i ≠ ""%string) by tauto.
  rewrite name_at_abs by (done || lia). fold (view s).
  destruct (release_refines (mtag s !!! i) (Some file) s W Hne) as (s' & -> & W' & Hv).
  by exists s'.
Qed.

Lemma mbuf_step fill c s :
  wf s → call_ok c s → stale c s = false → refined (call fill c s) (spec_call fill c (view s)).
Proof.
  intros W Hok Hst. destruct c as [name size file p | name size file p | name file | file cmd req p | file].
  - by apply alloc_refines.
  - apply alloc_safe_refines; [done|]. intros nm ->. done.
  - destruct (release_refines name file s W Hok) as (s' & Hr & W' & Hv). unfold call, spec_call. rewrite Hr.
    destruct (spec_release name file (view s)). by exists s'.
  - by apply ioctl_refines.
  - by apply close_refines.
Qed.


(** A change of counts and sizes of free slots only. *)
Lemma wf_quiet s s' :
  wf s → kmalloc_area s' = kmalloc_area s → mtag s' = mtag s → heap s' = heap s →
  length (usage_cnt s') = MAX_AREAS → length (kmalloc_area_size s') = MAX_AREAS →
  (∀ i, (i < MAX_AREAS)%nat → mtag s !!! i ≠ ""%string →
    usage_cnt s' !!! i = usage_cnt s !!! i ∧ kmalloc_area_size s' !!! i = kmalloc_area_size s !!! i) →
  (∀ i, (i < MAX_AREAS)%nat → mtag s !!! i = ""%string → kmalloc_area_size s' !!! i = 0) →
  wf s' ∧ abs s' = abs s.
Proof.
  intros W Ea Et Eh Hc Hz Hi H0. assert (W' : wf s').
  { split; rewrite ?Ea, ?Et, ?Eh; try keep W; try done.
    - intros i H Hn. destruct (Hi i H Hn) as [-> _]. by apply (wf_refs s W).
    - intros p n. rewrite (wf_heap s W). split; intros (i & H & Hp & Ha & Hn); exists i; split_and!; try done;
        (destruct (Hi i H) as [_ E]; [rewrite (wf_free s W); [congruence | done] | congruence]). }
  split; [done|]. apply map_eq. intros nm. destruct (decide (nm = ""%string)) as [->|Hn].
  { by rewrite !abs_lookup_empty. }
  rewrite !abs_lookup by done. replace (find_tag nm s') with (find_tag nm s) by (unfold find_tag; by rewrite Et).
  destruct (find_tag nm s) as [j|] eqn:Ej; [|done]. apply find_tag_Some in Ej as [Hj Hjt].
  destruct (Hi j Hj) as [E1 E2]; [congruence|]. simpl. unfold area_at. by rewrite Ea, E1, E2.
Qed.

(** Releasing the empty name (a stale [private_data] can) touches a free slot only. *)
Lemma release_empty file s :
  wf s → wf (fst (mbuf_release_area "" file s)) ∧ abs (fst (mbuf_release_area "" file s)) = abs s.
Proof.
  intros W. unfold mbuf_release_area. destruct (find_tag "" s) as [i|] eqn:E; [|done].
  destruct (find_tag_Some _ _ _ E) as [Hi Ht]. assert (Ha : kmalloc_area s !!! i = 0) by (by apply (wf_free s W)).
  pose proof (wf_cnts s W) as Hlc. pose proof (wf_sizes s W) as Hls. pose proof (wf_nosize s W) as Hns.
  assert (Hc : ∀ n j, mtag s !!! j ≠ ""%string → <[i := n]> (usage_cnt s) !!! j = usage_cnt s !!! j).
  { intros n j Hj. rewrite list_lookup_total_insert_ne by congruence. done. }
  assert (Hz : ∀ j, mtag s !!! j ≠ ""%string → <[i := 0]> (kmalloc_area_size s) !!! j = kmalloc_area_size s !!! j).
  { intros j Hj. rewrite list_lookup_total_insert_ne by congruence. done. }
  destruct (_ <=? 0); cbn [fst]; (apply wf_quiet; [done|..]);
    unfold rvfree; destruct file; simpl; rewrite ?Ha; simpl;
    rewrite ?length_insert, ?list_insert_insert_eq, ?insert_same by done; auto.
  all: intros j Hj Htj; rewrite lookup_total_insert by (rewrite Hls; done);
    destruct (decide _); [done | by apply Hns].
Qed.

(** *** Histories *)
Fixpoint run (fill : bool) (cs : list Call) (s : Mbuf) : option Mbuf :=
  match cs with
  | [] => Some s
  | c :: cs => '(s', _) ← call fill c s; run fill cs s'
  end.
Fixpoint all_ok (fill : bool) (cs : list Call) (s : Mbuf) : Prop :=
  match cs with
  | [] => True
  | c :: cs => call_ok c s ∧ ∀ s' r, call fill c s = Some (s', r) → all_ok fill cs s'
  end.

(** What a call does to the references of an area in use: one more for an attach,
    one less for a release, a deallocation or the close of a file that is attached. *)
Definition change (name : string) (c : Call) (m : Spec) : Z :=
  let up nm := if bool_decide (nm = name) then 1 else 0 in
  match c with
  | Allocate nm _ _ _ => up nm
  | AllocateSafe (Some nm) size _ _ =>
      if (size <=? 0) || from_option (λ a, asize a <? size) false (areas m !! nm) then 0 else up nm
  | Control _ IOCTL_MBUF_ALLOCATE (Some (_, nm)) _ => up nm
  | Release nm _ | Control _ IOCTL_MBUF_DEALLOCATE (Some (_, nm)) _ => - up nm
  | Close f => from_option (λ nm, - up nm) 0 (files m !! f ≫= λ i, name_at i (areas m))
  | _ => 0
  end.

(** The count of an area that has [n] references, after the calls; no count when
    its last reference was dropped on the way. *)
Fixpoint balance (fill : bool) (name : string) (cs : list Call) (s : Mbuf) (n : Z) : option Z :=
  match cs with
  | [] => Some n
  | c :: cs =>
      let n := n + change name c (view s) in
      if n =? 0 then None
      else match call fill c s with Some (s', _) => balance fill name cs s' n | None => Some n end
  end.

(** An area of the map after [d] references more. *)
Definition changed (name : string) (d : Z) (a : Area) (m m' : gmap string Area) : Prop :=
  if refs a + d =? 0 then m' = delete name m else m' !! name = Some (add_refs d a).

Lemma changed_same name a m m' : 1 <= refs a → m !! name = Some a → m' !! name = m !! name → changed name 0 a m m'.
Proof.
  intros Hr Ha E. unfold changed. destruct (Z.eqb_spec (refs a + 0) 0); [lia|].
  rewrite E, Ha. unfold add_refs. rewrite Z.add_0_r. by destruct a.
Qed.

Lemma spec_alloc_changes fill nm bytes file p m m' r name a :
  spec_alloc fill nm bytes file p m = Some (m', r) → areas m !! name = Some a → 1 <= refs a →
  changed name (if bool_decide (nm = name) then 1 else 0) a (areas m) (areas m').
Proof.
  unfold spec_alloc. intros E Ha Hr. case_bool_decide as Hn.
  - subst nm. rewrite Ha in E. injection E as <- <-. unfold changed.
    destruct (Z.eqb_spec (refs a + 1) 0); [lia|]. apply lookup_insert_eq.
  - apply changed_same; [done..|]. destruct (areas m !! nm).
    + injection E as <- <-. by apply lookup_insert_ne.
    + destruct (free_slot _); [|congruence]. destruct (p =? 0); [destruct (_ && _); congruence|].
      injection E as <- <-. by apply lookup_insert_ne.
Qed.

Lemma spec_release_changes nm file m name a :
  areas m !! name = Some a → 1 <= refs a →
  changed name (- (if bool_decide (nm = name) then 1 else 0)) a (areas m) (areas (fst (spec_release nm file m))).
Proof.
  unfold spec_release. intros Ha Hr. case_bool_decide as Hn.
  - subst nm. rewrite Ha. unfold changed.
    destruct (Z.eqb_spec (refs a) 1), (Z.eqb_spec (refs a + - (1)) 0); try lia; [done | apply lookup_insert_eq].
  - apply changed_same; [done..|]. destruct (areas m !! nm); [|done].
    destruct (_ =? 1); [by apply lookup_delete_ne | by apply lookup_insert_ne].
Qed.

Lemma spec_call_changes fill c m m' r name a :
  spec_call fill c m = Some (m', r) → areas m !! name = Some a → 1 <= refs a →
  changed name (change name c m) a (areas m) (areas m').
Proof.
  intros E Ha Hr. destruct c as [nm size file p | [nm|] size file p | nm file | file cmd req p | file]; cbn [spec_call change] in *.
  - by eapply spec_alloc_changes.
  - unfold spec_alloc_safe in E. destruct (_ || _).
    + injection E as <- <-. by apply changed_same.
    + by eapply spec_alloc_changes.
  - injection E as <- <-. by apply changed_same.
  - injection E as E. change m' with (fst (m', r)). rewrite <- E. by apply spec_release_changes.
  - destruct cmd, req as [[size nm]|]; cbn [spec_ioctl] in E;
      try (injection E as <- <-; by apply changed_same).
    + destruct (spec_alloc _ _ _ _ _ _) as [[m1 r1]|] eqn:E1; [|done]. injection E as <- <-.
      by eapply spec_alloc_changes.
    + pose proof (spec_release_changes nm (Some file) m name a Ha Hr) as Hc.
      destruct (spec_release nm (Some file) m). by injection E as <- <-.
  - injection E as <- <-. unfold spec_close. destruct (_ ≫= _) as [nm|]; simpl.
    + by apply spec_release_changes.
    + by apply changed_same.
Qed.

Lemma name_at_free s i : wf s → mtag s !!! i = ""%string ∨ (MAX_AREAS <= i)%nat → name_at i (abs s) = None.
Proof.
  intros W Hi. unfold name_at. destruct (list_find _ _) as [[k [nm a]]|] eqn:E; [|done]. exfalso.
  apply list_find_Some in E as (Hk & Hs & _). simpl in Hs. subst i.
  assert (Hin : slot a ∈ slots (abs s)).
  { apply list_elem_of_fmap. exists (nm, a). split; [done | by eapply list_elem_of_lookup_2]. }
  apply elem_of_slots in Hin; [|done]. destruct Hi; [tauto | lia].
Qed.

(** The blocks of memory are those of the areas of the map. *)
Lemma heap_abs s p n : wf s → heap s !! p = Some n ↔ ∃ nm a, abs s !! nm = Some a ∧ addr a = p ∧ asize a = n.
Proof.
  intros W. rewrite (wf_heap s W). split.
  - intros (i & Hi & Hp & Ha & Hn). exists (mtag s !!! i), (area_at s i).
    assert (mtag s !!! i ≠ ""%string) by (rewrite (wf_free s W); [congruence | done]).
    by rewrite abs_lookup, find_tag_at.
  - intros (nm & a & Ha & <- & <-). destruct (decide (nm = ""%string)) as [->|Hne].
    { by rewrite abs_lookup_empty in Ha. }
    rewrite abs_lookup in Ha by done. destruct (find_tag nm s) as [i|] eqn:E; [|done].
    injection Ha as <-. apply find_tag_Some in E as [Hi Ht]. exists i. split_and!; try done.
    simpl. intros E%(wf_free s W); [congruence | done].
Qed.

Lemma area_refs s name a : wf s → abs s !! name = Some a → 1 <= refs a.
Proof.
  intros W Ha. destruct (decide (name = ""%string)) as [->|Hne]; [by rewrite abs_lookup_empty in Ha|].
  rewrite abs_lookup in Ha by done. destruct (find_tag name s) as [i|] eqn:E; [|done].
  injection Ha as <-. apply find_tag_Some in E as [Hi Ht]. apply (wf_refs s W); congruence.
Qed.

Lemma area_addr_inj s nm nm' a a' :
  wf s → abs s !! nm = Some a → abs s !! nm' = Some a' → addr a = addr a' → nm = nm'.
Proof.
  intros W Ha Ha'. assert (Hat : ∀ nm a, abs s !! nm = Some a →
    ∃ i, (i < MAX_AREAS)%nat ∧ mtag s !!! i = nm ∧ nm ≠ ""%string ∧ addr a = kmalloc_area s !!! i).
  { intros n b Hb. destruct (decide (n = ""%string)) as [->|Hne]; [by rewrite abs_lookup_empty in Hb|].
    rewrite abs_lookup in Hb by done. destruct (find_tag n s) as [i|] eqn:E; [|done].
    injection Hb as <-. apply find_tag_Some in E as [Hi Ht]. by exists i. }
  destruct (Hat _ _ Ha) as (i & Hi & <- & Hne & ->), (Hat _ _ Ha') as (j & Hj & <- & Hne' & ->).
  intros E. f_equal. apply (wf_addrs s W); try done. intros E0%(wf_free s W); done.
Qed.

Lemma call_changes fill c s s' r name a :
  wf s → call_ok c s → abs s !! name = Some a → call fill c s = Some (s', r) →
  wf s' ∧ changed name (change name c (view s)) a (abs s) (abs s').
Proof.
  intros W Hok Ha E. pose proof (area_refs s name a W Ha) as Hr. destruct (stale c s) eqn:Hst.
  - destruct c as [| | | |f]; try done. simpl in Hst, E. injection E as E.
    apply (f_equal fst) in E. unfold mbuf_release in E. cbn [change view files areas].
    destruct (private_data s !! f) as [i|]; [|done]. apply bool_decide_eq_true in Hst.
    cbn [mbind option_bind]. rewrite name_at_free by done. cbn [from_option].
    assert (Ht : mtag s !!! i = ""%string).
    { destruct Hst as [|Hi]; [done|]. by rewrite list_lookup_total_alt, lookup_ge_None_2 by (by rewrite (wf_tags s W)). }
    rewrite Ht in E. destruct (release_empty (Some f) s W) as [W' E']. cbn [fst] in E. rewrite E in W', E'.
    split; [done|]. rewrite E'. by apply changed_same.
  - pose proof (mbuf_step fill c s W Hok Hst) as Hs. unfold refined in Hs.
    destruct (spec_call fill c (view s)) as [[m' r']|] eqn:Es; [|congruence].
    destruct Hs as (s1 & E1 & W1 & <-). rewrite E in E1. injection E1 as <- <-.
    split; [done|]. by apply (spec_call_changes fill c (view s) (view s') r).
Qed.

Lemma freed s s' name a :
  wf s → wf s' → abs s !! name = Some a → abs s' = delete name (abs s) → heap s' !! addr a = None.
Proof.
  intros W W' Ha E. destruct (heap s' !! addr a) as [n|] eqn:Eh; [|done]. exfalso.
  apply heap_abs in Eh as (nm & b & Hb & Hab & _); [|done]. rewrite E in Hb.
  apply lookup_delete_Some in Hb as [Hne Hb]. by apply Hne, (area_addr_inj s name nm a b).
Qed.

(** C30: an area lives exactly as long as references to it are left.  Whatever is
    called, controlled and closed, in whatever order and by whomever, an area
    keeps its index, its address and its size, its memory is not freed, and its
    count is what it was plus the attaches less the drops since; and when the
    count reaches zero the name is free and so is the memory.  Asked of every
    call are the arguments of [mbuf_refines]. *)
Theorem area_kept (fill : bool) (cs : list Call) (s s' : Mbuf) (name : string) (a : Area) :
  wf s → abs s !! name = Some a → all_ok fill cs s → run fill cs s = Some s' →
  match balance fill name cs s (refs a) with
  | Some n => abs s' !! name = Some (mkArea (slot a) (addr a) (asize a) n) ∧ heap s' !! addr a = Some (asize a)
  | None => ∃ cs1 cs2 s1, cs = cs1 ++ cs2 ∧ run fill cs1 s = Some s1 ∧ abs s1 !! name = None ∧ heap s1 !! addr a = None
  end.
Proof.
  revert s a. induction cs as [|c cs IH]; intros s a W Ha Hok E; simpl in *.
  - injection E as <-. split; [rewrite Ha; by destruct a|]. apply heap_abs; [done|]. by exists name, a.
  - destruct Hok as [Hok Hoks]. destruct (call fill c s) as [[s1 r]|] eqn:Ec; [|done]. simpl in E.
    destruct (call_changes fill c s s1 r name a W Hok Ha Ec) as [W1 Hc]. unfold changed in Hc.
    destruct (_ =? 0).
    + exists [c], cs, s1. split_and!; [done | simpl; by rewrite Ec | rewrite Hc; by rewrite lookup_delete_eq|].
      by apply (freed s s1 name a).
    + specialize (IH s1 _ W1 Hc (Hoks _ _ eq_refl) E). simpl in IH.
      destruct (balance fill name cs s1 _); [done|].
      destruct IH as (cs1 & cs2 & s2 & -> & Hrun & Hn). exists (c :: cs1), cs2, s2.
      split_and!; [done | simpl; by rewrite Ec | apply Hn..].
Qed.

(** ** Mappings *)

(** The block of memory of an area in use. *)
Lemma area_block s i :
  wf s → (i < MAX_AREAS)%nat → mtag s !!! i ≠ ""%string →
  heap s !! (kmalloc_area s !!! i) = Some (kmalloc_area_size s !!! i) ∧ kmalloc_area s !!! i mod PAGE_SIZE = 0 ∧
  0 < kmalloc_area s !!! i ∧ 0 < kmalloc_area_size s !!! i ∧ kmalloc_area s !!! i + kmalloc_area_size s !!! i <= 2 ^ 64.
Proof.
  intros W Hi Hne. assert (Hh : heap s !! (kmalloc_area s !!! i) = Some (kmalloc_area_size s !!! i)).
  { apply (wf_heap s W). exists i. split_and!; try done. intros E%(wf_free s W); done. }
  split; [done|]. by apply (wf_block s W) in Hh.
Qed.

(** what a process maps is memory of the area its file is attached to,
    provided the offset asked for does not wrap around. *)
Theorem mapping_within_area (file : nat) (start length pgoff : Z) (s : Mbuf) (pos len : Z) :
  wf s → 0 < length → 0 <= pgoff → pgoff * PAGE_SIZE + length < 2 ^ 64 →
  mbuf_mmap file start length pgoff s = Mapped pos len →
  ∃ j a, private_data s !! file = Some j ∧
    abs s !! (mtag s !!! j) = Some a ∧
    pos = addr a ∧ len = length ∧ pos + len <= addr a + asize a ∧ heap s !! addr a = Some (asize a).
Proof.
  intros W Hlen Hoff Hwrap. unfold mbuf_mmap. destruct (private_data s !! file) as [j|]; [|done].
  destruct (find_tag (mtag s !!! j) s) as [i|] eqn:E; [|done].
  destruct (find_tag_Some _ _ _ E) as [Hi Ht]. unfold mmap_kmem.
  destruct (Z.ltb_spec (kmalloc_area_size s !!! i) length) as [|Hsz]; [done|].
  assert (Hne : mtag s !!! i ≠ ""%string) by (intros Hn; rewrite (wf_nosize s W) in Hsz by done; lia).
  destruct (area_block s i W Hi Hne) as (Hh & Hpg & Hp0 & Hn0 & Htop).
  unfold rvmmap. destruct (Z.ltb_spec ((2 ^ 64 - 1) / PAGE_SIZE) pgoff); [done|].
  unfold PAGE_SIZE in *. rewrite !(wrap_small 64 (pgoff * 4096)) by lia.
  rewrite (wrap_small 64 (length + _)) by lia.
  destruct (Z.ltb_spec length (length + pgoff * 4096)) as [|Hz]; [done|].
  assert (pgoff = 0) as -> by lia. rewrite wrap_small by lia.
  destruct (_ || _); [done|]. intros [= <- <-].
  exists j, (area_at s i). rewrite abs_lookup by congruence. rewrite E. simpl. split_and!; try done; lia.
Qed.

(** with the last page offset the sum in [rvmmap] wraps around, its bound
    is passed, and the page in front of the area is mapped. *)
Theorem mapping_below_area (file j : nat) (start : Z) (s : Mbuf) (a : Area) :
  wf s → private_data s !! file = Some j → mtag s !!! j ≠ ""%string → abs s !! (mtag s !!! j) = Some a →
  start mod PAGE_SIZE = 0 → PAGE_SIZE <= asize a → PAGE_SIZE < addr a →
  mbuf_mmap file start PAGE_SIZE (2 ^ 52 - 1) s = Mapped (addr a - PAGE_SIZE) PAGE_SIZE.
Proof.
  intros W Hf Hne Ha Hstart Hsz Hlow. unfold mbuf_mmap. rewrite Hf.
  rewrite abs_lookup in Ha by done. destruct (find_tag (mtag s !!! j) s) as [i|] eqn:E; [|done].
  injection Ha as <-. simpl in Hsz, Hlow. destruct (find_tag_Some _ _ _ E) as [Hi Ht].
  destruct (area_block s i W Hi) as (Hh & Hpg & Hp0 & Hn0 & Htop); [congruence|].
  unfold mmap_kmem. destruct (Z.ltb_spec (kmalloc_area_size s !!! i) PAGE_SIZE); [lia|].
  unfold rvmmap, PAGE_SIZE in *. change (u64 ((2 ^ 52 - 1) * 4096)) with (2 ^ 64 - 4096).
  change (u64 (4096 + (2 ^ 64 - 4096))) with 0. change ((2 ^ 64 - 1) / 4096 <? 2 ^ 52 - 1) with false.
  change (4096 <? 0) with false. cbn match. simpl addr.
  assert (Hpos : u64 (kmalloc_area s !!! i + (2 ^ 64 - 4096)) = kmalloc_area s !!! i - 4096).
  { unfold wrap. replace (kmalloc_area s !!! i + (2 ^ 64 - 4096)) with (kmalloc_area s !!! i - 4096 + 1 * 2 ^ 64) by lia.
    rewrite Z.mod_add, Z.mod_small; lia. }
  rewrite Hpos, Hstart. replace ((kmalloc_area s !!! i - 4096) mod 4096) with 0; [done|].
  replace (kmalloc_area s !!! i - 4096) with (kmalloc_area s !!! i + (-1) * 4096) by lia.
  by rewrite Z.mod_add.
Qed.

(** ** References dropped twice *)

(** giving an area back and then closing the file drops two references for
    one: an area that another file has attached, and mapped, is freed. *)
Theorem close_after_deallocate (f g i : nat) (size bytes p : Z) (name : string) (s : Mbuf) (a : Area) :
  wf s → name ≠ ""%string → abs s !! name = Some a → refs a = 1 → f ≠ g →
  private_data s !! g = Some i → mtag s !!! i = name → (i < MAX_AREAS)%nat →
  ∃ s1 s2,
    mbuf_ioctl false f IOCTL_MBUF_ALLOCATE (Some (size, name)) p s = Some (s1, asize a) ∧
    mbuf_ioctl false f IOCTL_MBUF_DEALLOCATE (Some (bytes, name)) 0 s1 = Some (s2, 0) ∧
    let s3 := fst (mbuf_release f s2) in
    abs s3 !! name = None ∧ heap s3 !! addr a = None ∧ private_data s3 !! g = Some i.
Proof.
  intros W Hne Ha Hr Hfg Hg Ht Hi.
  assert (E : find_tag name s = Some i) by (by apply find_tag_spec).
  rewrite abs_lookup, E in Ha by done. injection Ha as <-. simpl in Hr.
  assert (Hl : (i < length (usage_cnt s))%nat) by (rewrite (wf_cnts s W); done).
  set (s1 := set_file (Some f) (Some i) (set_usage i 2 s)).
  assert (W1 : wf s1) by (apply wf_set_file, wf_set_usage; [done..|lia]).
  assert (E1 : find_tag name s1 = Some i) by (by apply find_tag_spec).
  set (s2 := set_usage i 1 s1). assert (W2 : wf s2) by (apply wf_set_usage; [done..|lia]).
  assert (E2 : find_tag name s2 = Some i) by (by apply find_tag_spec).
  exists s1, s2. split_and!.
  - cbn [mbuf_ioctl]. rewrite (alloc_found _ _ _ _ _ _ _ E), Hr. change (u32 (1 + 1)) with 2.
    fold s1. rewrite Nat2Z.id. destruct (Z.leb_spec 0 (Z.of_nat i)); [done | lia].
  - cbn [mbuf_ioctl]. rewrite (release_found _ _ _ _ E1) by done.
    change (usage_cnt s1) with (<[i := 2]> (usage_cnt s)). by rewrite list_lookup_total_insert_eq.
  - unfold mbuf_release. assert (Hp : private_data s2 !! f = Some i) by (simpl; by rewrite lookup_partial_alter_eq).
    rewrite Hp. change (mtag s2 !!! i) with (mtag s !!! i). rewrite Ht.
    rewrite (release_found _ _ _ _ E2) by done.
    change (usage_cnt s2) with (<[i := 1]> (<[i := 2]> (usage_cnt s))).
    rewrite list_lookup_total_insert_eq by (by rewrite length_insert). cbn [fst Z.eqb Pos.eqb].
    rewrite (abs_drop_slot s2 name i) by done. split_and!; [by rewrite lookup_delete_eq | |].
    + destruct (area_block s i W Hi) as (_ & _ & Hp0 & _ & _); [congruence|].
      unfold drop_slot, rvfree. cbn. destruct (Z.eqb_spec (kmalloc_area s !!! i) 0); [lia|].
      cbn. by rewrite lookup_delete_eq.
    + unfold drop_slot, rvfree. cbn. destruct (_ =? 0); cbn; by rewrite !lookup_partial_alter_ne.
Qed.

(** ** A concrete state: file 1 holds the one reference to area [ipc] *)
Lemma wf_init : wf mbuf_init.
Proof.
  assert (Hr : ∀ {A} `{Inhabited A} (x : A) i, (i < MAX_AREAS)%nat → replicate MAX_AREAS x !!! i = x).
  { intros A HA x i Hi. by apply list_lookup_total_correct, lookup_replicate_2. }
  split; cbn [mbuf_init kmalloc_area mtag usage_cnt kmalloc_area_size heap]; try done.
  all: try (intros; rewrite !Hr in *; done).
  intros p n. rewrite lookup_empty. split; [done|]. intros (i & Hi & Hp & Ha & _). rewrite Hr in Ha; congruence.
Qed.

Definition demo : Mbuf := default mbuf_init (fst <$> mbuf_allocate_area false "ipc" 8192 (Some 1%nat) 16384 mbuf_init).

Lemma vmalloc_demo : vmalloc_ok 8192 16384 mbuf_init.
Proof. right. split_and!; vm_compute; done. Qed.

Lemma demo_ok : alloc_ok "ipc" 8192 16384 mbuf_init.
Proof. split_and!; [vm_compute; lia | done | lia | lia | apply vmalloc_demo|]. intros a Ha. by vm_compute in Ha. Qed.

Lemma wf_demo : wf demo.
Proof.
  destruct (mbuf_step false (Allocate "ipc" 8192 (Some 1%nat) 16384) mbuf_init wf_init demo_ok eq_refl) as (s' & E & W & _).
  unfold demo. cbn [call] in E. by rewrite E.
Qed.




(** A second user that attaches and goes, between them a file that is closed. *)
Definition visit : list Call :=
  [Control 2 IOCTL_MBUF_ALLOCATE (Some (4000, "ipc"%string)) 0; Close 3; Control 2 IOCTL_MBUF_DEALLOCATE (Some (0, "ipc"%string)) 0].

Lemma visit_ok : all_ok false visit demo.
Proof.
  split; [|intros s1 r1 [= <- <-]; split; [done|]; intros s2 r2 [= <- <-]; done].
  split; [unfold PAGE_SIZE; lia|].
  split_and!; [vm_compute; lia | done | vm_compute; done | vm_compute; done | by left|].
  intros a Ha. vm_compute in Ha. injection Ha as <-. simpl. lia.
Qed.

Lemma area_kept_witness :
  ∃ s', run false visit demo = Some s' ∧ abs s' !! "ipc"%string = Some (mkArea 0 16384 8192 1) ∧
    heap s' !! 16384 = Some 8192.
Proof.
  destruct (run false visit demo) as [s'|] eqn:E; [|by vm_compute in E]. exists s'. split; [done|].
  exact (area_kept false visit demo s' "ipc" (mkArea 0 16384 8192 1) wf_demo eq_refl visit_ok E).
Defined.

Lemma mapping_within_area_witness :
  ∃ j a, private_data demo !! 1%nat = Some j ∧ abs demo !! (mtag demo !!! j) = Some a ∧
    16384 = addr a ∧ 4096 = 4096 ∧ 16384 + 4096 <= addr a + asize a ∧ heap demo !! addr a = Some (asize a).
Proof.
  apply (mapping_within_area 1 0 4096 0 demo 16384 4096 wf_demo); [lia | lia | vm_compute; done | by vm_compute].
Defined.

Lemma mapping_below_area_witness : mbuf_mmap 1 0 PAGE_SIZE (2 ^ 52 - 1) demo = Mapped (16384 - PAGE_SIZE) PAGE_SIZE.
Proof.
  apply (mapping_below_area 1 0 0 demo (mkArea 0 16384 8192 1) wf_demo); by vm_compute.
Defined.

Lemma close_after_deallocate_witness :
  ∃ s1 s2,
    mbuf_ioctl false 2 IOCTL_MBUF_ALLOCATE (Some (8192, "ipc"%string)) 0 demo = Some (s1, 8192) ∧
    mbuf_ioctl false 2 IOCTL_MBUF_DEALLOCATE (Some (0, "ipc"%string)) 0 s1 = Some (s2, 0) ∧
    let s3 := fst (mbuf_release 2 s2) in
    abs s3 !! "ipc"%string = None ∧ heap s3 !! 16384 = None ∧ private_data s3 !! 1%nat = Some 0%nat.
Proof.
  apply (close_after_deallocate 2 1 0 8192 0 0 "ipc" demo (mkArea 0 16384 8192 1) wf_demo);
    first [done | by vm_compute | unfold MAX_AREAS; lia].
Defined.
End Mbuf.
