(* ===== verification/SdfText.v ===== *)
(** * Set point files: words and lines ([src/epics/seq/main.c])

    The set point monitor saves the settings of a model in text files of BURT's
    format, one setting per line, and reads them back.

    - [parseLine]: the splitting of a line in up to six words, with quotes;
      [encodeBURTString]: the quoting of a string setting;
    - [isAlarmChannel], and the conversions of filter switch settings to a bit
      mask and to a text;
    - theorems: what is encoded is read back, in the place it was written; the
      texts of switch settings tell settings apart, and what happens for none. *)
From Stdlib Require Import String Ascii.
From stdpp Require Import strings.
From S2P Require Import Prelude CText Crc CFile.
Export CText CFile.

Module SdfText.

Definition isAlarmChannel (chname : option string) : bool :=
  match chname with
  | None => false
  | Some s => strstr s ".HIGH" || strstr s ".HIHI" || strstr s ".LOW" || strstr s ".LOLO" ||
              strstr s ".HSV" || strstr s ".OSV" || strstr s ".ZSV" || strstr s ".LSV"
  end.

(** ** Splitting a line *)

(** The variables of [parseLine]: the buffers [out[0..5]], each up to its first
    NUL, and the counters. *)
Record PL := mkPL { words : list string; wc : nat; cursize : nat; lastwasspace : bool }.

(** [strncat(out[wc], s, 1)] when there is room. *)
Definition put_char (bufSize : nat) (c : ascii) (st : PL) : PL :=
  if (cursize st <? bufSize)%nat
  then mkPL (alter (λ w, w ++ String c "")%string (wc st) (words st)) (wc st) (S (cursize st)) (lastwasspace st)
  else st.
(** [out[wc][bufSize - 1] = 0]. *)
Definition terminate (bufSize : nat) (st : PL) : PL :=
  mkPL (alter (String.substring 0 (bufSize - 1)) (wc st) (words st)) (wc st) (cursize st) (lastwasspace st).

(** How far [lastquote] is: the last quote of the line, else its end. *)
Fixpoint scan_quote (s : string) (pos : nat) (last : option nat) : nat :=
  match s with
  | EmptyString => default pos last
  | String c s' =>
      if bool_decide (c = NL) then default pos last
      else scan_quote s' (S pos) (if bool_decide (c = DQUOTE) then Some pos else last)
  end.

(** The loop over the line.  [mode] is [None] at the head of the loop and
    [Some n] inside a quoted word, [n] characters before [lastquote]. *)
Fixpoint parse_go (bufSize : nat) (s : string) (mode : option nat) (st : PL) : PL :=
  match mode, s with
  | None, EmptyString => st
  | None, String c s' =>
      if bool_decide (c = NL) then st
      else if bool_decide (c = SPACE) || bool_decide (c = TAB) then
        let st := terminate bufSize st in
        if lastwasspace st then parse_go bufSize s' None (mkPL (words st) (wc st) 0 true)
        else if (S (wc st) =? 6)%nat then mkPL (words st) 6 (cursize st) false
        else parse_go bufSize s' None (mkPL (words st) (S (wc st)) 0 true)
      else if bool_decide (c ≠ DQUOTE) || negb (lastwasspace st) then
        let st := put_char bufSize c st in
        parse_go bufSize s' None (mkPL (words st) (wc st) (cursize st) false)
      else parse_go bufSize s' (Some (scan_quote s' 0 None)) st
  | Some (S n), String c s' => parse_go bufSize s' (Some n) (put_char bufSize c st)
  | Some _, _ =>
      let st := mkPL (words st) (S (wc st)) (cursize st) true in
      match s with
      | EmptyString => st
      | String c s' => if bool_decide (c = NL) || (wc st =? 6)%nat then st else parse_go bufSize s' None st
      end
  end.

Definition unzero (w : string) : string := if bool_decide (w = "\0"%string) then ""%string else w.

(** Returns the words and their number. *)
Definition parseLine (s : string) (bufSize : nat) : list string * Z :=
  let st := parse_go bufSize s None (mkPL (replicate 6 ""%string) 0 0 false) in
  let st := if (wc st <? 6)%nat && negb (bool_decide (words st !!! wc st = ""%string))
            then let st := terminate bufSize st in mkPL (words st) (S (wc st)) (cursize st) (lastwasspace st)
            else st in
  (map unzero (words st), Z.of_nat (wc st)).

(** [dest] after the call; [dest_size] is the size of the buffer. *)
Definition is_blank (c : ascii) : bool :=
  bool_decide (c = SPACE) || bool_decide (c = TAB) || bool_decide (c = NL) || bool_decide (c = DQUOTE).
Definition quote (s : string) : string := String DQUOTE (s ++ String DQUOTE "").
Definition encodeBURTString (src : string) (dest_size : nat) : string :=
  if (dest_size <? String.length src + 3)%nat then ""
  else if bool_decide (src = ""%string) then "\0"
  else if any_char is_blank src then quote src
  else src.

(** ** Switch settings *)
Definition fltrConst : list Z :=
  [16; 64; 256; 1024; 4096; 16384; 65536; 262144; 1048576; 4194304;
   0x4; 0x8; 0x4000000; 0x1000000; 0x1; 0x2000000; 0x8000000].

Definition filtCtrlBitConvert (v : Z) : Z :=
  for_n 17 (λ i val, if truthy (Z.land (u32 v) (fltrConst !!! i)) then Z.lor val (Z.shiftl 1 (Z.of_nat i)) else val) 0.

Definition bitDefShort : list string :=
  ["IN,"; "OF,"; "1,"; "2,"; "3,"; "4,"; "5,"; "6,"; "7,"; "8,"; "9,"; "10,"; "LT,"; "OT,"; "DC,"; "HD,"]%string.
Definition bitDefLong : list string :=
  ["IN,"; "OF,"; "F1,"; "F2,"; "F3,"; "F4,"; "F5,"; "F6,"; "F7,"; "F8,"; "F9,"; "F10,"; "LT,"; "OT,"; "DC,"; "HD,"]%string.

(** [x]: the switches in the order they are shown. *)
Definition display_bits (v : Z) : Z :=
  u32 (Z.land (Z.shiftr v 10) 3 + Z.shiftl (Z.land v 1023) 2 + Z.shiftr (Z.land v 0x2000) 1 +
       u32 (Z.shiftl (Z.land v 0x1000) 1) + Z.shiftr (Z.land v 0x18000) 1).

Definition switch_names (stype : Z) (x : Z) : string :=
  snd (for_n 16 (λ jj '(x, s),
    (Z.shiftr x 1,
     let s := if Z.odd x && (stype =? 0) then (s ++ bitDefShort !!! jj)%string else s in
     if Z.odd x && (stype =? 1) then (s ++ bitDefLong !!! jj)%string else s)) (x, ""%string)).

(** No result: there is no last character to cut, and the store goes to the
    byte in front of the buffer. *)
Definition filtStrBitConvert (stype v : Z) : option string :=
  let s := switch_names stype (display_bits (u32 v)) in
  if bool_decide (s = ""%string) then None else Some (String.substring 0 (String.length s - 1) s).

(** ** Reading back what was written *)

(** A word of a line that needs no quotes. *)
Definition plain (c : ascii) : bool :=
  negb (bool_decide (c = NL) || bool_decide (c = SPACE) || bool_decide (c = TAB)).
(** The state after the word [w] was added to the current one. *)
Definition add_word (w : string) (st : PL) : PL :=
  mkPL (alter (λ u, u +:+ w)%string (wc st) (words st)) (wc st) (cursize st + String.length w) (lastwasspace st).

Lemma add_word_cons c w st : add_word w (add_word (String c "") st) = add_word (String c w) st.
Proof.
  unfold add_word. simpl. f_equal; [|lia]. rewrite list_alter_alter_eq. apply list_alter_ext; [|done].
  intros u _. unfold compose. by rewrite str_app_assoc.
Qed.

Lemma put_char_room b c st : (cursize st < b)%nat → put_char b c st = add_word (String c "") st.
Proof.
  intros Hr. unfold put_char. destruct (Nat.ltb_spec (cursize st) b); [|lia]. unfold add_word. simpl. f_equal. lia.
Qed.

Lemma go_plain_more b w rest st :
  all_chars plain w → lastwasspace st = false → (cursize st + String.length w <= b)%nat →
  parse_go b (w +:+ rest)%string None st = parse_go b rest None (add_word w st).
Proof.
  revert st. induction w as [|c w IH]; intros st Hw Hs Hr.
  - unfold add_word. simpl. destruct st as [ws k n l]. simpl in *. rewrite Nat.add_0_r. f_equal. f_equal.
    rewrite <- (list_alter_id id ws k) at 1 by done. apply list_alter_ext; [|done]. intros u _. by rewrite str_app_nil.
  - rewrite str_app_cons. rewrite all_chars_cons in Hw. apply andb_prop_elim in Hw as [Hc Hw]. simpl in Hr.
    cbn [parse_go]. unfold plain in Hc.
    destruct (bool_decide (c = NL)), (bool_decide (c = SPACE)), (bool_decide (c = TAB)); try done. cbn [orb].
    rewrite Hs, orb_true_r, put_char_room by lia. cbn [negb].
    rewrite IH; [|done | done | simpl; lia]. rewrite <- (add_word_cons c w st). destruct st. simpl in *. by subst.
Qed.

(** A plain word that does not begin with a quote, in any state. *)
Lemma go_plain b w rest st :
  all_chars plain w → w ≠ ""%string → (lastwasspace st → head w ≠ Some DQUOTE) →
  (cursize st + String.length w <= b)%nat →
  parse_go b (w +:+ rest)%string None st =
  parse_go b rest None (mkPL (words (add_word w st)) (wc st) (cursize st + String.length w) false).
Proof.
  destruct w as [|c w]; [done|]. intros Hw _ Hq Hr. rewrite str_app_cons. rewrite all_chars_cons in Hw.
  apply andb_prop_elim in Hw as [Hc Hw]. simpl in Hr, Hq. cbn [parse_go]. unfold plain in Hc.
  destruct (bool_decide (c = NL)), (bool_decide (c = SPACE)), (bool_decide (c = TAB)); try done. cbn [orb].
  assert (Hd : bool_decide (c ≠ DQUOTE) || negb (lastwasspace st) = true).
  { destruct (lastwasspace st); [|by rewrite orb_true_r]. rewrite bool_decide_true; [done|]. intros ->. by apply Hq. }
  rewrite Hd, put_char_room by lia. rewrite go_plain_more; [|done | done | simpl; lia].
  rewrite <- (add_word_cons c w st). unfold add_word. simpl. do 2 f_equal. lia.
Qed.

(** Inside quotes. *)
Definition no_quote (s : string) : bool := all_chars (λ c, negb (bool_decide (c = DQUOTE))) s.

Lemma scan_no_quote s p l : no_quote s → scan_quote s p (Some l) = l.
Proof.
  revert p. induction s as [|c s IH]; intros p H; [done|]. unfold no_quote in H. rewrite all_chars_cons in H.
  apply andb_prop_elim in H as [Hc H]. simpl. destruct (bool_decide (c = NL)); [done|].
  destruct (bool_decide (c = DQUOTE)); [done | by apply IH].
Qed.

Lemma scan_quoted s rest p l :
  one_line s → no_quote rest → scan_quote (s +:+ String DQUOTE rest)%string p l = (p + String.length s)%nat.
Proof.
  revert p l. induction s as [|c s IH]; intros p l H Hr.
  - simpl. rewrite scan_no_quote by done. lia.
  - unfold one_line in H. rewrite all_chars_cons in H. apply andb_prop_elim in H as [Hc H].
    rewrite str_app_cons. simpl. destruct (bool_decide (c = NL)); [done|]. rewrite IH by done. lia.
Qed.

Lemma go_copy b s rest st :
  (cursize st + String.length s <= b)%nat →
  parse_go b (s +:+ rest)%string (Some (String.length s)) st = parse_go b rest (Some 0%nat) (add_word s st).
Proof.
  revert st. induction s as [|c s IH]; intros st Hr.
  - unfold add_word. simpl. destruct st as [ws k n l]. simpl in *. rewrite Nat.add_0_r. f_equal. f_equal.
    rewrite <- (list_alter_id id ws k) at 1 by done. apply list_alter_ext; [|done]. intros u _. by rewrite str_app_nil.
  - simpl in Hr. rewrite str_app_cons. cbn [String.length parse_go]. rewrite put_char_room by lia.
    rewrite IH by (simpl; lia). by rewrite add_word_cons.
Qed.

Lemma go_quoted b s rest st :
  one_line s → no_quote rest → lastwasspace st = true → (cursize st + String.length s <= b)%nat → (wc st < 5)%nat →
  parse_go b (quote s +:+ rest)%string None st =
  parse_go b rest None (mkPL (words (add_word s st)) (S (wc st)) (cursize st + String.length s) true).
Proof.
  intros Hs Hr Hl Hb Hw. unfold quote. rewrite str_app_cons. cbn [parse_go].
  change (bool_decide (DQUOTE = NL)) with false. change (bool_decide (DQUOTE = SPACE)) with false.
  change (bool_decide (DQUOTE = TAB)) with false. change (bool_decide (DQUOTE ≠ DQUOTE)) with false.
  rewrite Hl. cbn [orb negb]. rewrite str_app_assoc. rewrite str_app_cons. rewrite scan_quoted by done.
  change (String.append "" rest) with rest. rewrite Nat.add_0_l, go_copy by done. cbn [parse_go].
  change (bool_decide (DQUOTE = NL)) with false. cbn [wc add_word orb].
  destruct (Nat.eqb_spec (S (wc st)) 6); [lia|]. done.
Qed.

(** Between words. *)
Lemma terminate_short b st : (String.length (words st !!! wc st) < b)%nat → terminate b st = st.
Proof.
  intros Hl. unfold terminate. destruct st as [ws k n l]. simpl in *. f_equal.
  rewrite <- (list_alter_id id ws k) at 2 by done. apply list_alter_ext; [|done].
  intros u Hu. rewrite (list_lookup_total_correct _ _ _ Hu) in Hl. apply substring_all. unfold id. lia.
Qed.

Lemma go_space b rest st :
  lastwasspace st = false → (wc st < 5)%nat → (String.length (words st !!! wc st) < b)%nat →
  parse_go b (String SPACE rest) None st = parse_go b rest None (mkPL (words st) (S (wc st)) 0 true).
Proof.
  intros Hl Hw Hb. cbn [parse_go]. rewrite terminate_short, Hl by done.
  change (bool_decide (SPACE = NL)) with false. change (bool_decide (SPACE = SPACE)) with true. cbn [orb].
  destruct (Nat.eqb_spec (S (wc st)) 6); [lia | done].
Qed.

Lemma go_space_again b rest st :
  lastwasspace st = true → (String.length (words st !!! wc st) < b)%nat →
  parse_go b (String SPACE rest) None st = parse_go b rest None (mkPL (words st) (wc st) 0 true).
Proof. intros Hl Hb. cbn [parse_go]. by rewrite terminate_short, Hl. Qed.

(** The line written for a setting: [fprintf("%s %d %s %s\n", ...)]. *)
Definition setting_line (name value mon : string) : string :=
  (name +:+ " 1 " +:+ value +:+ " " +:+ mon +:+ String NL "")%string.

(** A word that is written as it is. *)
Record good_word (b : nat) (w : string) : Prop := {
  good_some : w ≠ ""%string;
  good_plain : all_chars plain w;
  good_short : (String.length w < b)%nat;
  good_nonzero : w ≠ "\0"%string
}.

Lemma unzero_good b w : good_word b w → unzero w = w.
Proof. intros G. unfold unzero. by rewrite bool_decide_false by apply (good_nonzero b w G). Qed.

(** What [parse_go] makes of a value in its encoding, and what it stands for. *)
Lemma encode_cases src :
  (String.length src <= 63)%nat →
  (src = ""%string ∧ encodeBURTString src 66 = "\0"%string) ∨
  (any_char is_blank src = true ∧ encodeBURTString src 66 = quote src) ∨
  (src ≠ ""%string ∧ any_char is_blank src = false ∧ encodeBURTString src 66 = src).
Proof.
  intros Hl. unfold encodeBURTString. destruct (Nat.ltb_spec 66 (String.length src + 3)); [lia|].
  case_bool_decide; [by left|]. destruct (any_char is_blank src); [right; left | right; right]; done.
Qed.

Lemma unblank_plain src : any_char is_blank src = false → all_chars plain src ∧ no_quote src.
Proof.
  unfold no_quote. induction src as [|c s IH]; [done|]. rewrite !all_chars_cons. simpl.
  intros [Hc Hs]%orb_false_elim. destruct (IH Hs). unfold is_blank in Hc. unfold plain.
  destruct (bool_decide (c = SPACE)), (bool_decide (c = TAB)), (bool_decide (c = NL)), (bool_decide (c = DQUOTE)); done.
Qed.

Lemma no_quote_head s : no_quote s → head s ≠ Some DQUOTE.
Proof.
  destruct s as [|c s]; [done|]. unfold no_quote. rewrite all_chars_cons.
  intros [Hc _]%andb_prop_elim. intros [= ->]. done.
Qed.

(** The side conditions of the lemmas on concrete words. *)
Ltac short := solve [ done | simpl; lia | unfold add_word; simpl; change (String.append "" ?x) with x; lia ].

Definition start : PL := mkPL (replicate 6 ""%string) 0 0 false.

(** The first two words of a line. *)
Lemma go_name b name rest :
  good_word b name → (2 < b)%nat →
  parse_go b (name +:+ String SPACE (String "1" (String SPACE rest)))%string None start =
  parse_go b rest None (mkPL [name; "1"; ""; ""; ""; ""]%string 2 0 true).
Proof.
  intros [Hn Hp Hs _] Hb. rewrite go_plain by short. rewrite go_space by short.
  change (String "1" (String SPACE rest)) with ("1" +:+ String SPACE rest)%string.
  rewrite go_plain by short. by rewrite go_space by short.
Qed.

(** The third word, and the blank after it. *)
Lemma go_value b name value rest :
  (String.length value <= 63)%nat → (66 <= b)%nat → one_line value → no_quote rest →
  ∃ v, unzero v = unzero value ∧
  parse_go b (encodeBURTString value 66 +:+ String SPACE rest)%string None (mkPL [name; "1"; ""; ""; ""; ""]%string 2 0 true) =
  parse_go b rest None (mkPL [name; "1"; v; ""; ""; ""]%string 3 0 true).
Proof.
  intros Hl Hb Ho Hr. destruct (encode_cases value Hl) as [[-> ->]|[[Hbl ->]|(Hne & Hbl & ->)]].
  - exists "\0"%string. split; [done|]. rewrite go_plain by short.
    by rewrite go_space by short.
  - exists value. split; [done|]. rewrite go_quoted; [|done | | done | short | short].
    + by rewrite go_space_again by short.
    + unfold no_quote. by rewrite all_chars_cons.
  - exists value. split; [done|]. destruct (unblank_plain value Hbl) as [Hp Hq].
    rewrite go_plain by (done || (intros _; by apply no_quote_head) || (simpl; lia)).
    by rewrite go_space by short.
Qed.

(** A text that is read as the third word. *)
Definition word_text (b : nat) (text value : string) : Prop := ∀ name rest, no_quote rest →
  ∃ v, unzero v = value ∧
  parse_go b (text +:+ String SPACE rest)%string None (mkPL [name; "1"; ""; ""; ""; ""]%string 2 0 true) =
  parse_go b rest None (mkPL [name; "1"; v; ""; ""; ""]%string 3 0 true).

Lemma encoded_text b value :
  (String.length value <= 63)%nat → (66 <= b)%nat → one_line value → value ≠ "\0"%string →
  word_text b (encodeBURTString value 66) value.
Proof.
  intros Hl Hb Ho Hz name rest Hq. destruct (go_value b name value rest Hl Hb Ho Hq) as (v & Hv & E).
  exists v. split; [|done]. rewrite Hv. unfold unzero. by rewrite bool_decide_false.
Qed.

Lemma plain_text b w : good_word b w → no_quote w → word_text b w w.
Proof.
  intros G Hq name rest _. exists w. split; [by apply (unzero_good b)|]. destruct G as [Hn Hp Hs _].
  rewrite go_plain by (done || (intros _; by apply no_quote_head) || (simpl; lia)).
  by rewrite go_space by short.
Qed.

(** The line of a setting splits in its name, its number, its value and its
    monitor flag. *)
Lemma parse_setting_line (name text value mon : string) (b : nat) :
  (2 < b)%nat → good_word b name → word_text b text value → good_word b mon → no_quote mon →
  parseLine (setting_line name text mon) b = ([name; "1"; value; mon; ""; ""]%string, 4).
Proof.
  intros Hb Hname Htext Hmon Hq. unfold parseLine, setting_line. fold start.
  change (" 1 " +:+ ?x)%string with (String SPACE (String "1" (String SPACE x))).
  change (" " +:+ ?x)%string with (String SPACE x).
  rewrite go_name by (done || lia).
  destruct (Htext name (mon +:+ String NL "")%string) as (v & Hv & ->).
  { unfold no_quote. rewrite all_chars_app. by apply andb_prop_intro. }
  pose proof (unzero_good _ _ Hname) as E1. pose proof (unzero_good _ _ Hmon) as E2.
  destruct Hmon as [Hm Hp Hs Hmz].
  rewrite go_plain by (done || (intros _; by apply no_quote_head) || (simpl; lia)).
  cbn [parse_go]. change (bool_decide (NL = NL)) with true. cbn [words wc add_word alter list_alter].
  rewrite bool_decide_false by done. cbn [negb andb Nat.ltb Nat.leb].
  rewrite terminate_short by done. cbn [words wc map].
  rewrite E1, Hv. change (String.append "" mon) with mon. by rewrite E2.
Qed.

(** ** The control format of a switch register *)

(** Bit [i] of the control format is the switch [fltrConst[i]] of the register. *)
Definition const_pos : list Z := [4; 6; 8; 10; 12; 14; 16; 18; 20; 22; 2; 3; 26; 24; 0; 25; 27].

Lemma const_pos_spec i :
  (i < 17)%nat → fltrConst !!! i = 2 ^ (const_pos !!! i) ∧ 0 <= const_pos !!! i < 32.
Proof. intros Hi. do 17 (destruct i as [|i]; [done|]). lia. Qed.

Lemma convert_bits e k :
  Z.testbit (filtCtrlBitConvert e) (Z.of_nat k) = bool_decide (k < 17)%nat && Z.testbit e (const_pos !!! k).
Proof.
  unfold filtCtrlBitConvert. revert k.
  set (body := λ (i : nat) (val : Z), _).
  assert (H : ∀ n, (n <= 17)%nat → ∀ k, Z.testbit (for_n n body 0) (Z.of_nat k) =
    bool_decide (k < n)%nat && Z.testbit e (const_pos !!! k)).
  { induction n as [|n IH]; intros Hn k; [by rewrite Z.testbit_0_l|].
    rewrite for_up_S, Nat.add_0_l. unfold body at 1. destruct (const_pos_spec n) as [-> Hp]; [lia|].
    rewrite truthy_land_pow2, wrap_spec by lia. destruct (Z.ltb_spec (const_pos !!! n) 32); [|lia].
    rewrite Z.shiftl_1_l. cbn [andb].
    assert (Hk : bool_decide (k < S n)%nat = bool_decide (k < n)%nat || (Z.of_nat n =? Z.of_nat k)).
    { destruct (Z.eqb_spec (Z.of_nat n) (Z.of_nat k)); [rewrite orb_true_r; apply bool_decide_true; lia|].
      rewrite orb_false_r. apply bool_decide_ext. lia. }
    rewrite Hk. destruct (Z.testbit e (const_pos !!! n)) eqn:E.
    - rewrite testbit_lor_pow2, IH by lia. destruct (Z.eqb_spec (Z.of_nat n) (Z.of_nat k)) as [H1|].
      + apply Nat2Z.inj in H1 as <-. by rewrite E, !orb_true_r.
      + by rewrite !orb_false_r.
    - rewrite IH by lia. destruct (Z.eqb_spec (Z.of_nat n) (Z.of_nat k)) as [H1|].
      + apply Nat2Z.inj in H1 as <-. by rewrite E, !andb_false_r.
      + by rewrite orb_false_r. }
  intros k. by apply H.
Qed.

Lemma convert_spec e j :
  (j < 17)%nat → Z.testbit (filtCtrlBitConvert e) (Z.of_nat j) = Z.testbit e (const_pos !!! j).
Proof. intros Hj. by rewrite convert_bits, bool_decide_true. Qed.

(** ** The text of switch settings *)
Definition ALL_SWSTAT_BITS : Z := 0x1bfff.

(** The bit of a setting shown at each place of the text. *)
Definition shown_bit (j : nat) : Z := [10; 11; 0; 1; 2; 3; 4; 5; 6; 7; 8; 9; 13; 12; 15; 16] !!! j.

Lemma land_add_disjoint x y m m' :
  Z.land m m' = 0 → Z.land x m + Z.land y m' = Z.lor (Z.land x m) (Z.land y m').
Proof.
  intros H. assert (E : Z.land (Z.land x m) (Z.land y m') = 0).
  { apply Z.bits_inj'. intros i _. rewrite !Z.land_spec, Z.bits_0.
    pose proof (f_equal (λ z, Z.testbit z i) H) as Hi. simpl in Hi. rewrite Z.land_spec, Z.bits_0 in Hi.
    destruct (Z.testbit x i), (Z.testbit y i), (Z.testbit m i), (Z.testbit m' i); done. }
  rewrite Z.add_nocarry_lxor by done. by rewrite Z.lxor_lor.
Qed.

Lemma lor_mask x y m m' : Z.lor (Z.land x m) (Z.land y m') = Z.land (Z.lor (Z.land x m) (Z.land y m')) (Z.lor m m').
Proof.
  apply Z.bits_inj'. intros i _. rewrite !Z.land_spec, !Z.lor_spec, !Z.land_spec.
  destruct (Z.testbit x i), (Z.testbit y i), (Z.testbit m i), (Z.testbit m' i); done.
Qed.

Lemma display_bits_land v :
  display_bits v =
  Z.lor (Z.lor (Z.lor (Z.lor (Z.land (Z.shiftr v 10) 3) (Z.land (Z.shiftl v 2) 4092))
    (Z.land (Z.shiftr v 1) 0x1000)) (Z.land (Z.shiftl v 1) 0x2000)) (Z.land (Z.shiftr v 1) 0xC000).
Proof.
  unfold display_bits. rewrite Z.shiftl_land, !Z.shiftr_land, Z.shiftl_land.
  change (Z.shiftl 1023 2) with 4092. change (Z.shiftr 0x2000 1) with 0x1000.
  change (Z.shiftl 0x1000 1) with 0x2000. change (Z.shiftr 0x18000 1) with 0xC000.
  rewrite (wrap_ones 32 (Z.land _ 0x2000)), <- Z.land_assoc by done. change (Z.land 0x2000 (Z.ones 32)) with 0x2000.
  rewrite land_add_disjoint by done. rewrite (lor_mask _ _ 3 4092). change (Z.lor 3 4092) with 4095.
  rewrite land_add_disjoint by done. rewrite (lor_mask _ _ 4095 0x1000). change (Z.lor 4095 0x1000) with 0x1fff.
  rewrite land_add_disjoint by done. rewrite (lor_mask _ _ 0x1fff 0x2000). change (Z.lor 0x1fff 0x2000) with 0x3fff.
  rewrite land_add_disjoint by done. rewrite (lor_mask _ _ 0x3fff 0xC000). change (Z.lor 0x3fff 0xC000) with 0xffff.
  rewrite (wrap_ones 32), <- Z.land_assoc by done. by change (Z.land 0xffff (Z.ones 32)) with 0xffff.
Qed.

Lemma display_bits_spec v j :
  (j < 16)%nat → Z.testbit (display_bits v) (Z.of_nat j) = Z.testbit v (shown_bit j).
Proof.
  intros Hj. rewrite display_bits_land. rewrite !Z.lor_spec, !Z.land_spec.
  do 16 (destruct j as [|j]; [rewrite !Z.shiftr_spec by lia; rewrite ?Z.shiftl_spec by lia; simpl;
    rewrite ?andb_false_r, ?andb_true_r, ?orb_false_r; done|]). lia.
Qed.

(** The text as the names of the set bits, each with its comma. *)
Definition names (stype : Z) : list string := if stype =? 0 then bitDefShort else bitDefLong.
Definition set_places (x : Z) (i n : nat) : list nat := filter (λ j, Z.testbit x (Z.of_nat j) = true) (seq i n).

Lemma switch_names_places stype x :
  stype = 0 ∨ stype = 1 → switch_names stype x = concat (map (λ j, names stype !!! j) (set_places x 0 16)).
Proof.
  intros Hst. unfold switch_names.
  set (body := λ (jj : nat) '((x, s) : Z * string), _).
  assert (H : ∀ n i s, snd (for_up i n body (Z.shiftr x (Z.of_nat i), s)) =
    (s +:+ concat (map (λ j, names stype !!! j) (set_places x i n)))%string).
  { induction n as [|n IH]; intros i s; [by rewrite str_app_nil|]. simpl.
    rewrite Z.shiftr_shiftr by lia. replace (Z.of_nat i + 1) with (Z.of_nat (S i)) by lia. rewrite IH.
    unfold set_places. simpl. rewrite filter_cons.
    assert (Ho : Z.odd (Z.shiftr x (Z.of_nat i)) = Z.testbit x (Z.of_nat i)).
    { rewrite <- Z.bit0_odd, Z.shiftr_spec by lia. done. }
    rewrite Ho. destruct Hst as [-> | ->]; cbn [Z.eqb Pos.eqb];
      destruct (Z.testbit x (Z.of_nat i)); cbn [andb]; rewrite ?decide_True, ?decide_False by done;
      cbn [map concat foldr]; rewrite ?str_app_assoc; done. }
  apply (H 16%nat 0%nat ""%string).
Qed.

(** Texts of words that end in a comma are cut in words in one way only. *)
Definition comma_free (w : string) : Prop := all_chars (λ c, negb (bool_decide (c = ","%char))) w.
Definition token (t : string) : Prop := ∃ w, comma_free w ∧ t = (w +:+ ",")%string.

Lemma first_comma w w' r r' :
  comma_free w → comma_free w' →
  (w +:+ String "," r)%string = (w' +:+ String "," r')%string → w = w' ∧ r = r'.
Proof.
  unfold comma_free. revert w'. induction w as [|c w IH]; intros [|c' w'] H H'; rewrite ?str_app_cons, ?all_chars_cons in *.
  - by intros [= ->].
  - intros [= <- _]. by apply andb_prop_elim in H' as [? _].
  - intros [= -> _]. by apply andb_prop_elim in H as [? _].
  - intros [= -> E]. apply andb_prop_elim in H as [_ H], H' as [_ H']. by destruct (IH w' H H' E) as [-> ->].
Qed.

Lemma concat_tokens_inj l l' :
  Forall token l → Forall token l' → concat l = concat l' → l = l'.
Proof.
  intros H. revert l'. induction H as [|t l Ht Hl IH]; intros l' H'; destruct H' as [|t' l' Ht' Hl']; try done;
    cbn [concat foldr].
  - destruct Ht' as (w & _ & ->). intros E. rewrite str_app_assoc in E. by destruct w.
  - destruct Ht as (w & _ & ->). intros E. rewrite str_app_assoc in E. by destruct w.
  - destruct Ht as (w & Hw & ->), Ht' as (w' & Hw' & ->). rewrite !str_app_assoc. intros E.
    destruct (first_comma w w' _ _ Hw Hw' E) as [-> E']. by rewrite (IH l' Hl' E').
Qed.

Lemma names_tokens stype j : stype = 0 ∨ stype = 1 → (j < 16)%nat → token (names stype !!! j).
Proof.
  intros Hst Hj. destruct Hst as [-> | ->];
    do 16 (destruct j as [|j];
      [match goal with |- token ?t => exists (String.substring 0 (String.length t - 1) t) end;
       split; vm_compute; done|]); lia.
Qed.

Lemma names_inj stype i j :
  stype = 0 ∨ stype = 1 → (i < 16)%nat → (j < 16)%nat → names stype !!! i = names stype !!! j → i = j.
Proof.
  intros Hst Hi Hj E.
  assert (Hn : NoDup (names stype)) by (destruct Hst as [-> | ->]; by apply (bool_decide_eq_true_1 _)).
  assert (Hl : length (names stype) = 16%nat) by (by destruct Hst as [-> | ->]).
  eapply (NoDup_lookup _ i j (names stype !!! i) Hn); [|rewrite E];
    apply list_lookup_lookup_total_lt; lia.
Qed.

(** The last character of a text is a comma, so that cutting it loses nothing. *)
Lemma concat_last l :
  l ≠ [] → Forall token l → ∃ w, concat l = (w +:+ ",")%string ∧
  String.substring 0 (String.length (concat l) - 1) (concat l) = w.
Proof.
  intros Hne Hl. assert (Hc : ∃ w, concat l = (w +:+ ",")%string).
  { induction Hl as [|t l Ht Hl IH]; [done|]. destruct Ht as (w & _ & ->). destruct l as [|t' l].
    - exists w. cbn [concat foldr]. by rewrite str_app_nil.
    - destruct IH as [u E]; [done|]. exists ((w +:+ ",") +:+ u)%string.
      change (concat ((w +:+ ",")%string :: t' :: l)) with ((w +:+ ",") +:+ concat (t' :: l))%string.
      rewrite E. symmetry. apply str_app_assoc. }
  destruct Hc as [w ->]. exists w. split; [done|]. rewrite str_length_app. simpl.
  replace (String.length w + 1 - 1)%nat with (String.length w) by lia.
  clear. induction w as [|c w IH]; [done|]. rewrite str_app_cons. simpl. by rewrite IH.
Qed.

Lemma places_tokens stype x :
  stype = 0 ∨ stype = 1 → Forall token (map (λ j, names stype !!! j) (set_places x 0 16)).
Proof.
  intros Hst. apply Forall_forall. intros t (j & -> & Hj)%list_elem_of_fmap.
  apply list_elem_of_filter in Hj as [_ Hj%elem_of_seq]. apply names_tokens; [done | lia].
Qed.

Lemma places_map_inj stype x y :
  stype = 0 ∨ stype = 1 →
  map (λ j, names stype !!! j) (set_places x 0 16) = map (λ j, names stype !!! j) (set_places y 0 16) →
  set_places x 0 16 = set_places y 0 16.
Proof.
  intros Hst.
  assert (Hlt : ∀ z, Forall (λ j, (j < 16)%nat) (set_places z 0 16)).
  { intros z. apply Forall_forall. intros j Hj. apply list_elem_of_filter in Hj as [_ Hj%elem_of_seq]. lia. }
  generalize (Hlt x), (Hlt y). generalize (set_places x 0 16) as l, (set_places y 0 16) as l'.
  induction l as [|i l IH]; intros [|j l'] H H' E; try done. injection E as E1 E2.
  apply Forall_cons in H as [Hi H], H' as [Hj H']. f_equal; [by apply (names_inj stype) | by apply IH].
Qed.

(** The switches monitored are those shown. *)
Lemma shown_land v v' :
  Z.land v ALL_SWSTAT_BITS = Z.land v' ALL_SWSTAT_BITS ↔
  set_places (display_bits v) 0 16 = set_places (display_bits v') 0 16.
Proof.
  assert (Hsh : ∀ j, (j < 16)%nat → Z.testbit ALL_SWSTAT_BITS (shown_bit j) = true).
  { intros j Hj. do 16 (destruct j as [|j]; [done|]). lia. }
  assert (Hall : ∀ i, Z.testbit ALL_SWSTAT_BITS i = true → ∃ j, (j < 16)%nat ∧ shown_bit j = i).
  { intros i Hi. assert (H : 0 <= i < 17).
    { destruct (Z.ltb_spec i 0); [by rewrite Z.testbit_neg_r in Hi|]. split; [done|].
      destruct (Z.ltb_spec i 17); [done|]. change ALL_SWSTAT_BITS with (Z.land ALL_SWSTAT_BITS (Z.ones 17)) in Hi.
      rewrite Z.land_spec, Z.ones_spec_high, andb_false_r in Hi by lia. done. }
    assert (∃ n, i = Z.of_nat n ∧ (n < 17)%nat) as (n & -> & Hn) by (exists (Z.to_nat i); lia).
    exists ([2; 3; 4; 5; 6; 7; 8; 9; 10; 11; 0; 1; 13; 12; 0; 14; 15]%nat !!! n).
    clear H. do 17 (destruct n as [|n]; [first [discriminate Hi | split; [cbn; lia | done]]|]). lia. }
  assert (Hin : ∀ z j, j ∈ set_places (display_bits z) 0 16 ↔ Z.testbit z (shown_bit j) = true ∧ (j < 16)%nat).
  { intros z j. unfold set_places. rewrite list_elem_of_filter, elem_of_seq.
    split; intros [Hb Hj]; [rewrite display_bits_spec in Hb by lia | rewrite display_bits_spec by done]; split; (done || lia). }
  split; intros E.
  - apply filter_ext_in. intros j [_ Hj]%elem_of_seq. rewrite !display_bits_spec by lia.
    pose proof (f_equal (λ z, Z.testbit z (shown_bit j)) E) as Eb. simpl in Eb.
    rewrite !Z.land_spec, Hsh, !andb_true_r in Eb by lia. by rewrite Eb.
  - apply Z.bits_inj'. intros i _. rewrite !Z.land_spec.
    destruct (Z.testbit ALL_SWSTAT_BITS i) eqn:Ei; [|by rewrite !andb_false_r]. rewrite !andb_true_r.
    destruct (Hall i Ei) as (j & Hj & <-). apply eq_bool_prop_intro. rewrite !Is_true_true.
    assert (Hb : j ∈ set_places (display_bits v) 0 16 ↔ j ∈ set_places (display_bits v') 0 16) by (by rewrite E).
    rewrite !Hin in Hb. destruct Hb as [Hb Hb']. split; intros Hv; [by apply Hb | by apply Hb'].
Qed.

Lemma no_places v : set_places (display_bits v) 0 16 = [] ↔ Z.land v ALL_SWSTAT_BITS = 0.
Proof. by rewrite <- (Z.land_0_l ALL_SWSTAT_BITS), shown_land. Qed.

Lemma filtStrBitConvert_text stype v :
  stype = 0 ∨ stype = 1 →
  let text := concat (map (λ j, names stype !!! j) (set_places (display_bits (u32 v)) 0 16)) in
  match filtStrBitConvert stype v with
  | None => set_places (display_bits (u32 v)) 0 16 = []
  | Some t => text = (t +:+ ",")%string
  end.
Proof.
  intros Hst text. unfold filtStrBitConvert. rewrite switch_names_places by done. fold text.
  destruct (decide (set_places (display_bits (u32 v)) 0 16 = [])) as [E|E].
  - unfold text. by rewrite E.
  - destruct (concat_last (map (λ j, names stype !!! j) (set_places (display_bits (u32 v)) 0 16))) as (w & Ew & Es).
    + by destruct (set_places _ 0 16).
    + by apply places_tokens.
    + fold text in Ew, Es. rewrite Es, bool_decide_false; [done|]. rewrite Ew. by destruct w.
Qed.

Lemma cut_inj t t' : (t +:+ ",")%string = (t' +:+ ",")%string → t = t'.
Proof.
  revert t'. induction t as [|c t IH]; intros [|c' t']; rewrite ?str_app_cons; try done.
  - intros [= _ E]. by destruct t'.
  - intros [= _ E]. by destruct t.
  - intros [= -> E]. by rewrite (IH t' E).
Qed.

Lemma no_text stype v : stype = 0 ∨ stype = 1 → filtStrBitConvert stype v = None ↔ Z.land (u32 v) ALL_SWSTAT_BITS = 0.
Proof.
  intros Hst. rewrite <- no_places. pose proof (filtStrBitConvert_text stype v Hst) as H.
  destruct (filtStrBitConvert stype v) as [t|]; [|done]. split; [done|]. intros E. rewrite E in H.
  cbn in H. by destruct t.
Qed.

Lemma same_text stype v v' :
  stype = 0 ∨ stype = 1 →
  filtStrBitConvert stype v = filtStrBitConvert stype v' ↔
  Z.land (u32 v) ALL_SWSTAT_BITS = Z.land (u32 v') ALL_SWSTAT_BITS.
Proof.
  intros Hst. pose proof (no_text stype v Hst) as N. pose proof (no_text stype v' Hst) as N'.
  destruct (filtStrBitConvert stype v) as [t|] eqn:E, (filtStrBitConvert stype v') as [t'|] eqn:E'.
  - pose proof (filtStrBitConvert_text stype v Hst) as H. rewrite E in H.
    pose proof (filtStrBitConvert_text stype v' Hst) as H'. rewrite E' in H'. rewrite shown_land. split.
    + intros [= ->]. apply (places_map_inj stype); [done|]. apply concat_tokens_inj; [by apply places_tokens..|].
      by rewrite H, H'.
    + intros Ep. rewrite Ep, H' in H. by apply cut_inj in H as ->.
  - split; [done|]. intros Ev. destruct N as [_ N], N' as [N' _]. rewrite Ev in N. by discriminate (N (N' eq_refl)).
  - split; [done|]. intros Ev. destruct N as [N _], N' as [_ N']. rewrite <- Ev in N'. by discriminate (N' (N eq_refl)).
  - split; [|done]. intros _. rewrite (proj1 N eq_refl). by rewrite (proj1 N' eq_refl).
Qed.

(** the text of switch settings, in either style, shows exactly the
    switches that are monitored: two settings have the same text if and only if
    they agree on those switches; and with all of them off there is no text, and
    the cut of the last comma is a store in front of the buffer. *)
Theorem switch_text_faithful (stype v v' : Z) :
  stype = 0 ∨ stype = 1 →
  (filtStrBitConvert stype v = filtStrBitConvert stype v' ↔
   Z.land (u32 v) ALL_SWSTAT_BITS = Z.land (u32 v') ALL_SWSTAT_BITS) ∧
  (filtStrBitConvert stype v = None ↔ Z.land (u32 v) ALL_SWSTAT_BITS = 0).
Proof. intros Hst. split; [by apply same_text | by apply no_text]. Qed.

(** ** Concrete instances *)
Lemma switch_text_faithful_witness :
  filtStrBitConvert 1 0x1403 = Some "IN,F1,F2,OT"%string ∧
  filtStrBitConvert 1 0x1403 = filtStrBitConvert 1 0x5403 ∧ filtStrBitConvert 1 0x4000 = None.
Proof.
  split; [by vm_compute|].
  split; [apply (proj1 (switch_text_faithful 1 0x1403 0x5403 (or_intror eq_refl)))
         |apply (proj2 (switch_text_faithful 1 0x4000 0 (or_intror eq_refl)))]; by vm_compute.
Defined.
End SdfText.
