(* ===== verification/SdfTable.v ===== *)
(** * Set point monitoring: the tables ([src/epics/seq/main.c])

    The monitor of a model keeps the table of its settings, as last loaded from a
    file, compares it with the values in the EPICS database, and shows the
    differences, and other selections of the table, in pages of 40 lines on which
    operators mark settings to be reverted, accepted or (un)monitored.

    - data: [CDS_CD_TABLE], [FILTER_TABLE], [SET_ERR_TABLE], [Sdf];
    - [clearTableSelections], [setAllTableSelections], [decodeChangeSelect],
      [changeSelectCB_uninit], [processFMChanCommands]: marking;
    - [spChecker], [checkFilterSwitches], [createSortTableEntries],
      [reportSetErrors]: showing;
    - [modifyTable], [newfilterstats], [resetSelectedValues]: acting.

    The database is EPICS's: class [Epics] is what the monitor uses of it.
    Arrays are functions of the index.  The build is the one without [CA_SDF]. *)
From stdpp Require Import strings.
From S2P Require Import Prelude CFloat CText SdfText.
Import SdfText.

Module SdfTable.

Definition SDF_NUM : Z := 0.
Definition SDF_STR : Z := 1.
Definition SDF_MAX_CHANS : Z := 125000.
Definition SDF_MAX_TSIZE : Z := 20000.
Definition SDF_ERR_DSIZE : Z := 40.
Definition SDF_ERR_TSIZE : Z := 20000.
Definition SDF_MAX_FMSIZE : nat := 1000.
Definition CHFLAG_ACCEPT_BIT : Z := 4.
Definition CHFLAG_MONITOR_BIT : Z := 8.
(** [~0] *)
Definition ALL_ONES : Z := -1.

(** The record [name.] of the database: whether it exists, and its value as a
    number, an integer and a string, with the time it was set; and the writes. *)
Class Epics (Db : Type) := {
  db_found : string → Db → bool;
  db_num : string → Db → binary64 * Z;
  db_long : string → Db → Z * Z;
  db_str : string → Db → string * Z;
  put_num : string → binary64 → Db → Db;
  put_str : string → string → Db → Db;
  put_long : string → Z → Db → Db
}.

(** [union Data]: what was stored last. *)
Inductive Data := chval (x : binary64) | strval (s : string).

Definition upd {A} (i : nat) (x : A) (f : nat → A) : nat → A := λ j, if (j =? i)%nat then x else f j.

(** [struct CDS_CD_TABLE]: one setting. *)
Record CDS_CD_TABLE := mkCD {
  chname : string;
  datatype : Z;
  data : Data;
  mask : Z;
  initialized : Z;
  filterswitch : Z;
  filterNum : Z
}.

(** [struct FILTER_TABLE]: the switch settings of a filter module; [sw[0]], [sw[1]]
    are the indices of its two settings. *)
Record FILTER_TABLE := mkFT {
  fname : string;
  swreq : Z;
  sw0 : nat;
  sw1 : nat;
  newSet : Z;
  finit : Z;
  fmask : Z
}.

(** [struct SET_ERR_TABLE]: one line shown to operators. *)
Record SET_ERR_TABLE := mkRow {
  rname : string;
  burtset : string;
  liveset : string;
  timeset : string;
  diff : string;
  liveval : binary64;
  sigNum : Z;
  chFlag : Z;
  filtNum : Z;
  rsw0 : Z;
  rsw1 : Z
}.

Definition set_chname (v : string) (r : CDS_CD_TABLE) : CDS_CD_TABLE :=
  mkCD v (datatype r) (data r) (mask r) (initialized r) (filterswitch r) (filterNum r).
Definition set_datatype (v : Z) (r : CDS_CD_TABLE) : CDS_CD_TABLE :=
  mkCD (chname r) v (data r) (mask r) (initialized r) (filterswitch r) (filterNum r).
Definition set_data (v : Data) (r : CDS_CD_TABLE) : CDS_CD_TABLE :=
  mkCD (chname r) (datatype r) v (mask r) (initialized r) (filterswitch r) (filterNum r).
Definition set_mask (v : Z) (r : CDS_CD_TABLE) : CDS_CD_TABLE :=
  mkCD (chname r) (datatype r) (data r) v (initialized r) (filterswitch r) (filterNum r).
Definition set_initialized (v : Z) (r : CDS_CD_TABLE) : CDS_CD_TABLE :=
  mkCD (chname r) (datatype r) (data r) (mask r) v (filterswitch r) (filterNum r).
Definition set_filterswitch (v : Z) (r : CDS_CD_TABLE) : CDS_CD_TABLE :=
  mkCD (chname r) (datatype r) (data r) (mask r) (initialized r) v (filterNum r).
Definition set_filterNum (v : Z) (r : CDS_CD_TABLE) : CDS_CD_TABLE :=
  mkCD (chname r) (datatype r) (data r) (mask r) (initialized r) (filterswitch r) v.

Definition set_fname (v : string) (r : FILTER_TABLE) : FILTER_TABLE :=
  mkFT v (swreq r) (sw0 r) (sw1 r) (newSet r) (finit r) (fmask r).
Definition set_swreq (v : Z) (r : FILTER_TABLE) : FILTER_TABLE :=
  mkFT (fname r) v (sw0 r) (sw1 r) (newSet r) (finit r) (fmask r).
Definition set_sw0 (v : nat) (r : FILTER_TABLE) : FILTER_TABLE :=
  mkFT (fname r) (swreq r) v (sw1 r) (newSet r) (finit r) (fmask r).
Definition set_sw1 (v : nat) (r : FILTER_TABLE) : FILTER_TABLE :=
  mkFT (fname r) (swreq r) (sw0 r) v (newSet r) (finit r) (fmask r).
Definition set_newSet (v : Z) (r : FILTER_TABLE) : FILTER_TABLE :=
  mkFT (fname r) (swreq r) (sw0 r) (sw1 r) v (finit r) (fmask r).
Definition set_finit (v : Z) (r : FILTER_TABLE) : FILTER_TABLE :=
  mkFT (fname r) (swreq r) (sw0 r) (sw1 r) (newSet r) v (fmask r).
Definition set_fmask (v : Z) (r : FILTER_TABLE) : FILTER_TABLE :=
  mkFT (fname r) (swreq r) (sw0 r) (sw1 r) (newSet r) (finit r) v.

Definition set_rname (v : string) (r : SET_ERR_TABLE) : SET_ERR_TABLE :=
  mkRow v (burtset r) (liveset r) (timeset r) (diff r) (liveval r) (sigNum r) (chFlag r)
    (filtNum r) (rsw0 r) (rsw1 r).
Definition set_burtset (v : string) (r : SET_ERR_TABLE) : SET_ERR_TABLE :=
  mkRow (rname r) v (liveset r) (timeset r) (diff r) (liveval r) (sigNum r) (chFlag r)
    (filtNum r) (rsw0 r) (rsw1 r).
Definition set_liveset (v : string) (r : SET_ERR_TABLE) : SET_ERR_TABLE :=
  mkRow (rname r) (burtset r) v (timeset r) (diff r) (liveval r) (sigNum r) (chFlag r)
    (filtNum r) (rsw0 r) (rsw1 r).
Definition set_timeset (v : string) (r : SET_ERR_TABLE) : SET_ERR_TABLE :=
  mkRow (rname r) (burtset r) (liveset r) v (diff r) (liveval r) (sigNum r) (chFlag r)
    (filtNum r) (rsw0 r) (rsw1 r).
Definition set_diff (v : string) (r : SET_ERR_TABLE) : SET_ERR_TABLE :=
  mkRow (rname r) (burtset r) (liveset r) (timeset r) v (liveval r) (sigNum r) (chFlag r)
    (filtNum r) (rsw0 r) (rsw1 r).
Definition set_liveval (v : binary64) (r : SET_ERR_TABLE) : SET_ERR_TABLE :=
  mkRow (rname r) (burtset r) (liveset r) (timeset r) (diff r) v (sigNum r) (chFlag r)
    (filtNum r) (rsw0 r) (rsw1 r).
Definition set_sigNum (v : Z) (r : SET_ERR_TABLE) : SET_ERR_TABLE :=
  mkRow (rname r) (burtset r) (liveset r) (timeset r) (diff r) (liveval r) v (chFlag r)
    (filtNum r) (rsw0 r) (rsw1 r).
Definition set_chFlag (v : Z) (r : SET_ERR_TABLE) : SET_ERR_TABLE :=
  mkRow (rname r) (burtset r) (liveset r) (timeset r) (diff r) (liveval r) (sigNum r) v
    (filtNum r) (rsw0 r) (rsw1 r).
Definition set_filtNum (v : Z) (r : SET_ERR_TABLE) : SET_ERR_TABLE :=
  mkRow (rname r) (burtset r) (liveset r) (timeset r) (diff r) (liveval r) (sigNum r)
    (chFlag r) v (rsw0 r) (rsw1 r).
Definition set_rsw0 (v : Z) (r : SET_ERR_TABLE) : SET_ERR_TABLE :=
  mkRow (rname r) (burtset r) (liveset r) (timeset r) (diff r) (liveval r) (sigNum r)
    (chFlag r) (filtNum r) v (rsw1 r).
Definition set_rsw1 (v : Z) (r : SET_ERR_TABLE) : SET_ERR_TABLE :=
  mkRow (rname r) (burtset r) (liveset r) (timeset r) (diff r) (liveval r) (sigNum r)
    (chFlag r) (filtNum r) (rsw0 r) v.


Section defs.
Context {Db : Type} `{!Epics Db}.
(** [ctime]; and what is read through the member of a union not stored last. *)
Variable ctime : Z → string.
Variable pun_num : string → binary64.
Variable pun_str : binary64 → string.

Definition get_chval (d : Data) : binary64 := match d with chval x => x | strval s => pun_num s end.
Definition get_strval (d : Data) : string := match d with chval x => pun_str x | strval s => s end.

(** The global variables. *)
Record Sdf := mkSdf {
  chNum : nat;
  cdTable : nat → CDS_CD_TABLE;
  cdTableP : nat → CDS_CD_TABLE;
  fmNum : nat;
  filterTable : nat → FILTER_TABLE;
  filterMasks : nat → Z;
  chNumP : nat;
  alarmCnt : Z;
  chNotFound : nat;
  chNotInit : Z;
  chNotMon : Z;
  rderror : nat;
  unknownChans : nat → SET_ERR_TABLE;
  readErrTable : nat → SET_ERR_TABLE;
  uninitChans : nat → SET_ERR_TABLE;
  unMonChans : nat → SET_ERR_TABLE;
  db : Db;
  overrun : bool
}.

Definition set_chNum (v : nat) (r : Sdf) : Sdf :=
  mkSdf v (cdTable r) (cdTableP r) (fmNum r) (filterTable r) (filterMasks r) (chNumP r)
    (alarmCnt r) (chNotFound r) (chNotInit r) (chNotMon r) (rderror r) (unknownChans r)
    (readErrTable r) (uninitChans r) (unMonChans r) (db r) (overrun r).
Definition set_cdTable (v : nat → CDS_CD_TABLE) (r : Sdf) : Sdf :=
  mkSdf (chNum r) v (cdTableP r) (fmNum r) (filterTable r) (filterMasks r) (chNumP r)
    (alarmCnt r) (chNotFound r) (chNotInit r) (chNotMon r) (rderror r) (unknownChans r)
    (readErrTable r) (uninitChans r) (unMonChans r) (db r) (overrun r).
Definition set_cdTableP (v : nat → CDS_CD_TABLE) (r : Sdf) : Sdf :=
  mkSdf (chNum r) (cdTable r) v (fmNum r) (filterTable r) (filterMasks r) (chNumP r)
    (alarmCnt r) (chNotFound r) (chNotInit r) (chNotMon r) (rderror r) (unknownChans r)
    (readErrTable r) (uninitChans r) (unMonChans r) (db r) (overrun r).
Definition set_fmNum (v : nat) (r : Sdf) : Sdf :=
  mkSdf (chNum r) (cdTable r) (cdTableP r) v (filterTable r) (filterMasks r) (chNumP r)
    (alarmCnt r) (chNotFound r) (chNotInit r) (chNotMon r) (rderror r) (unknownChans r)
    (readErrTable r) (uninitChans r) (unMonChans r) (db r) (overrun r).
Definition set_filterTable (v : nat → FILTER_TABLE) (r : Sdf) : Sdf :=
  mkSdf (chNum r) (cdTable r) (cdTableP r) (fmNum r) v (filterMasks r) (chNumP r)
    (alarmCnt r) (chNotFound r) (chNotInit r) (chNotMon r) (rderror r) (unknownChans r)
    (readErrTable r) (uninitChans r) (unMonChans r) (db r) (overrun r).
Definition set_filterMasks (v : nat → Z) (r : Sdf) : Sdf :=
  mkSdf (chNum r) (cdTable r) (cdTableP r) (fmNum r) (filterTable r) v (chNumP r)
    (alarmCnt r) (chNotFound r) (chNotInit r) (chNotMon r) (rderror r) (unknownChans r)
    (readErrTable r) (uninitChans r) (unMonChans r) (db r) (overrun r).
Definition set_chNumP (v : nat) (r : Sdf) : Sdf :=
  mkSdf (chNum r) (cdTable r) (cdTableP r) (fmNum r) (filterTable r) (filterMasks r) v
    (alarmCnt r) (chNotFound r) (chNotInit r) (chNotMon r) (rderror r) (unknownChans r)
    (readErrTable r) (uninitChans r) (unMonChans r) (db r) (overrun r).
Definition set_alarmCnt (v : Z) (r : Sdf) : Sdf :=
  mkSdf (chNum r) (cdTable r) (cdTableP r) (fmNum r) (filterTable r) (filterMasks r)
    (chNumP r) v (chNotFound r) (chNotInit r) (chNotMon r) (rderror r) (unknownChans r)
    (readErrTable r) (uninitChans r) (unMonChans r) (db r) (overrun r).
Definition set_chNotFound (v : nat) (r : Sdf) : Sdf :=
  mkSdf (chNum r) (cdTable r) (cdTableP r) (fmNum r) (filterTable r) (filterMasks r)
    (chNumP r) (alarmCnt r) v (chNotInit r) (chNotMon r) (rderror r) (unknownChans r)
    (readErrTable r) (uninitChans r) (unMonChans r) (db r) (overrun r).
Definition set_chNotInit (v : Z) (r : Sdf) : Sdf :=
  mkSdf (chNum r) (cdTable r) (cdTableP r) (fmNum r) (filterTable r) (filterMasks r)
    (chNumP r) (alarmCnt r) (chNotFound r) v (chNotMon r) (rderror r) (unknownChans r)
    (readErrTable r) (uninitChans r) (unMonChans r) (db r) (overrun r).
Definition set_chNotMon (v : Z) (r : Sdf) : Sdf :=
  mkSdf (chNum r) (cdTable r) (cdTableP r) (fmNum r) (filterTable r) (filterMasks r)
    (chNumP r) (alarmCnt r) (chNotFound r) (chNotInit r) v (rderror r) (unknownChans r)
    (readErrTable r) (uninitChans r) (unMonChans r) (db r) (overrun r).
Definition set_rderror (v : nat) (r : Sdf) : Sdf :=
  mkSdf (chNum r) (cdTable r) (cdTableP r) (fmNum r) (filterTable r) (filterMasks r)
    (chNumP r) (alarmCnt r) (chNotFound r) (chNotInit r) (chNotMon r) v (unknownChans r)
    (readErrTable r) (uninitChans r) (unMonChans r) (db r) (overrun r).
Definition set_unknownChans (v : nat → SET_ERR_TABLE) (r : Sdf) : Sdf :=
  mkSdf (chNum r) (cdTable r) (cdTableP r) (fmNum r) (filterTable r) (filterMasks r)
    (chNumP r) (alarmCnt r) (chNotFound r) (chNotInit r) (chNotMon r) (rderror r) v
    (readErrTable r) (uninitChans r) (unMonChans r) (db r) (overrun r).
Definition set_readErrTable (v : nat → SET_ERR_TABLE) (r : Sdf) : Sdf :=
  mkSdf (chNum r) (cdTable r) (cdTableP r) (fmNum r) (filterTable r) (filterMasks r)
    (chNumP r) (alarmCnt r) (chNotFound r) (chNotInit r) (chNotMon r) (rderror r)
    (unknownChans r) v (uninitChans r) (unMonChans r) (db r) (overrun r).
Definition set_uninitChans (v : nat → SET_ERR_TABLE) (r : Sdf) : Sdf :=
  mkSdf (chNum r) (cdTable r) (cdTableP r) (fmNum r) (filterTable r) (filterMasks r)
    (chNumP r) (alarmCnt r) (chNotFound r) (chNotInit r) (chNotMon r) (rderror r)
    (unknownChans r) (readErrTable r) v (unMonChans r) (db r) (overrun r).
Definition set_unMonChans (v : nat → SET_ERR_TABLE) (r : Sdf) : Sdf :=
  mkSdf (chNum r) (cdTable r) (cdTableP r) (fmNum r) (filterTable r) (filterMasks r)
    (chNumP r) (alarmCnt r) (chNotFound r) (chNotInit r) (chNotMon r) (rderror r)
    (unknownChans r) (readErrTable r) (uninitChans r) v (db r) (overrun r).
Definition set_db (v : Db) (r : Sdf) : Sdf :=
  mkSdf (chNum r) (cdTable r) (cdTableP r) (fmNum r) (filterTable r) (filterMasks r)
    (chNumP r) (alarmCnt r) (chNotFound r) (chNotInit r) (chNotMon r) (rderror r)
    (unknownChans r) (readErrTable r) (uninitChans r) (unMonChans r) v (overrun r).
Definition set_overrun (v : bool) (r : Sdf) : Sdf :=
  mkSdf (chNum r) (cdTable r) (cdTableP r) (fmNum r) (filterTable r) (filterMasks r)
    (chNumP r) (alarmCnt r) (chNotFound r) (chNotInit r) (chNotMon r) (rderror r)
    (unknownChans r) (readErrTable r) (uninitChans r) (unMonChans r) (db r) v.


Definition with_cd (i : nat) (c : CDS_CD_TABLE) (s : Sdf) : Sdf := set_cdTable (upd i c (cdTable s)) s.
Definition with_filter (i : nat) (f : FILTER_TABLE) (s : Sdf) : Sdf := set_filterTable (upd i f (filterTable s)) s.

(** *** Marking lines

    [selectCounter] is the triple of counts of lines marked for reverting,
    accepting and monitoring. *)
Definition Counts : Type := Z * Z * Z.
Definition Rows : Type := nat → SET_ERR_TABLE.
Definition flag_on (b : Z) (r : SET_ERR_TABLE) : SET_ERR_TABLE := set_chFlag (Z.lor (chFlag r) b) r.
Definition flag_off (b : Z) (r : SET_ERR_TABLE) : SET_ERR_TABLE := set_chFlag (Z.land (chFlag r) (Z.lnot b)) r.
Definition flag_flip (b : Z) (r : SET_ERR_TABLE) : SET_ERR_TABLE := set_chFlag (Z.lxor (chFlag r) b) r.
Definition flagged (b : Z) (r : SET_ERR_TABLE) : bool := truthy (Z.land (chFlag r) b).

Definition clearTableSelections (numEntries : nat) (t : Rows) : Rows * Counts :=
  let t := for_n numEntries (λ ii t, upd ii (set_chFlag 0 (t ii)) t) t in
  (for_n numEntries (λ ii t, upd ii (set_filtNum (-1) (t ii)) t) t, (0, 0, 0)).

(** A channel written for a filter module: its mask and its command word. *)
Definition mask_chan (pref : string) (i : nat) : string := (pref +:+ "_SDF_FM_MASK_" +:+ fmt_d (Z.of_nat i))%string.
Definition ctrl_chan (pref : string) (i : nat) : string := (pref +:+ "_SDF_FM_MASK_CTRL_" +:+ fmt_d (Z.of_nat i))%string.

Definition setAllTableSelections (pref : string) (numEntries : nat) (selectOpt : Z) (t : Rows) (sc : Counts) (s : Sdf)
    : Rows * Counts * Sdf :=
  let '(sc0, sc1, sc2) := sc in
  if selectOpt =? 1 then
    let '(t, sc0, sc1) := for_n numEntries (λ ii '(t, sc0, sc1),
      let r := flag_on 2 (t ii) in
      let sc0 := sc0 + 1 in
      if flagged 4 r then (upd ii (flag_off 4 r) t, sc0, sc1 - 1) else (upd ii r t, sc0, sc1)) (t, 0, sc1) in
    (t, (sc0, sc1, sc2), s)
  else if selectOpt =? 2 then
    let '(t, sc0, sc1) := for_n numEntries (λ ii '(t, sc0, sc1),
      let r := flag_on 4 (t ii) in
      let sc1 := sc1 + 1 in
      if flagged 2 r then (upd ii (flag_off 2 r) t, sc0 - 1, sc1) else (upd ii r t, sc0, sc1)) (t, sc0, 0) in
    (t, (sc0, sc1, sc2), s)
  else if selectOpt =? 3 then
    let '(t, s) := for_n numEntries (λ ii '(t, s),
      let r := flag_on 8 (t ii) in
      (upd ii r t,
       if 0 <=? filtNum r then
         let f := Z.to_nat (filtNum r) in
         if filterMasks s f =? fmask (filterTable s f) then
           let m := if 0 <? Z.land ALL_SWSTAT_BITS (filterMasks s f) then 0 else ALL_ONES in
           set_db (put_long (mask_chan pref f) m (db s)) (set_filterMasks (upd f m (filterMasks s)) s)
         else s
       else s)) (t, s) in
    (t, (sc0, sc1, Z.of_nat numEntries), s)
  else (t, sc, s).

Definition changeSelectCB_uninit (index : nat) (t : Rows) (sc : Counts) : Rows * Counts :=
  let '(sc0, sc1, sc2) := sc in
  let revertBit := Z.land (chFlag (t index)) 2 in
  let acceptBit := Z.land (chFlag (t index)) 4 in
  let monBit := Z.land (chFlag (t index)) 8 in
  let '(revertBit, sc0) := if truthy revertBit then (0, sc0 - 1) else (revertBit, sc0) in
  let '(acceptBit, sc1) := if truthy monBit && negb (truthy acceptBit) then (4, sc1 + 1) else (acceptBit, sc1) in
  (upd index (set_chFlag (Z.lor (Z.lor revertBit acceptBit) monBit) (t index)) t, (sc0, sc1, sc2)).

(** The three columns of a line. *)
Definition select_column (selectBit : Z) (r : SET_ERR_TABLE) (sc : Counts) : SET_ERR_TABLE * Counts :=
  let '(sc0, sc1, sc2) := sc in
  if selectBit =? 0 then
    let r := flag_flip 2 r in
    let sc0 := if flagged 2 r then sc0 + 1 else sc0 - 1 in
    if flagged 4 r then (flag_off 4 r, (sc0, sc1 - 1, sc2)) else (r, (sc0, sc1, sc2))
  else if selectBit =? 1 then
    let r := flag_flip 4 r in
    let sc1 := if flagged 4 r then sc1 + 1 else sc1 - 1 in
    if flagged 2 r then (flag_off 2 r, (sc0 - 1, sc1, sc2)) else (r, (sc0, sc1, sc2))
  else if selectBit =? 2 then
    if filtNum r <? 0 then
      let r := flag_flip 8 r in
      (r, (sc0, sc1, if flagged 8 r then sc2 + 1 else sc2 - 1))
    else (r, sc)
  else (r, sc).

(** [cb] is whether the callback [changeSelectCB_uninit] is passed.  No result:
    the line is in front of the table. *)
Definition decodeChangeSelect (selNum page totalItems : Z) (cb : bool) (t : Rows) (sc : Counts)
    : option (Rows * Counts) :=
  let selectBit := Z.quot selNum 100 in
  let selectLine := Z.rem selNum 100 - 1 + page * SDF_ERR_DSIZE in
  if selectLine <? totalItems then
    if selectLine <? 0 then None
    else
      let i := Z.to_nat selectLine in
      let '(r, sc) := select_column selectBit (t i) sc in
      let t := upd i r t in
      Some (if cb then changeSelectCB_uninit i t sc else (t, sc))
  else Some (t, sc).

(** The commands that flip bits of the monitor mask of a filter module.  The
    line of the module is looked for among the lines of filters at the start of
    the table. *)
Definition find_line (errCnt : nat) (f : Z) (t : Rows) : nat :=
  default errCnt (snd (for_exit 0 errCnt
    (λ jj s, (s, if (0 <=? filtNum (t jj)) && negb (filtNum (t jj) =? f) then None else Some jj)) tt)).

Definition processFMChanCommands (pref : string) (errCnt : nat) (sc : Counts) (t : Rows) (s : Sdf)
    : Rows * Counts * Sdf :=
  for_n (Nat.min SDF_MAX_FMSIZE (fmNum s)) (λ ii '(t, sc, s),
    let ctrl := fst (db_long (ctrl_chan pref ii) (db s)) in
    if ctrl =? 0 then (t, sc, s)
    else
      let refMask := fmask (filterTable s ii) in
      let differs m := negb (Z.land refMask ALL_SWSTAT_BITS =? Z.land m ALL_SWSTAT_BITS) in
      let differsPre := differs (filterMasks s ii) in
      let m := Z.lxor (filterMasks s ii) ctrl in
      let differsPost := differs m in
      let s := set_filterMasks (upd ii m (filterMasks s)) s in
      let '(t, sc) :=
        if negb (bool_decide (differsPre = differsPost)) then
          let jj := find_line errCnt (Z.of_nat ii) t in
          if (jj <? errCnt)%nat && (filtNum (t jj) =? Z.of_nat ii) then
            let '(sc0, sc1, sc2) := sc in
            (upd jj (flag_flip CHFLAG_MONITOR_BIT (t jj)) t, (sc0, sc1, sc2 + (if differsPre then -1 else 1)))
          else (t, sc)
        else (t, sc) in
      (t, sc, set_db (put_long (ctrl_chan pref ii) 0 (put_long (mask_chan pref ii) m (db s))) s)) (t, sc, s).

(** *** Showing

    The text of switches as it is shown; of a setting without switches nothing
    is shown (and the byte in front of the buffer is cleared). *)
Definition switch_text (stype v : Z) : string := default ""%string (filtStrBitConvert stype v).
Definition int_of (x : binary64) : Z := f_to_int x.

Definition createSwitchText (f : FILTER_TABLE) (s : Sdf) : string :=
  let sw1s := int_of (get_chval (data (cdTableP s (sw0 f)))) in
  let sw2s := int_of (get_chval (data (cdTableP s (sw1 f)))) in
  switch_text 1 (filtCtrlBitConvert (u32 (sw1s + Z.shiftl sw2s 16))).

(** The string less its last character. *)
Definition chop (s : string) : string := String.substring 0 (String.length s - 1) s.
Definition time_text (t : Z) : string := chop (ctime t).
Definition filter_sigNum (f : FILTER_TABLE) : Z := Z.of_nat (sw0 f) + Z.of_nat (sw1 f) * SDF_MAX_TSIZE.
Definition show_line (nm bs ls ts df : string) (lv : binary64) (sig : Z) (r : SET_ERR_TABLE) : SET_ERR_TABLE :=
  mkRow nm bs ls ts df lv sig (chFlag r) (filtNum r) (rsw0 r) (rsw1 r).

(** The two switch settings of a filter: a setting out of range gets a line. *)
Definition check_range (f : FILTER_TABLE) (nm : string) (sig : nat) (rval mtime : Z) (t : Rows) (errCnt : nat)
    : Z * Rows * nat :=
  if 0xffff <? rval then
    (Z.land rval 0xffff,
     upd errCnt (show_line nm " " ("0x" +:+ fmt_x rval)%string (time_text mtime) "OVERRANGE" (b64_ofZ 0)
                   (Z.of_nat sig) (t errCnt)) t, S errCnt)
  else (rval, t, errCnt).

Definition check_filter (monitorAll displayall wcflag : bool) (wcstr : string) (ii : nat)
    (st : Rows * nat * Z * Sdf) : Rows * nat * Z * Sdf :=
  let '(t, errCnt, diffcntr, s) := st in
  let f := filterTable s ii in
  let name1 := (fname f +:+ "SW1S")%string in
  let name2 := (fname f +:+ "SW2S")%string in
  let '(v0, t0) := db_long name1 (db s) in
  let '(v1, t1) := db_long name2 (db s) in
  let mtime := Z.max t0 t1 in
  let '(r0, t, errCnt) := check_range f name1 (sw0 f) (u32 v0) mtime t errCnt in
  let '(r1, t, errCnt) := check_range f name2 (sw1 f) (u32 v1) mtime t errCnt in
  let presentVal := u32 (r0 + u32 (Z.shiftl r1 16)) in
  let refVal := filtCtrlBitConvert presentVal in
  let s := set_db (put_str (fname f +:+ "SWSTR")%string (switch_text 0 refVal) (db s)) s in
  let t := upd errCnt (set_filtNum (-1) (t errCnt)) t in
  let mask := u32 (fmask f) in
  let maskedRefVal := Z.land refVal mask in
  let maskedSwReqVal := Z.land (u32 (swreq f)) mask in
  let differs := negb (maskedRefVal =? maskedSwReqVal) && (Z.of_nat errCnt <? SDF_ERR_TSIZE) &&
                 (truthy mask || monitorAll) && truthy (finit f) in
  let diffcntr := if differs then diffcntr + 1 else diffcntr in
  if differs || displayall then
    let tmpname := chop (fname f) in
    if negb wcflag || strstr tmpname wcstr then
      let r := show_line tmpname (switch_text 1 (swreq f)) (switch_text 1 refVal) (time_text mtime)
                 (switch_text 1 (Z.lxor maskedRefVal maskedSwReqVal)) (b64_ofZ 0) (filter_sigNum f) (t errCnt) in
      let r := mkRow (rname r) (burtset r) (liveset r) (timeset r) (diff r) (liveval r) (sigNum r) (chFlag r)
                 (Z.of_nat ii) r0 r1 in
      let r := if truthy (Z.land (fmask f) ALL_SWSTAT_BITS) then flag_on 1 r
               else set_chFlag (Z.land (chFlag r) 0xe) r in
      (upd errCnt r t, S errCnt, diffcntr, s)
    else (t, errCnt, diffcntr, s)
  else (t, errCnt, diffcntr, s).

(** Returns the table, its length, the number of differences and the state. *)
Definition checkFilterSwitches (fcount : nat) (t : Rows) (monitorAll displayall wcflag : bool) (wcstr : string) (s : Sdf)
    : Rows * nat * Z * Sdf :=
  for_n fcount (check_filter monitorAll displayall wcflag wcstr) (t, 0%nat, 0, s).

(** The comparison of one setting with the database: [None], or how it is shown. *)
Definition compare_setting (listAll : bool) (c : CDS_CD_TABLE) (d : Db)
    : option (string * string * string * binary64 * Z) :=
  if datatype c =? SDF_NUM then
    let '(rval, mtime) := db_num (chname c) d in
    let x := get_chval (data c) in
    if (x ≠ᶠ rval) || listAll then
      Some (fmt_f 10 x, fmt_f 10 rval, fmt_e 8 (fabs (x ⊖ rval)), rval, mtime)
    else None
  else
    let '(sval, mtime) := db_str (chname c) d in
    let sval := String.substring 0 127 sval in
    if negb (bool_decide (get_strval (data c) = sval)) || listAll then
      Some (get_strval (data c), sval, "                                   "%string, b64_ofZ 0, mtime)
    else None.

(** [snprintf] into a buffer of 64 characters. *)
Definition fit64 (s : string) : string := String.substring 0 63 s.

(** Whether a setting is looked at, with C's precedence of [&&] and [||]. *)
Definition monitored (monitorAll listAll : bool) (errCntr : nat) (c : CDS_CD_TABLE) : bool :=
  ((Z.of_nat errCntr <? SDF_ERR_TSIZE) && (truthy (mask c) || monitorAll) && truthy (initialized c) &&
   (filterswitch c =? 0)) || (listAll && (filterswitch c =? 0)).

Definition check_setting (monitorAll wcVal : bool) (wcstring : string) (listAll : bool) (d : Db) (ii : nat)
    (c : CDS_CD_TABLE) (st : Rows * nat * Z) : Rows * nat * Z :=
  let '(t, errCntr, totalDiffs) := st in
  if monitored monitorAll listAll errCntr c then
    match compare_setting listAll c d with
    | Some (bs, ls, df, liveval, mtime) =>
        if wcVal && negb (strstr (chname c) wcstring) then (t, errCntr, totalDiffs + 1)
        else
          let num := datatype c =? SDF_NUM in
          let r := show_line (chname c) (if num then fit64 bs else bs) (if num then fit64 ls else ls)
                     (time_text mtime) (if num then fit64 df else df) liveval (Z.of_nat ii) (t errCntr) in
          let r := set_filtNum (-1) r in
          let r := if truthy (mask c) then flag_on 1 r else flag_off 1 r in
          (upd errCntr r t, S errCntr, totalDiffs + 1)
    | None => (t, errCntr, totalDiffs)
    end
  else (t, errCntr, totalDiffs).

(** Returns the table, its length, the number of differences and the state. *)
Definition spChecker (monitorAll : bool) (t : Rows) (wcVal : bool) (wcstring : string) (listAll : bool) (s : Sdf)
    : Rows * nat * Z * Sdf :=
  let '(t, errCntr, filtDiffs, s) :=
    checkFilterSwitches (fmNum s) t monitorAll listAll wcVal wcstring s in
  let '(t, errCntr, totalDiffs) :=
    for_n (chNum s) (λ ii, check_setting monitorAll wcVal wcstring listAll (db s) ii (cdTable s ii)) (t, errCntr, filtDiffs) in
  (t, errCntr, totalDiffs, s).


(** *** Lists of settings to show on request: those that no file has set, and
    those that are not monitored *)
Definition cut_blank : string := " "%string.
Definition filter_line (f : FILTER_TABLE) (ii : nat) (bs : string) (s : Sdf) (r : SET_ERR_TABLE)
    : SET_ERR_TABLE :=
  let r := set_burtset bs (set_rname (chop (fname f)) r) in
  let r := set_liveval (b64_ofZ 0) r in
  let r := set_rsw0 (u32 (int_of (get_chval (data (cdTableP s (sw0 f)))))) r in
  let r := set_rsw1 (u32 (int_of (get_chval (data (cdTableP s (sw1 f)))))) r in
  set_liveset (createSwitchText f s) (set_filtNum (Z.of_nat ii) (set_sigNum (filter_sigNum f) r)).

Definition sort_filter (wcval : bool) (wcstring : string) (ii : nat) (st : nat * nat * Sdf) : nat * nat * Sdf :=
  let '(lna, lnb, s) := st in
  let f := filterTable s ii in
  let uninit := negb (truthy (finit f)) in
  let unmon := truthy (finit f) && negb (truthy (Z.land (fmask f) ALL_SWSTAT_BITS)) in
  let s := if uninit then set_chNotInit (chNotInit s + 1) s else s in
  let s := if unmon then set_chNotMon (chNotMon s + 1) s else s in
  if wcval && negb (strstr (fname f) wcstring) then (lna, lnb, s)
  else
    let '(lna, s) :=
      if uninit
      then (S lna, set_uninitChans (upd lna (filter_line f ii "" s (uninitChans s lna)) (uninitChans s)) s)
      else (lna, s) in
    if unmon then
      let r := filter_line f ii (switch_text 1 (swreq f)) s (unMonChans s lnb) in
      (lna, S lnb, set_unMonChans (upd lnb r (unMonChans s)) s)
    else (lna, lnb, s).

Definition uninit_line (c p : CDS_CD_TABLE) (jj : nat) (r : SET_ERR_TABLE) : SET_ERR_TABLE :=
  let '(liveval, live) :=
    if datatype c =? SDF_NUM then (get_chval (data p), fit64 (fmt_f 10 (get_chval (data p))))
    else (b64_ofZ 0, fit64 (get_strval (data p))) in
  mkRow (chname c) (burtset r) live cut_blank cut_blank liveval (Z.of_nat jj) (chFlag r) (-1) (rsw0 r) (rsw1 r).

Definition unmon_line (c p : CDS_CD_TABLE) (jj : nat) (r : SET_ERR_TABLE) : SET_ERR_TABLE :=
  let '(bs, live, liveval) :=
    if datatype c =? SDF_NUM then
      (fit64 (fmt_f 10 (get_chval (data c))), fit64 (fmt_f 10 (get_chval (data p))), get_chval (data p))
    else (get_strval (data c), get_strval (data p), b64_ofZ 0) in
  mkRow (chname c) bs live cut_blank cut_blank liveval (Z.of_nat jj) (chFlag r) (-1) (rsw0 r) (rsw1 r).

Definition sort_setting (wcval : bool) (wcstring : string) (jj : nat) (st : nat * nat * Sdf) : nat * nat * Sdf :=
  let '(lna, lnb, s) := st in
  let c := cdTable s jj in
  if truthy (filterswitch c) then st
  else
    let uninit := negb (truthy (initialized c)) in
    let unmon := truthy (initialized c) && negb (truthy (mask c)) in
    let s := if uninit then set_chNotInit (chNotInit s + 1) s else s in
    let s := if unmon then set_chNotMon (chNotMon s + 1) s else s in
    if wcval && negb (strstr (chname c) wcstring) then (lna, lnb, s)
    else
      let '(lna, s) :=
        if uninit && (Z.of_nat lna <? SDF_ERR_TSIZE) then
          let s := set_uninitChans (upd lna (uninit_line c (cdTableP s jj) jj (uninitChans s lna)) (uninitChans s)) s in
          (S lna, set_unMonChans (upd lna (set_timeset cut_blank (unMonChans s lna)) (unMonChans s)) s)
        else (lna, s) in
      if unmon && (Z.of_nat lnb <? SDF_ERR_TSIZE) then
        (lna, S lnb, set_unMonChans (upd lnb (unmon_line c (cdTableP s jj) jj (unMonChans s lnb)) (unMonChans s)) s)
      else (lna, lnb, s).

Definition blank_line (r : SET_ERR_TABLE) : SET_ERR_TABLE :=
  mkRow cut_blank cut_blank cut_blank cut_blank cut_blank (b64_ofZ 0) 0 (chFlag r) (-1) (rsw0 r) (rsw1 r).

(** Called with [times] null.  Returns the state, [*noInit] and the result. *)
Definition createSortTableEntries (numEntries : nat) (wcval : bool) (wcstring : string) (s : Sdf) : Sdf * nat * nat :=
  let s := set_chNotMon 0 (set_chNotInit 0 s) in
  let st := for_n (fmNum s) (sort_filter wcval wcstring) (0%nat, 0%nat, s) in
  let '(lna, lnb, s) := for_n numEntries (sort_setting wcval wcstring) st in
  let s := for_up lna 50 (λ jj s, set_uninitChans (upd jj (blank_line (uninitChans s jj)) (uninitChans s)) s) s in
  let s := for_up lnb 50 (λ jj s, set_unMonChans (upd jj (blank_line (unMonChans s jj)) (unMonChans s)) s) s in
  (s, lna, lnb).

(** The page shown and the lines of the table on it. *)
Definition report_page (numEntries page : Z) : Z * Z * Z :=
  let mypage := page in
  let myindex := page * SDF_ERR_DSIZE in
  let '(mypage, myindex) :=
    if (myindex =? numEntries) && (0 <? numEntries) then (mypage - 1, (mypage - 1) * SDF_ERR_DSIZE)
    else (mypage, myindex) in
  let '(mypage, myindex) :=
    if numEntries <? myindex then (Z.quot numEntries SDF_ERR_DSIZE, Z.quot numEntries SDF_ERR_DSIZE * SDF_ERR_DSIZE)
    else (mypage, myindex) in
  let rc := Z.min (myindex + SDF_ERR_DSIZE) numEntries in
  (mypage, myindex, rc).

(** The channels of line [n] of the screen. *)
Definition put_line (pref : string) (n : nat) (nm bs ls ts df : string) (flag filt num : Z) (d : Db) : Db :=
  let k := fmt_d (Z.of_nat n) in
  let stat := (pref +:+ "_SDF_SP_STAT" +:+ k)%string in
  let d := put_str stat nm d in
  let d := put_str (stat +:+ "_BURT")%string bs d in
  let d := put_str (stat +:+ "_LIVE")%string ls d in
  let d := put_str (stat +:+ "_TIME")%string ts d in
  let d := put_str (stat +:+ "_DIFF")%string df d in
  let d := put_long (pref +:+ "_SDF_BITS_" +:+ k)%string flag d in
  let d := put_long (pref +:+ "_SDF_FM_LINE_" +:+ k)%string filt d in
  put_long (pref +:+ "_SDF_LINE_" +:+ k)%string num d.

Definition reportSetErrors (pref : string) (numEntries : Z) (t : Rows) (page : Z) (linkInFilters : bool) (s : Sdf)
    : Sdf * Z :=
  let '(mypage, myindex, rc) := report_page numEntries page in
  let i0 := Z.to_nat myindex in
  let numDisp := Z.to_nat (rc - myindex) in
  let d := for_n numDisp (λ n d,
    let r := t (i0 + n)%nat in
    put_line pref n (rname r) (burtset r) (liveset r) (timeset r) (diff r) (chFlag r)
      (if linkInFilters then filtNum r else -1) (Z.of_nat (i0 + n) + 1) d) (db s) in
  let lineCtr := if (numDisp =? 0)%nat then 0 else rc in
  let clear := "                       "%string in
  let d := for_up numDisp (40 - numDisp) (λ n d,
    put_line pref n clear clear clear clear clear 0 (-1) (lineCtr + Z.of_nat (n - numDisp) + 1) d) d in
  (set_db d s, mypage).

(** *** Acting *)
Definition switches_of (s : Sdf) (f : FILTER_TABLE) : Z :=
  Z.land (f_to_uint (get_chval (data (cdTable s (sw0 f))))) 0xffff +
  u32 (Z.shiftl (Z.land (f_to_uint (get_chval (data (cdTable s (sw1 f))))) 0xffff) 16).

Definition newfilterstats (numchans : nat) (s : Sdf) : Sdf :=
  for_n numchans (λ ii s,
    let f := filterTable s ii in
    if truthy (newSet f) then
      let f := set_finit 1 (set_newSet 0 f) in
      let m := Z.lor (mask (cdTable s (sw0 f))) (mask (cdTable s (sw1 f))) in
      let f := set_fmask m f in
      let s := with_cd (sw0 f) (set_mask m (cdTable s (sw0 f))) s in
      let s := with_cd (sw1 f) (set_mask m (cdTable s (sw1 f))) s in
      let f := set_swreq (filtCtrlBitConvert (u32 (s32 (switches_of s f)))) f in
      let s := with_filter ii f s in
      let d := db s in
      let d := if db_found (fname f +:+ "SWREQ")%string d then put_long (fname f +:+ "SWREQ")%string (u32 (swreq f)) d else d in
      let d := if db_found (fname f +:+ "SWMASK")%string d then put_long (fname f +:+ "SWMASK")%string 0x1ffff d else d in
      set_db d s
    else s) s.

(** What an accepted or (un)monitored line does to a setting of its name. *)
Definition modify_setting (r : SET_ERR_TABLE) (jj : nat) (st : bool * Sdf) : bool * Sdf :=
  let '(found, s) := st in
  let c := cdTable s jj in
  if bool_decide (chname c = rname r) then
    let '(found, c) :=
      if flagged CHFLAG_ACCEPT_BIT r then
        (true, set_initialized 1
                 (set_data (if datatype c =? SDF_NUM then chval (liveval r) else strval (liveset r)) c))
      else (found, c) in
    let '(found, c) :=
      if flagged CHFLAG_MONITOR_BIT r then
        (true, if (0 <=? filterNum c) && (filterNum c <? Z.of_nat SDF_MAX_FMSIZE)
               then set_mask (filterMasks s (Z.to_nat (filterNum c))) c
               else set_mask (if truthy (mask c) then 0 else ALL_ONES) c)
      else (found, c) in
    (found, with_cd jj c s)
  else st.

Definition modify_filter (r : SET_ERR_TABLE) (s : Sdf) : Sdf :=
  let fm := Z.to_nat (filtNum r) in
  let s := with_filter fm (set_newSet 1 (filterTable s fm)) s in
  let sn1 := Z.to_nat (u32 (sigNum r) / SDF_MAX_TSIZE) in
  let sn := Z.to_nat (u32 (sigNum r) mod SDF_MAX_TSIZE) in
  let s :=
    if flagged CHFLAG_ACCEPT_BIT r then
      let s := with_cd sn (set_initialized 1 (set_data (chval (b64_ofZ (rsw0 r))) (cdTable s sn))) s in
      let s := with_cd sn1 (set_initialized 1 (set_data (chval (b64_ofZ (rsw1 r))) (cdTable s sn1))) s in
      with_filter fm (set_finit 1 (filterTable s fm)) s
    else s in
  if flagged CHFLAG_MONITOR_BIT r then
    let s := with_filter fm (set_fmask (filterMasks s fm) (filterTable s fm)) s in
    let s := with_cd sn (set_mask (filterMasks s fm) (cdTable s sn)) s in
    with_cd sn1 (set_mask (filterMasks s fm) (cdTable s sn1)) s
  else s.

Definition modify_line (r : SET_ERR_TABLE) (s : Sdf) : Sdf :=
  if 3 <? chFlag r then
    let '(found, s) := for_n (chNum s) (modify_setting r) (false, s) in
    if (0 <=? filtNum r) && negb found then modify_filter r s else s
  else s.

Definition modifyTable (numEntries : nat) (modTable : Rows) (s : Sdf) : Sdf :=
  let s := for_n numEntries (λ ii, modify_line (modTable ii)) s in
  newfilterstats (fmNum s) s.

(** [sn1] keeps its value from line to line. *)
Definition put_setting (c : CDS_CD_TABLE) (d : Db) : Db :=
  if datatype c =? SDF_NUM then put_num (chname c) (get_chval (data c)) d
  else put_str (chname c) (get_strval (data c)) d.
Definition reset_line (r : SET_ERR_TABLE) (st : Z * Sdf) : Z * Sdf :=
  let '(sn1, s) := st in
  if flagged 2 r then
    let sn := s32 (sigNum r) in
    let '(sn, sn1) := if SDF_MAX_TSIZE <? sn then (Z.rem sn SDF_MAX_TSIZE, Z.quot sn SDF_MAX_TSIZE) else (sn, sn1) in
    let s := set_db (put_setting (cdTable s (Z.to_nat sn)) (db s)) s in
    let s := if truthy sn1 then
               let c := cdTable s (Z.to_nat sn1) in
               set_db (put_num (chname c) (get_chval (data c)) (db s)) s
             else s in
    (sn1, s)
  else st.

Definition resetSelectedValues (errNum : nat) (modTable : Rows) (s : Sdf) : Sdf :=
  snd (for_n errNum (λ ii, reset_line (modTable ii)) (0, s)).

(** *** Filter modules *)
Definition registerFilters (s : Sdf) : Sdf :=
  let s := set_fmNum 0%nat s in
  for_n (chNum s) (λ ii s,
    if filterswitch (cdTable s ii) =? 1 then
      let nm := chname (cdTable s ii) in
      let fn := String.substring 0 (String.length nm - 4) nm in
      let tmpstr := fit64 (fn +:+ "SW2S")%string in
      let f := set_sw0 ii (set_fname fn (filterTable s (fmNum s))) in
      let s := with_cd ii (set_filterNum (Z.of_nat (fmNum s)) (cdTable s ii)) s in
      let f := for_n (chNum s) (λ jj f, if bool_decide (tmpstr = chname (cdTable s jj)) then set_sw1 jj f else f) f in
      set_fmNum (S (fmNum s)) (with_filter (fmNum s) f s)
    else s) s.

Definition joint_mask (s : Sdf) (ii : nat) : Z :=
  Z.lor (mask (cdTable s (sw0 (filterTable s ii)))) (mask (cdTable s (sw1 (filterTable s ii)))).
Definition set_filter_mask (pref : string) (ii : nat) (m : Z) (s : Sdf) : Sdf :=
  let s := with_filter ii (set_fmask m (filterTable s ii)) s in
  set_db (put_long (mask_chan pref ii) m (db s)) (set_filterMasks (upd ii m (filterMasks s)) s).
Definition setupFMArrays (pref : string) (s : Sdf) : Sdf :=
  for_n SDF_MAX_FMSIZE (λ ii s,
    let s := set_filter_mask pref ii (joint_mask s ii) s in
    set_db (put_long (ctrl_chan pref ii) 0 (db s)) s) s.
Definition resyncFMArrays (pref : string) (s : Sdf) : Sdf :=
  for_n SDF_MAX_FMSIZE (λ ii s, set_filter_mask pref ii (Z.land (joint_mask s ii) ALL_SWSTAT_BITS) s) s.

End defs.
End SdfTable.
