(* ===== verification/SdfFile.v ===== *)
(** * Set point monitoring: files ([src/epics/seq/main.c])

    Saving the table of settings, or the values in the database, to a file, and
    loading a file in the table and the database.

    - [getEpicsSettings], [writeTable2File]: saving, to the text of a file;
    - [readConfig]: loading, from the text of a file ([read_line] is the body of
      its loop); [writeEpicsDb];
    - [checkFileCrc]: the checksum by which a changed file is noticed;
    - opening and closing of files, and the log, are left out: a file is its text. *)
From stdpp Require Import strings.
From S2P Require Import Prelude CFloat CText Crc SdfText SdfTable.
Import SdfText SdfTable.

Module SdfFile.

Definition SDF_LOAD_PARTIAL : Z := 1.
Definition SDF_READ_ONLY : Z := 2.
Definition SDF_RESET : Z := 3.
Definition SDF_LOAD_DB_ONLY : Z := 4.

Section defs.
Context {Db : Type} `{!Epics Db}.
Local Abbreviation Sdf := (@Sdf Db).
Variable pun_num : string → binary64.
Variable pun_str : binary64 → string.
Let get_chval := get_chval pun_num.
Let get_strval := get_strval pun_str.

(** ** Saving *)

(** The values in the database, in the second table ([times] is null). *)
Definition get_setting (ii : nat) (s : Sdf) : Sdf :=
  let c := cdTable s ii in
  let p := set_initialized (initialized c) (set_mask (mask c) (set_datatype (datatype c)
             (set_chname (chname c) (cdTableP s ii)))) in
  let p :=
    if db_found (chname c) (db s) then
      if datatype c =? SDF_NUM then
        let dval := fst (db_num (chname c) (db s)) in
        set_data (chval (if truthy (filterswitch c) then b64_ofZ (Z.land (f_to_int dval) 0xffff) else dval)) p
      else set_data (strval (fit64 (fst (db_str (chname c) (db s))))) p
    else p in
  set_cdTableP (upd ii p (cdTableP s)) s.
Definition getEpicsSettings (numchans : nat) (s : Sdf) : Sdf := for_n numchans get_setting s.

Inductive FileType := SDF_WITH_INIT_FLAG | SDF_FILE_PARAMS_ONLY | SDF_FILE_BURT_ONLY.

Definition monitor_string (c : CDS_CD_TABLE) : string :=
  if truthy (filterswitch c) then
    if Z.land (mask c) ALL_SWSTAT_BITS =? ALL_ONES then "1"
    else if Z.land (mask c) ALL_SWSTAT_BITS =? 0 then "0"
    else ("0x" +:+ fmt_x (mask c))%string
  else if truthy (mask c) then "1" else "0".

(** The text of a value: [%.15e], or the encoded string. *)
Definition value_text (c : CDS_CD_TABLE) : string :=
  if datatype c =? SDF_NUM then fmt_e 15 (get_chval (data c)) else encodeBURTString (get_strval (data c)) 66.

Definition table_line (ftype : FileType) (c : CDS_CD_TABLE) : string :=
  match ftype with
  | SDF_WITH_INIT_FLAG =>
      (chname c +:+ " 1 " +:+ value_text c +:+ " " +:+ monitor_string c +:+ " " +:+ fmt_d (initialized c) +:+ newline)%string
  | SDF_FILE_PARAMS_ONLY =>
      if truthy (initialized c) then setting_line (chname c) (value_text c) (monitor_string c) else ""
  | SDF_FILE_BURT_ONLY =>
      if datatype c =? SDF_NUM then (chname c +:+ " 1 " +:+ value_text c +:+ newline)%string
      else (chname c +:+ " 1 " +:+ value_text c +:+ " " +:+ newline)%string
  end.

Definition burt_header (timestring burtdir : string) : string :=
  ("--- Start BURT header" +:+ newline +:+ "Time:      " +:+ timestring +:+ newline +:+
   "Login ID: controls ()" +:+ newline +:+ "Eff  UID: 1001 " +:+ newline +:+ "Group ID: 1001 " +:+ newline +:+
   "Keywords:" +:+ newline +:+ "Comments:" +:+ newline +:+ "Type:     Absolute  " +:+ newline +:+
   "Directory: " +:+ burtdir +:+ newline +:+ "Req File: autoBurt.req " +:+ newline +:+
   "--- End BURT header" +:+ newline)%string.

Definition writeTable2File (timestring burtdir : string) (ftype : FileType) (myTable : nat → CDS_CD_TABLE) (s : Sdf)
    : string :=
  for_n (chNum s) (λ ii file, file +:+ table_line ftype (myTable ii))%string (burt_header timestring burtdir).

(** ** Loading *)
Definition writeEpicsDb (numchans : nat) (myTable : nat → CDS_CD_TABLE) (command : Z) (d : Db) : Db * Z :=
  if (command =? SDF_LOAD_DB_ONLY) || (command =? SDF_LOAD_PARTIAL) then
    (for_n numchans (λ ii d,
       if db_found (chname (myTable ii)) d then put_setting pun_num pun_str (myTable ii) d else d) d, 0)
  else if command =? SDF_READ_ONLY then (d, 0)
  else if command =? SDF_RESET then
    (for_n numchans (λ ii d,
       if truthy (mask (myTable ii)) && db_found (chname (myTable ii)) d
       then put_setting pun_num pun_str (myTable ii) d else d) d, 0)
  else (d, -1).

(** [fgets] with a buffer of 128: the pieces of a file. *)
Definition file_lines (file : string) : list string := fgets_all 127 127 "" file.

Definition crc_piece (piece : string) (st : Z * Z) : Z * Z :=
  let '(flen, crc) := st in
  let clen := String.length (c_str piece) in
  (s32 (flen + Z.of_nat clen), Crc.crc_ptr (bytes_of piece) clen crc).
Definition checkFileCrc (file : option string) : option Z :=
  match file with
  | None => Some 0
  | Some text =>
      let '(flen, crc) := fold_left (λ st piece, crc_piece piece st) (file_lines text) (0, 0) in
      Crc.crc_len (u32 flen) crc
  end.

(** [sprintf] into [strval], of 64 characters: whether it fits. *)
Definition fits (s : string) : bool := (String.length s <? 64)%nat.

(** The monitor mask of a word. *)
Definition parse_mask (argcount : Z) (s4 : string) : Z :=
  if (3 <? argcount) && head_is is_digit s4 then
    if head_is (λ c, code c =? 120) (CText.tail s4) then
      if head_is (λ c, code c =? 48) s4 then default 0 (scan_x (CText.tail (CText.tail s4))) else 0
    else
      let m := atoi s4 in
      let m := if (m <? 0) || (1 <? m) then 0 else m in
      if 0 <? m then ALL_ONES else m
  else 0.

Definition read_error_row (nm bs df timestring : string) (r : SET_ERR_TABLE) : SET_ERR_TABLE :=
  show_line nm bs "OVERRANGE" timestring df (b64_ofZ 0) (sigNum r) r.

(** The new value of the entry [chNumP] and of a setting of its name. *)
Definition load_setting (command : Z) (s3 timestring : string) (ii : nat) (st : bool * Sdf) : bool * Sdf :=
  let '(fmatch, s) := st in
  let c := cdTable s ii in
  let p := cdTableP s (chNumP s) in
  if bool_decide (chname c = chname p) then
    let load := negb (command =? SDF_LOAD_DB_ONLY) in
    let '(c, p, s) :=
      if (datatype c =? SDF_STR) || (negb (head_is is_digit s3) && negb (String.prefix "-" s3)) then
        let p := set_data (strval s3) (set_datatype SDF_STR p) in
        (if load then set_data (strval s3) c else c, p, set_overrun (overrun s || negb (fits s3)) s)
      else
        let x := atof s3 in
        let '(x, s) :=
          if truthy (filterswitch c) then
            let s :=
              if x >ᶠ b64_ofZ 0xffff then
                let r := read_error_row (chname c) ("0x" +:+ fmt_x (f_to_int x))%string "MAX VAL = 0xffff" timestring
                           (readErrTable s (rderror s)) in
                set_rderror (S (rderror s)) (set_readErrTable (upd (rderror s) r (readErrTable s)) s)
              else s in
            (b64_ofZ (Z.land (f_to_int x) 0xffff), s)
          else (x, s) in
        (if load then set_data (chval x) c else c, set_data (chval x) (set_datatype SDF_NUM p), s) in
    let c := if load then set_initialized 1 (set_mask (mask p) c) else c in
    (true, set_cdTableP (upd (chNumP s) p (cdTableP s)) (with_cd ii c s))
  else st.

(** Marks the filter module of a switch setting. *)
Definition is_switch (s1 : string) : bool :=
  (strstr s1 "_SW1S" && negb (strstr s1 "_SW1S.")) || (strstr s1 "_SW2S" && negb (strstr s1 "_SW2S.")).
Definition mark_filter (s1 : string) (s : Sdf) : Sdf :=
  if is_switch s1 then
    let fn := String.substring 0 (String.length s1 - 4) s1 in
    match snd (for_exit 0 (fmNum s) (λ ii (u : unit),
                 (u, if bool_decide (fname (filterTable s ii) = fn) then Some ii else None)) tt) with
    | Some ii => with_filter ii (set_newSet 1 (filterTable s ii)) s
    | None => s
    end
  else s.

(** Returns the state, the text of the alarm file, and whether the limit on the
    number of channels was passed. *)
Definition read_line (ifo timestring : string) (command : Z) (line : string) (st : Sdf * string)
    : Sdf * string * bool :=
  let '(s, alarms) := st in
  let '(ws, argcount) := parseLine line 128 in
  let s1 := ws !!! 0%nat in
  let s3 := ws !!! 2%nat in
  let s4 := if bool_decide (ws !!! 3%nat = ""%string) then "0"%string else ws !!! 3%nat in
  if bool_decide (String.substring 0 3 s1 = String.substring 0 3 ifo) && negb (strstr s1 "_SWMASK") &&
     negb (strstr s1 "_SDF_NAME") && negb (strstr s1 "_SWREQ") && (2 <? argcount) then
    let n := chNumP s in
    let p := set_mask (parse_mask argcount s4) (set_chname s1 (cdTableP s n)) in
    let '(fmatch, s, alarms) :=
      if isAlarmChannel (Some s1) then
        let num := head_is is_digit s3 in
        let p := if num then set_data (chval (atof s3)) (set_datatype SDF_NUM p)
                 else set_data (strval s3) (set_datatype SDF_STR p) in
        let s := set_overrun (overrun s || (negb num && negb (fits s3))) s in
        (false, set_alarmCnt (alarmCnt s + 1) (set_cdTableP (upd n p (cdTableP s)) s),
         (alarms +:+ s1 +:+ " " +:+ ws !!! 1%nat +:+ " " +:+ s3 +:+ newline)%string)
      else
        let '(fmatch, s) :=
          for_n (chNum s) (load_setting command s3 timestring) (false, set_cdTableP (upd n p (cdTableP s)) s) in
        (fmatch, s, alarms) in
    let s := mark_filter s1 s in
    let s :=
      if fmatch then set_chNumP (S n) s
      else
        let s :=
          if Z.of_nat (chNotFound s) <? SDF_ERR_TSIZE then
            let r := unknownChans s (chNotFound s) in
            let r := mkRow s1 (burtset r) (if db_found s1 (db s) then "RO Channel " else "  ") cut_blank cut_blank
                       (b64_ofZ 0) (sigNum r) 0 (filtNum r) (rsw0 r) (rsw1 r) in
            set_unknownChans (upd (chNotFound s) r (unknownChans s)) s
          else s in
        set_chNotFound (S (chNotFound s)) s in
    (s, alarms, SDF_MAX_CHANS <=? Z.of_nat (chNumP s))
  else (s, alarms, false).

Fixpoint read_lines (ifo timestring : string) (command : Z) (lines : list string) (st : Sdf * string)
    : Sdf * string * bool :=
  match lines with
  | [] => (st, false)
  | l :: lines =>
      let '(st, full) := read_line ifo timestring command l st in
      if full then (st, true) else read_lines ifo timestring command lines st
  end.

(** Returns the state, the status, and the alarm file when one is written.
    [file] is [None] when it cannot be opened. *)
Definition readConfig (pref timechan timestring : string) (file : option string) (command : Z) (s : Sdf)
    : Sdf * Z * option string :=
  let s := set_rderror 0%nat s in
  let finish (s : Sdf) (lderror : Z) (alarms : option string) :=
    (set_db (put_str timechan timestring (db s)) s, if (rderror s =? 0)%nat then lderror else 2, alarms) in
  if command =? SDF_RESET then
    let '(d, lderror) := writeEpicsDb (chNum s) (cdTable s) command (db s) in
    finish (set_db d s) lderror None
  else
    match file with
    | None => (s, 4, None)
    | Some text =>
        let s := set_chNotFound 0%nat (set_alarmCnt 0 (set_chNumP 0%nat s)) in
        let '(s, alarms, full) :=
          read_lines (String.substring 0 3 pref) timestring command (file_lines text) (s, ""%string) in
        if full then (s, 4, Some alarms)
        else
          let '(d, lderror) := writeEpicsDb (chNumP s) (cdTableP s) command (db s) in
          finish (newfilterstats pun_num (fmNum s) (set_db d s)) lderror (Some alarms)
    end.

End defs.
End SdfFile.
