(* ===== verification/SdfProps.v ===== *)
(** * Properties of set point monitoring ([SdfTable.v])

    - [spChecker] shows the settings that differ, and only those;
    - the counts of marked lines are right after any sequence of marks;
    - accepting, or reverting, all differences leaves none;
    - the pages of a table cover it. *)
From stdpp Require Import strings.
From Stdlib Require Import SpecFloat.
From S2P Require Import Prelude CFloat CText SdfText SdfTable.
Import SdfText SdfTable.

Module SdfProps.

Lemma upd_eq {A} i (x : A) f : upd i x f i = x.
Proof. unfold upd. by rewrite Nat.eqb_refl. Qed.
Lemma upd_ne {A} i j (x : A) f : i ≠ j → upd i x f j = f j.
Proof. intros Hn. unfold upd. by destruct (Nat.eqb_spec j i). Qed.

(** A loop that changes each row of a table by itself. *)
Lemma for_up_eq {A} n (g : A → A) (f : nat → A) i :
  for_n n (λ k f, upd k (g (f k)) f) f i = if (i <? n)%nat then g (f i) else f i.
Proof.
  assert (H : ∀ m, for_n m (λ k f, upd k (g (f k)) f) f i = if (i <? m)%nat then g (f i) else f i); [|apply H].
  induction m as [|m IH]; [done|]. rewrite for_up_S, Nat.add_0_l. unfold upd at 1.
  destruct (Nat.eqb_spec i m) as [->|Hn].
  - rewrite IH. destruct (Nat.ltb_spec m m), (Nat.ltb_spec m (S m)); (done || lia).
  - rewrite IH. destruct (Nat.ltb_spec i m), (Nat.ltb_spec i (S m)); (done || lia).
Qed.

(** What the monitor relies on from the database: a value written is the value
    read, and other records keep theirs.  A string record holds 39 characters. *)
Class EpicsLaws (Db : Type) `{!Epics Db} := {
  num_put n x d : fst (db_num n (put_num n x d)) = x;
  str_put n v d : (String.length v <= 39)%nat → fst (db_str n (put_str n v d)) = v;
  num_put_num n m x d : n ≠ m → db_num m (put_num n x d) = db_num m d;
  num_put_str n m x d : n ≠ m → db_num m (put_str n x d) = db_num m d;
  str_put_num n m x d : n ≠ m → db_str m (put_num n x d) = db_str m d;
  str_put_str n m x d : n ≠ m → db_str m (put_str n x d) = db_str m d;
  found_put_num n m x d : db_found m (put_num n x d) = db_found m d;
  found_put_str n m x d : db_found m (put_str n x d) = db_found m d
}.

Section checker.
Context {Db : Type} `{!Epics Db}.
Variable ctime : Z → string.
Variable pun_num : string → binary64.
Variable pun_str : binary64 → string.
Local Abbreviation Sdf := (@Sdf Db).
Local Abbreviation compare_setting := (compare_setting pun_num pun_str).
Local Abbreviation spChecker := (spChecker ctime pun_num pun_str).
Local Abbreviation check_setting := (check_setting ctime pun_num pun_str).

(** ** What is shown

    A setting is to be looked at; it disagrees with the database; it is to be
    shown.  Numbers agree when they compare equal, so that a NaN agrees with
    nothing; strings agree when the first 127 characters of the record are the
    set point. *)
Definition looked_at (monitorAll listAll : bool) (c : CDS_CD_TABLE) : bool :=
  (filterswitch c =? 0) && (((truthy (mask c) || monitorAll) && truthy (initialized c)) || listAll).
Definition live_num (d : Db) (c : CDS_CD_TABLE) : binary64 := fst (db_num (chname c) d).
Definition live_str (d : Db) (c : CDS_CD_TABLE) : string := String.substring 0 127 (fst (db_str (chname c) d)).
Definition agrees (d : Db) (c : CDS_CD_TABLE) : Prop :=
  if decide (datatype c = SDF_NUM) then SFcompare (get_chval pun_num (data c)) (live_num d c) = Some Eq
  else get_strval pun_str (data c) = live_str d c.
#[local] Instance agrees_dec d c : Decision (agrees d c).
Proof. unfold agrees. destruct (decide _); solve_decision. Defined.
Definition differs (monitorAll listAll : bool) (d : Db) (c : CDS_CD_TABLE) : bool :=
  looked_at monitorAll listAll c && (listAll || bool_decide (¬ agrees d c)).
Definition selected (wcVal : bool) (wcstring : string) (c : CDS_CD_TABLE) : bool :=
  negb wcVal || strstr (chname c) wcstring.
Definition shown (monitorAll wcVal : bool) (wcstring : string) (listAll : bool) (d : Db) (cd : nat → CDS_CD_TABLE)
    (n : nat) : list nat :=
  filter (λ ii, differs monitorAll listAll d (cd ii) && selected wcVal wcstring (cd ii) = true) (seq 0 n).
Definition differing (monitorAll listAll : bool) (d : Db) (cd : nat → CDS_CD_TABLE) (n : nat) : list nat :=
  filter (λ ii, differs monitorAll listAll d (cd ii) = true) (seq 0 n).

(** A line describes a setting: the set point, the value in the database, their
    difference and the time of the value, as text. *)
Definition describes (listAll : bool) (d : Db) (cd : nat → CDS_CD_TABLE) (ii : nat) (r : SET_ERR_TABLE) : Prop :=
  let c := cd ii in
  rname r = chname c ∧ sigNum r = Z.of_nat ii ∧ filtNum r = -1 ∧
  Z.land (chFlag r) 1 = (if truthy (mask c) then 1 else 0) ∧
  (datatype c = SDF_NUM →
    liveval r = live_num d c ∧ timeset r = time_text ctime (snd (db_num (chname c) d)) ∧
    burtset r = fit64 (fmt_f 10 (get_chval pun_num (data c))) ∧ liveset r = fit64 (fmt_f 10 (live_num d c)) ∧
    diff r = fit64 (fmt_e 8 (fabs (get_chval pun_num (data c) ⊖ live_num d c)))) ∧
  (datatype c ≠ SDF_NUM →
    burtset r = get_strval pun_str (data c) ∧ liveset r = live_str d c ∧
    timeset r = time_text ctime (snd (db_str (chname c) d))).

Lemma agrees_num d c : datatype c = SDF_NUM → agrees d c ↔ feqb (get_chval pun_num (data c)) (live_num d c) = true.
Proof.
  intros Hn. unfold agrees. rewrite decide_True by done. cbn. unfold SFeqb.
  by destruct (SFcompare _ _) as [[| |]|].
Qed.

Lemma agrees_str d c : datatype c ≠ SDF_NUM → agrees d c ↔ get_strval pun_str (data c) = live_str d c.
Proof. intros Hn. unfold agrees. by rewrite decide_False. Qed.

(** The comparison of the code finds the disagreements. *)
Ltac compared :=
  split; [intros [x Hx]; first [discriminate Hx | by left | by right] | intros [Hl|Hd]; first [exact (mk_is_Some _ _ eq_refl) | discriminate Hl | by destruct Hd]].

Lemma compare_disagrees listAll d c :
  is_Some (compare_setting listAll c d) ↔ listAll = true ∨ ¬ agrees d c.
Proof.
  unfold SdfTable.compare_setting. destruct (Z.eqb_spec (datatype c) SDF_NUM) as [Hn|Hn].
  - rewrite agrees_num by done. unfold live_num. destruct (db_num (chname c) d) as [v tm]. cbn [fst].
    destruct (get_chval pun_num (data c) =ᶠ v), listAll; cbn [negb orb]; compared.
  - rewrite agrees_str by done. unfold live_str. destruct (db_str (chname c) d) as [v tm]. cbn [fst].
    case_bool_decide; destruct listAll; cbn [negb orb]; compared.
Qed.

Lemma compare_differs monitorAll listAll d c :
  differs monitorAll listAll d c = looked_at monitorAll listAll c && bool_decide (is_Some (compare_setting listAll c d)).
Proof.
  unfold differs. f_equal. pose proof (compare_disagrees listAll d c) as H'.
  destruct listAll; [by rewrite (bool_decide_true (is_Some _)) by (apply H'; by left)|].
  apply bool_decide_ext. rewrite H'. split; [by right | by intros [|]].
Qed.

Lemma monitored_looked monitorAll listAll e c :
  Z.of_nat e < SDF_ERR_TSIZE → monitored monitorAll listAll e c = looked_at monitorAll listAll c.
Proof.
  intros He. unfold monitored, looked_at. destruct (Z.ltb_spec (Z.of_nat e) SDF_ERR_TSIZE); [|lia].
  destruct (truthy (mask c)), monitorAll, (truthy (initialized c)), (filterswitch c =? 0), listAll; done.
Qed.

Lemma flag_on_1 r : Z.land (chFlag (flag_on 1 r)) 1 = 1.
Proof.
  simpl. apply Z.bits_inj'. intros i Hi. rewrite !Z.land_spec, Z.lor_spec.
  destruct (Z.testbit 1 i), (Z.testbit (chFlag r) i); done.
Qed.

Lemma flag_off_1 r : Z.land (chFlag (flag_off 1 r)) 1 = 0.
Proof.
  simpl. apply Z.bits_inj'. intros i Hi. rewrite !Z.land_spec, Z.lnot_spec, Z.bits_0 by done.
  destruct (Z.testbit 1 i), (Z.testbit (chFlag r) i); done.
Qed.

(** One setting: the table and the counts after it. *)
Lemma check_setting_spec monitorAll wcVal wcstring listAll d cd ii t e k :
  Z.of_nat e < SDF_ERR_TSIZE →
  let c := cd ii in
  let '(t', e', k') := check_setting monitorAll wcVal wcstring listAll d ii c (t, e, k) in
  k' = k + (if differs monitorAll listAll d c then 1 else 0) ∧
  if differs monitorAll listAll d c && selected wcVal wcstring c then
    e' = S e ∧ describes listAll d cd ii (t' e) ∧ ∀ j, j ≠ e → t' j = t j
  else e' = e ∧ t' = t.
Proof.
  intros He c. unfold check_setting. rewrite monitored_looked by done.
  rewrite compare_differs. unfold selected. fold c. destruct (looked_at monitorAll listAll c); [|simpl; split_and!; (done || lia)].
  destruct (compare_setting listAll c d) as [[[[[bs ls] df] lv] tm]|] eqn:E;
    [|rewrite bool_decide_false by (by intros []); simpl; split_and!; (done || lia)].
  rewrite bool_decide_true by done. cbn [andb].
  destruct wcVal, (strstr (chname c) wcstring); cbn [negb andb orb]; split; try done.
  all: split_and!; [done | | intros j Hj; by apply upd_ne]; rewrite upd_eq.
  all: unfold describes, live_num, live_str; fold c; unfold SdfTable.compare_setting in E.
  all: destruct (Z.eqb_spec (datatype c) SDF_NUM) as [Hn|Hn];
    [destruct (db_num (chname c) d) as [rv rt] | destruct (db_str (chname c) d) as [sv st]];
    destruct (_ || _); try done; injection E as <- <- <- <- <-.
  all: destruct (truthy (mask c)); split_and!; try done; try apply flag_on_1; try apply flag_off_1; by intros _.
Qed.

Lemma shown_app monitorAll wcVal wcstring listAll d cd a n :
  filter (λ ii, differs monitorAll listAll d (cd ii) && selected wcVal wcstring (cd ii) = true) (seq a (S n)) =
  filter (λ ii, differs monitorAll listAll d (cd ii) && selected wcVal wcstring (cd ii) = true) (seq a n) ++
  (if differs monitorAll listAll d (cd (a + n)%nat) && selected wcVal wcstring (cd (a + n)%nat) then [(a + n)%nat] else []).
Proof.
  rewrite seq_S, filter_app. f_equal. rewrite filter_cons, filter_nil.
  by destruct (_ && _); [rewrite decide_True | rewrite decide_False].
Qed.

Lemma check_all_spec monitorAll wcVal wcstring listAll d cd n t e k :
  Z.of_nat e + Z.of_nat n <= SDF_ERR_TSIZE →
  let '(t', e', k') := for_n n (λ ii, check_setting monitorAll wcVal wcstring listAll d ii (cd ii)) (t, e, k) in
  let l := shown monitorAll wcVal wcstring listAll d cd n in
  e' = (e + length l)%nat ∧ k' = k + Z.of_nat (length (differing monitorAll listAll d cd n)) ∧
  (∀ i ii, l !! i = Some ii → describes listAll d cd ii (t' (e + i)%nat)) ∧
  ∀ j, (j < e)%nat → t' j = t j.
Proof.
  intros Hc. induction n as [|n IH].
  - simpl. split_and!; (done || lia).
  - rewrite for_up_S, Nat.add_0_l.
    destruct (for_n n _ (t, e, k)) as [[t1 e1] k1]. destruct IH as (He & Hk & Hd & Ht); [lia|].
    assert (Hl : (length (shown monitorAll wcVal wcstring listAll d cd n) <= n)%nat).
    { unfold shown. etrans; [apply length_filter|]. by rewrite length_seq. }
    pose proof (check_setting_spec monitorAll wcVal wcstring listAll d cd n t1 e1 k1) as H.
    cbv zeta in H.
    destruct (check_setting monitorAll wcVal wcstring listAll d n (cd n) (t1, e1, k1)) as [[t2 e2] k2].
    destruct H as [Hk2 H]; [lia|].
    unfold shown, differing in *. rewrite shown_app, seq_S, filter_app, filter_cons, filter_nil, !length_app, !Nat.add_0_l.
    destruct (differs monitorAll listAll d (cd n)) eqn:Ed; cbn [andb] in *.
    + rewrite decide_True by done. destruct (selected wcVal wcstring (cd n)).
      * destruct H as (-> & Hdn & Hj). cbn [length]. split_and!; [lia | lia | | intros j Hj'; rewrite Hj by lia; by apply Ht].
        intros i ii [Hi|[Hi Hx]]%lookup_app_Some.
        -- assert (i < length (shown monitorAll wcVal wcstring listAll d cd n))%nat by (by eapply lookup_lt_Some).
           unfold shown in *. rewrite Hj by lia. by apply Hd.
        -- destruct (i - _)%nat eqn:Ei; [|done]. injection Hx as <-. by replace (e + i)%nat with e1 by lia.
      * destruct H as [-> ->]. rewrite app_nil_r. cbn [length]. split_and!; (done || lia).
    + rewrite decide_False by done. destruct H as [-> ->]. rewrite app_nil_r. cbn [length]. split_and!; (done || lia).
Qed.

(** *** Filter modules

    The live words of the two switch settings of a module and the register they
    make; a switch of the module as it is, as it is wanted, and whether it is
    watched. *)
Definition sw_name (second : bool) (f : FILTER_TABLE) : string := (fname f +:+ if second then "SW2S" else "SW1S")%string.
Definition sw_word (d : Db) (second : bool) (f : FILTER_TABLE) : Z := u32 (fst (db_long (sw_name second f) d)).
Definition sw_time (d : Db) (f : FILTER_TABLE) : Z :=
  Z.max (snd (db_long (sw_name false f) d)) (snd (db_long (sw_name true f) d)).
Definition register (d : Db) (f : FILTER_TABLE) : Z :=
  Z.land (sw_word d false f) 0xffff + Z.shiftl (Z.land (sw_word d true f) 0xffff) 16.
Definition switch_on (d : Db) (f : FILTER_TABLE) (i : nat) : bool :=
  (i <? 17)%nat && Z.testbit (register d f) (const_pos !!! i).
Definition wanted (f : FILTER_TABLE) (i : nat) : bool := Z.testbit (swreq f) (Z.of_nat i).
Definition watched (f : FILTER_TABLE) (i : nat) : bool := Z.testbit (fmask f) (Z.of_nat i).

(** A module that a file has set differs when a watched switch is not as wanted. *)
Definition switches_differ (d : Db) (f : FILTER_TABLE) : bool :=
  truthy (finit f) && existsb (λ i, watched f i && negb (eqb (switch_on d f i) (wanted f i))) (seq 0 32).

(** The lines of a check: a switch word out of range, the switches of a module,
    a setting. *)
Inductive Line := RangeLine (ii : nat) (second : bool) | SwitchLine (ii : nat) | SettingLine (ii : nat).

Definition filter_lines (listAll wcVal : bool) (wcstring : string) (d : Db) (f : FILTER_TABLE) (ii : nat) : list Line :=
  (if 0xffff <? sw_word d false f then [RangeLine ii false] else []) ++
  (if 0xffff <? sw_word d true f then [RangeLine ii true] else []) ++
  (if (switches_differ d f || listAll) && (negb wcVal || strstr (chop (fname f)) wcstring) then [SwitchLine ii] else []).
Definition all_filter_lines (listAll wcVal : bool) (wcstring : string) (d : Db) (ft : nat → FILTER_TABLE) (n : nat)
    : list Line :=
  List.concat ((λ ii, filter_lines listAll wcVal wcstring d (ft ii) ii) <$> seq 0 n).
Definition differing_filters (d : Db) (ft : nat → FILTER_TABLE) (n : nat) : list nat :=
  filter (λ ii, switches_differ d (ft ii) = true) (seq 0 n).

(** The check leaves the text of a module's switches in the database. *)
Definition put_switches (d0 : Db) (f : FILTER_TABLE) (d : Db) : Db :=
  put_str (fname f +:+ "SWSTR")%string (switch_text 0 (filtCtrlBitConvert (register d0 f))) d.

Definition filter_describes (d : Db) (ft : nat → FILTER_TABLE) (l : Line) (r : SET_ERR_TABLE) : Prop :=
  match l with
  | RangeLine ii k =>
      let f := ft ii in
      rname r = sw_name k f ∧ sigNum r = Z.of_nat (if k then sw1 f else sw0 f) ∧ burtset r = " "%string ∧
      liveset r = ("0x" +:+ fmt_x (sw_word d k f))%string ∧ diff r = "OVERRANGE"%string ∧
      timeset r = time_text ctime (sw_time d f)
  | SwitchLine ii =>
      let f := ft ii in
      rname r = chop (fname f) ∧ sigNum r = filter_sigNum f ∧ filtNum r = Z.of_nat ii ∧
      burtset r = switch_text 1 (swreq f) ∧ liveset r = switch_text 1 (filtCtrlBitConvert (register d f)) ∧
      diff r = switch_text 1 (Z.lxor (Z.land (filtCtrlBitConvert (register d f)) (u32 (fmask f)))
                                     (Z.land (u32 (swreq f)) (u32 (fmask f)))) ∧
      rsw0 r = Z.land (sw_word d false f) 0xffff ∧ rsw1 r = Z.land (sw_word d true f) 0xffff ∧
      timeset r = time_text ctime (sw_time d f) ∧
      Z.land (chFlag r) 1 = (if truthy (Z.land (fmask f) ALL_SWSTAT_BITS) then 1 else 0)
  | SettingLine _ => False
  end.

Lemma low_word w : 0 <= w → (if 0xffff <? w then Z.land w 0xffff else w) = Z.land w 0xffff.
Proof.
  intros Hw. destruct (Z.ltb_spec 0xffff w); [done|]. change 0xffff with (Z.ones 16).
  rewrite Z.land_ones, Z.mod_small; lia.
Qed.

Lemma low_word_bounds w : 0 <= Z.land w 0xffff < 2 ^ 16.
Proof. change 0xffff with (Z.ones 16). rewrite Z.land_ones by lia. apply Z.mod_pos_bound. lia. Qed.

Lemma register_bounds d f : 0 <= register d f < 2 ^ 32.
Proof.
  unfold register. rewrite Z.shiftl_mul_pow2 by lia.
  pose proof (low_word_bounds (sw_word d false f)). pose proof (low_word_bounds (sw_word d true f)). lia.
Qed.

Lemma register_words d f :
  u32 (Z.land (sw_word d false f) 0xffff + u32 (Z.shiftl (Z.land (sw_word d true f) 0xffff) 16)) = register d f.
Proof.
  pose proof (register_bounds d f) as Hr. unfold register in *.
  pose proof (low_word_bounds (sw_word d false f)). pose proof (low_word_bounds (sw_word d true f)) as Hh.
  rewrite (wrap_small 32 (Z.shiftl _ _)); [apply wrap_small; lia|].
  rewrite Z.shiftl_mul_pow2 by lia. lia.
Qed.

(** The masked comparison finds the watched switches that are not as wanted. *)
Lemma masked_differ d f :
  negb (Z.land (filtCtrlBitConvert (register d f)) (u32 (fmask f)) =? Z.land (u32 (swreq f)) (u32 (fmask f))) =
  existsb (λ i, watched f i && negb (eqb (switch_on d f i) (wanted f i))) (seq 0 32).
Proof.
  assert (Hb : ∀ i : nat, Z.testbit (Z.land (filtCtrlBitConvert (register d f)) (u32 (fmask f))) (Z.of_nat i) =
      switch_on d f i && ((i <? 32)%nat && watched f i) ∧
    Z.testbit (Z.land (u32 (swreq f)) (u32 (fmask f))) (Z.of_nat i) = wanted f i && ((i <? 32)%nat && watched f i)).
  { intros i. rewrite !Z.land_spec, !wrap_spec, convert_bits by lia. unfold switch_on, wanted, watched.
    replace (Z.of_nat i <? 32) with (i <? 32)%nat by (destruct (Nat.ltb_spec i 32), (Z.ltb_spec (Z.of_nat i) 32); lia).
    replace (bool_decide (i < 17)%nat) with (i <? 17)%nat
      by (destruct (Nat.ltb_spec i 17); [by rewrite bool_decide_true | by rewrite bool_decide_false by lia]).
    split; [done|]. destruct (i <? 32)%nat; [done|]. by rewrite !andb_false_r. }
  destruct (existsb _ _) eqn:E.
  - apply existsb_exists in E as (i & Hi%list_elem_of_In%elem_of_seq & Hd). apply andb_true_iff in Hd as [Hw Hn].
    apply negb_true_iff, Z.eqb_neq. intros Heq. destruct (Hb i) as [H1 H2]. rewrite Heq, H2, Hw in H1.
    destruct (Nat.ltb_spec i 32); [|lia]. rewrite !andb_true_r in H1. by rewrite H1, eqb_reflx in Hn.
  - apply negb_false_iff, Z.eqb_eq, Z.bits_inj'. intros i Hi. rewrite <- (Z2Nat.id i) by done.
    destruct (Hb (Z.to_nat i)) as [-> ->]. destruct (Nat.ltb_spec (Z.to_nat i) 32) as [Hlt|]; [|by rewrite !andb_false_r].
    destruct (watched f (Z.to_nat i)) eqn:Hw; [|by rewrite !andb_false_r]. rewrite !andb_true_r.
    apply eqb_prop. destruct (eqb _ _) eqn:Eb; [done|]. exfalso.
    assert (E' : existsb (λ i, watched f i && negb (eqb (switch_on d f i) (wanted f i))) (seq 0 32) = true); [|congruence].
    apply existsb_exists. exists (Z.to_nat i). split; [apply list_elem_of_In, elem_of_seq; lia | by rewrite Hw, Eb].
Qed.

Lemma check_range_spec (f : FILTER_TABLE) nm sig w tm (t : Rows) e :
  0 <= w →
  check_range ctime f nm sig w tm t e =
  (Z.land w 0xffff,
   if 0xffff <? w then upd e (show_line nm " " ("0x" +:+ fmt_x w)%string (time_text ctime tm) "OVERRANGE" (b64_ofZ 0)
                                (Z.of_nat sig) (t e)) t else t,
   if 0xffff <? w then S e else e).
Proof. intros Hw. unfold check_range. rewrite <- low_word by done. by destruct (_ <? w). Qed.

(** One module. *)
Lemma check_filter_spec monitorAll listAll wcVal wcstring ii t e k d0 (s : Sdf) :
  (∀ b f, db_long (sw_name b f) (db s) = db_long (sw_name b f) d0) →
  let L := filter_lines listAll wcVal wcstring d0 (filterTable s ii) ii in
  Z.of_nat (e + length L) < SDF_ERR_TSIZE →
  let '(t', e', k', s') := check_filter ctime monitorAll listAll wcVal wcstring ii (t, e, k, s) in
  e' = (e + length L)%nat ∧ k' = k + (if switches_differ d0 (filterTable s ii) then 1 else 0) ∧
  s' = set_db (put_switches d0 (filterTable s ii) (db s)) s ∧
  (∀ i l, L !! i = Some l → filter_describes d0 (filterTable s) l (t' (e + i)%nat)) ∧ ∀ j, (j < e)%nat → t' j = t j.
Proof.
  intros Hlong L Hcap. unfold L, filter_lines in *. clear L. set (f := filterTable s ii) in *.
  unfold check_filter. fold f. change (fname f +:+ "SW1S")%string with (sw_name false f).
  change (fname f +:+ "SW2S")%string with (sw_name true f). rewrite !Hlong.
  assert (Hu : ∀ z, 0 <= u32 z) by (intros z; apply wrap_bounds; lia).
  pose proof (masked_differ d0 f) as Hm. pose proof (register_words d0 f) as Hreg.
  unfold switches_differ, put_switches. rewrite <- Hm. unfold sw_word, sw_time in *.
  destruct (db_long (sw_name false f) d0) as [v0 t0] eqn:E0, (db_long (sw_name true f) d0) as [v1 t1] eqn:E1.
  cbn [fst snd] in *. rewrite !check_range_spec by apply Hu.
  set (o0 := 0xffff <? u32 v0) in *. set (o1 := 0xffff <? u32 v1) in *.
  rewrite Hreg. set (ref := filtCtrlBitConvert (register d0 f)) in *.
  set (e1 := if o1 then _ else _).
  assert (He1 : Z.of_nat e1 < SDF_ERR_TSIZE).
  { unfold e1. rewrite !length_app in Hcap. destruct o0, o1; cbn [length] in Hcap; lia. }
  destruct (Z.ltb_spec (Z.of_nat e1) SDF_ERR_TSIZE); [|lia]. rewrite andb_true_r.
  set (mm := negb (_ =? _)) in *.
  assert (Hmask : mm && (truthy (u32 (fmask f)) || monitorAll) && truthy (finit f) = truthy (finit f) && mm).
  { unfold mm, truthy. destruct (Z.eqb_spec (u32 (fmask f)) 0) as [->|]; cbn [negb orb].
    - rewrite !Z.land_0_r. by rewrite andb_false_r.
    - by rewrite andb_true_r, andb_comm. }
  rewrite Hmask. set (df := truthy (finit f) && mm) in *.
  assert (Hrow : ∀ r0, filter_describes d0 (filterTable s) (SwitchLine ii)
    (let r := show_line (chop (fname f)) (switch_text 1 (swreq f)) (switch_text 1 ref) (time_text ctime (Z.max t0 t1))
                (switch_text 1 (Z.lxor (Z.land ref (u32 (fmask f))) (Z.land (u32 (swreq f)) (u32 (fmask f))))) (b64_ofZ 0)
                (filter_sigNum f) r0 in
     let r := mkRow (rname r) (burtset r) (liveset r) (timeset r) (diff r) (liveval r) (sigNum r) (chFlag r)
                (Z.of_nat ii) (Z.land (u32 v0) 0xffff) (Z.land (u32 v1) 0xffff) in
     if truthy (Z.land (fmask f) ALL_SWSTAT_BITS) then flag_on 1 r else set_chFlag (Z.land (chFlag r) 0xe) r)).
  { intros r0. cbv zeta. unfold filter_describes, sw_word, sw_time. fold f. rewrite E0, E1.
    destruct (truthy (Z.land (fmask f) _)); split_and!; try done; [apply flag_on_1|].
    cbn [chFlag set_chFlag]. by rewrite <- Z.land_assoc, Z.land_0_r. }
  cbv zeta in Hrow.
  destruct (df || listAll); [destruct (negb wcVal || strstr (chop (fname f)) wcstring)|]; cbn [andb].
  all: unfold e1 in *; clearbody o0 o1; destruct o0, o1; cbn [app length];
    (split_and!; [lia | by destruct df; lia | done | intros i l Hl | intros j Hj]).
  all: try (rewrite !upd_ne by lia; done).
  all: do 3 (try (destruct i as [|i])); cbn [lookup list_lookup] in Hl; try done; injection Hl as <-;
    rewrite ?Nat.add_0_r, ?Nat.add_1_r, ?Nat.add_succ_r, ?Nat.add_0_r;
    rewrite ?upd_ne by lia; rewrite ?upd_eq; rewrite ?upd_ne by lia; rewrite ?upd_eq.
  all: lazymatch goal with |- filter_describes _ _ (SwitchLine _) _ => apply Hrow | _ => idtac end.
  all: unfold filter_describes, sw_word, sw_time; fold f; rewrite ?E0, ?E1; by split_and!.
Qed.

(** What the monitor relies on from the database while it writes texts of
    switches: other records keep their value as an integer. *)
Class SwitchLaws : Prop := long_put_str n m x d : n ≠ m → db_long m (put_str n x d) = db_long m d.

Fixpoint last_char (s : string) : option Ascii.ascii :=
  match s with ""%string => None | String c ""%string => Some c | String _ s => last_char s end.

Lemma last_char_of_end s c r : last_char (s +:+ String c r) = last_char (String c r).
Proof.
  induction s as [|a s IH]; [done|]. change (String a s +:+ String c r)%string with (String a (s +:+ String c r)).
  rewrite <- IH. cbn [last_char]. by destruct s.
Qed.

Lemma switch_names_distinct (f f' : FILTER_TABLE) b : (fname f +:+ "SWSTR")%string ≠ sw_name b f'.
Proof.
  intros E. apply (f_equal last_char) in E. unfold sw_name in E.
  destruct b; by rewrite !last_char_of_end in E.
Qed.

Definition put_all_switches (n : nat) (d0 : Db) (ft : nat → FILTER_TABLE) : Db :=
  for_n n (λ ii, put_switches d0 (ft ii)) d0.

Lemma all_filter_lines_S listAll wcVal wcstring d ft n :
  all_filter_lines listAll wcVal wcstring d ft (S n) =
  all_filter_lines listAll wcVal wcstring d ft n ++ filter_lines listAll wcVal wcstring d (ft n) n.
Proof.
  unfold all_filter_lines. rewrite seq_S, fmap_app, concat_app. simpl. by rewrite app_nil_r.
Qed.

Lemma check_filters_spec `{!SwitchLaws} monitorAll listAll wcVal wcstring (t : Rows) (s : Sdf) n :
  let L := all_filter_lines listAll wcVal wcstring (db s) (filterTable s) n in
  Z.of_nat (length L) < SDF_ERR_TSIZE →
  let '(t', e', k', s') := checkFilterSwitches ctime n t monitorAll listAll wcVal wcstring s in
  e' = length L ∧ k' = Z.of_nat (length (differing_filters (db s) (filterTable s) n)) ∧
  s' = set_db (put_all_switches n (db s) (filterTable s)) s ∧
  (∀ b f, db_long (sw_name b f) (db s') = db_long (sw_name b f) (db s)) ∧
  ∀ i l, L !! i = Some l → filter_describes (db s) (filterTable s) l (t' i).
Proof.
  unfold checkFilterSwitches. cbv zeta. induction n as [|n IH]; intros Hcap.
  { simpl. split_and!; try done. by destruct s. }
  rewrite all_filter_lines_S, length_app in Hcap. specialize (IH ltac:(lia)).
  rewrite for_up_S, Nat.add_0_l.
  destruct (for_n n _ (t, 0%nat, 0, s)) as [[[t1 e1] k1] s1]. destruct IH as (-> & -> & -> & Hlong & Hd).
  pose proof (check_filter_spec monitorAll listAll wcVal wcstring n t1
    (length (all_filter_lines listAll wcVal wcstring (db s) (filterTable s) n))
    (Z.of_nat (length (differing_filters (db s) (filterTable s) n))) (db s) _ Hlong) as Hf.
  cbn [filterTable set_db db] in Hf. specialize (Hf Hcap).
  destruct (check_filter _ _ _ _ _ _ _) as [[[t2 e2] k2] s2]. destruct Hf as (-> & -> & -> & Hd2 & Hkeep).
  rewrite all_filter_lines_S, length_app. unfold differing_filters, put_all_switches in *.
  rewrite seq_S, filter_app, filter_cons, filter_nil, length_app, Nat.add_0_l, for_up_S, Nat.add_0_l.
  split_and!; [done | | done | |].
  - destruct (switches_differ _ _); [rewrite decide_True by done | rewrite decide_False by done]; simpl; lia.
  - intros b f. cbn [db set_db]. unfold put_switches at 1. rewrite long_put_str by apply switch_names_distinct. apply Hlong.
  - intros i l [Hi|[Hi Hl]]%lookup_app_Some.
    + rewrite Hkeep by (by eapply lookup_lt_Some). by apply Hd.
    + specialize (Hd2 _ _ Hl). rewrite <- Nat.le_add_sub in Hd2 by lia. done.
Qed.

(** The lines of a check, in order, and what each says. *)
Definition check_lines (monitorAll wcVal : bool) (wcstring : string) (listAll : bool) (d' : Db) (s : Sdf) : list Line :=
  all_filter_lines listAll wcVal wcstring (db s) (filterTable s) (fmNum s) ++
  (SettingLine <$> shown monitorAll wcVal wcstring listAll d' (cdTable s) (chNum s)).
Definition line_describes (listAll : bool) (d' : Db) (s : Sdf) (l : Line) (r : SET_ERR_TABLE) : Prop :=
  match l with
  | SettingLine ii => describes listAll d' (cdTable s) ii r
  | _ => filter_describes (db s) (filterTable s) l r
  end.

(** C37: the check shows what differs, and that only.  Line by line, in the order
    of the tables: for each filter module a line for each switch word beyond 16
    bits and one for the module if a watched switch is not as wanted (or all are
    asked for) and its name matches the pattern; then the settings looked at that
    disagree with the database (or all) and match the pattern.  Each line says
    what it is about, the set point, the value and the difference; the count is that of
    the modules that differ and the settings that do (of all settings looked at, when
    all are asked for), shown or not; and nothing changes but the
    texts of switches in the database.  [SwitchLaws] is asked of the database, and
    room for the lines. *)
Theorem spChecker_exact `{!SwitchLaws} (monitorAll : bool) (t : Rows) (wcVal : bool) (wcstring : string) (listAll : bool)
    (s : Sdf) :
  let d' := put_all_switches (fmNum s) (db s) (filterTable s) in
  let L := check_lines monitorAll wcVal wcstring listAll d' s in
  Z.of_nat (length (all_filter_lines listAll wcVal wcstring (db s) (filterTable s) (fmNum s))) + Z.of_nat (chNum s) <
    SDF_ERR_TSIZE →
  let '(t', n, k, s') := spChecker monitorAll t wcVal wcstring listAll s in
  s' = set_db d' s ∧ n = length L ∧ (∀ i l, L !! i = Some l → line_describes listAll d' s l (t' i)) ∧
  k = Z.of_nat (length (differing_filters (db s) (filterTable s) (fmNum s))) +
      Z.of_nat (length (differing monitorAll listAll d' (cdTable s) (chNum s))).
Proof.
  intros d' L Hcap. unfold SdfTable.spChecker.
  pose proof (check_filters_spec monitorAll listAll wcVal wcstring t s (fmNum s)) as Hf. cbv zeta in Hf.
  specialize (Hf ltac:(lia)). destruct (checkFilterSwitches _ _ _ _ _ _ _ s) as [[[t1 e1] k1] s1].
  destruct Hf as (-> & -> & -> & _ & Hd1). fold d'. cbn [chNum db set_db cdTable].
  set (e1 := length _) in *.
  pose proof (check_all_spec monitorAll wcVal wcstring listAll d' (cdTable s) (chNum s) t1 e1
    (Z.of_nat (length (differing_filters (db s) (filterTable s) (fmNum s)))) ltac:(lia)) as Hs.
  destruct (for_n _ _ _) as [[t2 e2] k2]. destruct Hs as (-> & -> & Hd2 & Hkeep).
  unfold L, check_lines. rewrite length_app, length_fmap. split_and!; [done..| |done].
  intros i l [Hi|[Hi Hl]]%lookup_app_Some.
  - rewrite Hkeep by (by eapply lookup_lt_Some). specialize (Hd1 _ _ Hi).
    by destruct l.
  - apply list_lookup_fmap_Some in Hl as (ii & -> & Hl). specialize (Hd2 _ _ Hl). fold e1 in Hi, Hd2.
    rewrite <- Nat.le_add_sub in Hd2 by done. done.
Qed.

(** ** Counts of marked lines *)
Lemma flagged_bit k r : 0 <= k → flagged (2 ^ k) r = Z.testbit (chFlag r) k.
Proof. apply truthy_land_pow2. Qed.

Lemma flagged_2 r : flagged 2 r = Z.testbit (chFlag r) 1.
Proof. by apply (flagged_bit 1). Qed.
Lemma flagged_4 r : flagged 4 r = Z.testbit (chFlag r) 2.
Proof. by apply (flagged_bit 2). Qed.
Lemma flagged_8 r : flagged 8 r = Z.testbit (chFlag r) 3.
Proof. by apply (flagged_bit 3). Qed.

(** Reduce the flags of a changed line to those of the line, as bits. *)
Ltac flags :=
  rewrite ?flagged_2, ?flagged_4, ?flagged_8; cbn [chFlag flag_on flag_off flag_flip set_chFlag];
  repeat (rewrite ?Z.lor_spec, ?Z.land_spec, ?Z.lxor_spec; rewrite ?Z.lnot_spec by done);
  change (Z.testbit 1 1) with false; change (Z.testbit 1 2) with false; change (Z.testbit 1 3) with false;
  change (Z.testbit 2 1) with true; change (Z.testbit 2 2) with false; change (Z.testbit 2 3) with false;
  change (Z.testbit 4 1) with false; change (Z.testbit 4 2) with true; change (Z.testbit 4 3) with false;
  change (Z.testbit 8 1) with false; change (Z.testbit 8 2) with false; change (Z.testbit 8 3) with true;
  rewrite ?orb_true_r, ?orb_false_r, ?andb_true_r, ?andb_false_r, ?xorb_false_r, ?xorb_true_r.

Definition count (b : Z) (n : nat) (t : Rows) : Z :=
  Z.of_nat (length (filter (λ i, flagged b (t i) = true) (seq 0 n))).
Definition bit (b : bool) : Z := if b then 1 else 0.

Lemma count_S b n t : count b (S n) t = count b n t + bit (flagged b (t n)).
Proof.
  unfold count. rewrite seq_S, filter_app, filter_cons, filter_nil, length_app. simpl.
  destruct (flagged b (t n)); [rewrite decide_True by done | rewrite decide_False by done]; simpl; lia.
Qed.

Lemma count_ext b n t t' : (∀ i, (i < n)%nat → flagged b (t i) = flagged b (t' i)) → count b n t = count b n t'.
Proof.
  intros H. unfold count. do 2 f_equal. apply filter_ext_in. intros i [_ Hi]%elem_of_seq. by rewrite H by lia.
Qed.

Lemma count_upd b n t i r :
  (i < n)%nat → count b n (upd i r t) = count b n t - bit (flagged b (t i)) + bit (flagged b r).
Proof.
  induction n as [|n IH]; [lia|]. intros Hi. rewrite !count_S. destruct (decide (i = n)) as [->|Hn].
  - rewrite upd_eq, (count_ext b n (upd n r t) t); [lia|]. intros j Hj. by rewrite upd_ne by lia.
  - rewrite upd_ne by done. rewrite IH by lia. lia.
Qed.

Lemma count_all b n t : (∀ i, (i < n)%nat → flagged b (t i) = true) → count b n t = Z.of_nat n.
Proof. intros H. unfold count. rewrite filter_all, length_seq; [done|]. intros i [_ Hi]%elem_of_seq. apply H. lia. Qed.

Lemma count_none b n t : (∀ i, (i < n)%nat → flagged b (t i) = false) → count b n t = 0.
Proof.
  intros H. induction n as [|n IH]; [done|]. rewrite count_S, IH, H by auto with lia. done.
Qed.

(** The counts are right, and no line is marked both for reverting and for
    accepting. *)
Definition counted (n : nat) (t : Rows) (sc : Counts) : Prop :=
  sc = (count 2 n t, count 4 n t, count 8 n t) ∧
  ∀ i, (i < n)%nat → flagged 2 (t i) && flagged 4 (t i) = false.

(** One line: the counts move with its flags. *)
Definition bits3 (r : SET_ERR_TABLE) : Counts := (bit (flagged 2 r), bit (flagged 4 r), bit (flagged 8 r)).
Definition moved (r r' : SET_ERR_TABLE) (sc sc' : Counts) : Prop :=
  let '(a, b, c) := bits3 r in
  let '(a', b', c') := bits3 r' in
  let '(x, y, z) := sc in
  sc' = (x - a + a', y - b + b', z - c + c').

Lemma counted_upd n t i r sc sc' :
  (i < n)%nat → counted n t sc → moved (t i) r sc sc' → flagged 2 r && flagged 4 r = false → counted n (upd i r t) sc'.
Proof.
  intros Hi [-> Hx] Hm Hr. split.
  - unfold moved, bits3 in Hm. rewrite Hm. by rewrite !count_upd.
  - intros j Hj. destruct (decide (i = j)) as [<-|Hn]; [by rewrite upd_eq | rewrite upd_ne by done; by apply Hx].
Qed.

Lemma select_column_moved bitno r sc :
  flagged 2 r && flagged 4 r = false →
  let '(r', sc') := select_column bitno r sc in
  moved r r' sc sc' ∧ flagged 2 r' && flagged 4 r' = false.
Proof.
  destruct sc as [[x y] z]. unfold select_column, moved, bits3, bit. cbv zeta.
  destruct (Z.testbit (chFlag r) 1) eqn:E1, (Z.testbit (chFlag r) 2) eqn:E2, (Z.testbit (chFlag r) 3) eqn:E3;
    flags; rewrite ?E1, ?E2, ?E3; try done; intros _; cbn [andb orb xorb negb].
  all: destruct (bitno =? 0); [|destruct (bitno =? 1); [|destruct (bitno =? 2); [destruct (filtNum r <? 0)|]]];
    flags; rewrite ?E1, ?E2, ?E3; cbn [andb orb xorb negb].
  all: split; [f_equal; [f_equal|]; lia | done].
Qed.

Lemma uninit_callback_moved n i t sc :
  (i < n)%nat → counted n t sc →
  let '(t', sc') := changeSelectCB_uninit i t sc in counted n t' sc'.
Proof.
  intros Hi Hc. destruct sc as [[x y] z] eqn:Esc. unfold changeSelectCB_uninit.
  change (truthy (Z.land (chFlag (t i)) 2)) with (flagged 2 (t i)).
  change (truthy (Z.land (chFlag (t i)) 4)) with (flagged 4 (t i)).
  change (truthy (Z.land (chFlag (t i)) 8)) with (flagged 8 (t i)).
  assert (Hm : ∀ f x' y' z',
    Z.testbit f 1 = false → Z.testbit f 2 = flagged 4 (t i) || flagged 8 (t i) → Z.testbit f 3 = flagged 8 (t i) →
    x' = x - bit (flagged 2 (t i)) → y' = y - bit (flagged 4 (t i)) + bit (flagged 4 (t i) || flagged 8 (t i)) → z' = z →
    counted n (upd i (set_chFlag f (t i)) t) (x', y', z')).
  { intros f x' y' z' F1 F2 F3 -> -> ->. eapply (counted_upd n t i _ _ _ Hi Hc).
    - unfold moved, bits3. rewrite (flagged_2 (set_chFlag _ _)), (flagged_4 (set_chFlag _ _)), (flagged_8 (set_chFlag _ _)).
      cbn [chFlag set_chFlag]. rewrite F1, F2, F3. f_equal; [f_equal|]; unfold bit; lia.
    - rewrite flagged_2. cbn [chFlag set_chFlag]. by rewrite F1. }
  rewrite flagged_2, flagged_4, flagged_8 in *.
  destruct (Z.testbit (chFlag (t i)) 1) eqn:E1, (Z.testbit (chFlag (t i)) 2) eqn:E2, (Z.testbit (chFlag (t i)) 3) eqn:E3;
    cbn [andb negb]; apply Hm; cbn [bit orb]; rewrite ?Z.lor_spec, ?Z.land_spec, ?E1, ?E2, ?E3, ?Z.bits_0; done || lia.
Qed.

(** The loops that mark all lines [b] and unmark them [c]: after [k] rounds. *)
Definition marking (b c : Z) (n : nat) (t : Rows) (k : nat) (t' : Rows) (x' y' : Z) : Prop :=
  x' = Z.of_nat k ∧ y' = count c n t' ∧
  (∀ i, flagged 8 (t' i) = flagged 8 (t i)) ∧
  (∀ i, (k <= i)%nat → t' i = t i) ∧
  (∀ i, (i < k)%nat → flagged b (t' i) = true ∧ flagged c (t' i) = false).

Lemma marking_step b c n t k t' x' y' :
  (b = 2 ∧ c = 4 ∨ b = 4 ∧ c = 2) → (k < n)%nat → marking b c n t k t' x' y' →
  let r := flag_on b (t' k) in
  if flagged c r then marking b c n t (k + 1) (upd k (flag_off c r) t') (x' + 1) (y' - 1)
  else marking b c n t (k + 1) (upd k r t') (x' + 1) y'.
Proof.
  intros Hbc Hk (H1 & H2 & H3 & H4 & H5). cbv zeta.
  assert (Hfl : ∀ r, (flagged c (flag_on b r) = flagged c r) ∧ (flagged b (flag_on b r) = true) ∧
    flagged 8 (flag_on b r) = flagged 8 r ∧ flagged b (flag_off c (flag_on b r)) = true ∧
    flagged c (flag_off c (flag_on b r)) = false ∧ flagged 8 (flag_off c (flag_on b r)) = flagged 8 r).
  { intros r. destruct Hbc as [[-> ->]|[-> ->]]; flags; done. }
  destruct (Hfl (t' k)) as (F1 & F2 & F3 & F4 & F5 & F6).
  destruct (flagged c (flag_on b (t' k))) eqn:Ef; unfold marking; split_and!; try lia.
  all: try (rewrite count_upd by lia; rewrite ?F5, ?Ef, <- ?F1; cbn [bit]; lia).
  all: intros i; try intros Hi; unfold upd; destruct (Nat.eqb_spec i k) as [->|]; try lia;
    rewrite ?F3, ?F6; auto; apply H5 || apply H4; lia.
Qed.

Lemma marking_start b c n t y : y = count c n t → marking b c n t 0 t 0 y.
Proof. intros ->. unfold marking. split_and!; try done. intros; lia. Qed.

Lemma marking_end b c n t t' x' y' :
  (b = 2 ∧ c = 4 ∨ b = 4 ∧ c = 2) → marking b c n t n t' x' y' →
  x' = count b n t' ∧ y' = count c n t' ∧ count 8 n t' = count 8 n t ∧
  ∀ i, (i < n)%nat → flagged 2 (t' i) && flagged 4 (t' i) = false.
Proof.
  intros Hbc (H1 & H2 & H3 & H4 & H5). split_and!; [| done | by apply count_ext |].
  - rewrite count_all; [done|]. intros i Hi. by apply H5.
  - intros i Hi. destruct (H5 i Hi) as [Fb Fc]. destruct Hbc as [[-> ->]|[-> ->]]; rewrite Fb, Fc; done.
Qed.

Lemma mark_all_counted pref opt n t sc (s : Sdf) :
  counted n t sc → let '(t', sc', _) := setAllTableSelections pref n opt t sc s in counted n t' sc'.
Proof.
  intros [-> Hx]. unfold setAllTableSelections.
  destruct (opt =? 1); [|destruct (opt =? 2); [|destruct (opt =? 3)]].
  - match goal with |- context [for_up 0 n ?f ?st] =>
      assert (HP : let '(t', x', y') := for_up 0 n f st in marking 2 4 n t n t' x' y') end.
    { apply (for_up_ind (λ k '(t', x', y'), marking 2 4 n t k t' x' y') _ 0 n); [by apply marking_start|].
      intros k [[t' x'] y'] Hk Hm. pose proof (marking_step 2 4 n t k t' x' y') as Hs. cbv zeta in Hs |- *.
      destruct (flagged 4 (flag_on 2 (t' k))); apply Hs; (done || lia || by left). }
    destruct (for_up _ _ _ _) as [[t' x'] y']. apply marking_end in HP as (-> & -> & E8 & Hx'); [|by left].
    split; [by rewrite E8 | done].
  - match goal with |- context [for_up 0 n ?f ?st] =>
      assert (HP : let '(t', y', x') := for_up 0 n f st in marking 4 2 n t n t' x' y') end.
    { apply (for_up_ind (λ k '(t', y', x'), marking 4 2 n t k t' x' y') _ 0 n); [by apply marking_start|].
      intros k [[t' y'] x'] Hk Hm. pose proof (marking_step 4 2 n t k t' x' y') as Hs. cbv zeta in Hs |- *.
      destruct (flagged 2 (flag_on 4 (t' k))); apply Hs; (done || lia || by right). }
    destruct (for_up _ _ _ _) as [[t' y'] x']. apply marking_end in HP as (-> & -> & E8 & Hx'); [|by right].
    split; [by rewrite E8 | done].
  - match goal with |- context [for_up 0 n ?f ?st] =>
      assert (HP : let '(t', _) := for_up 0 n f st in
        (∀ i, flagged 2 (t' i) = flagged 2 (t i) ∧ flagged 4 (t' i) = flagged 4 (t i)) ∧
        ∀ i, (i < n)%nat → flagged 8 (t' i) = true) end.
    { apply (for_up_ind (λ k '(t', _), (∀ i, flagged 2 (t' i) = flagged 2 (t i) ∧ flagged 4 (t' i) = flagged 4 (t i)) ∧
        ∀ i, (i < k)%nat → flagged 8 (t' i) = true) _ 0 n); [split; [done | intros; lia]|].
      intros k [t' s'] Hk [H1 H2]. split; intros i; try intros Hi; unfold upd; destruct (Nat.eqb_spec i k) as [->|].
      - destruct (H1 k) as [<- <-]. flags. done.
      - apply H1.
      - by flags.
      - apply H2. lia. }
    destruct (for_up _ _ _ _) as [t' s']. destruct HP as [H1 H2]. split.
    + rewrite (count_all 8) by done. f_equal. f_equal; apply count_ext; intros i _; symmetry; apply H1.
    + intros i Hi. destruct (H1 i) as [-> ->]. by apply Hx.
  - done.
Qed.

(** The marks an operator makes, and clearing them. *)
Inductive Mark := MClear | MAll (opt : Z) | MLine (selNum page : Z) (cb : bool).

Definition mark (pref : string) (n : nat) (m : Mark) (st : Rows * Counts * Sdf) : option (Rows * Counts * Sdf) :=
  let '(t, sc, s) := st in
  match m with
  | MClear => Some (clearTableSelections n t, s)
  | MAll opt => Some (setAllTableSelections pref n opt t sc s)
  | MLine selNum page cb =>
      match decodeChangeSelect selNum page (Z.of_nat n) cb t sc with
      | Some (t, sc) => Some (t, sc, s)
      | None => None
      end
  end.
Fixpoint marks (pref : string) (n : nat) (ms : list Mark) (st : Rows * Counts * Sdf) : option (Rows * Counts * Sdf) :=
  match ms with
  | [] => Some st
  | m :: ms => match mark pref n m st with Some st => marks pref n ms st | None => None end
  end.

Lemma clear_counted n t : counted n (fst (clearTableSelections n t)) (snd (clearTableSelections n t)).
Proof.
  unfold clearTableSelections. cbn [fst snd].
  set (t1 := for_n n (λ ii t, upd ii (set_chFlag 0 (t ii)) t) t).
  assert (H1 : ∀ i, (i < n)%nat → chFlag (t1 i) = 0).
  { apply (for_up_ind (λ k t', ∀ i, (i < k)%nat → chFlag (t' i) = 0) _ 0 n); [intros; lia|].
    intros k t' Hk IH i Hi. unfold upd. destruct (Nat.eqb_spec i k); [done | apply IH; lia]. }
  set (t2 := for_n n (λ ii t, upd ii (set_filtNum (-1) (t ii)) t) t1).
  assert (H2 : ∀ i, chFlag (t2 i) = chFlag (t1 i)).
  { apply (for_up_inv (λ t', ∀ i, chFlag (t' i) = chFlag (t1 i)) _ 0 n); [done|].
    intros k t' Hk IH i. unfold upd. destruct (Nat.eqb_spec i k) as [->|]; [apply (IH k) | apply IH]. }
  assert (Hf : ∀ b i, (i < n)%nat → flagged b (t2 i) = false).
  { intros b i Hi. unfold flagged. by rewrite H2, H1. }
  split; [rewrite !count_none; auto | intros i Hi; by rewrite Hf].
Qed.

(** after any sequence of marks, begun by clearing them, the counts shown
    and acted on are the numbers of lines marked for reverting, accepting and
    monitoring, and no line is marked both for reverting and for accepting. *)
Theorem selection_counts (pref : string) (n : nat) (ms : list Mark) (t : Rows) (sc : Counts) (s : Sdf)
    (t' : Rows) (sc' : Counts) (s' : Sdf) :
  marks pref n (MClear :: ms) (t, sc, s) = Some (t', sc', s') → counted n t' sc'.
Proof.
  cbn [marks mark]. pose proof (clear_counted n t) as Hc. destruct (clearTableSelections n t) as [t0 sc0]. cbn [fst snd] in Hc.
  clear sc t. revert t0 sc0 s Hc. induction ms as [|m ms IH]; intros t sc s Hc; cbn [marks mark].
  { intros [= <- <- <-]. done. }
  destruct m as [|opt|selNum page cb]; cbn [mark].
  - pose proof (clear_counted n t) as Hc'. destruct (clearTableSelections n t) as [t1 sc1]. by apply IH.
  - pose proof (mark_all_counted pref opt n t sc s Hc) as Hc'.
    destruct (setAllTableSelections pref n opt t sc s) as [[t1 sc1] s1]. by apply IH.
  - unfold decodeChangeSelect. set (line := Z.rem selNum 100 - 1 + page * SDF_ERR_DSIZE).
    destruct (Z.ltb_spec line (Z.of_nat n)); [|by apply IH]. destruct (Z.ltb_spec line 0); [done|].
    assert (Hi : (Z.to_nat line < n)%nat) by lia.
    pose proof (select_column_moved (Z.quot selNum 100) (t (Z.to_nat line)) sc) as Hm.
    destruct (select_column _ _ sc) as [r sc1]. destruct Hm as [Hm Hr]; [by apply Hc|].
    assert (Hc' : counted n (upd (Z.to_nat line) r t) sc1) by (by eapply counted_upd).
    destruct cb; [|by apply IH]. pose proof (uninit_callback_moved n _ _ sc1 Hi Hc') as Hu.
    destruct (changeSelectCB_uninit _ _ sc1) as [t2 sc2]. by apply IH.
Qed.

(** ** Pages *)

(** the lines of a page are lines of the table, at most as many as the
    screen has; and every line of the table is on the page of its number. *)
Theorem page_shows (numEntries page : Z) :
  0 <= numEntries → 0 <= page →
  (let '(mypage, lo, hi) := report_page numEntries page in
   0 <= lo ∧ lo <= hi ∧ hi <= numEntries ∧ hi - lo <= SDF_ERR_DSIZE ∧ lo = mypage * SDF_ERR_DSIZE) ∧
  ∀ i, 0 <= i < numEntries →
    let '(mypage, lo, hi) := report_page numEntries (i / SDF_ERR_DSIZE) in
    mypage = i / SDF_ERR_DSIZE ∧ lo <= i < hi.
Proof.
  unfold report_page, SDF_ERR_DSIZE. intros Hn Hp. split.
  - destruct (Z.eqb_spec (page * 40) numEntries), (Z.ltb_spec 0 numEntries); cbn [andb];
      match goal with |- context [numEntries <? ?a] => destruct (Z.ltb_spec numEntries a) end;
      rewrite ?Z.quot_div_nonneg by lia; pose proof (Z.div_mod numEntries 40); pose proof (Z.mod_pos_bound numEntries 40); lia.
  - intros i Hi. pose proof (Z.div_mod i 40). pose proof (Z.mod_pos_bound i 40).
    destruct (Z.eqb_spec (i / 40 * 40) numEntries); [lia|]. cbn [andb].
    destruct (Z.ltb_spec numEntries (i / 40 * 40)); lia.
Qed.

(** ** Accepting and reverting all differences

    A model without filter modules, whose settings have distinct names. *)
Record plain_settings (s : Sdf) : Prop := {
  no_filters : fmNum s = 0%nat;
  table_fits : Z.of_nat (chNum s) <= SDF_ERR_TSIZE;
  distinct i j : (i < chNum s)%nat → (j < chNum s)%nat → chname (cdTable s i) = chname (cdTable s j) → i = j
}.

(** What the check shows for such a model. *)
Lemma check_plain monitorAll t s :
  plain_settings s →
  let l := shown monitorAll false "" false (db s) (cdTable s) (chNum s) in
  let '(t', n, k, s') := spChecker monitorAll t false "" false s in
  s' = s ∧ n = length l ∧ k = Z.of_nat n ∧
  ∀ i ii, l !! i = Some ii → describes false (db s) (cdTable s) ii (t' i).
Proof.
  intros Hp l. unfold SdfTable.spChecker. rewrite (no_filters s Hp).
  unfold checkFilterSwitches. cbn [for_up].
  pose proof (check_all_spec monitorAll false "" false (db s) (cdTable s) (chNum s) t 0 0) as H.
  destruct (for_n (chNum s) _ (t, 0%nat, 0)) as [[t' n] k]. destruct H as (Hn & Hk & Hd & _).
  { pose proof (table_fits s Hp). lia. }
  assert (E : differing monitorAll false (db s) (cdTable s) (chNum s) = l).
  { unfold differing, l, shown. apply filter_ext_in. intros i _. unfold selected. cbn [negb orb]. by rewrite andb_true_r. }
  rewrite E in Hk. fold l in Hn. split_and!; [done | done | lia | done].
Qed.

Lemma shown_In monitorAll d cd n ii :
  ii ∈ shown monitorAll false "" false d cd n ↔ (ii < n)%nat ∧ differs monitorAll false d (cd ii) = true.
Proof.
  unfold shown. rewrite list_elem_of_filter, elem_of_seq. unfold selected. cbn [negb orb]. rewrite andb_true_r.
  split; [intros [H1 H2] | intros [H1 H2]]; (split; [done || lia|]); done || lia.
Qed.

Lemma shown_nodup monitorAll d cd n : NoDup (shown monitorAll false "" false d cd n).
Proof. apply NoDup_filter, NoDup_seq. Qed.

(** A check that finds no difference. *)
Lemma check_clean monitorAll t s :
  plain_settings s → (∀ j, (j < chNum s)%nat → differs monitorAll false (db s) (cdTable s j) = false) →
  let '(_, n, k, _) := spChecker monitorAll t false "" false s in n = 0%nat ∧ k = 0.
Proof.
  intros Hp Hj. pose proof (check_plain monitorAll t s Hp) as H.
  destruct (spChecker monitorAll t false "" false s) as [[[t' n] k] s']. destruct H as (_ & Hn & Hk & _).
  assert (E : shown monitorAll false "" false (db s) (cdTable s) (chNum s) = []).
  { apply elem_of_nil_inv. intros ii [Hi Hd]%shown_In. by rewrite Hj in Hd. }
  rewrite E in Hn. simpl in Hn. lia.
Qed.

(** The lines after clearing all marks and marking all lines in one column. *)
Definition same_line (r r' : SET_ERR_TABLE) : Prop :=
  rname r' = rname r ∧ liveval r' = liveval r ∧ liveset r' = liveset r ∧ sigNum r' = sigNum r ∧ filtNum r' = -1.

Lemma cleared_line n t i :
  (i < n)%nat → same_line (t i) (fst (clearTableSelections n t) i) ∧ chFlag (fst (clearTableSelections n t) i) = 0.
Proof.
  intros Hi. unfold clearTableSelections. cbn [fst].
  rewrite (for_up_eq n (λ r, set_filtNum (-1) r)), (for_up_eq n (λ r, set_chFlag 0 r)).
  destruct (Nat.ltb_spec i n); [done | lia].
Qed.

Definition marked_upto (b : Z) (k : nat) (t t' : Rows) : Prop :=
  ∀ j, t' j = if (j <? k)%nat then set_chFlag b (t j) else t j.

Lemma marked_next b k t t' :
  (b = 2 ∨ b = 4) → marked_upto b k t t' → chFlag (t k) = 0 →
  flagged (6 - b) (flag_on b (t' k)) = false ∧ marked_upto b (k + 1) t (upd k (flag_on b (t' k)) t').
Proof.
  intros Hb Hm Hz. assert (E : t' k = t k) by (rewrite Hm; by destruct (Nat.ltb_spec k k); [lia|]).
  rewrite E. unfold flag_on. rewrite Hz, Z.lor_0_l. split; [by destruct Hb as [-> | ->]|].
  intros j. unfold upd. destruct (Nat.eqb_spec j k) as [->|]; [by destruct (Nat.ltb_spec k (k + 1)); [|lia]|].
  rewrite Hm. destruct (Nat.ltb_spec j k), (Nat.ltb_spec j (k + 1)); (done || lia).
Qed.

Lemma mark_all_lines pref opt n t sc (s : Sdf) :
  opt = 1 ∨ opt = 2 → (∀ j, (j < n)%nat → chFlag (t j) = 0) →
  let '(t', _, s') := setAllTableSelections pref n opt t sc s in marked_upto (2 * opt) n t t' ∧ s' = s.
Proof.
  intros Hopt Hz. destruct sc as [[x y] z]. unfold setAllTableSelections.
  assert (H0 : ∀ b, marked_upto b 0 t t) by (intros b j; by destruct (Nat.ltb_spec j 0); [lia|]).
  destruct Hopt as [-> | ->]; cbn [Z.eqb Pos.eqb Z.mul Pos.mul].
  - pose proof (for_up_ind (λ k '(t', _, _), marked_upto 2 k t t')
      (λ ii '(t, x, y), let r := flag_on 2 (t ii) in
        if flagged 4 r then (upd ii (flag_off 4 r) t, x + 1, y - 1) else (upd ii r t, x + 1, y)) 0 n (t, 0, y) (H0 2)) as H.
    cbv zeta in H |- *. destruct (for_up _ _ _ _) as [[t' x'] y']. split; [|done]. apply H.
    intros k [[t1 x1] y1] Hk Hm. destruct (marked_next 2 k t t1) as [Hf Hm']; [by left | done | apply Hz; lia|].
    change (6 - 2) with 4 in Hf. by rewrite Hf.
  - pose proof (for_up_ind (λ k '(t', _, _), marked_upto 4 k t t')
      (λ ii '(t, x, y), let r := flag_on 4 (t ii) in
        if flagged 2 r then (upd ii (flag_off 2 r) t, x - 1, y + 1) else (upd ii r t, x, y + 1)) 0 n (t, x, 0) (H0 4)) as H.
    cbv zeta in H |- *. destruct (for_up _ _ _ _) as [[t' x'] y']. split; [|done]. apply H.
    intros k [[t1 x1] y1] Hk Hm. destruct (marked_next 4 k t t1) as [Hf Hm']; [by right | done | apply Hz; lia|].
    change (6 - 4) with 2 in Hf. by rewrite Hf.
Qed.

(** *** Accepting *)
Definition accepted (d : Db) (c : CDS_CD_TABLE) : CDS_CD_TABLE :=
  set_initialized 1
    (set_data (if datatype c =? SDF_NUM then chval (fst (db_num (chname c) d))
               else strval (String.substring 0 127 (fst (db_str (chname c) d)))) c).

(** A line that shows setting [ii] of a table, marked in one column. *)
Record marked_line (b : Z) (d : Db) (cd : nat → CDS_CD_TABLE) (ii : nat) (r : SET_ERR_TABLE) : Prop := {
  ml_name : rname r = chname (cd ii);
  ml_sig : sigNum r = Z.of_nat ii;
  ml_flag : chFlag r = b;
  ml_filt : filtNum r = -1;
  ml_num : datatype (cd ii) = SDF_NUM → liveval r = fst (db_num (chname (cd ii)) d);
  ml_str : datatype (cd ii) ≠ SDF_NUM → liveset r = String.substring 0 127 (fst (db_str (chname (cd ii)) d))
}.

(** Checking, clearing the marks and marking all lines. *)
Lemma check_and_mark monitorAll pref opt t s :
  plain_settings s → opt = 1 ∨ opt = 2 →
  let l := shown monitorAll false "" false (db s) (cdTable s) (chNum s) in
  let '(t1, n, k, s1) := spChecker monitorAll t false "" false s in
  n = length l ∧ ∃ t2 sc, marks pref n [MClear; MAll opt] (t1, (0, 0, 0), s1) = Some (t2, sc, s) ∧
    ∀ i ii, l !! i = Some ii → marked_line (2 * opt) (db s) (cdTable s) ii (t2 i).
Proof.
  intros Hp Hopt l. pose proof (check_plain monitorAll t s Hp) as H.
  destruct (spChecker monitorAll t false "" false s) as [[[t1 n] k] s1]. destruct H as (-> & Hn & _ & Hd).
  split; [done|]. cbn [marks mark].
  assert (Hcl : ∀ i, (i < n)%nat →
    same_line (t1 i) (fst (clearTableSelections n t1) i) ∧ chFlag (fst (clearTableSelections n t1) i) = 0)
    by apply cleared_line.
  destruct (clearTableSelections n t1) as [tc sc]. cbn [fst] in Hcl.
  pose proof (mark_all_lines pref opt n tc sc s Hopt) as Hm.
  destruct (setAllTableSelections pref n opt tc sc s) as [[t2 sc2] s2].
  destruct Hm as [Hm ->]; [intros j Hj; by apply Hcl|]. exists t2, sc2. split; [done|].
  intros i ii Hi. assert (Hin : (i < n)%nat) by (rewrite Hn; by eapply lookup_lt_Some).
  specialize (Hm i). destruct (Nat.ltb_spec i n); [|lia]. rewrite Hm.
  destruct (Hd i ii Hi) as (D1 & D2 & D3 & D4 & D5 & D6). destruct (Hcl i Hin) as [(S1 & S2 & S3 & S4 & S5) S6].
  split; cbn [rname sigNum chFlag filtNum liveval liveset set_chFlag]; rewrite ?S1, ?S2, ?S3, ?S4; try done;
    intros Hty; [by apply D5 | by apply D6].
Qed.

(** The line of an accepted setting changes that setting and no other. *)
Lemma modify_line_accept r ii d (s : Sdf) :
  (ii < chNum s)%nat →
  (∀ i j, (i < chNum s)%nat → (j < chNum s)%nat → chname (cdTable s i) = chname (cdTable s j) → i = j) →
  marked_line 4 d (cdTable s) ii r → modify_line r s = with_cd ii (accepted d (cdTable s ii)) s.
Proof.
  intros Hii Hdist [M1 M2 M3 M4 M5 M6]. unfold modify_line. rewrite M3, M4. cbn [Z.ltb Z.compare Pos.compare Pos.compare_cont].
  assert (E : for_n (chNum s) (modify_setting r) (false, s) = modify_setting r ii (false, s)).
  { apply (for_up_single (λ st : bool * Sdf, (∀ j, chname (cdTable (snd st) j) = chname (cdTable s j)))); try done.
    - intros [b s'] Hs. cbn [snd] in *. unfold modify_setting. rewrite bool_decide_true by (rewrite Hs; done).
      destruct (flagged CHFLAG_ACCEPT_BIT r), (flagged CHFLAG_MONITOR_BIT r); try destruct (_ && _);
        intros j; simpl; unfold upd; destruct (Nat.eqb_spec j ii) as [->|]; simpl; apply Hs.
    - intros k [b s'] Hk Hn Hs. cbn [snd] in Hs. unfold modify_setting. rewrite bool_decide_false; [done|].
      rewrite Hs, M1. intros E. by apply Hn, Hdist. }
  rewrite E. unfold modify_setting. rewrite bool_decide_true by done.
  unfold flagged. rewrite M3. cbn [Z.land Pos.land truthy negb Z.eqb CHFLAG_ACCEPT_BIT CHFLAG_MONITOR_BIT Pos.Nsucc_double Pos.Ndouble].
  unfold accepted. destruct (Z.eqb_spec (datatype (cdTable s ii)) SDF_NUM) as [Hn|Hn];
    [rewrite M5 by done | rewrite M6 by done]; done.
Qed.

(** All lines. *)
Lemma modify_lines_accept (l : list nat) t2 (s : Sdf) :
  NoDup l → (∀ ii, ii ∈ l → (ii < chNum s)%nat) →
  (∀ i j, (i < chNum s)%nat → (j < chNum s)%nat → chname (cdTable s i) = chname (cdTable s j) → i = j) →
  (∀ i ii, l !! i = Some ii → marked_line 4 (db s) (cdTable s) ii (t2 i)) →
  let s' := for_n (length l) (λ ii, modify_line (t2 ii)) s in
  chNum s' = chNum s ∧ fmNum s' = fmNum s ∧ db s' = db s ∧
  ∀ j, cdTable s' j = if bool_decide (j ∈ l) then accepted (db s) (cdTable s j) else cdTable s j.
Proof.
  intros Hnd Hlt Hdist Hm.
  set (P := λ (k : nat) (s' : Sdf), chNum s' = chNum s ∧ fmNum s' = fmNum s ∧ db s' = db s ∧
    ∀ j, cdTable s' j = if bool_decide (j ∈ take k l) then accepted (db s) (cdTable s j) else cdTable s j).
  assert (HP : P (length l) (for_n (length l) (λ ii, modify_line (t2 ii)) s)).
  { apply (for_up_ind P _ 0 (length l)).
    { split_and!; try done. }
    intros k s' Hk (H1 & H2 & H3 & H4). destruct (lookup_lt_is_Some_2 l k) as [ii Hi]; [lia|].
    assert (Hnot : ii ∉ take k l).
    { intros (i & Hi')%list_elem_of_lookup. apply lookup_take_Some in Hi' as [Hi' Hik].
      assert (i = k) by (by eapply NoDup_lookup). lia. }
    assert (Hname : ∀ j, chname (cdTable s' j) = chname (cdTable s j)).
    { intros j. rewrite H4. by case_bool_decide. }
    assert (Hcd : cdTable s' ii = cdTable s ii) by (rewrite H4; by rewrite bool_decide_false).
    rewrite (modify_line_accept (t2 k) ii (db s)).
    - split_and!; try done. intros j. simpl. unfold upd. rewrite Nat.add_1_r, (take_S_r _ _ _ Hi).
      destruct (Nat.eqb_spec j ii) as [->|Hn].
      + rewrite bool_decide_true by (apply elem_of_app; right; by left). by rewrite Hcd.
      + rewrite H4. erewrite bool_decide_ext; [done|]. rewrite elem_of_app, list_elem_of_singleton. tauto.
    - rewrite H1. apply Hlt. by eapply list_elem_of_lookup_2.
    - intros i j. rewrite H1, !Hname. apply Hdist.
    - destruct (Hm k ii Hi) as [A1 A2 A3 A4 A5 A6]. split; rewrite ?Hcd; done. }
  unfold P in HP. by rewrite take_ge in HP by done.
Qed.

(** An accepted setting no longer differs. *)
Lemma accepted_clean monitorAll d c :
  feqb (fst (db_num (chname c) d)) (fst (db_num (chname c) d)) = true →
  differs monitorAll false d (accepted d c) = false.
Proof.
  intros Hnan. rewrite compare_differs. apply andb_false_intro2. apply bool_decide_eq_false. intros [x Hx]. revert Hx.
  unfold SdfTable.compare_setting, accepted. cbn [datatype chname data set_initialized set_data].
  destruct (Z.eqb_spec (datatype c) SDF_NUM).
  - destruct (db_num (chname c) d) as [v tm]. cbn [fst] in *. unfold SdfTable.get_chval. by rewrite Hnan.
  - destruct (db_str (chname c) d) as [v tm]. cbn [fst] in *. unfold SdfTable.get_strval.
    by rewrite bool_decide_true.
Qed.

(** C28: accepting all the differences shown leaves none: after the check, all
    lines marked for accepting and applied, the next check of the same values
    finds nothing.  This is for [plain_settings]: no filter modules, settings with
    distinct names, that fit the table of lines; and for values that are numbers,
    since a NaN equals nothing, itself included. *)
Theorem accept_all_clears (monitorAll : bool) (pref : string) (t tnext : Rows) (s : Sdf) :
  plain_settings s →
  (∀ i, (i < chNum s)%nat → let v := fst (db_num (chname (cdTable s i)) (db s)) in feqb v v = true) →
  let '(t1, n, _, s1) := spChecker monitorAll t false "" false s in
  ∃ t2 sc s2, marks pref n [MClear; MAll 2] (t1, (0, 0, 0), s1) = Some (t2, sc, s2) ∧
  let s3 := modifyTable pun_num n t2 s2 in
  db s3 = db s ∧
  let '(_, n', k', _) := spChecker monitorAll tnext false "" false s3 in n' = 0%nat ∧ k' = 0.
Proof.
  intros Hp Hnan. pose proof (check_and_mark monitorAll pref 2 t s Hp) as H. cbv zeta in H.
  destruct (spChecker monitorAll t false "" false s) as [[[t1 n] k] s1].
  destruct H as (Hn & t2 & sc & Hmk & Hlines); [by right|]. exists t2, sc, s. split; [done|].
  set (l := shown monitorAll false "" false (db s) (cdTable s) (chNum s)) in *.
  destruct (modify_lines_accept l t2 s) as (E1 & E2 & E3 & E4); try done.
  { apply shown_nodup. }
  { intros ii [Hii _]%shown_In. done. }
  { apply (distinct s Hp). }
  unfold modifyTable. rewrite Hn, E2, (no_filters s Hp). cbn [for_up newfilterstats]. cbv zeta.
  set (s3 := for_n (length l) (λ ii, modify_line (t2 ii)) s) in *. unfold newfilterstats. cbn [for_up].
  split; [done|]. apply check_clean.
  - assert (Hname : ∀ j, chname (cdTable s3 j) = chname (cdTable s j)) by (intros j; rewrite E4; by case_bool_decide).
    split; rewrite ?E1, ?E2; try apply Hp. intros i j Hi Hj. rewrite !Hname. by apply (distinct s Hp).
  - intros j. rewrite E1, E3, E4. intros Hj. case_bool_decide as Hin.
    + apply accepted_clean. by apply Hnan.
    + destruct (differs monitorAll false (db s) (cdTable s j)) eqn:Ed; [|done].
      destruct Hin. by apply shown_In.
Qed.

(** *** Reverting *)
Section revert.
Context `{!EpicsLaws Db}.

(** A set point that the database can hold. *)
Definition holdable (c : CDS_CD_TABLE) : Prop :=
  if datatype c =? SDF_NUM then feqb (get_chval pun_num (data c)) (get_chval pun_num (data c)) = true
  else (String.length (get_strval pun_str (data c)) <= 39)%nat.

Definition put_back (c : CDS_CD_TABLE) (d : Db) : Db := put_setting pun_num pun_str c d.

Lemma put_back_other c m d :
  chname c ≠ m → db_num m (put_back c d) = db_num m d ∧ db_str m (put_back c d) = db_str m d.
Proof.
  intros Hn. unfold put_back, put_setting. destruct (_ =? _);
    rewrite ?num_put_num, ?num_put_str, ?str_put_num, ?str_put_str by done; done.
Qed.

Lemma put_back_clean monitorAll c d d' :
  holdable c → db_num (chname c) d' = db_num (chname c) (put_back c d) →
  db_str (chname c) d' = db_str (chname c) (put_back c d) → differs monitorAll false d' c = false.
Proof.
  unfold holdable, put_back, put_setting. intros Hh En Es. rewrite compare_differs. apply andb_false_intro2.
  apply bool_decide_eq_false. intros [x Hx]. revert Hx Hh En Es. unfold SdfTable.compare_setting.
  destruct (Z.eqb_spec (datatype c) SDF_NUM); intros Hx Hh En Es; revert Hx.
  - rewrite En. generalize (num_put (chname c) (get_chval pun_num (data c)) d).
    destruct (db_num (chname c) (put_num _ _ d)) as [v tm]. cbn [fst]. intros ->. by rewrite Hh.
  - rewrite Es. generalize (str_put (chname c) (get_strval pun_str (data c)) d Hh).
    destruct (db_str (chname c) (put_str _ _ d)) as [v tm]. cbn [fst]. intros ->.
    rewrite substring_all by lia. by rewrite bool_decide_true.
Qed.

(** A line marked for reverting writes its set point, if it is not that of two
    switches. *)
Lemma reset_line_plain r ii d (s : Sdf) :
  Z.of_nat ii < SDF_ERR_TSIZE → marked_line 2 d (cdTable s) ii r →
  reset_line pun_num pun_str r (0, s) = (0, set_db (put_back (cdTable s ii) (db s)) s).
Proof.
  intros Hii [M1 M2 M3 M4 M5 M6]. unfold reset_line, flagged. rewrite M3, M2.
  cbn [Z.land Pos.land truthy negb Z.eqb]. unfold SDF_ERR_TSIZE, SDF_MAX_TSIZE in *.
  rewrite swrap_small by lia. destruct (Z.ltb_spec 20000 (Z.of_nat ii)); [lia|]. cbn [truthy negb Z.eqb].
  by rewrite Nat2Z.id.
Qed.

Lemma reset_lines_plain (l : list nat) t2 (s : Sdf) :
  plain_settings s → (∀ ii, ii ∈ l → (ii < chNum s)%nat) →
  (∀ i ii, l !! i = Some ii → marked_line 2 (db s) (cdTable s) ii (t2 i)) → (∀ ii, ii ∈ l → holdable (cdTable s ii)) →
  ∃ d, resetSelectedValues pun_num pun_str (length l) t2 s = set_db d s ∧
  ∀ j, (j < chNum s)%nat → let n := chname (cdTable s j) in
    if bool_decide (j ∈ l) then ∃ d', db_num n d = db_num n (put_back (cdTable s j) d') ∧ db_str n d = db_str n (put_back (cdTable s j) d')
    else db_num n d = db_num n (db s) ∧ db_str n d = db_str n (db s).
Proof.
  intros Hp Hlt Hm Hh. unfold resetSelectedValues.
  set (P := λ (k : nat) (st : Z * Sdf), ∃ d, st = (0, set_db d s) ∧
    ∀ j, (j < chNum s)%nat → let n := chname (cdTable s j) in
    if bool_decide (j ∈ take k l) then ∃ d', db_num n d = db_num n (put_back (cdTable s j) d') ∧ db_str n d = db_str n (put_back (cdTable s j) d')
    else db_num n d = db_num n (db s) ∧ db_str n d = db_str n (db s)).
  assert (HP : P (length l) (for_n (length l) (λ ii, reset_line pun_num pun_str (t2 ii)) (0, s))).
  { apply (for_up_ind P _ 0 (length l)).
    { exists (db s). split; [by destruct s|]. intros j Hj. by rewrite bool_decide_false by (by rewrite take_0; apply not_elem_of_nil). }
    intros k st Hk (d & -> & Hd). destruct (lookup_lt_is_Some_2 l k) as [ii Hi]; [lia|].
    assert (Hin : ii ∈ l) by (by eapply list_elem_of_lookup_2). pose proof (Hlt ii Hin) as Hii.
    rewrite (reset_line_plain (t2 k) ii (db s)); [| pose proof (table_fits s Hp); lia | by apply Hm].
    exists (put_back (cdTable s ii) d). split; [done|]. intros j Hj n.
    rewrite Nat.add_1_r, (take_S_r _ _ _ Hi). specialize (Hd j Hj). cbv zeta in Hd. fold n in Hd.
    destruct (decide (j = ii)) as [->|Hn].
    - rewrite bool_decide_true by (apply elem_of_app; right; by left). by exists d.
    - assert (Hne : chname (cdTable s ii) ≠ n) by (intros E; apply Hn; symmetry; by apply (distinct s Hp)).
      destruct (put_back_other (cdTable s ii) n d Hne) as [-> ->].
      erewrite (bool_decide_ext (j ∈ _ ++ _)); [exact Hd|]. rewrite elem_of_app, list_elem_of_singleton. tauto. }
  destruct HP as (d & -> & Hd). exists d. split; [done|]. rewrite take_ge in Hd by done. exact Hd.
Qed.

(** reverting all the differences shown leaves none: the set points are
    written back, and the next check finds nothing.  Set points are numbers, or
    strings a record can hold. *)
Theorem revert_all_clears (monitorAll : bool) (pref : string) (t tnext : Rows) (s : Sdf) :
  plain_settings s → (∀ i, (i < chNum s)%nat → holdable (cdTable s i)) →
  let '(t1, n, _, s1) := spChecker monitorAll t false "" false s in
  ∃ t2 sc s2, marks pref n [MClear; MAll 1] (t1, (0, 0, 0), s1) = Some (t2, sc, s2) ∧
  let s3 := resetSelectedValues pun_num pun_str n t2 s2 in
  cdTable s3 = cdTable s ∧
  let '(_, n', k', _) := spChecker monitorAll tnext false "" false s3 in n' = 0%nat ∧ k' = 0.
Proof.
  intros Hp Hh. pose proof (check_and_mark monitorAll pref 1 t s Hp) as H. cbv zeta in H.
  destruct (spChecker monitorAll t false "" false s) as [[[t1 n] k] s1].
  destruct H as (Hn & t2 & sc & Hmk & Hlines); [by left|]. exists t2, sc, s. split; [done|].
  set (l := shown monitorAll false "" false (db s) (cdTable s) (chNum s)) in *.
  assert (Hlt : ∀ ii, ii ∈ l → (ii < chNum s)%nat) by (intros ii [Hii _]%shown_In; done).
  destruct (reset_lines_plain l t2 s Hp Hlt Hlines) as (d & E & Hd); [intros ii Hii; by apply Hh, Hlt|].
  rewrite Hn, E. split; [done|]. apply check_clean; [by split; apply Hp|].
  intros j Hj. specialize (Hd j Hj). cbv zeta in Hd. cbn [db set_db cdTable] in *. case_bool_decide as Hin.
  - destruct Hd as (d' & En & Es). by apply (put_back_clean monitorAll _ d'); [apply Hh | |].
  - destruct Hd as [En Es]. destruct (differs monitorAll false d (cdTable s j)) eqn:Ed; [|done]. destruct Hin.
    apply shown_In. split; [done|]. rewrite <- Ed, !compare_differs. unfold SdfTable.compare_setting. by rewrite En, Es.
Qed.
End revert.
End checker.

(** ** Concrete instances

    A database in which every record exists and is its number and string. *)
Definition DemoDb : Type := string → binary64 * string.
Definition put_demo (n : string) (v : binary64 * string) (d : DemoDb) : DemoDb := λ m, if bool_decide (m = n) then v else d m.
Definition demo_num (n : string) (d : DemoDb) : binary64 * Z := (fst (d n), 0).
Definition demo_str (n : string) (d : DemoDb) : string * Z := (snd (d n), 0).
Definition demo_put_num (n : string) (x : binary64) (d : DemoDb) : DemoDb := put_demo n (x, snd (d n)) d.
Definition demo_put_str (n v : string) (d : DemoDb) : DemoDb := put_demo n (fst (d n), v) d.

#[global] Instance demo_epics : Epics DemoDb := {
  db_found _ _ := true; db_num := demo_num; db_long n d := (f_to_int (fst (d n)), 0); db_str := demo_str;
  put_num := demo_put_num; put_str := demo_put_str; put_long n x d := demo_put_num n (b64_ofZ x) d
}.

Lemma put_demo_eq n v d : put_demo n v d n = v.
Proof. unfold put_demo. by rewrite bool_decide_true. Qed.
Lemma put_demo_ne n m v d : n ≠ m → put_demo n v d m = d m.
Proof. intros Hn. unfold put_demo. by rewrite bool_decide_false. Qed.

#[global] Instance demo_laws : EpicsLaws DemoDb.
Proof.
  split; cbn; unfold demo_num, demo_str, demo_put_num, demo_put_str; intros; cbn;
    rewrite ?put_demo_eq; rewrite ?put_demo_ne by done; done.
Qed.

Definition demo_c (name : string) (typ : Z) (v : Data) (m i : Z) : CDS_CD_TABLE := mkCD name typ v m i 0 (-1).
Definition no_row : SET_ERR_TABLE := mkRow "" "" "" "" "" (b64_ofZ 0) 0 0 0 0 0.

(** Two settings, a number and a string, both with another value in the database. *)
Definition demo_table (j : nat) : CDS_CD_TABLE :=
  match j with
  | 0%nat => demo_c "X1:A_GAIN" SDF_NUM (chval (b64_ofZ 25)) ALL_ONES 1
  | 1%nat => demo_c "X1:A_MODE" SDF_STR (strval "by hand") ALL_ONES 1
  | _ => demo_c "" SDF_NUM (chval (b64_ofZ 0)) 0 0
  end.
Definition demo_db : DemoDb := λ _, (b64_ofZ 7, "automatic"%string).
Definition demo_sdf : Sdf :=
  mkSdf 2 demo_table demo_table 0 (λ _, mkFT "" 0 0 0 0 0 0) (λ _, 0) 0 0 0 0 0 0 (λ _, no_row) (λ _, no_row)
    (λ _, no_row) (λ _, no_row) demo_db false.
Definition demo_time (t : Z) : string := "now ".
Definition demo_pun_num (s : string) : binary64 := b64_ofZ 0.
Definition demo_pun_str (x : binary64) : string := "".

Lemma demo_plain : plain_settings demo_sdf.
Proof. split; [done | by vm_compute |]. intros [|[|i]] [|[|j]] Hi Hj; cbn in Hi, Hj; (done || lia). Qed.

(** The same with a filter module that wants its first switch alone, watched in
    its first twelve. *)
Definition demo_module : FILTER_TABLE := mkFT "X1:B_" 1 2 3 0 1 0xfff.
Definition demo_modules : Sdf := set_filterTable (λ _, demo_module) (set_fmNum 1 demo_sdf).

#[global] Instance demo_switch_laws : SwitchLaws (Db := DemoDb).
Proof.
  intros n m x d Hn. cbn. unfold demo_put_str. by rewrite put_demo_ne.
Qed.

Lemma demo_lines :
  check_lines demo_pun_num demo_pun_str false false "" false
    (put_all_switches 1 demo_db (filterTable demo_modules)) demo_modules =
  [SwitchLine 0; SettingLine 0; SettingLine 1].
Proof. by vm_compute. Qed.

Lemma demo_room :
  Z.of_nat (length (all_filter_lines false false "" demo_db (filterTable demo_modules) 1)) + Z.of_nat 2 < SDF_ERR_TSIZE.
Proof. by vm_compute. Qed.

Lemma spChecker_exact_witness :
  let '(t, n, k, _) := spChecker demo_time demo_pun_num demo_pun_str false (λ _, no_row) false "" false demo_modules in
  n = 3%nat ∧ k = 3 ∧ rname (t 0%nat) = "X1:B"%string ∧ rname (t 1%nat) = "X1:A_GAIN"%string ∧ liveset (t 2%nat) = "automatic"%string.
Proof.
  pose proof (spChecker_exact demo_time demo_pun_num demo_pun_str false (λ _, no_row) false "" false demo_modules demo_room) as H.
  destruct (spChecker _ _ _ _ _ _ _ _ demo_modules) as [[[t n] k] s2]. destruct H as (_ & Hn & Hd & Hk).
  change (fmNum demo_modules) with 1%nat in *. change (db demo_modules) with demo_db in *. rewrite demo_lines in *.
  split_and!; [exact Hn | rewrite Hk; by vm_compute | apply (Hd 0%nat _ eq_refl) | apply (Hd 1%nat _ eq_refl)|].
  destruct (Hd 2%nat _ eq_refl) as (_ & _ & _ & _ & _ & Hs). destruct Hs as (_ & -> & _); [done|]. by vm_compute.
Defined.

Lemma selection_counts_witness :
  let ms := [MClear; MAll 2; MLine 1 0 false; MLine 202 0 false; MLine 2 0 true] in
  match marks "X1" 3 ms (λ _, no_row, (7, 7, 7), demo_sdf) with
  | Some (t, sc, _) => sc = (1, 2, 1) ∧ counted 3 t sc
  | None => False
  end.
Proof.
  cbv zeta.
  destruct (marks "X1" 3 [MClear; MAll 2; MLine 1 0 false; MLine 202 0 false; MLine 2 0 true] (λ _, no_row, (7, 7, 7), demo_sdf))
    as [[[t sc] s']|] eqn:E; [|by vm_compute in E].
  split; [|exact (selection_counts "X1" 3 _ _ _ _ _ _ _ E)].
  assert (Esc : option_map (λ st : Rows * Counts * Sdf, snd (fst st))
    (marks "X1" 3 [MClear; MAll 2; MLine 1 0 false; MLine 202 0 false; MLine 2 0 true] (λ _, no_row, (7, 7, 7), demo_sdf)) =
    Some (1, 2, 1)) by by vm_compute.
  rewrite E in Esc. by injection Esc.
Defined.

Lemma page_shows_witness :
  report_page 41 7 = (1, 40, 41) ∧
  let '(mypage, lo, hi) := report_page 41 (40 / SDF_ERR_DSIZE) in mypage = 40 / SDF_ERR_DSIZE ∧ lo <= 40 < hi.
Proof.
  split; [by vm_compute|]. destruct (page_shows 41 7 ltac:(lia) ltac:(lia)) as [_ H]. apply (H 40). lia.
Defined.

Lemma accept_all_clears_witness :
  let '(t1, n, _, s1) := spChecker demo_time demo_pun_num demo_pun_str true (λ _, no_row) false "" false demo_sdf in
  n = 2%nat ∧
  ∃ t2 sc s2, marks "X1" n [MClear; MAll 2] (t1, (0, 0, 0), s1) = Some (t2, sc, s2) ∧
  let s3 := modifyTable demo_pun_num n t2 s2 in
  db s3 = demo_db ∧
  let '(_, n', k', _) := spChecker demo_time demo_pun_num demo_pun_str true (λ _, no_row) false "" false s3 in n' = 0%nat ∧ k' = 0.
Proof.
  assert (En : snd (fst (fst (spChecker demo_time demo_pun_num demo_pun_str true (λ _, no_row) false "" false demo_sdf))) = 2%nat) by by vm_compute.
  pose proof (accept_all_clears demo_time demo_pun_num demo_pun_str true "X1" (λ _, no_row) (λ _, no_row) demo_sdf demo_plain
    ltac:(intros i Hi; by vm_compute)) as H.
  destruct (spChecker _ _ _ _ _ _ _ _ demo_sdf) as [[[t1 n] k] s1]. split; [exact En | exact H].
Defined.

Lemma revert_all_clears_witness :
  let '(t1, n, _, s1) := spChecker demo_time demo_pun_num demo_pun_str true (λ _, no_row) false "" false demo_sdf in
  n = 2%nat ∧
  ∃ t2 sc s2, marks "X1" n [MClear; MAll 1] (t1, (0, 0, 0), s1) = Some (t2, sc, s2) ∧
  let s3 := resetSelectedValues demo_pun_num demo_pun_str n t2 s2 in
  cdTable s3 = demo_table ∧
  let '(_, n', k', _) := spChecker demo_time demo_pun_num demo_pun_str true (λ _, no_row) false "" false s3 in n' = 0%nat ∧ k' = 0.
Proof.
  assert (En : snd (fst (fst (spChecker demo_time demo_pun_num demo_pun_str true (λ _, no_row) false "" false demo_sdf))) = 2%nat) by by vm_compute.
  pose proof (revert_all_clears demo_time demo_pun_num demo_pun_str true "X1" (λ _, no_row) (λ _, no_row) demo_sdf demo_plain
    ltac:(intros [|[|i]] Hi; cbn in Hi; [by vm_compute | cbn; lia | lia])) as H.
  destruct (spChecker _ _ _ _ _ _ _ _ demo_sdf) as [[[t1 n] k] s1]. split; [exact En | exact H].
Defined.
End SdfProps.
