(* ===== verification/SdfFilters.v ===== *)
(** * Set point monitoring and filter modules ([src/epics/seq/main.c], [fm10Gen.c])

    The monitor compares and shows the switches of a filter module as the text of
    their control format.  The theorem here is about the two programs together:
    switch registers with the same text make the front end's filter module give
    the same output, sample by sample, so that what the monitor leaves out of
    the comparison has no influence on the signal. *)
From stdpp Require Import strings.
From S2P Require Import Prelude CFloat Ramp Iir FilterModule FilterProps CText SdfText.
Import Ramp Iir FilterModule FilterProps.
Import SdfText(const_pos, const_pos_spec, convert_spec).

Module SdfFilters.

(** The text of a switch register. *)
Definition register_text (stype e : Z) : option string :=
  SdfText.filtStrBitConvert stype (SdfText.filtCtrlBitConvert e).

(** ** The switches shown *)

(** Registers that agree on the switches shown: all but bit 0. *)
Definition agree (e e' : Z) : Prop := ∀ j, (j < 17)%nat → j ≠ 14%nat → Z.testbit e (const_pos !!! j) = Z.testbit e' (const_pos !!! j).

Lemma shown_pos j : (j < 17)%nat → j ≠ 14%nat → Z.testbit SdfText.ALL_SWSTAT_BITS (Z.of_nat j) = true.
Proof.
  intros Hj Hn. do 14 (destruct j as [|j]; [done|]). destruct j as [|j]; [by destruct Hn|].
  do 2 (destruct j as [|j]; [done|]). lia.
Qed.

Lemma land_agree w w' j :
  (j < 17)%nat → j ≠ 14%nat → Z.land (u32 w) SdfText.ALL_SWSTAT_BITS = Z.land (u32 w') SdfText.ALL_SWSTAT_BITS →
  Z.testbit w (Z.of_nat j) = Z.testbit w' (Z.of_nat j).
Proof.
  intros Hj Hn E. assert (E' : ∀ k, Z.testbit (Z.land (u32 w) SdfText.ALL_SWSTAT_BITS) k =
    Z.testbit (Z.land (u32 w') SdfText.ALL_SWSTAT_BITS) k) by (by rewrite E).
  specialize (E' (Z.of_nat j)). rewrite !Z.land_spec, !wrap_spec, shown_pos, !andb_true_r in E' by lia.
  destruct (Z.ltb_spec (Z.of_nat j) 32); [exact E' | lia].
Qed.

Lemma same_text_agree stype e e' :
  stype = 0 ∨ stype = 1 → register_text stype e = register_text stype e' → agree e e'.
Proof.
  unfold register_text. intros Hst E j Hj Hn. rewrite <- !convert_spec by done.
  apply land_agree; [done..|]. by apply (SdfText.same_text stype).
Qed.

(** Everything the front end asks of the register is a switch shown. *)
Definition asked : list Z :=
  pow2_in ++ [OPSWITCH_INPUT_ENABLE; OPSWITCH_OFFSET_ENABLE; OPSWITCH_LIMITER_ENABLE;
              OPSWITCH_DECIMATE_ENABLE; OPSWITCH_OUTPUT_ENABLE; OPSWITCH_HOLD_ENABLE].

Lemma asked_shown :
  asked = map (λ j, 2 ^ (const_pos !!! j)) [0; 1; 2; 3; 4; 5; 6; 7; 8; 9; 10; 11; 13; 15; 12; 16]%nat.
Proof. by vm_compute. Qed.

Lemma agree_asked e e' k : agree e e' → k ∈ asked → Z.land e k = Z.land e' k.
Proof.
  intros Ha. rewrite asked_shown. intros (j & -> & Hin)%list_elem_of_fmap.
  assert (Hj : (j < 17)%nat ∧ j ≠ 14%nat).
  { revert j Hin. apply Forall_forall. repeat (apply Forall_cons; split; [lia|]). constructor. }
  destruct Hj as [Hj Hn]. apply Z.bits_inj'. intros i Hi.
  rewrite !Z.land_spec, Z.pow2_bits_eqb by (destruct (const_pos_spec j Hj); lia).
  destruct (Z.eqb_spec (const_pos !!! j) i) as [<-|]; [by rewrite Ha | by rewrite !andb_false_r].
Qed.

Lemma agree_has e e' k : agree e e' → k ∈ asked → has e k = has e' k.
Proof. intros Ha Hk. unfold has. by rewrite (agree_asked e e'). Qed.

Lemma agree_pow2_in e e' ii : agree e e' → (ii < FILTERS)%nat → Z.land e (pow2_in !!! ii) = Z.land e' (pow2_in !!! ii).
Proof.
  intros Ha Hii. apply agree_asked; [done|]. apply elem_of_app. left.
  apply list_elem_of_lookup_total_2. exact Hii.
Qed.

(** ** A module under two registers

    [under e st v] is [v] with the register [e] and the status word [st], which
    shows the whole register. *)
Section modules.
Context {F : Type} `{FloatOps F}.

Definition under (e st : Z) (v : module_view F) : module_view F :=
  set_fdata (set_swStatus st (fdata v)) (set_fin (set_opSwitchE e (fin v)) v).

Lemma request_offset_under sv r e st (v : module_view F) :
  request_offset sv r (under e st v) = under e st (request_offset sv r v).
Proof. unfold request_offset. destruct v. cbn. by destruct (_ ≠ᶠ _). Qed.

Lemma input_stage_under sv x e st (v : module_view F) :
  agree (opSwitchE (fin v)) e →
  input_stage sv x (under e st v) = (fst (input_stage sv x v), under e st (snd (input_stage sv x v))).
Proof.
  intros Ha. destruct v as [i d c o g]. unfold input_stage, under, request_offset.
  cbn [fin fdata fcoef foffset fgain set_fin set_fdata set_foffset opSwitchE set_opSwitchE opSwitchP set_opSwitchP
       exciteInput set_filterInput set_inputTestpoint set_swStatus offset gain_ramp_time] in *.
  rewrite <- !(agree_has (opSwitchE i) e) by (done || (unfold asked; set_solver)).
  destruct (has (opSwitchE i) OPSWITCH_INPUT_ENABLE), (has (opSwitchE i) OPSWITCH_OFFSET_ENABLE);
  destruct (_ ≠ᶠ _);
  repeat (cbn [fin fdata fcoef foffset fgain set_fin set_fdata set_foffset opSwitchE set_opSwitchE opSwitchP set_opSwitchP
       exciteInput set_filterInput set_inputTestpoint set_swStatus offset gain_ramp_time];
    match goal with
    | |- context [if isRamping ?r then _ else _] => destruct (isRamping r)
    | |- context [RampParamUpdate ?r] => destruct (RampParamUpdate r)
    end); done.
Qed.

Lemma filter_stage_under e e' st oldP ii x (v : module_view F) :
  agree e e' → (ii < FILTERS)%nat →
  filter_stage e' oldP ii (x, under e' st v) =
  (fst (filter_stage e oldP ii (x, v)), under e' st (snd (filter_stage e oldP ii (x, v)))).
Proof.
  intros Ha Hii. destruct v as [i d c o g]. unfold filter_stage, under.
  rewrite <- (agree_pow2_in e e' ii) by done. cbv zeta.
  set (sw := Z.land e _). set (sw_out := Z.land oldP _).
  cbn [fin fdata fcoef foffset fgain set_fin set_fdata set_fcoef].
  destruct (filtSections c !!! ii =? 0); [done|]. destruct (calc_filter _ _ _) as [y c'].
  destruct (sw =? sw_out); [done|]. cbn [fin set_fcoef cnt rmpcmp timeout set_opSwitchE].
  destruct (switch_filter _ _ _ _ _ _ _ _) as [[z sw'] kk]. 
  destruct (sw =? sw'); [|done]. by destruct (truthy sw), (truthy sw').
Qed.
Lemma filter_stages_under e e' st oldP x (v : module_view F) :
  agree e e' →
  filter_stages e' oldP (x, under e' st v) =
  (fst (filter_stages e oldP (x, v)), under e' st (snd (filter_stages e oldP (x, v)))).
Proof.
  intros Ha. unfold filter_stages.
  assert (H1 : ∀ n, (n <= FILTERS)%nat → for_n n (filter_stage e' oldP) (x, under e' st v) =
    (fst (for_n n (filter_stage e oldP) (x, v)), under e' st (snd (for_n n (filter_stage e oldP) (x, v))))).
  { induction n as [|n IH]; intros Hn; [done|]. rewrite !for_up_S, Nat.add_0_l, IH by lia.
    destruct (for_n n (filter_stage e oldP) (x, v)) as [y u]. by apply filter_stage_under. }
  by apply H1.
Qed.

Lemma request_gain_under sv e st (v : module_view F) :
  request_gain sv (under e st v) = under e st (request_gain sv v).
Proof.
  destruct v as [i d c o g]. unfold request_gain, under.
  cbn [fin fdata fcoef foffset fgain set_fin set_fdata set_fgain outgain set_opSwitchE gain_ramp_time].
  destruct (_ ≠ᶠ _); cbn [fin fdata fcoef foffset fgain set_fin set_fdata set_fgain]; by destruct (isRamping _).
Qed.

Lemma limit_output_agree e e' (lim out : F) : agree e e' → limit_output e lim out = limit_output e' lim out.
Proof. intros Ha. unfold limit_output. by rewrite (agree_has e e' OPSWITCH_LIMITER_ENABLE) by (done || (unfold asked; set_solver)). Qed.

Lemma output_stage_under sv e e' st x (v : module_view F) :
  agree e e' → ∃ st', output_stage sv e' (x, under e' st v) =
  (fst (output_stage sv e (x, v)), under e' st' (snd (output_stage sv e (x, v)))).
Proof.
  intros Ha. unfold output_stage. rewrite request_gain_under. generalize (request_gain sv v). clear v.
  intros [i d c o g]. unfold under at 1. cbn [fgain set_fin set_fdata]. destruct (RampParamUpdate g) as [gv r].
  cbv zeta. rewrite <- (limit_output_agree e e') by done. unfold under.
  cbn [fin fdata fcoef foffset fgain set_fin set_fdata set_fgain limiter set_opSwitchE opSwitchP].
  set (out := limit_output _ _ _). exists (switch_status e' (opSwitchP i)). unfold route_output.
  rewrite <- !(agree_has e e') by (done || (unfold asked; set_solver)).
  cbn [fin fdata fcoef foffset fgain set_fin set_fdata set_fgain set_fcoef].
  destruct (has e OPSWITCH_HOLD_ENABLE); [done|]. destruct (has e OPSWITCH_OUTPUT_ENABLE); [|done].
  destruct (has e OPSWITCH_DECIMATE_ENABLE); [|done]. by destruct (iir_filter _ _ _ _).
Qed.

Lemma decode_under (i : FM_OP_IN F) e ctrl msk off g r :
  agree (opSwitchE i) e →
  let '(i1, e1) := decode_switches i ctrl msk off g r in
  ∃ e2, decode_switches (set_opSwitchE e i) ctrl msk off g r = (set_opSwitchE e2 i1, e2) ∧
    agree e1 e2 ∧ opSwitchE i1 = e1.
Proof.
  intros Ha. unfold decode_switches. cbv zeta. cbn [opSwitchP set_opSwitchE].
  destruct (negb (msk =? 0) && (0 <=? Z.land ctrl 65535)); [|by exists e].
  destruct (0 <? msk); [destruct (switch_bits _ _ _) as [[sw ex] c]; set (x := Z.lor ex _) | set (x := 0); set (sw := 0)].
  all: exists (Z.lor (clear e x) sw).
  all: split; [destruct (has msk 0x2000), (has msk 0x4000), (has msk 0x8000); done|].
  all: split; [|done].
  all: intros j Hj Hn; rewrite !Z.lor_spec, !clear_spec.
  all: assert (E : opSwitchE (if has msk 0x8000 then set_gain_ramp_time (fsingle r) i else i) = opSwitchE i)
    by (by destruct (has msk 0x8000)).
  1: destruct (has msk 0x2000), (has msk 0x4000), (has msk 0x8000); cbn [opSwitchE set_offset set_outgain set_gain_ramp_time set_control set_mask].
  all: try (cbn [opSwitchE set_control set_mask]); by rewrite (Ha j).
Qed.

Lemma module_step_under sv x ctrl msk off g r e st (v : module_view F) :
  length (cnt (fin v)) = FILTERS → agree (opSwitchE (fin v)) e →
  let '(y, v') := module_step sv x ctrl msk off g r v in
  ∃ e' st', module_step sv x ctrl msk off g r (under e st v) = (y, under e' st' v') ∧ agree (opSwitchE (fin v')) e'.
Proof.
  intros Hlen Ha. pose proof (module_step_protocol sv x ctrl msk off g r v Hlen) as (_ & _ & He & _).
  unfold module_step in *. cbv zeta in *.
  change (opSwitchP (fin (under e st v))) with (opSwitchP (fin v)).
  change (fin (under e st v)) with (set_opSwitchE e (fin v)).
  pose proof (decode_under (fin v) e ctrl msk off g r Ha) as Hd.
  destruct (decode_switches (fin v) ctrl msk off g r) as [i1 e1]. destruct Hd as (e2 & -> & Ha2 & He1).
  change (set_fin (set_opSwitchE e2 i1) (under e st v)) with (under e2 st (set_fin i1 v)).
  rewrite input_stage_under by (cbn [fin set_fin]; by rewrite He1).
  destruct (input_stage sv x (set_fin i1 v)) as [y v1]. cbn [fst snd] in *.
  rewrite (filter_stages_under e1 e2) by done.
  destruct (filter_stages e1 _ (y, v1)) as [z v2]. cbn [fst snd].
  destruct (output_stage_under sv e1 e2 st z v2 Ha2) as [st' ->].
  destruct (output_stage sv e1 (z, v2)) as [out v3]. cbn [fst snd] in *.
  exists e2, st'. split; [done|]. by rewrite He.
Qed.

(** Cycles of a model: its calls of [filterModuleD2] for module [m], each with its
    input and control arguments. *)
Record Sample := mkSample { s_in : F; s_ctrl : Z; s_mask : Z; s_offset : F; s_gain : F; s_ramp : F }.
Definition call (sv : servo) (m : nat) (c : Sample) (s : FMState F) : F * FMState F :=
  filterModuleD2 sv s m (s_in c) (s_ctrl c) (s_mask c) (s_offset c) (s_gain c) (s_ramp c).
Fixpoint outputs (sv : servo) (m : nat) (cs : list Sample) (s : FMState F) : list F :=
  match cs with
  | [] => []
  | c :: cs => let '(y, s) := call sv m c s in y :: outputs sv m cs s
  end.

(** The register of module [m], written by EPICS. *)
Definition register (m : nat) (s : FMState F) : Z := opSwitchE (inputs (pFilt s) !!! m).
Definition write_register (m : nat) (e : Z) (s : FMState F) : FMState F :=
  mkFM (set_inputs (alter (set_opSwitchE e) m (inputs (pFilt s))) (pFilt s)) (pC s) (offset_ramp s) (gain_ramp s).

Lemma outputs_under sv m cs s s' e st :
  wf_state m s → wf_state m s' → agree (register m s) e → view_of m s' = under e st (view_of m s) →
  outputs sv m cs s' = outputs sv m cs s.
Proof.
  revert s s' e st. induction cs as [|c cs IH]; intros s s' e st Hw Hw' Ha Hv; [done|]. cbn [outputs]. unfold call.
  pose proof (module_step_under sv (s_in c) (s_ctrl c) (s_mask c) (s_offset c) (s_gain c) (s_ramp c) e st
    (view_of m s) (wf_cnt _ _ Hw) Ha) as Hs. rewrite <- Hv in Hs.
  pose proof (filterModuleD2_wf sv s m (s_in c) (s_ctrl c) (s_mask c) (s_offset c) (s_gain c) (s_ramp c) Hw) as W.
  pose proof (filterModuleD2_wf sv s' m (s_in c) (s_ctrl c) (s_mask c) (s_offset c) (s_gain c) (s_ramp c) Hw') as W'.
  pose proof (filterModuleD2_view sv s m (s_in c) (s_ctrl c) (s_mask c) (s_offset c) (s_gain c) (s_ramp c) Hw) as V.
  pose proof (filterModuleD2_view sv s' m (s_in c) (s_ctrl c) (s_mask c) (s_offset c) (s_gain c) (s_ramp c) Hw') as V'.
  unfold filterModuleD2 in *. destruct (module_step _ _ _ _ _ _ _ (view_of m s)) as [y v].
  destruct Hs as (e' & st' & Es & Ha'). rewrite Es in *. cbn [fst snd] in *. f_equal.
  apply (IH _ _ e' st'); [done | done | | by rewrite V, V'].
  unfold register. change (inputs (pFilt ?a) !!! m) with (fin (view_of m a)). by rewrite V.
Qed.

(** C23: switch settings that the set point monitor shows alike work alike: a
    filter module whose switch register is replaced by another with the same
    text gives the same output in every cycle, whatever its filters, state,
    inputs and control inputs.  So the switches the monitor does not compare
    have no influence on the signal. *)
Theorem shown_switches_decide (sv : servo) (m : nat) (stype e : Z) (s : FMState F) (cs : list Sample) :
  wf_state m s → stype = 0 ∨ stype = 1 → register_text stype (register m s) = register_text stype e →
  outputs sv m cs (write_register m e s) = outputs sv m cs s.
Proof.
  intros Hw Hst E. pose proof (wf_inputs _ _ Hw) as Hm.
  assert (Hi : alter (set_opSwitchE e) m (inputs (pFilt s)) !!! m = set_opSwitchE e (inputs (pFilt s) !!! m)).
  { by apply lookup_total_alter_eq. }
  apply (outputs_under sv m cs s _ e (swStatus (fdata (view_of m s)))); [done | | by eapply same_text_agree |].
  - destruct Hw. split; cbn [pFilt pC offset_ramp gain_ramp write_register set_inputs inputs data]; rewrite ?length_alter; try done.
    rewrite Hi. done.
  - unfold view_of, under. cbn [pFilt pC offset_ramp gain_ramp write_register set_inputs inputs data fin fdata fcoef foffset fgain set_fin set_fdata].
    rewrite Hi. by destruct (data (pFilt s) !!! m).
Qed.
End modules.
Arguments Sample : clear implicits.

(** Bit 0 of the register set: the text, and the signal, are the same. *)
Lemma shown_switches_decide_witness :
  let s := demo_state 0x5000014 0 in
  let cs := [mkSample f1 0 0 f0 f0 f0; mkSample f1 0x40 0x40 f0 f0 f0; mkSample f0 0 0 f0 f0 f0] in
  register_text 1 0x5000015 = Some "IN,F1,LT,OT"%string ∧
  outputs SERVO16K 0 cs (write_register 0 0x5000015 s) = outputs SERVO16K 0 cs s ∧
  outputs SERVO16K 0 cs s ≠ outputs SERVO16K 0 cs (write_register 0 0x5000010 s).
Proof.
  cbv zeta. split; [by vm_compute|]. split.
  - apply (shown_switches_decide SERVO16K 0 1 0x5000015 (demo_state 0x5000014 0)
             [mkSample f1 0 0 f0 f0 f0; mkSample f1 0x40 0x40 f0 f0 f0; mkSample f0 0 0 f0 f0 f0]);
      [apply demo_wf | by right | by vm_compute].
  - vm_compute. intros E. discriminate E.
Defined.
End SdfFilters.
