(* ===== verification/SdfRestore.v ===== *)
(** * Set point monitoring: saving and restoring ([SdfFile.v])

    A table saved to a file and loaded again comes back, in the table and in the
    database, with the settings, the monitor flags and nothing else changed.  On
    the way: the lines of a file, the lines of the header that are passed over,
    the printed numbers, and the loading of one line. *)
From Stdlib Require Import String Ascii SpecFloat.
From stdpp Require Import strings.
From S2P Require Import Prelude CFloat CText CDecimal Crc SdfText SdfTable SdfFile SdfProps.
Import CDecimal SdfText SdfTable SdfFile SdfProps.

Module SdfRestore.

(** ** Lines that are passed over *)
Section first_word.
Variables a b c : ascii.
Let abc : string := String a (String b (String c "")).

Definition begins (st : PL) : Prop := ∃ w ws, words st = (abc +:+ w)%string :: ws.

Lemma begins_same st k n l : begins st → begins (mkPL (words st) k n l).
Proof. done. Qed.

Lemma begins_put sz ch st : begins st → begins (put_char sz ch st).
Proof.
  intros (w & ws & E). unfold put_char. destruct (_ <? _)%nat; [|by exists w, ws]. unfold begins. cbn [words].
  rewrite E. destruct (wc st) as [|k]; simpl; [|by eauto]. exists (w +:+ String ch "")%string, ws. done.
Qed.

Lemma substring_prefix3 n (w : string) : (3 <= n)%nat → ∃ w', String.substring 0 n (abc +:+ w)%string = (abc +:+ w')%string.
Proof. intros Hn. do 3 (destruct n as [|n]; [lia|]). exists (String.substring 0 n w). done. Qed.

Lemma begins_terminate sz st : (4 <= sz)%nat → begins st → begins (terminate sz st).
Proof.
  intros Hs (w & ws & E). unfold terminate, begins. cbn [words]. rewrite E. destruct (wc st) as [|k]; [|simpl; by eauto].
  destruct (substring_prefix3 (sz - 1) w) as [w' Ew]; [lia|]. exists w', ws. cbn [alter list_alter]. by rewrite Ew.
Qed.

Lemma begins_go sz s mode st : (4 <= sz)%nat → begins st → begins (parse_go sz s mode st).
Proof.
  intros Hs. revert mode st. induction s as [|ch s IH]; intros [n|] st Hb; cbn [parse_go]; try done.
  - by destruct n.
  - destruct n as [|n]; [|by apply IH, begins_put]. cbn [words wc cursize]. destruct (_ || _); [done|]. by apply IH.
  - destruct (bool_decide (ch = NL)); [done|]. destruct (_ || _).
    + pose proof (begins_terminate sz st Hs Hb). destruct (lastwasspace _); [by apply IH|].
      destruct (_ =? 6)%nat; [done | by apply IH].
    + destruct (_ || _); [|by apply IH]. apply IH, begins_same. by apply begins_put.
Qed.

Lemma parse_begins sz rest :
  (4 <= sz)%nat → plain a → plain b → plain c → no_quote abc →
  String.substring 0 3 (fst (parseLine (abc +:+ rest)%string sz) !!! 0%nat) = abc.
Proof.
  intros Hs Ha Hb Hc Hq.
  assert (H : begins (parse_go sz (abc +:+ rest)%string None start)).
  { rewrite go_plain; [apply begins_go; [done|]; by exists ""%string, (replicate 5 ""%string) | | done | |simpl; lia].
    - unfold abc. rewrite !all_chars_cons. apply andb_prop_intro. split; [done|]. apply andb_prop_intro. split; [done|].
      by apply andb_prop_intro.
    - intros _. by apply no_quote_head. }
  assert (Hf : ∀ st, begins st → String.substring 0 3 (map unzero (words st) !!! 0%nat) = abc).
  { intros st (w & ws & E). rewrite E. cbn [map]. unfold unzero at 1.
    rewrite bool_decide_false by done. change ((?x :: ?l) !!! 0%nat) with x. unfold abc. simpl.
    by destruct w. }
  unfold parseLine. fold start. destruct (_ && _); [|by apply Hf]. cbn [fst words].
  apply Hf. by apply begins_terminate.
Qed.
End first_word.

(** A line that begins with three such characters, other than those of the
    models' channels, is passed over. *)
Definition header_lines (timestring burtdir : string) : list string :=
  ["--- Start BURT header"; "Time:      " +:+ timestring; "Login ID: controls ()"; "Eff  UID: 1001 ";
   "Group ID: 1001 "; "Keywords:"; "Comments:"; "Type:     Absolute  "; "Directory: " +:+ burtdir;
   "Req File: autoBurt.req "; "--- End BURT header"]%string.

Lemma header_text timestring burtdir : burt_header timestring burtdir = text_of (header_lines timestring burtdir).
Proof.
  unfold burt_header, header_lines. rewrite !text_of_cons, !str_app_assoc.
  change (text_of []) with ""%string. done.
Qed.

Definition beginnings : list string :=
  ["---"; "Tim"; "Log"; "Eff"; "Gro"; "Key"; "Com"; "Typ"; "Dir"; "Req"]%string.

Section reading.
Context {Db : Type} `{!Epics Db}.
Variable pun_num : string → binary64.
Variable pun_str : binary64 → string.
Local Abbreviation Sdf := (@Sdf Db).
Local Abbreviation writeTable2File := (writeTable2File pun_num pun_str).
Local Abbreviation readConfig := (readConfig pun_num pun_str).

Lemma read_passed ifo tm cmd (a b c : ascii) rest (s : Sdf) al :
  plain a → plain b → plain c → no_quote (String a (String b (String c ""))) →
  String a (String b (String c "")) ≠ String.substring 0 3 ifo →
  read_line ifo tm cmd (String a (String b (String c rest))) (s, al) = (s, al, false).
Proof.
  intros Ha Hb Hc Hq Hi. pose proof (parse_begins a b c 128 rest) as H.
  change (String a (String b (String c "")) +:+ rest)%string with (String a (String b (String c rest))) in H.
  unfold read_line. destruct (parseLine _ 128) as [ws n]. cbn [fst] in H. rewrite H by (done || lia).
  by rewrite bool_decide_false.
Qed.

Lemma read_lines_app ifo tm cmd ls ls' (st st' : Sdf * string) :
  read_lines ifo tm cmd ls st = (st', false) →
  read_lines ifo tm cmd (ls ++ ls') st = read_lines ifo tm cmd ls' st'.
Proof.
  revert st. induction ls as [|l ls IH]; intros st; cbn [app read_lines]; [by intros [= ->]|].
  destruct (read_line ifo tm cmd l st) as [st1 full]. destruct full; [done | apply IH].
Qed.

Lemma read_header ifo tm cmd timestring burtdir (s : Sdf) al :
  String.substring 0 3 ifo ∉ beginnings →
  read_lines ifo tm cmd (map (λ l, l +:+ newline)%string (header_lines timestring burtdir)) (s, al) = (s, al, false).
Proof.
  intros Hi. unfold header_lines. cbn [map read_lines].
  assert (Hn : ∀ w, w ∈ beginnings → w ≠ String.substring 0 3 ifo) by (intros w Hw ->; done).
  rewrite !str_app_cons. repeat (rewrite read_passed; [cbv beta iota|done|done|done|done| apply Hn; apply (bool_decide_eq_true_1 _); by vm_compute]). done.
Qed.

(** ** Printed numbers *)
Lemma numeral_plain s : numeral s → all_chars plain s ∧ no_quote s ∧ one_line s.
Proof.
  intros H. split_and!; (eapply all_chars_weaken; [|exact H]); intros c; unfold numeral_char, is_digit, plain;
    repeat case_bool_decide; subst; try done.
Qed.

(** ** A saved setting

    A setting that a file can hold: its line fits in the buffer of the reader,
    its name is that of a channel of the model that is loaded and of no alarm
    field, and its value is a finite number, or a string of a record. *)
Definition saved_string (v : string) : Prop := (String.length v <= 39)%nat ∧ one_line v ∧ v ≠ "\0"%string.
Record saveable (ifo : string) (c : CDS_CD_TABLE) : Prop := {
  sv_name : good_word 128 (chname c);
  sv_ifo : String.substring 0 3 (chname c) = String.substring 0 3 ifo;
  sv_loaded : strstr (chname c) "_SWMASK" || strstr (chname c) "_SDF_NAME" || strstr (chname c) "_SWREQ" = false;
  sv_alarm : isAlarmChannel (Some (chname c)) = false;
  sv_switch : filterswitch c = 0;
  sv_line : (String.length (table_line pun_num pun_str SDF_FILE_PARAMS_ONLY c) <= 127)%nat;
  sv_value : (datatype c = SDF_NUM ∧ ∃ x, data c = chval x ∧ finite x) ∨
             (datatype c = SDF_STR ∧ ∃ v, data c = strval v ∧ saved_string v)
}.

(** The monitor flag of the file, and what it means. *)
Definition flag_word (c : CDS_CD_TABLE) : string := if truthy (SdfTable.mask c) then "1" else "0".
Definition whole_mask (c : CDS_CD_TABLE) : Z := if truthy (SdfTable.mask c) then ALL_ONES else 0.

Lemma flag_word_good c : good_word 128 (flag_word c) ∧ no_quote (flag_word c) ∧ parse_mask 4 (flag_word c) = whole_mask c.
Proof. unfold flag_word, whole_mask. by destruct (truthy _); (split; [split; (done || simpl; lia)|]). Qed.

(** What comes back: a number as its text reads. *)
Definition back (c : CDS_CD_TABLE) : Data :=
  match data c with chval x => chval (atof (fmt_e 15 x)) | strval v => strval v end.

(** A string comes back as it is, a number to its 16 digits. *)
Inductive comes_back : Data → Data → Prop :=
  | number_back x y : to_digits 15 x y → comes_back (chval x) (chval y)
  | string_back v : comes_back (strval v) (strval v).

Lemma back_spec ifo c : saveable ifo c → comes_back (SdfTable.data c) (back c).
Proof.
  intros []. unfold back. destruct sv_value0 as [[_ (x & -> & Hf)]|[_ (v & -> & _)]].
  - constructor. apply atof_fmt_e; [lia | done].
  - constructor.
Qed.

Definition shown_value (c : CDS_CD_TABLE) : string :=
  match data c with chval x => fmt_e 15 x | strval v => v end.

Lemma saved_line ifo c :
  saveable ifo c → initialized c ≠ 0 →
  table_line pun_num pun_str SDF_FILE_PARAMS_ONLY c = setting_line (chname c) (value_text pun_num pun_str c) (flag_word c).
Proof.
  intros [] Hi. unfold table_line, truthy. destruct (Z.eqb_spec (initialized c) 0); [done|].
  unfold monitor_string, flag_word. by rewrite sv_switch0.
Qed.

Lemma saved_parse ifo c :
  saveable ifo c → initialized c ≠ 0 →
  parseLine (table_line pun_num pun_str SDF_FILE_PARAMS_ONLY c) 128 =
  ([chname c; "1"; shown_value c; flag_word c; ""; ""]%string, 4).
Proof.
  intros S Hi. pose proof (sv_line _ _ S) as Hl. rewrite (saved_line ifo) in * by done.
  destruct (flag_word_good c) as (G & Hq & _). destruct S.
  apply parse_setting_line; [lia | done | | done | done]. unfold value_text, shown_value.
  destruct sv_value0 as [[Et (x & Ed & Hf)]|[Et (v & Ed & Hlen & Ho & Hz)]]; rewrite Et, Ed.
  - change (SDF_NUM =? SDF_NUM) with true. cbn [SdfTable.get_chval].
    destruct (fmt_e_numeral 15 x Hf) as [Hn Hh]. destruct (numeral_plain _ Hn) as (Hp & Hnq & _).
    apply plain_text; [|done]. split; [| done | |].
    + intros E. by rewrite E in Hh.
    + unfold setting_line, value_text in Hl. rewrite Et, Ed in Hl. change (SDF_NUM =? SDF_NUM) with true in Hl.
      cbn [SdfTable.get_chval] in Hl. rewrite !str_length_app in Hl. lia.
    + intros E. by rewrite E in Hn.
  - change (SDF_STR =? SDF_NUM) with false. cbn [SdfTable.get_strval]. apply encoded_text; (done || lia).
Qed.

(** ** Loading the line of a setting

    The tables of a model during the loading of a file: [saved] is the table
    that was written, [s0] the state at the start, [l] the settings read. *)
Definition restored (c c0 : CDS_CD_TABLE) : CDS_CD_TABLE :=
  set_initialized 1 (SdfTable.set_mask (whole_mask c) (SdfTable.set_data (back c) c0)).

Definition same_setting (c c0 : CDS_CD_TABLE) : Prop :=
  chname c0 = chname c ∧ datatype c0 = datatype c ∧ filterswitch c0 = filterswitch c.

Record loading (saved : nat → CDS_CD_TABLE) (s0 s : Sdf) (l : list nat) : Prop := {
  ld_num : chNum s = chNum s0;
  ld_filters : fmNum s = 0%nat;
  ld_db : db s = db s0;
  ld_notfound : chNotFound s = 0%nat;
  ld_errors : rderror s = 0%nat;
  ld_count : chNumP s = length l;
  ld_table j : cdTable s j = if bool_decide (j ∈ l) then restored (saved j) (cdTable s0 j) else cdTable s0 j;
  ld_entries k j : l !! k = Some j →
    chname (cdTableP s k) = chname (saved j) ∧ datatype (cdTableP s k) = datatype (saved j) ∧
    SdfTable.data (cdTableP s k) = back (saved j)
}.

Lemma same_restored c c0 : same_setting c c0 → same_setting c (restored c c0).
Proof. done. Qed.

Definition entry (c p : CDS_CD_TABLE) : CDS_CD_TABLE :=
  SdfTable.set_data (back c) (set_datatype (datatype c) (SdfTable.set_mask (whole_mask c) (set_chname (chname c) p))).

Definition names_kept (s s' : Sdf) : Prop :=
  chNumP s' = chNumP s ∧ chname (cdTableP s' (chNumP s)) = chname (cdTableP s (chNumP s)) ∧
  ∀ i, chname (cdTable s' i) = chname (cdTable s i).

Lemma load_setting_names cmd v tm j b (s : Sdf) : names_kept s (snd (load_setting cmd v tm j (b, s))).
Proof.
  unfold load_setting. case_bool_decide; [|done]. cbv zeta.
  assert (H1 : ∀ c p s1, chname c = chname (cdTable s j) → chname p = chname (cdTableP s (chNumP s)) → names_kept s s1 →
    names_kept s (set_cdTableP (upd (chNumP s1) p (cdTableP s1)) (with_cd j c s1))).
  { intros c p s1 Hc Hp (E1 & E2 & E3). split_and!; [done | |].
    - cbn [cdTableP set_cdTableP]. by rewrite E1, upd_eq.
    - intros i. simpl. unfold upd. by destruct (Nat.eqb_spec i j) as [->|]. }
  destruct (_ || _); [|destruct (truthy _); [destruct (_ >ᶠ _)|]]; apply H1; try done; by destruct (negb _).
Qed.

(** The loop over the settings finds the one of the name and loads it. *)
Lemma load_one ifo cmd tm c j (s : Sdf) :
  saveable ifo c → cmd ≠ SDF_LOAD_DB_ONLY → (j < chNum s)%nat → same_setting c (cdTable s j) →
  (∀ i, (i < chNum s)%nat → chname (cdTable s i) = chname c → i = j) →
  let n := chNumP s in
  let p := SdfTable.set_mask (whole_mask c) (set_chname (chname c) (cdTableP s n)) in
  for_n (chNum s) (load_setting cmd (shown_value c) tm) (false, set_cdTableP (upd n p (cdTableP s)) s) =
  (true, set_cdTableP (upd n (entry c (cdTableP s n)) (upd n p (cdTableP s)))
           (with_cd j (restored c (cdTable s j)) s)).
Proof.
  intros S Hcmd Hj (E1 & E2 & E3) Hd n p.
  set (s1 := set_cdTableP _ s).
  assert (H : for_n (chNum s) (load_setting cmd (shown_value c) tm) (false, s1) =
              load_setting cmd (shown_value c) tm j (false, s1)).
  { apply (for_up_single (λ st : bool * Sdf, names_kept s1 (snd st))); [done | done | |].
    - intros [b s'] (H1 & H2 & H3). destruct (load_setting_names cmd (shown_value c) tm j b s') as (H4 & H5 & H6).
      cbn [snd] in *. rewrite H1 in *. split_and!; [done | by rewrite H5, H2 | intros i; by rewrite H6].
    - intros k [b s'] Hk Hn (H1 & H2 & H3). cbn [snd] in *. unfold load_setting. rewrite H1, H2, H3.
      rewrite bool_decide_false; [done|]. intros E. apply Hn, Hd; [lia|]. etrans; [exact E|].
      cbn. by rewrite upd_eq. }
  rewrite H. clear H. unfold load_setting. unfold s1. cbn [cdTable set_cdTableP chNumP cdTableP]. rewrite upd_eq.
  rewrite bool_decide_true by done. destruct (Z.eqb_spec cmd SDF_LOAD_DB_ONLY); [done|]. cbn [negb]. cbv zeta.
  rewrite E2, E3. destruct S. rewrite sv_switch0. cbn [truthy Z.eqb negb]. unfold shown_value, entry, restored, back.
  destruct sv_value0 as [[Et (x & Ed & Hf)]|[Et (v & Ed & Hlen & Ho & Hz)]]; rewrite Et, Ed.
  - change (SDF_NUM =? SDF_STR) with false. destruct (fmt_e_numeral 15 x Hf) as [_ Hh].
    rewrite <- negb_orb, Hh. done.
  - change (SDF_STR =? SDF_STR) with true. cbn [orb].
    assert (Hfit : fits v = true) by (unfold fits; destruct (Nat.ltb_spec (String.length v) 64); (done || lia)).
    rewrite Hfit. cbn [negb overrun set_cdTableP]. rewrite orb_false_r. by destruct s.
Qed.

Lemma mark_none s1 (s : Sdf) : fmNum s = 0%nat → mark_filter s1 s = s.
Proof. intros H. unfold mark_filter. rewrite H. by destruct (is_switch s1). Qed.

Lemma read_saved saved ifo cmd tm (s0 s : Sdf) l j al :
  loading saved s0 s l → saveable ifo (saved j) → initialized (saved j) ≠ 0 → cmd ≠ SDF_LOAD_DB_ONLY →
  (j < chNum s0)%nat → j ∉ l → (∀ i, (i < chNum s0)%nat → same_setting (saved i) (cdTable s0 i)) →
  (∀ i k, (i < chNum s0)%nat → (k < chNum s0)%nat → chname (saved i) = chname (saved k) → i = k) →
  Z.of_nat (length l) < SDF_MAX_CHANS - 1 →
  ∃ s', read_line ifo tm cmd (table_line pun_num pun_str SDF_FILE_PARAMS_ONLY (saved j)) (s, al) = (s', al, false) ∧
        loading saved s0 s' (l ++ [j]).
Proof.
  intros L S Hi Hcmd Hj Hjl Hsame Hdist Hlen. destruct L.
  assert (Hcd : cdTable s j = cdTable s0 j) by (rewrite ld_table0; by rewrite bool_decide_false).
  assert (Hnames : ∀ i, (i < chNum s0)%nat → chname (cdTable s i) = chname (saved i)).
  { intros i Hn. rewrite ld_table0. destruct (Hsame i Hn) as (E & _). by case_bool_decide. }
  destruct (flag_word_good (saved j)) as (G & _ & Hmask).
  unfold read_line. rewrite (saved_parse ifo) by done.
  change ((?x :: ?m) !!! 0%nat) with x. change ((?x :: ?y :: ?m) !!! 1%nat) with y.
  change ((?x :: ?y :: ?z :: ?m) !!! 2%nat) with z. change ((?x :: ?y :: ?z :: ?u :: ?m) !!! 3%nat) with u.
  rewrite (bool_decide_false (flag_word (saved j) = ""%string)) by apply G. rewrite Hmask.
  pose proof (sv_loaded _ _ S) as Hload. apply orb_false_elim in Hload as [[Hl1 Hl2]%orb_false_elim Hl3].
  rewrite (sv_alarm _ _ S), Hl1, Hl2, Hl3, bool_decide_true by apply S. cbn [negb andb Z.ltb Z.compare Pos.compare Pos.compare_cont].
  rewrite (load_one ifo cmd tm (saved j) j); [|done|done|by rewrite ld_num0|rewrite Hcd; by apply Hsame|].
  2:{ intros i Hn E. rewrite ld_num0 in Hn. apply Hdist; [done..|]. by rewrite <- Hnames. }
  cbv beta iota zeta. rewrite mark_none by done. cbn [chNumP set_chNumP set_cdTableP with_cd set_cdTable].
  eexists. split.
  { rewrite (proj2 (Z.leb_gt _ _)); [done|]. cbn [chNumP set_chNumP]. rewrite ld_count0. lia. }
  split; cbn [chNum fmNum db chNotFound rderror chNumP cdTable cdTableP set_chNumP set_cdTableP with_cd set_cdTable];
    try done.
  - rewrite ld_count0, length_app. simpl. lia.
  - intros i. unfold upd. destruct (Nat.eqb_spec i j) as [->|Hn].
    + rewrite bool_decide_true by (apply elem_of_app; right; by left). by rewrite Hcd.
    + rewrite ld_table0. erewrite bool_decide_ext; [done|]. rewrite elem_of_app, list_elem_of_singleton. tauto.
  - intros k i [Hk|[Hge Hk]]%lookup_app_Some.
    + assert (k < length l)%nat by (by eapply lookup_lt_Some). rewrite !upd_ne by lia. by apply ld_entries0.
    + destruct (k - length l)%nat eqn:Ek; [|done]. injection Hk as <-.
      replace k with (chNumP s) by lia. by rewrite upd_eq.
Qed.

Lemma read_all saved ifo cmd tm (s0 s : Sdf) l1 l2 al :
  loading saved s0 s l1 → cmd ≠ SDF_LOAD_DB_ONLY → NoDup (l1 ++ l2) →
  (∀ j, j ∈ l2 → (j < chNum s0)%nat ∧ saveable ifo (saved j) ∧ initialized (saved j) ≠ 0) →
  (∀ i, (i < chNum s0)%nat → same_setting (saved i) (cdTable s0 i)) →
  (∀ i k, (i < chNum s0)%nat → (k < chNum s0)%nat → chname (saved i) = chname (saved k) → i = k) →
  Z.of_nat (length l1 + length l2) < SDF_MAX_CHANS →
  ∃ s', read_lines ifo tm cmd (map (λ j, table_line pun_num pun_str SDF_FILE_PARAMS_ONLY (saved j)) l2) (s, al) =
          (s', al, false) ∧ loading saved s0 s' (l1 ++ l2).
Proof.
  revert s l1. induction l2 as [|j l2 IH]; intros s l1 L Hcmd Hnd Hok Hsame Hdist Hlen.
  { rewrite app_nil_r. by exists s. }
  cbn [map read_lines]. destruct (Hok j) as (Hj & S & Hi); [by left|].
  destruct (read_saved saved ifo cmd tm s0 s l1 j al) as (s1 & -> & L1); try done.
  { apply NoDup_app in Hnd as (_ & H & _). intros Hin. apply (H j Hin). by left. }
  { simpl in Hlen. lia. }
  destruct (IH s1 (l1 ++ [j])) as (s2 & E & L2); try done.
  - by rewrite <- app_assoc.
  - intros i Hin. apply Hok. by right.
  - rewrite length_app. simpl in *. lia.
  - exists s2. rewrite <- app_assoc in L2. done.
Qed.

(** ** The file *)
Definition saved_settings (saved : nat → CDS_CD_TABLE) (n : nat) : list nat :=
  filter (λ j, initialized (saved j) ≠ 0) (seq 0 n).

Definition line_body (c : CDS_CD_TABLE) : string :=
  (chname c +:+ " 1 " +:+ value_text pun_num pun_str c +:+ " " +:+ flag_word c)%string.

Lemma saved_body ifo c :
  saveable ifo c → initialized c ≠ 0 →
  table_line pun_num pun_str SDF_FILE_PARAMS_ONLY c = (line_body c +:+ newline)%string ∧ line_fits 127 (line_body c).
Proof.
  intros S Hi. assert (E : table_line pun_num pun_str SDF_FILE_PARAMS_ONLY c = (line_body c +:+ newline)%string).
  { rewrite (saved_line ifo) by done. unfold setting_line, line_body. by rewrite !str_app_assoc. }
  split; [done|]. pose proof (sv_line _ _ S) as Hl. rewrite E, str_length_app in Hl. simpl in Hl.
  split; [|lia]. unfold one_line, line_body. rewrite !all_chars_app.
  assert (Hp : ∀ w, all_chars plain w → all_chars (λ ch, negb (bool_decide (ch = NL))) w).
  { intros w. apply all_chars_weaken. intros ch. unfold plain. by destruct (bool_decide (ch = NL)). }
  assert (Hv : all_chars (λ ch, negb (bool_decide (ch = NL))) (value_text pun_num pun_str c)).
  { destruct S. unfold value_text. destruct sv_value0 as [[-> (x & -> & Hf)]|[-> (v & -> & Hlen & Ho & _)]].
    - destruct (fmt_e_numeral 15 x Hf) as [Hn _]. by destruct (numeral_plain _ Hn) as (_ & _ & ?).
    - change (SDF_STR =? SDF_NUM) with false. cbn [SdfTable.get_strval].
      destruct (encode_cases v) as [[_ ->]|[[_ ->]|(_ & _ & ->)]]; [lia | done | | done].
      unfold quote. rewrite all_chars_cons, all_chars_app. by repeat (apply andb_prop_intro; split). }
  repeat (apply andb_prop_intro; split); [apply Hp, S | done | done | done |].
  unfold flag_word. by destruct (truthy _).
Qed.

Lemma file_text timestring burtdir (saved : Sdf) ifo :
  (∀ j, (j < chNum saved)%nat → saveable ifo (cdTable saved j)) →
  writeTable2File timestring burtdir SDF_FILE_PARAMS_ONLY (cdTable saved) saved =
  text_of (header_lines timestring burtdir ++
           map (λ j, line_body (cdTable saved j)) (saved_settings (cdTable saved) (chNum saved))).
Proof.
  intros Hs. unfold writeTable2File. rewrite header_text. unfold saved_settings.
  assert (H : ∀ n, (n <= chNum saved)%nat →
    for_n n (λ ii file, (file +:+ table_line pun_num pun_str SDF_FILE_PARAMS_ONLY (cdTable saved ii))%string)
      (text_of (header_lines timestring burtdir)) =
    text_of (header_lines timestring burtdir ++
      map (λ j, line_body (cdTable saved j)) (filter (λ j, initialized (cdTable saved j) ≠ 0) (seq 0 n)))).
  { induction n as [|n IH]; intros Hn; [cbn [seq for_up]; rewrite filter_nil; cbn [map]; by rewrite app_nil_r|].
    rewrite for_up_S, Nat.add_0_l, IH by lia. rewrite seq_S, filter_app, map_app, app_assoc, (text_of_app (_ ++ _)).
    f_equal. rewrite filter_cons, filter_nil. destruct (decide _) as [Hi|Hi].
    - cbn [map]. rewrite text_of_cons. destruct (saved_body ifo (cdTable saved n)) as [-> _]; [apply Hs; lia | done|]. done.
    - cbn [map]. unfold table_line, truthy. destruct (Z.eqb_spec (initialized (cdTable saved n)) 0); [done|].
      by destruct Hi. }
  by apply H.
Qed.

(** ** The database *)
Section database.
Context `{!EpicsLaws Db}.

(** The database holds the value of a setting as it comes back. *)
Definition held (c : CDS_CD_TABLE) (d : Db) : Prop :=
  (datatype c = SDF_NUM → fst (db_num (chname c) d) = SdfTable.get_chval pun_num (back c)) ∧
  (datatype c ≠ SDF_NUM → fst (db_str (chname c) d) = SdfTable.get_strval pun_str (back c)).

Lemma put_setting_found c m d : db_found m (put_setting pun_num pun_str c d) = db_found m d.
Proof. unfold put_setting. destruct (_ =? _); [apply found_put_num | apply found_put_str]. Qed.

Lemma put_setting_held ifo c p d :
  saveable ifo c → chname p = chname c → datatype p = datatype c → SdfTable.data p = back c →
  held c (put_setting pun_num pun_str p d).
Proof.
  intros S E1 E2 E3. unfold put_setting. rewrite E1, E2, E3. split; intros Ht.
  - rewrite Ht. apply num_put.
  - destruct (Z.eqb_spec (datatype c) SDF_NUM); [done|]. destruct S.
    destruct sv_value0 as [[Et _]|[Et (v & Ed & Hl & _)]]; [done|]. unfold back. rewrite Ed. by apply str_put.
Qed.

Lemma held_other c n d d' :
  chname c ≠ n → (∀ m, m ≠ n → db_num m d' = db_num m d ∧ db_str m d' = db_str m d) → held c d → held c d'.
Proof. intros Hn Ho [H1 H2]. unfold held. by destruct (Ho (chname c) Hn) as [-> ->]. Qed.

Lemma write_all ifo (saved : nat → CDS_CD_TABLE) (s0 s : Sdf) l d0 :
  loading saved s0 s l → NoDup l → (∀ j, j ∈ l → (j < chNum s0)%nat ∧ saveable ifo (saved j)) →
  (∀ i k, (i < chNum s0)%nat → (k < chNum s0)%nat → chname (saved i) = chname (saved k) → i = k) →
  let '(d, st) := writeEpicsDb pun_num pun_str (chNumP s) (cdTableP s) SDF_LOAD_PARTIAL d0 in
  st = 0 ∧ (∀ m, db_found m d = db_found m d0) ∧ ∀ j, j ∈ l → db_found (chname (saved j)) d0 → held (saved j) d.
Proof.
  intros L Hnd Hok Hdist. unfold writeEpicsDb. cbn [orb SDF_LOAD_PARTIAL SDF_LOAD_DB_ONLY Z.eqb Pos.eqb]. split; [done|].
  rewrite (ld_count _ _ _ _ L).
  set (body := λ (ii : nat) (d : Db), _).
  set (P := λ (k : nat) (d : Db), (∀ m, db_found m d = db_found m d0) ∧
    ∀ i j, (i < k)%nat → l !! i = Some j → db_found (chname (saved j)) d0 → held (saved j) d).
  assert (HP : P (length l) (for_n (length l) body d0)).
  { apply (for_up_ind P _ 0 (length l)); [split; [done | intros; lia]|].
    intros k d Hk [Hf Hh]. destruct (lookup_lt_is_Some_2 l k) as [jk Hjk]; [lia|].
    destruct (ld_entries _ _ _ _ L k jk Hjk) as (E1 & E2 & E3).
    destruct (Hok jk) as [Hjk' S]; [by eapply list_elem_of_lookup_2|].
    unfold body. rewrite E1, Hf. destruct (db_found (chname (saved jk)) d0) eqn:Ef.
    - split; [intros m; by rewrite put_setting_found|]. intros i j Hi Hj Hfj.
      destruct (decide (i = k)) as [->|Hn].
      + assert (j = jk) as -> by congruence. by eapply put_setting_held.
      + assert (Hne : j ≠ jk) by (intros ->; apply Hn; by eapply NoDup_lookup).
        destruct (Hok j) as [Hj' _]; [by eapply list_elem_of_lookup_2|].
        apply (held_other _ (chname (saved jk)) d); [intros E; by apply Hne, Hdist | | apply (Hh i); (done || lia)].
        intros m Hm. rewrite <- E1 in Hm. apply put_back_other; congruence.
    - split; [done|]. intros i j Hi Hj Hfj. destruct (decide (i = k)) as [->|Hn]; [|apply (Hh i); (done || lia)].
      assert (j = jk) as -> by congruence. by rewrite Ef in Hfj. }
  destruct HP as [Hf Hh]. split; [done|]. intros j (i & Hi)%list_elem_of_lookup Hfj.
  apply (Hh i); [by eapply lookup_lt_Some | done | done].
Qed.

(** C11: settings saved to a file are restored by loading it: whatever values the
    settings of the model had in the meantime, each setting saved gets its value
    back, a string as it was, a number as the double of the 16 digit decimal that
    is nearest to it; it is monitored if it was, and counts as set, other settings
    stay as they are; no channel is reported as unknown and no error; and the
    database holds every restored value it has a record for.  The model has no
    filter modules; settings are [saveable]: finite numbers or strings a record
    holds, with a line that fits the reader, names of this model that are
    distinct, neither alarm fields nor switches nor the time channel. *)
Theorem save_then_restore (timestring burtdir pref timechan now : string) (saved s : Sdf) :
  String.substring 0 3 (String.substring 0 3 pref) ∉ beginnings →
  Forall (line_fits 127) (header_lines timestring burtdir) →
  (∀ j, (j < chNum saved)%nat → saveable (String.substring 0 3 pref) (cdTable saved j) ∧ chname (cdTable saved j) ≠ timechan) →
  (∀ i k, (i < chNum saved)%nat → (k < chNum saved)%nat → chname (cdTable saved i) = chname (cdTable saved k) → i = k) →
  Z.of_nat (chNum saved) < SDF_MAX_CHANS →
  fmNum s = 0%nat → chNum s = chNum saved → (∀ j, (j < chNum s)%nat → same_setting (cdTable saved j) (cdTable s j)) →
  let file := writeTable2File timestring burtdir SDF_FILE_PARAMS_ONLY (cdTable saved) saved in
  let '(s', status, _) := readConfig pref timechan now (Some file) SDF_LOAD_PARTIAL s in
  status = 0 ∧ chNotFound s' = 0%nat ∧
  ∀ j, (j < chNum s)%nat →
    if decide (initialized (cdTable saved j) ≠ 0) then
      cdTable s' j = restored (cdTable saved j) (cdTable s j) ∧
      comes_back (SdfTable.data (cdTable saved j)) (SdfTable.data (cdTable s' j)) ∧
      (db_found (chname (cdTable saved j)) (db s) → held (cdTable saved j) (db s'))
    else cdTable s' j = cdTable s j.
Proof.
  intros Hifo Hhead Hok Hdist Hmax Hfm Hnum Hsame. cbv zeta.
  set (l := saved_settings (cdTable saved) (chNum saved)).
  assert (Hl : ∀ j, j ∈ l → (j < chNum s)%nat ∧ saveable (String.substring 0 3 pref) (cdTable saved j) ∧ initialized (cdTable saved j) ≠ 0).
  { intros j [Hi Hj%elem_of_seq]%list_elem_of_filter. rewrite Hnum. split_and!; [lia | apply Hok; lia | done]. }
  assert (Hnd : NoDup l) by (apply NoDup_filter, NoDup_seq).
  unfold SdfFile.readConfig. cbn [SDF_LOAD_PARTIAL SDF_RESET Z.eqb Pos.eqb].
  rewrite (file_text timestring burtdir saved (String.substring 0 3 pref)) by (intros j Hj; by apply Hok).
  unfold file_lines. rewrite pieces_text.
  2:{ apply Forall_app. split; [done|]. apply Forall_forall. intros b (j & -> & Hj)%list_elem_of_fmap.
      destruct (Hl j Hj) as (_ & S & Hi). by apply (saved_body (String.substring 0 3 pref)). }
  rewrite map_app, map_map.
  rewrite (map_ext_in _ (λ j, table_line pun_num pun_str SDF_FILE_PARAMS_ONLY (cdTable saved j))).
  2:{ intros j Hj. apply list_elem_of_In in Hj. destruct (Hl j Hj) as (_ & S & Hi).
      symmetry. by apply (saved_body (String.substring 0 3 pref)). }
  set (s1 := set_chNotFound _ _).
  rewrite (read_lines_app _ _ _ _ _ _ (s1, ""%string)) by (by apply read_header).
  destruct (read_all (cdTable saved) (String.substring 0 3 pref) SDF_LOAD_PARTIAL now s1 s1 [] l "") as (s2 & E & L); try done.
  { intros i k Hi Hk. cbn in Hi, Hk. rewrite Hnum in *. by apply Hdist. }
  { assert (length l <= chNum saved)%nat; [|simpl; lia]. unfold l, saved_settings. etrans; [apply length_filter|]. by rewrite length_seq. }
  fold l. rewrite E. clear E. cbn [app] in L.
  pose proof (write_all (String.substring 0 3 pref) (cdTable saved) s1 s2 l (db s2) L Hnd) as W.
  destruct (writeEpicsDb _ _ _ _ _ _) as [d st]. destruct W as (-> & Hf & Hh).
  { intros j Hj. by destruct (Hl j Hj) as (? & ? & _). }
  { intros i k Hi Hk. cbn in Hi, Hk. rewrite Hnum in *. by apply Hdist. }
  rewrite (ld_filters _ _ _ _ L). unfold newfilterstats. cbn [for_up rderror set_db].
  rewrite (ld_errors _ _ _ _ L). cbn [Nat.eqb]. split; [done|]. split; [apply L|].
  intros j Hj. cbn [cdTable db set_db]. rewrite (ld_table _ _ _ _ L).
  destruct (decide _) as [Hi|Hi].
  - assert (Hin : j ∈ l) by (apply list_elem_of_filter; rewrite elem_of_seq; split; [done | lia]).
    rewrite bool_decide_true by done. split; [done|].
    split; [apply (back_spec (String.substring 0 3 pref)); by apply Hl|]. intros Hfj.
    apply (held_other _ timechan d); [apply Hok; lia | |].
    + intros m Hm. by rewrite num_put_str, str_put_str by congruence.
    + apply Hh; [done|]. by rewrite (ld_db _ _ _ _ L).
  - rewrite bool_decide_false; [done|]. intros [? _]%list_elem_of_filter. done.
Qed.
End database.
End reading.

(** ** Alarm settings *)
Section alarms.
Context {Db : Type} `{!Epics Db}.
Local Abbreviation Sdf := (@Sdf Db).

Lemma mark_filter_frame s1 (s : Sdf) :
  cdTable (mark_filter s1 s) = cdTable s ∧ chNumP (mark_filter s1 s) = chNumP s ∧ db (mark_filter s1 s) = db s ∧
  chNotFound (mark_filter s1 s) = chNotFound s ∧ alarmCnt (mark_filter s1 s) = alarmCnt s.
Proof. unfold mark_filter. destruct (is_switch s1); [|done]. by destruct (snd _). Qed.

(** the setting of an alarm in a file is read, copied to the file of alarms
    and dropped: it is no entry of the list that is then written to the
    database, the next setting takes its place there, and the channel is
    reported as not found although the model has it. *)
Theorem alarm_settings_dropped (ifo tm line : string) (cmd : Z) (s : Sdf) (al : string) (ws : list string) (n : Z) :
  parseLine line 128 = (ws, n) → 2 < n →
  String.substring 0 3 (ws !!! 0%nat) = String.substring 0 3 ifo →
  strstr (ws !!! 0%nat) "_SWMASK" || strstr (ws !!! 0%nat) "_SDF_NAME" || strstr (ws !!! 0%nat) "_SWREQ" = false →
  isAlarmChannel (Some (ws !!! 0%nat)) = true →
  let '(s', al', _) := read_line ifo tm cmd line (s, al) in
  cdTable s' = cdTable s ∧ db s' = db s ∧ chNumP s' = chNumP s ∧
  alarmCnt s' = alarmCnt s + 1 ∧ chNotFound s' = S (chNotFound s) ∧
  al' = (al +:+ ws !!! 0%nat +:+ " " +:+ ws !!! 1%nat +:+ " " +:+ ws !!! 2%nat +:+ newline)%string.
Proof.
  intros Ep Hn Hi [[H1 H2]%orb_false_elim H3]%orb_false_elim Ha. unfold read_line. rewrite Ep.
  rewrite Hi, bool_decide_true, H1, H2, H3, Ha by done. destruct (Z.ltb_spec 2 n); [|lia]. cbn [negb andb]. cbv zeta.
  match goal with |- context [mark_filter ?w ?s0] =>
    destruct (mark_filter_frame w s0) as (E1 & E2 & E3 & E4 & E5); generalize dependent (mark_filter w s0) end.
  intros sm E1 E2 E3 E4 E5.
  destruct (_ <? SDF_ERR_TSIZE); cbn [cdTable db chNumP alarmCnt chNotFound set_chNotFound set_unknownChans];
    rewrite E1, E2, E3, E4, E5; done.
Qed.
End alarms.

Lemma alarm_settings_dropped_witness :
  let line := ("X1:A_GAIN.HIHI 1 5.0" +:+ newline)%string in
  let '(s', al', _) := read_line "X1:" "one" SDF_LOAD_PARTIAL line (demo_sdf, ""%string) in
  cdTable s' = demo_table ∧ db s' = demo_db ∧ chNumP s' = 0%nat ∧ alarmCnt s' = 1 ∧ chNotFound s' = 1%nat ∧
  al' = ("X1:A_GAIN.HIHI 1 5.0" +:+ newline)%string.
Proof.
  exact (alarm_settings_dropped "X1:" "one" ("X1:A_GAIN.HIHI 1 5.0" +:+ newline) SDF_LOAD_PARTIAL demo_sdf ""
    ["X1:A_GAIN.HIHI"; "1"; "5.0"; ""; ""; ""]%string 3 ltac:(by vm_compute) eq_refl eq_refl eq_refl eq_refl).
Defined.

(** ** The checksum of a file *)
Lemma crc_pieces ps flen crc :
  no_nul (concat ps) → 0 <= flen → flen + Z.of_nat (String.length (concat ps)) < 2 ^ 31 →
  fold_left (λ st piece, crc_piece piece st) ps (flen, crc) =
  (flen + Z.of_nat (String.length (concat ps)), Crc.crc_ptr (bytes_of (concat ps)) (String.length (concat ps)) crc).
Proof.
  revert flen crc. induction ps as [|p ps IH]; intros flen crc Hn Hf Hl; [simpl; f_equal; lia|].
  cbn [concat foldr] in *. change (foldr String.append ""%string ps) with (concat ps) in *.
  unfold no_nul in Hn. rewrite all_chars_app in Hn. apply andb_prop_elim in Hn as [Hp Hn].
  rewrite str_length_app in *. cbn [fold_left crc_piece]. rewrite c_str_all by done.
  rewrite swrap_small by lia. rewrite IH by (done || lia). rewrite bytes_app. f_equal; [lia|].
  rewrite <- !(bytes_length p), <- !(bytes_length (concat ps)). symmetry. apply crc_ptr_app.
Qed.

(** the checksum the monitor keeps of a set point file, computed piece by
    piece as the file is read, is the checksum of its text as one block, however
    the text falls in lines and pieces. *)
Theorem checkFileCrc_whole (text : string) :
  no_nul text → Z.of_nat (String.length text) < 2 ^ 31 →
  checkFileCrc (Some text) =
  Crc.crc_len (Z.of_nat (String.length text)) (Crc.crc_ptr (bytes_of text) (String.length text) 0).
Proof.
  intros Hn Hl. unfold checkFileCrc, file_lines.
  assert (E : concat (fgets_all 127 127 "" text) = text) by apply (fgets_pieces 127 127 "").
  rewrite crc_pieces; rewrite ?E; [|done..|lia]. rewrite Z.add_0_l, wrap_small; [done | lia].
Qed.

Lemma checkFileCrc_whole_witness :
  let text := ("X1:A_GAIN 1 2.5 1" +:+ newline +:+ "X1:A_NAME 1 off 0" +:+ newline)%string in
  checkFileCrc (Some text) = Crc.crc_len 36 (Crc.crc_ptr (bytes_of text) 36 0).
Proof. cbv zeta. apply checkFileCrc_whole; by vm_compute. Defined.

(** ** A concrete instance

    The model of [SdfProps.v] with its settings changed after they were saved.
    The sum of the doubles nearest 0.1 and 0.2 is a number that 16 digits do not
    identify: it would come back as another one. *)
Definition changed_table (j : nat) : CDS_CD_TABLE :=
  match j with
  | 0%nat => demo_c "X1:A_GAIN" SDF_NUM (chval (b64_ofZ 3)) 0 0
  | 1%nat => demo_c "X1:A_MODE" SDF_STR (strval "off") 0 0
  | _ => demo_table j
  end.
Definition demo_changed : Sdf := set_cdTable changed_table demo_sdf.

Lemma demo_saveable j : (j < 2)%nat → saveable demo_pun_num demo_pun_str "X1:" (demo_table j).
Proof.
  intros Hj. destruct j as [|[|j]]; [| | lia]; split; try done.
  - split; [done | by vm_compute | cbn; lia | done].
  - apply Nat.leb_le. by vm_compute.
  - left. split; [done|]. by eexists.
  - split; [done | by vm_compute | cbn; lia | done].
  - apply Nat.leb_le. by vm_compute.
  - right. split; [done|]. eexists. split; [done|]. split; [cbn; lia | by vm_compute].
Qed.

Lemma save_then_restore_witness :
  let file := writeTable2File demo_pun_num demo_pun_str "noon" "/tmp" SDF_FILE_PARAMS_ONLY demo_table demo_sdf in
  let '(s', status, _) := readConfig demo_pun_num demo_pun_str "X1:A" "X1:TIME" "one" (Some file) SDF_LOAD_PARTIAL demo_changed in
  status = 0 ∧ cdTable s' 1%nat = demo_table 1 ∧ fst (db_num "X1:A_GAIN" (db s')) = b64_ofZ 25 ∧
  let x := b64_ofZ 1 ⊘ b64_ofZ 10 ⊕ b64_ofZ 2 ⊘ b64_ofZ 10 in atof (fmt_e 15 x) ≠ x.
Proof.
  pose proof (save_then_restore demo_pun_num demo_pun_str "noon" "/tmp" "X1:A" "X1:TIME" "one" demo_sdf demo_changed) as H.
  cbv zeta in H |- *. change (cdTable demo_sdf) with demo_table in H.
  destruct (readConfig _ _ _ _ _ _ _ demo_changed) as [[s' status] al].
  destruct H as (H1 & _ & H2).
  - intros Hin. apply (bool_decide_eq_true_2 _) in Hin. by vm_compute in Hin.
  - repeat (apply Forall_cons; split; [split; [by vm_compute | apply Nat.ltb_lt; by vm_compute]|]). constructor.
  - intros j Hj. split; [by apply demo_saveable|]. destruct j as [|[|j]]; [done | done | cbn in Hj; lia].
  - apply (distinct _ demo_plain).
  - by vm_compute.
  - done.
  - done.
  - intros [|[|j]] Hj; [done | done | cbn in Hj; lia].
  - split; [done|]. pose proof (H2 0%nat ltac:(cbn; lia)) as (_ & _ & Hg). pose proof (H2 1%nat ltac:(cbn; lia)) as [Hm _].
    split; [exact Hm|]. split; [by apply Hg|]. vm_compute. intros E. discriminate E.
Defined.
End SdfRestore.
